(* ===== verification/_CoqProject ===== *)
-Q . S2P
Prelude.v
State.v
Spinlock.v
CString.v
Mem.v
Kalloc.v
Vm.v
PageTable.v
UvmSpec.v
Sched.v
SchedLive.v
FileLayer.v
Proc.v
SpaceSpec.v
GrowSpec.v
Namespace.v
PsList.v
Ring.v
Console.v
Bio.v
BufCache.v
Virtio.v
Log.v
FsLogic.v
BufSpec.v
LogSpec.v
VirtioSpec.v
Crash.v
Fs.v
TxnSpec.v
BlockSpec.v
FileSpec.v
InodeSpec.v
DinodeSpec.v
RwSpec.v
FreeSpec.v
Pipe.v
File.v
FsSpec.v
DeleteSpec.v
DirSpec.v
Syscall.v
ExecSpec.v
Trap.v
Invariant.v
KernelInv.v
LockWord.v
Asm.v
UserCode.v
UserLib.v
Programs.v
GrepSpec.v
Umalloc.v
MallocSpec.v
Sh.v
ShSpec.v
ShGrammar.v
ShRun.v
Tools.v
