(* ===== verification/Prelude.v ===== *)
(** * A verification development for the xv6-riscv kernel with pid namespaces

    The program is xv6 for RISC-V, extended by pid namespaces (clone), by the
    system calls ps_list, ps_list_global and ps_info and by accounting of CPU
    time and I/O.  The library models the kernel under src/kernel and the
    programs under src/user: the system call stubs, the first process, init,
    the shell, the allocator, the C library, the text tools, ps and ls.

    ** How code is modelled

    C functions are functions of a state monad, [M S A := S -> outcome S A]
    (this file).  A run ends [Done] with a result, in [Panic] (the kernel's
    panic), in [Fault] (an access the C code has no right to: a null pointer,
    an array overrun), in [NoFuel], or in [Switch s k]: the code has called
    swtch in state [s] and [k] is what it does when it is resumed, in whatever
    state the other threads have made of [s].  The kernel's state is the
    record [kstate] of State.v; integers are [Z] with their wrap-around
    written out ([u32], [i32], ...), physical memory is a map from addresses
    to bytes, pointers into static tables are indices.

    Assertions: [wp m s Q] (m returns, without switching, with Q), [rwp R m s
    Q] (m returns with Q if each switch is resumed by a state the relation R
    allows), [segs]/[frame]/[inv]/[pres] (what every stretch of m between two
    switches keeps, whatever runs in between).  All of them are total: they
    exclude panic, fault and lack of fuel.

    ** Files

    - Prelude: integers, record update, the monad and its logics, lemmas on
      lists.  State: param.h, memlayout.h, riscv.h, the structs, [kstate].
    - Spinlock, CString, Mem, Kalloc, Vm, PageTable: spinlock.c, string.c,
      kalloc.c, vm.c.  PageTable has the tree in memory as a finite map.
      UvmSpec, SpaceSpec, GrowSpec: address spaces, which uvmcopy copies,
      proc_pagetable makes, proc_freepagetable frees and growproc resizes.
      LockWord: the lock word of spinlock.c under any interleaving of harts.
    - Sched, FileLayer, Proc, Namespace, PsList: proc.c.  FileLayer is the
      class of what proc.c calls of the file system; File.v has its instance.
      SchedLive: the scheduler against processes that do what they like.
    - Ring, Console: the ring buffers; uart.c, printf.c, console.c.
    - Bio, BufCache, Virtio, Log, Fs, Pipe, File: sleeplock.c and bio.c,
      virtio_disk.c, log.c, fs.c, pipe.c, file.c.  Bio reaches the disk through
      the class [Disk]; Virtio has the instance.
    - FsLogic, BufSpec, LogSpec, VirtioSpec, Crash: what cache, log and driver
      promise.  [fwp] is the logic of code that one process runs in the file
      system; BufSpec and LogSpec are proved against the class [DiskLaw],
      which VirtioSpec establishes for the driver with its device.
    - TxnSpec, BlockSpec, FileSpec, InodeSpec, DinodeSpec, RwSpec, FreeSpec: the
      file system inside a transaction: balloc and bfree; the blocks of a
      file; bmap; iupdate, ilock, iunlock; readi and writei; itrunc.
      FsSpec, DeleteSpec, DirSpec: the file system as a set of files, deleting
      a file, and a directory as a map from names to inode numbers.
    - Syscall, Trap: syscall.c, sysproc.c, sysfile.c, exec.c; trap.c, plic.c,
      main.c.  ExecSpec: the stack that exec makes.  Invariant, KernelInv: an
      invariant of the whole kernel.
    - Asm: entry.S, start.c, swtch.S, trampoline.S, kernelvec.S as instruction
      lists run by an interpreter.  UserCode: usys.pl, syscall.h and
      initcode.S as machine code that a hart in user mode fetches and decodes.
    - UserLib, Programs, GrepSpec: ulib.c, printf.c; grep.c, wc.c, cat.c,
      echo.c.  Umalloc, MallocSpec: umalloc.c.  Sh, ShSpec, ShGrammar, ShRun:
      sh.c.  Tools: init.c, ps.c, ls.c, rm.c, mkdir.c, ln.c, kill.c,
      shutdown.c, zombie.c and stat() of ulib.c, each as one process against
      any kernel, whose state is the log of its system calls.

    ** What the theorems show

    - Files (FsSpec): a write as filewrite makes it is atomic, also under a
      crash at any write to the disk; it changes the file as it should and no
      other; the file system stays consistent; readi reads back what writei
      wrote; a transaction of filewrite never exceeds the log space that
      begin_op sets aside.  In the same sense, giving up the last reference to
      a file without a name deletes it (DeleteSpec) and dirlink adds a name to
      a directory (DirSpec).  Below that: transactions are atomic and durable
      (Crash), recovery may itself be cut short (Crash), the driver with the
      device is an atomic read or write of a block (VirtioSpec).
    - The kernel as a whole: the invariant of KernelInv holds in every state
      reached by any interleaving of traps, system calls, interrupts and
      switches, and boot establishes it; so does that the process table
      keeps its C types: array lengths, and counters within a uint.
    - Processes: pids are unique in each namespace under any interleaving of
      the operations of proc.c; what allocproc, reparent, compare_ns, ps_list,
      kill, sleep and wakeup do; no runnable process waits for the CPU longer
      than the entries before it take (SchedLive).  Some theorems show
      behaviour that is not wanted: clockintr_panics,
      exiting_head_keeps_children, clone_at_limit_leaks,
      kill_zero_born_killed.
    - Memory: the free list refines a list of pages; mappages, copyin, copyout
      refine operations on a map from pages to frames.  fork gives the child
      the same bytes in pages of its own; making, copying and freeing an
      address space loses no page; sbrk adds zeroed pages or nothing; exec
      leaves argc strings and their addresses on the stack of main.
    - Locks: at most one hart is between acquire and release; push_off and
      pop_off nest.
    - Assembly: trap entry and return, swtch and kernelvec give back the
      registers they must; start and timervec.  The first process calls exec
      with /init, and a stub reaches the handler of its name.
    - User programs: the shell parses every command of its grammar to its
      tree, ends on every line, and starts the programs of a command with the
      right descriptors; malloc and free keep blocks apart and merge all free
      space; grep's matcher decides the semantics of its patterns and grep
      prints the matching lines; init restarts the shell for ever; ps pids
      prints the processes.

    ** Fuel

    Recursion that is not structural takes a bound: the number of rounds the
    code can make (bytes of a copy, blocks of a file, entries of a table,
    characters of a line), computed from the arguments where the loop is
    entered, so that running out is excluded by the theorems and not assumed
    away.  Loops that wait for something (sleep in acquiresleep, begin_op,
    piperead, consoleread, wait, virtio_disk_rw) take [sleep_fuel] of the
    class [Fuel], the number of times the code is woken in vain; theorems hold
    for every value, or for every value above 0 where the code sleeps once.
    The scheduler and the loops of user programs that never end are modelled
    one round at a time.

    ** What is assumed

    - The stretches between two switches are atomic.  This is one hart; what
      several harts may do inside a lock region is modelled for the lock word
      alone (LockWord).
    - The theorems on transactions and files are about one process in the file
      system at a time: while it sleeps, only the disk and its interrupt
      handler run ([device] of VirtioSpec).
    - The disk does what the virtio specification says ([served]): it serves
      requests in order, a block is written as a whole, and a crash leaves the
      writes made so far.
    - file_write_atomic takes the bytes from a buffer of the kernel; that
      filewrite gets them from user memory with copyin is in the theorems of
      PageTable.  It asks for six free blocks; that balloc prints a message
      and returns 0 when there are none is modelled, but not covered by it.
      delete_atomic asks that the bitmap fits into a transaction.
    - In the shell, a child process runs to its end before its parent goes on,
      and malloc succeeds in the constructors of the commands.

    ** Not modelled

    - usertests.c, grind.c, stressfs.c, forktest.c, test_ps.c: tests, whose
      content is which system calls they make.
    - ramdisk.c, which is not built; the linker scripts, Makefile and the
      declarations of defs.h and user.h.
    - The accessors of riscv.h are the fields of the state they read or write. *)

From Stdlib Require Export ZArith Lia.
From stdpp Require Export base list gmap strings numbers.
Export list_basics.list list_relations.list list_monad.list list_misc.list.

Open Scope Z_scope.

(** ** Machine integers

    C integers are kept in [Z] with their wrap-around written out:
    [u8], [u16], [u32], [u64] for the unsigned types of types.h and
    [i32] for [int] (two's complement, as gcc -fwrapv would give). *)

Definition u8 (z : Z) : Z := z mod 2 ^ 8.
Definition u16 (z : Z) : Z := z mod 2 ^ 16.
Definition u32 (z : Z) : Z := z mod 2 ^ 32.
Definition u64 (z : Z) : Z := z mod 2 ^ 64.
Definition i32 (z : Z) : Z := (z + 2 ^ 31) mod 2 ^ 32 - 2 ^ 31.

Lemma u8_range z : 0 <= u8 z < 256.
Proof. unfold u8. apply Z.mod_pos_bound. lia. Qed.
Lemma u32_range z : 0 <= u32 z < 2 ^ 32.
Proof. unfold u32. apply Z.mod_pos_bound. lia. Qed.
Lemma u64_range z : 0 <= u64 z < 2 ^ 64.
Proof. unfold u64. apply Z.mod_pos_bound. lia. Qed.
Lemma i32_range z : - 2 ^ 31 <= i32 z < 2 ^ 31.
Proof. unfold i32. pose proof (Z.mod_pos_bound (z + 2 ^ 31) (2 ^ 32)). lia. Qed.
Lemma u8_small z : 0 <= z < 256 -> u8 z = z.
Proof. intros. unfold u8. apply Z.mod_small. lia. Qed.
Lemma u32_small z : 0 <= z < 2 ^ 32 -> u32 z = z.
Proof. intros. unfold u32. apply Z.mod_small. lia. Qed.
Lemma u64_small z : 0 <= z < 2 ^ 64 -> u64 z = z.
Proof. intros. unfold u64. apply Z.mod_small. lia. Qed.
Lemma i32_small z : - 2 ^ 31 <= z < 2 ^ 31 -> i32 z = z.
Proof. intros. unfold i32. rewrite Z.mod_small; lia. Qed.

Lemma i32_of_u32 z : i32 (u32 z) = i32 z.
Proof. unfold i32, u32. by rewrite Zplus_mod_idemp_l. Qed.
Lemma u64_eq z : u64 z = z mod 2 ^ 64.
Proof. reflexivity. Qed.
Lemma u32_eq z : u32 z = z mod 2 ^ 32.
Proof. reflexivity. Qed.

#[global] Opaque u8 u16 u32 u64 i32.

Create HintDb ints discriminated.
#[export] Hint Resolve u8_range u32_range u64_range i32_range : ints.

(** ** Record update

    [r <| f := v |>] is the record [r] with field [f] replaced.  One
    [Upd] instance per field, built from the record's eta expansion. *)

Class Upd {R T : Type} (proj : R -> T) := upd : (T -> T) -> R -> R.
Arguments upd {R T} proj {_} _ _ : simpl never.

Ltac mk_upd proj eta :=
  let f := fresh "f" in let r := fresh "r" in
  red; intros f r;
  let b := eval cbv beta delta [eta] in (eta r) in
  match eval pattern (proj r) in b with
  | ?g _ => let t := eval cbv beta in (g (f (proj r))) in exact t
  end.

Notation "r <| f := v |>" := (upd f (fun _ => v) r)
  (at level 1, format "r  <| f  :=  v |>").
Notation "r <| f ::= g |>" := (upd f g r)
  (at level 1, format "r  <| f  ::=  g |>").

(** [ksimp] computes projections of updated records and leaves the
    records themselves folded. *)
Lemma upd_eq {R T} (q : R -> T) (u : Upd q) :
  (forall g r, q (@upd R T q u g r) = g (q r)) -> forall g r, q (@upd R T q u g r) = g (q r).
Proof. auto. Qed.
Lemma upd_ne {R T U} (p : R -> U) (q : R -> T) (u : Upd q) :
  (forall g r, p (@upd R T q u g r) = p r) -> forall g r, p (@upd R T q u g r) = p r.
Proof. auto. Qed.
Lemma fun_ne {R T U} (p : R -> U) (f : T -> R -> R) :
  (forall a r, p (f a r) = p r) -> forall a r, p (f a r) = p r.
Proof. auto. Qed.
Ltac upd_eqn p R T q i :=
  lazymatch p with
  | q => constr:(@upd_eq R T q i (fun _ _ => eq_refl))
  | _ => constr:(@upd_ne R T _ p q i (fun _ _ => eq_refl))
  end.
(** Extended below for the states other definitions build. *)
Ltac ksimp_ext := fail.
Ltac ksimp_step :=
  match goal with
  | |- context [?p (@upd ?R ?T ?q ?i ?g ?r)] =>
      let _ := constr:(_ : Upd p) in let e := upd_eqn p R T q i in rewrite (e g r)
  | H : context [?p (@upd ?R ?T ?q ?i ?g ?r)] |- _ =>
      let _ := constr:(_ : Upd p) in let e := upd_eqn p R T q i in rewrite (e g r) in H
  | _ => ksimp_ext
  end.
Ltac ksimp := repeat (ksimp_step; cbv beta in * ).

(** ** The outcome monad

    A kernel function runs on one hart against the kernel state [S].  It
    either returns ([Done]), calls [panic] ([Panic]), performs a memory
    access the C semantics does not define, such as following a null
    pointer ([Fault]), or gives the CPU up in [sched] ([Switch]): then
    the state at the switch is visible to every other thread, and the
    continuation is run from whatever state the scheduler resumes it in.
    [NoFuel] marks a bounded loop whose bound was too small; theorems
    exclude it. *)

Inductive outcome (S A : Type) : Type :=
| Done (a : A) (s : S)
| Panic (msg : string) (s : S)
| Fault (msg : string) (s : S)
| NoFuel
| Switch (s : S) (k : S -> outcome S A).
Arguments Done {S A} _ _.
Arguments Panic {S A} _ _.
Arguments Fault {S A} _ _.
Arguments NoFuel {S A}.
Arguments Switch {S A} _ _.

Definition M (S A : Type) : Type := S -> outcome S A.

Fixpoint obind {S A B} (o : outcome S A) (f : A -> M S B) : outcome S B :=
  match o with
  | Done a s => f a s
  | Panic m s => Panic m s
  | Fault m s => Fault m s
  | NoFuel => NoFuel
  | Switch s k => Switch s (fun s' => obind (k s') f)
  end.

Definition ret {S A} (a : A) : M S A := fun s => Done a s.
Definition bind {S A B} (m : M S A) (f : A -> M S B) : M S B :=
  fun s => obind (m s) f.
Definition panic {S A} (msg : string) : M S A := fun s => Panic msg s.
Definition fault {S A} (msg : string) : M S A := fun s => Fault msg s.
Definition nofuel {S A} : M S A := fun _ => NoFuel.
Definition gets {S A} (f : S -> A) : M S A := fun s => Done (f s) s.
Definition modify {S} (f : S -> S) : M S unit := fun s => Done tt (f s).
Definition switch {S} : M S unit := fun s => Switch s (fun s' => Done tt s').

Declare Scope kernel_scope.
Delimit Scope kernel_scope with K.
Notation "'let!' x := m 'in' k" := (bind m (fun x => k))
  (at level 10, x pattern, m at level 100, k at level 200,
   format "'[v' 'let!'  x  :=  m  'in' '/' k ']'") : kernel_scope.
Notation "m ;! k" := (bind m (fun _ => k))
  (at level 199, right associativity, format "'[v' m  ;! '/' k ']'") : kernel_scope.
Open Scope kernel_scope.

(** [when c m] is [if (c) m]. *)
Definition when {S} (c : bool) (m : M S unit) : M S unit := if c then m else ret tt.

(** [for_list l body] runs [body] on each element of [l] in order: the
    kernel's [for(p = proc; p < &proc[NPROC]; p++)] loops. *)
Fixpoint for_list {S B} (l : list B) (body : B -> M S unit) : M S unit :=
  match l with
  | [] => ret tt
  | b :: l => body b ;! for_list l body
  end.

(** [find_list l body] is a table scan that stops at the first element
    for which [body] returns a value (a [return] or [break] in the loop
    body). *)
Fixpoint find_list {S B A} (l : list B) (body : B -> M S (option A)) : M S (option A) :=
  match l with
  | [] => ret None
  | b :: l =>
      let! r := body b in
      match r with Some a => ret (Some a) | None => find_list l body end
  end.

(** ** Laws *)

Lemma for_list_cons {S B} b (l : list B) (body : B -> M S unit) :
  for_list (b :: l) body = (body b ;! for_list l body).
Proof. reflexivity. Qed.
Lemma find_list_cons {S B A} b (l : list B) (body : B -> M S (option A)) :
  find_list (b :: l) body =
  (let! r := body b in match r with Some a => ret (Some a) | None => find_list l body end).
Proof. reflexivity. Qed.

Section laws.
Context {S A B C : Type}.

Lemma bind_done (m : M S A) (f : A -> M S B) s a s' :
  m s = Done a s' -> bind m f s = f a s'.
Proof. unfold bind. intros ->. reflexivity. Qed.

Lemma bind_ret (a : A) (f : A -> M S B) s : bind (ret a) f s = f a s.
Proof. reflexivity. Qed.

Lemma bind_done_inv (m : M S A) (f : A -> M S B) s b s' :
  bind m f s = Done b s' ->
  exists a s1, m s = Done a s1 /\ f a s1 = Done b s'.
Proof.
  unfold bind. destruct (m s) eqn:E; simpl; try discriminate. eauto.
Qed.

End laws.

(** ** Reasoning about outcomes

    [segs P m]: every stretch of [m] that runs without giving up the CPU
    (from a start or resumption state to the next switch or to the end)
    relates its first and last state by [P].  With [P s s' := f s' = f s]
    it is a frame property, with [P s s' := I s -> I s'] it says that [I]
    holds wherever another thread can observe the state. *)

Fixpoint oseg {S A} (P : S -> S -> Prop) (s0 : S) (o : outcome S A) : Prop :=
  match o with
  | Done _ s => P s0 s
  | Panic _ _ | Fault _ _ | NoFuel => True
  | Switch s k => P s0 s /\ forall s', oseg P s' (k s')
  end.

Definition segs {S A} (P : S -> S -> Prop) (m : M S A) : Prop :=
  forall s, oseg P s (m s).

(** [nosw o]: the outcome is reached without giving up the CPU. *)
Definition nosw {S A} (o : outcome S A) : Prop :=
  match o with Switch _ _ => False | _ => True end.

Create HintDb segs discriminated.
#[export] Hint Constants Opaque : segs.

Section segs.
Context {S : Type} (P : S -> S -> Prop) `{!PreOrder P}.

Lemma oseg_trans {A} s0 s1 (o : outcome S A) : P s0 s1 -> oseg P s1 o -> oseg P s0 o.
Proof.
  destruct o; simpl; auto.
  - intros; by etrans.
  - intros ? [? ?]. split; [by etrans|auto].
Qed.

Lemma oseg_bind {A B} s0 (o : outcome S A) (f : A -> M S B) :
  oseg P s0 o -> (forall a, segs P (f a)) -> oseg P s0 (obind o f).
Proof.
  intros Ho Hf. revert s0 Ho.
  induction o as [a s|msg s|msg s| |s k IH]; simpl; intros s0 Ho; auto.
  - eapply oseg_trans; [done|]. apply Hf.
  - destruct Ho as [H1 H2]. split; [done|]. intros s'. by apply IH.
Qed.

Lemma segs_bind {A B} (m : M S A) (f : A -> M S B) :
  segs P m -> (forall a, segs P (f a)) -> segs P (bind m f).
Proof. intros Hm Hf s. apply oseg_bind; auto. Qed.

Lemma segs_ret {A} (a : A) : segs P (ret a).
Proof. intros s. simpl. reflexivity. Qed.
Lemma segs_panic {A} msg : segs P (@panic S A msg).
Proof. intros s. done. Qed.
Lemma segs_fault {A} msg : segs P (@fault S A msg).
Proof. intros s. done. Qed.
Lemma segs_nofuel {A} : segs P (@nofuel S A).
Proof. intros s. done. Qed.
Lemma segs_gets {A} (f : S -> A) : segs P (gets f).
Proof. intros s. simpl. reflexivity. Qed.
Lemma segs_switch : segs P (@switch S).
Proof. intros s. simpl. split; intros; reflexivity. Qed.
Lemma segs_modify (f : S -> S) : (forall s, P s (f s)) -> segs P (modify f).
Proof. intros H s. apply H. Qed.

Lemma segs_for_list {B} (l : list B) (body : B -> M S unit) :
  (forall b, segs P (body b)) -> segs P (for_list l body).
Proof.
  intros Hb. induction l; simpl; [apply segs_ret|apply segs_bind; auto].
Qed.

Lemma segs_find_list {A B} (l : list B) (body : B -> M S (option A)) :
  (forall b, segs P (body b)) -> segs P (find_list l body).
Proof.
  intros Hb. induction l; simpl; [apply segs_ret|].
  apply segs_bind; auto. intros [a'|]; [apply segs_ret|done].
Qed.

Lemma segs_done {A} (m : M S A) s a s' : segs P m -> m s = Done a s' -> P s s'.
Proof. intros Hm E. specialize (Hm s). by rewrite E in Hm. Qed.

End segs.

#[export] Hint Resolve segs_bind segs_ret segs_panic segs_fault segs_nofuel segs_gets
  segs_switch segs_for_list segs_find_list : segs.

(** [seg_step]/[segs_tac] walk through a monadic body, splitting on every
    test and match and closing the calls with the [segs] hints. *)
Ltac seg_step :=
  match goal with
  | |- segs _ (bind _ _) => apply segs_bind; [..|intros ?]
  | |- segs _ (when ?c _) => unfold when
  | |- segs _ (if ?c then _ else _) => destruct c
  | |- segs _ (match ?c with _ => _ end) => destruct c
  | |- segs _ (let _ := _ in _) => cbv zeta
  | |- segs _ (for_list _ _) => apply segs_for_list; [..|intros ?]
  | |- segs _ (find_list _ _) => apply segs_find_list; [..|intros ?]
  | |- PreOrder _ => apply _
  | |- _ => solve [eauto with segs typeclass_instances]
  end.
Ltac segs_tac := repeat seg_step.

Lemma oseg_mono {S A} (P P' : S -> S -> Prop) s0 (o : outcome S A) :
  (forall s s', P s s' -> P' s s') -> oseg P s0 o -> oseg P' s0 o.
Proof.
  intros HP. revert s0. induction o as [a s'|msg s'|msg s'| |s' k IH]; simpl; intros s0; auto.
  intros [H1 H2]. split; auto.
Qed.
Lemma segs_mono {S A} (P P' : S -> S -> Prop) (m : M S A) :
  (forall s s', P s s' -> P' s s') -> segs P m -> segs P' m.
Proof. intros HP Hm s. by eapply oseg_mono. Qed.
Lemma oseg_and {S A} (P Q : S -> S -> Prop) s0 (o : outcome S A) :
  oseg P s0 o -> oseg Q s0 o -> oseg (fun s s' => P s s' /\ Q s s') s0 o.
Proof. revert s0. induction o; simpl; auto. intros s0 [H1 H2] [H3 H4]. auto. Qed.
Lemma segs_and {S A} (P Q : S -> S -> Prop) (m : M S A) :
  segs P m -> segs Q m -> segs (fun s s' => P s s' /\ Q s s') m.
Proof. intros HP HQ s. by apply oseg_and. Qed.

(** [noswitch m]: [m] never gives up the CPU. *)
Definition noswitch {S A} (m : M S A) : Prop := forall s, nosw (m s).

Create HintDb nosw discriminated.
#[export] Hint Constants Opaque : nosw.
Section noswitch.
Context {S : Type}.
Lemma nosw_bind {A B} (m : M S A) (f : A -> M S B) :
  noswitch m -> (forall a, noswitch (f a)) -> noswitch (bind m f).
Proof. intros Hm Hf s. specialize (Hm s). unfold bind. destruct (m s); simpl; auto. apply Hf. Qed.
Lemma nosw_ret {A} (a : A) : noswitch (@ret S A a).
Proof. intros s. done. Qed.
Lemma nosw_panic {A} msg : noswitch (@panic S A msg).
Proof. intros s. done. Qed.
Lemma nosw_fault {A} msg : noswitch (@fault S A msg).
Proof. intros s. done. Qed.
Lemma nosw_nofuel {A} : noswitch (@nofuel S A).
Proof. intros s. done. Qed.
Lemma nosw_gets {A} (f : S -> A) : noswitch (gets f).
Proof. intros s. done. Qed.
Lemma nosw_modify (f : S -> S) : noswitch (modify f).
Proof. intros s. done. Qed.
Lemma nosw_for_list {B} (l : list B) (body : B -> M S unit) :
  (forall b, noswitch (body b)) -> noswitch (for_list l body).
Proof. intros Hb. induction l; simpl; [apply nosw_ret|apply nosw_bind; auto]. Qed.
Lemma nosw_find_list {A B} (l : list B) (body : B -> M S (option A)) :
  (forall b, noswitch (body b)) -> noswitch (find_list l body).
Proof.
  intros Hb. induction l; simpl; [apply nosw_ret|]. apply nosw_bind; auto. intros [a'|]; [apply nosw_ret|done].
Qed.

(** A stretch that does not switch, and the code after it, which respects
    a finer relation. *)
Lemma oseg_step {A B} (P : S -> S -> Prop) s0 s (m : M S A) (f : A -> M S B) :
  noswitch m -> (forall a s1, m s = Done a s1 -> oseg P s0 (f a s1)) -> oseg P s0 (bind m f s).
Proof. intros Hn H. specialize (Hn s). unfold bind. destruct (m s); simpl in *; auto; done. Qed.
Lemma oseg_last {A} (R P : S -> S -> Prop) s0 s1 (m : M S A) :
  segs R m -> (forall s2, R s1 s2 -> P s0 s2) -> (forall s s', R s s' -> P s s') -> oseg P s0 (m s1).
Proof.
  intros Hm H1 HP. specialize (Hm s1). destruct (m s1) as [a s2|?|?| |s2 k]; simpl in *; auto.
  destruct Hm as [? H2]. split; [auto|]. intros s'. by eapply oseg_mono.
Qed.
End noswitch.
#[export] Hint Resolve nosw_bind nosw_ret nosw_panic nosw_fault nosw_nofuel nosw_gets nosw_modify
  nosw_for_list nosw_find_list : nosw.
Ltac nosw_step :=
  match goal with
  | |- noswitch (bind _ _) => apply nosw_bind; [|intros ?]
  | |- noswitch (when ?c _) => unfold when
  | |- noswitch (if ?c then _ else _) => destruct c
  | |- noswitch (match ?c with _ => _ end) => destruct c
  | |- noswitch (let _ := _ in _) => cbv zeta
  | |- noswitch (for_list _ _) => apply nosw_for_list; intros ?
  | |- noswitch (find_list _ _) => apply nosw_find_list; intros ?
  | |- _ => solve [eauto with nosw]
  end.
Ltac nosw_tac := repeat nosw_step.

(** [frame f m]: [m] leaves [f] of the state alone in every stretch. *)
Definition same {S T} (f : S -> T) (s s' : S) : Prop := f s' = f s.
#[export] Instance same_preorder {S T} (f : S -> T) : PreOrder (same f).
Proof. split; unfold same; congruence. Qed.
Abbreviation frame f m := (segs (same f) m).

(** Stepping through a run: [mrun] uses an equation [m s = Done a s'] of the
    context for the head of a bind. *)
Ltac mstep :=
  match goal with
  | H : ?m ?s = Done _ _ |- context [bind ?m _ ?s] => rewrite (bind_done m _ s _ _ H)
  end.

(** [minv H] breaks a successful run [bind m f s = Done b s'] into its parts. *)
Ltac minv H :=
  let a := fresh "a" in let s1 := fresh "s" in let E := fresh "E" in
  apply bind_done_inv in H; destruct H as (a & s1 & E & H).

(** ** Total correctness of code that does not switch

    [wp m s Q]: run from [s], [m] returns (no panic, no fault, fuel
    enough, no switch) and [Q] holds of the result and the final state. *)

Definition wp {S A} (m : M S A) (s : S) (Q : A -> S -> Prop) : Prop :=
  match m s with Done a s' => Q a s' | _ => False end.

Section wp.
Context {S : Type}.

Lemma wp_bind {A B} (m : M S A) (f : A -> M S B) s Q :
  wp m s (fun a s' => wp (f a) s' Q) -> wp (bind m f) s Q.
Proof. unfold wp, bind. by destruct (m s). Qed.
Lemma wp_assoc {A B C} (m : M S A) (f : M S B) (g : B -> M S C) s Q :
  wp (bind (bind m (fun _ => f)) g) s Q -> wp (bind m (fun _ => bind f g)) s Q.
Proof. unfold wp, bind. by destruct (m s). Qed.
Lemma wp_ret {A} (a : A) (s : S) (Q : A -> S -> Prop) : Q a s -> wp (ret a) s Q.
Proof. done. Qed.
Lemma wp_gets {A} (f : S -> A) s (Q : A -> S -> Prop) : Q (f s) s -> wp (gets f) s Q.
Proof. done. Qed.
Lemma wp_modify (f : S -> S) s (Q : unit -> S -> Prop) : Q tt (f s) -> wp (modify f) s Q.
Proof. done. Qed.
Lemma wp_mono {A} (m : M S A) s (Q Q' : A -> S -> Prop) :
  wp m s Q -> (forall a s', Q a s' -> Q' a s') -> wp m s Q'.
Proof. unfold wp. destruct (m s); auto. Qed.
Lemma wp_done {A} (m : M S A) s (Q : A -> S -> Prop) :
  wp m s Q <-> exists a s', m s = Done a s' /\ Q a s'.
Proof.
  unfold wp. split.
  - destruct (m s); try done. eauto.
  - intros (a&s'&->&?). done.
Qed.
Lemma wp_eq {A} (m : M S A) s a s' (Q : A -> S -> Prop) :
  m s = Done a s' -> Q a s' -> wp m s Q.
Proof. unfold wp. by intros ->. Qed.

(** A loop over a list: [I n s] holds before the [n]-th iteration. *)
Lemma wp_for_list {B} (I : nat -> S -> Prop) (l : list B) (body : B -> M S unit) s Q :
  I 0%nat s ->
  (forall n b s', l !! n = Some b -> I n s' -> wp (body b) s' (fun _ s'' => I (Datatypes.S n) s'')) ->
  (forall s', I (length l) s' -> Q tt s') ->
  wp (for_list l body) s Q.
Proof.
  revert I s. induction l as [|b l IH]; simpl; intros I s H0 Hstep HQ.
  - apply wp_ret. auto.
  - apply wp_bind. eapply wp_mono; [apply (Hstep 0%nat); done|].
    intros [] s' HI. simpl.
    apply (IH (fun n => I (Datatypes.S n))); [done| |done].
    intros n b' s'' Hl. by apply (Hstep (Datatypes.S n)).
Qed.

(** Running a prefix: a property of the outcome of the rest is one of the
    whole, whatever the rest does (return, panic or switch). *)
Lemma wp_run {A B} (m : M S A) (f : A -> M S B) s (Φ : outcome S B -> Prop) :
  wp m s (fun a s' => Φ (f a s')) -> Φ (bind m f s).
Proof. unfold wp, bind. by destruct (m s). Qed.

End wp.

(** What a panic is for the callers. *)
Definition panics {S A} (msg : string) (o : outcome S A) : Prop := exists s', o = Panic msg s'.
Lemma panics_bind {S A B} msg (m : M S A) (f : A -> M S B) s :
  panics msg (m s) -> panics msg (bind m f s).
Proof. intros [s' E]. exists s'. unfold bind. by rewrite E. Qed.

Lemma panics_run {S A B} msg (m : M S A) (f : A -> M S B) s :
  wp m s (fun a s' => panics msg (f a s')) -> panics msg (bind m f s).
Proof. apply wp_run. Qed.

(** One symbolic-execution step; component files add rules for their
    operations to [wp]. *)
Create HintDb wp discriminated.
Ltac wp_step :=
  match goal with
  | |- wp (bind _ _) _ _ => apply wp_bind
  | |- wp (ret _) _ _ => apply wp_ret
  | |- wp (gets _) _ _ => apply wp_gets
  | |- wp (modify _) _ _ => apply wp_modify
  | |- wp (when _ _) _ _ => unfold when
  end.
#[global] Opaque wp.

(** ** Invariants at the switches

    [inv I m s Q]: run from [s], [m] re-establishes [I] whenever it gives up
    the CPU, relies on [I] when it is resumed, and [Q] holds if it returns.
    [pres I m]: [m] keeps [I] in this sense.  Panics and faults stop the
    machine and promise nothing. *)

Fixpoint oinv {S A} (I : S -> Prop) (Q : A -> S -> Prop) (o : outcome S A) : Prop :=
  match o with
  | Done a s => Q a s
  | Panic _ _ | Fault _ _ | NoFuel => True
  | Switch s k => I s /\ forall s', I s' -> oinv I Q (k s')
  end.
Definition inv {S A} (I : S -> Prop) (m : M S A) (s : S) (Q : A -> S -> Prop) : Prop := oinv I Q (m s).
Definition pres {S A} (I : S -> Prop) (m : M S A) : Prop := forall s, I s -> inv I m s (fun _ => I).

Lemma inv_eq {S A} (I : S -> Prop) (m : M S A) (s : S) (Q : A -> S -> Prop) : inv I m s Q <-> oinv I Q (m s).
Proof. reflexivity. Qed.

Create HintDb pres discriminated.
#[export] Hint Constants Opaque : pres.
Section inv.
Context {S : Type} (I : S -> Prop).

Lemma oinv_mono {A} (Q Q' : A -> S -> Prop) (o : outcome S A) :
  oinv I Q o -> (forall a s, Q a s -> Q' a s) -> oinv I Q' o.
Proof. intros Ho HQ. induction o as [a s|msg s|msg s| |s k IH]; simpl in *; auto. destruct Ho as [H1 H2]. eauto. Qed.
Lemma inv_mono {A} (m : M S A) s (Q Q' : A -> S -> Prop) :
  inv I m s Q -> (forall a s, Q a s -> Q' a s) -> inv I m s Q'.
Proof. apply oinv_mono. Qed.
Lemma inv_bind {A B} (m : M S A) (f : A -> M S B) s Q :
  inv I m s (fun a s' => inv I (f a) s' Q) -> inv I (bind m f) s Q.
Proof.
  unfold inv, bind. induction (m s) as [a s1|msg s1|msg s1| |s1 k IH]; simpl; auto. intros [H1 H2]. eauto.
Qed.
Lemma inv_step {A B} (m : M S A) (f : A -> M S B) s Q :
  noswitch m -> (forall a s1, m s = Done a s1 -> inv I (f a) s1 Q) -> inv I (bind m f) s Q.
Proof. intros Hn H. specialize (Hn s). unfold inv, bind in *. destruct (m s); simpl in *; auto; done. Qed.
Lemma inv_gets {A B} (g : S -> A) (f : A -> M S B) s Q : inv I (f (g s)) s Q -> inv I (bind (gets g) f) s Q.
Proof. exact id. Qed.
Lemma inv_modify {B} (g : S -> S) (f : unit -> M S B) s Q : inv I (f tt) (g s) Q -> inv I (bind (modify g) f) s Q.
Proof. exact id. Qed.
Lemma inv_wp {A B} (m : M S A) (f : A -> M S B) s Q :
  wp m s (fun a s' => inv I (f a) s' Q) -> inv I (bind m f) s Q.
Proof. intros (a & s' & E & H)%wp_done. unfold inv. by rewrite (bind_done _ _ _ _ _ E). Qed.
Lemma inv_done {A} (m : M S A) s (Q : A -> S -> Prop) :
  noswitch m -> (forall a s1, m s = Done a s1 -> Q a s1) -> inv I m s Q.
Proof. intros Hn H. specialize (Hn s). unfold inv in *. destruct (m s); simpl in *; auto; done. Qed.
Lemma inv_pres {A} (m : M S A) s (Q : A -> S -> Prop) :
  pres I m -> I s -> (forall a s', I s' -> Q a s') -> inv I m s Q.
Proof. intros Hm Hs HQ. eapply inv_mono; [by apply Hm|]. auto. Qed.
Lemma inv_pres_bind {A B} (m : M S A) (f : A -> M S B) s Q :
  pres I m -> I s -> (forall a s', I s' -> inv I (f a) s' Q) -> inv I (bind m f) s Q.
Proof. intros Hm Hs HQ. apply inv_bind. by apply inv_pres. Qed.

Lemma pres_bind {A B} (m : M S A) (f : A -> M S B) : pres I m -> (forall a, pres I (f a)) -> pres I (bind m f).
Proof. intros Hm Hf s Hs. apply inv_bind. eapply inv_mono; [by apply Hm|]. intros. by apply Hf. Qed.
Lemma pres_ret {A} (a : A) : pres I (ret a).
Proof. intros s Hs. exact Hs. Qed.
Lemma pres_panic {A} msg : pres I (@panic S A msg).
Proof. intros s Hs. exact Logic.I. Qed.
Lemma pres_fault {A} msg : pres I (@fault S A msg).
Proof. intros s Hs. exact Logic.I. Qed.
Lemma pres_nofuel {A} : pres I (@nofuel S A).
Proof. intros s Hs. exact Logic.I. Qed.
Lemma pres_gets {A} (f : S -> A) : pres I (gets f).
Proof. intros s Hs. exact Hs. Qed.
Lemma pres_modify (f : S -> S) : (forall s, I s -> I (f s)) -> pres I (modify f).
Proof. intros H s Hs. by apply H. Qed.
Lemma pres_for_list {B} (l : list B) (body : B -> M S unit) :
  (forall b, pres I (body b)) -> pres I (for_list l body).
Proof. intros Hb. induction l; simpl; [apply pres_ret|apply pres_bind; auto]. Qed.
Lemma pres_find_list {A B} (l : list B) (body : B -> M S (option A)) :
  (forall b, pres I (body b)) -> pres I (find_list l body).
Proof.
  intros Hb. induction l; simpl; [apply pres_ret|]. apply pres_bind; auto. intros [a'|]; [apply pres_ret|done].
Qed.
Lemma oinv_segs {A} s0 (o : outcome S A) :
  oseg (fun s s' => I s -> I s') s0 o -> I s0 -> oinv I (fun _ => I) o.
Proof.
  revert s0. induction o as [a s|msg s|msg s| |s k IH]; simpl; intros s0; auto.
  intros [H1 H2] H0. split; [auto|]. intros s' Hs'. by apply (IH s' s').
Qed.
Lemma pres_segs {A} (m : M S A) : segs (fun s s' => I s -> I s') m -> pres I m.
Proof. intros Hm s Hs. by apply (oinv_segs s). Qed.
Lemma pres_frame {A T} (f : S -> T) (m : M S A) :
  (forall s s', f s' = f s -> I s -> I s') -> frame f m -> pres I m.
Proof. intros HI Hm. apply pres_segs. eapply segs_mono; [|exact Hm]. exact HI. Qed.
End inv.
#[export] Hint Resolve pres_bind pres_ret pres_panic pres_fault pres_nofuel pres_gets
  pres_for_list pres_find_list : pres.
Ltac pres_step :=
  match goal with
  | |- pres _ (bind _ _) => apply pres_bind; [|intros ?]
  | |- pres _ (when ?c _) => unfold when
  | |- pres _ (if ?c then _ else _) => destruct c
  | |- pres _ (match ?c with _ => _ end) => destruct c
  | |- pres _ (let _ := _ in _) => cbv zeta
  | |- pres _ (for_list _ _) => apply pres_for_list; intros ?
  | |- pres _ (find_list _ _) => apply pres_find_list; intros ?
  | |- _ => solve [eauto with pres]
  end.
Ltac pres_tac := repeat pres_step.

(** [rwp R m s Q]: total correctness of code that may switch: [m] returns and
    [Q] holds, provided each switch is resumed in a state that [R] relates
    to the one it was left in. *)
Fixpoint owp {S A} (R : S -> S -> Prop) (Q : A -> S -> Prop) (o : outcome S A) : Prop :=
  match o with
  | Done a s => Q a s
  | Panic _ _ | Fault _ _ | NoFuel => False
  | Switch s k => forall s', R s s' -> owp R Q (k s')
  end.
Definition rwp {S A} (R : S -> S -> Prop) (m : M S A) (s : S) (Q : A -> S -> Prop) : Prop := owp R Q (m s).

Section rwp.
Context {S : Type} (R : S -> S -> Prop).
Lemma owp_mono {A} (Q Q' : A -> S -> Prop) (o : outcome S A) :
  owp R Q o -> (forall a s, Q a s -> Q' a s) -> owp R Q' o.
Proof. intros Ho HQ. induction o as [a s|msg s|msg s| |s k IH]; simpl in *; auto. Qed.
Lemma rwp_mono {A} (m : M S A) s (Q Q' : A -> S -> Prop) :
  rwp R m s Q -> (forall a s, Q a s -> Q' a s) -> rwp R m s Q'.
Proof. apply owp_mono. Qed.
Lemma rwp_bind {A B} (m : M S A) (f : A -> M S B) s Q :
  rwp R m s (fun a s' => rwp R (f a) s' Q) -> rwp R (bind m f) s Q.
Proof. unfold rwp, bind. induction (m s) as [a s1|msg s1|msg s1| |s1 k IH]; simpl; auto. Qed.
Lemma rwp_wp {A} (m : M S A) s Q : wp m s Q -> rwp R m s Q.
Proof. intros (a & s' & E & HQ)%wp_done. unfold rwp. by rewrite E. Qed.
Lemma rwp_step {A B} (m : M S A) (f : A -> M S B) s Q :
  wp m s (fun a s' => rwp R (f a) s' Q) -> rwp R (bind m f) s Q.
Proof. intros H. by apply rwp_bind, rwp_wp. Qed.
Lemma rwp_switch s (Q : unit -> S -> Prop) : (forall s', R s s' -> Q tt s') -> rwp R switch s Q.
Proof. intros H s' Hs. by apply H. Qed.
(** Running such code with one switch. *)
Lemma rwp_once {A} (m : M S A) s Q s1 k s2 a s3 :
  rwp R m s Q -> m s = Switch s1 k -> R s1 s2 -> k s2 = Done a s3 -> Q a s3.
Proof. unfold rwp. intros H E HR Ek. rewrite E in H. specialize (H s2 HR). by rewrite Ek in H. Qed.
End rwp.
