(* ===== verification/State.v ===== *)
(** * The kernel's constants and data

    param.h, memlayout.h, riscv.h, the structs of proc.h, file.h and
    spinlock.h, and the record [kstate] that collects the kernel's global
    variables as one hart sees them.  Pointers into the static tables
    ([struct proc *], [struct namespace *], [struct file *], ...) are
    indices of type [option nat], with [None] for the null pointer;
    pointers to physical memory are addresses in [Z]. *)

From S2P Require Import Prelude.

(** ** param.h *)

Definition NPROC : Z := 64.
Definition NCPU : Z := 8.
Definition NOFILE : Z := 16.
Definition NFILE : Z := 100.
Definition NINODE : Z := 50.
Definition NDEV : Z := 10.
Definition ROOTDEV : Z := 1.
Definition MAXARG : Z := 32.
Definition MAXOPBLOCKS : Z := 10.
Definition LOGSIZE : Z := MAXOPBLOCKS * 3.
Definition NBUF : Z := MAXOPBLOCKS * 3.
Definition FSSIZE : Z := 2000.
Definition MAXPATH : Z := 128.
Definition MAXDEPTH : Z := 8.
Definition NUMNS : Z := 64.

(** ** riscv.h and memlayout.h *)

Definition PGSIZE : Z := 4096.
Definition PGSHIFT : Z := 12.
Definition PGROUNDUP (sz : Z) : Z := Z.land (u64 (sz + PGSIZE - 1)) (Z.lnot (PGSIZE - 1)).
Definition PGROUNDDOWN (a : Z) : Z := Z.land a (Z.lnot (PGSIZE - 1)).

Definition PTE_V : Z := 1.
Definition PTE_R : Z := 2.
Definition PTE_W : Z := 4.
Definition PTE_X : Z := 8.
Definition PTE_U : Z := 16.
Definition PA2PTE (pa : Z) : Z := u64 (Z.shiftl (Z.shiftr pa 12) 10).
Definition PTE2PA (pte : Z) : Z := u64 (Z.shiftl (Z.shiftr pte 10) 12).
Definition PTE_FLAGS (pte : Z) : Z := Z.land pte 1023.
Definition PXMASK : Z := 511.
Definition PXSHIFT (level : Z) : Z := PGSHIFT + 9 * level.
Definition PX (level va : Z) : Z := Z.land (Z.shiftr va (PXSHIFT level)) PXMASK.
Definition MAXVA : Z := Z.shiftl 1 (9 + 9 + 9 + 12 - 1).
Definition SATP_SV39 : Z := Z.shiftl 8 60.
Definition MAKE_SATP (pagetable : Z) : Z := Z.lor SATP_SV39 (Z.shiftr pagetable 12).

Definition QEMU_POWER : Z := 0x100000.
Definition UART0 : Z := 0x10000000.
Definition UART0_IRQ : Z := 10.
Definition VIRTIO0 : Z := 0x10001000.
Definition VIRTIO0_IRQ : Z := 1.
Definition PLIC : Z := 0x0c000000.
Definition KERNBASE : Z := 0x80000000.
Definition PHYSTOP : Z := KERNBASE + 128 * 1024 * 1024.
Definition TRAMPOLINE : Z := MAXVA - PGSIZE.
Definition KSTACK (p : Z) : Z := TRAMPOLINE - (p + 1) * 2 * PGSIZE.
Definition TRAPFRAME : Z := TRAMPOLINE - PGSIZE.

(** ** Addresses the linker fixes (kernel.ld, trampoline.S, kernelvec.S) *)

Class Image := {
  sym_etext : Z;        (* end of kernel text *)
  sym_end : Z;          (* first address after the kernel *)
  sym_trampoline : Z;   (* trampoline.S *)
  sym_uservec : Z;
  sym_userret : Z;
  sym_kernelvec : Z;
  sym_forkret : Z;      (* address of forkret() *)
  sym_usertrap : Z;     (* address of usertrap() *)
  sym_rodata : list Z;  (* the bytes the linker puts after a string literal *)
  sym_stack : list Z;   (* what uninitialised bytes of a stack frame hold *)
}.

(** ** Lock and sleep-channel names *)

Inductive sleepid : Set :=
| SLbuf (n : nat)
| SLinode (n : nat).

Inductive lockid : Set :=
| Lpid_lock | Lns_lock | Lwait_lock | Ltickslock | Lkmem
| Lproc (i : nat) | Lns (n : nat)
| Lpipe (pi : Z) | Lbcache | Llog | Litable | Lftable
| Lcons | Luart_tx | Lvdisk | Lpr
| Lsleep (sl : sleepid).

Inductive channel : Set :=
| Cproc (i : nat) | Cticks
| Cpipe_nread (pi : Z) | Cpipe_nwrite (pi : Z)
| Clog | Cbuf (n : nat) | Csleep (sl : sleepid)
| Ccons_r | Cuart_tx_r | Cvdisk_free.

#[export] Instance sleepid_eq_dec : EqDecision sleepid.
Proof. solve_decision. Defined.
#[export] Instance lockid_eq_dec : EqDecision lockid.
Proof. solve_decision. Defined.
#[export] Instance channel_eq_dec : EqDecision channel.
Proof. solve_decision. Defined.

(** ** proc.h *)

Inductive procstate : Set := UNUSED | USED | SLEEPING | RUNNABLE | RUNNING | ZOMBIE.
#[export] Instance procstate_eq_dec : EqDecision procstate.
Proof. solve_decision. Defined.

Record context := mkContext { ctx_ra : Z; ctx_sp : Z; ctx_s : list Z }.
Definition zero_context : context := mkContext 0 0 (replicate 12 0).

Record namespace := mkNamespace {
  ns_parent : option nat;
  ns_head : option nat;
  ns_id : Z;
  ns_depth : Z;
  ns_used : Z;
  ns_next_ns_pid : Z;
  ns_num_proc : Z;
}.
Definition eta_namespace r := mkNamespace (ns_parent r) (ns_head r) (ns_id r) (ns_depth r)
  (ns_used r) (ns_next_ns_pid r) (ns_num_proc r).
#[export] Instance upd_ns_parent : Upd ns_parent := ltac:(mk_upd ns_parent eta_namespace).
#[export] Instance upd_ns_head : Upd ns_head := ltac:(mk_upd ns_head eta_namespace).
#[export] Instance upd_ns_id : Upd ns_id := ltac:(mk_upd ns_id eta_namespace).
#[export] Instance upd_ns_depth : Upd ns_depth := ltac:(mk_upd ns_depth eta_namespace).
#[export] Instance upd_ns_used : Upd ns_used := ltac:(mk_upd ns_used eta_namespace).
#[export] Instance upd_ns_next : Upd ns_next_ns_pid := ltac:(mk_upd ns_next_ns_pid eta_namespace).
#[export] Instance upd_ns_num : Upd ns_num_proc := ltac:(mk_upd ns_num_proc eta_namespace).

Record proc := mkProc {
  p_state : procstate;
  p_chan : option channel;
  p_killed : Z;
  p_xstate : Z;
  p_pid : Z;
  p_parent : option nat;
  p_kstack : Z;
  p_sz : Z;
  p_pagetable : Z;
  p_trapframe : Z;
  p_context : context;
  p_ofile : list (option nat);
  p_cwd : option nat;
  p_name : list Z;
  p_init_ticks : Z;
  p_run_time : Z;
  p_last_run_start : Z;
  p_last_runnable : Z;
  p_context_switches : Z;
  p_kernel_time : Z;
  p_last_kernel_time : Z;
  p_waiting_time : Z;
  p_is_kernel : Z;
  p_read_b : Z;
  p_write_b : Z;
  p_heap_pages : Z;
  p_ns : option nat;
  p_pids : list Z;
}.
Definition eta_proc r := mkProc (p_state r) (p_chan r) (p_killed r) (p_xstate r) (p_pid r)
  (p_parent r) (p_kstack r) (p_sz r) (p_pagetable r) (p_trapframe r) (p_context r)
  (p_ofile r) (p_cwd r) (p_name r) (p_init_ticks r) (p_run_time r) (p_last_run_start r)
  (p_last_runnable r) (p_context_switches r) (p_kernel_time r) (p_last_kernel_time r)
  (p_waiting_time r) (p_is_kernel r) (p_read_b r) (p_write_b r) (p_heap_pages r)
  (p_ns r) (p_pids r).
#[export] Instance upd_p_state : Upd p_state := ltac:(mk_upd p_state eta_proc).
#[export] Instance upd_p_chan : Upd p_chan := ltac:(mk_upd p_chan eta_proc).
#[export] Instance upd_p_killed : Upd p_killed := ltac:(mk_upd p_killed eta_proc).
#[export] Instance upd_p_xstate : Upd p_xstate := ltac:(mk_upd p_xstate eta_proc).
#[export] Instance upd_p_pid : Upd p_pid := ltac:(mk_upd p_pid eta_proc).
#[export] Instance upd_p_parent : Upd p_parent := ltac:(mk_upd p_parent eta_proc).
#[export] Instance upd_p_kstack : Upd p_kstack := ltac:(mk_upd p_kstack eta_proc).
#[export] Instance upd_p_sz : Upd p_sz := ltac:(mk_upd p_sz eta_proc).
#[export] Instance upd_p_pagetable : Upd p_pagetable := ltac:(mk_upd p_pagetable eta_proc).
#[export] Instance upd_p_trapframe : Upd p_trapframe := ltac:(mk_upd p_trapframe eta_proc).
#[export] Instance upd_p_context : Upd p_context := ltac:(mk_upd p_context eta_proc).
#[export] Instance upd_p_ofile : Upd p_ofile := ltac:(mk_upd p_ofile eta_proc).
#[export] Instance upd_p_cwd : Upd p_cwd := ltac:(mk_upd p_cwd eta_proc).
#[export] Instance upd_p_name : Upd p_name := ltac:(mk_upd p_name eta_proc).
#[export] Instance upd_p_init_ticks : Upd p_init_ticks := ltac:(mk_upd p_init_ticks eta_proc).
#[export] Instance upd_p_run_time : Upd p_run_time := ltac:(mk_upd p_run_time eta_proc).
#[export] Instance upd_p_last_run_start : Upd p_last_run_start := ltac:(mk_upd p_last_run_start eta_proc).
#[export] Instance upd_p_last_runnable : Upd p_last_runnable := ltac:(mk_upd p_last_runnable eta_proc).
#[export] Instance upd_p_context_switches : Upd p_context_switches := ltac:(mk_upd p_context_switches eta_proc).
#[export] Instance upd_p_kernel_time : Upd p_kernel_time := ltac:(mk_upd p_kernel_time eta_proc).
#[export] Instance upd_p_last_kernel_time : Upd p_last_kernel_time := ltac:(mk_upd p_last_kernel_time eta_proc).
#[export] Instance upd_p_waiting_time : Upd p_waiting_time := ltac:(mk_upd p_waiting_time eta_proc).
#[export] Instance upd_p_is_kernel : Upd p_is_kernel := ltac:(mk_upd p_is_kernel eta_proc).
#[export] Instance upd_p_read_b : Upd p_read_b := ltac:(mk_upd p_read_b eta_proc).
#[export] Instance upd_p_write_b : Upd p_write_b := ltac:(mk_upd p_write_b eta_proc).
#[export] Instance upd_p_heap_pages : Upd p_heap_pages := ltac:(mk_upd p_heap_pages eta_proc).
#[export] Instance upd_p_ns : Upd p_ns := ltac:(mk_upd p_ns eta_proc).
#[export] Instance upd_p_pids : Upd p_pids := ltac:(mk_upd p_pids eta_proc).

(** The zero-initialised [proc[]] and [namespaces[]] entries of the bss. *)
Definition zero_proc : proc := mkProc UNUSED None 0 0 0 None 0 0 0 0 zero_context
  (replicate 16 None) None (replicate 16 0) 0 0 0 0 0 0 0 0 0 0 0 0 None (replicate 8 0).
Definition zero_namespace : namespace := mkNamespace None None 0 0 0 0 0.

(** struct cpu of this hart, with sstatus.SIE and satp. *)
Record cpu := mkCpu {
  c_proc : option nat;
  c_noff : Z;
  c_intena : bool;
  c_sie : bool;
  c_satp : Z;
}.
Definition eta_cpu r := mkCpu (c_proc r) (c_noff r) (c_intena r) (c_sie r) (c_satp r).
#[export] Instance upd_c_proc : Upd c_proc := ltac:(mk_upd c_proc eta_cpu).
#[export] Instance upd_c_noff : Upd c_noff := ltac:(mk_upd c_noff eta_cpu).
#[export] Instance upd_c_intena : Upd c_intena := ltac:(mk_upd c_intena eta_cpu).
#[export] Instance upd_c_sie : Upd c_sie := ltac:(mk_upd c_sie eta_cpu).
#[export] Instance upd_c_satp : Upd c_satp := ltac:(mk_upd c_satp eta_cpu).

(** ** file.h *)

Inductive fdtype : Set := FD_NONE | FD_PIPE | FD_INODE | FD_DEVICE.
#[export] Instance fdtype_eq_dec : EqDecision fdtype.
Proof. solve_decision. Defined.

Record file := mkFile {
  f_type : fdtype;
  f_ref : Z;
  f_readable : Z;
  f_writable : Z;
  f_pipe : Z;
  f_ip : option nat;
  f_off : Z;
  f_major : Z;
}.
Definition eta_file r := mkFile (f_type r) (f_ref r) (f_readable r) (f_writable r) (f_pipe r)
  (f_ip r) (f_off r) (f_major r).
#[export] Instance upd_f_type : Upd f_type := ltac:(mk_upd f_type eta_file).
#[export] Instance upd_f_ref : Upd f_ref := ltac:(mk_upd f_ref eta_file).
#[export] Instance upd_f_readable : Upd f_readable := ltac:(mk_upd f_readable eta_file).
#[export] Instance upd_f_writable : Upd f_writable := ltac:(mk_upd f_writable eta_file).
#[export] Instance upd_f_pipe : Upd f_pipe := ltac:(mk_upd f_pipe eta_file).
#[export] Instance upd_f_ip : Upd f_ip := ltac:(mk_upd f_ip eta_file).
#[export] Instance upd_f_off : Upd f_off := ltac:(mk_upd f_off eta_file).
#[export] Instance upd_f_major : Upd f_major := ltac:(mk_upd f_major eta_file).
Definition zero_file : file := mkFile FD_NONE 0 0 0 0 None 0 0.

(** pipe.c: struct pipe, kept as a record per pipe page. *)
Record pipe := mkPipe {
  pi_data : list Z;
  pi_nread : Z;
  pi_nwrite : Z;
  pi_readopen : Z;
  pi_writeopen : Z;
}.
Definition eta_pipe r := mkPipe (pi_data r) (pi_nread r) (pi_nwrite r) (pi_readopen r)
  (pi_writeopen r).
#[export] Instance upd_pi_data : Upd pi_data := ltac:(mk_upd pi_data eta_pipe).
#[export] Instance upd_pi_nread : Upd pi_nread := ltac:(mk_upd pi_nread eta_pipe).
#[export] Instance upd_pi_nwrite : Upd pi_nwrite := ltac:(mk_upd pi_nwrite eta_pipe).
#[export] Instance upd_pi_readopen : Upd pi_readopen := ltac:(mk_upd pi_readopen eta_pipe).
#[export] Instance upd_pi_writeopen : Upd pi_writeopen := ltac:(mk_upd pi_writeopen eta_pipe).

(** ** sleeplock.h, buf.h, fs.h, log.c: the file system's data *)

(** struct sleeplock; its spinlock is [Lsleep]. *)
Record sleeplock := mkSleeplock {
  sl_locked : Z;
  sl_pid : Z;
}.
Definition eta_sleeplock r := mkSleeplock (sl_locked r) (sl_pid r).
#[export] Instance upd_sl_locked : Upd sl_locked := ltac:(mk_upd sl_locked eta_sleeplock).
#[export] Instance upd_sl_pid : Upd sl_pid := ltac:(mk_upd sl_pid eta_sleeplock).

(** struct buf; the links are indices into bcache, where NBUF stands for
    bcache.head. *)
Record buf := mkBuf {
  b_valid : Z;
  b_disk : Z;
  b_dev : Z;
  b_blockno : Z;
  b_lock : sleeplock;
  b_refcnt : Z;
  b_prev : nat;
  b_next : nat;
  b_data : list Z;
}.
Definition eta_buf r := mkBuf (b_valid r) (b_disk r) (b_dev r) (b_blockno r) (b_lock r) (b_refcnt r)
  (b_prev r) (b_next r) (b_data r).
#[export] Instance upd_b_valid : Upd b_valid := ltac:(mk_upd b_valid eta_buf).
#[export] Instance upd_b_disk : Upd b_disk := ltac:(mk_upd b_disk eta_buf).
#[export] Instance upd_b_dev : Upd b_dev := ltac:(mk_upd b_dev eta_buf).
#[export] Instance upd_b_blockno : Upd b_blockno := ltac:(mk_upd b_blockno eta_buf).
#[export] Instance upd_b_lock : Upd b_lock := ltac:(mk_upd b_lock eta_buf).
#[export] Instance upd_b_refcnt : Upd b_refcnt := ltac:(mk_upd b_refcnt eta_buf).
#[export] Instance upd_b_prev : Upd b_prev := ltac:(mk_upd b_prev eta_buf).
#[export] Instance upd_b_next : Upd b_next := ltac:(mk_upd b_next eta_buf).
#[export] Instance upd_b_data : Upd b_data := ltac:(mk_upd b_data eta_buf).

(** struct log with its struct logheader. *)
Record log := mkLog {
  lg_start : Z;
  lg_size : Z;
  lg_outstanding : Z;
  lg_committing : Z;
  lg_dev : Z;
  lg_n : Z;
  lg_block : list Z;
}.
Definition eta_log r := mkLog (lg_start r) (lg_size r) (lg_outstanding r) (lg_committing r) (lg_dev
  r) (lg_n r) (lg_block r).
#[export] Instance upd_lg_start : Upd lg_start := ltac:(mk_upd lg_start eta_log).
#[export] Instance upd_lg_size : Upd lg_size := ltac:(mk_upd lg_size eta_log).
#[export] Instance upd_lg_outstanding : Upd lg_outstanding := ltac:(mk_upd lg_outstanding eta_log).
#[export] Instance upd_lg_committing : Upd lg_committing := ltac:(mk_upd lg_committing eta_log).
#[export] Instance upd_lg_dev : Upd lg_dev := ltac:(mk_upd lg_dev eta_log).
#[export] Instance upd_lg_n : Upd lg_n := ltac:(mk_upd lg_n eta_log).
#[export] Instance upd_lg_block : Upd lg_block := ltac:(mk_upd lg_block eta_log).

(** struct superblock. *)
Record superblock := mkSuperblock {
  sb_magic : Z;
  sb_size : Z;
  sb_nblocks : Z;
  sb_ninodes : Z;
  sb_nlog : Z;
  sb_logstart : Z;
  sb_inodestart : Z;
  sb_bmapstart : Z;
}.
Definition eta_superblock r := mkSuperblock (sb_magic r) (sb_size r) (sb_nblocks r) (sb_ninodes r)
  (sb_nlog r) (sb_logstart r) (sb_inodestart r) (sb_bmapstart r).
#[export] Instance upd_sb_magic : Upd sb_magic := ltac:(mk_upd sb_magic eta_superblock).
#[export] Instance upd_sb_size : Upd sb_size := ltac:(mk_upd sb_size eta_superblock).
#[export] Instance upd_sb_nblocks : Upd sb_nblocks := ltac:(mk_upd sb_nblocks eta_superblock).
#[export] Instance upd_sb_ninodes : Upd sb_ninodes := ltac:(mk_upd sb_ninodes eta_superblock).
#[export] Instance upd_sb_nlog : Upd sb_nlog := ltac:(mk_upd sb_nlog eta_superblock).
#[export] Instance upd_sb_logstart : Upd sb_logstart := ltac:(mk_upd sb_logstart eta_superblock).
#[export] Instance upd_sb_inodestart : Upd sb_inodestart := ltac:(mk_upd sb_inodestart eta_superblock).
#[export] Instance upd_sb_bmapstart : Upd sb_bmapstart := ltac:(mk_upd sb_bmapstart eta_superblock).

(** struct inode. *)
Record inode := mkInode {
  i_dev : Z;
  i_inum : Z;
  i_ref : Z;
  i_lock : sleeplock;
  i_valid : Z;
  i_type : Z;
  i_major : Z;
  i_minor : Z;
  i_nlink : Z;
  i_size : Z;
  i_addrs : list Z;
}.
Definition eta_inode r := mkInode (i_dev r) (i_inum r) (i_ref r) (i_lock r) (i_valid r) (i_type r)
  (i_major r) (i_minor r) (i_nlink r) (i_size r) (i_addrs r).
#[export] Instance upd_i_dev : Upd i_dev := ltac:(mk_upd i_dev eta_inode).
#[export] Instance upd_i_inum : Upd i_inum := ltac:(mk_upd i_inum eta_inode).
#[export] Instance upd_i_ref : Upd i_ref := ltac:(mk_upd i_ref eta_inode).
#[export] Instance upd_i_lock : Upd i_lock := ltac:(mk_upd i_lock eta_inode).
#[export] Instance upd_i_valid : Upd i_valid := ltac:(mk_upd i_valid eta_inode).
#[export] Instance upd_i_type : Upd i_type := ltac:(mk_upd i_type eta_inode).
#[export] Instance upd_i_major : Upd i_major := ltac:(mk_upd i_major eta_inode).
#[export] Instance upd_i_minor : Upd i_minor := ltac:(mk_upd i_minor eta_inode).
#[export] Instance upd_i_nlink : Upd i_nlink := ltac:(mk_upd i_nlink eta_inode).
#[export] Instance upd_i_size : Upd i_size := ltac:(mk_upd i_size eta_inode).
#[export] Instance upd_i_addrs : Upd i_addrs := ltac:(mk_upd i_addrs eta_inode).

(** bcache, log, itable and sb; and the disk as the history of its block
    writes, the last one first. *)
Record fsys := mkFsys {
  fs_bufs : list buf;
  fs_log : log;
  fs_itable : list inode;
  fs_sb : superblock;
  fs_disk : list (Z * list Z);
}.
Definition eta_fsys r := mkFsys (fs_bufs r) (fs_log r) (fs_itable r) (fs_sb r) (fs_disk r).
#[export] Instance upd_fs_bufs : Upd fs_bufs := ltac:(mk_upd fs_bufs eta_fsys).
#[export] Instance upd_fs_log : Upd fs_log := ltac:(mk_upd fs_log eta_fsys).
#[export] Instance upd_fs_itable : Upd fs_itable := ltac:(mk_upd fs_itable eta_fsys).
#[export] Instance upd_fs_sb : Upd fs_sb := ltac:(mk_upd fs_sb eta_fsys).
#[export] Instance upd_fs_disk : Upd fs_disk := ltac:(mk_upd fs_disk eta_fsys).

Definition BSIZE : Z := 1024.
Definition zero_sleeplock : sleeplock := mkSleeplock 0 0.
Definition zero_block : list Z := replicate 1024 0.
Definition zero_buf : buf := mkBuf 0 0 0 0 zero_sleeplock 0 0 0 zero_block.
Definition zero_log : log := mkLog 0 0 0 0 0 0 (replicate 30 0).
Definition zero_inode : inode := mkInode 0 0 0 zero_sleeplock 0 0 0 0 0 0 (replicate 13 0).
Definition zero_fsys : fsys :=
  mkFsys (replicate 31 zero_buf) zero_log (replicate 50 zero_inode) (mkSuperblock 0 0 0 0 0 0 0 0) [].

(** ** The devices: console.c, uart.c *)

(** cons, uart_tx_buf and its indices, panicked, pr.locking, which entries of
    devsw are set; and the UART itself: whether the transmitter is idle at
    the next readings of its status, the bytes waiting in it, the bytes sent
    and the writes to its configuration registers, the last ones first. *)
Record devices := mkDevices {
  cons_buf : list Z;
  cons_r : Z;
  cons_w : Z;
  cons_e : Z;
  uart_tx_buf : list Z;
  uart_tx_w : Z;
  uart_tx_r : Z;
  panicked : Z;
  devsw_on : list bool;
  uart_idle : list bool;
  uart_in : list Z;
  uart_out : list Z;
  uart_cfg : list (Z * Z);
  pr_locking : Z;
}.
Definition eta_devices r := mkDevices (cons_buf r) (cons_r r) (cons_w r) (cons_e r) (uart_tx_buf r)
  (uart_tx_w r) (uart_tx_r r) (panicked r) (devsw_on r) (uart_idle r) (uart_in r) (uart_out r)
  (uart_cfg r) (pr_locking r).
#[export] Instance upd_cons_buf : Upd cons_buf := ltac:(mk_upd cons_buf eta_devices).
#[export] Instance upd_cons_r : Upd cons_r := ltac:(mk_upd cons_r eta_devices).
#[export] Instance upd_cons_w : Upd cons_w := ltac:(mk_upd cons_w eta_devices).
#[export] Instance upd_cons_e : Upd cons_e := ltac:(mk_upd cons_e eta_devices).
#[export] Instance upd_uart_tx_buf : Upd uart_tx_buf := ltac:(mk_upd uart_tx_buf eta_devices).
#[export] Instance upd_uart_tx_w : Upd uart_tx_w := ltac:(mk_upd uart_tx_w eta_devices).
#[export] Instance upd_uart_tx_r : Upd uart_tx_r := ltac:(mk_upd uart_tx_r eta_devices).
#[export] Instance upd_panicked : Upd panicked := ltac:(mk_upd panicked eta_devices).
#[export] Instance upd_devsw_on : Upd devsw_on := ltac:(mk_upd devsw_on eta_devices).
#[export] Instance upd_uart_idle : Upd uart_idle := ltac:(mk_upd uart_idle eta_devices).
#[export] Instance upd_uart_in : Upd uart_in := ltac:(mk_upd uart_in eta_devices).
#[export] Instance upd_uart_out : Upd uart_out := ltac:(mk_upd uart_out eta_devices).
#[export] Instance upd_uart_cfg : Upd uart_cfg := ltac:(mk_upd uart_cfg eta_devices).
#[export] Instance upd_pr_locking : Upd pr_locking := ltac:(mk_upd pr_locking eta_devices).

Definition zero_devices : devices :=
  mkDevices (replicate 128 0) 0 0 0 (replicate 32 0) 0 0 0 (replicate 10 false) [] [] [] [] 0.

(** ** virtio.h and virtio_disk.c *)

(** What a descriptor points to: a command header, a buffer's data or a status
    byte. *)
Inductive dma : Set := Dnull | Dop (i : nat) | Ddata (b : nat) | Dstatus (i : nat).

(** struct virtq_desc. *)
Record virtq_desc := mkDesc {
  vd_addr : dma;
  vd_len : Z;
  vd_flags : Z;
  vd_next : Z;
}.
Definition eta_virtq_desc r := mkDesc (vd_addr r) (vd_len r) (vd_flags r) (vd_next r).
#[export] Instance upd_vd_addr : Upd vd_addr := ltac:(mk_upd vd_addr eta_virtq_desc).
#[export] Instance upd_vd_len : Upd vd_len := ltac:(mk_upd vd_len eta_virtq_desc).
#[export] Instance upd_vd_flags : Upd vd_flags := ltac:(mk_upd vd_flags eta_virtq_desc).
#[export] Instance upd_vd_next : Upd vd_next := ltac:(mk_upd vd_next eta_virtq_desc).

(** struct disk: the descriptors, the avail ring, the used ring with the index
    the device keeps, the driver's book-keeping, the command headers (type and
    sector), and the writes to the device's registers, the last one first. *)
Record vdisk := mkVdisk {
  v_desc : list virtq_desc;
  v_avail_ring : list Z;
  v_avail_idx : Z;
  v_used_ring : list Z;
  v_used_next : Z;
  v_free : list Z;
  v_used_idx : Z;
  v_info_b : list (option nat);
  v_info_status : list Z;
  v_ops : list (Z * Z);
  v_writes : list (Z * Z);
}.
Definition eta_vdisk r := mkVdisk (v_desc r) (v_avail_ring r) (v_avail_idx r) (v_used_ring r)
  (v_used_next r) (v_free r) (v_used_idx r) (v_info_b r) (v_info_status r) (v_ops r) (v_writes r).
#[export] Instance upd_v_desc : Upd v_desc := ltac:(mk_upd v_desc eta_vdisk).
#[export] Instance upd_v_avail_ring : Upd v_avail_ring := ltac:(mk_upd v_avail_ring eta_vdisk).
#[export] Instance upd_v_avail_idx : Upd v_avail_idx := ltac:(mk_upd v_avail_idx eta_vdisk).
#[export] Instance upd_v_used_ring : Upd v_used_ring := ltac:(mk_upd v_used_ring eta_vdisk).
#[export] Instance upd_v_used_next : Upd v_used_next := ltac:(mk_upd v_used_next eta_vdisk).
#[export] Instance upd_v_free : Upd v_free := ltac:(mk_upd v_free eta_vdisk).
#[export] Instance upd_v_used_idx : Upd v_used_idx := ltac:(mk_upd v_used_idx eta_vdisk).
#[export] Instance upd_v_info_b : Upd v_info_b := ltac:(mk_upd v_info_b eta_vdisk).
#[export] Instance upd_v_info_status : Upd v_info_status := ltac:(mk_upd v_info_status eta_vdisk).
#[export] Instance upd_v_ops : Upd v_ops := ltac:(mk_upd v_ops eta_vdisk).
#[export] Instance upd_v_writes : Upd v_writes := ltac:(mk_upd v_writes eta_vdisk).

Definition zero_vdisk : vdisk :=
  mkVdisk (replicate 8 (mkDesc Dnull 0 0 0)) (replicate 8 0) 0 (replicate 8 0) 0 (replicate 8 0) 0
    (replicate 8 None) (replicate 8 0) (replicate 8 (0, 0)) [].

(** ** Traps: trap.c, plic.c, main.c *)

(** The trap registers of this hart (sstatus.SIE and satp are in [cpu]), the
    interrupts the PLIC will hand out, the writes to other device registers, the
    last one first, and the static variables first of forkret() and started of
    main(). *)
Record hardware := mkHardware {
  hw_scause : Z;
  hw_sepc : Z;
  hw_stval : Z;
  hw_stvec : Z;
  hw_spp : bool;
  hw_spie : bool;
  hw_sip : Z;
  hw_hartid : Z;
  hw_claim : list Z;
  hw_mmio : list (Z * Z);
  hw_first : Z;
  hw_started : Z;
}.
Definition eta_hardware r := mkHardware (hw_scause r) (hw_sepc r) (hw_stval r) (hw_stvec r) (hw_spp
  r) (hw_spie r) (hw_sip r) (hw_hartid r) (hw_claim r) (hw_mmio r) (hw_first r) (hw_started r).
#[export] Instance upd_hw_scause : Upd hw_scause := ltac:(mk_upd hw_scause eta_hardware).
#[export] Instance upd_hw_sepc : Upd hw_sepc := ltac:(mk_upd hw_sepc eta_hardware).
#[export] Instance upd_hw_stval : Upd hw_stval := ltac:(mk_upd hw_stval eta_hardware).
#[export] Instance upd_hw_stvec : Upd hw_stvec := ltac:(mk_upd hw_stvec eta_hardware).
#[export] Instance upd_hw_spp : Upd hw_spp := ltac:(mk_upd hw_spp eta_hardware).
#[export] Instance upd_hw_spie : Upd hw_spie := ltac:(mk_upd hw_spie eta_hardware).
#[export] Instance upd_hw_sip : Upd hw_sip := ltac:(mk_upd hw_sip eta_hardware).
#[export] Instance upd_hw_hartid : Upd hw_hartid := ltac:(mk_upd hw_hartid eta_hardware).
#[export] Instance upd_hw_claim : Upd hw_claim := ltac:(mk_upd hw_claim eta_hardware).
#[export] Instance upd_hw_mmio : Upd hw_mmio := ltac:(mk_upd hw_mmio eta_hardware).
#[export] Instance upd_hw_first : Upd hw_first := ltac:(mk_upd hw_first eta_hardware).
#[export] Instance upd_hw_started : Upd hw_started := ltac:(mk_upd hw_started eta_hardware).

Definition zero_hardware : hardware := mkHardware 0 0 0 0 false false 0 0 [] [] 1 0.

(** ** The kernel state as one hart sees it *)

Record kstate := mkK {
  k_held : list lockid;               (* spinlocks this hart holds *)
  k_cpu : cpu;
  k_ticks : Z;                        (* trap.c: ticks *)
  k_nextpid : Z;
  k_nextnamespace : Z;
  k_procs : list proc;                (* proc[NPROC] *)
  k_nss : list namespace;             (* namespaces[NUMNS] *)
  k_initproc : option nat;
  k_initns : option nat;
  k_mem : gmap Z Z;                   (* physical memory, by byte *)
  k_freelist : Z;                     (* kmem.freelist *)
  k_ftable : list file;               (* ftable.file[NFILE] *)
  k_pipes : gmap Z pipe;              (* pipes, by the page they are in *)
  k_kpgtbl : Z;                       (* vm.c: kernel_pagetable *)
  k_fs : fsys;                        (* the file system *)
  k_dev : devices;                    (* console and UART *)
  k_vdisk : vdisk;                    (* virtio_disk.c: disk *)
  k_hw : hardware;                    (* trap registers, PLIC *)
}.
Definition eta_kstate r := mkK (k_held r) (k_cpu r) (k_ticks r) (k_nextpid r)
  (k_nextnamespace r) (k_procs r) (k_nss r) (k_initproc r) (k_initns r) (k_mem r)
  (k_freelist r) (k_ftable r) (k_pipes r) (k_kpgtbl r) (k_fs r) (k_dev r) (k_vdisk r)
  (k_hw r).
#[export] Instance upd_k_held : Upd k_held := ltac:(mk_upd k_held eta_kstate).
#[export] Instance upd_k_cpu : Upd k_cpu := ltac:(mk_upd k_cpu eta_kstate).
#[export] Instance upd_k_ticks : Upd k_ticks := ltac:(mk_upd k_ticks eta_kstate).
#[export] Instance upd_k_nextpid : Upd k_nextpid := ltac:(mk_upd k_nextpid eta_kstate).
#[export] Instance upd_k_nextns : Upd k_nextnamespace := ltac:(mk_upd k_nextnamespace eta_kstate).
#[export] Instance upd_k_procs : Upd k_procs := ltac:(mk_upd k_procs eta_kstate).
#[export] Instance upd_k_nss : Upd k_nss := ltac:(mk_upd k_nss eta_kstate).
#[export] Instance upd_k_initproc : Upd k_initproc := ltac:(mk_upd k_initproc eta_kstate).
#[export] Instance upd_k_initns : Upd k_initns := ltac:(mk_upd k_initns eta_kstate).
#[export] Instance upd_k_mem : Upd k_mem := ltac:(mk_upd k_mem eta_kstate).
#[export] Instance upd_k_freelist : Upd k_freelist := ltac:(mk_upd k_freelist eta_kstate).
#[export] Instance upd_k_ftable : Upd k_ftable := ltac:(mk_upd k_ftable eta_kstate).
#[export] Instance upd_k_pipes : Upd k_pipes := ltac:(mk_upd k_pipes eta_kstate).
#[export] Instance upd_k_kpgtbl : Upd k_kpgtbl := ltac:(mk_upd k_kpgtbl eta_kstate).
#[export] Instance upd_k_fs : Upd k_fs := ltac:(mk_upd k_fs eta_kstate).
#[export] Instance upd_k_dev : Upd k_dev := ltac:(mk_upd k_dev eta_kstate).
#[export] Instance upd_k_vdisk : Upd k_vdisk := ltac:(mk_upd k_vdisk eta_kstate).
#[export] Instance upd_k_hw : Upd k_hw := ltac:(mk_upd k_hw eta_kstate).

Abbreviation K := (M kstate).

(** The kernel's data when main() is entered: the bss is zero and the two
    initialised counters are 1. *)
Definition bss : kstate :=
  mkK [] (mkCpu None 0 false false 0) 0 1 1 (replicate 64 zero_proc) (replicate 64 zero_namespace)
    None None ∅ 0 (replicate 100 zero_file) ∅ 0 zero_fsys zero_devices zero_vdisk zero_hardware.

(** An image as the linker lays it out, for the examples. *)
Definition sample_image : Image := {|
  sym_etext := 0x80008000; sym_end := 0x80022000; sym_trampoline := 0x80007000;
  sym_uservec := 0x80007000; sym_userret := 0x8000709c; sym_kernelvec := 0x80005c00;
  sym_forkret := 0x80001a00; sym_usertrap := 0x80002a00; sym_rodata := replicate 16 0;
  sym_stack := replicate 16 0 |}.

(** The index ranges of the kernel's tables. *)
Definition all_procs : list nat := seq 0 (Z.to_nat NPROC).
Definition all_nss : list nat := seq 0 (Z.to_nat NUMNS).
Definition all_files : list nat := seq 0 (Z.to_nat NFILE).
Arguments all_procs : simpl never.
Arguments all_nss : simpl never.
Arguments all_files : simpl never.
Arguments for_list : simpl never.
Arguments find_list : simpl never.

(** Struct field access through a table pointer.  A null or out-of-range
    pointer is a [Fault]. *)
Definition getp (i : nat) : K proc := fun s =>
  match k_procs s !! i with Some p => Done p s | None => Fault "proc" s end.
Definition setp (i : nat) (f : proc -> proc) : K unit := fun s =>
  match k_procs s !! i with
  | Some p => Done tt (s <| k_procs := <[i := f p]> (k_procs s) |>)
  | None => Fault "proc" s
  end.
Definition getns (n : nat) : K namespace := fun s =>
  match k_nss s !! n with Some x => Done x s | None => Fault "namespace" s end.
Definition setns (n : nat) (f : namespace -> namespace) : K unit := fun s =>
  match k_nss s !! n with
  | Some x => Done tt (s <| k_nss := <[n := f x]> (k_nss s) |>)
  | None => Fault "namespace" s
  end.
Definition getf (n : nat) : K file := fun s =>
  match k_ftable s !! n with Some x => Done x s | None => Fault "file" s end.
Definition setf (n : nat) (f : file -> file) : K unit := fun s =>
  match k_ftable s !! n with
  | Some x => Done tt (s <| k_ftable := <[n := f x]> (k_ftable s) |>)
  | None => Fault "file" s
  end.

(** Following a pointer: the C code dereferences it without a test. *)
Definition deref {A} (what : string) (o : option A) : K A :=
  match o with Some a => ret a | None => fault what end.

(** ** Frames of the primitive accesses

    [Blind P f]: the relation [P] does not look at field [f]. *)

Class Blind {T} (P : kstate -> kstate -> Prop) (proj : kstate -> T) `{!Upd proj} :=
  blind : forall g s, P s (upd proj g s).
#[export] Hint Extern 1 (Blind (same _) _) => (intros ? ?; reflexivity) : typeclass_instances.

(** [only_mem s s']: [s'] differs from [s] in memory, the free list and
    the hart's lock state at most. *)
Definition only_mem (s s' : kstate) : Prop :=
  s' = s <| k_mem := k_mem s' |> <| k_freelist := k_freelist s' |>
         <| k_held := k_held s' |> <| k_cpu := k_cpu s' |>.
#[export] Instance only_mem_preorder : PreOrder only_mem.
Proof.
  split; red; [intros []; reflexivity|].
  intros a b c H1 H2. unfold only_mem in *. etransitivity; [exact H2|]. rewrite H1. reflexivity.
Qed.
Lemma only_mem_upd s f : only_mem s (upd k_mem f s).
Proof. reflexivity. Qed.
#[export] Hint Extern 1 (Blind only_mem _) =>
  (intros ? ?; reflexivity) : typeclass_instances.

Section prims.
Context (P : kstate -> kstate -> Prop) `{!PreOrder P}.

Lemma segs_getp i : segs P (getp i).
Proof. intros s. unfold getp. destruct (_ !! _); simpl; [reflexivity|done]. Qed.
Lemma segs_getns i : segs P (getns i).
Proof. intros s. unfold getns. destruct (_ !! _); simpl; [reflexivity|done]. Qed.
Lemma segs_getf i : segs P (getf i).
Proof. intros s. unfold getf. destruct (_ !! _); simpl; [reflexivity|done]. Qed.
Lemma segs_deref {A} w (o : option A) : segs P (deref w o).
Proof. intros s. destruct o; simpl; [reflexivity|done]. Qed.
Lemma segs_setp i f `{!Blind P k_procs} : segs P (setp i f).
Proof. intros s. unfold setp. destruct (_ !! _); simpl; [apply blind|done]. Qed.
Lemma segs_setns i f `{!Blind P k_nss} : segs P (setns i f).
Proof. intros s. unfold setns. destruct (_ !! _); simpl; [apply blind|done]. Qed.
Lemma segs_setf i f `{!Blind P k_ftable} : segs P (setf i f).
Proof. intros s. unfold setf. destruct (_ !! _); simpl; [apply blind|done]. Qed.
Lemma segs_upd {T} (proj : kstate -> T) `{!Upd proj} g `{!Blind P proj} :
  segs P (modify (upd proj g)).
Proof. apply segs_modify. intros s. apply blind. Qed.
End prims.

#[export] Hint Resolve segs_getp segs_getns segs_getf segs_deref segs_setp segs_setns segs_setf
  segs_upd : segs.

Lemma nosw_getp i : noswitch (getp i).
Proof. intros s. unfold getp. by destruct (_ !! _). Qed.
Lemma nosw_setp i f : noswitch (setp i f).
Proof. intros s. unfold setp. by destruct (_ !! _). Qed.
Lemma nosw_getns i : noswitch (getns i).
Proof. intros s. unfold getns. by destruct (_ !! _). Qed.
Lemma nosw_setns i f : noswitch (setns i f).
Proof. intros s. unfold setns. by destruct (_ !! _). Qed.
Lemma nosw_getf i : noswitch (getf i).
Proof. intros s. unfold getf. by destruct (_ !! _). Qed.
Lemma nosw_setf i f : noswitch (setf i f).
Proof. intros s. unfold setf. by destruct (_ !! _). Qed.
Lemma nosw_deref {A} w (o : option A) : noswitch (deref w o).
Proof. intros s. by destruct o. Qed.
#[export] Hint Resolve nosw_getp nosw_setp nosw_getns nosw_setns nosw_getf nosw_setf nosw_deref : nosw.

(** Successful primitive accesses. *)
Lemma getp_done s i p : k_procs s !! i = Some p -> getp i s = Done p s.
Proof. unfold getp. by intros ->. Qed.
Lemma setp_done s i f p :
  k_procs s !! i = Some p -> setp i f s = Done tt (s <| k_procs := <[i := f p]> (k_procs s) |>).
Proof. unfold setp. by intros ->. Qed.
Lemma getns_done s i p : k_nss s !! i = Some p -> getns i s = Done p s.
Proof. unfold getns. by intros ->. Qed.
Lemma setns_done s i f p :
  k_nss s !! i = Some p -> setns i f s = Done tt (s <| k_nss := <[i := f p]> (k_nss s) |>).
Proof. unfold setns. by intros ->. Qed.

(** Inversion of successful accesses. *)
Lemma getp_inv s i p s' : getp i s = Done p s' -> s' = s /\ k_procs s !! i = Some p.
Proof. unfold getp. destruct (_ !! _); [|done]. by intros [= -> ->]. Qed.
Lemma setp_inv s i f a s' : setp i f s = Done a s' ->
  exists p, k_procs s !! i = Some p /\ s' = s <| k_procs := <[i := f p]> (k_procs s) |>.
Proof. unfold setp. destruct (_ !! _) as [p|]; [|done]. intros [= <- <-]. eauto. Qed.
Lemma getns_inv s i p s' : getns i s = Done p s' -> s' = s /\ k_nss s !! i = Some p.
Proof. unfold getns. destruct (_ !! _); [|done]. by intros [= -> ->]. Qed.
Lemma setns_inv s i f a s' : setns i f s = Done a s' ->
  exists p, k_nss s !! i = Some p /\ s' = s <| k_nss := <[i := f p]> (k_nss s) |>.
Proof. unfold setns. destruct (_ !! _) as [p|]; [|done]. intros [= <- <-]. eauto. Qed.
Lemma deref_inv {A} w (o : option A) s a s' : deref w o s = Done a s' -> s' = s /\ o = Some a.
Proof. destruct o; [|done]. by intros [= -> ->]. Qed.
Lemma ret_inv {A} (a b : A) (s s' : kstate) : ret a s = Done b s' -> s' = s /\ b = a.
Proof. by intros [= -> ->]. Qed.
Lemma gets_inv {A} (f : kstate -> A) s a s' : gets f s = Done a s' -> s' = s /\ a = f s.
Proof. by intros [= -> ->]. Qed.
Lemma modify_inv (f : kstate -> kstate) s a s' : modify f s = Done a s' -> s' = f s.
Proof. by intros [= _ ->]. Qed.

(** The process and namespace tables and their counters. *)
Definition tables (s : kstate) : list proc * list namespace * Z * Z * option nat * option nat :=
  (k_procs s, k_nss s, k_nextpid s, k_nextnamespace s, k_initproc s, k_initns s).
Lemma tables_eq s s' : tables s' = tables s ->
  k_procs s' = k_procs s /\ k_nss s' = k_nss s /\ k_nextpid s' = k_nextpid s /\
  k_nextnamespace s' = k_nextnamespace s /\ k_initproc s' = k_initproc s /\ k_initns s' = k_initns s.
Proof. unfold tables. intros [=]. done. Qed.

(** [mstep_inv H] peels the first call off a successful run [H], inverting the
    primitive accesses and turning every call that keeps the tables into
    equations on them. *)
Ltac use_tables E :=
  let T := fresh "T" in let Ep := fresh "Ep" in let En := fresh "En" in
  let Ec := fresh "Ec" in let Ed := fresh "Ed" in let Ei := fresh "Ei" in let Ej := fresh "Ej" in
  lazymatch type of E with
  | ?m ?s = Done ?a ?s1 =>
      assert (T : segs (same tables) m) by (solve [segs_tac]);
      apply (segs_done (same tables) m s a s1) in T; [|exact E];
      apply tables_eq in T; destruct T as (Ep & En & Ec & Ed & Ei & Ej); clear E
  end.
Ltac prim_inv E :=
  lazymatch type of E with
  | getp _ _ = Done _ _ => apply getp_inv in E; destruct E as [-> E]
  | setp _ _ _ = Done _ _ => apply setp_inv in E; destruct E as (? & E & ->)
  | getns _ _ = Done _ _ => apply getns_inv in E; destruct E as [-> E]
  | setns _ _ _ = Done _ _ => apply setns_inv in E; destruct E as (? & E & ->)
  | deref _ _ _ = Done _ _ => apply deref_inv in E; destruct E as [-> E]
  | ret _ _ = Done _ _ => apply ret_inv in E; destruct E as [-> ->]
  | gets _ _ = Done _ _ => apply gets_inv in E; destruct E as [-> ->]
  | modify _ _ = Done _ _ => apply modify_inv in E; subst
  | _ => use_tables E
  end.
Ltac mstep_inv H :=
  let a := fresh "a" in let s1 := fresh "s" in let E := fresh "E" in
  apply bind_done_inv in H; destruct H as (a & s1 & E & H); prim_inv E; ksimp.

(** [lookups] computes lookups in updated tables. *)
Ltac lookups :=
  repeat match goal with
  | E : k_procs ?s = _, H : k_procs ?s !! _ = Some _ |- _ => rewrite E in H
  | E : k_nss ?s = _, H : k_nss ?s !! _ = Some _ |- _ => rewrite E in H
  | H : <[?i := _]> ?l !! ?i = Some ?y |- _ =>
      apply list_lookup_insert_Some in H;
      destruct H as [(_ & H & _)|[H _]]; [first [subst y|injection H as H]|by destruct H]
  | H1 : ?l !! ?i = Some ?x, H2 : ?l !! ?i = Some ?y |- _ =>
      first [constr_eq x y; clear H2|rewrite H1 in H2; injection H2 as H2; first [subst y|subst x]]
  end.
