(* ===== verification/Spinlock.v ===== *)
(** * spinlock.c: spin locks and interrupt nesting

    [Spinlock] has the operations as one hart runs them: [lk->locked &&
    lk->cpu == mycpu()] is membership in [k_held], and the spin loop of
    [acquire] is over when the definition continues.  LockWord.v models
    the lock word itself and justifies this view. *)

From S2P Require Import Prelude State.

Module Spinlock.

(** riscv.h: intr_get, intr_on, intr_off. *)
Definition intr_get : K bool := gets (fun s => c_sie (k_cpu s)).
Definition intr_on : K unit := modify (upd k_cpu (upd c_sie (fun _ => true))).
Definition intr_off : K unit := modify (upd k_cpu (upd c_sie (fun _ => false))).

Definition mycpu : K cpu := gets k_cpu.

Definition push_off : K unit :=
  let! old := intr_get in
  intr_off ;!
  let! c := mycpu in
  when (c_noff c =? 0) (modify (upd k_cpu (upd c_intena (fun _ => old)))) ;!
  modify (upd k_cpu (upd c_noff (fun n => n + 1))).

Definition pop_off : K unit :=
  let! on := intr_get in
  if on then panic "pop_off - interruptible" else
  let! c := mycpu in
  if c_noff c <? 1 then panic "pop_off" else
  modify (upd k_cpu (upd c_noff (fun n => n - 1))) ;!
  let! c := mycpu in
  when ((c_noff c =? 0) && c_intena c) intr_on.

(** proc.c: myproc *)
Definition myproc : K (option nat) :=
  push_off ;!
  let! c := mycpu in
  let p := c_proc c in
  pop_off ;!
  ret p.

Definition holding (lk : lockid) : K bool := gets (fun s => bool_decide (lk ∈ k_held s)).

Definition acquire (lk : lockid) : K unit :=
  push_off ;!
  let! h := holding lk in
  if h then panic "acquire" else
  modify (upd k_held (fun l => lk :: l)).

Definition release (lk : lockid) : K unit :=
  let! h := holding lk in
  if negb h then panic "release" else
  modify (upd k_held (filter (fun l => l <> lk))) ;!
  pop_off.

(** ** Frames *)

Section segs.
Context (P : kstate -> kstate -> Prop) `{!PreOrder P}.

Lemma segs_push_off `{!Blind P k_cpu} : segs P push_off.
Proof. unfold push_off, intr_get, intr_off, mycpu. segs_tac. Qed.
Lemma segs_pop_off `{!Blind P k_cpu} : segs P pop_off.
Proof. unfold pop_off, intr_get, mycpu, intr_on. segs_tac. Qed.
Lemma segs_myproc `{!Blind P k_cpu} : segs P myproc.
Proof. unfold myproc, mycpu. pose proof segs_push_off. pose proof segs_pop_off. segs_tac. Qed.
Lemma segs_holding lk : segs P (holding lk).
Proof. unfold holding. segs_tac. Qed.
Lemma segs_acquire lk `{!Blind P k_cpu, !Blind P k_held} : segs P (acquire lk).
Proof. unfold acquire. pose proof segs_push_off. pose proof segs_holding. segs_tac. Qed.
Lemma segs_release lk `{!Blind P k_cpu, !Blind P k_held} : segs P (release lk).
Proof. unfold release. pose proof segs_pop_off. pose proof segs_holding. segs_tac. Qed.
End segs.

#[export] Hint Resolve segs_push_off segs_pop_off segs_myproc segs_holding segs_acquire segs_release : segs.

Lemma nosw_push_off : noswitch push_off.
Proof. unfold push_off, intr_get, intr_off, mycpu. nosw_tac. Qed.
Lemma nosw_pop_off : noswitch pop_off.
Proof. unfold pop_off, intr_get, intr_on, mycpu. nosw_tac. Qed.
#[export] Hint Resolve nosw_push_off nosw_pop_off : nosw.
Lemma nosw_myproc : noswitch myproc.
Proof. unfold myproc, mycpu. nosw_tac. Qed.
Lemma nosw_acquire lk : noswitch (acquire lk).
Proof. unfold acquire, holding. nosw_tac. Qed.
Lemma nosw_release lk : noswitch (release lk).
Proof. unfold release, holding. nosw_tac. Qed.
#[export] Hint Resolve nosw_myproc nosw_acquire nosw_release : nosw.

(** ** The hart's interrupt and lock invariant *)

(** Interrupts are off while [noff] is positive, and each held lock
    accounts for one level of [noff]; [extra] is the number of bare
    [push_off]s outstanding. *)
Definition hart_ok (extra : Z) (s : kstate) : Prop :=
  NoDup (k_held s) /\
  c_noff (k_cpu s) = Z.of_nat (length (k_held s)) + extra /\
  0 <= extra /\
  (0 < c_noff (k_cpu s) -> c_sie (k_cpu s) = false).

(** The state with [lk] taken. *)
Definition locked (lk : lockid) (s : kstate) : kstate :=
  let c := k_cpu s in
  s <| k_held := lk :: k_held s |>
    <| k_cpu := mkCpu (c_proc c) (c_noff c + 1)
                  (if c_noff c =? 0 then c_sie c else c_intena c) false (c_satp c) |>.

(** The state with [lk] given back, [h] being the other locks held. *)
Definition unlocked (h : list lockid) (s : kstate) : kstate :=
  let c := k_cpu s in
  s <| k_held := h |>
    <| k_cpu := mkCpu (c_proc c) (c_noff c - 1) (c_intena c)
                  ((c_noff c - 1 =? 0) && c_intena c) (c_satp c) |>.

Lemma k_held_locked l s : k_held (locked l s) = l :: k_held s.
Proof. reflexivity. Qed.
Lemma k_cpu_locked l s : k_cpu (locked l s) =
  mkCpu (c_proc (k_cpu s)) (c_noff (k_cpu s) + 1)
    (if c_noff (k_cpu s) =? 0 then c_sie (k_cpu s) else c_intena (k_cpu s)) false (c_satp (k_cpu s)).
Proof. reflexivity. Qed.
Lemma k_held_unlocked h s : k_held (unlocked h s) = h.
Proof. reflexivity. Qed.
Lemma k_cpu_unlocked h s : k_cpu (unlocked h s) =
  mkCpu (c_proc (k_cpu s)) (c_noff (k_cpu s) - 1) (c_intena (k_cpu s))
    ((c_noff (k_cpu s) - 1 =? 0) && c_intena (k_cpu s)) (c_satp (k_cpu s)).
Proof. reflexivity. Qed.

Ltac lk_eqn p f :=
  lazymatch p with
  | k_held => lazymatch f with locked => k_held_locked | unlocked => k_held_unlocked end
  | k_cpu => lazymatch f with locked => k_cpu_locked | unlocked => k_cpu_unlocked end
  | _ => constr:(fun_ne p f (fun _ _ => eq_refl))
  end.
Ltac ksimp_ext ::=
  match goal with
  | |- context [?p (locked ?l ?s)] =>
      let _ := constr:(_ : Upd p) in let e := lk_eqn p locked in rewrite (e l s)
  | |- context [?p (unlocked ?l ?s)] =>
      let _ := constr:(_ : Upd p) in let e := lk_eqn p unlocked in rewrite (e l s)
  | |- context [c_proc (mkCpu _ _ _ _ _)] => progress cbn [c_proc]
  | |- context [c_noff (mkCpu _ _ _ _ _)] => progress cbn [c_noff]
  | |- context [c_intena (mkCpu _ _ _ _ _)] => progress cbn [c_intena]
  | |- context [c_sie (mkCpu _ _ _ _ _)] => progress cbn [c_sie]
  | |- context [c_satp (mkCpu _ _ _ _ _)] => progress cbn [c_satp]
  end.

Lemma acquire_done lk s : lk ∉ k_held s -> acquire lk s = Done tt (locked lk s).
Proof.
  intros H. unfold acquire, push_off, holding, intr_get, intr_off, mycpu, when, locked.
  unfold bind, gets, modify; simpl; ksimp.
  destruct (c_noff (k_cpu s) =? 0); simpl; ksimp; rewrite bool_decide_eq_false_2 by done; reflexivity.
Qed.

Lemma acquire_held lk s : lk ∈ k_held s -> exists s', acquire lk s = Panic "acquire" s'.
Proof.
  intros H. unfold acquire, push_off, holding, intr_get, intr_off, mycpu, when.
  unfold bind, gets, modify; simpl; ksimp.
  destruct (c_noff (k_cpu s) =? 0); simpl; ksimp; rewrite bool_decide_eq_true_2 by done;
    eexists; reflexivity.
Qed.

Lemma release_done lk s h :
  lk ∈ k_held s -> filter (fun l => l <> lk) (k_held s) = h ->
  c_sie (k_cpu s) = false -> 1 <= c_noff (k_cpu s) ->
  release lk s = Done tt (unlocked h s).
Proof.
  intros Hin <- Hsie Hn. unfold release, pop_off, holding, intr_get, intr_on, mycpu, when, unlocked.
  unfold bind, gets, modify; simpl. rewrite bool_decide_eq_true_2 by done. simpl. ksimp.
  rewrite Hsie. ksimp. rewrite (proj2 (Z.ltb_ge _ _)) by lia. simpl. ksimp.
  destruct (_ && _) eqn:E; simpl; [by rewrite ?E|].
  unfold ret. f_equal. rewrite <-Hsie. reflexivity.
Qed.

Lemma release_not_held lk s : lk ∉ k_held s -> release lk s = Panic "release" s.
Proof.
  intros H. unfold release, holding, bind, gets. simpl.
  by rewrite bool_decide_eq_false_2.
Qed.

Lemma filter_ne_notin (lk : lockid) (l : list lockid) :
  lk ∉ l -> filter (fun x => x <> lk) l = l.
Proof.
  induction l as [|x l IH]; [done|]. intros H%not_elem_of_cons. destruct H.
  rewrite filter_cons_True by done. by rewrite IH.
Qed.
Lemma filter_ne_head (lk : lockid) (l : list lockid) :
  lk ∉ l -> filter (fun x => x <> lk) (lk :: l) = l.
Proof. intros. rewrite filter_cons_False by auto. by apply filter_ne_notin. Qed.

Lemma wp_acquire lk s (Q : unit -> kstate -> Prop) :
  lk ∉ k_held s -> Q tt (locked lk s) -> wp (acquire lk) s Q.
Proof. intros H HQ. eapply wp_eq; [by apply acquire_done|done]. Qed.

(** Releasing the lock taken last. *)
Lemma wp_release lk s h (Q : unit -> kstate -> Prop) :
  k_held s = lk :: h -> lk ∉ h -> c_sie (k_cpu s) = false -> 1 <= c_noff (k_cpu s) ->
  Q tt (unlocked h s) -> wp (release lk) s Q.
Proof.
  intros Hh Hn ? ? HQ. eapply wp_eq; [|exact HQ].
  apply release_done; auto.
  - rewrite Hh. left.
  - rewrite Hh. by apply filter_ne_head.
Qed.

(** [hart_same]: the same locks are held and the interrupt state is the
    same (only [intena], which is dead while [noff] is 0, may differ). *)
Definition hart_same (s s' : kstate) : Prop :=
  k_held s' = k_held s /\ c_proc (k_cpu s') = c_proc (k_cpu s) /\
  c_noff (k_cpu s') = c_noff (k_cpu s) /\ c_sie (k_cpu s') = c_sie (k_cpu s) /\
  c_satp (k_cpu s') = c_satp (k_cpu s) /\
  (0 < c_noff (k_cpu s) -> c_intena (k_cpu s') = c_intena (k_cpu s)).
#[export] Instance hart_same_preorder : PreOrder hart_same.
Proof.
  split; [by repeat split|].
  intros a b c (?&?&?&?&?&?) (?&?&?&?&?&?). repeat split; try congruence.
  intros. etrans; [|by auto]. match goal with H : _ |- _ => apply H end. congruence.
Qed.

(** What a caller needs of the hart to take a lock. *)
Definition hart_wf (s : kstate) : Prop :=
  0 <= c_noff (k_cpu s) /\ (0 < c_noff (k_cpu s) -> c_sie (k_cpu s) = false).
Lemma hart_same_wf s s' : hart_same s s' -> hart_wf s -> hart_wf s'.
Proof. unfold hart_same, hart_wf. intros (_&_&->&->&_). done. Qed.

(** Taking a lock and giving it back leaves the hart as it was. *)
Lemma lock_unlock lk s s1 :
  k_held s1 = k_held (locked lk s) -> k_cpu s1 = k_cpu (locked lk s) ->
  0 <= c_noff (k_cpu s) -> (0 < c_noff (k_cpu s) -> c_sie (k_cpu s) = false) ->
  hart_same s (unlocked (k_held s) s1).
Proof.
  intros Hh Hc Hn Hs. unfold hart_same. ksimp. rewrite Hc. ksimp.
  replace (c_noff (k_cpu s) + 1 - 1) with (c_noff (k_cpu s)) by lia.
  repeat split.
  - destruct (Z.eqb_spec (c_noff (k_cpu s)) 0) as [E|E]; simpl; [done|].
    symmetry. apply Hs. lia.
  - intros. by rewrite (proj2 (Z.eqb_neq _ _)) by lia.
Qed.

(** The state without the hart's lock and interrupt state. *)
Definition nohart (s : kstate) : kstate :=
  s <| k_held := [] |> <| k_cpu := mkCpu None 0 false false 0 |>.
Lemma nohart_locked lk s : nohart (locked lk s) = nohart s.
Proof. reflexivity. Qed.
Lemma nohart_unlocked h s : nohart (unlocked h s) = nohart s.
Proof. reflexivity. Qed.

(** [hart_eq s s']: [s'] is [s] up to the dead [intena]. *)
Definition hart_eq (s s' : kstate) : Prop := hart_same s s' /\ nohart s' = nohart s.
#[export] Instance hart_eq_preorder : PreOrder hart_eq.
Proof.
  split; [by split|]. intros a b c [H1 E1] [H2 E2]. split; [by etrans|congruence].
Qed.

Lemma hart_unlock lk s s1 : hart_wf s -> hart_same (locked lk s) s1 ->
  hart_same s (unlocked (k_held s) s1).
Proof.
  intros [Hn Hs] (Hh & Hp & Hf & Hi & Ht & Hin). unfold hart_same. ksimp.
  rewrite k_cpu_locked in Hp, Hf, Hi, Ht, Hin. cbn [c_proc c_noff c_intena c_sie c_satp] in *.
  rewrite Hp, Hf, Ht, Hin by lia. replace (c_noff (k_cpu s) + 1 - 1) with (c_noff (k_cpu s)) by lia.
  repeat split.
  - destruct (Z.eqb_spec (c_noff (k_cpu s)) 0) as [E|E]; simpl; [done|]. symmetry. apply Hs. lia.
  - intros. by rewrite (proj2 (Z.eqb_neq _ _)) by lia.
Qed.
Lemma locked_wf lk s : hart_wf s -> hart_wf (locked lk s).
Proof. intros [? ?]. unfold hart_wf. ksimp. split; [lia|done]. Qed.

(** Releasing the lock a region began with. *)
Lemma wp_unlock lk s s1 (Q : unit -> kstate -> Prop) :
  hart_wf s -> lk ∉ k_held s -> hart_same (locked lk s) s1 ->
  (forall s2, hart_same s s2 -> nohart s2 = nohart s1 -> Q tt s2) -> wp (release lk) s1 Q.
Proof.
  intros Hw Hn Hh HQ. pose proof Hh as (Hh1 & _ & Hf & Hi & _). destruct Hw as [Hw1 Hw2].
  rewrite k_cpu_locked in Hf, Hi. cbn [c_noff c_sie] in *. rewrite k_held_locked in Hh1.
  apply (wp_release lk _ (k_held s)); auto; [lia|]. apply HQ; [|apply nohart_unlocked].
  by apply (hart_unlock lk).
Qed.

(** myproc answers with the process of this hart and changes nothing but
    the dead [intena]. *)
Lemma wp_myproc s (Q : option nat -> kstate -> Prop) :
  hart_wf s -> (forall s', hart_eq s s' -> Q (c_proc (k_cpu s)) s') -> wp myproc s Q.
Proof.
  intros [Hn Hs] HQ. unfold myproc, push_off, pop_off, intr_get, intr_off, intr_on, mycpu.
  repeat wp_step. ksimp.
  destruct (Z.eqb_spec (c_noff (k_cpu s)) 0) as [E|E]; 
    repeat (repeat wp_step; ksimp); rewrite (proj2 (Z.ltb_ge _ _)) by lia; repeat wp_step; ksimp;
    replace (c_noff (k_cpu s) + 1 - 1) with (c_noff (k_cpu s)) by lia.
  - rewrite E. simpl. destruct (c_sie (k_cpu s)) eqn:Es; repeat wp_step; ksimp;
      apply HQ; (split; [|reflexivity]); unfold hart_same; ksimp; rewrite ?Es, ?E; repeat split; lia.
  - rewrite (proj2 (Z.eqb_neq _ _)) by lia. simpl. repeat wp_step. ksimp.
    apply HQ. split; [|reflexivity]. unfold hart_same; ksimp; repeat split; [lia|by rewrite Hs by lia].
Qed.

(** ** Properties *)

(** [n] calls in a row. *)
Fixpoint repeat_m (n : nat) (m : K unit) : K unit :=
  match n with O => ret tt | S n => m ;! repeat_m n m end.

(** The hart after [n] more push_offs. *)
Definition pushed (n : nat) (c : cpu) : cpu :=
  match n with
  | O => c
  | S _ => mkCpu (c_proc c) (c_noff c + Z.of_nat n)
             (if c_noff c =? 0 then c_sie c else c_intena c) false (c_satp c)
  end.

Lemma push_off_done s : push_off s = Done tt (s <| k_cpu := pushed 1 (k_cpu s) |>).
Proof.
  unfold push_off, intr_get, intr_off, mycpu, when, pushed, bind, gets, modify. simpl. ksimp.
  destruct (c_noff (k_cpu s) =? 0); simpl; destruct s as [? [] ]; reflexivity.
Qed.

Lemma pushed_S n c : 0 <= c_noff c -> pushed n (pushed 1 c) = pushed (S n) c.
Proof.
  intros Hn. destruct n as [|n]; simpl; [done|].
  rewrite (proj2 (Z.eqb_neq _ _)) by lia. f_equal. lia.
Qed.

Lemma push_off_n n s : 0 <= c_noff (k_cpu s) ->
  repeat_m n push_off s = Done tt (s <| k_cpu := pushed n (k_cpu s) |>).
Proof.
  revert s. induction n as [|n IH]; intros s Hn; cbn [repeat_m].
  - by destruct s.
  - rewrite (bind_done _ _ s _ _ (push_off_done s)). rewrite IH by (ksimp; simpl; lia).
    ksimp. rewrite pushed_S by done. reflexivity.
Qed.

(** The state after [n + 1] push_offs and one pop_off. *)
Lemma pop_off_S n c s : 0 <= c_noff c -> (0 < c_noff c -> c_sie c = false) ->
  pop_off (s <| k_cpu := pushed (S n) c |>) =
  Done tt (s <| k_cpu := match n with
                         | O => c <| c_intena := if c_noff c =? 0 then c_sie c else c_intena c |>
                         | S _ => pushed n c end |>).
Proof.
  intros Hn Hs. unfold pop_off, intr_get, intr_on, mycpu, when, bind, gets, modify.
  cbn [obind]. ksimp. cbn [pushed c_sie c_noff]. ksimp. cbn [c_noff].
  rewrite (proj2 (Z.ltb_ge (c_noff c + Z.of_nat (S n)) 1)) by lia. cbn [obind]. ksimp.
  cbn [c_noff c_intena].
  replace (c_noff c + Z.of_nat (S n) - 1) with (c_noff c + Z.of_nat n) by lia.
  destruct n as [|n]; cbn [pushed].
  - rewrite Z.add_0_r. destruct (Z.eqb_spec (c_noff c) 0) as [E|E]; simpl.
    + destruct (c_sie c) eqn:Es; simpl; destruct c, s as [? [] ]; simpl in *; subst; reflexivity.
    + destruct c, s as [? [] ]; simpl in *. rewrite Hs by lia.
      unfold upd, upd_k_cpu, upd_c_noff, upd_c_intena. simpl. do 3 f_equal. lia.
  - rewrite (proj2 (Z.eqb_neq _ _)) by lia. simpl.
    destruct c, s as [? [] ]; simpl in *. unfold upd, upd_k_cpu, upd_c_noff. simpl. do 3 f_equal. lia.
Qed.

(** Interrupt nesting: after [n + 1] push_offs interrupts are off, and
    after as many pop_offs the interrupt enable bit and the nesting depth
    are what they were before the first push_off, at any depth. *)
Theorem push_pop_nest n s :
  0 <= c_noff (k_cpu s) -> (0 < c_noff (k_cpu s) -> c_sie (k_cpu s) = false) ->
  (exists s1, repeat_m (S n) push_off s = Done tt s1 /\ c_sie (k_cpu s1) = false) /\
  exists s2, (repeat_m (S n) push_off ;! repeat_m (S n) pop_off) s = Done tt s2 /\ hart_same s s2.
Proof.
  intros Hn Hs. split.
  { eexists. split; [by apply push_off_n|]. by ksimp. }
  rewrite (bind_done _ _ s _ _ (push_off_n (S n) s Hn)).
  induction n as [|n IH].
  - cbn [repeat_m]. rewrite (bind_done _ _ _ _ _ (pop_off_S 0 _ s Hn Hs)).
    eexists. split; [reflexivity|]. unfold hart_same. ksimp. repeat split.
    intros ?. by rewrite (proj2 (Z.eqb_neq _ _)) by lia.
  - cbn [repeat_m]. rewrite (bind_done _ _ _ _ _ (pop_off_S (S n) _ s Hn Hs)). exact IH.
Qed.

Lemma push_pop_nest_witness :
  let s := bss <| k_cpu := mkCpu None 0 false true 0 |> in
  (exists s1, repeat_m 3 push_off s = Done tt s1 /\ c_sie (k_cpu s1) = false) /\
  exists s2, (repeat_m 3 push_off ;! repeat_m 3 pop_off) s = Done tt s2 /\ hart_same s s2.
Proof. apply (push_pop_nest 2); vm_compute; congruence. Defined.

End Spinlock.
Export Spinlock.
