(* ===== verification/CString.v ===== *)
(** * string.c: byte and string routines

    The memory routines work on the physical memory [gmap Z Z]; the string
    routines work on byte arrays (lists), where running past the end of an
    array is [None].  [memmove_spec] and [memset_spec] describe the loops
    by what every byte holds afterwards, overlap included. *)

From S2P Require Import Prelude State.

Module CString.

(** A byte of memory; RAM that was never written reads as 0. *)
Definition rd (m : gmap Z Z) (a : Z) : Z := default 0 (m !! a).

(** memset: [for(i = 0; i < n; i++) cdst[i] = c;] *)
Fixpoint memset_loop (m : gmap Z Z) (dst c i : Z) (k : nat) : gmap Z Z :=
  match k with
  | O => m
  | S k => memset_loop (<[dst + i := u8 c]> m) dst c (i + 1) k
  end.
Definition memset (m : gmap Z Z) (dst c n : Z) : gmap Z Z :=
  memset_loop m dst c 0 (Z.to_nat n).

(** memmove: [while(n-- > 0) *d++ = *s++;] and the backward loop. *)
Fixpoint copy_fwd (m : gmap Z Z) (d s : Z) (k : nat) : gmap Z Z :=
  match k with
  | O => m
  | S k => copy_fwd (<[d := rd m s]> m) (d + 1) (s + 1) k
  end.
Fixpoint copy_bwd (m : gmap Z Z) (d s : Z) (k : nat) : gmap Z Z :=
  match k with
  | O => m
  | S k => copy_bwd (<[d - 1 := rd m (s - 1)]> m) (d - 1) (s - 1) k
  end.
Definition memmove (m : gmap Z Z) (dst src n : Z) : gmap Z Z :=
  if n =? 0 then m
  else if (src <? dst) && (dst <? src + n)
  then copy_bwd m (dst + n) (src + n) (Z.to_nat n)
  else copy_fwd m dst src (Z.to_nat n).

(** memcmp *)
Fixpoint memcmp (s1 s2 : list Z) (n : nat) {struct n} : option Z :=
  match n with
  | O => Some 0
  | S n =>
      match s1, s2 with
      | a :: s1, b :: s2 => if a =? b then memcmp s1 s2 n else Some (a - b)
      | _, _ => None
      end
  end.

Fixpoint strncmp (p q : list Z) (n : nat) {struct n} : option Z :=
  match n with
  | O => Some 0
  | S n =>
      match p, q with
      | a :: p, b :: q =>
          if negb (a =? 0) && (a =? b) then strncmp p q n else Some (u8 a - u8 b)
      | _, _ => None
      end
  end.

(** strncpy: the second loop fills the rest with zeros. *)
Fixpoint zerofill (s : list Z) (n : nat) {struct n} : option (list Z) :=
  match n with
  | O => Some s
  | S n => match s with [] => None | _ :: s => (fun r => 0 :: r) <$> zerofill s n end
  end.
Fixpoint strncpy (s t : list Z) (n : nat) {struct n} : option (list Z) :=
  match n with
  | O => Some s
  | S n =>
      match s, t with
      | _ :: s, b :: t =>
          (fun r => b :: r) <$> (if b =? 0 then zerofill s n else strncpy s t n)
      | _, _ => None
      end
  end.

(** safestrcpy: [k] is the value [--n] is tested against. *)
Definition put0 (s : list Z) : option (list Z) :=
  match s with [] => None | _ :: s => Some (0 :: s) end.
Fixpoint safestrcpy_loop (s t : list Z) (k : nat) {struct k} : option (list Z) :=
  match k with
  | O => put0 s
  | S k =>
      match s, t with
      | _ :: s, b :: t =>
          (fun r => b :: r) <$> (if b =? 0 then put0 s else safestrcpy_loop s t k)
      | _, _ => None
      end
  end.
Definition safestrcpy (s t : list Z) (n : Z) : option (list Z) :=
  if n <=? 0 then Some s else safestrcpy_loop s t (Z.to_nat (n - 1)).

Fixpoint strlen (s : list Z) : option Z :=
  match s with
  | [] => None
  | c :: s => if c =? 0 then Some 0 else Z.succ <$> strlen s
  end.

(** ** Memory routines *)

Lemma rd_insert m a v x : rd (<[a := v]> m) x = if a =? x then v else rd m x.
Proof.
  unfold rd. destruct (Z.eqb_spec a x) as [->|Hne].
  - by rewrite lookup_insert_eq.
  - by rewrite lookup_insert_ne.
Qed.

Lemma memset_loop_spec m dst c i k x :
  rd (memset_loop m dst c i k) x =
  if (dst + i <=? x) && (x <? dst + i + Z.of_nat k) then u8 c else rd m x.
Proof.
  revert m i. induction k as [|k IH]; intros m i; simpl.
  - destruct (Z.leb_spec (dst + i) x), (Z.ltb_spec x (dst + i + Z.of_nat 0)); simpl; auto; lia.
  - rewrite IH, rd_insert.
    destruct (Z.leb_spec (dst + (i + 1)) x), (Z.ltb_spec x (dst + (i + 1) + Z.of_nat k)),
      (Z.leb_spec (dst + i) x), (Z.ltb_spec x (dst + i + Z.of_nat (S k))),
      (Z.eqb_spec (dst + i) x); simpl; auto; lia.
Qed.

Lemma memset_spec m dst c n x : 0 <= n ->
  rd (memset m dst c n) x = if (dst <=? x) && (x <? dst + n) then u8 c else rd m x.
Proof.
  intros. unfold memset. rewrite memset_loop_spec, Z.add_0_r, Z2Nat.id by lia. done.
Qed.

Lemma copy_fwd_spec m d s k x : (d <= s \/ s + Z.of_nat k <= d) ->
  rd (copy_fwd m d s k) x =
  if (d <=? x) && (x <? d + Z.of_nat k) then rd m (s + (x - d)) else rd m x.
Proof.
  revert m d s. induction k as [|k IH]; intros m d s Hov; simpl.
  - destruct (Z.leb_spec d x), (Z.ltb_spec x (d + Z.of_nat 0)); simpl; auto; lia.
  - rewrite IH by lia. rewrite !rd_insert.
    destruct (Z.leb_spec (d + 1) x), (Z.ltb_spec x (d + 1 + Z.of_nat k)),
      (Z.leb_spec d x), (Z.ltb_spec x (d + Z.of_nat (S k))),
      (Z.eqb_spec d x), (Z.eqb_spec d (s + 1 + (x - (d + 1)))); simpl; try lia; f_equal; lia.
Qed.

Lemma copy_bwd_spec m d s k x : s <= d ->
  rd (copy_bwd m d s k) x =
  if (d - Z.of_nat k <=? x) && (x <? d) then rd m (s + (x - d)) else rd m x.
Proof.
  revert m d s. induction k as [|k IH]; intros m d s Hov; simpl.
  - destruct (Z.leb_spec (d - Z.of_nat 0) x), (Z.ltb_spec x d); simpl; auto; lia.
  - rewrite IH by lia. rewrite !rd_insert.
    destruct (Z.leb_spec (d - 1 - Z.of_nat k) x), (Z.ltb_spec x (d - 1)),
      (Z.leb_spec (d - Z.of_nat (S k)) x), (Z.ltb_spec x d),
      (Z.eqb_spec (d - 1) x), (Z.eqb_spec (d - 1) (s - 1 + (x - (d - 1)))); simpl; try lia;
      f_equal; lia.
Qed.

(** The block copy [memmove] computes, whatever the overlap. *)
Lemma memmove_bytes m dst src n x : 0 <= n ->
  rd (memmove m dst src n) x =
  if (dst <=? x) && (x <? dst + n) then rd m (src + (x - dst)) else rd m x.
Proof.
  intros Hn. unfold memmove. destruct (Z.eqb_spec n 0) as [->|Hn0].
  { destruct (Z.leb_spec dst x), (Z.ltb_spec x (dst + 0)); simpl; auto; lia. }
  destruct (Z.ltb_spec src dst), (Z.ltb_spec dst (src + n)); simpl.
  1: rewrite copy_bwd_spec by lia; rewrite Z2Nat.id by lia;
     replace (dst + n - n) with dst by lia; repeat case_match; auto; f_equal; lia.
  all: rewrite copy_fwd_spec by (rewrite Z2Nat.id by lia; lia); by rewrite Z2Nat.id by lia.
Qed.

#[global] Opaque memset memmove.

(** ** String routines *)

(** The C string at the start of an array: the bytes before the first NUL. *)
Fixpoint cstr (s : list Z) : list Z :=
  match s with [] => [] | c :: s => if c =? 0 then [] else c :: cstr s end.

Lemma strlen_cstr s n : strlen s = Some n -> n = Z.of_nat (length (cstr s)) /\ s !! length (cstr s) = Some 0.
Proof.
  revert n. induction s as [|c s IH]; simpl; [done|]. intros n.
  destruct (Z.eqb_spec c 0) as [->|Hc]; simpl; [intros; by simplify_eq|].
  destruct (strlen s) as [k|] eqn:E; simpl; [|done]. intros [= <-].
  destruct (IH k eq_refl) as [-> ?]. split; [lia|done].
Qed.

Lemma strlen_total s : 0 ∈ s -> is_Some (strlen s).
Proof.
  induction s as [|c s IH]; [by intros ?%not_elem_of_nil|].
  simpl. destruct (Z.eqb_spec c 0); [eauto|].
  intros [?|Hin]%elem_of_cons; [congruence|]. destruct (IH Hin) as [k ->]. simpl. eauto.
Qed.

(** strncmp returns 0 exactly when the first [n] bytes, cut at the first
    NUL, agree. *)
Lemma strncmp_zero p q n : Forall (fun b => 0 <= b < 256) p -> Forall (fun b => 0 <= b < 256) q ->
  (n <= length p)%nat -> (n <= length q)%nat ->
  exists r, strncmp p q n = Some r /\ (r = 0 <-> cstr (take n p) = cstr (take n q)).
Proof.
  intros Hp Hq. revert q Hq n. induction Hp as [|a p Ha Hp IH]; intros q Hq n Hn Hm.
  { assert (n = 0%nat) as -> by (simpl in Hn; lia). exists 0. by rewrite !take_0. }
  destruct n as [|n]; [exists 0; by rewrite !take_0|].
  destruct Hq as [|b q Hb Hq]; [simpl in Hm; lia|]. simpl in Hn, Hm.
  simpl. destruct (Z.eqb_spec a 0) as [->|Ha0]; simpl.
  { exists (u8 0 - u8 b). rewrite !u8_small by lia. split; [done|].
    destruct (Z.eqb_spec b 0); split; intros; (done || lia || congruence). }
  destruct (Z.eqb_spec a b) as [<-|Hab].
  { destruct (IH q Hq n) as (r & -> & Hr); [lia|lia|]. exists r. split; [done|].
    rewrite (proj2 (Z.eqb_neq a 0)) by done. rewrite Hr. split; [by intros ->|by intros [=]]. }
  exists (u8 a - u8 b). rewrite !u8_small by lia. split; [done|]. split; [lia|].
  destruct (Z.eqb_spec b 0); [done|]. congruence.
Qed.

Lemma zerofill_spec s n : (n <= length s)%nat -> zerofill s n = Some (replicate n 0 ++ drop n s).
Proof.
  revert s. induction n as [|n IH]; intros s Hn; simpl; [by rewrite drop_0|].
  destruct s as [|c s]; simpl in *; [lia|]. by rewrite IH by lia.
Qed.

(** strncpy copies the string and pads with zeros to [n] bytes; the rest
    of the destination is untouched. *)
Lemma strncpy_spec s t n : (n <= length s)%nat -> (0 ∈ t \/ (n <= length t)%nat) ->
  strncpy s t n = Some (let c := take n (cstr t) in c ++ replicate (n - length c) 0 ++ drop n s).
Proof.
  revert s t. induction n as [|n IH]; intros s t Hs Ht; simpl.
  { by rewrite drop_0. }
  destruct s as [|c s]; simpl in *; [lia|].
  destruct t as [|b t]; [destruct Ht as [?%not_elem_of_nil|?]; [done|simpl in *; lia]|].
  simpl. destruct (Z.eqb_spec b 0) as [->|Hb]; simpl.
  { rewrite zerofill_spec by lia. by destruct n. }
  rewrite IH; [|lia|]; [done|].
  destruct Ht as [[?|?]%elem_of_cons|?]; [congruence|by left|right; simpl in *; lia].
Qed.

(** safestrcpy always leaves a terminated string: the first [n-1] bytes
    of the source's string, then NUL. *)
Lemma safestrcpy_spec s t n : 0 < n -> (Z.to_nat n <= length s)%nat ->
  (0 ∈ t \/ (Z.to_nat n <= length t)%nat) ->
  exists r, safestrcpy s t n = Some r /\ length r = length s /\
    cstr r = take (Z.to_nat (n - 1)) (cstr t) /\ 0 ∈ take (Z.to_nat n) r.
Proof.
  intros Hn Hs Ht. unfold safestrcpy. rewrite (proj2 (Z.leb_gt _ _)) by lia.
  replace (Z.to_nat n) with (S (Z.to_nat (n - 1))) in * by lia.
  generalize dependent (Z.to_nat (n - 1)). intros k Hs Ht. clear n Hn.
  revert s t Hs Ht. induction k as [|k IH]; intros s t Hs Ht; simpl.
  { destruct s as [|c s]; simpl in *; [lia|]. eexists. split; [done|].
    rewrite take_0. simpl. split; [done|]. split; [done|]. left. }
  destruct s as [|c s]; simpl in *; [lia|].
  destruct t as [|b t]; [destruct Ht as [?%not_elem_of_nil|?]; [done|simpl in *; lia]|].
  simpl. destruct (Z.eqb_spec b 0) as [->|Hb].
  { destruct s as [|c' s]; simpl in *; [lia|]. eexists. split; [done|]. simpl.
    split; [done|]. split; [done|]. left. }
  destruct (IH s t) as (r & -> & Hl & Hc & H0); [lia| |].
  { destruct Ht as [[?|?]%elem_of_cons|?]; [congruence|by left|right; simpl in *; lia]. }
  exists (b :: r). simpl. split; [done|]. split; [lia|].
  rewrite (proj2 (Z.eqb_neq _ _)) by done. split; [by rewrite Hc|]. by right.
Qed.

(** ** Properties *)

(** memmove copies the block as it was before the call, whatever the
    overlap of source and destination, and changes no byte outside the
    destination. *)
Theorem memmove_spec m dst src n x : 0 <= n ->
  rd (memmove m dst src n) x =
  if (dst <=? x) && (x <? dst + n) then rd m (src + (x - dst)) else rd m x.
Proof. apply memmove_bytes. Qed.

Lemma memmove_spec_witness :
  rd (memmove {[ 10 := 1; 11 := 2; 12 := 3 ]} 11 10 2) 12 = 2.
Proof.
  rewrite (memmove_spec {[ 10 := 1; 11 := 2; 12 := 3 ]} 11 10 2 12) by lia. reflexivity.
Defined.

(** The string routines agree on what a C string is: [strncmp] of [n]
    readable bytes is 0 exactly when the two strings, cut at [n], are equal;
    [safestrcpy] leaves a terminated destination holding the longest prefix of
    the source that fits; both stay inside their arrays. *)
Theorem string_routines p q n : 0 < n ->
  Forall (fun b => 0 <= b < 256) p -> Forall (fun b => 0 <= b < 256) q ->
  (Z.to_nat n <= length p)%nat -> (Z.to_nat n <= length q)%nat ->
  (exists r, strncmp p q (Z.to_nat n) = Some r /\
     (r = 0 <-> cstr (take (Z.to_nat n) p) = cstr (take (Z.to_nat n) q))) /\
  (exists r, safestrcpy p q n = Some r /\ length r = length p /\
     cstr r = take (Z.to_nat (n - 1)) (cstr q) /\ 0 ∈ take (Z.to_nat n) r).
Proof.
  intros Hn Hp Hq Hlp Hlq. split; [by apply strncmp_zero|].
  apply safestrcpy_spec; auto.
Qed.

Lemma string_routines_witness :
  (exists r, strncmp [104; 105; 0; 0] [104; 105; 0; 7] (Z.to_nat 4) = Some r /\ (r = 0 <-> [104; 105] = [104; 105])) /\
  (exists r, safestrcpy [104; 105; 0; 0] [104; 105; 0; 7] 4 = Some r /\ length r = 4%nat /\
     cstr r = [104; 105] /\ 0 ∈ take 4 r).
Proof.
  apply (string_routines [104; 105; 0; 0] [104; 105; 0; 7] 4).
  - lia.
  - repeat constructor; lia.
  - repeat constructor; lia.
  - simpl; lia.
  - simpl; lia.
Defined.

End CString.
Export CString.
