(* ===== verification/Mem.v ===== *)
(** * Words in physical memory

    64-bit loads and stores as little-endian byte sequences over the byte
    memory, with the lemmas the allocator and the page tables share. *)

From S2P Require Import Prelude State CString.

Module Mem.

Fixpoint loadn (m : gmap Z Z) (a : Z) (n : nat) : Z :=
  match n with
  | O => 0
  | S n => rd m a + 256 * loadn m (a + 1) n
  end.
Fixpoint storen (m : gmap Z Z) (a : Z) (n : nat) (v : Z) : gmap Z Z :=
  match n with
  | O => m
  | S n => storen (<[a := u8 v]> m) (a + 1) n (v / 256)
  end.
Definition load64 (m : gmap Z Z) (a : Z) : Z := loadn m a 8.
Definition store64 (m : gmap Z Z) (a v : Z) : gmap Z Z := storen m a 8 v.

(** [*(uint64 * )a] and [*(uint64 * )a = v] *)
Definition ld64 (a : Z) : K Z := gets (fun s => load64 (k_mem s) a).
Definition st64 (a v : Z) : K unit := modify (upd k_mem (fun m => store64 m a v)).

(** Copies between memory and a kernel object that is not in it (a local
    variable, a field of a table entry): the object is its list of bytes,
    and reading past its end is a [Fault]. *)
Fixpoint put_bytes (m : gmap Z Z) (a : Z) (bs : list Z) : gmap Z Z :=
  match bs with [] => m | b :: bs => put_bytes (<[a := b]> m) (a + 1) bs end.
Fixpoint get_bytes (m : gmap Z Z) (a : Z) (n : nat) : list Z :=
  match n with O => [] | S n => rd m a :: get_bytes m (a + 1) n end.
Definition memmove_out (a : Z) (src : list Z) (n : Z) : K unit :=
  if Z.of_nat (length src) <? n then fault "memmove" else
  modify (upd k_mem (fun m => put_bytes m a (take (Z.to_nat n) src))).
Definition memmove_in (a n : Z) : K (list Z) :=
  gets (fun s => get_bytes (k_mem s) a (Z.to_nat n)).

(** The bytes of a C object of an integer type, little-endian. *)
Fixpoint le_bytes (n : nat) (v : Z) : list Z :=
  match n with O => [] | S n => u8 v :: le_bytes n (v / 256) end.
Definition bytes_of_int (v : Z) : list Z := le_bytes 4 (u32 v).
Definition bytes_of_u64 (v : Z) : list Z := le_bytes 8 v.
Fixpoint le_val (bs : list Z) : Z :=
  match bs with [] => 0 | b :: bs => b + 256 * le_val bs end.

Lemma rd_put_bytes m a bs x :
  rd (put_bytes m a bs) x =
  if a <=? x then default (rd m x) (bs !! Z.to_nat (x - a)) else rd m x.
Proof.
  revert m a. induction bs as [|b bs IH]; intros m a; simpl.
  - destruct (a <=? x); done.
  - rewrite IH, rd_insert.
    destruct (Z.leb_spec (a + 1) x), (Z.leb_spec a x), (Z.eqb_spec a x); try lia.
    + replace (Z.to_nat (x - a)) with (S (Z.to_nat (x - (a + 1)))) by lia. done.
    + subst. by rewrite Z.sub_diag.
Qed.
Lemma rd_put_bytes_out m a bs x :
  x < a \/ a + Z.of_nat (length bs) <= x -> rd (put_bytes m a bs) x = rd m x.
Proof.
  intros. rewrite rd_put_bytes. destruct (Z.leb_spec a x); [|done].
  rewrite lookup_ge_None_2 by lia. done.
Qed.
Lemma get_bytes_length m a n : length (get_bytes m a n) = n.
Proof. revert a. induction n; simpl; auto. Qed.
Lemma get_bytes_lookup m a n i : (i < n)%nat -> get_bytes m a n !! i = Some (rd m (a + Z.of_nat i)).
Proof.
  revert a i. induction n as [|n IH]; intros a i Hi; [lia|].
  destruct i; simpl; [by rewrite Z.add_0_r|]. rewrite IH by lia. f_equal. f_equal. lia.
Qed.
Lemma get_bytes_ext m m' a n :
  (forall x, a <= x < a + Z.of_nat n -> rd m x = rd m' x) -> get_bytes m a n = get_bytes m' a n.
Proof.
  revert a. induction n as [|n IH]; intros a H; simpl; [done|].
  rewrite (H a) by lia. f_equal. apply IH. intros. apply H. lia.
Qed.
Lemma get_put_bytes m a bs n : length bs = n -> get_bytes (put_bytes m a bs) a n = bs.
Proof.
  intros <-. apply list_eq. intros i.
  destruct (decide (i < length bs)%nat) as [Hi|Hi].
  - rewrite get_bytes_lookup, rd_put_bytes by done.
    rewrite (proj2 (Z.leb_le _ _)) by lia.
    replace (Z.to_nat (a + Z.of_nat i - a)) with i by lia.
    destruct (lookup_lt_is_Some_2 bs i Hi) as [b ->]. done.
  - rewrite !lookup_ge_None_2; [done|lia|]. rewrite get_bytes_length. lia.
Qed.
Lemma get_bytes_app m a n k :
  get_bytes m a (n + k) = get_bytes m a n ++ get_bytes m (a + Z.of_nat n) k.
Proof.
  revert a. induction n as [|n IH]; intros a; simpl; [by rewrite Z.add_0_r|].
  rewrite IH. do 3 f_equal. lia.
Qed.
Lemma le_bytes_length n v : length (le_bytes n v) = n.
Proof. revert v. induction n; simpl; auto. Qed.
Lemma le_val_bytes n v : le_val (le_bytes n v) = v mod 256 ^ Z.of_nat n.
Proof.
  revert v. induction n as [|n IH]; intros v; cbn [le_bytes le_val].
  - by rewrite Z.pow_0_r, Z.mod_1_r.
  - rewrite IH, Nat2Z.inj_succ, Z.pow_succ_r by lia. rewrite Z.rem_mul_r by lia. done.
Qed.

Lemma rd_storen m a n v x :
  rd (storen m a n v) x =
  if (a <=? x) && (x <? a + Z.of_nat n) then u8 (v / 256 ^ (x - a)) else rd m x.
Proof.
  revert m a v. induction n as [|n IH]; intros m a v; simpl.
  - destruct (Z.leb_spec a x), (Z.ltb_spec x (a + Z.of_nat 0)); simpl; auto; lia.
  - rewrite IH, rd_insert.
    destruct (Z.leb_spec (a + 1) x), (Z.ltb_spec x (a + 1 + Z.of_nat n)),
      (Z.leb_spec a x), (Z.ltb_spec x (a + Z.of_nat (S n))), (Z.eqb_spec a x);
      simpl; auto; try lia.
    + rewrite Z.div_div by lia. f_equal. f_equal.
      rewrite <- (Z.pow_1_r 256) at 1. rewrite <- Z.pow_add_r by lia. f_equal. lia.
    + subst. by rewrite Z.sub_diag, Z.pow_0_r, Z.div_1_r.
Qed.

Lemma loadn_ext m m' a n :
  (forall x, a <= x < a + Z.of_nat n -> rd m x = rd m' x) -> loadn m a n = loadn m' a n.
Proof.
  revert a. induction n as [|n IH]; intros a H; simpl; [done|].
  rewrite (H a) by lia. f_equal. f_equal. apply IH. intros. apply H. lia.
Qed.

Lemma loadn_bytes m a n v :
  (forall x, a <= x < a + Z.of_nat n -> rd m x = u8 (v / 256 ^ (x - a))) ->
  loadn m a n = v mod 256 ^ Z.of_nat n.
Proof.
  revert a v. induction n as [|n IH]; intros a v H; cbn [loadn].
  - by rewrite Z.pow_0_r, Z.mod_1_r.
  - rewrite (H a), (IH (a + 1) (v / 256)) by (try lia; intros; rewrite H by lia;
      rewrite Z.div_div by lia; f_equal; f_equal;
      rewrite <- (Z.pow_1_r 256) at 2; rewrite <- Z.pow_add_r by lia; f_equal; lia).
    rewrite Z.sub_diag, Z.pow_0_r, Z.div_1_r.
    rewrite Nat2Z.inj_succ, Z.pow_succ_r by lia.
    rewrite Z.rem_mul_r by lia. done.
Qed.

Lemma load64_store64_same m a v : load64 (store64 m a v) a = u64 v.
Proof.
  unfold load64, store64. rewrite (loadn_bytes _ _ _ v); [done|].
  intros x Hx. rewrite rd_storen.
  destruct (Z.leb_spec a x), (Z.ltb_spec x (a + Z.of_nat 8)); simpl; auto; lia.
Qed.

Lemma rd_store64_ne m a v x : x < a \/ a + 8 <= x -> rd (store64 m a v) x = rd m x.
Proof.
  intros. unfold store64. rewrite rd_storen.
  destruct (Z.leb_spec a x), (Z.ltb_spec x (a + Z.of_nat 8)); simpl; auto; lia.
Qed.

Lemma load64_ext m m' a :
  (forall x, a <= x < a + 8 -> rd m x = rd m' x) -> load64 m a = load64 m' a.
Proof. intros H. apply loadn_ext. intros. apply H. lia. Qed.

Lemma load64_store64_ne m a b v :
  b + 8 <= a \/ a + 8 <= b -> load64 (store64 m a v) b = load64 m b.
Proof. intros. apply load64_ext. intros. apply rd_store64_ne. lia. Qed.

(** [m'] is [m] with the page at [p] filled with [c]. *)
Definition page_filled (m : gmap Z Z) (p c : Z) (m' : gmap Z Z) : Prop :=
  forall x, rd m' x = if (p <=? x) && (x <? p + PGSIZE) then u8 c else rd m x.
Lemma memset_filled m p c : page_filled m p c (memset m p c PGSIZE).
Proof. intros x. by rewrite memset_spec by (unfold PGSIZE; lia). Qed.

Lemma load64_memset_out m dst c n a : 0 <= n ->
  a + 8 <= dst \/ dst + n <= a -> load64 (memset m dst c n) a = load64 m a.
Proof.
  intros ? ?. apply load64_ext. intros x Hx. rewrite memset_spec by lia.
  destruct (Z.leb_spec dst x), (Z.ltb_spec x (dst + n)); simpl; auto; lia.
Qed.

Lemma load64_memset_zero m dst n a : 0 <= n ->
  dst <= a -> a + 8 <= dst + n -> load64 (memset m dst 0 n) a = 0.
Proof.
  intros. unfold load64. rewrite (loadn_bytes _ _ _ 0).
  - by rewrite Z.mod_0_l.
  - intros x Hx. rewrite memset_spec by lia.
    destruct (Z.leb_spec dst x), (Z.ltb_spec x (dst + n)); simpl; try lia.
    by rewrite Z.div_0_l by (apply Z.pow_nonzero; lia).
Qed.

Lemma load64_range m a : (forall x, 0 <= rd m x < 256) -> 0 <= load64 m a < 2 ^ 64.
Proof.
  intros H. unfold load64. cbn [loadn].
  pose proof (H a). pose proof (H (a+1)). pose proof (H (a+1+1)). pose proof (H (a+1+1+1)).
  pose proof (H (a+1+1+1+1)). pose proof (H (a+1+1+1+1+1)).
  pose proof (H (a+1+1+1+1+1+1)). pose proof (H (a+1+1+1+1+1+1+1)). lia.
Qed.

#[global] Opaque load64 store64.

(** ** Page arithmetic *)

Lemma land_pgmask a : Z.land a (Z.lnot (PGSIZE - 1)) = a - a mod PGSIZE.
Proof.
  change (PGSIZE - 1) with (Z.ones 12). rewrite <- Z.ldiff_land, Z.ldiff_ones_r by lia.
  rewrite Z.shiftl_mul_pow2, Z.shiftr_div_pow2 by lia.
  change (2 ^ 12) with PGSIZE. pose proof (Z.div_mod a PGSIZE). unfold PGSIZE in *. lia.
Qed.
Lemma PGROUNDDOWN_eq a : PGROUNDDOWN a = a - a mod PGSIZE.
Proof. apply land_pgmask. Qed.
Lemma PGROUNDUP_eq a : 0 <= a < 2 ^ 64 - PGSIZE ->
  PGROUNDUP a = (a + PGSIZE - 1) - (a + PGSIZE - 1) mod PGSIZE.
Proof. intros. unfold PGROUNDUP. rewrite u64_small by (unfold PGSIZE in *; lia). apply land_pgmask. Qed.
Lemma PGROUNDUP_spec a : 0 <= a < 2 ^ 64 - PGSIZE ->
  PGROUNDUP a mod PGSIZE = 0 /\ a <= PGROUNDUP a < a + PGSIZE.
Proof.
  intros H. rewrite PGROUNDUP_eq by done. unfold PGSIZE in *.
  pose proof (Z.mod_pos_bound (a + 4096 - 1) 4096).
  split; [|lia]. rewrite Zminus_mod_idemp_r, Z.sub_diag. done.
Qed.
Lemma PGROUNDDOWN_spec a : PGROUNDDOWN a mod PGSIZE = 0 /\ PGROUNDDOWN a <= a < PGROUNDDOWN a + PGSIZE.
Proof.
  rewrite PGROUNDDOWN_eq. unfold PGSIZE.
  pose proof (Z.mod_pos_bound a 4096).
  split; [|lia]. rewrite Zminus_mod_idemp_r, Z.sub_diag. done.
Qed.
Lemma PGROUNDDOWN_aligned a : a mod PGSIZE = 0 -> PGROUNDDOWN a = a.
Proof. intros H. rewrite PGROUNDDOWN_eq, H. lia. Qed.
Lemma pg_aligned_add a k : a mod PGSIZE = 0 -> (a + k * PGSIZE) mod PGSIZE = 0.
Proof. intros. rewrite Z.mod_add by done. done. Qed.
Lemma pg_aligned_step a : a mod PGSIZE = 0 -> (a + PGSIZE) mod PGSIZE = 0.
Proof. intros. rewrite <- (Z.mul_1_l PGSIZE) at 1. by apply pg_aligned_add. Qed.

(** Distinct pages do not overlap. *)
Lemma page_disjoint p q :
  p mod PGSIZE = 0 -> q mod PGSIZE = 0 -> p <> q -> p + PGSIZE <= q \/ q + PGSIZE <= p.
Proof.
  unfold PGSIZE. intros Hp Hq Hne.
  apply Z.mod_divide in Hp as [a ->]; [|lia]. apply Z.mod_divide in Hq as [b ->]; [|lia]. nia.
Qed.

#[global] Opaque PGROUNDUP PGROUNDDOWN.

Lemma segs_ld64 P `{!PreOrder P} a : segs P (ld64 a).
Proof. unfold ld64. segs_tac. Qed.
Lemma segs_st64 P `{!PreOrder P} `{!Blind P k_mem} a v : segs P (st64 a v).
Proof. unfold st64. segs_tac. Qed.

Lemma segs_memmove_out P `{!PreOrder P} `{!Blind P k_mem} a src n : segs P (memmove_out a src n).
Proof. unfold memmove_out. segs_tac. Qed.
Lemma segs_memmove_in P `{!PreOrder P} a n : segs P (memmove_in a n).
Proof. unfold memmove_in. segs_tac. Qed.

Lemma nosw_ld64 a : noswitch (ld64 a).
Proof. unfold ld64. nosw_tac. Qed.
Lemma nosw_st64 a v : noswitch (st64 a v).
Proof. unfold st64. nosw_tac. Qed.
Lemma nosw_memmove_out a src n : noswitch (memmove_out a src n).
Proof. unfold memmove_out. nosw_tac. Qed.
Lemma nosw_memmove_in a n : noswitch (memmove_in a n).
Proof. unfold memmove_in. nosw_tac. Qed.
#[export] Hint Resolve nosw_ld64 nosw_st64 nosw_memmove_out nosw_memmove_in : nosw.

End Mem.
Export Mem.
#[export] Hint Resolve segs_ld64 segs_st64 segs_memmove_out segs_memmove_in : segs.
