(* ===== verification/Kalloc.v ===== *)
(** * kalloc.c: the physical page allocator

    The free list is threaded through the free pages themselves: each free
    page holds the address of the next one in its first 8 bytes.  The
    specification is a list of pages: [kalloc] pops it, [kfree] pushes. *)

From S2P Require Import Prelude State Spinlock CString Mem.

Module Kalloc.
Section kalloc.
Context {img : Image}.

Definition kfree (pa : Z) : K unit :=
  if negb (pa mod PGSIZE =? 0) || (pa <? sym_end) || (PHYSTOP <=? pa) then panic "kfree" else
  modify (upd k_mem (fun m => memset m pa 1 PGSIZE)) ;!
  acquire Lkmem ;!
  let! fl := gets k_freelist in
  st64 pa fl ;!                                 (* r->next = kmem.freelist *)
  modify (upd k_freelist (fun _ => pa)) ;!
  release Lkmem.

Definition kalloc : K Z :=
  acquire Lkmem ;!
  let! r := gets k_freelist in
  when (negb (r =? 0))
    (let! next := ld64 r in modify (upd k_freelist (fun _ => next))) ;!
  release Lkmem ;!
  when (negb (r =? 0)) (modify (upd k_mem (fun m => memset m r 5 PGSIZE))) ;!
  ret r.

Fixpoint freerange_loop (fuel : nat) (p pa_end : Z) : K unit :=
  if p + PGSIZE <=? pa_end then
    match fuel with
    | O => nofuel
    | S fuel => kfree p ;! freerange_loop fuel (p + PGSIZE) pa_end
    end
  else ret tt.
(** A page is at least one byte long, so the loop runs at most
    [pa_end / PGSIZE] times. *)
Definition freerange (pa_start pa_end : Z) : K unit :=
  freerange_loop (Z.to_nat (pa_end / PGSIZE)) (PGROUNDUP pa_start) pa_end.

Definition kinit : K unit := freerange sym_end PHYSTOP.

(** ** Frames *)

Section segs.
Context (P : kstate -> kstate -> Prop) `{!PreOrder P}
  `{!Blind P k_mem, !Blind P k_freelist, !Blind P k_held, !Blind P k_cpu}.
Lemma segs_kfree pa : segs P (kfree pa).
Proof. unfold kfree. segs_tac. Qed.
Lemma segs_kalloc : segs P kalloc.
Proof. unfold kalloc. segs_tac. Qed.
End segs.

Lemma nosw_kfree pa : noswitch (kfree pa).
Proof. unfold kfree. nosw_tac. Qed.
Lemma nosw_kalloc : noswitch kalloc.
Proof. unfold kalloc. nosw_tac. Qed.

(** ** The abstract free list *)

(** The pages linked from [r], in order. *)
Fixpoint linked (m : gmap Z Z) (r : Z) (l : list Z) : Prop :=
  match l with
  | [] => r = 0
  | p :: l => r = p /\ linked m (load64 m p) l
  end.

Definition page_ok (pa : Z) : Prop := pa mod PGSIZE = 0 /\ sym_end <= pa < PHYSTOP.

Definition free_pages (s : kstate) (l : list Z) : Prop :=
  linked (k_mem s) (k_freelist s) l /\ NoDup l /\ Forall page_ok l.

(** The result of [kalloc] from a state whose free pages are [l]. *)
Definition kalloc_post (s : kstate) (l : list Z) (r : Z) (s' : kstate) : Prop :=
  match l with
  | [] => r = 0 /\ k_mem s' = k_mem s /\ free_pages s' []
  | p :: l' => r = p /\ page_filled (k_mem s) p 5 (k_mem s') /\ free_pages s' l'
  end.

Lemma linked_ext m m' r l :
  (forall p, p ∈ l -> load64 m' p = load64 m p) -> linked m r l -> linked m' r l.
Proof.
  revert r. induction l as [|p l IH]; simpl; intros r H; [done|].
  intros [-> Hl]. split; [done|]. rewrite H by left. apply IH; [|done].
  intros. apply H. by right.
Qed.

Lemma linked_memset m r l p c :
  linked m r l -> Forall page_ok l -> p mod PGSIZE = 0 -> p ∉ l ->
  linked (memset m p c PGSIZE) r l.
Proof.
  intros Hl Hok Hp Hn. eapply linked_ext; [|done]. intros q Hq.
  destruct (proj1 (list.Forall_forall _ _) Hok q Hq) as [Hq0 _].
  apply load64_memset_out; [unfold PGSIZE; lia|].
  destruct (page_disjoint p q) as [?|?]; auto; [by intros ->|unfold PGSIZE in *; lia..].
Qed.

Lemma linked_store64 m r l p v :
  linked m r l -> Forall page_ok l -> p mod PGSIZE = 0 -> p ∉ l ->
  linked (store64 m p v) r l.
Proof.
  intros Hl Hok Hp Hn. eapply linked_ext; [|done]. intros q Hq.
  destruct (proj1 (list.Forall_forall _ _) Hok q Hq) as [Hq0 _].
  apply load64_store64_ne.
  destruct (page_disjoint p q) as [?|?]; auto; [by intros ->|unfold PGSIZE in *; lia..].
Qed.

Lemma wp_kalloc s l (Q : Z -> kstate -> Prop) :
  0 < sym_end -> hart_wf s -> Lkmem ∉ k_held s -> free_pages s l ->
  (forall r s', hart_same s s' -> only_mem s s' -> kalloc_post s l r s' -> Q r s') ->
  wp kalloc s Q.
Proof.
  intros Himg [Hn Hs] Hlk (Hl & Hnd & Hok) HQ.
  assert (Hseg : segs only_mem kalloc) by eauto using segs_kalloc with typeclass_instances.
  cut (wp kalloc s (fun r s' => hart_same s s' /\ kalloc_post s l r s')).
  { intros (r & s' & E & Hh & Hp)%wp_done. apply wp_done. exists r, s'. split; [done|].
    apply HQ; auto. by eapply segs_done. }
  unfold kalloc. wp_step. apply wp_acquire; [done|]. do 2 wp_step. wp_step. ksimp.
  destruct l as [|p l]; simpl in Hl.
  - rewrite Hl. simpl. do 2 wp_step.
    apply (wp_release Lkmem _ (k_held s)); ksimp; [done|done|done|lia|].
    repeat wp_step. split; [by apply (lock_unlock Lkmem)|]. done.
  - destruct Hl as [Hfl Hl]. rewrite Hfl.
    apply Forall_cons in Hok as [[Hp0 Hpr] Hok]. apply NoDup_cons in Hnd as [Hpn Hnd].
    rewrite (proj2 (Z.eqb_neq p 0)) by lia. simpl. wp_step.
    unfold ld64. do 3 wp_step.
    apply (wp_release Lkmem _ (k_held s)); ksimp; [done|done|done|lia|].
    repeat wp_step. split; [by apply (lock_unlock Lkmem)|].
    ksimp. split; [done|]. split; [apply memset_filled|]. unfold free_pages. ksimp.
    split; [|done]. by apply linked_memset.
Qed.

Lemma wp_kfree s l pa (Q : unit -> kstate -> Prop) :
  0 < sym_end -> hart_wf s -> Lkmem ∉ k_held s -> free_pages s l -> page_ok pa -> pa ∉ l ->
  (forall s', hart_same s s' -> only_mem s s' -> free_pages s' (pa :: l) ->
     (forall x, x < pa \/ pa + PGSIZE <= x -> rd (k_mem s') x = rd (k_mem s) x) ->
     Q tt s') ->
  wp (kfree pa) s Q.
Proof.
  intros Himg [Hn Hs] Hlk (Hl & Hnd & Hok) [Hp0 Hpr] Hpa HQ.
  assert (Hseg : segs only_mem (kfree pa)) by eauto using segs_kfree with typeclass_instances.
  cut (wp (kfree pa) s (fun _ s' => hart_same s s' /\ free_pages s' (pa :: l) /\
    forall x, x < pa \/ pa + PGSIZE <= x -> rd (k_mem s') x = rd (k_mem s) x)).
  { intros ([] & s' & E & Hh & Hf & Hx)%wp_done. apply wp_done. exists tt, s'. split; [done|].
    apply HQ; auto. by eapply segs_done. }
  unfold kfree. rewrite Hp0. rewrite (proj2 (Z.ltb_ge _ _)), (proj2 (Z.leb_gt _ _)) by lia.
  rewrite Z.eqb_refl; cbn [negb orb]. do 2 wp_step. ksimp. wp_step. apply wp_acquire; [done|]. do 2 wp_step. ksimp.
  unfold st64. do 4 wp_step.
  assert (Hfl : u64 (k_freelist s) = k_freelist s).
  { apply u64_small. destruct l as [|q l]; simpl in Hl; [lia|]. destruct Hl as [-> _].
    apply Forall_cons in Hok as [[_ ?] _]. unfold PHYSTOP, KERNBASE in *. lia. }
  apply (wp_release Lkmem _ (k_held s)); ksimp; [done|done|done|lia|].
  split; [|split].
  - apply (lock_unlock Lkmem); ksimp; done.
  - unfold free_pages. ksimp. simpl. rewrite load64_store64_same, Hfl.
    split; [split; [done|]|split; [by constructor|by constructor; [split|]]].
    apply linked_store64; auto. by apply linked_memset.
  - intros x Hx. rewrite rd_store64_ne by (unfold PGSIZE in *; lia).
    rewrite memset_spec by (unfold PGSIZE; lia).
    destruct (Z.leb_spec pa x), (Z.ltb_spec x (pa + PGSIZE)); simpl; auto; lia.
Qed.

(** The [n] pages from [p] on. *)
Fixpoint pages (p : Z) (n : nat) : list Z :=
  match n with O => [] | S n => p :: pages (p + PGSIZE) n end.

Lemma elem_of_pages q p n : q ∈ pages p n -> exists k, (k < n)%nat /\ q = p + Z.of_nat k * PGSIZE.
Proof.
  revert p. induction n as [|n IH]; simpl; intros p H; [by apply not_elem_of_nil in H|].
  apply elem_of_cons in H as [->|H]; [exists 0%nat; split; lia|].
  destruct (IH _ H) as (k & ? & ->). exists (S k). split; lia.
Qed.

Lemma pages_elem p n k : (k < n)%nat -> p + Z.of_nat k * PGSIZE ∈ pages p n.
Proof.
  revert p k. induction n as [|n IH]; intros p k Hk; [lia|]. simpl. destruct k as [|k].
  - replace (p + Z.of_nat 0 * PGSIZE) with p by lia. left.
  - right. replace (p + Z.of_nat (S k) * PGSIZE) with (p + PGSIZE + Z.of_nat k * PGSIZE) by lia.
    apply IH. lia.
Qed.

(** Every page above the image is in the range [kinit] frees. *)
Lemma all_pages pa : 0 < sym_end <= PHYSTOP -> page_ok pa ->
  pa ∈ rev (pages (PGROUNDUP sym_end) (Z.to_nat ((PHYSTOP - PGROUNDUP sym_end) / PGSIZE))).
Proof.
  intros Himg [Hal Hr]. apply list_elem_of_In, in_rev, list_elem_of_In; rewrite ?rev_involutive.
  assert (PHYSTOP = 557056 * PGSIZE) as HP by done.
  destruct (PGROUNDUP_spec sym_end) as [Hal' Hr']; [unfold PGSIZE in *; lia|].
  apply Z.mod_divide in Hal as [a ->]; [|done]. apply Z.mod_divide in Hal' as [b Hb]; [|done].
  rewrite Hb in *. rewrite HP in *.
  replace (557056 * PGSIZE - b * PGSIZE) with ((557056 - b) * PGSIZE) by lia.
  rewrite Z.div_mul by done. unfold PGSIZE in Hr, Hr'.
  replace (a * PGSIZE) with (b * PGSIZE + Z.of_nat (Z.to_nat (a - b)) * PGSIZE)
    by (rewrite Z2Nat.id by lia; lia).
  apply pages_elem. lia.
Qed.

Lemma wp_freerange_loop fuel p pa_end s l (Q : unit -> kstate -> Prop) :
  0 < sym_end -> hart_wf s -> Lkmem ∉ k_held s -> free_pages s l ->
  p mod PGSIZE = 0 -> sym_end <= p -> pa_end <= PHYSTOP ->
  (forall q, q ∈ l -> q < p) -> pa_end - p <= Z.of_nat fuel * PGSIZE ->
  (forall s', hart_same s s' -> only_mem s s' ->
     free_pages s' (rev (pages p (Z.to_nat ((pa_end - p) / PGSIZE))) ++ l) -> Q tt s') ->
  wp (freerange_loop fuel p pa_end) s Q.
Proof.
  intros Himg. revert p s l Q. induction fuel as [|fuel IH]; intros p s l Q Hw Hlk Hf Hp Hpe Hend Hlt Hfuel HQ.
  - simpl. destruct (Z.leb_spec (p + PGSIZE) pa_end); [unfold PGSIZE in *; lia|].
    apply wp_ret. apply HQ; [done|done|].
    assert ((pa_end - p) / PGSIZE <= 0) by (apply Z.div_le_upper_bound; unfold PGSIZE in *; lia).
    by rewrite Z2Nat.nonpos by lia.
  - simpl. destruct (Z.leb_spec (p + PGSIZE) pa_end).
    + apply wp_bind. apply (wp_kfree s l p); auto.
      { split; [done|]. unfold PGSIZE in *; lia. }
      { intros Hin%Hlt. lia. }
      intros s1 Hh1 Hm1 Hf1 _.
      apply (IH _ s1 (p :: l)); auto.
      * by eapply hart_same_wf.
      * by destruct Hh1 as [-> _].
      * by apply pg_aligned_step.
      * unfold PGSIZE in *; lia.
      * intros q [->|Hq%Hlt]%elem_of_cons; unfold PGSIZE in *; lia.
      * unfold PGSIZE in *; lia.
      * intros s' Hh Hm Hf'. apply HQ; [by etrans|by etrans|].
        assert ((pa_end - p) / PGSIZE = (pa_end - (p + PGSIZE)) / PGSIZE + 1) as ->.
        { rewrite <- Z.div_add by done. f_equal. unfold PGSIZE; lia. }
        assert (0 <= (pa_end - (p + PGSIZE)) / PGSIZE) by (apply Z.div_pos; unfold PGSIZE in *; lia).
        rewrite Z2Nat.inj_add by lia. rewrite Nat.add_comm. simpl.
        by rewrite <- app_assoc.
    + apply wp_ret. apply HQ; [done|done|].
      assert ((pa_end - p) / PGSIZE <= 0).
      { apply Z.lt_succ_r. apply Z.div_lt_upper_bound; unfold PGSIZE in *; lia. }
      by rewrite Z2Nat.nonpos by lia.
Qed.

Lemma wp_kinit s (Q : unit -> kstate -> Prop) :
  0 < sym_end <= PHYSTOP -> hart_wf s -> Lkmem ∉ k_held s -> k_freelist s = 0 ->
  (forall s', hart_same s s' -> only_mem s s' ->
     free_pages s' (rev (pages (PGROUNDUP sym_end) (Z.to_nat ((PHYSTOP - PGROUNDUP sym_end) / PGSIZE)))) ->
     Q tt s') ->
  wp kinit s Q.
Proof.
  intros Himg Hw Hlk Hfl HQ. unfold kinit, freerange.
  assert (PHYSTOP = 2281701376) by done.
  destruct (PGROUNDUP_spec sym_end) as [Hal Hr]; [unfold PGSIZE in *; lia|].
  apply (wp_freerange_loop _ _ _ s []); auto; try lia.
  - split; [done|]. split; constructor.
  - intros q Hq. by apply not_elem_of_nil in Hq.
  - pose proof (Z.mul_succ_div_gt PHYSTOP PGSIZE ltac:(done)).
    rewrite Z2Nat.id by (apply Z.div_pos; unfold PGSIZE; lia).
    change (PHYSTOP / PGSIZE) with 557056. unfold PGSIZE. lia.
  - intros s' Hh Ho Hf. apply HQ; auto. by rewrite app_nil_r in Hf.
Qed.

(** ** Properties *)

(** C33. [kalloc] pops the free list: it returns the first free page, filled
    with the junk byte 5 and taken off the list, or 0 when there is none; no
    other byte of memory changes, and it leaves the locks and the interrupt
    state of the hart as they were. *)
Theorem kalloc_spec s l :
  0 < sym_end -> hart_wf s -> Lkmem ∉ k_held s -> free_pages s l ->
  exists r s', kalloc s = Done r s' /\ kalloc_post s l r s' /\ hart_same s s' /\ only_mem s s'.
Proof.
  intros. apply wp_done. apply (wp_kalloc s l); auto.
Qed.

(** Freeing a page and allocating again gives that page back and leaves
    the free list as it was: the allocator neither loses nor duplicates
    pages. *)
Theorem kfree_kalloc s l pa :
  0 < sym_end -> hart_wf s -> Lkmem ∉ k_held s -> free_pages s l -> page_ok pa -> pa ∉ l ->
  exists s', (kfree pa ;! kalloc) s = Done pa s' /\ free_pages s' l /\ hart_same s s' /\
    forall x, x < pa \/ pa + PGSIZE <= x -> rd (k_mem s') x = rd (k_mem s) x.
Proof.
  intros Himg Hw Hlk Hf Hp Hn.
  cut (wp (kfree pa ;! kalloc) s (fun r s' => r = pa /\ free_pages s' l /\ hart_same s s' /\
    forall x, x < pa \/ pa + PGSIZE <= x -> rd (k_mem s') x = rd (k_mem s) x)).
  { intros (r & s' & ? & -> & ?)%wp_done. eauto. }
  wp_step. apply (wp_kfree s l); auto. intros s1 Hh1 _ Hf1 Hx1.
  apply (wp_kalloc s1 (pa :: l)); auto; [by eapply hart_same_wf|by destruct Hh1 as [-> _]|].
  intros r s2 Hh2 _ (-> & Hm & Hf2). split; [done|]. split; [done|]. split; [by etrans|].
  intros x Hx. rewrite Hm. destruct (Z.leb_spec pa x), (Z.ltb_spec x (pa + PGSIZE)); simpl; auto; lia.
Qed.

(** After [kinit] every page from the end of the kernel image to PHYSTOP
    is on the free list, once; the loop of [freerange] is over within its
    bound. *)
Theorem kinit_spec s :
  0 < sym_end <= PHYSTOP -> hart_wf s -> Lkmem ∉ k_held s -> k_freelist s = 0 ->
  exists s' l, kinit s = Done tt s' /\ free_pages s' l /\
    (forall pa, pa ∈ l <-> page_ok pa) /\ hart_same s s'.
Proof.
  intros Himg Hw Hlk Hfl.
  cut (wp kinit s (fun _ s' => exists l, free_pages s' l /\
    (forall pa, pa ∈ l <-> page_ok pa) /\ hart_same s s')).
  { intros ([] & s' & E & l & H)%wp_done. eauto. }
  apply wp_kinit; auto. intros s' Hh _ Hf. eexists. split; [exact Hf|]. split; [|done].
  intros pa. split; [|by apply all_pages].
  intros Hin. destruct Hf as (_ & _ & Hok). by apply (proj1 (Forall_forall _ _) Hok).
Qed.

End kalloc.

(** Two free pages. *)
Definition two_pages : kstate :=
  bss <| k_mem := store64 ∅ 0x87ffe000 0x87fff000 |> <| k_freelist := 0x87ffe000 |>.

Lemma two_pages_free : @free_pages sample_image two_pages [0x87ffe000; 0x87fff000].
Proof.
  split; [vm_compute; auto|]. split; [by apply (bool_decide_unpack _); vm_compute|].
  repeat constructor; vm_compute; congruence.
Qed.
Lemma two_pages_hart : hart_wf two_pages /\ Lkmem ∉ k_held two_pages.
Proof. split; [split; done|]. apply not_elem_of_nil. Qed.

Lemma kalloc_spec_witness :
  exists r s', @kalloc two_pages = Done r s' /\ r = 0x87ffe000.
Proof.
  destruct (kalloc_spec (img := sample_image) two_pages _ eq_refl (proj1 two_pages_hart)
    (proj2 two_pages_hart) two_pages_free) as (r & s' & E & (Hr & _) & _).
  exists r, s'. split; [exact E|exact Hr].
Defined.

Lemma kfree_kalloc_witness :
  exists s', (@kfree sample_image 0x87ffd000 ;! kalloc) two_pages = Done 0x87ffd000 s'.
Proof.
  destruct (kfree_kalloc (img := sample_image) two_pages _ 0x87ffd000 eq_refl (proj1 two_pages_hart)
    (proj2 two_pages_hart) two_pages_free) as (s' & E & _).
  - repeat split; vm_compute; congruence.
  - by apply (bool_decide_unpack _); vm_compute.
  - exists s'. exact E.
Defined.

Lemma kinit_spec_witness :
  exists s' (l : list Z), @kinit sample_image bss = Done tt s' /\ 0x87fff000 ∈ l.
Proof.
  destruct (kinit_spec (img := sample_image) bss) as (s' & l & E & _ & Hl & _).
  - split; vm_compute; congruence.
  - split; done.
  - apply not_elem_of_nil.
  - reflexivity.
  - exists s', l. split; [exact E|]. apply Hl. repeat split; vm_compute; congruence.
Defined.

End Kalloc.
Export Kalloc.
#[export] Hint Resolve segs_kfree segs_kalloc : segs.
#[export] Hint Resolve nosw_kfree nosw_kalloc : nosw.
