(* ===== verification/Vm.v ===== *)
(** * vm.c: Sv39 page tables

    The three-level tree is walked through the byte memory exactly as the
    code does.  The specification is a map: [walk] finds the entry of a
    page, [mappages] and [uvmunmap] change the entries of the pages they
    name and no other, and the copy routines move bytes between kernel
    objects and the physical pages the table maps. *)

From S2P Require Import Prelude State Spinlock CString Mem Kalloc.

Module Vm.
Section vm.
Context {img : Image}.

(** The address of [pagetable[i]]. *)
Definition pte_addr (pagetable i : Z) : Z := pagetable + 8 * i.
Definition valid (pte : Z) : bool := negb (Z.land pte PTE_V =? 0).
Definition user (pte : Z) : bool := negb (Z.land pte PTE_U =? 0).

Fixpoint walk_loop (level : nat) (pagetable va : Z) (alloc : bool) : K Z :=
  match level with
  | O => ret (pte_addr pagetable (PX 0 va))
  | S level' =>
      let pte := pte_addr pagetable (PX (Z.of_nat level) va) in
      let! e := ld64 pte in
      if valid e then walk_loop level' (PTE2PA e) va alloc
      else if negb alloc then ret 0 else
      let! page := kalloc in
      if page =? 0 then ret 0 else
      modify (upd k_mem (fun m => memset m page 0 PGSIZE)) ;!
      st64 pte (Z.lor (PA2PTE page) PTE_V) ;!
      walk_loop level' page va alloc
  end.
Definition walk (pagetable va : Z) (alloc : bool) : K Z :=
  if MAXVA <=? va then panic "walk" else walk_loop 2 pagetable va alloc.

Definition walkaddr (pagetable va : Z) : K Z :=
  if MAXVA <=? va then ret 0 else
  let! pte := walk pagetable va false in
  if pte =? 0 then ret 0 else
  let! e := ld64 pte in
  if negb (valid e) then ret 0 else
  if negb (user e) then ret 0 else
  ret (PTE2PA e).

(** The [for(;;)] of mappages.  [walk] panics at MAXVA, so the loop makes
    at most [MAXVA / PGSIZE] steps whatever [last] is. *)
Fixpoint mappages_loop (fuel : nat) (pagetable a last pa perm : Z) : K Z :=
  match fuel with
  | O => nofuel
  | S fuel =>
      let! pte := walk pagetable a true in
      if pte =? 0 then ret (-1) else
      let! e := ld64 pte in
      if valid e then panic "mappages: remap" else
      st64 pte (Z.lor (Z.lor (PA2PTE pa) perm) PTE_V) ;!
      if a =? last then ret 0
      else mappages_loop fuel pagetable (u64 (a + PGSIZE)) last (u64 (pa + PGSIZE)) perm
  end.
Definition mappages_fuel (a last : Z) : nat :=
  if a <=? last then Z.to_nat (Z.min (last - a) MAXVA / PGSIZE + 2)
  else Z.to_nat (MAXVA / PGSIZE + 2).
Definition mappages (pagetable va size pa perm : Z) : K Z :=
  if size =? 0 then panic "mappages: size" else
  let a := PGROUNDDOWN va in
  let last := PGROUNDDOWN (u64 (va + size - 1)) in
  mappages_loop (mappages_fuel a last) pagetable a last pa perm.

Definition kvmmap (kpgtbl va pa sz perm : Z) : K unit :=
  let! r := mappages kpgtbl va sz pa perm in
  when (negb (r =? 0)) (panic "kvmmap").

Fixpoint uvmunmap_loop (fuel : nat) (pagetable a bound : Z) (do_free : bool) : K unit :=
  if a <? bound then
    match fuel with
    | O => nofuel
    | S fuel =>
        let! pte := walk pagetable a false in
        if pte =? 0 then panic "uvmunmap: walk" else
        let! e := ld64 pte in
        if negb (valid e) then panic "uvmunmap: not mapped" else
        if PTE_FLAGS e =? PTE_V then panic "uvmunmap: not a leaf" else
        when do_free (kfree (PTE2PA e)) ;!
        st64 pte 0 ;!
        uvmunmap_loop fuel pagetable (u64 (a + PGSIZE)) bound do_free
    end
  else ret tt.
Definition uvmunmap (pagetable va npages : Z) (do_free : bool) : K unit :=
  if negb (va mod PGSIZE =? 0) then panic "uvmunmap: not aligned" else
  let bound := u64 (va + u64 (npages * PGSIZE)) in
  uvmunmap_loop (Z.to_nat ((bound - va) / PGSIZE)) pagetable va bound do_free.

Definition uvmcreate : K Z :=
  let! pagetable := kalloc in
  if pagetable =? 0 then ret 0 else
  modify (upd k_mem (fun m => memset m pagetable 0 PGSIZE)) ;!
  ret pagetable.

Definition uvmfirst (pagetable : Z) (src : list Z) (sz : Z) : K unit :=
  if PGSIZE <=? sz then panic "uvmfirst: more than a page" else
  let! mem := kalloc in
  modify (upd k_mem (fun m => memset m mem 0 PGSIZE)) ;!
  mappages pagetable 0 PGSIZE mem (Z.lor (Z.lor (Z.lor PTE_W PTE_R) PTE_X) PTE_U) ;!
  memmove_out mem src sz.

Definition uvmdealloc (pagetable oldsz newsz : Z) : K Z :=
  if oldsz <=? newsz then ret oldsz else
  when (PGROUNDUP newsz <? PGROUNDUP oldsz)
    (let npages := i32 ((PGROUNDUP oldsz - PGROUNDUP newsz) / PGSIZE) in
     uvmunmap pagetable (PGROUNDUP newsz) (u64 npages) true) ;!
  ret newsz.

Fixpoint uvmalloc_loop (fuel : nat) (pagetable a oldsz newsz xperm : Z) : K Z :=
  if a <? newsz then
    match fuel with
    | O => nofuel
    | S fuel =>
        let! mem := kalloc in
        if mem =? 0 then uvmdealloc pagetable a oldsz ;! ret 0 else
        let! p := myproc in
        let! i := deref "p" p in
        acquire (Lproc i) ;!
        setp i (upd p_heap_pages (fun n => u32 (n + 1))) ;!
        release (Lproc i) ;!
        modify (upd k_mem (fun m => memset m mem 0 PGSIZE)) ;!
        let! r := mappages pagetable a PGSIZE mem (Z.lor (Z.lor PTE_R PTE_U) xperm) in
        if negb (r =? 0) then
          kfree mem ;! uvmdealloc pagetable a oldsz ;! ret 0
        else uvmalloc_loop fuel pagetable (u64 (a + PGSIZE)) oldsz newsz xperm
    end
  else ret newsz.
(** [walk] panics at MAXVA, which bounds the loop as in mappages. *)
Definition uvmalloc (pagetable oldsz newsz xperm : Z) : K Z :=
  if newsz <? oldsz then ret oldsz else
  let oldsz := PGROUNDUP oldsz in
  uvmalloc_loop (Z.to_nat ((Z.min newsz MAXVA - oldsz) / PGSIZE + 2)) pagetable oldsz oldsz newsz xperm.

(** [fuel] is the number of table levels below: 3 at the root.  A chain of
    non-leaf entries longer than that is [NoFuel]. *)
Fixpoint freewalk (fuel : nat) (pagetable : Z) : K unit :=
  match fuel with
  | O => nofuel
  | S fuel =>
      for_list (seqZ 0 512) (fun i =>
        let! pte := ld64 (pte_addr pagetable i) in
        if valid pte && (Z.land pte (Z.lor (Z.lor PTE_R PTE_W) PTE_X) =? 0) then
          freewalk fuel (PTE2PA pte) ;!
          st64 (pte_addr pagetable i) 0
        else when (valid pte) (panic "freewalk: leaf")) ;!
      kfree pagetable
  end.

Definition uvmfree (pagetable sz : Z) : K unit :=
  when (0 <? sz) (uvmunmap pagetable 0 (PGROUNDUP sz / PGSIZE) true) ;!
  freewalk 3 pagetable.

Fixpoint uvmcopy_loop (fuel : nat) (old new i sz : Z) : K Z :=
  if i <? sz then
    match fuel with
    | O => nofuel
    | S fuel =>
        let! pte := walk old i false in
        if pte =? 0 then panic "uvmcopy: pte should exist" else
        let! e := ld64 pte in
        if negb (valid e) then panic "uvmcopy: page not present" else
        let pa := PTE2PA e in
        let flags := PTE_FLAGS e in
        let! mem := kalloc in
        if mem =? 0 then uvmunmap new 0 (i / PGSIZE) true ;! ret (-1) else
        modify (upd k_mem (fun m => memmove m mem pa PGSIZE)) ;!
        let! r := mappages new i PGSIZE mem flags in
        if negb (r =? 0) then
          kfree mem ;! uvmunmap new 0 (i / PGSIZE) true ;! ret (-1)
        else uvmcopy_loop fuel old new (u64 (i + PGSIZE)) sz
    end
  else ret 0.
Definition uvmcopy (old new sz : Z) : K Z :=
  uvmcopy_loop (Z.to_nat (Z.min sz MAXVA / PGSIZE + 2)) old new 0 sz.

Definition uvmclear (pagetable va : Z) : K unit :=
  let! pte := walk pagetable va false in
  if pte =? 0 then panic "uvmclear" else
  let! e := ld64 pte in
  st64 pte (Z.land e (Z.lnot PTE_U)).

(** The page loops of the copy routines: every round but the first starts
    on a page boundary, so [len / PGSIZE + 2] rounds are enough. *)
Fixpoint copyout_loop (fuel : nat) (pagetable dstva : Z) (src : list Z) (len : Z) : K Z :=
  if 0 <? len then
    match fuel with
    | O => nofuel
    | S fuel =>
        let va0 := PGROUNDDOWN dstva in
        let! pa0 := walkaddr pagetable va0 in
        if pa0 =? 0 then ret (-1) else
        let n := PGSIZE - (dstva - va0) in
        let n := if len <? n then len else n in
        memmove_out (pa0 + (dstva - va0)) src n ;!
        copyout_loop fuel pagetable (u64 (va0 + PGSIZE)) (drop (Z.to_nat n) src) (len - n)
    end
  else ret 0.
Definition copyout (pagetable dstva : Z) (src : list Z) (len : Z) : K Z :=
  copyout_loop (Z.to_nat (Z.min len MAXVA / PGSIZE + 2)) pagetable dstva src len.

(** The bytes that arrived in [dst] are returned with the result. *)
Fixpoint copyin_loop (fuel : nat) (pagetable srcva len : Z) : K (Z * list Z) :=
  if 0 <? len then
    match fuel with
    | O => nofuel
    | S fuel =>
        let va0 := PGROUNDDOWN srcva in
        let! pa0 := walkaddr pagetable va0 in
        if pa0 =? 0 then ret (-1, []) else
        let n := PGSIZE - (srcva - va0) in
        let n := if len <? n then len else n in
        let! bs := memmove_in (pa0 + (srcva - va0)) n in
        let! r := copyin_loop fuel pagetable (u64 (va0 + PGSIZE)) (len - n) in
        ret (fst r, bs ++ snd r)
    end
  else ret (0, []).
Definition copyin (pagetable srcva len : Z) : K (Z * list Z) :=
  copyin_loop (Z.to_nat (Z.min len MAXVA / PGSIZE + 2)) pagetable srcva len.

(** The inner loop of copyinstr over [n] bytes of one page. *)
Fixpoint copyinstr_page (m : gmap Z Z) (p : Z) (n : nat) : bool * list Z :=
  match n with
  | O => (false, [])
  | S n =>
      if rd m p =? 0 then (true, [0])
      else let r := copyinstr_page m (p + 1) n in (fst r, rd m p :: snd r)
  end.
Fixpoint copyinstr_loop (fuel : nat) (pagetable srcva max : Z) : K (Z * list Z) :=
  if 0 <? max then
    match fuel with
    | O => nofuel
    | S fuel =>
        let va0 := PGROUNDDOWN srcva in
        let! pa0 := walkaddr pagetable va0 in
        if pa0 =? 0 then ret (-1, []) else
        let n := PGSIZE - (srcva - va0) in
        let n := if max <? n then max else n in
        let! g := gets (fun s => copyinstr_page (k_mem s) (pa0 + (srcva - va0)) (Z.to_nat n)) in
        if fst g then ret (0, snd g) else
        let! r := copyinstr_loop fuel pagetable (u64 (va0 + PGSIZE)) (max - n) in
        ret (fst r, snd g ++ snd r)
    end
  else ret (-1, []).
Definition copyinstr (pagetable srcva max : Z) : K (Z * list Z) :=
  copyinstr_loop (Z.to_nat (Z.min max MAXVA / PGSIZE + 2)) pagetable srcva max.

(** proc.c: proc_mapstacks *)
Definition proc_mapstacks (kpgtbl : Z) : K unit :=
  for_list all_procs (fun p =>
    let! pa := kalloc in
    if pa =? 0 then panic "kalloc" else
    kvmmap kpgtbl (KSTACK (Z.of_nat p)) pa PGSIZE (Z.lor PTE_R PTE_W)).

Definition kvmmake : K Z :=
  let! kpgtbl := kalloc in
  modify (upd k_mem (fun m => memset m kpgtbl 0 PGSIZE)) ;!
  let rw := Z.lor PTE_R PTE_W in
  let rx := Z.lor PTE_R PTE_X in
  kvmmap kpgtbl QEMU_POWER QEMU_POWER PGSIZE rw ;!
  kvmmap kpgtbl UART0 UART0 PGSIZE rw ;!
  kvmmap kpgtbl VIRTIO0 VIRTIO0 PGSIZE rw ;!
  kvmmap kpgtbl PLIC PLIC 0x400000 rw ;!
  kvmmap kpgtbl KERNBASE KERNBASE (sym_etext - KERNBASE) rx ;!
  kvmmap kpgtbl sym_etext sym_etext (PHYSTOP - sym_etext) rw ;!
  kvmmap kpgtbl TRAMPOLINE sym_trampoline PGSIZE rx ;!
  proc_mapstacks kpgtbl ;!
  ret kpgtbl.

Definition kvminit : K unit :=
  let! t := kvmmake in
  modify (upd k_kpgtbl (fun _ => t)).

Definition kvminithart : K unit :=
  let! t := gets k_kpgtbl in
  modify (upd k_cpu (upd c_satp (fun _ => MAKE_SATP t))).

(** ** Frames *)

Section segs.
Context (P : kstate -> kstate -> Prop) `{!PreOrder P}
  `{!Blind P k_mem, !Blind P k_freelist, !Blind P k_held, !Blind P k_cpu}.

Lemma segs_walk pt va alloc : segs P (walk pt va alloc).
Proof.
  unfold walk. destruct (_ <=? _); [segs_tac|]. generalize 2%nat. intros level. revert pt.
  induction level; intros; cbn [walk_loop]; segs_tac.
Qed.
Lemma segs_walkaddr pt va : segs P (walkaddr pt va).
Proof. unfold walkaddr. pose proof segs_walk. segs_tac. Qed.
Lemma segs_mappages pt va size pa perm : segs P (mappages pt va size pa perm).
Proof.
  unfold mappages. destruct (size =? 0); [segs_tac|]. cbv zeta.
  generalize (mappages_fuel (PGROUNDDOWN va) (PGROUNDDOWN (u64 (va + size - 1)))).
  generalize (PGROUNDDOWN (u64 (va + size - 1))). generalize (PGROUNDDOWN va). intros a last fuel.
  pose proof segs_walk. revert a pa. induction fuel; intros; cbn [mappages_loop]; segs_tac.
Qed.
Lemma segs_kvmmap kp va pa sz perm : segs P (kvmmap kp va pa sz perm).
Proof. unfold kvmmap. pose proof segs_mappages. segs_tac. Qed.
Lemma segs_uvmunmap pt va n f : segs P (uvmunmap pt va n f).
Proof.
  unfold uvmunmap. destruct (negb _); [segs_tac|]. cbv zeta. pose proof segs_walk.
  generalize (u64 (va + u64 (n * PGSIZE))). intros b. generalize (Z.to_nat ((b - va) / PGSIZE)). intros fuel.
  revert va. induction fuel; intros; cbn [uvmunmap_loop]; segs_tac.
Qed.
Lemma segs_uvmcreate : segs P uvmcreate.
Proof. unfold uvmcreate. segs_tac. Qed.
Lemma segs_uvmfirst pt src sz : segs P (uvmfirst pt src sz).
Proof. unfold uvmfirst. pose proof segs_mappages. segs_tac. Qed.
Lemma segs_uvmdealloc pt o n : segs P (uvmdealloc pt o n).
Proof. unfold uvmdealloc. pose proof segs_uvmunmap. segs_tac. Qed.
Lemma segs_freewalk fuel pt : segs P (freewalk fuel pt).
Proof. revert pt. induction fuel; intros; cbn [freewalk]; segs_tac. Qed.
Lemma segs_uvmfree pt sz : segs P (uvmfree pt sz).
Proof. unfold uvmfree. pose proof segs_uvmunmap. pose proof segs_freewalk. segs_tac. Qed.
Lemma segs_uvmcopy old new sz : segs P (uvmcopy old new sz).
Proof.
  unfold uvmcopy. generalize (Z.to_nat (Z.min sz MAXVA / PGSIZE + 2)) 0. intros fuel i.
  pose proof segs_walk. pose proof segs_uvmunmap. pose proof segs_mappages.
  revert i. induction fuel; intros; cbn [uvmcopy_loop]; segs_tac.
Qed.
Lemma segs_uvmclear pt va : segs P (uvmclear pt va).
Proof. unfold uvmclear. pose proof segs_walk. segs_tac. Qed.
Lemma segs_copyout pt va src len : segs P (copyout pt va src len).
Proof.
  unfold copyout. generalize (Z.to_nat (Z.min len MAXVA / PGSIZE + 2)). intros fuel. pose proof segs_walkaddr.
  revert va src len. induction fuel; intros; cbn [copyout_loop]; segs_tac.
Qed.
Lemma segs_copyin pt va len : segs P (copyin pt va len).
Proof.
  unfold copyin. generalize (Z.to_nat (Z.min len MAXVA / PGSIZE + 2)). intros fuel. pose proof segs_walkaddr.
  revert va len. induction fuel; intros; cbn [copyin_loop]; segs_tac.
Qed.
Lemma segs_copyinstr pt va max : segs P (copyinstr pt va max).
Proof.
  unfold copyinstr. generalize (Z.to_nat (Z.min max MAXVA / PGSIZE + 2)). intros fuel. pose proof segs_walkaddr.
  revert va max. induction fuel; intros; cbn [copyinstr_loop]; segs_tac.
Qed.
(** uvmalloc also counts the page in the current process. *)
Lemma segs_uvmalloc pt o n x : (forall i, segs P (setp i (upd p_heap_pages (fun n => u32 (n + 1))))) -> segs P (uvmalloc pt o n x).
Proof.
  intros Hset. unfold uvmalloc. destruct (n <? o); [segs_tac|]. cbv zeta.
  generalize (Z.to_nat ((Z.min n MAXVA - PGROUNDUP o) / PGSIZE + 2)). intros fuel.
  pose proof segs_mappages. pose proof segs_uvmdealloc.
  generalize (PGROUNDUP o) at 1. intros a. revert a. induction fuel; intros; cbn [uvmalloc_loop]; segs_tac.
Qed.
End segs.

(** No routine of vm.c sleeps. *)
Lemma nosw_walk pt va alloc : noswitch (walk pt va alloc).
Proof.
  unfold walk. destruct (_ <=? _); [nosw_tac|]. generalize 2%nat. intros level. revert pt.
  induction level; intros; cbn [walk_loop]; nosw_tac.
Qed.
#[local] Hint Resolve nosw_walk : nosw.
Lemma nosw_walkaddr pt va : noswitch (walkaddr pt va).
Proof. unfold walkaddr. nosw_tac. Qed.
Lemma nosw_mappages pt va size pa perm : noswitch (mappages pt va size pa perm).
Proof.
  unfold mappages. destruct (size =? 0); [nosw_tac|]. cbv zeta.
  generalize (mappages_fuel (PGROUNDDOWN va) (PGROUNDDOWN (u64 (va + size - 1)))).
  generalize (PGROUNDDOWN (u64 (va + size - 1))). generalize (PGROUNDDOWN va). intros a last fuel.
  revert a pa. induction fuel; intros; cbn [mappages_loop]; nosw_tac.
Qed.
Lemma nosw_uvmunmap pt va n f : noswitch (uvmunmap pt va n f).
Proof.
  unfold uvmunmap. destruct (negb _); [nosw_tac|]. cbv zeta.
  generalize (u64 (va + u64 (n * PGSIZE))). intros b. generalize (Z.to_nat ((b - va) / PGSIZE)). intros fuel.
  revert va. induction fuel; intros; cbn [uvmunmap_loop]; nosw_tac.
Qed.
Lemma nosw_uvmcreate : noswitch uvmcreate.
Proof. unfold uvmcreate. nosw_tac. Qed.
Lemma nosw_freewalk fuel pt : noswitch (freewalk fuel pt).
Proof. revert pt. induction fuel; intros; cbn [freewalk]; nosw_tac. Qed.
#[local] Hint Resolve nosw_walkaddr nosw_mappages nosw_uvmunmap nosw_uvmcreate nosw_freewalk : nosw.
Lemma nosw_uvmfree pt sz : noswitch (uvmfree pt sz).
Proof. unfold uvmfree. nosw_tac. Qed.
Lemma nosw_uvmcopy old new sz : noswitch (uvmcopy old new sz).
Proof.
  unfold uvmcopy. generalize (Z.to_nat (Z.min sz MAXVA / PGSIZE + 2)) 0. intros fuel i.
  revert i. induction fuel; intros; cbn [uvmcopy_loop]; nosw_tac.
Qed.
Lemma nosw_copyout pt va src len : noswitch (copyout pt va src len).
Proof.
  unfold copyout. generalize (Z.to_nat (Z.min len MAXVA / PGSIZE + 2)). intros fuel.
  revert va src len. induction fuel; intros; cbn [copyout_loop]; nosw_tac.
Qed.
Lemma nosw_copyin pt va len : noswitch (copyin pt va len).
Proof.
  unfold copyin. generalize (Z.to_nat (Z.min len MAXVA / PGSIZE + 2)). intros fuel.
  revert va len. induction fuel; intros; cbn [copyin_loop]; nosw_tac.
Qed.

End vm.
End Vm.
Export Vm.
#[export] Hint Resolve segs_walk segs_walkaddr segs_mappages segs_kvmmap segs_uvmunmap segs_uvmcreate
  segs_uvmfirst segs_uvmdealloc segs_freewalk segs_uvmfree segs_uvmcopy segs_uvmclear segs_copyout
  segs_copyin segs_copyinstr segs_uvmalloc : segs.
#[export] Hint Resolve nosw_walk nosw_walkaddr nosw_mappages nosw_uvmunmap nosw_uvmcreate nosw_freewalk
  nosw_uvmfree nosw_uvmcopy nosw_copyout nosw_copyin : nosw.
