(* ===== verification/PageTable.v ===== *)
(** * The page-table tree as a map

    [pt m root T]: the table pages reachable from [root] in memory [m] are
    the pages [T] names, by the path of indices that leads to them.  Over
    this view [walk] is a lookup, and the routines of vm.c are updates of
    the entry map [pte_of]. *)

From S2P Require Import Prelude State Spinlock CString Mem Kalloc Vm.

Module PageTable.

(** ** PTE bits *)

Lemma log2_below f n i : 0 <= f < 2 ^ n -> n <= i -> Z.testbit f i = false.
Proof.
  intros Hf Hi. destruct (Z.eq_dec f 0) as [->|]; [apply Z.bits_0|].
  apply Z.bits_above_log2; [lia|]. apply Z.log2_lt_pow2; [lia|].
  destruct (Z.leb_spec 0 n); [|rewrite Z.pow_neg_r in Hf by done; lia].
  apply Z.lt_le_trans with (2 ^ n); [lia|]. apply Z.pow_le_mono_r; lia.
Qed.
Lemma lor_disjoint k n f : 0 <= n -> 0 <= f < 2 ^ n -> Z.lor (k * 2 ^ n) f = k * 2 ^ n + f.
Proof.
  intros Hn Hf.
  assert (Z.land (k * 2 ^ n) f = 0) as E.
  { rewrite <- Z.shiftl_mul_pow2 by done. apply Z.bits_inj'. intros i Hi.
    rewrite Z.land_spec, Z.bits_0, Z.shiftl_spec by done.
    destruct (Z.ltb_spec i n); [by rewrite Z.testbit_neg_r by lia|].
    by rewrite (log2_below f n), andb_false_r by lia. }
  rewrite <- Z.lxor_lor by done. symmetry. by apply Z.add_nocarry_lxor.
Qed.

Lemma PA2PTE_page k : 0 <= k < 2 ^ 44 -> PA2PTE (k * PGSIZE) = k * 2 ^ 10.
Proof.
  intros. unfold PA2PTE. change PGSIZE with (2 ^ 12).
  rewrite <- Z.shiftl_mul_pow2, Z.shiftr_shiftl_l, Z.sub_diag, Z.shiftl_0_r by lia.
  rewrite Z.shiftl_mul_pow2 by lia. apply u64_small. lia.
Qed.

(** Physical addresses a PTE can hold. *)
Definition pa_ok (pa : Z) : Prop := pa mod PGSIZE = 0 /\ 0 <= pa < 2 ^ 56.

Lemma mk_pte pa f : pa_ok pa -> 0 <= f < 1024 ->
  exists k, 0 <= k < 2 ^ 44 /\ pa = k * PGSIZE /\ Z.lor (PA2PTE pa) f = k * 2 ^ 10 + f.
Proof.
  intros [Hp Hr] Hf. apply Z.mod_divide in Hp as [k ->]; [|done]. exists k.
  assert (0 <= k < 2 ^ 44) by (unfold PGSIZE in *; lia).
  split; [done|]. split; [done|]. rewrite (PA2PTE_page k) by done.
  apply lor_disjoint; lia.
Qed.

Lemma PTE2PA_mk pa f : pa_ok pa -> 0 <= f < 1024 -> PTE2PA (Z.lor (PA2PTE pa) f) = pa.
Proof.
  intros Hp Hf. destruct (mk_pte pa f) as (k & Hk & -> & ->); auto.
  unfold PTE2PA. rewrite Z.shiftr_div_pow2, Z.add_comm, Z.div_add, Z.div_small by lia.
  rewrite Z.shiftl_mul_pow2 by lia. unfold PGSIZE. rewrite u64_small; lia.
Qed.

Lemma PTE_FLAGS_mk pa f : pa_ok pa -> 0 <= f < 1024 -> PTE_FLAGS (Z.lor (PA2PTE pa) f) = f.
Proof.
  intros Hp Hf. destruct (mk_pte pa f) as (k & Hk & -> & ->); auto.
  unfold PTE_FLAGS. change 1023 with (Z.ones 10). rewrite Z.land_ones by lia.
  rewrite Z.add_comm, Z.mod_add, Z.mod_small by lia. done.
Qed.

Lemma mk_pte_range pa f : pa_ok pa -> 0 <= f < 1024 -> 0 <= Z.lor (PA2PTE pa) f < 2 ^ 64.
Proof. intros Hp Hf. destruct (mk_pte pa f) as (k & Hk & -> & ->); auto. lia. Qed.

Lemma land_flags e b : 0 <= b < 1024 -> Z.land e b = Z.land (PTE_FLAGS e) b.
Proof.
  intros. unfold PTE_FLAGS. rewrite <- Z.land_assoc. f_equal.
  rewrite Z.land_comm. change 1023 with (Z.ones 10). rewrite Z.land_ones, Z.mod_small by lia. done.
Qed.
Lemma valid_flags e : valid e = valid (PTE_FLAGS e).
Proof. unfold valid. by rewrite (land_flags e) by (unfold PTE_V; lia). Qed.
Lemma user_flags e : user e = user (PTE_FLAGS e).
Proof. unfold user. by rewrite (land_flags e) by (unfold PTE_U; lia). Qed.
Lemma valid_mk pa f : pa_ok pa -> 0 <= f < 1024 -> valid (Z.lor (PA2PTE pa) f) = valid f.
Proof. intros. rewrite valid_flags, PTE_FLAGS_mk by done. done. Qed.
Lemma user_mk pa f : pa_ok pa -> 0 <= f < 1024 -> user (Z.lor (PA2PTE pa) f) = user f.
Proof. intros. rewrite user_flags, PTE_FLAGS_mk by done. done. Qed.
Lemma valid_lor_V f : valid (Z.lor f PTE_V) = true.
Proof.
  unfold valid, PTE_V. rewrite Z.land_lor_distr_l. change (Z.land 1 1) with 1.
  destruct (Z.eqb_spec (Z.lor (Z.land f 1) 1) 0) as [E|]; [|done].
  apply Z.lor_eq_0_iff in E as [_ ?]. done.
Qed.
Lemma valid_0 : valid 0 = false.
Proof. done. Qed.
Lemma flags_lor f g : 0 <= f < 1024 -> 0 <= g < 1024 -> 0 <= Z.lor f g < 1024.
Proof.
  intros. split; [apply Z.lor_nonneg; lia|].
  assert (0 <= Z.lor f g) by (apply Z.lor_nonneg; lia).
  destruct (Z.eq_dec (Z.lor f g) 0) as [->|]; [lia|].
  apply (Z.log2_lt_pow2 _ 10); [lia|].
  rewrite Z.log2_lor by lia.
  apply Z.max_lub_lt; [destruct (Z.eq_dec f 0) as [->|]|destruct (Z.eq_dec g 0) as [->|]];
    try done; apply Z.log2_lt_pow2; lia.
Qed.

Lemma flags_lor_V f : 0 <= f < 1024 -> 0 <= Z.lor f PTE_V < 1024.
Proof. intros. apply flags_lor; [done|unfold PTE_V; lia]. Qed.

(** ** Virtual addresses *)

Lemma PX_range l va : 0 <= PX l va < 512.
Proof.
  unfold PX, PXMASK. change 511 with (Z.ones 9). rewrite Z.land_ones by lia.
  apply Z.mod_pos_bound. lia.
Qed.
Lemma PX_eq l va : 0 <= l -> PX l va = (va / 2 ^ (12 + 9 * l)) mod 512.
Proof.
  intros. unfold PX, PXMASK, PXSHIFT, PGSHIFT. change 511 with (Z.ones 9).
  rewrite Z.land_ones, Z.shiftr_div_pow2 by lia. done.
Qed.

(** What the three indices address; [walk] stops at MAXVA, half way. *)
Definition VAEND : Z := 2 ^ 39.
Lemma MAXVA_VAEND : MAXVA < VAEND.
Proof. done. Qed.

(** The three indices determine the page. *)
Lemma PX_split va : 0 <= va < VAEND ->
  va = ((PX 2 va * 512 + PX 1 va) * 512 + PX 0 va) * PGSIZE + va mod PGSIZE.
Proof.
  unfold VAEND, PGSIZE. intros Hva.
  rewrite !PX_eq by lia. change (12 + 9 * 0) with 12.
  assert (va / 2 ^ (12 + 9 * 1) = va / 2 ^ 12 / 512) as -> by (rewrite Z.div_div by lia; done).
  assert (va / 2 ^ (12 + 9 * 2) = va / 2 ^ 12 / 512 / 512) as ->
    by (rewrite !Z.div_div by lia; done).
  assert (va = 4096 * (va / 2 ^ 12) + va mod 4096) as Hd by (apply Z.div_mod; lia).
  set (q := va / 2 ^ 12) in *.
  assert (0 <= q < 2 ^ 27) by (unfold q; split; [apply Z.div_pos; lia|apply Z.div_lt_upper_bound; lia]).
  pose proof (Z.div_mod q 512 ltac:(lia)). pose proof (Z.div_mod (q / 512) 512 ltac:(lia)).
  assert (q / 512 / 512 < 512).
  { rewrite Z.div_div by lia. apply Z.div_lt_upper_bound; lia. }
  assert (0 <= q / 512 / 512) by (rewrite Z.div_div by lia; apply Z.div_pos; lia).
  rewrite (Z.mod_small (q / 512 / 512)) by lia. lia.
Qed.

Lemma PX_inj va va' : 0 <= va < VAEND -> 0 <= va' < VAEND ->
  PX 2 va = PX 2 va' -> PX 1 va = PX 1 va' -> PX 0 va = PX 0 va' ->
  PGROUNDDOWN va = PGROUNDDOWN va'.
Proof.
  intros H H' E2 E1 E0. rewrite !PGROUNDDOWN_eq.
  pose proof (PX_split va H). pose proof (PX_split va' H'). rewrite E2, E1, E0 in *. lia.
Qed.

Lemma PX_rounddown l va : 0 <= l -> PX l (PGROUNDDOWN va) = PX l va.
Proof.
  intros. rewrite PGROUNDDOWN_eq, !PX_eq by done. f_equal.
  rewrite Z.pow_add_r by lia. change (2 ^ 12) with PGSIZE.
  rewrite <- !Z.div_div by (try apply Z.pow_pos_nonneg; unfold PGSIZE; lia). f_equal.
  pose proof (Z.div_mod va PGSIZE ltac:(done)).
  replace (va - va mod PGSIZE) with (va / PGSIZE * PGSIZE) by lia. by rewrite Z.div_mul.
Qed.

(** ** The tree *)

(** An entry without R, W and X points to a table. *)
Definition branch (pte : Z) : bool := Z.land pte (Z.lor (Z.lor PTE_R PTE_W) PTE_X) =? 0.
Lemma branch_mk pa f : pa_ok pa -> 0 <= f < 1024 -> branch (Z.lor (PA2PTE pa) f) = branch f.
Proof.
  intros. unfold branch. rewrite (land_flags (Z.lor _ _)), PTE_FLAGS_mk by (done || by vm_compute). done.
Qed.

Section tree.
Context {img : Image}.

Record pt (m : gmap Z Z) (root : Z) (T : gmap (list Z) Z) : Prop := {
  pt_root : T !! [] = Some root;
  pt_node π t i : T !! π = Some t -> (length π < 2)%nat -> 0 <= i < 512 ->
    T !! (π ++ [i]) = (if valid (load64 m (pte_addr t i))
                       then Some (PTE2PA (load64 m (pte_addr t i))) else None);
  pt_branch π t i : T !! π = Some t -> (length π < 2)%nat -> 0 <= i < 512 ->
    valid (load64 m (pte_addr t i)) = true -> branch (load64 m (pte_addr t i)) = true;
  pt_closed π i t : T !! (π ++ [i]) = Some t ->
    is_Some (T !! π) /\ (length π < 2)%nat /\ 0 <= i < 512;
  pt_page π t : T !! π = Some t -> page_ok t;
  pt_inj π π' t : T !! π = Some t -> T !! π' = Some t -> π = π';
}.

(** The address of the entry for [va], 0 when its table is missing, and
    the entry itself. *)
Definition walk_at (T : gmap (list Z) Z) (va : Z) : Z :=
  match T !! [PX 2 va; PX 1 va] with Some t => pte_addr t (PX 0 va) | None => 0 end.
Definition pte_of (m : gmap Z Z) (T : gmap (list Z) Z) (va : Z) : Z :=
  match T !! [PX 2 va; PX 1 va] with Some t => load64 m (pte_addr t (PX 0 va)) | None => 0 end.

(** [walk] is the lookup, and leaves the state alone, when it need not
    allocate. *)
Lemma walk_lookup_gen s root T va alloc :
  pt (k_mem s) root T -> va < MAXVA -> alloc = false \/ is_Some (T !! [PX 2 va; PX 1 va]) ->
  walk root va alloc s = Done (walk_at T va) s.
Proof.
  intros H Hva Hal. unfold walk. rewrite (proj2 (Z.leb_gt _ _)) by done.
  cbn [walk_loop]. unfold ld64, bind, gets. cbn [obind].
  change (Z.of_nat 2) with 2. change (Z.of_nat 1) with 1.
  pose proof (pt_node _ _ _ H [] root (PX 2 va) (pt_root _ _ _ H) ltac:(simpl; lia) (PX_range _ _)) as H2.
  simpl in H2. unfold walk_at.
  destruct (valid (load64 (k_mem s) (pte_addr root (PX 2 va)))).
  - cbn [obind].
    pose proof (pt_node _ _ _ H [PX 2 va] _ (PX 1 va) H2 ltac:(simpl; lia) (PX_range _ _)) as H1.
    simpl in H1. rewrite H1 in *.
    destruct (valid (load64 (k_mem s) (pte_addr (PTE2PA (load64 (k_mem s) (pte_addr root (PX 2 va)))) (PX 1 va))));
      [done|]. destruct Hal as [->|[? [=]]]. done.
  - assert (E : T !! [PX 2 va; PX 1 va] = None).
    { destruct (T !! [PX 2 va; PX 1 va]) as [t|] eqn:E; [|done].
      apply (pt_closed _ _ _ H [PX 2 va] (PX 1 va)) in E as [[t' Ht'] _]. congruence. }
    rewrite E in *. destruct Hal as [->|[? [=]]]. done.
Qed.
Lemma walk_lookup s root T va :
  pt (k_mem s) root T -> va < MAXVA -> walk root va false s = Done (walk_at T va) s.
Proof. intros. apply walk_lookup_gen; auto. Qed.

(** Addresses of entries. *)
Lemma pte_in_page t i : 0 <= i < 512 -> t <= pte_addr t i /\ pte_addr t i + 8 <= t + PGSIZE.
Proof. unfold pte_addr, PGSIZE. lia. Qed.

Lemma pte_addr_disj m root T π π' t t' i i' :
  pt m root T -> T !! π = Some t -> T !! π' = Some t' -> 0 <= i < 512 -> 0 <= i' < 512 ->
  (π, i) <> (π', i') ->
  pte_addr t i + 8 <= pte_addr t' i' \/ pte_addr t' i' + 8 <= pte_addr t i.
Proof.
  intros H Ht Ht' Hi Hi' Hne. destruct (decide (t = t')) as [<-|Hnt].
  - assert (π = π') as <- by by eapply pt_inj. assert (i <> i') by congruence.
    unfold pte_addr. lia.
  - destruct (pt_page _ _ _ H _ _ Ht), (pt_page _ _ _ H _ _ Ht').
    destruct (page_disjoint t t'); auto; pose proof (pte_in_page t i); pose proof (pte_in_page t' i'); lia.
Qed.

(** Memory that agrees on the table pages has the same tree. *)
Definition in_page (p x : Z) : Prop := p <= x < p + PGSIZE.
Lemma in_page_disj p q x : page_ok p -> page_ok q -> p <> q -> in_page p x -> ~ in_page q x.
Proof. intros [Hp _] [Hq _] Hne. destruct (page_disjoint p q Hp Hq Hne); unfold in_page; lia. Qed.
Lemma in_page_pte t i x : 0 <= i < 512 -> pte_addr t i <= x < pte_addr t i + 8 -> in_page t x.
Proof. intros. pose proof (pte_in_page t i). unfold in_page. lia. Qed.

Lemma pt_ext m m' root T :
  pt m root T -> (forall π t x, T !! π = Some t -> in_page t x -> rd m' x = rd m x) ->
  pt m' root T /\ forall va, pte_of m' T va = pte_of m T va.
Proof.
  intros H Hext.
  assert (forall π t i, T !! π = Some t -> 0 <= i < 512 ->
    load64 m' (pte_addr t i) = load64 m (pte_addr t i)) as Hl.
  { intros π t i Ht Hi. apply load64_ext. intros x Hx. eapply Hext; [done|]. by eapply in_page_pte. }
  split.
  - destruct H. constructor; auto; intros π t i Ht Hlen Hi; rewrite (Hl π) by done; eauto.
  - intros va. unfold pte_of. destruct (T !! _) eqn:E; [|done]. eapply Hl; [done|apply PX_range].
Qed.

(** An empty root table in zeroed memory. *)
Lemma pt_empty root : page_ok root -> pt ∅ root {[ [] := root ]}.
Proof.
  intros Hok.
  assert (H0 : forall a, load64 ∅ a = 0).
  { intros a. rewrite (load64_ext ∅ (memset ∅ a 0 8)).
    - apply load64_memset_zero; lia.
    - intros x _. rewrite memset_spec by lia. unfold rd. rewrite lookup_empty.
      destruct (_ && _); reflexivity. }
  constructor.
  - apply lookup_insert_eq.
  - intros π t i _ _ _. rewrite H0. simpl. apply lookup_singleton_ne. by destruct π.
  - intros π t i _ _ _. by rewrite H0.
  - intros π i t Ht. rewrite lookup_singleton_ne in Ht by (by destruct π). done.
  - intros π t Ht. by apply lookup_singleton_Some in Ht as [_ <-].
  - intros π π' t H1 H2. apply lookup_singleton_Some in H1 as [<- _], H2 as [<- _]. done.
Qed.

(** Writing one leaf entry. *)
Lemma pt_store_leaf m root T i2 i1 t i0 v :
  pt m root T -> T !! [i2; i1] = Some t -> 0 <= i0 < 512 ->
  pt (store64 m (pte_addr t i0) v) root T.
Proof.
  intros H Ht Hi0.
  assert (Hne : forall π t' i, T !! π = Some t' -> (length π < 2)%nat -> 0 <= i < 512 ->
    load64 (store64 m (pte_addr t i0) v) (pte_addr t' i) = load64 m (pte_addr t' i)).
  { intros π t' i Ht' Hlen Hi. apply load64_store64_ne.
    eapply pte_addr_disj; eauto. intros [=]; subst. simpl in *. lia. }
  constructor; try apply H; intros π t' i Ht' Hlen Hi; rewrite (Hne π) by done; [by eapply pt_node|].
  by eapply pt_branch.
Qed.

Lemma pte_of_store_leaf m root T va v va' :
  pt m root T -> 0 <= va < MAXVA -> 0 <= va' < VAEND -> is_Some (T !! [PX 2 va; PX 1 va]) ->
  0 <= v < 2 ^ 64 ->
  pte_of (store64 m (walk_at T va) v) T va' =
  if PGROUNDDOWN va =? PGROUNDDOWN va' then v else pte_of m T va'.
Proof.
  intros H Hva Hva' [t Ht] Hv. unfold pte_of, walk_at. rewrite Ht.
  destruct (Z.eqb_spec (PGROUNDDOWN va) (PGROUNDDOWN va')) as [E|E].
  - rewrite <- (PX_rounddown 2 va'), <- (PX_rounddown 1 va'), <- (PX_rounddown 0 va'), <- E by lia.
    rewrite !PX_rounddown by lia. rewrite Ht. by rewrite load64_store64_same, u64_small.
  - destruct (T !! [PX 2 va'; PX 1 va']) as [t'|] eqn:Ht'; [|done].
    apply load64_store64_ne. eapply pte_addr_disj; eauto using PX_range.
    intros [=]. apply E, PX_inj; auto. pose proof MAXVA_VAEND. lia.
Qed.

(** Hanging a zeroed page under a missing entry. *)
Lemma pt_grow m root T π t i page :
  pt m root T -> T !! π = Some t -> (length π < 2)%nat -> 0 <= i < 512 ->
  T !! (π ++ [i]) = None -> page_ok page -> 0 < sym_end ->
  (forall π' t', T !! π' = Some t' -> t' <> page) ->
  let m' := store64 (memset m page 0 PGSIZE) (pte_addr t i) (Z.lor (PA2PTE page) PTE_V) in
  let T' := <[π ++ [i] := page]> T in
  pt m' root T' /\ forall va, pte_of m' T' va = pte_of m T va.
Proof.
  intros H Ht Hlen Hi Hnone Hpok Himg Hnew m' T'.
  assert (Hpa : pa_ok page).
  { destruct Hpok. split; [done|]. unfold PHYSTOP, KERNBASE in *. lia. }
  assert (HV : 0 <= PTE_V < 1024) by (unfold PTE_V; lia).
  assert (Hne : π <> π ++ [i]) by (intros E%(f_equal length); rewrite length_app in E; simpl in E; lia).
  assert (Hold : forall π' t' j, T !! π' = Some t' -> 0 <= j < 512 -> (π', j) <> (π, i) ->
    load64 m' (pte_addr t' j) = load64 m (pte_addr t' j)).
  { intros π' t' j Ht' Hj Hpj. unfold m'. rewrite load64_store64_ne by (eapply pte_addr_disj; eauto).
    apply load64_memset_out; [unfold PGSIZE; lia|].
    destruct (page_disjoint page t') as [?|?]; [apply Hpok|by eapply pt_page| | |].
    { intros E. by apply (Hnew _ _ Ht'). }
    all: pose proof (pte_in_page t' j); lia. }
  assert (Hzero : forall j, 0 <= j < 512 -> load64 m' (pte_addr page j) = 0).
  { intros j Hj. unfold m'. rewrite load64_store64_ne.
    - pose proof (pte_in_page page j). apply load64_memset_zero; unfold PGSIZE in *; lia.
    - destruct (page_disjoint page t) as [?|?]; [apply Hpok|by eapply pt_page| | |].
      { intros E. by apply (Hnew _ _ Ht). }
      all: pose proof (pte_in_page t i); pose proof (pte_in_page page j); lia. }
  assert (Hpte : load64 m' (pte_addr t i) = Z.lor (PA2PTE page) PTE_V).
  { unfold m'. rewrite load64_store64_same. apply u64_small. by apply mk_pte_range. }
  assert (HT : forall π', π' <> π ++ [i] -> T' !! π' = T !! π').
  { intros. unfold T'. by rewrite lookup_insert_ne. }
  assert (HT1 : T' !! (π ++ [i]) = Some page) by (unfold T'; by rewrite lookup_insert_eq).
  assert (Hchild : forall j, T !! ((π ++ [i]) ++ [j]) = None).
  { intros j. destruct (T !! ((π ++ [i]) ++ [j])) eqn:E; [|done].
    apply (pt_closed _ _ _ H) in E as [[??] _]. congruence. }
  clearbody m' T'. split; [constructor|].
  - rewrite HT; [apply H|by destruct π].
  - intros π' t' j Ht' Hlen' Hj. destruct (decide (π' = π ++ [i])) as [->|Hn1].
    + assert (t' = page) as -> by congruence. rewrite Hzero by done. simpl.
      rewrite HT; [apply Hchild|]. intros E%(f_equal length). rewrite !length_app in E. simpl in E. lia.
    + rewrite HT in Ht' by done. destruct (decide ((π', j) = (π, i))) as [[= -> ->]|Hn2].
      * assert (t' = t) as -> by congruence.
        rewrite Hpte, HT1, valid_lor_V. by rewrite PTE2PA_mk.
      * rewrite (Hold π' t' j) by done. rewrite HT; [by eapply pt_node|].
        intros E. apply app_inj_2 in E as [-> [= ->]]; done.
  - intros π' t' j Ht' Hlen' Hj. destruct (decide (π' = π ++ [i])) as [->|Hn1].
    + assert (t' = page) as -> by congruence. by rewrite Hzero.
    + rewrite HT in Ht' by done. destruct (decide ((π', j) = (π, i))) as [[= -> ->]|Hn2].
      * assert (t' = t) as -> by congruence. rewrite Hpte. intros _. by rewrite branch_mk.
      * rewrite (Hold π' t' j) by done. by eapply pt_branch.
  - intros π' j t' Ht'. destruct (decide (π' ++ [j] = π ++ [i])) as [[-> [= ->]]%app_inj_2|Hn]; [|done|].
    + rewrite HT by done. eauto.
    + rewrite HT in Ht' by done. apply (pt_closed _ _ _ H) in Ht' as ([t'' ?] & ? & ?).
      split; [|done]. destruct (decide (π' = π ++ [i])) as [->|]; [eauto|rewrite HT by done; eauto].
  - intros π' t' Ht'. destruct (decide (π' = π ++ [i])) as [->|]; [congruence|].
    rewrite HT in Ht' by done. by eapply pt_page.
  - intros π1 π2 t' H1 H2.
    destruct (decide (π1 = π ++ [i])) as [->|], (decide (π2 = π ++ [i])) as [->|]; [done| | |].
    + rewrite HT in H2 by done. assert (t' = page) as -> by congruence. by destruct (Hnew _ _ H2).
    + rewrite HT in H1 by done. assert (t' = page) as -> by congruence. by destruct (Hnew _ _ H1).
    + rewrite HT in H1, H2 by done. by eapply pt_inj.
  - intros va. unfold pte_of. destruct (decide ([PX 2 va; PX 1 va] = π ++ [i])) as [E|Hn].
    + rewrite E, HT1, Hnone. apply Hzero, PX_range.
    + rewrite HT by done. destruct (T !! [PX 2 va; PX 1 va]) as [t'|] eqn:Et; [|done].
      apply (Hold _ _ _ Et); [apply PX_range|]. intros [= E _]. rewrite <- E in Hlen. simpl in Hlen. lia.
Qed.

(** ** The table together with the allocator *)

Record vmst (s : kstate) (root : Z) (T : gmap (list Z) Z) (l : list Z) : Prop := {
  vm_free : free_pages s l;
  vm_pt : pt (k_mem s) root T;
  vm_tabs π t : T !! π = Some t -> t ∉ l;
}.

(** Bytes outside the tables and the free pages are kept. *)
Definition mem_frame (T : gmap (list Z) Z) (l : list Z) (m m' : gmap Z Z) : Prop :=
  forall x, (forall π t, T !! π = Some t -> ~ in_page t x) ->
            (forall p, p ∈ l -> ~ in_page p x) -> rd m' x = rd m x.

(** The table may have grown by pages taken from the free list. *)
Record grows (root : Z) (s : kstate) (T : gmap (list Z) Z) (l : list Z)
    (s' : kstate) (T' : gmap (list Z) Z) (l' : list Z) : Prop := {
  gr_vm : vmst s' root T' l';
  gr_sub : T ⊆ T';
  gr_suffix : l' `suffix_of` l;
  gr_new π t : T' !! π = Some t -> T !! π = Some t \/ t ∈ l;
  gr_taken p : p ∈ l -> p ∈ l' \/ exists π, T' !! π = Some p;
  gr_mem : mem_frame T l (k_mem s) (k_mem s');
  gr_hart : hart_same s s';
  gr_only : only_mem s s';
}.

Lemma grows_refl root s T l : vmst s root T l -> grows root s T l s T l.
Proof. intros. split; auto; try done. Qed.

Lemma suffix_elem (l l' : list Z) x : l' `suffix_of` l -> x ∈ l' -> x ∈ l.
Proof. intros [k ->] ?. apply elem_of_app. by right. Qed.

Lemma grows_trans root s T l s1 T1 l1 s2 T2 l2 :
  grows root s T l s1 T1 l1 -> grows root s1 T1 l1 s2 T2 l2 -> grows root s T l s2 T2 l2.
Proof.
  intros [V1 S1 F1 N1 K1 M1 H1 O1] [V2 S2 F2 N2 K2 M2 H2 O2]. split; auto; try by etrans.
  - intros π t [E|E]%N2; [by apply N1|]. right. by eapply suffix_elem.
  - intros p [Hp|[π Hp]]%K1; [by apply K2|]. right. exists π. by eapply lookup_weaken.
  - intros x HT Hl. rewrite M2; [by apply M1| |].
    + intros π t [?|?]%N1; [by eapply HT|by apply Hl].
    + intros q Hq. apply Hl. by eapply suffix_elem.
Qed.

(** One leaf entry changed. *)
Lemma grows_store root s T l va v :
  vmst s root T l -> is_Some (T !! [PX 2 va; PX 1 va]) ->
  grows root s T l (s <| k_mem := store64 (k_mem s) (walk_at T va) v |>) T l.
Proof.
  intros [Hf Hp Ht] [t E]. assert (Ew : walk_at T va = pte_addr t (PX 0 va)) by (unfold walk_at; by rewrite E).
  rewrite Ew. pose proof (pt_page _ _ _ Hp _ _ E) as [Hal Hrng].
  split; try done; ksimp.
  - split; ksimp; auto.
    + destruct Hf as (Hl & Hnd & Hok). split; [|done]. ksimp.
      eapply linked_ext; [|done]. intros q Hq. apply load64_store64_ne.
      pose proof (proj1 (Forall_forall _ _) Hok q Hq) as [Hqal _].
      destruct (page_disjoint t q) as [?|?]; auto.
      { intros ->. by eapply Ht. }
      all: pose proof (pte_in_page t (PX 0 va) (PX_range _ _)); unfold PGSIZE in *; lia.
    + by eapply pt_store_leaf; [|exact E|apply PX_range].
  - intros π' t' ?. by left.
  - intros p ?. by left.
  - intros x HT _. apply rd_store64_ne. pose proof (HT _ _ E) as Hn.
    destruct (Z.leb_spec (pte_addr t (PX 0 va)) x); [|lia].
    destruct (Z.leb_spec (pte_addr t (PX 0 va) + 8) x); [lia|].
    destruct Hn. apply (in_page_pte t (PX 0 va)); [apply PX_range|lia].
Qed.

(** Taking one free page for a new table, as [walk] does. *)
Lemma wp_grow_table s root T l π t i (k : Z -> K Z) (Q : Z -> kstate -> Prop) :
  0 < sym_end -> hart_wf s -> Lkmem ∉ k_held s -> vmst s root T l ->
  T !! π = Some t -> (length π < 2)%nat -> 0 <= i < 512 -> T !! (π ++ [i]) = None ->
  (l = [] -> forall s', grows root s T l s' T [] ->
     (forall va, pte_of (k_mem s') T va = pte_of (k_mem s) T va) -> Q 0 s') ->
  (forall page l' s', l = page :: l' -> grows root s T l s' (<[π ++ [i] := page]> T) l' ->
     (forall va, pte_of (k_mem s') (<[π ++ [i] := page]> T) va = pte_of (k_mem s) T va) ->
     wp (k page) s' Q) ->
  wp (let! page := kalloc in
      if page =? 0 then ret 0 else
      modify (upd k_mem (fun m => memset m page 0 PGSIZE)) ;!
      st64 (pte_addr t i) (Z.lor (PA2PTE page) PTE_V) ;!
      k page) s Q.
Proof.
  intros Himg Hw Hlk [Hf Hp Htab] Ht Hlen Hi Hnone Hnil Hcons. wp_step.
  apply (wp_kalloc s l); auto. intros r s1 Hh Ho Hpost.
  destruct l as [|page l]; cbn [kalloc_post] in Hpost.
  { destruct Hpost as (-> & Hm & Hf1). rewrite Z.eqb_refl. wp_step. apply Hnil; [done| |by rewrite Hm].
    split; auto; try done.
    - split; [done|by rewrite Hm|done].
    - intros x _ _. by rewrite Hm. }
  destruct Hpost as (-> & Hm & Hf1).
  destruct Hf as (_ & Hnd & Hok). apply Forall_cons in Hok as [Hpok Hok]. apply NoDup_cons in Hnd as [Hpn Hnd].
  assert (Hpt : forall π t x, T !! π = Some t -> in_page t x -> ~ in_page page x).
  { intros π' t' x Ht' Hx. refine (in_page_disj t' page x (pt_page _ _ _ Hp _ _ Ht') Hpok _ Hx).
    intros ->. apply (Htab _ _ Ht'). left. }
  rewrite (proj2 (Z.eqb_neq page 0)) by (destruct Hpok; lia).
  unfold st64. repeat wp_step. apply (Hcons page l); [done| |].
  all: destruct (pt_ext (k_mem s) (k_mem s1) root T Hp) as [Hp1 Hpe1].
  1,3: intros π' t' x Ht' Hx; rewrite Hm; pose proof (Hpt _ _ _ Ht' Hx); unfold in_page in *;
    destruct (Z.leb_spec page x), (Z.ltb_spec x (page + PGSIZE)); simpl; try done; lia.
  all: destruct (pt_grow (k_mem s1) root T π t i page) as [Hp2 Hpe2]; auto;
    [intros π' t' Ht' ->; apply (Htab _ _ Ht'); left|].
  2: { intros va. ksimp. by rewrite Hpe2. }
  destruct (pt_page _ _ _ Hp _ _ Ht) as [Htal _].
  split; ksimp; auto.
  - split; ksimp; auto.
    + destruct Hf1 as (Hl1 & _ & _). split; [|done]. ksimp.
      apply linked_ext with (m := memset (k_mem s1) page 0 PGSIZE).
      * intros q Hq. apply load64_store64_ne.
        pose proof (proj1 (Forall_forall _ _) Hok q Hq) as [Hqal _].
        destruct (page_disjoint t q) as [?|?]; auto.
        { intros ->. apply (Htab _ _ Ht). by right. }
        all: pose proof (pte_in_page t i Hi); unfold PGSIZE in *; lia.
      * apply linked_memset; auto. apply Hpok.
    + intros π' t' Ht'. destruct (decide (π' = π ++ [i])) as [->|].
      * rewrite lookup_insert_eq in Ht'. by simplify_eq.
      * rewrite lookup_insert_ne in Ht' by done. intros ?. apply (Htab _ _ Ht'). by right.
  - by apply insert_subseteq.
  - by exists [page].
  - intros π' t'. destruct (decide (π' = π ++ [i])) as [->|].
    + rewrite lookup_insert_eq. intros [= ->]. right. left.
    + rewrite lookup_insert_ne by done. by left.
  - intros p [->|?]%elem_of_cons; [|by left]. right. exists (π ++ [i]). apply lookup_insert_eq.
  - intros x HT Hl. pose proof (HT _ _ Ht) as Hnt. pose proof (Hl page ltac:(left)) as Hnp.
    unfold in_page in *. rewrite rd_store64_ne by (pose proof (pte_in_page t i Hi); lia).
    rewrite memset_spec, Hm by (unfold PGSIZE; lia).
    destruct (Z.leb_spec page x), (Z.ltb_spec x (page + PGSIZE)); simpl; try done; lia.
  - etrans; [exact Ho|]. etrans; apply only_mem_upd.
Qed.

(** [walk] with allocation: it fails only when the free pages run out,
    and otherwise the entry for [va] has a place. *)
Definition walk_path (level : nat) (va : Z) : list Z :=
  match level with O => [PX 2 va; PX 1 va] | S O => [PX 2 va] | _ => [] end.

Lemma wp_walk_loop level s root T l t va :
  0 < sym_end -> hart_wf s -> Lkmem ∉ k_held s -> vmst s root T l ->
  (level <= 2)%nat -> T !! walk_path level va = Some t ->
  wp (walk_loop level t va true) s (fun r s' => exists T' l',
    grows root s T l s' T' l' /\ (forall va', pte_of (k_mem s') T' va' = pte_of (k_mem s) T va') /\
    ((r = 0 /\ l' = [] /\ (length l < level)%nat) \/
     (r = walk_at T' va /\ r <> 0 /\ is_Some (T' !! [PX 2 va; PX 1 va]) /\ (length l <= length l' + level)%nat))).
Proof.
  intros Himg. revert s T l t. induction level as [|level IH]; intros s T l t Hw Hlk Hv Hle Ht.
  { simpl in *. apply wp_ret. exists T, l. split; [by apply grows_refl|]. split; [done|].
    right. unfold walk_at. rewrite Ht. pose proof (pt_page _ _ _ (vm_pt _ _ _ _ Hv) _ _ Ht) as [_ ?].
    pose proof (PX_range 0 va). unfold pte_addr. split; [done|]. split; [lia|]. split; [eauto|lia]. }
  assert (Hpath : walk_path level va = walk_path (S level) va ++ [PX (Z.of_nat (S level)) va]).
  { destruct level as [|[|]]; try done. lia. }
  assert (Hlen : (length (walk_path (S level) va) < 2)%nat) by (destruct level; simpl; lia).
  set (i := PX (Z.of_nat (S level)) va) in *.
  pose proof (pt_node _ _ _ (vm_pt _ _ _ _ Hv) _ _ i Ht Hlen (PX_range _ _)) as Hn.
  rewrite <- Hpath in Hn. cbn [walk_loop]. wp_step. unfold ld64. wp_step. fold i.
  destruct (valid (load64 (k_mem s) (pte_addr t i))).
  { eapply wp_mono; [apply (IH s T l); auto; lia|]. intros r s' (T2 & l2 & Hg2 & Hpe2 & Hr). exists T2, l2.
    split; [done|]. split; [done|]. destruct Hr as [(?&?&?)|(?&?&?&?)]; [left|right]; repeat split; (done || lia). }
  cbn [negb]. apply (wp_grow_table s root T l (walk_path (S level) va) t i); auto.
  - apply PX_range.
  - by rewrite <- Hpath.
  - intros -> s' Hg Hpe. exists T, []. split; [done|]. split; [done|]. left. repeat split. cbn [length]. lia.
  - intros page l' s' -> Hg Hpe.
    eapply wp_mono; [apply (IH s' (<[walk_path (S level) va ++ [i] := page]> T) l' page)|].
    + eapply hart_same_wf; [apply Hg|done].
    + by destruct (gr_hart _ _ _ _ _ _ _ Hg) as [-> _].
    + apply Hg.
    + lia.
    + rewrite Hpath. apply lookup_insert_eq.
    + intros r s'' (T2 & l2 & Hg2 & Hpe2 & Hr). exists T2, l2.
      split; [by eapply grows_trans|]. split; [intros va'; by rewrite Hpe2, Hpe|]. cbn [length].
      destruct Hr as [(?&?&?)|(?&?&?&?)]; [left|right]; repeat split; (done || lia).
Qed.

Lemma wp_walk s root T l va :
  0 < sym_end -> hart_wf s -> Lkmem ∉ k_held s -> vmst s root T l -> va < MAXVA ->
  wp (walk root va true) s (fun r s' => exists T' l',
    grows root s T l s' T' l' /\ (forall va', pte_of (k_mem s') T' va' = pte_of (k_mem s) T va') /\
    ((r = 0 /\ l' = [] /\ (length l < 2)%nat) \/
     (r = walk_at T' va /\ r <> 0 /\ is_Some (T' !! [PX 2 va; PX 1 va]) /\ (length l <= length l' + 2)%nat))).
Proof.
  intros Himg Hw Hlk Hv Hva. unfold walk. rewrite (proj2 (Z.leb_gt _ _)) by done.
  apply (wp_walk_loop 2 s root T l); auto. apply (pt_root _ _ _ (vm_pt _ _ _ _ Hv)).
Qed.

(** The entries after [k] pages from [a] on were mapped to the frames
    from [pa] on. *)
Definition mapped (k a pa perm : Z) (old : Z -> Z) (va : Z) : Z :=
  if (a <=? va) && (va <? a + k * PGSIZE)
  then Z.lor (Z.lor (PA2PTE (pa + (PGROUNDDOWN va - a))) perm) PTE_V
  else old va.

Lemma mapped_0 a pa perm old va : mapped 0 a pa perm old va = old va.
Proof. unfold mapped. destruct (Z.leb_spec a va), (Z.ltb_spec va (a + 0 * PGSIZE)); simpl; auto; lia. Qed.

Lemma mapped_S k a pa perm old va : 0 <= k -> a mod PGSIZE = 0 ->
  mapped (k + 1) a pa perm old va =
  mapped k (a + PGSIZE) (pa + PGSIZE) perm
    (fun va => if a =? PGROUNDDOWN va then Z.lor (Z.lor (PA2PTE pa) perm) PTE_V else old va) va.
Proof.
  intros Hk Ha. unfold mapped. pose proof (PGROUNDDOWN_spec va) as [Hd Hr].
  replace (pa + PGSIZE + (PGROUNDDOWN va - (a + PGSIZE))) with (pa + (PGROUNDDOWN va - a)) by lia.
  assert (0 < PGSIZE) by (unfold PGSIZE; lia).
  destruct (Z.leb_spec (a + PGSIZE) va), (Z.ltb_spec va (a + PGSIZE + k * PGSIZE)),
    (Z.leb_spec a va), (Z.ltb_spec va (a + (k + 1) * PGSIZE)), (Z.eqb_spec a (PGROUNDDOWN va));
    simpl; auto; try lia.
  - rewrite e. do 3 f_equal. lia.
  - destruct (page_disjoint a (PGROUNDDOWN va)) as [?|?]; auto; lia.
Qed.

Lemma perm_V pa perm : Z.lor (Z.lor (PA2PTE pa) perm) PTE_V = Z.lor (PA2PTE pa) (Z.lor perm PTE_V).
Proof. by rewrite Z.lor_assoc. Qed.

Lemma PGROUNDDOWN_bound va : 0 <= va < MAXVA -> 0 <= PGROUNDDOWN va < MAXVA.
Proof.
  intros. pose proof (PGROUNDDOWN_spec va) as [_ ?]. split; [|lia].
  rewrite PGROUNDDOWN_eq in *. pose proof (Z.mod_le va PGSIZE ltac:(lia) ltac:(done)). lia.
Qed.

Lemma load_walk_at m T va : is_Some (T !! [PX 2 va; PX 1 va]) -> load64 m (walk_at T va) = pte_of m T va.
Proof. intros [t E]. unfold walk_at, pte_of. by rewrite E. Qed.

Lemma walk_at_nz m root T va :
  0 < sym_end -> pt m root T -> is_Some (T !! [PX 2 va; PX 1 va]) -> walk_at T va <> 0.
Proof.
  intros ? Hp [t E]. unfold walk_at. rewrite E. pose proof (pt_page _ _ _ Hp _ _ E) as [_ ?].
  pose proof (PX_range 0 va). unfold pte_addr. lia.
Qed.

(** One round of mappages. *)
Lemma wp_map_one s root T l a pa perm (k : K Z) (Q : Z -> kstate -> Prop) :
  0 < sym_end -> hart_wf s -> Lkmem ∉ k_held s -> vmst s root T l ->
  a mod PGSIZE = 0 -> 0 <= a < MAXVA -> pa_ok pa -> 0 <= perm < 1024 ->
  valid (pte_of (k_mem s) T a) = false ->
  (forall s' T', grows root s T l s' T' [] -> (length l < 2)%nat ->
     (forall va, pte_of (k_mem s') T' va = pte_of (k_mem s) T va) -> Q (-1) s') ->
  (forall s' T' l', grows root s T l s' T' l' -> (length l <= length l' + 2)%nat ->
     (forall va, 0 <= va < VAEND -> pte_of (k_mem s') T' va =
        if a =? PGROUNDDOWN va then Z.lor (Z.lor (PA2PTE pa) perm) PTE_V
        else pte_of (k_mem s) T va) -> wp k s' Q) ->
  wp (let! pte := walk root a true in
      if pte =? 0 then ret (-1) else
      let! e := ld64 pte in
      if valid e then panic "mappages: remap" else
      st64 pte (Z.lor (Z.lor (PA2PTE pa) perm) PTE_V) ;! k) s Q.
Proof.
  intros Himg Hw Hlk Hv Ha Hr Hpa Hperm Hval Hfail Hok. wp_step.
  eapply wp_mono; [apply (wp_walk s root T l a); auto; lia|].
  intros r s1 (T1 & l1 & Hg & Hpe & [(-> & -> & Hl)|(-> & Hnz & Hsome & Hl)]).
  { rewrite Z.eqb_refl. apply wp_ret. by apply (Hfail s1 T1). }
  rewrite (proj2 (Z.eqb_neq _ _)) by done. unfold ld64, st64. repeat wp_step.
  rewrite load_walk_at, Hpe, Hval by done. do 2 wp_step.
  assert (Hf : 0 <= Z.lor perm PTE_V < 1024) by by apply flags_lor_V.
  apply (Hok _ T1 l1).
  - eapply grows_trans; [done|]. by apply grows_store; [apply Hg|].
  - done.
  - intros va Hva. ksimp.
    rewrite (pte_of_store_leaf (k_mem s1) root T1 a _ va (vm_pt _ _ _ _ (gr_vm _ _ _ _ _ _ _ Hg)) Hr Hva Hsome)
      by (rewrite perm_V; by apply mk_pte_range).
    by rewrite PGROUNDDOWN_aligned, Hpe.
Qed.

Lemma wp_mappages_loop fuel n s root T l a pa perm :
  0 < sym_end -> hart_wf s -> Lkmem ∉ k_held s -> vmst s root T l ->
  (n < fuel)%nat -> a mod PGSIZE = 0 -> 0 <= a -> a + Z.of_nat n * PGSIZE < MAXVA ->
  pa_ok pa -> pa + Z.of_nat n * PGSIZE < 2 ^ 56 -> 0 <= perm < 1024 ->
  (forall va, a <= va < a + (Z.of_nat n + 1) * PGSIZE -> valid (pte_of (k_mem s) T va) = false) ->
  wp (mappages_loop fuel root a (a + Z.of_nat n * PGSIZE) pa perm) s (fun r s' => exists T' l' k,
    grows root s T l s' T' l' /\
    (forall va, 0 <= va < VAEND ->
       pte_of (k_mem s') T' va = mapped k a pa perm (pte_of (k_mem s) T) va) /\
    ((r = 0 /\ k = Z.of_nat n + 1) \/
     (r = -1 /\ (0 <= k <= Z.of_nat n /\ Z.of_nat (length l) < 2 * k + 2) /\ l' = []))).
Proof.
  intros Himg. revert fuel s T l a pa.
  assert (HPG : 0 < PGSIZE) by (unfold PGSIZE; lia).
  induction n as [|n IH]; intros [|fuel] s T l a pa Hw Hlk Hv Hfuel Ha Ha0 Hmax Hpa Hpam Hperm Hfree;
    try lia; cbn [mappages_loop]; apply (wp_map_one s root T l); auto; try (unfold PGSIZE in *; lia);
    try (apply Hfree; unfold PGSIZE in *; lia).
  - intros s' T' Hg Hl Hpe. exists T', [], 0. split; [done|]. split; [|right; repeat split; (done || lia)].
    intros va _. by rewrite mapped_0.
  - intros s' T' l' Hg Hl Hpe. rewrite Z.mul_0_l, Z.add_0_r, Z.eqb_refl. apply wp_ret.
    exists T', l', 1. split; [done|]. split; [|left; lia]. intros va Hva. rewrite Hpe by done.
    change 1 with (0 + 1) at 1. rewrite mapped_S, mapped_0 by (done || lia). done.
  - intros s' T' Hg Hl Hpe. exists T', [], 0. split; [done|]. split; [|right; repeat split; (done || lia)].
    intros va _. by rewrite mapped_0.
  - intros s' T' l' Hg Hl Hpe. rewrite (proj2 (Z.eqb_neq _ _)) by (unfold PGSIZE; lia).
    assert (MAXVA < 2 ^ 64) by done.
    rewrite !u64_small by (destruct Hpa; unfold PGSIZE in *; lia).
    replace (a + Z.of_nat (S n) * PGSIZE) with (a + PGSIZE + Z.of_nat n * PGSIZE) by (unfold PGSIZE; lia).
    eapply wp_mono; [apply (IH fuel s' T' l')|].
    + eapply hart_same_wf; [apply Hg|done].
    + by destruct (gr_hart _ _ _ _ _ _ _ Hg) as [-> _].
    + apply Hg.
    + lia.
    + by apply pg_aligned_step.
    + lia.
    + unfold PGSIZE in *; lia.
    + destruct Hpa. split; [by apply pg_aligned_step|unfold PGSIZE in *; lia].
    + unfold PGSIZE in *; lia.
    + done.
    + assert (a + Z.of_nat (S n) * PGSIZE + PGSIZE <= MAXVA).
      { change MAXVA with (2 ^ 26 * PGSIZE) in *. apply Z.mod_divide in Ha as [q ->]; [|done].
        unfold PGSIZE in *. lia. }
      intros va Hva. rewrite Hpe by (pose proof MAXVA_VAEND; unfold PGSIZE in *; lia).
      pose proof (PGROUNDDOWN_spec va) as [_ ?].
      rewrite (proj2 (Z.eqb_neq _ _)) by lia. apply Hfree. lia.
    + intros r s'' (T2 & l2 & k & Hg2 & Hpe2 & Hr). exists T2, l2, (k + 1).
      split; [by eapply grows_trans|]. split; [|destruct Hr as [[??]|(?&?&?)]; [left|right]; repeat split; (done || lia)].
      intros va Hva. rewrite Hpe2, mapped_S by (destruct Hr; (done || lia)).
      unfold mapped. case_match; [done|]. by apply Hpe.
Qed.

(** mappages on a page-aligned range of unmapped pages below MAXVA. *)
Lemma wp_mappages s root T l va size pa perm :
  0 < sym_end -> hart_wf s -> Lkmem ∉ k_held s -> vmst s root T l ->
  va mod PGSIZE = 0 -> 0 <= va -> 0 < size -> size mod PGSIZE = 0 -> va + size <= MAXVA ->
  pa_ok pa -> pa + size <= 2 ^ 56 -> 0 <= perm < 1024 ->
  (forall a, va <= a < va + size -> valid (pte_of (k_mem s) T a) = false) ->
  wp (mappages root va size pa perm) s (fun r s' => exists T' l' k,
    grows root s T l s' T' l' /\
    (forall a, 0 <= a < VAEND ->
       pte_of (k_mem s') T' a = mapped k va pa perm (pte_of (k_mem s) T) a) /\
    ((r = 0 /\ k = size / PGSIZE) \/
     (r = -1 /\ (0 <= k < size / PGSIZE /\ Z.of_nat (length l) < 2 * k + 2) /\ l' = []))).
Proof.
  intros Himg Hw Hlk Hv Hva Hva0 Hsz Hszal Hmax Hpa Hpam Hperm Hfree.
  assert (HPG : PGSIZE = 4096) by done.
  apply Z.mod_divide in Hszal as [n ->]; [|done].
  unfold mappages. rewrite (proj2 (Z.eqb_neq _ _)) by lia.
  rewrite (PGROUNDDOWN_aligned va) by done.
  assert (MAXVA < 2 ^ 64) by done. rewrite u64_small by lia.
  assert (PGROUNDDOWN (va + n * PGSIZE - 1) = va + Z.of_nat (Z.to_nat (n - 1)) * PGSIZE) as ->.
  { rewrite Z2Nat.id by lia. rewrite PGROUNDDOWN_eq.
    apply Z.mod_divide in Hva as [q ->]; [|done].
    replace (q * PGSIZE + n * PGSIZE - 1) with (PGSIZE - 1 + (q + n - 1) * PGSIZE) by lia.
    rewrite Z.mod_add by done. rewrite Z.mod_small by lia. lia. }
  rewrite Z.div_mul by done.
  eapply wp_mono; [apply (wp_mappages_loop _ (Z.to_nat (n - 1)) s root T l); auto|].
  - unfold mappages_fuel. rewrite (proj2 (Z.leb_le _ _)) by lia.
    rewrite Z.min_l by lia. replace (va + Z.of_nat (Z.to_nat (n - 1)) * PGSIZE - va) with ((n - 1) * PGSIZE) by lia.
    rewrite Z.div_mul by done. lia.
  - lia.
  - lia.
  - intros a Ha. apply Hfree. lia.
  - intros r s' (T' & l' & k & Hg & Hpe & Hr). exists T', l', k. split; [done|]. split; [done|].
    destruct Hr as [[??]|(?&?&?)]; [left|right]; repeat split; (done || lia).
Qed.

(** An entry that is already valid stops mappages. *)
Lemma mappages_remap s root T va size pa perm :
  0 < sym_end -> pt (k_mem s) root T -> 0 <= va < MAXVA -> size <> 0 ->
  valid (pte_of (k_mem s) T (PGROUNDDOWN va)) = true ->
  mappages root va size pa perm s = Panic "mappages: remap" s.
Proof.
  intros Himg Hp Hva Hsz Hval. unfold mappages. rewrite (proj2 (Z.eqb_neq _ _)) by done.
  set (a := PGROUNDDOWN va) in *. set (last := PGROUNDDOWN (u64 (va + size - 1))).
  assert (exists n, mappages_fuel a last = S n) as [n ->].
  { unfold mappages_fuel. assert (MAXVA = 274877906944) by done. assert (PGSIZE = 4096) by done.
    pose proof (Z.div_pos MAXVA PGSIZE ltac:(lia) ltac:(lia)).
    destruct (Z.leb_spec a last); [|exists (Z.to_nat (MAXVA / PGSIZE + 1)); lia].
    pose proof (Z.div_pos (Z.min (last - a) MAXVA) PGSIZE ltac:(lia) ltac:(lia)).
    exists (Z.to_nat (Z.min (last - a) MAXVA / PGSIZE + 1)). lia. }
  cbn [mappages_loop].
  assert (Hab : a < MAXVA) by apply (PGROUNDDOWN_bound va Hva).
  assert (Hsome : is_Some (T !! [PX 2 a; PX 1 a])).
  { unfold pte_of in Hval. destruct (T !! [PX 2 a; PX 1 a]); [eauto|done]. }
  rewrite (bind_done _ _ s _ _ (walk_lookup_gen s root T a true Hp Hab (or_intror Hsome))).
  rewrite (proj2 (Z.eqb_neq _ _)) by (by apply (walk_at_nz _ _ _ _ Himg Hp)).
  unfold ld64. rewrite (bind_done _ _ s (pte_of (k_mem s) T a) s).
  - by rewrite Hval.
  - unfold gets. by rewrite load_walk_at.
Qed.

(** ** User addresses *)

(** The frame a user access to [va] goes to, 0 when there is none. *)
Definition user_pa (m : gmap Z Z) (T : gmap (list Z) Z) (va : Z) : Z :=
  if MAXVA <=? va then 0 else
  let e := pte_of m T va in
  if valid e && user e then PTE2PA e else 0.

(** The byte user code reads at [va]. *)
Definition ubyte (m : gmap Z Z) (T : gmap (list Z) Z) (va : Z) : Z :=
  rd m (user_pa m T va + va mod PGSIZE).

Definition range_ok (m : gmap Z Z) (T : gmap (list Z) Z) (va len : Z) : Prop :=
  forall a, va <= a < va + len -> user_pa m T a <> 0.

Lemma pte_of_rounddown m T va : pte_of m T (PGROUNDDOWN va) = pte_of m T va.
Proof. unfold pte_of. by rewrite !PX_rounddown by lia. Qed.
Lemma MAXVA_rounddown va : (MAXVA <=? PGROUNDDOWN va) = (MAXVA <=? va).
Proof.
  pose proof (PGROUNDDOWN_spec va) as [Hal Hr]. change MAXVA with (2 ^ 26 * PGSIZE).
  apply Z.mod_divide in Hal as [q Hq]; [|done]. rewrite Hq in *. unfold PGSIZE in *.
  destruct (Z.leb_spec (2 ^ 26 * 4096) (q * 4096)), (Z.leb_spec (2 ^ 26 * 4096) va); lia.
Qed.
Lemma user_pa_rounddown m T va : user_pa m T (PGROUNDDOWN va) = user_pa m T va.
Proof. unfold user_pa. by rewrite MAXVA_rounddown, pte_of_rounddown. Qed.
Lemma rounddown_add va k : va mod PGSIZE = 0 -> 0 <= k < PGSIZE -> PGROUNDDOWN (va + k) = va.
Proof.
  intros Hal Hk. rewrite PGROUNDDOWN_eq. apply Z.mod_divide in Hal as [q ->]; [|done].
  rewrite Z.add_comm, Z.mod_add, Z.mod_small by (done || lia). lia.
Qed.

Lemma PTE2PA_aligned e : PTE2PA e mod PGSIZE = 0.
Proof.
  unfold PTE2PA. rewrite Z.shiftl_mul_pow2 by lia. change (2 ^ 12) with PGSIZE.
  rewrite u64_eq. change (2 ^ 64) with (PGSIZE * 2 ^ 52).
  rewrite (Z.mul_comm (Z.shiftr e 10)), Z.mul_mod_distr_l by done.
  by rewrite Z.mul_comm, Z.mod_mul.
Qed.
Lemma user_pa_aligned m T va : user_pa m T va mod PGSIZE = 0.
Proof. unfold user_pa. repeat case_match; try done. apply PTE2PA_aligned. Qed.
Lemma user_pa_nonneg m T va : 0 <= user_pa m T va.
Proof. unfold user_pa. repeat case_match; try done. unfold PTE2PA. apply u64_range. Qed.

Lemma walkaddr_eq s root T va :
  0 < sym_end -> pt (k_mem s) root T -> walkaddr root va s = Done (user_pa (k_mem s) T va) s.
Proof.
  intros Himg Hp. unfold walkaddr, user_pa. destruct (Z.leb_spec MAXVA va); [done|].
  rewrite (bind_done _ _ s _ _ (walk_lookup s root T va Hp ltac:(lia))).
  destruct (T !! [PX 2 va; PX 1 va]) as [t|] eqn:E.
  - rewrite (proj2 (Z.eqb_neq _ _)) by (eapply walk_at_nz; eauto).
    unfold ld64, bind, gets. cbn [obind]. rewrite load_walk_at by eauto.
    destruct (valid _), (user _); done.
  - unfold walk_at, pte_of. by rewrite E.
Qed.

(** The bytes of a user range. *)
Definition ubytes (m : gmap Z Z) (T : gmap (list Z) Z) (va len : Z) : list Z :=
  map (ubyte m T) (seqZ va len).

Lemma ubytes_app m T va n k : 0 <= n -> 0 <= k ->
  ubytes m T va (n + k) = ubytes m T va n ++ ubytes m T (va + n) k.
Proof. intros. unfold ubytes. rewrite seqZ_app by done. by rewrite map_app. Qed.

Lemma mod_rounddown va : va mod PGSIZE = va - PGROUNDDOWN va.
Proof. rewrite PGROUNDDOWN_eq. lia. Qed.

(** Inside one page the user bytes are a block of physical memory. *)
Lemma same_page va k : 0 <= k < PGSIZE - (va - PGROUNDDOWN va) ->
  PGROUNDDOWN (va + k) = PGROUNDDOWN va.
Proof.
  intros. pose proof (PGROUNDDOWN_spec va) as [Hal Hr].
  replace (va + k) with (PGROUNDDOWN va + (va - PGROUNDDOWN va + k)) by lia.
  apply rounddown_add; [done|lia].
Qed.
Lemma user_pa_same_page m T va k : 0 <= k < PGSIZE - (va - PGROUNDDOWN va) ->
  user_pa m T (va + k) = user_pa m T va.
Proof.
  intros. rewrite <- (user_pa_rounddown m T va), <- (user_pa_rounddown m T (va + k)).
  by rewrite same_page.
Qed.
Lemma ubyte_same_page m T va k : 0 <= k < PGSIZE - (va - PGROUNDDOWN va) ->
  ubyte m T (va + k) = rd m (user_pa m T va + (va - PGROUNDDOWN va) + k).
Proof.
  intros. unfold ubyte. rewrite user_pa_same_page by done.
  rewrite mod_rounddown, same_page by done. f_equal. lia.
Qed.
Lemma ubytes_page m T va n : 0 <= n <= PGSIZE - (va - PGROUNDDOWN va) ->
  ubytes m T va n = get_bytes m (user_pa m T va + (va - PGROUNDDOWN va)) (Z.to_nat n).
Proof.
  intros Hn. apply list_eq. intros i.
  destruct (decide (i < Z.to_nat n)%nat).
  - rewrite get_bytes_lookup by done. unfold ubytes.
    change (map (ubyte m T) (seqZ va n)) with (ubyte m T <$> seqZ va n).
    rewrite list_lookup_fmap, lookup_seqZ_lt by lia. simpl. f_equal.
    apply ubyte_same_page. lia.
  - rewrite !lookup_ge_None_2; [done|rewrite get_bytes_length; lia|].
    unfold ubytes. rewrite length_map, length_seqZ. lia.
Qed.

(** ** copyin *)

(** The fuel of the page loops. *)
Definition copy_fuel (fuel va len : Z) : Prop :=
  va - PGROUNDDOWN va + len <= fuel * PGSIZE \/
  (MAXVA - PGROUNDDOWN va + PGSIZE <= fuel * PGSIZE /\ 1 <= fuel).

Lemma copy_fuel_init va len : 0 <= va -> 0 <= len ->
  copy_fuel (Z.of_nat (Z.to_nat (Z.min len MAXVA / PGSIZE + 2))) va len.
Proof.
  intros. assert (MAXVA = 2 ^ 26 * 4096) by done. pose proof (PGROUNDDOWN_spec va) as [_ ?].
  pose proof (Z.div_pos (Z.min len MAXVA) PGSIZE ltac:(lia) ltac:(done)).
  pose proof (Z.mul_div_le (Z.min len MAXVA) PGSIZE ltac:(done)).
  pose proof (Z.mul_succ_div_gt (Z.min len MAXVA) PGSIZE ltac:(done)).
  unfold copy_fuel. rewrite Z2Nat.id by lia. unfold PGSIZE in *.
  destruct (Z.leb_spec len MAXVA); [left|right]; lia.
Qed.

(** One round of a copy: [n] bytes up to the end of the page. *)
Definition chunk (va len : Z) : Z :=
  let n := PGSIZE - (va - PGROUNDDOWN va) in if len <? n then len else n.
Lemma chunk_range va len : 0 < len ->
  0 < chunk va len <= len /\ chunk va len <= PGSIZE - (va - PGROUNDDOWN va) /\
  (chunk va len < len -> va + chunk va len = PGROUNDDOWN va + PGSIZE).
Proof.
  intros. unfold chunk. pose proof (PGROUNDDOWN_spec va) as [_ ?].
  destruct (Z.ltb_spec len (PGSIZE - (va - PGROUNDDOWN va))); lia.
Qed.
Lemma copy_fuel_S fuel va len : 0 < len -> chunk va len < len -> PGROUNDDOWN va < MAXVA ->
  copy_fuel (Z.of_nat (S fuel)) va len ->
  copy_fuel (Z.of_nat fuel) (PGROUNDDOWN va + PGSIZE) (len - chunk va len).
Proof.
  intros Hl Hc Hm. pose proof (chunk_range va len Hl). pose proof (PGROUNDDOWN_spec va) as [Hal _].
  unfold copy_fuel. rewrite (PGROUNDDOWN_aligned (PGROUNDDOWN va + PGSIZE)) by by apply pg_aligned_step.
  change MAXVA with (2 ^ 26 * PGSIZE) in *.
  apply Z.mod_divide in Hal as [q Hq]; [|done]. rewrite Hq in *. unfold PGSIZE in *. lia.
Qed.
Lemma copy_fuel_0 va len : 0 < len -> copy_fuel 0 va len -> False.
Proof. unfold copy_fuel. pose proof (PGROUNDDOWN_spec va) as [_ ?]. lia. Qed.

Lemma user_pa_below m T va : user_pa m T va <> 0 -> va < MAXVA.
Proof. unfold user_pa. destruct (Z.leb_spec MAXVA va); [done|lia]. Qed.

Lemma range_ok_chunk m T va len : 0 < len -> user_pa m T va <> 0 ->
  range_ok m T va (chunk va len).
Proof.
  intros Hl Hu a Ha. pose proof (chunk_range va len Hl).
  replace a with (va + (a - va)) by lia. rewrite user_pa_same_page by lia. done.
Qed.

Lemma copyin_loop_eq fuel s root T va len :
  0 < sym_end -> pt (k_mem s) root T -> 0 <= va -> 0 <= len ->
  copy_fuel (Z.of_nat fuel) va len ->
  (range_ok (k_mem s) T va len /\
     copyin_loop fuel root va len s = Done (0, ubytes (k_mem s) T va len) s) \/
  (exists a bs, va <= a < va + len /\ user_pa (k_mem s) T a = 0 /\
     copyin_loop fuel root va len s = Done (-1, bs) s).
Proof.
  intros Himg Hp. revert va len. induction fuel as [|fuel IH]; intros va len Hva Hlen Hfuel;
    cbn [copyin_loop]; destruct (Z.ltb_spec 0 len).
  1: by destruct (copy_fuel_0 va len).
  1,3: assert (len = 0) as -> by lia; left; split; [intros ? ?; lia|done].
  rewrite (bind_done _ _ s _ _ (walkaddr_eq s root T _ Himg Hp)), user_pa_rounddown.
  destruct (Z.eqb_spec (user_pa (k_mem s) T va) 0) as [E|E].
  { right. exists va, []. split; [lia|]. done. }
  pose proof (chunk_range va len ltac:(lia)) as (Hc1 & Hc2 & Hc3).
  fold (chunk va len).
  rewrite (bind_done (memmove_in (user_pa (k_mem s) T va + (va - PGROUNDDOWN va)) (chunk va len)) _ s _ s eq_refl).
  pose proof (range_ok_chunk _ _ va len ltac:(lia) E) as Hrc.
  pose proof (user_pa_below _ _ _ E) as Hbel. pose proof (PGROUNDDOWN_bound va ltac:(lia)).
  assert (MAXVA = 2 ^ 38) by done.
  rewrite (u64_small (PGROUNDDOWN va + PGSIZE)) by (unfold PGSIZE in *; lia).
  assert (Hgoal : (range_ok (k_mem s) T (va + chunk va len) (len - chunk va len) /\
     copyin_loop fuel root (PGROUNDDOWN va + PGSIZE) (len - chunk va len) s =
       Done (0, ubytes (k_mem s) T (va + chunk va len) (len - chunk va len)) s) \/
    (exists a bs, va + chunk va len <= a < va + len /\ user_pa (k_mem s) T a = 0 /\
     copyin_loop fuel root (PGROUNDDOWN va + PGSIZE) (len - chunk va len) s = Done (-1, bs) s)).
  { destruct (Z.eq_dec (chunk va len) len) as [Ec|Ec].
    - left. rewrite Ec, Z.sub_diag. split; [intros ? ?; lia|]. by destruct fuel.
    - rewrite Hc3 by lia. destruct (IH (PGROUNDDOWN va + PGSIZE) (len - chunk va len)) as [?|(a & bs & ? & ?)].
      + lia. + lia. + apply copy_fuel_S; (done || lia). + by left.
      + right. exists a, bs. split; [lia|done]. }
  destruct Hgoal as [[Hr Heq]|(a & bs & Ha & Hu & Heq)].
  - left. split.
    + intros a Ha. destruct (Z.ltb_spec a (va + chunk va len)); [apply Hrc; lia|apply Hr; lia].
    + rewrite (bind_done _ _ s _ _ Heq). unfold ret. do 2 f_equal. cbn [snd].
      rewrite <- ubytes_page by lia. rewrite <- ubytes_app by lia. f_equal. lia.
  - right. eexists a, _. split; [lia|]. split; [done|]. by rewrite (bind_done _ _ s _ _ Heq).
Qed.

Lemma copyin_eq s root T va len :
  0 < sym_end -> pt (k_mem s) root T -> 0 <= va -> 0 <= len ->
  (range_ok (k_mem s) T va len /\
     copyin root va len s = Done (0, ubytes (k_mem s) T va len) s) \/
  (exists a bs, va <= a < va + len /\ user_pa (k_mem s) T a = 0 /\
     copyin root va len s = Done (-1, bs) s).
Proof. intros. apply copyin_loop_eq; auto. by apply copy_fuel_init. Qed.

(** ** copyout *)

(** User pages have frames of their own: none is a table page, and no two
    pages share one. *)
Record frames_ok (m : gmap Z Z) (T : gmap (list Z) Z) : Prop := {
  fr_tab va π t : 0 <= va -> user_pa m T va <> 0 -> T !! π = Some t -> t <> user_pa m T va;
  fr_inj va va' : 0 <= va -> 0 <= va' -> user_pa m T va = user_pa m T va' -> user_pa m T va <> 0 ->
    PGROUNDDOWN va = PGROUNDDOWN va';
}.

(** [m'] is [m] after the bytes [bs] were written at user address [va]. *)
Record uwrite (m m' : gmap Z Z) (root : Z) (T : gmap (list Z) Z) (va : Z) (bs : list Z) : Prop := {
  uw_pte a : pte_of m' T a = pte_of m T a;
  uw_pt : pt m' root T;
  uw_byte a : 0 <= a -> user_pa m T a <> 0 ->
    ubyte m' T a = if (va <=? a) && (a <? va + Z.of_nat (length bs))
                   then default 0 (bs !! Z.to_nat (a - va)) else ubyte m T a;
  uw_frame x : (forall a, va <= a < va + Z.of_nat (length bs) -> x <> user_pa m T a + a mod PGSIZE) ->
    rd m' x = rd m x;
}.

Lemma user_pa_pte m m' T : (forall a, pte_of m' T a = pte_of m T a) ->
  forall a, user_pa m' T a = user_pa m T a.
Proof. intros H a. unfold user_pa. by rewrite H. Qed.
Lemma frames_ok_pte m m' T : (forall a, pte_of m' T a = pte_of m T a) ->
  frames_ok m T -> frames_ok m' T.
Proof. intros H [F1 F2]. pose proof (user_pa_pte _ _ _ H) as Hu. split; setoid_rewrite Hu; auto. Qed.

Lemma uwrite_nil m root T va : pt m root T -> uwrite m m root T va [].
Proof.
  intros. split; auto. intros a ? ?. simpl. rewrite Z.add_0_r.
  destruct (Z.leb_spec va a), (Z.ltb_spec a va); simpl; auto; lia.
Qed.

Lemma uwrite_app m m1 m2 root T va bs1 bs2 :
  uwrite m m1 root T va bs1 -> uwrite m1 m2 root T (va + Z.of_nat (length bs1)) bs2 ->
  uwrite m m2 root T va (bs1 ++ bs2).
Proof.
  intros [P1 W1 B1 F1] [P2 W2 B2 F2]. pose proof (user_pa_pte _ _ _ P1) as Hu. split; auto.
  - intros a. by rewrite P2, P1.
  - intros a Ha Hua. rewrite B2, B1 by (rewrite ?Hu; done). rewrite length_app, Nat2Z.inj_add.
    rewrite lookup_app.
    destruct (Z.leb_spec (va + Z.of_nat (length bs1)) a),
      (Z.ltb_spec a (va + Z.of_nat (length bs1) + Z.of_nat (length bs2))),
      (Z.leb_spec va a), (Z.ltb_spec a (va + Z.of_nat (length bs1))),
      (Z.ltb_spec a (va + (Z.of_nat (length bs1) + Z.of_nat (length bs2)))); simpl; try lia; auto.
    + rewrite (lookup_ge_None_2 bs1) by lia. do 2 f_equal. lia.
    + destruct (lookup_lt_is_Some_2 bs1 (Z.to_nat (a - va))) as [b ->]; [lia|done].
  - intros x Hx. rewrite length_app, Nat2Z.inj_add in Hx. rewrite F2, F1; [done| |].
    + intros a Ha. apply Hx. lia.
    + intros a Ha. rewrite Hu. apply Hx. lia.
Qed.

(** A block inside one page. *)
Lemma uwrite_page m root T va bs :
  pt m root T -> frames_ok m T -> 0 <= va -> user_pa m T va <> 0 ->
  Z.of_nat (length bs) <= PGSIZE - (va - PGROUNDDOWN va) ->
  uwrite m (put_bytes m (user_pa m T va + (va - PGROUNDDOWN va)) bs) root T va bs.
Proof.
  intros Hp [Ft Fi] Hva Hu Hlen. set (m' := put_bytes _ _ _).
  pose proof (PGROUNDDOWN_spec va) as [_ Hr]. pose proof (user_pa_aligned m T va) as Hal.
  assert (Hout : forall x, ~ in_page (user_pa m T va) x -> rd m' x = rd m x).
  { intros x Hx. apply rd_put_bytes_out. unfold in_page in Hx. lia. }
  destruct (pt_ext m m' root T Hp) as [Hp' Hpte].
  { intros π t x Ht Hx. apply Hout. unfold in_page in *. intros Hx'.
    destruct (page_disjoint t (user_pa m T va)) as [?|?]; [by eapply pt_page|done|by eapply Ft|lia|lia]. }
  split; auto.
  - intros a Ha Hua. unfold ubyte. rewrite (user_pa_pte _ _ _ Hpte).
    pose proof (PGROUNDDOWN_spec a) as [_ Hra]. rewrite mod_rounddown.
    destruct (Z.eq_dec (user_pa m T a) (user_pa m T va)) as [E|E].
    + assert (HE : PGROUNDDOWN a = PGROUNDDOWN va) by (apply Fi; auto). rewrite E, HE. unfold m'.
      rewrite rd_put_bytes.
      destruct (Z.leb_spec va a), (Z.ltb_spec a (va + Z.of_nat (length bs)));
        destruct (Z.leb_spec (user_pa m T va + (va - PGROUNDDOWN va)) (user_pa m T va + (a - PGROUNDDOWN va)));
        simpl; try lia; try done.
      * replace (Z.to_nat _) with (Z.to_nat (a - va)) by lia.
        destruct (lookup_lt_is_Some_2 bs (Z.to_nat (a - va))) as [b ->]; [lia|done].
      * rewrite lookup_ge_None_2 by lia. done.
    + rewrite Hout.
      * destruct (Z.leb_spec va a), (Z.ltb_spec a (va + Z.of_nat (length bs))); simpl; try done.
        exfalso. apply E. replace a with (va + (a - va)) by lia. apply user_pa_same_page. lia.
      * intros Hx. unfold in_page in Hx.
        destruct (page_disjoint (user_pa m T a) (user_pa m T va)) as [?|?];
          [apply user_pa_aligned|done|done|lia|lia].
  - intros x Hx. apply rd_put_bytes_out.
    destruct (Z.ltb_spec x (user_pa m T va + (va - PGROUNDDOWN va))); [lia|].
    destruct (Z.leb_spec (user_pa m T va + (va - PGROUNDDOWN va) + Z.of_nat (length bs)) x); [lia|].
    set (k := x - (user_pa m T va + (va - PGROUNDDOWN va))).
    exfalso. apply (Hx (va + k)); [lia|]. rewrite user_pa_same_page by lia.
    rewrite mod_rounddown, same_page by lia. lia.
Qed.

Lemma copyout_loop_eq fuel s root T va src len :
  0 < sym_end -> pt (k_mem s) root T -> frames_ok (k_mem s) T -> 0 <= va -> 0 <= len ->
  len <= Z.of_nat (length src) -> copy_fuel (Z.of_nat fuel) va len ->
  exists s', s' = s <| k_mem := k_mem s' |> /\
  ((range_ok (k_mem s) T va len /\ copyout_loop fuel root va src len s = Done 0 s' /\
      uwrite (k_mem s) (k_mem s') root T va (take (Z.to_nat len) src)) \/
   (exists n, 0 <= n < len /\ range_ok (k_mem s) T va n /\ user_pa (k_mem s) T (va + n) = 0 /\
      copyout_loop fuel root va src len s = Done (-1) s' /\
      uwrite (k_mem s) (k_mem s') root T va (take (Z.to_nat n) src))).
Proof.
  intros Himg. revert s va src len. induction fuel as [|fuel IH];
    intros s va src len Hp Hf Hva Hlen Hsrc Hfuel; cbn [copyout_loop]; destruct (Z.ltb_spec 0 len).
  1: by destruct (copy_fuel_0 va len).
  1,3: assert (len = 0) as -> by lia; exists s; split; [by destruct s|]; left; rewrite take_0;
    split; [intros ? ?; lia|split; [done|by apply uwrite_nil]].
  rewrite (bind_done _ _ s _ _ (walkaddr_eq s root T _ Himg Hp)), user_pa_rounddown.
  destruct (Z.eqb_spec (user_pa (k_mem s) T va) 0) as [E|E].
  { exists s. split; [by destruct s|]. right. exists 0. rewrite Z.add_0_r, take_0.
    split; [lia|]. split; [intros ? ?; lia|]. split; [done|]. split; [done|]. by apply uwrite_nil. }
  pose proof (chunk_range va len ltac:(lia)) as (Hc1 & Hc2 & Hc3). fold (chunk va len).
  set (c := chunk va len) in *. set (a0 := user_pa (k_mem s) T va + (va - PGROUNDDOWN va)).
  set (s1 := s <| k_mem := put_bytes (k_mem s) a0 (take (Z.to_nat c) src) |>).
  assert (Hlen1 : Z.of_nat (length (take (Z.to_nat c) src)) = c) by (rewrite length_take; lia).
  assert (Hmv : memmove_out a0 src c s = Done tt s1).
  { unfold memmove_out. by rewrite (proj2 (Z.ltb_ge _ _)) by lia. }
  rewrite (bind_done _ _ s _ _ Hmv).
  assert (Hu1 : uwrite (k_mem s) (k_mem s1) root T va (take (Z.to_nat c) src)).
  { unfold s1. ksimp. apply uwrite_page; auto. lia. }
  pose proof (range_ok_chunk _ _ va len ltac:(lia) E) as Hrc. fold c in Hrc.
  pose proof (user_pa_below _ _ _ E) as Hbel. pose proof (PGROUNDDOWN_bound va ltac:(lia)).
  assert (HM : MAXVA = 2 ^ 38) by done.
  rewrite (u64_small (PGROUNDDOWN va + PGSIZE)) by (unfold PGSIZE in *; lia).
  pose proof (user_pa_pte _ _ _ (uw_pte _ _ _ _ _ _ Hu1)) as Hpa1.
  assert (Hsub : s1 = s <| k_mem := k_mem s1 |>) by (unfold s1; by ksimp).
  clearbody s1. destruct (Z.eq_dec c len) as [Ec|Ec].
  { exists s1. split; [done|]. left. rewrite Ec in *. split; [done|]. split; [|done].
    rewrite Z.sub_diag. by destruct fuel. }
  destruct (IH s1 (PGROUNDDOWN va + PGSIZE) (drop (Z.to_nat c) src) (len - c)) as (s' & Hs' & Hres).
  - apply Hu1.
  - apply (frames_ok_pte (k_mem s)); [apply Hu1|done].
  - unfold PGSIZE in *; lia.
  - lia.
  - rewrite length_drop. lia.
  - apply copy_fuel_S; (done || lia).
  - exists s'. split; [rewrite Hs', Hsub; by ksimp|].
    rewrite <- Hc3 in Hres |- * by lia.
    assert (Htk : forall n, 0 <= n -> take (Z.to_nat (c + n)) src =
      take (Z.to_nat c) src ++ take (Z.to_nat n) (drop (Z.to_nat c) src)).
    { intros n Hn. rewrite Z2Nat.inj_add by lia. by rewrite take_take_drop. }
    assert (Hrng : forall n, range_ok (k_mem s1) T (va + c) n -> range_ok (k_mem s) T va (c + n)).
    { intros n Hn a Ha. destruct (Z.ltb_spec a (va + c)); [apply Hrc; lia|].
      rewrite <- Hpa1. apply Hn. lia. }
    destruct Hres as [(Hr & Heq & Hw)|(n & Hn & Hr & Hz & Heq & Hw)]; [left|right; exists (c + n)].
    + replace len with (c + (len - c)) at 1 3 by lia. rewrite Htk by lia.
      split; [by apply Hrng|]. split; [done|]. eapply uwrite_app; [done|]. by rewrite Hlen1.
    + rewrite Htk by lia. split; [lia|]. split; [by apply Hrng|].
      split; [by rewrite Z.add_assoc, <- Hpa1|]. split; [done|].
      eapply uwrite_app; [done|]. by rewrite Hlen1.
Qed.

Lemma copyout_eq s root T va src len :
  0 < sym_end -> pt (k_mem s) root T -> frames_ok (k_mem s) T -> 0 <= va -> 0 <= len ->
  len <= Z.of_nat (length src) ->
  exists s', s' = s <| k_mem := k_mem s' |> /\
  ((range_ok (k_mem s) T va len /\ copyout root va src len s = Done 0 s' /\
      uwrite (k_mem s) (k_mem s') root T va (take (Z.to_nat len) src)) \/
   (exists n, 0 <= n < len /\ range_ok (k_mem s) T va n /\ user_pa (k_mem s) T (va + n) = 0 /\
      copyout root va src len s = Done (-1) s' /\
      uwrite (k_mem s) (k_mem s') root T va (take (Z.to_nat n) src))).
Proof. intros. apply copyout_loop_eq; auto. by apply copy_fuel_init. Qed.

(** ** Properties *)

(** C26. mappages on unmapped pages below MAXVA either maps them all to
    consecutive frames (result 0), or stops with -1, which happens only when
    no free page is left for a table, with a prefix of the range mapped: there
    were fewer than two free pages for each page of the prefix and the next.
    Every other entry of the table is as before, user memory and the
    locks are untouched, and the tree stays well formed. *)
Theorem mappages_spec s root T l va size pa perm :
  0 < sym_end -> hart_wf s -> Lkmem ∉ k_held s -> vmst s root T l ->
  va mod PGSIZE = 0 -> 0 <= va -> 0 < size -> size mod PGSIZE = 0 -> va + size <= MAXVA ->
  pa_ok pa -> pa + size <= 2 ^ 56 -> 0 <= perm < 1024 ->
  (forall a, va <= a < va + size -> valid (pte_of (k_mem s) T a) = false) ->
  exists r s' T' l' k, mappages root va size pa perm s = Done r s' /\
    grows root s T l s' T' l' /\
    (forall a, 0 <= a < VAEND ->
       pte_of (k_mem s') T' a = mapped k va pa perm (pte_of (k_mem s) T) a) /\
    ((r = 0 /\ k = size / PGSIZE) \/
     (r = -1 /\ (0 <= k < size / PGSIZE /\ Z.of_nat (length l) < 2 * k + 2) /\ l' = [])).
Proof.
  intros. destruct (proj1 (wp_done _ _ _) (wp_mappages s root T l va size pa perm ltac:(done) ltac:(done)
    ltac:(done) ltac:(done) ltac:(done) ltac:(done) ltac:(done) ltac:(done) ltac:(done) ltac:(done)
    ltac:(done) ltac:(done) ltac:(done))) as (r & s' & E & T' & l' & k & ?).
  exists r, s', T', l', k. done.
Qed.

(** Remapping is refused: an entry that is already valid makes mappages
    panic before it writes anything. *)
Theorem mappages_no_remap s root T va size pa perm :
  0 < sym_end -> pt (k_mem s) root T -> 0 <= va < MAXVA -> size <> 0 ->
  valid (pte_of (k_mem s) T (PGROUNDDOWN va)) = true ->
  mappages root va size pa perm s = Panic "mappages: remap" s.
Proof. apply mappages_remap. Qed.

(** copyin decides: it returns 0 with exactly the user's bytes when every
    page of the range is a user page, and -1 when some page is not; it
    always returns and never changes the state. *)
Theorem copyin_decides s root T va len :
  0 < sym_end -> pt (k_mem s) root T -> 0 <= va -> 0 <= len ->
  (range_ok (k_mem s) T va len /\
     copyin root va len s = Done (0, ubytes (k_mem s) T va len) s) \/
  (exists a bs, va <= a < va + len /\ user_pa (k_mem s) T a = 0 /\
     copyin root va len s = Done (-1, bs) s).
Proof. apply copyin_eq. Qed.

(** C27. Round trip through user memory: what copyout wrote, copyin reads
    back, across page boundaries, and no user byte outside the range
    changes; copyout succeeds exactly when every page of the range is
    a user page. *)
Theorem copyout_copyin s root T va src :
  0 < sym_end -> pt (k_mem s) root T -> frames_ok (k_mem s) T -> 0 <= va ->
  let len := Z.of_nat (length src) in
  (range_ok (k_mem s) T va len /\
     exists s', copyout root va src len s = Done 0 s' /\
       copyin root va len s' = Done (0, src) s' /\
       (forall a, 0 <= a -> user_pa (k_mem s) T a <> 0 -> a < va \/ va + len <= a ->
          ubyte (k_mem s') T a = ubyte (k_mem s) T a)) \/
  (~ range_ok (k_mem s) T va len /\ exists s', copyout root va src len s = Done (-1) s').
Proof.
  intros Himg Hp Hf Hva len.
  destruct (copyout_eq s root T va src len) as (s' & Hs & [(Hr & E & Hw)|(n & Hn & Hr & Hz & E & _)]); auto; try lia.
  - left. split; [done|]. exists s'. split; [done|].
    unfold len in Hw. rewrite Nat2Z.id, firstn_all in Hw.
    pose proof (user_pa_pte _ _ _ (uw_pte _ _ _ _ _ _ Hw)) as Hu.
    split.
    + destruct (copyin_eq s' root T va len) as [[_ E']|(a & bs & Ha & Hz & _)]; auto; try lia.
      * apply Hw.
      * rewrite E'. do 2 f_equal. apply list_eq. intros i. unfold ubytes.
        change (map (ubyte (k_mem s') T) (seqZ va len)) with (ubyte (k_mem s') T <$> seqZ va len).
        rewrite list_lookup_fmap. destruct (decide (i < length src)%nat) as [Hi|Hi].
        -- rewrite lookup_seqZ_lt by lia. simpl. rewrite (uw_byte _ _ _ _ _ _ Hw) by (try apply Hr; lia).
           rewrite (proj2 (Z.leb_le _ _)), (proj2 (Z.ltb_lt _ _)) by lia. simpl.
           replace (Z.to_nat (va + Z.of_nat i - va)) with i by lia.
           by destruct (lookup_lt_is_Some_2 src i Hi) as [b ->].
        -- rewrite lookup_seqZ_ge by lia. simpl. symmetry. apply lookup_ge_None_2. lia.
      * rewrite Hu in Hz. by destruct (Hr a).
    + intros a Ha Hua Hout. rewrite (uw_byte _ _ _ _ _ _ Hw) by done.
      destruct (Z.leb_spec va a), (Z.ltb_spec a (va + Z.of_nat (length src))); simpl; auto; lia.
  - right. split; [|eauto]. intros Hr'. apply (Hr' (va + n)); [lia|done].
Qed.

End tree.

(** ** Examples: a table with one user page *)

Section sample.
Local Existing Instance sample_image.

Definition ex_root : Z := 0x87fff000.
Definition ex_t1 : Z := 0x87ffe000.
Definition ex_t0 : Z := 0x87ffd000.
Definition ex_frame : Z := 0x87ffc000.

Definition ex_m1 : gmap Z Z :=
  store64 (memset ∅ ex_t1 0 PGSIZE) (pte_addr ex_root 0) (Z.lor (PA2PTE ex_t1) PTE_V).
Definition ex_m2 : gmap Z Z :=
  store64 (memset ex_m1 ex_t0 0 PGSIZE) (pte_addr ex_t1 0) (Z.lor (PA2PTE ex_t0) PTE_V).
Definition ex_T : gmap (list Z) Z := <[ [0; 0] := ex_t0 ]> (<[ [0] := ex_t1 ]> {[ [] := ex_root ]}).
(** Page 0 is mapped to [ex_frame] with V, R, W, U. *)
Definition ex_m3 : gmap Z Z :=
  store64 ex_m2 (pte_addr ex_t0 0) (Z.lor (PA2PTE ex_frame) 23).

Ltac page_ok_tac := repeat split; vm_compute; congruence.

Lemma ex_pt2 : pt ex_m2 ex_root ex_T /\ forall va, pte_of ex_m2 ex_T va = 0.
Proof.
  destruct (pt_grow ∅ ex_root {[ [] := ex_root ]} [] ex_root 0 ex_t1) as [H1 P1].
  - apply pt_empty. page_ok_tac.
  - apply lookup_insert_eq.
  - simpl; lia.
  - lia.
  - by apply lookup_singleton_ne.
  - page_ok_tac.
  - done.
  - intros π t Ht. apply lookup_singleton_Some in Ht as [_ <-]. done.
  - destruct (pt_grow ex_m1 ex_root (<[ [0] := ex_t1 ]> {[ [] := ex_root ]}) [0] ex_t1 0 ex_t0) as [H2 P2].
    + exact H1.
    + apply lookup_insert_eq.
    + simpl; lia.
    + lia.
    + simpl. rewrite lookup_insert_ne by done. by apply lookup_singleton_ne.
    + page_ok_tac.
    + done.
    + intros π t. destruct (decide (π = [0])) as [->|].
      * rewrite lookup_insert_eq. by intros [= <-].
      * rewrite lookup_insert_ne by done. intros Ht. apply lookup_singleton_Some in Ht as [_ <-]. done.
    + split; [exact H2|]. intros va. etrans; [apply P2|]. etrans; [apply P1|].
      unfold pte_of. rewrite lookup_singleton_ne by done. done.
Qed.

Lemma ex_T00 : ex_T !! [0; 0] = Some ex_t0.
Proof. apply lookup_insert_eq. Qed.
Lemma ex_walk_at : walk_at ex_T 0 = pte_addr ex_t0 0.
Proof. unfold walk_at. change (PX 2 0) with 0. change (PX 1 0) with 0. by rewrite ex_T00. Qed.
Lemma ex_pt3 : pt ex_m3 ex_root ex_T.
Proof. eapply pt_store_leaf; [apply ex_pt2|apply ex_T00|lia]. Qed.
Lemma ex_pte va : 0 <= va < MAXVA ->
  pte_of ex_m3 ex_T va = if 0 =? PGROUNDDOWN va then Z.lor (PA2PTE ex_frame) 23 else 0.
Proof.
  intros Hva. unfold ex_m3. rewrite <- ex_walk_at.
  rewrite (pte_of_store_leaf _ ex_root _ 0 _ va (proj1 ex_pt2)).
  - by rewrite (proj2 ex_pt2).
  - split; [done|]. vm_compute; congruence.
  - pose proof MAXVA_VAEND; lia.
  - eexists. apply ex_T00.
  - apply mk_pte_range; [|lia]. split; vm_compute; auto; split; congruence.
Qed.
Lemma ex_user_pa va : 0 <= va -> user_pa ex_m3 ex_T va = if va <? PGSIZE then ex_frame else 0.
Proof.
  intros Hva. unfold user_pa. pose proof (PGROUNDDOWN_spec va) as [Hal Hr].
  assert (MAXVA = 2 ^ 26 * 4096) as HM by done. assert (PGSIZE = 4096) as HP by done.
  destruct (Z.leb_spec MAXVA va); [rewrite (proj2 (Z.ltb_ge _ _)) by lia; done|].
  rewrite ex_pte by lia. destruct (Z.eqb_spec 0 (PGROUNDDOWN va)) as [E|E].
  - rewrite (proj2 (Z.ltb_lt _ _)) by lia. reflexivity.
  - assert (PGSIZE <= PGROUNDDOWN va).
    { apply Z.mod_divide in Hal as [q Hq]; [|done]. rewrite Hq in *. rewrite HP in *. lia. }
    rewrite (proj2 (Z.ltb_ge _ _)) by lia. done.
Qed.
Lemma ex_tables π t : ex_T !! π = Some t -> t = ex_root \/ t = ex_t1 \/ t = ex_t0.
Proof.
  unfold ex_T. intros H. apply lookup_insert_Some in H as [[_ <-] | [_ H]]; [auto|].
  apply lookup_insert_Some in H as [[_ <-] | [_ H]]; [auto|].
  apply lookup_singleton_Some in H as [_ <-]. auto.
Qed.
Lemma ex_frames : frames_ok ex_m3 ex_T.
Proof.
  split.
  - intros va π t Hva. rewrite ex_user_pa by done. destruct (va <? PGSIZE); [|done]. intros _ Ht.
    apply ex_tables in Ht as [-> | [-> | ->]]; vm_compute; congruence.
  - intros va va' Hva Hva'. rewrite !ex_user_pa by done.
    destruct (Z.ltb_spec va PGSIZE), (Z.ltb_spec va' PGSIZE); intros E Hn; try done.
    by rewrite !PGROUNDDOWN_eq, !Z.mod_small, !Z.sub_diag by lia.
Qed.
Definition ex_s : kstate := bss <| k_mem := ex_m3 |>.

Lemma mappages_spec_witness :
  exists r s', mappages ex_root 0 PGSIZE ex_frame 22 (bss <| k_mem := ex_m2 |>) = Done r s' /\
    (r = 0 \/ r = -1).
Proof.
  destruct (mappages_spec (bss <| k_mem := ex_m2 |>) ex_root ex_T [] 0 PGSIZE ex_frame 22)
    as (r & s' & T' & l' & k & E & _ & _ & Hr).
  - done.
  - split; done.
  - apply not_elem_of_nil.
  - split; [split; [done|split; constructor]|apply ex_pt2|intros; apply not_elem_of_nil].
  - done.
  - done.
  - done.
  - done.
  - vm_compute; congruence.
  - split; vm_compute; auto; split; congruence.
  - vm_compute; congruence.
  - lia.
  - intros a _. change (k_mem (bss <| k_mem := ex_m2 |>)) with ex_m2. by rewrite (proj2 ex_pt2).
  - exists r, s'. split; [exact E|]. destruct Hr as [[Hr _]|(Hr & _)]; [left|right]; exact Hr.
Defined.

Lemma mappages_no_remap_witness :
  mappages ex_root 0 PGSIZE ex_t1 22 ex_s = Panic "mappages: remap" ex_s.
Proof.
  apply (mappages_no_remap ex_s ex_root ex_T).
  - done.
  - exact ex_pt3.
  - split; [done|vm_compute; congruence].
  - done.
  - change (k_mem ex_s) with ex_m3. rewrite ex_pte by (split; [done|vm_compute; congruence]). reflexivity.
Defined.

Lemma copyin_decides_witness :
  copyin ex_root 4090 6 ex_s = Done (0, ubytes ex_m3 ex_T 4090 6) ex_s /\
  exists bs, copyin ex_root 4090 7 ex_s = Done (-1, bs) ex_s.
Proof.
  split.
  - destruct (copyin_decides (img := sample_image) ex_s ex_root ex_T 4090 6 eq_refl ex_pt3) as [[_ E]|(a & bs & Ha & Hu & _)];
      [lia|lia|exact E|].
    change (k_mem ex_s) with ex_m3 in Hu. rewrite ex_user_pa in Hu by lia.
    rewrite (proj2 (Z.ltb_lt _ _)) in Hu by (unfold PGSIZE; lia). discriminate Hu.
  - destruct (copyin_decides (img := sample_image) ex_s ex_root ex_T 4090 7 eq_refl ex_pt3) as [[Hr _]|(a & bs & Ha & Hu & E)];
      [lia|lia| |exists bs; exact E].
    exfalso. apply (Hr 4096); [lia|]. change (k_mem ex_s) with ex_m3. by rewrite ex_user_pa.
Defined.

Lemma copyout_copyin_witness :
  exists s', copyout ex_root 100 [7; 8; 9] 3 ex_s = Done 0 s' /\
    copyin ex_root 100 3 s' = Done (0, [7; 8; 9]) s'.
Proof.
  destruct (copyout_copyin (img := sample_image) ex_s ex_root ex_T 100 [7; 8; 9] eq_refl ex_pt3 ex_frames)
    as [(_ & s' & E & E' & _)|(Hn & _)].
  - lia.
  - exists s'. split; [exact E|exact E'].
  - exfalso. apply Hn. intros a Ha. change (k_mem ex_s) with ex_m3. simpl in Ha. rewrite ex_user_pa by lia.
    rewrite (proj2 (Z.ltb_lt _ _)) by (unfold PGSIZE; lia). done.
Defined.

End sample.

End PageTable.
Export PageTable.
