(* ===== verification/UvmSpec.v ===== *)
(** * A process's memory: uvmunmap, uvmcopy

    Over the page-table tree of [PageTable]: removing pages gives their
    frames back to the allocator, and [uvmcopy], which fork uses, builds in
    the child's table a copy of the parent's memory in frames of its own, or
    undoes what it did when memory runs out. *)

From S2P Require Import Prelude State Spinlock CString Mem Kalloc Vm PageTable.

Module UvmSpec.

Section uvm.
Context {img : Image}.

Definition tab (T : gmap (list Z) Z) (p : Z) : Prop := exists π, T !! π = Some p.

(** The entry for [va] is a leaf that maps the frame [f]. *)
Definition leaf (m : gmap Z Z) (T : gmap (list Z) Z) (va f : Z) : Prop :=
  valid (pte_of m T va) = true /\ PTE_FLAGS (pte_of m T va) <> PTE_V /\ PTE2PA (pte_of m T va) = f.

(** Frames that are neither free nor tables. *)
Record frames (T : gmap (list Z) Z) (l F : list Z) : Prop := {
  fs_nodup : NoDup F;
  fs_ok f : f ∈ F -> page_ok f /\ f ∉ l /\ ~ tab T f;
}.

(** The pages from [va] on map the frames [F], in order. *)
Definition maps (m : gmap Z Z) (T : gmap (list Z) Z) (va : Z) (F : list Z) : Prop :=
  forall k f, F !! k = Some f -> leaf m T (va + Z.of_nat k * PGSIZE) f.

Lemma valid_pte_place m T va : valid (pte_of m T va) = true -> is_Some (T !! [PX 2 va; PX 1 va]).
Proof. unfold pte_of. destruct (T !! _); [eauto|]. done. Qed.

Lemma rd_store_leaf m T va v x :
  is_Some (T !! [PX 2 va; PX 1 va]) -> (forall t, tab T t -> ~ in_page t x) ->
  rd (store64 m (walk_at T va) v) x = rd m x.
Proof.
  intros [t Ht] Hx. unfold walk_at. rewrite Ht. apply rd_store64_ne.
  pose proof (Hx t (ex_intro _ _ Ht)) as Hn.
  destruct (Z.leb_spec (pte_addr t (PX 0 va)) x), (Z.leb_spec (pte_addr t (PX 0 va) + 8) x); try lia.
  destruct Hn. apply (in_page_pte t (PX 0 va)); [apply PX_range|lia].
Qed.

(** A change inside a page that is neither free nor a table. *)
Lemma vmst_page s s' root T l p :
  vmst s root T l -> page_ok p -> p ∉ l -> ~ tab T p -> k_freelist s' = k_freelist s ->
  (forall x, ~ in_page p x -> rd (k_mem s') x = rd (k_mem s) x) ->
  vmst s' root T l /\ forall va, pte_of (k_mem s') T va = pte_of (k_mem s) T va.
Proof.
  intros [(Hl & Hnd & Hok) Hp Ht] Hpok Hpl Hpt Hfr Hx.
  destruct (pt_ext (k_mem s) (k_mem s') root T Hp) as [Hp' Hpe].
  { intros π t x HT Hin. apply Hx. apply (in_page_disj t p x); auto; [by eapply pt_page|].
    intros ->. by destruct Hpt; exists π. }
  split; [|done]. split; auto. split; [|done]. rewrite Hfr.
  eapply linked_ext; [|done]. intros q Hq. apply load64_ext. intros x Hxq. apply Hx.
  pose proof (proj1 (Forall_forall _ _) Hok q Hq) as Hqok.
  apply (in_page_disj q p x); auto; [by intros ->|]. unfold in_page, PGSIZE. lia.
Qed.

(** ** uvmunmap *)

Record unmapped (root : Z) (s : kstate) (T : gmap (list Z) Z) (l : list Z) (va : Z) (F : list Z)
    (s' : kstate) : Prop := {
  um_vm : vmst s' root T (rev F ++ l);
  um_pte a : 0 <= a < VAEND -> pte_of (k_mem s') T a =
    if (va <=? a) && (a <? va + Z.of_nat (length F) * PGSIZE) then 0 else pte_of (k_mem s) T a;
  um_mem x : (forall t, tab T t -> ~ in_page t x) -> (forall f, f ∈ F -> ~ in_page f x) ->
    rd (k_mem s') x = rd (k_mem s) x;
  um_hart : hart_same s s';
  um_only : only_mem s s';
}.

(** Freeing the frame of one page and clearing its entry. *)
Lemma wp_unmap_one s root T l va f (k : K unit) (Q : unit -> kstate -> Prop) :
  0 < sym_end -> hart_wf s -> Lkmem ∉ k_held s -> vmst s root T l ->
  va mod PGSIZE = 0 -> 0 <= va < MAXVA -> leaf (k_mem s) T va f -> frames T l [f] ->
  (forall s', unmapped root s T l va [f] s' -> wp k s' Q) ->
  wp (let! pte := walk root va false in
      if pte =? 0 then panic "uvmunmap: walk" else
      let! e := ld64 pte in
      if negb (valid e) then panic "uvmunmap: not mapped" else
      if PTE_FLAGS e =? PTE_V then panic "uvmunmap: not a leaf" else
      when true (kfree (PTE2PA e)) ;!
      st64 pte 0 ;! k) s Q.
Proof.
  intros Himg Hw Hlk Hv Hal Hr (Hval & Hfl & Hpa) [_ Hf] Hk.
  destruct (Hf f ltac:(left)) as (Hfok & Hfl' & Hft).
  pose proof (valid_pte_place _ _ _ Hval) as Hpl.
  wp_step. eapply wp_eq; [apply (walk_lookup s root T va); [apply Hv|lia]|].
  rewrite (proj2 (Z.eqb_neq _ _)) by (eapply walk_at_nz; eauto; apply Hv).
  wp_step. unfold ld64. wp_step. rewrite load_walk_at, Hval by done. cbn [negb].
  rewrite (proj2 (Z.eqb_neq _ _)) by done. rewrite Hpa. cbn [when]. wp_step.
  apply (wp_kfree s l f); auto; [apply Hv|]. intros s1 Hh Ho Hf1 Hm.
  assert (Hin : forall t x, tab T t -> in_page t x -> ~ in_page f x).
  { intros t x [π Ht] Hx. apply (in_page_disj t f x); auto; [by eapply pt_page; [apply Hv|]|].
    intros ->. by destruct Hft; exists π. }
  assert (Hv1 : vmst s1 root T (f :: l) /\ forall a, pte_of (k_mem s1) T a = pte_of (k_mem s) T a).
  { destruct (pt_ext (k_mem s) (k_mem s1) root T (vm_pt _ _ _ _ Hv)) as [Hp' Hpe].
    - intros π t x HT Hx. apply Hm. pose proof (Hin t x (ex_intro _ π HT) Hx). unfold in_page in *. lia.
    - split; [|done]. split; [done|done|]. intros π t HT [->|?]%elem_of_cons; [|by eapply vm_tabs].
      by destruct Hft; exists π. }
  destruct Hv1 as [Hv1 Hpe1]. wp_step. unfold st64. wp_step. apply Hk.
  pose proof (grows_store root s1 T (f :: l) va 0 Hv1 Hpl) as Hg.
  split; ksimp.
  - apply Hg.
  - intros a Ha. rewrite (pte_of_store_leaf _ root) by (done || apply Hv1). rewrite Hpe1.
    rewrite (PGROUNDDOWN_aligned va) by done. pose proof (PGROUNDDOWN_spec a) as [Had Har].
    cbn [length]. destruct (Z.eqb_spec va (PGROUNDDOWN a)), (Z.leb_spec va a),
      (Z.ltb_spec a (va + Z.of_nat 1 * PGSIZE)); simpl; auto; try lia.
    destruct (page_disjoint va (PGROUNDDOWN a)) as [?|?]; auto; lia.
  - intros x HT HF. rewrite rd_store_leaf by done. apply Hm.
    specialize (HF f ltac:(left)). unfold in_page in HF. lia.
  - exact Hh.
  - etrans; [exact Ho|apply Hg].
Qed.

Lemma frames_nil T l : frames T l [].
Proof. split; [constructor|]. intros f Hf. by apply not_elem_of_nil in Hf. Qed.
Lemma frames_cons T l f F : frames T l (f :: F) -> frames T l [f] /\ frames T (f :: l) F.
Proof.
  intros [Hnd Hok]. apply NoDup_cons in Hnd as [Hn Hnd]. split; split.
  - apply NoDup_singleton.
  - intros g ->%list_elem_of_singleton. apply Hok. left.
  - done.
  - intros g Hg. destruct (Hok g ltac:(by right)) as (? & Hl & ?). split; [done|]. split; [|done].
    intros [->|?]%elem_of_cons; done.
Qed.

Lemma leaf_move m T m' T' va f : pte_of m' T' va = pte_of m T va -> leaf m T va f -> leaf m' T' va f.
Proof. unfold leaf. by intros ->. Qed.
Lemma leaf_pte m m' T va f : pte_of m' T va = pte_of m T va -> leaf m T va f -> leaf m' T va f.
Proof. apply leaf_move. Qed.

Lemma unmapped_nil root s T l va : vmst s root T l -> unmapped root s T l va [] s.
Proof.
  intros. split; auto; try done. intros a _. cbn [length].
  destruct (Z.leb_spec va a), (Z.ltb_spec a (va + Z.of_nat 0 * PGSIZE)); simpl; auto; lia.
Qed.

Lemma unmapped_cons root s T l va f F s1 s2 :
  unmapped root s T l va [f] s1 -> unmapped root s1 T (f :: l) (va + PGSIZE) F s2 ->
  unmapped root s T l va (f :: F) s2.
Proof.
  intros [V1 P1 M1 H1 O1] [V2 P2 M2 H2 O2]. split; try by etrans.
  - simpl. by rewrite <- app_assoc.
  - intros a Ha. rewrite P2, P1 by done. cbn [length].
    change PGSIZE with 4096. destruct (Z.leb_spec va a), (Z.leb_spec (va + 4096) a), (Z.ltb_spec a (va + Z.of_nat 1 * 4096)),
      (Z.ltb_spec a (va + 4096 + Z.of_nat (length F) * 4096)),
      (Z.ltb_spec a (va + Z.of_nat (S (length F)) * 4096)); simpl; auto; lia.
  - intros x HT HF. rewrite M2, M1; auto.
    + intros g ->%list_elem_of_singleton. apply HF. left.
    + intros g Hg. apply HF. by right.
Qed.

Lemma wp_uvmunmap_loop fuel s root T l va F :
  0 < sym_end -> hart_wf s -> Lkmem ∉ k_held s -> vmst s root T l ->
  va mod PGSIZE = 0 -> 0 <= va -> va + Z.of_nat (length F) * PGSIZE <= MAXVA ->
  maps (k_mem s) T va F -> frames T l F -> (length F <= fuel)%nat ->
  wp (uvmunmap_loop fuel root va (va + Z.of_nat (length F) * PGSIZE) true) s
    (fun _ s' => unmapped root s T l va F s').
Proof.
  intros Himg. revert fuel s l va. induction F as [|f F IH]; intros fuel s l va Hw Hlk Hv Hal H0 Hmax Hm HF Hfuel.
  { cbn [length]. replace (va + Z.of_nat 0 * PGSIZE) with va by lia.
    destruct fuel; cbn [uvmunmap_loop]; rewrite Z.ltb_irrefl; apply wp_ret; by apply unmapped_nil. }
  destruct fuel as [|fuel]; [simpl in Hfuel; lia|]. cbn [uvmunmap_loop length] in *.
  assert (HM : MAXVA = 2 ^ 38) by done. assert (HP : PGSIZE = 4096) by done.
  rewrite (proj2 (Z.ltb_lt _ _)) by lia. apply frames_cons in HF as [Hf1 HF].
  apply (wp_unmap_one s root T l va f); auto; [lia| |].
  { replace va with (va + Z.of_nat 0 * PGSIZE) by lia. by apply Hm. }
  intros s1 Hu. pose proof (um_hart _ _ _ _ _ _ _ Hu) as Hh. rewrite u64_small by lia.
  replace (va + Z.of_nat (S (length F)) * PGSIZE) with (va + PGSIZE + Z.of_nat (length F) * PGSIZE) by lia.
  eapply wp_mono; [apply (IH fuel s1 (f :: l) (va + PGSIZE))|].
  - by eapply hart_same_wf.
  - by rewrite (proj1 Hh).
  - apply Hu.
  - rewrite Z.add_mod, Hal, Z_mod_same_full by done. done.
  - lia.
  - lia.
  - intros k g Hk. apply (leaf_pte (k_mem s)).
    + pose proof (lookup_lt_Some _ _ _ Hk). pose proof MAXVA_VAEND. rewrite (um_pte _ _ _ _ _ _ _ Hu) by lia. cbn [length].
      rewrite (proj2 (Z.ltb_ge _ _)), andb_false_r by lia. done.
    + replace (va + PGSIZE + Z.of_nat k * PGSIZE) with (va + Z.of_nat (S k) * PGSIZE) by lia. by apply Hm.
  - done.
  - lia.
  - intros ? s2 Hu2. by eapply unmapped_cons.
Qed.

(** [uvmunmap] with [do_free] on pages that are all mapped. *)
Lemma wp_uvmunmap s root T l va F :
  0 < sym_end -> hart_wf s -> Lkmem ∉ k_held s -> vmst s root T l ->
  va mod PGSIZE = 0 -> 0 <= va -> va + Z.of_nat (length F) * PGSIZE <= MAXVA ->
  maps (k_mem s) T va F -> frames T l F ->
  wp (uvmunmap root va (Z.of_nat (length F)) true) s (fun _ s' => unmapped root s T l va F s').
Proof.
  intros Himg Hw Hlk Hv Hal H0 Hmax Hm HF. assert (HM : MAXVA = 2 ^ 38) by done.
  assert (HP : PGSIZE = 4096) by done. unfold uvmunmap. rewrite Hal. cbn [Z.eqb negb].
  rewrite (u64_small (Z.of_nat _ * _)), u64_small by lia. apply wp_uvmunmap_loop; auto.
  replace (va + Z.of_nat (length F) * PGSIZE - va) with (Z.of_nat (length F) * PGSIZE) by lia.
  rewrite Z.div_mul by done. lia.
Qed.

(** ** uvmcopy *)

Lemma PTE_FLAGS_range e : 0 <= PTE_FLAGS e < 1024.
Proof. unfold PTE_FLAGS. change 1023 with (Z.ones 10). rewrite Z.land_ones by lia. by apply Z.mod_pos_bound. Qed.
Lemma FLAGS_lor_V e : valid e = true -> Z.lor (PTE_FLAGS e) PTE_V = PTE_FLAGS e.
Proof.
  unfold valid, PTE_FLAGS, PTE_V. change 1 with (2 ^ 0) at 1. intros H%negb_true_iff%Z.eqb_neq.
  assert (Hb : Z.testbit e 0 = true).
  { destruct (Z.testbit e 0) eqn:E; [done|]. destruct H. apply Z.bits_inj'. intros i Hi.
    rewrite Z.land_spec, Z.bits_0, Z.pow2_bits_eqb by lia.
    destruct (Z.eqb_spec 0 i) as [<-|]; [by rewrite E|by rewrite andb_false_r]. }
  apply Z.bits_inj'. intros i Hi. rewrite Z.lor_spec, Z.land_spec. change 1 with (2 ^ 0).
  rewrite Z.pow2_bits_eqb by lia. destruct (Z.eqb_spec 0 i) as [<-|]; [by rewrite Hb|by rewrite orb_false_r].
Qed.
Lemma page_pa_ok p : 0 < sym_end -> page_ok p -> pa_ok p.
Proof. intros ? [Hal ?]. split; [done|]. unfold PHYSTOP, KERNBASE in *. lia. Qed.
Lemma page_index k : Z.to_nat (Z.of_nat k * PGSIZE / PGSIZE) = k.
Proof. rewrite Z.div_mul by done. lia. Qed.
Lemma page_index_ge n a : Z.of_nat n * PGSIZE <= a -> (n <= Z.to_nat (a / PGSIZE))%nat.
Proof. intros H. pose proof (Z.div_le_lower_bound a PGSIZE (Z.of_nat n) ltac:(done)). lia. Qed.
Lemma page_index_lt n a : 0 <= a < Z.of_nat n * PGSIZE -> (Z.to_nat (a / PGSIZE) < n)%nat.
Proof.
  intros H. pose proof (Z.div_lt_upper_bound a PGSIZE (Z.of_nat n) ltac:(done)).
  pose proof (Z.div_pos a PGSIZE). unfold PGSIZE in *. lia.
Qed.

Section copy.
Context (s0 : kstate) (old new : Z) (To T0 : gmap (list Z) Z) (l0 : list Z) (sz : Z).
Local Notation m0 := (k_mem s0).

(** The parent's memory below [sz]: every page is a leaf, and neither its
    frames nor its tables are free or tables of the child. *)
Record parent : Prop := {
  pa_pt : pt m0 old To;
  pa_leaf a : 0 <= a < sz -> exists f, leaf m0 To a f /\ page_ok f /\ f ∉ l0 /\ ~ tab T0 f;
  pa_tab t : tab To t -> t ∉ l0 /\ ~ tab T0 t;
}.

(** The child after [length F] pages: they are mapped to the frames [F] with
    the parent's flags and hold the parent's bytes; [G] is filled but not
    mapped yet.  Every page taken off the free list is one of these frames or
    a table of the child. *)
Record copied (s : kstate) (T : gmap (list Z) Z) (l F G : list Z) : Prop := {
  cp_vm : vmst s new T l;
  cp_sub : T0 ⊆ T;
  cp_pages p : p ∈ l0 \/ tab T0 p <-> p ∈ l \/ p ∈ F ++ G \/ tab T p;
  cp_frames : frames T l (F ++ G);
  cp_pte a : 0 <= a < VAEND -> pte_of (k_mem s) T a =
    match F !! Z.to_nat (a / PGSIZE) with
    | Some f => Z.lor (PA2PTE f) (PTE_FLAGS (pte_of m0 To a))
    | None => pte_of m0 T0 a
    end;
  cp_bytes j f o : (F ++ G) !! j = Some f -> 0 <= o < PGSIZE ->
    rd (k_mem s) (f + o) = rd m0 (PTE2PA (pte_of m0 To (Z.of_nat j * PGSIZE)) + o);
  cp_mem : mem_frame T0 l0 m0 (k_mem s);
  cp_hart : hart_same s0 s;
  cp_only : only_mem s0 s;
}.

(** The child after a failure: the frames are free again. *)
Record undone (s : kstate) (T : gmap (list Z) Z) (l : list Z) : Prop := {
  ud_vm : vmst s new T l;
  ud_sub : T0 ⊆ T;
  ud_pages p : p ∈ l0 \/ tab T0 p <-> p ∈ l \/ tab T p;
  ud_pte a : 0 <= a < VAEND ->
    pte_of (k_mem s) T a = pte_of m0 T0 a \/ (pte_of (k_mem s) T a = 0 /\ PGROUNDDOWN a < sz);
  ud_few : (Z.of_nat (length l) - 1) * PGSIZE < sz;
  ud_mem : mem_frame T0 l0 m0 (k_mem s);
  ud_hart : hart_same s0 s;
  ud_only : only_mem s0 s;
}.

Context (Himg : 0 < sym_end) (Hwf : hart_wf s0) (Hlk : Lkmem ∉ k_held s0).
Context (Hsz : 0 <= sz <= MAXVA) (Hv0 : vmst s0 new T0 l0) (Hpar : parent).
Context (Hfree : forall a, 0 <= a -> PGROUNDDOWN a < sz -> valid (pte_of m0 T0 a) = false).

(** What stays outside the child and the free pages, the parent among it,
    is as it was. *)
Lemma parent_kept m : mem_frame T0 l0 m0 m ->
  pt m old To /\ (forall a, pte_of m To a = pte_of m0 To a) /\
  forall a f x, 0 <= a < sz -> leaf m0 To a f -> in_page f x -> rd m x = rd m0 x.
Proof.
  intros Hm. destruct Hpar as [Hp Hl Ht].
  assert (Hpg : forall p x, page_ok p -> p ∉ l0 -> ~ tab T0 p -> in_page p x -> rd m x = rd m0 x).
  { intros p x Hpok Hpl Hpt Hx. apply Hm.
    - intros π t Hπ. apply (in_page_disj p t x); auto; [by eapply pt_page; [apply Hv0|]|].
      intros ->. by destruct Hpt; exists π.
    - intros q Hq. apply (in_page_disj p q x); auto; [|by intros ->].
      destruct (vm_free _ _ _ _ Hv0) as (_ & _ & Hok). by apply (proj1 (Forall_forall _ _) Hok). }
  destruct (pt_ext m0 m old To Hp) as [Hp' Hpe].
  { intros π t x Hπ. destruct (Ht t (ex_intro _ π Hπ)). apply Hpg; auto. by eapply pt_page. }
  split; [done|]. split; [done|]. intros a f x Ha (_ & _ & Hf) Hx.
  destruct (Hl a Ha) as (f' & (_ & _ & Hf') & ? & ? & ?). apply (Hpg f x); congruence.
Qed.

Lemma copied_start : copied s0 T0 l0 [] [].
Proof.
  split; try done.
  - intros p. simpl. rewrite elem_of_nil. tauto.
  - apply frames_nil.
Qed.

(** The frames of the child are kept by what only touches its tables and
    the free pages. *)
Lemma frame_kept s T l F G s' f x : copied s T l F G -> mem_frame T l (k_mem s) (k_mem s') ->
  f ∈ F ++ G -> in_page f x -> rd (k_mem s') x = rd (k_mem s) x.
Proof.
  intros Hc Hm Hf Hx. destruct (fs_ok _ _ _ (cp_frames _ _ _ _ _ Hc) f Hf) as (Hok & Hl & Ht).
  pose proof (cp_vm _ _ _ _ _ Hc) as Hv. apply Hm.
  - intros π t Hπ. apply (in_page_disj f t x); auto; [by eapply pt_page; [apply Hv|]|].
    intros ->. by destruct Ht; exists π.
  - intros q Hq. apply (in_page_disj f q x); auto; [|by intros ->].
    destruct (vm_free _ _ _ _ Hv) as (_ & _ & Hfr). by apply (proj1 (Forall_forall _ _) Hfr).
Qed.

Lemma mem_frame_trans s T l F G m' : copied s T l F G ->
  (forall x, (forall t, tab T t -> ~ in_page t x) -> (forall p, p ∈ l ++ F ++ G -> ~ in_page p x) ->
     rd m' x = rd (k_mem s) x) ->
  mem_frame T0 l0 m0 m'.
Proof.
  intros Hc Hm x HT Hl. rewrite <- (cp_mem _ _ _ _ _ Hc x HT Hl). apply Hm.
  - intros t Ht. destruct (proj2 (cp_pages _ _ _ _ _ Hc t)) as [?|[π ?]]; eauto.
  - intros p [Hp|Hp]%elem_of_app; destruct (proj2 (cp_pages _ _ _ _ _ Hc p)) as [?|[π ?]]; eauto.
Qed.

Lemma copied_grows s T l F G s' T' l' F' G' :
  copied s T l F G -> grows new s T l s' T' l' -> F' ++ G' = F ++ G ->
  (forall a, 0 <= a < VAEND -> pte_of (k_mem s') T' a =
    match F' !! Z.to_nat (a / PGSIZE) with
    | Some f => Z.lor (PA2PTE f) (PTE_FLAGS (pte_of m0 To a))
    | None => pte_of m0 T0 a
    end) ->
  copied s' T' l' F' G'.
Proof.
  intros Hc Hg HF Hpe. destruct Hg as [V S Sf N K M H O]. split; auto.
  - etrans; [apply Hc|done].
  - intros p. rewrite (cp_pages _ _ _ _ _ Hc), HF. split.
    + intros [Hp|[?|[π Hp]]]; [apply K in Hp as [?|[??]]; unfold tab; eauto|auto|].
      right. right. exists π. by eapply lookup_weaken.
    + intros [Hp|[?|[π Hp]]]; [left; by eapply suffix_elem|auto|].
      apply N in Hp as [?|?]; [right; right; by exists π|auto].
  - rewrite HF. destruct (cp_frames _ _ _ _ _ Hc) as [Hnd Hok]. split; [done|].
    intros f Hf. destruct (Hok f Hf) as (? & Hl & Ht). split; [done|]. split.
    + intros ?. by apply Hl; eapply suffix_elem.
    + intros [π [?|?]%N]; [|done]. by apply Ht; exists π.
  - intros j f o. rewrite HF. intros Hj Ho. rewrite <- (cp_bytes _ _ _ _ _ Hc j f o) by done.
    apply (frame_kept s T l F G s' f); auto; [by eapply list_elem_of_lookup_2|]. unfold in_page. lia.
  - eapply (mem_frame_trans s T l F G); [done|]. intros x HT Hl. apply M; [unfold tab in HT; eauto|].
    intros p Hp. apply Hl. apply elem_of_app. by left.
  - etrans; [apply Hc|done].
  - etrans; [apply Hc|done].
Qed.

(** A page [p] leaves the free list and is filled. *)
Lemma copied_taken s T p l F s' :
  copied s T (p :: l) F [] -> free_pages s' l ->
  (forall x, ~ in_page p x -> rd (k_mem s') x = rd (k_mem s) x) ->
  (forall o, 0 <= o < PGSIZE ->
     rd (k_mem s') (p + o) = rd m0 (PTE2PA (pte_of m0 To (Z.of_nat (length F) * PGSIZE)) + o)) ->
  hart_same s s' -> only_mem s s' -> copied s' T l F [p].
Proof.
  intros Hc Hfr Hx Hp Hh Ho. pose proof (cp_vm _ _ _ _ _ Hc) as Hv.
  destruct (vm_free _ _ _ _ Hv) as (_ & Hnd & Hok). apply Forall_cons in Hok as [Hpok Hok].
  apply NoDup_cons in Hnd as [Hpl Hnd].
  assert (Hpt : ~ tab T p) by (intros [π Hπ]; by apply (vm_tabs _ _ _ _ Hv _ _ Hπ); left).
  destruct (cp_frames _ _ _ _ _ Hc) as [HFn HFok]. rewrite app_nil_r in HFn, HFok.
  assert (HpF : p ∉ F) by (intros HF; destruct (HFok p HF) as (_ & Hn & _); by apply Hn; left).
  destruct (pt_ext (k_mem s) (k_mem s') new T (vm_pt _ _ _ _ Hv)) as [Hp' Hpe].
  { intros π t x Hπ Hin. apply Hx. apply (in_page_disj t p x); auto; [by eapply pt_page; [apply Hv|]|].
    intros ->. by destruct Hpt; exists π. }
  split; auto; try (by etrans; [apply Hc|]).
  - split; auto. intros π t Hπ ?. apply (vm_tabs _ _ _ _ Hv _ _ Hπ). by right.
  - intros q. rewrite (cp_pages _ _ _ _ _ Hc), app_nil_r, elem_of_cons, elem_of_app, list_elem_of_singleton. tauto.
  - split.
    + apply NoDup_app. split; [done|]. split; [|apply NoDup_singleton].
      intros f Hf ->%list_elem_of_singleton. done.
    + intros f [Hf| ->%list_elem_of_singleton]%elem_of_app; [|done].
      destruct (HFok f Hf) as (? & Hn & ?). split; [done|]. split; [|done]. intros ?. apply Hn. by right.
  - intros a Ha. rewrite Hpe. by apply Hc.
  - intros j f o Hj Hor. apply lookup_snoc_Some in Hj as [[Hlt Hj]|[-> ->]]; [|by apply Hp].
    rewrite Hx; [by apply (cp_bytes _ _ _ _ _ Hc); rewrite ?app_nil_r|].
    apply list_elem_of_lookup_2 in Hj. apply (in_page_disj f p); [apply HFok, Hj|done| |unfold in_page; lia].
    by intros ->.
  - apply (mem_frame_trans s T (p :: l) F []); [done|]. intros x _ Hl. apply Hx. apply Hl. left.
Qed.

(** The page in flight is given back. *)
Lemma copied_freed s T p l F s' :
  copied s T l F [p] -> free_pages s' (p :: l) ->
  (forall x, ~ in_page p x -> rd (k_mem s') x = rd (k_mem s) x) ->
  hart_same s s' -> only_mem s s' -> copied s' T (p :: l) F [].
Proof.
  intros Hc Hfr Hx Hh Ho. pose proof (cp_vm _ _ _ _ _ Hc) as Hv.
  destruct (cp_frames _ _ _ _ _ Hc) as [HFn HFok]. apply NoDup_app in HFn as (HFn & HpF & _).
  assert (Hpin : p ∈ F ++ [p]) by (apply elem_of_app; right; left).
  destruct (HFok p Hpin) as (Hpok & Hpl & Hpt).
  destruct (pt_ext (k_mem s) (k_mem s') new T (vm_pt _ _ _ _ Hv)) as [Hp' Hpe].
  { intros π t x Hπ Hin. apply Hx. apply (in_page_disj t p x); auto; [by eapply pt_page; [apply Hv|]|].
    intros ->. by destruct Hpt; exists π. }
  assert (Hne : forall f, f ∈ F -> f <> p) by (intros f Hf ->; apply (HpF p Hf); left).
  split; auto; try (by etrans; [apply Hc|]).
  - split; auto. intros π t Hπ [->|?]%elem_of_cons; [by destruct Hpt; exists π|].
    by apply (vm_tabs _ _ _ _ Hv _ _ Hπ).
  - intros q. rewrite (cp_pages _ _ _ _ _ Hc), app_nil_r, elem_of_cons, elem_of_app, list_elem_of_singleton. tauto.
  - rewrite app_nil_r. split; [done|]. intros f Hf.
    destruct (HFok f) as (? & Hn & ?); [apply elem_of_app; by left|]. split; [done|]. split; [|done].
    intros [->|?]%elem_of_cons; [by apply (Hne p)|done].
  - intros a Ha. rewrite Hpe. by apply Hc.
  - rewrite app_nil_r. intros j f o Hj Hor. pose proof (list_elem_of_lookup_2 _ _ _ Hj) as Hf.
    rewrite Hx; [apply (cp_bytes _ _ _ _ _ Hc); [by apply lookup_app_l_Some|done]|].
    apply (in_page_disj f p); [apply HFok, elem_of_app; by left|done|by apply Hne|unfold in_page; lia].
  - apply (mem_frame_trans s T l F [p]); [done|]. intros x _ Hl. apply Hx. apply Hl.
    apply elem_of_app. by right.
Qed.

Lemma copied_maps s T l F G : copied s T l F G -> (Z.of_nat (length F) - 1) * PGSIZE < sz ->
  maps (k_mem s) T 0 F.
Proof.
  pose proof MAXVA_VAEND. intros Hc Hlen k f Hk. pose proof (lookup_lt_Some _ _ _ Hk) as Hlt. assert (PGSIZE = 4096) as HP by done.
  destruct (pa_leaf Hpar (0 + Z.of_nat k * PGSIZE)) as (g & (Hval & Hfl & _) & _); [lia|].
  unfold leaf. rewrite (cp_pte _ _ _ _ _ Hc) by lia. rewrite Z.add_0_l in *. rewrite page_index, Hk.
  assert (Hpa : pa_ok f).
  { apply page_pa_ok; [done|]. apply (fs_ok _ _ _ (cp_frames _ _ _ _ _ Hc)).
    apply elem_of_app. left. by eapply list_elem_of_lookup_2. }
  pose proof (PTE_FLAGS_range (pte_of m0 To (Z.of_nat k * PGSIZE))).
  rewrite valid_mk, PTE_FLAGS_mk, PTE2PA_mk, <- valid_flags by done. done.
Qed.

(** The error path. *)
Lemma wp_undo s T l F :
  copied s T l F [] -> (length l <= 1)%nat -> Z.of_nat (length F) * PGSIZE < sz ->
  wp (uvmunmap new 0 (Z.of_nat (length F)) true ;! ret (-1)) s
    (fun r s' => r = -1 /\ exists l', undone s' T l').
Proof.
  intros Hc Hl Hlen. assert (PGSIZE = 4096) as HP by done. pose proof (cp_hart _ _ _ _ _ Hc) as Hh.
  pose proof (cp_frames _ _ _ _ _ Hc) as HF. rewrite app_nil_r in HF.
  wp_step. eapply wp_mono; [apply (wp_uvmunmap s new T l 0 F); auto|].
  - by eapply hart_same_wf.
  - by rewrite (proj1 Hh).
  - apply Hc.
  - lia.
  - lia.
  - eapply copied_maps; [done|lia].
  - intros [] s' Hu. apply wp_ret. split; [done|]. exists (rev F ++ l). split.
    + apply Hu.
    + apply Hc.
    + intros p. assert (p ∈ rev F <-> p ∈ F) by (rewrite !list_elem_of_In; symmetry; apply in_rev).
      rewrite (cp_pages _ _ _ _ _ Hc), app_nil_r, elem_of_app. tauto.
    + intros a Ha. rewrite (um_pte _ _ _ _ _ _ _ Hu) by done. rewrite Z.add_0_l.
      rewrite (proj2 (Z.leb_le _ _)) by lia. pose proof (PGROUNDDOWN_spec a) as [_ ?].
      destruct (Z.ltb_spec a (Z.of_nat (length F) * PGSIZE)); [right; split; [done|lia]|left].
      by rewrite (cp_pte _ _ _ _ _ Hc), lookup_ge_None_2 by (done || by apply page_index_ge).
    + rewrite length_app, length_rev. lia.
    + apply (mem_frame_trans s T l F []); [done|]. intros x HT Hp. apply Hu; [done|].
      intros f Hf. apply Hp. rewrite app_nil_r. apply elem_of_app. by right.
    + etrans; [exact Hh|apply Hu].
    + etrans; [apply Hc|apply Hu].
Qed.

Definition copy_post (r : Z) (s' : kstate) : Prop :=
  (r = 0 /\ exists T' l' F', copied s' T' l' F' [] /\
     (Z.of_nat (length F') - 1) * PGSIZE < sz <= Z.of_nat (length F') * PGSIZE) \/
  (r = -1 /\ exists T' l', undone s' T' l').

Lemma copied_alloc_failed s T F s' : copied s T [] F [] -> k_mem s' = k_mem s -> free_pages s' [] ->
  hart_same s s' -> only_mem s s' -> copied s' T [] F [].
Proof.
  intros Hc Hm Hf Hh Ho. pose proof (cp_vm _ _ _ _ _ Hc) as [_ Hp Ht].
  apply (copied_grows s T [] F []); [done| |done|].
  - split; auto; try done; [split; auto; by rewrite Hm|]. intros x _ _. by rewrite Hm.
  - intros a Ha. rewrite Hm. by apply Hc.
Qed.

(** Mapping the page in flight: it becomes the next page of the child, or
    mappages ran out of memory and it stays in flight. *)
Lemma wp_map_copy s T l F p (i := Z.of_nat (length F) * PGSIZE) :
  copied s T l F [p] -> i < sz ->
  wp (mappages new i PGSIZE p (PTE_FLAGS (pte_of m0 To i))) s (fun r s' => exists T' l',
    (r = 0 /\ copied s' T' l' (F ++ [p]) []) \/ (r = -1 /\ l' = [] /\ copied s' T' l' F [p])).
Proof.
  pose proof MAXVA_VAEND. intros Hc Hi. assert (HP : PGSIZE = 4096) by done. assert (HM : MAXVA = 2 ^ 26 * 4096) by done.
  pose proof (cp_hart _ _ _ _ _ Hc) as Hh.
  destruct (fs_ok _ _ _ (cp_frames _ _ _ _ _ Hc) p) as (Hpok & _); [apply elem_of_app; right; left|].
  pose proof (page_pa_ok p Himg Hpok) as Hpa. pose proof (PTE_FLAGS_range (pte_of m0 To i)) as Hfl.
  destruct (pa_leaf Hpar i) as (g & (Hval & _) & _); [lia|].
  assert (Hal : i mod PGSIZE = 0) by by apply Z.mod_mul.
  assert (Hmax : i + PGSIZE <= MAXVA) by (unfold i in *; rewrite HP, HM in *; lia).
  eapply wp_mono; [apply (wp_mappages s new T l i PGSIZE p); auto; try lia|].
  - by eapply hart_same_wf.
  - by rewrite (proj1 Hh).
  - apply Hc.
  - destruct Hpok as [_ ?]. assert (PHYSTOP < 2 ^ 55) by done. lia.
  - intros a Ha. rewrite (cp_pte _ _ _ _ _ Hc) by lia.
    rewrite lookup_ge_None_2 by (apply page_index_ge; lia). apply Hfree; [lia|].
    replace a with (i + (a - i)) by lia. rewrite rounddown_add by (done || lia). lia.
  - intros r s' (T' & l' & k & Hg & Hpe & Hr). exists T', l'. rewrite Z.div_same in Hr by done.
    destruct Hr as [[-> ->]|(-> & Hk & ->)]; [left|right]; (split; [done|]).
    + eapply copied_grows; [done|done|by rewrite app_nil_r|]. intros a Ha. rewrite Hpe by done.
      unfold mapped. rewrite Z.mul_1_l, <- (pte_of_rounddown _ To a). pose proof (PGROUNDDOWN_spec a) as [Had Har].
      destruct (Z.leb_spec i a), (Z.ltb_spec a (i + PGSIZE)); cbn [andb].
      * destruct (Z.eq_dec i (PGROUNDDOWN a)) as [<-|]; [|destruct (page_disjoint i (PGROUNDDOWN a)); auto; lia].
        assert (Z.to_nat (a / PGSIZE) = length F) as ->.
        { pose proof (page_index_ge (length F) a). pose proof (page_index_lt (S (length F)) a). lia. }
        rewrite list_lookup_middle, Z.sub_diag, Z.add_0_r by done. by rewrite <- Z.lor_assoc, FLAGS_lor_V.
      * rewrite (cp_pte _ _ _ _ _ Hc) by done. pose proof (page_index_ge (S (length F)) a ltac:(lia)).
        rewrite !lookup_ge_None_2; [done|rewrite length_app; simpl; lia|lia].
      * rewrite (cp_pte _ _ _ _ _ Hc), pte_of_rounddown by done.
        by rewrite lookup_app_l by (apply page_index_lt; lia).
      * lia.
    + split; [done|]. eapply copied_grows; [done|done|done|]. intros a Ha.
      assert (k = 0) as -> by lia. rewrite Hpe, mapped_0 by done. by apply Hc.
Qed.

(** Filling a new frame with the parent's page. *)
Lemma copied_filled s T p l F s1 (i := Z.of_nat (length F) * PGSIZE) :
  copied s T (p :: l) F [] -> i < sz ->
  page_filled (k_mem s) p 5 (k_mem s1) -> free_pages s1 l -> hart_same s s1 -> only_mem s s1 ->
  copied (upd k_mem (fun m => memmove m p (PTE2PA (pte_of m0 To i)) PGSIZE) s1) T l F [p].
Proof.
  intros Hc Hi Hm Hf Hh Ho. assert (0 <= PGSIZE) by done. set (pa := PTE2PA _).
  pose proof (cp_vm _ _ _ _ _ Hc) as Hv. destruct (vm_free _ _ _ _ Hv) as (_ & Hnd & Hok).
  apply Forall_cons in Hok as [Hpok Hok]. apply NoDup_cons in Hnd as [Hpl _].
  destruct (pa_leaf Hpar i) as (g & Hlf & Hgok & Hgl & Hgt); [unfold i in *; lia|].
  assert (Hpa : pa = g) by apply Hlf.
  assert (Hpg : forall x, in_page pa x -> ~ in_page p x).
  { intros x. rewrite Hpa. apply in_page_disj; auto. intros ->.
    destruct (proj2 (cp_pages _ _ _ _ _ Hc p)) as [?|?]; [left; left|done|done]. }
  assert (Hout : forall x, ~ in_page p x -> rd (k_mem s1) x = rd (k_mem s) x).
  { intros x Hx. rewrite Hm. unfold in_page in Hx.
    destruct (Z.leb_spec p x), (Z.ltb_spec x (p + PGSIZE)); simpl; (done || lia). }
  apply (copied_taken s); auto.
  - destruct Hf as (Hl & Hrest). split; [|done]. ksimp. eapply linked_ext; [|exact Hl].
    intros q Hq. apply load64_ext. intros x Hx. rewrite memmove_bytes by done.
    assert (Hn : ~ in_page p x).
    { apply (in_page_disj q p x); [by apply (proj1 (Forall_forall _ _) Hok)|done|by intros ->|].
      unfold in_page, PGSIZE. lia. }
    unfold in_page in Hn. destruct (Z.leb_spec p x), (Z.ltb_spec x (p + PGSIZE)); simpl; (done || lia).
  - intros x Hx. ksimp. rewrite memmove_bytes, <- Hout by done. unfold in_page in Hx.
    destruct (Z.leb_spec p x), (Z.ltb_spec x (p + PGSIZE)); simpl; (done || lia).
  - intros o Hor. ksimp. rewrite memmove_bytes by done.
    rewrite (proj2 (Z.leb_le _ _)), (proj2 (Z.ltb_lt _ _)) by lia. cbn [andb].
    replace (pa + (p + o - p)) with (pa + o) by lia. fold i. fold pa.
    assert (Hin : in_page pa (pa + o)) by (unfold in_page; lia). rewrite Hout by by apply Hpg.
    destruct (parent_kept _ (cp_mem _ _ _ _ _ Hc)) as (_ & _ & Hk).
    eapply (Hk i g); [unfold i in *; lia|done|by rewrite <- Hpa].
  - etrans; [exact Ho|apply only_mem_upd].
Qed.

(** The error path when mappages failed. *)
Lemma wp_drop_undo s T F p :
  copied s T [] F [p] -> Z.of_nat (length F) * PGSIZE < sz ->
  wp (kfree p ;! uvmunmap new 0 (Z.of_nat (length F)) true ;! ret (-1)) s copy_post.
Proof.
  intros Hc Hi. pose proof (cp_hart _ _ _ _ _ Hc) as Hh.
  destruct (fs_ok _ _ _ (cp_frames _ _ _ _ _ Hc) p) as (Hpok & Hpl & _); [apply elem_of_app; right; left|].
  wp_step. apply (wp_kfree s [] p); auto.
  - by eapply hart_same_wf.
  - by rewrite (proj1 Hh).
  - apply Hc.
  - intros s' Hh' Ho' Hf' Hx. eapply wp_mono; [apply (wp_undo s' T [p] F)|].
    + apply (copied_freed s); auto. intros x Hn. apply Hx. unfold in_page in Hn. lia.
    + simpl; lia.
    + done.
    + intros r s1 (-> & l' & Hu). right. split; [done|]. by exists T, l'.
Qed.

Lemma wp_uvmcopy_loop fuel s T l F :
  copied s T l F [] -> (Z.of_nat (length F) - 1) * PGSIZE < sz ->
  sz <= (Z.of_nat (length F) + Z.of_nat fuel) * PGSIZE ->
  wp (uvmcopy_loop fuel old new (Z.of_nat (length F) * PGSIZE) sz) s copy_post.
Proof.
  revert s T l F. induction fuel as [|fuel IH]; intros s T l F Hc Hlo Hfu;
    set (i := Z.of_nat (length F) * PGSIZE) in *; cbn [uvmcopy_loop]; destruct (Z.ltb_spec i sz).
  1: lia.
  1,3: apply wp_ret; left; split; [done|]; exists T, l, F; split; [done|lia].
  pose proof (cp_hart _ _ _ _ _ Hc) as Hh. pose proof (hart_same_wf _ _ Hh Hwf) as Hw.
  assert (Hlk' : Lkmem ∉ k_held s) by by rewrite (proj1 Hh).
  destruct (parent_kept _ (cp_mem _ _ _ _ _ Hc)) as (Hp & Hpe & _).
  assert (Hi0 : 0 <= i) by (unfold i, PGSIZE; lia).
  destruct (pa_leaf Hpar i) as (g & (Hval & _) & _); [lia|].
  pose proof (valid_pte_place _ _ _ Hval) as Hpl.
  wp_step. eapply wp_eq; [apply (walk_lookup s old To i); [done|lia]|].
  rewrite (proj2 (Z.eqb_neq _ _)) by (eapply walk_at_nz; eauto).
  wp_step. unfold ld64. wp_step. rewrite load_walk_at, Hpe, Hval by done. cbn [negb].
  assert (i / PGSIZE = Z.of_nat (length F)) as -> by by apply Z.div_mul.
  wp_step. apply (wp_kalloc s l); auto; [apply Hc|]. intros r s1 Hh1 Ho1 Hpost.
  destruct l as [|p l]; cbn [kalloc_post] in Hpost.
  { destruct Hpost as (-> & Hm & Hf). cbn [Z.eqb]. eapply wp_mono; [apply (wp_undo s1 T [] F)|].
    - by eapply copied_alloc_failed.
    - simpl; lia.
    - done.
    - intros r s' (-> & l' & Hu). right. split; [done|]. by exists T, l'. }
  destruct Hpost as (-> & Hm & Hf).
  destruct (vm_free _ _ _ _ (cp_vm _ _ _ _ _ Hc)) as (_ & _ & [[_ Hpr] _]%Forall_cons).
  rewrite (proj2 (Z.eqb_neq p 0)) by lia. do 2 wp_step.
  pose proof (copied_filled s T p l F s1 Hc H Hm Hf Hh1 Ho1) as Hc2. fold i in Hc2.
  set (s2 := upd k_mem _ s1) in *. clearbody s2. clear Hh1 Ho1 Hm Hf.
  wp_step. eapply wp_mono; [apply (wp_map_copy s2 T l F p); done|].
  intros r s3 (T' & l' & [[-> Hc3]|(-> & -> & Hc3)]); cbn [Z.eqb negb].
  - assert (HM : MAXVA = 2 ^ 38) by done. assert (HP : PGSIZE = 4096) by done. rewrite u64_small by lia.
    assert (i + PGSIZE = Z.of_nat (length (F ++ [p])) * PGSIZE) as ->
      by (unfold i; rewrite length_app; simpl; lia).
    apply (IH s3 T' l' (F ++ [p])); [done|unfold i in *; rewrite length_app; simpl; lia..].
  - by apply (wp_drop_undo s3 T').
Qed.

Lemma wp_uvmcopy : wp (uvmcopy old new sz) s0 copy_post.
Proof.
  unfold uvmcopy. change 0 with (Z.of_nat (@length Z []) * PGSIZE).
  apply (wp_uvmcopy_loop _ s0 T0 l0 []).
  - apply copied_start.
  - cbn [length]. unfold PGSIZE. lia.
  - cbn [length]. rewrite Z.min_l by lia.
    pose proof (Z.mul_succ_div_gt sz PGSIZE ltac:(done)). unfold PGSIZE in *. lia.
Qed.
End copy.

(** The byte at virtual address [a], whatever its permissions. *)
Definition vbyte (m : gmap Z Z) (T : gmap (list Z) Z) (a : Z) : Z :=
  rd m (PTE2PA (pte_of m T a) + a mod PGSIZE).
Definition frame_at (m : gmap Z Z) (T : gmap (list Z) Z) (a : Z) : Z := PTE2PA (pte_of m T a).

(** The first [sz] bytes of [T'] in [m'] are those of [T] in [m], with the
    same permissions, in different frames of [l]. *)
Record forked (m : gmap Z Z) (T : gmap (list Z) Z) (l : list Z) (sz : Z)
    (m' : gmap Z Z) (T' : gmap (list Z) Z) : Prop := {
  fk_flags a : 0 <= a < sz -> PTE_FLAGS (pte_of m' T' a) = PTE_FLAGS (pte_of m T a);
  fk_byte a : 0 <= a < sz -> vbyte m' T' a = vbyte m T a;
  fk_fresh a : 0 <= a < sz -> frame_at m' T' a ∈ l;
  fk_inj a b : 0 <= a < sz -> 0 <= b < sz -> frame_at m' T' a = frame_at m' T' b ->
    PGROUNDDOWN a = PGROUNDDOWN b;
}.

Lemma parent_same s old To T0 l0 new sz m :
  0 < sym_end -> vmst s new T0 l0 -> parent s old To T0 l0 sz -> mem_frame T0 l0 (k_mem s) m ->
  pt m old To /\ forall a, 0 <= a < sz ->
    pte_of m To a = pte_of (k_mem s) To a /\ vbyte m To a = vbyte (k_mem s) To a.
Proof.
  intros Himg Hv Hpar Hm. edestruct parent_kept as (Hp & Hpe & Hby); eauto.
  split; [done|]. intros a Ha. split; [done|]. unfold vbyte. rewrite Hpe.
  destruct (pa_leaf _ _ _ _ _ _ Hpar a Ha) as (f & Hf & _). apply (Hby a f); auto.
  destruct Hf as (_ & _ & ->). pose proof (Z.mod_pos_bound a PGSIZE ltac:(done)). unfold in_page. lia.
Qed.

Lemma page_base a : 0 <= a -> Z.of_nat (Z.to_nat (a / PGSIZE)) * PGSIZE = PGROUNDDOWN a.
Proof.
  intros Ha. rewrite Z2Nat.id by by apply Z.div_pos. rewrite PGROUNDDOWN_eq.
  pose proof (Z.div_mod a PGSIZE ltac:(done)). lia.
Qed.

Section done.
Context (s0 : kstate) (old new : Z) (To T0 : gmap (list Z) Z) (l0 : list Z) (sz : Z).
Context (s : kstate) (T : gmap (list Z) Z) (l F : list Z) (Himg : 0 < sym_end) (Hsz : 0 <= sz <= MAXVA).
Context (Hc : copied s0 new To T0 l0 s T l F []) (Hlen : sz <= Z.of_nat (length F) * PGSIZE).

Lemma copied_frame a : 0 <= a < sz -> exists f, F !! Z.to_nat (a / PGSIZE) = Some f /\
  page_ok f /\ f ∈ l0 /\ pte_of (k_mem s) T a = Z.lor (PA2PTE f) (PTE_FLAGS (pte_of (k_mem s0) To a)) /\
  frame_at (k_mem s) T a = f.
Proof.
  pose proof MAXVA_VAEND. intros Ha. destruct (lookup_lt_is_Some_2 F (Z.to_nat (a / PGSIZE))) as [f Hf].
  { apply page_index_lt. lia. }
  exists f. split; [done|]. pose proof (list_elem_of_lookup_2 _ _ _ Hf) as Hin.
  destruct (fs_ok _ _ _ (cp_frames _ _ _ _ _ _ _ _ _ _ Hc) f) as (Hok & _ & Ht); [by rewrite app_nil_r|].
  split; [done|]. unfold frame_at. rewrite (cp_pte _ _ _ _ _ _ _ _ _ _ Hc), Hf by lia.
  split; [|by rewrite PTE2PA_mk by (by apply page_pa_ok || apply PTE_FLAGS_range)].
  destruct (proj2 (cp_pages _ _ _ _ _ _ _ _ _ _ Hc f)) as [?|[π Hπ]]; [rewrite app_nil_r; tauto|done|].
  destruct Ht. exists π. eapply lookup_weaken; [done|apply Hc].
Qed.

Lemma copied_forked : forked (k_mem s0) To l0 sz (k_mem s) T.
Proof.
  split.
  - intros a Ha. destruct (copied_frame a Ha) as (f & _ & Hok & _ & -> & _).
    apply PTE_FLAGS_mk; [by apply page_pa_ok|apply PTE_FLAGS_range].
  - intros a Ha. destruct (copied_frame a Ha) as (f & Hf & _ & _ & _ & E). unfold vbyte.
    unfold frame_at in E. rewrite E. pose proof (Z.mod_pos_bound a PGSIZE ltac:(done)).
    rewrite (cp_bytes _ _ _ _ _ _ _ _ _ _ Hc (Z.to_nat (a / PGSIZE)) f) by (done || by rewrite app_nil_r).
    by rewrite page_base, pte_of_rounddown by lia.
  - intros a Ha. by destruct (copied_frame a Ha) as (f & _ & _ & ? & _ & ->).
  - intros a b Ha Hb. destruct (copied_frame a Ha) as (f & Hf & _ & _ & _ & ->).
    destruct (copied_frame b Hb) as (g & Hg & _ & _ & _ & ->). intros ->.
    rewrite <- !page_base by lia. do 2 f_equal. eapply NoDup_lookup; [|done|done].
    pose proof (fs_nodup _ _ _ (cp_frames _ _ _ _ _ _ _ _ _ _ Hc)) as Hnd. by rewrite app_nil_r in Hnd.
Qed.

Lemma copied_kept_pages : (Z.of_nat (length F) - 1) * PGSIZE < sz ->
  forall p, p ∈ l0 \/ tab T0 p <->
    p ∈ l \/ tab T p \/ exists a, 0 <= a < sz /\ frame_at (k_mem s) T a = p.
Proof.
  intros Hlo p. rewrite (cp_pages _ _ _ _ _ _ _ _ _ _ Hc), app_nil_r. split.
  - intros [?|[[j Hj]%list_elem_of_lookup_1|?]]; [auto| |auto]. right. right.
    pose proof (lookup_lt_Some _ _ _ Hj).
    assert (Ha : 0 <= Z.of_nat j * PGSIZE < sz) by (unfold PGSIZE in Hlo |- *; lia).
    exists (Z.of_nat j * PGSIZE). split; [done|].
    destruct (copied_frame _ Ha) as (f & Hf & _ & _ & _ & ->). rewrite page_index in Hf. congruence.
  - intros [?|[?|(a & Ha & <-)]]; [auto|auto|].
    destruct (copied_frame a Ha) as (f & Hf & _ & _ & _ & ->). right. left. by eapply list_elem_of_lookup_2.
Qed.

End done.

(** ** Properties *)


End uvm.

(** ** Example: a one-page parent, an empty child and three free pages *)

Section sample.
Local Existing Instance sample_image.

Definition ex_child : Z := 0x87ffb000.
Definition ex_free : list Z := [0x87ffa000; 0x87ff9000; 0x87ff8000].
Definition ex_m4 : gmap Z Z := store64 (store64 ex_m3 0x87ffa000 0x87ff9000) 0x87ff9000 0x87ff8000.
Definition ex_fork : kstate := bss <| k_mem := ex_m4 |> <| k_freelist := 0x87ffa000 |>.

Lemma ex_m4_rd x : 0x87ffa000 <= x -> ~ 0x87ffa000 <= x < 0x87ffa008 -> rd ex_m4 x = rd ex_m3 x.
Proof. intros. unfold ex_m4. rewrite !rd_store64_ne by lia. done. Qed.

Lemma ex_m3_rd x : in_page ex_child x -> rd ex_m3 x = 0.
Proof.
  unfold in_page, ex_child, PGSIZE. intros Hx. unfold ex_m3, ex_m2, ex_m1.
  unfold pte_addr, ex_t0, ex_t1, ex_root.
  repeat first [rewrite rd_store64_ne by lia | rewrite memset_spec by (unfold PGSIZE; lia)].
  unfold PGSIZE. rewrite !(proj2 (Z.leb_gt _ _)) by lia. done.
Qed.

Lemma ex_fork_parent_pt : pt ex_m4 ex_root ex_T /\ forall a, pte_of ex_m4 ex_T a = pte_of ex_m3 ex_T a.
Proof.
  apply pt_ext; [apply ex_pt3|]. intros π t x Ht Hx.
  apply ex_m4_rd; apply ex_tables in Ht as [->|[->| ->]]; unfold in_page, ex_root, ex_t1, ex_t0, PGSIZE in Hx; lia.
Qed.

Lemma ex_fork_child : vmst ex_fork ex_child {[ [] := ex_child ]} ex_free.
Proof.
  split.
  - split; [vm_compute; auto|]. split; [by apply (bool_decide_unpack _); vm_compute|].
    repeat constructor; vm_compute; congruence.
  - apply (pt_ext ∅); [apply pt_empty; repeat split; vm_compute; congruence|].
    intros π t x Ht Hx. apply lookup_singleton_Some in Ht as [_ <-].
    change (k_mem ex_fork) with ex_m4. pose proof Hx as Hx'. unfold in_page, ex_child, PGSIZE in Hx'.
    rewrite ex_m4_rd by lia. by rewrite ex_m3_rd.
  - intros π t Ht. apply lookup_singleton_Some in Ht as [_ <-]. by apply (bool_decide_unpack _); vm_compute.
Qed.

Lemma ex_fork_parent : parent ex_fork ex_root ex_T {[ [] := ex_child ]} ex_free PGSIZE.
Proof.
  change (k_mem ex_fork) with ex_m4. split.
  - apply ex_fork_parent_pt.
  - intros a Ha. exists ex_frame. unfold leaf. change (k_mem ex_fork) with ex_m4.
    rewrite (proj2 ex_fork_parent_pt), ex_pte by (assert (PGSIZE < MAXVA) by done; lia).
    rewrite PGROUNDDOWN_eq, Z.mod_small, Z.sub_diag by lia. cbn [Z.eqb].
    split; [repeat split; vm_compute; congruence|]. split; [repeat split; vm_compute; congruence|].
    split; [by apply (bool_decide_unpack _); vm_compute|].
    intros [π Ht]. by apply lookup_singleton_Some in Ht as [_ ?].
  - intros t [π Ht]. split.
    + apply ex_tables in Ht as [->|[->| ->]]; by apply (bool_decide_unpack _); vm_compute.
    + intros [π' Ht']. apply lookup_singleton_Some in Ht' as [_ <-].
      by apply ex_tables in Ht as [?|[?|?]].
Qed.


End sample.

End UvmSpec.
