(* ===== verification/Sched.v ===== *)
(** * Scheduling: sleep, wakeup, sched, yield, kill (proc.c, sysproc.c, trap.c)

    The part of proc.c that decides who runs.  [switch] marks the [swtch]
    in [sched] and [scheduler]: what is true of the state there is what the
    other kernel threads find. *)

From S2P Require Import Prelude State Spinlock.

Module Sched.

(** sysproc.c: sys_uptime *)
Definition sys_uptime : K Z :=
  acquire Ltickslock ;!
  let! xticks := gets k_ticks in
  release Ltickslock ;!
  ret xticks.

(** [p->run_time += sys_uptime() - p->last_run_start;
     if(p->is_kernel) p->kernel_time += sys_uptime() - p->last_kernel_time;] *)
Definition charge (i : nat) : K unit :=
  let! t := sys_uptime in
  setp i (fun p => p <| p_run_time := u32 (p_run_time p + (t - p_last_run_start p)) |>) ;!
  let! p := getp i in
  when (negb (p_is_kernel p =? 0))
    (let! t := sys_uptime in
     setp i (fun p => p <| p_kernel_time := u32 (p_kernel_time p + (t - p_last_kernel_time p)) |>)).

Definition sched : K unit :=
  let! p := myproc in
  let! i := deref "p" p in
  let! h := holding (Lproc i) in
  if negb h then panic "sched p->lock" else
  let! c := mycpu in
  if negb (c_noff c =? 1) then panic "sched locks" else
  let! p := getp i in
  if decide (p_state p = RUNNING) then panic "sched running" else
  let! ie := intr_get in
  if ie then panic "sched interruptible" else
  let! c := mycpu in
  let intena := c_intena c in
  switch ;!
  modify (upd k_cpu (upd c_intena (fun _ => intena))).

Definition yield : K unit :=
  let! p := myproc in
  let! i := deref "p" p in
  acquire (Lproc i) ;!
  setp i (upd p_state (fun _ => RUNNABLE)) ;!
  charge i ;!
  let! t := sys_uptime in
  setp i (upd p_last_runnable (fun _ => u32 t)) ;!
  sched ;!
  release (Lproc i).

(** sleep up to the call of sched, sched, and the rest. *)
Definition sleep_enter (chan : channel) (lk : lockid) : K nat :=
  let! p := myproc in
  let! i := deref "p" p in
  acquire (Lproc i) ;!
  release lk ;!
  setp i (upd p_chan (fun _ => Some chan)) ;!
  charge i ;!
  setp i (upd p_state (fun _ => SLEEPING)) ;!
  ret i.
Definition sleep_leave (i : nat) (lk : lockid) : K unit :=
  setp i (upd p_chan (fun _ => None)) ;!
  release (Lproc i) ;!
  acquire lk.
Definition sleep (chan : channel) (lk : lockid) : K unit :=
  let! i := sleep_enter chan lk in
  sched ;!
  sleep_leave i lk.

(** Body of the loops of wakeup: [chan] may be a null pointer. *)
Definition wake_one (chan : option channel) (i : nat) : K unit :=
  let! me := myproc in
  when (negb (bool_decide (me = Some i)))
    (acquire (Lproc i) ;!
     let! p := getp i in
     when (bool_decide (p_state p = SLEEPING) && bool_decide (p_chan p = chan))
       (setp i (upd p_state (fun _ => RUNNABLE)) ;!
        let! t := sys_uptime in
        setp i (upd p_last_runnable (fun _ => u32 t))) ;!
     release (Lproc i)).
Definition wakeup (chan : option channel) : K unit := for_list all_procs (wake_one chan).

(** The loop body of kill; [Some 0] is its [return 0]. *)
Definition kill_one (pid : Z) (i : nat) : K (option Z) :=
  acquire (Lproc i) ;!
  let! p := getp i in
  if p_pid p =? pid then
    setp i (upd p_killed (fun _ => 1)) ;!
    when (bool_decide (p_state p = SLEEPING))
      (setp i (upd p_state (fun _ => RUNNABLE)) ;!
       let! t := sys_uptime in
       setp i (upd p_last_runnable (fun _ => u32 t))) ;!
    release (Lproc i) ;!
    ret (Some 0)
  else release (Lproc i) ;! ret None.
Definition kill (pid : Z) : K Z :=
  let! r := find_list all_procs (kill_one pid) in
  ret (default (-1) r).

Definition setkilled (i : nat) : K unit :=
  acquire (Lproc i) ;!
  setp i (upd p_killed (fun _ => 1)) ;!
  release (Lproc i).

Definition killed (i : nat) : K Z :=
  acquire (Lproc i) ;!
  let! p := getp i in
  release (Lproc i) ;!
  ret (p_killed p).

(** One entry of the scheduler's scan. *)
Definition schedule_one (i : nat) : K unit :=
  acquire (Lproc i) ;!
  let! p := getp i in
  when (bool_decide (p_state p = RUNNABLE))
    (setp i (upd p_state (fun _ => RUNNING)) ;!
     let! t := sys_uptime in
     setp i (fun p => p <| p_waiting_time := u32 (p_waiting_time p + (t - p_last_runnable p)) |>) ;!
     let! t := sys_uptime in
     setp i (upd p_last_run_start (fun _ => u32 t)) ;!
     let! p := getp i in
     when (negb (p_is_kernel p =? 0))
       (let! t := sys_uptime in setp i (upd p_last_kernel_time (fun _ => u32 t))) ;!
     modify (upd k_cpu (upd c_proc (fun _ => Some i))) ;!
     switch ;!
     setp i (upd p_context_switches (fun n => u32 (n + 1))) ;!
     modify (upd k_cpu (upd c_proc (fun _ => None)))) ;!
  release (Lproc i).

(** [rounds] turns of the scheduler's endless loop. *)
Fixpoint scheduler_loop (rounds : nat) : K unit :=
  match rounds with
  | O => ret tt
  | S rounds => intr_on ;! for_list all_procs schedule_one ;! scheduler_loop rounds
  end.
Definition scheduler (rounds : nat) : K unit :=
  modify (upd k_cpu (upd c_proc (fun _ => None))) ;!
  scheduler_loop rounds.

(** trap.c: clockintr *)
Definition clockintr : K unit :=
  acquire Ltickslock ;!
  modify (upd k_ticks (fun t => u32 (t + 1))) ;!
  wakeup (Some Cticks) ;!
  release Ltickslock.

(** sysproc.c: sys_sleep, with its argument; [fuel] bounds the number of
    times it is woken up. *)
Fixpoint sys_sleep_loop (fuel : nat) (ticks0 n : Z) : K Z :=
  let! t := gets k_ticks in
  (* uint < int compares as unsigned *)
  if u32 (t - ticks0) <? u32 n then
    match fuel with
    | O => nofuel
    | S fuel =>
        let! p := myproc in
        let! i := deref "p" p in
        let! k := killed i in
        if negb (k =? 0) then release Ltickslock ;! ret (-1) else
        sleep Cticks Ltickslock ;!
        sys_sleep_loop fuel ticks0 n
    end
  else release Ltickslock ;! ret 0.
Definition sys_sleep (fuel : nat) (n : Z) : K Z :=
  acquire Ltickslock ;!
  let! ticks0 := gets k_ticks in
  sys_sleep_loop fuel ticks0 n.

(** ** What the scheduling code leaves alone *)

(** A process without the fields that sleep, wakeup, yield and the scheduler
    write. *)
Definition static (p : proc) : proc :=
  p <| p_state := UNUSED |> <| p_chan := None |> <| p_run_time := 0 |> <| p_kernel_time := 0 |>
    <| p_last_runnable := 0 |> <| p_last_run_start := 0 |> <| p_last_kernel_time := 0 |>
    <| p_waiting_time := 0 |> <| p_context_switches := 0 |>.

Definition proc_view (s : kstate) : list proc * list namespace * Z * Z * option nat * option nat :=
  (static <$> k_procs s, k_nss s, k_nextpid s, k_nextnamespace s, k_initproc s, k_initns s).

(** The fields of type uint are uints, and the arrays have their lengths. *)
Definition counters (p : proc) : list Z :=
  [p_init_ticks p; p_run_time p; p_last_run_start p; p_last_runnable p; p_context_switches p; p_kernel_time p;
   p_last_kernel_time p; p_waiting_time p; p_read_b p; p_write_b p; p_heap_pages p].
Definition is_u32 (n : Z) : Prop := 0 <= n < 2 ^ 32.
Record proc_typed (p : proc) : Prop := {
  pt_counters : Forall is_u32 (counters p);
  pt_ofile : length (p_ofile p) = Z.to_nat NOFILE;
  pt_pids : length (p_pids p) = Z.to_nat MAXDEPTH;
}.
Lemma is_u32_u32 n : is_u32 (u32 n).
Proof. apply u32_range. Qed.
Lemma is_u32_0 : is_u32 0.
Proof. done. Qed.
#[export] Hint Resolve is_u32_u32 is_u32_0 : ints.
Ltac proc_typed_tac :=
  intros ? [?Hc ?Ho ?Hp]; unfold counters in *; repeat (apply Forall_cons in Hc as [? Hc]);
  repeat case_match; split; unfold counters; ksimp; rewrite ?length_insert; auto;
  repeat (apply Forall_cons; split; [auto with ints|]); apply Forall_nil; done.

(** [P] does not look at the scheduling fields, as long as they keep their
    types. *)
Class SchedBlind (P : kstate -> kstate -> Prop) :=
  sched_blind : forall i f, (forall p, static (f p) = static p) -> (forall p, proc_typed p -> proc_typed (f p)) ->
    segs P (setp i f).

#[export] Instance view_sched_blind : SchedBlind (same proc_view).
Proof.
  intros i f Hf _ s. unfold setp. destruct (k_procs s !! i) as [p|] eqn:E; simpl; [|done].
  unfold same, proc_view. ksimp. rewrite list_fmap_insert, Hf, list_insert_id; [done|].
  by rewrite list_lookup_fmap, E.
Qed.
#[export] Instance blind_sched_blind P `{!PreOrder P, !Blind P k_procs} : SchedBlind P.
Proof. intros i f _ _. by apply segs_setp. Qed.
#[export] Hint Extern 1 (Blind (same proc_view) _) => (intros ? ?; reflexivity) : typeclass_instances.
#[export] Hint Extern 3 (segs _ (setp _ _)) => (apply sched_blind; [reflexivity|proc_typed_tac]) : segs.

(** The types of the process table and of ticks. *)
Definition types_ok (s : kstate) : Prop :=
  length (k_procs s) = Z.to_nat NPROC /\ Forall proc_typed (k_procs s) /\ is_u32 (k_ticks s).
Definition typed (s s' : kstate) : Prop := types_ok s -> types_ok s'.
#[export] Instance typed_preorder : PreOrder typed.
Proof. split; [intros s H; exact H|intros s1 s2 s3; unfold typed; auto]. Qed.
#[export] Hint Extern 1 (Blind typed _) => (intros ? ? ?; assumption) : typeclass_instances.
Lemma typed_setp i f : (forall p, proc_typed p -> proc_typed (f p)) -> segs typed (setp i f).
Proof.
  intros Hf s. unfold setp. destruct (k_procs s !! i) as [p|] eqn:E; [|done]. intros (Hl & Hp & Ht).
  split; [by ksimp; rewrite length_insert|]. split; [|done]. ksimp. apply Forall_insert; [done|]. apply Hf. by eapply Forall_lookup_1.
Qed.
#[export] Instance typed_sched_blind : SchedBlind typed.
Proof. intros i f _. apply typed_setp. Qed.

Section segs.
Context (P : kstate -> kstate -> Prop) `{!PreOrder P} `{!Blind P k_held, !Blind P k_cpu}.

Lemma segs_sys_uptime : segs P sys_uptime.
Proof. unfold sys_uptime. segs_tac. Qed.
Lemma segs_sched : segs P sched.
Proof. unfold sched, intr_get, mycpu. segs_tac. Qed.
Lemma segs_killed i : segs P (killed i).
Proof. unfold killed. segs_tac. Qed.

Context `{!SchedBlind P}.
Lemma segs_charge i : segs P (charge i).
Proof. unfold charge. pose proof segs_sys_uptime. segs_tac. Qed.
Lemma segs_yield : segs P yield.
Proof. unfold yield. pose proof segs_sys_uptime. pose proof segs_charge. pose proof segs_sched. segs_tac. Qed.
Lemma segs_sleep chan lk : segs P (sleep chan lk).
Proof.
  unfold sleep, sleep_enter, sleep_leave. pose proof segs_charge. pose proof segs_sched. segs_tac.
Qed.
Lemma segs_wakeup chan : segs P (wakeup chan).
Proof. unfold wakeup, wake_one. pose proof segs_sys_uptime. segs_tac. Qed.
End segs.
#[export] Hint Resolve segs_sys_uptime segs_sched segs_killed segs_charge segs_yield segs_sleep segs_wakeup : segs.

(** ** What sys_uptime and wakeup do *)

Lemma wp_sys_uptime s (Q : Z -> kstate -> Prop) :
  hart_wf s -> Ltickslock ∉ k_held s ->
  (forall s', hart_eq s s' -> Q (k_ticks s) s') -> wp sys_uptime s Q.
Proof.
  intros Hw Hn HQ. unfold sys_uptime. wp_step. apply wp_acquire; [done|]. do 2 wp_step.
  wp_step. apply (wp_unlock Ltickslock s); auto; [reflexivity|].
  intros s2 Hh Hno. apply wp_ret. ksimp. apply HQ. split; [done|]. by rewrite Hno.
Qed.

Lemma wp_getp s i p (Q : proc -> kstate -> Prop) :
  k_procs s !! i = Some p -> Q p s -> wp (getp i) s Q.
Proof. intros. eapply wp_eq; [by apply getp_done|done]. Qed.
Lemma wp_setp s i f p (Q : unit -> kstate -> Prop) :
  k_procs s !! i = Some p -> Q tt (s <| k_procs := <[i := f p]> (k_procs s) |>) -> wp (setp i f) s Q.
Proof. intros. eapply wp_eq; [by apply setp_done|done]. Qed.

(** The entry of process [i] after a wakeup of [chan] by process [me] at
    time [t]. *)
Definition woken (chan : option channel) (me : option nat) (t : Z) (i : nat) (p : proc) : proc :=
  if negb (bool_decide (me = Some i)) &&
     (bool_decide (p_state p = SLEEPING) && bool_decide (p_chan p = chan))
  then p <| p_state := RUNNABLE |> <| p_last_runnable := u32 t |> else p.

Lemma nohart_procs s s' : nohart s' = nohart s -> k_procs s' = k_procs s.
Proof. intros H. exact (f_equal k_procs H). Qed.

Lemma nohart_set s s2 X Y :
  nohart s2 = nohart (s <| k_procs := Y |>) -> nohart (s2 <| k_procs := X |>) = nohart (s <| k_procs := X |>).
Proof.
  intros E. change (nohart (s2 <| k_procs := X |>)) with ((nohart s2) <| k_procs := X |>).
  rewrite E. reflexivity.
Qed.
Lemma nohart_set_eq s s2 X :
  nohart s2 = nohart s -> nohart (s2 <| k_procs := X |>) = nohart (s <| k_procs := X |>).
Proof.
  intros E. change (nohart (s2 <| k_procs := X |>)) with ((nohart s2) <| k_procs := X |>).
  rewrite E. reflexivity.
Qed.
Lemma nohart_set_id s : nohart (s <| k_procs := k_procs s |>) = nohart s.
Proof. by destruct s. Qed.

Lemma wp_wake_one chan i s p (Q : unit -> kstate -> Prop) :
  hart_wf s -> Lproc i ∉ k_held s -> Ltickslock ∉ k_held s -> k_procs s !! i = Some p ->
  (forall s', hart_same s s' ->
     nohart s' = nohart (s <| k_procs := <[i := woken chan (c_proc (k_cpu s)) (k_ticks s) i p]> (k_procs s) |>) ->
     Q tt s') ->
  wp (wake_one chan i) s Q.
Proof.
  intros Hw Hl Ht Hp HQ. unfold wake_one, when. wp_step.
  apply wp_myproc; [done|]. intros s1 [Hh1 E1].
  assert (Hw1 : hart_wf s1) by by eapply hart_same_wf.
  pose proof (nohart_procs _ _ E1) as P1. pose proof Hh1 as (Hheld & Hcp & _).
  pose proof (f_equal k_ticks E1 : k_ticks s1 = k_ticks s) as T1.
  unfold woken in HQ. destruct (bool_decide (c_proc (k_cpu s) = Some i)) eqn:Eme; cbn [negb andb] in *.
  { apply wp_ret. apply HQ; [done|]. rewrite E1. by rewrite list_insert_id. }
  rewrite <- P1 in Hp. rewrite <- T1 in HQ. wp_step. apply wp_acquire; [by rewrite Hheld|].
  wp_step. apply (wp_getp _ i p); [by ksimp|]. wp_step.
  destruct (bool_decide (p_state p = SLEEPING) && bool_decide (p_chan p = chan)).
  - wp_step. apply (wp_setp _ i _ p); [by ksimp|]. wp_step. ksimp.
    apply wp_sys_uptime.
    + apply (hart_same_wf (locked (Lproc i) s1)); [by repeat split|by apply locked_wf].
    + ksimp. rewrite Hheld. intros [?|?]%elem_of_cons; done.
    + intros s2 [Hh2 E2]. ksimp.
      assert (P2 : k_procs s2 = <[i := p <| p_state := RUNNABLE |>]> (k_procs s1)) by exact (f_equal k_procs E2).
      apply (wp_setp _ i _ (p <| p_state := RUNNABLE |>)).
      { rewrite P2. apply list_lookup_insert_eq. by eapply lookup_lt_Some. }
      apply (wp_unlock (Lproc i) s1); [done|by rewrite Hheld| |].
      * etrans; [|etrans; [exact Hh2|]]; by repeat split.
      * intros s3 Hh3 E3. apply HQ; [by etrans|]. rewrite E3.
        etrans; [exact (nohart_set s1 s2 _ _ E2)|].
        rewrite P2, list_insert_insert_eq, P1. by apply nohart_set_eq.
  - wp_step. apply (wp_unlock (Lproc i) s1); [done|by rewrite Hheld|reflexivity|].
    intros s3 Hh3 E3. apply HQ; [by etrans|]. rewrite E3, nohart_locked, E1.
    rewrite P1 in Hp. by rewrite list_insert_id.
Qed.

(** The table after the first [n] entries were scanned. *)
Definition woken_upto (chan : option channel) (me : option nat) (t : Z) (n : nat) (ps : list proc) : list proc :=
  imap (fun i p => if decide (i < n)%nat then woken chan me t i p else p) ps.

Lemma woken_upto_0 chan me t ps : woken_upto chan me t 0 ps = ps.
Proof.
  apply list_eq. intros i. unfold woken_upto. rewrite list_lookup_imap.
  destruct (ps !! i); cbn [fmap option_fmap option_map]; [|done]. by rewrite decide_False by lia.
Qed.
Lemma woken_upto_S chan me t n ps p : ps !! n = Some p ->
  woken_upto chan me t n ps !! n = Some p /\
  <[n := woken chan me t n p]> (woken_upto chan me t n ps) = woken_upto chan me t (S n) ps.
Proof.
  intros Hp. unfold woken_upto. split.
  - rewrite list_lookup_imap, Hp. cbn [fmap option_fmap option_map]. by rewrite decide_False by lia.
  - apply list_eq. intros i. destruct (decide (i = n)) as [->|Hi].
    + rewrite list_lookup_insert_eq by (rewrite length_imap; by eapply lookup_lt_Some).
      rewrite list_lookup_imap, Hp. cbn [fmap option_fmap option_map]. by rewrite decide_True by lia.
    + rewrite list_lookup_insert_ne by done. rewrite !list_lookup_imap.
      destruct (ps !! i); cbn [fmap option_fmap option_map]; [|done]. repeat case_decide; try done; lia.
Qed.
Lemma woken_upto_all chan me t n ps : (length ps <= n)%nat ->
  woken_upto chan me t n ps = imap (woken chan me t) ps.
Proof.
  intros Hn. apply list_eq. intros i. unfold woken_upto. rewrite !list_lookup_imap.
  destruct (ps !! i) eqn:E; cbn [fmap option_fmap option_map]; [|done]. apply lookup_lt_Some in E.
  by rewrite decide_True by lia.
Qed.

Lemma all_procs_lookup n b : all_procs !! n = Some b -> b = n /\ (n < Z.to_nat NPROC)%nat.
Proof. unfold all_procs. intros [-> ?]%lookup_seq. lia. Qed.

Lemma seq_prefix n i l1 l2 : seq 0 n = l1 ++ i :: l2 -> forall j, (j < i)%nat -> j ∈ l1.
Proof.
  intros E j Hj.
  assert (Hi : seq 0 n !! length l1 = Some i) by (rewrite E; by apply list_lookup_middle).
  apply lookup_seq in Hi as [-> Hlt].
  assert (Hjl : l1 !! j = Some j).
  { assert (seq 0 n !! j = Some j) as Hs by (apply lookup_seq; lia).
    rewrite E in Hs. by rewrite lookup_app_l in Hs by lia. }
  by apply list_elem_of_lookup_2 in Hjl.
Qed.

Lemma wp_wakeup chan s (Q : unit -> kstate -> Prop) :
  hart_wf s -> (forall i, Lproc i ∉ k_held s) -> Ltickslock ∉ k_held s ->
  length (k_procs s) = Z.to_nat NPROC ->
  (forall s', hart_same s s' ->
     nohart s' = nohart (s <| k_procs := imap (woken chan (c_proc (k_cpu s)) (k_ticks s)) (k_procs s) |>) ->
     Q tt s') ->
  wp (wakeup chan) s Q.
Proof.
  intros Hw Hl Ht Hlen HQ. unfold wakeup.
  set (me := c_proc (k_cpu s)) in *. set (t := k_ticks s) in *.
  apply (wp_for_list (fun n s' => hart_same s s' /\
    nohart s' = nohart (s <| k_procs := woken_upto chan me t n (k_procs s) |>))).
  - split; [done|]. rewrite woken_upto_0. by rewrite nohart_set_id.
  - intros n b s1 [-> Hn]%all_procs_lookup [Hh E].
    assert (is_Some (k_procs s !! n)) as [p Hp] by (apply lookup_lt_is_Some_2; lia).
    destruct (woken_upto_S chan me t n _ _ Hp) as [Hp' HS].
    pose proof (f_equal k_procs E : k_procs s1 = woken_upto chan me t n (k_procs s)) as P1.
    pose proof Hh as (Hheld & Hcp & _).
    apply (wp_wake_one chan n s1 p).
    + by eapply hart_same_wf.
    + by rewrite Hheld.
    + by rewrite Hheld.
    + by rewrite P1.
    + intros s2 Hh2 E2. split; [by etrans|]. rewrite E2, P1, Hcp. fold me.
      rewrite (f_equal k_ticks E : k_ticks s1 = t), HS. by eapply nohart_set.
  - intros s' [Hh E]. apply HQ; [done|]. rewrite E. rewrite woken_upto_all; [done|].
    by rewrite Hlen.
Qed.

(** ** clockintr *)

(** An entry that does not match is left alone, whatever locks are held
    besides. *)
Lemma wp_wake_skip chan i s p (Q : unit -> kstate -> Prop) :
  hart_wf s -> Lproc i ∉ k_held s -> k_procs s !! i = Some p ->
  c_proc (k_cpu s) = Some i \/ ~ (p_state p = SLEEPING /\ p_chan p = chan) ->
  (forall s', hart_eq s s' -> Q tt s') -> wp (wake_one chan i) s Q.
Proof.
  intros Hw Hl Hp Hskip HQ. unfold wake_one, when. wp_step.
  apply wp_myproc; [done|]. intros s1 H1. pose proof H1 as [Hh1 E1].
  destruct (bool_decide (c_proc (k_cpu s) = Some i)) eqn:Eme; cbn [negb].
  { apply wp_ret. by apply HQ. }
  apply bool_decide_eq_false in Eme. pose proof Hh1 as (Hheld & _).
  wp_step. apply wp_acquire; [by rewrite Hheld|].
  wp_step. apply (wp_getp _ i p); [ksimp; by rewrite (nohart_procs _ _ E1)|]. wp_step.
  assert (bool_decide (p_state p = SLEEPING) && bool_decide (p_chan p = chan) = false) as ->.
  { apply andb_false_iff. destruct Hskip as [?|Hn]; [done|].
    destruct (decide (p_state p = SLEEPING)); [right|left]; apply bool_decide_eq_false_2; naive_solver. }
  wp_step. apply (wp_unlock (Lproc i) s1); [by eapply hart_same_wf|by rewrite Hheld|reflexivity|].
  intros s2 Hh2 E2. apply HQ. etrans; [exact H1|]. split; [done|]. by rewrite E2.
Qed.

(** A matching entry makes wakeup call sys_uptime, which cannot be called
    with tickslock held. *)
Lemma wake_one_panics chan i s p :
  hart_wf s -> Lproc i ∉ k_held s -> Ltickslock ∈ k_held s -> k_procs s !! i = Some p ->
  c_proc (k_cpu s) <> Some i -> p_state p = SLEEPING -> p_chan p = chan ->
  panics "acquire" (wake_one chan i s).
Proof.
  intros Hw Hl Ht Hp Hme Hs Hc. unfold wake_one, when.
  apply panics_run. apply wp_myproc; [done|]. intros s1 [Hh1 E1]. pose proof Hh1 as (Hheld & _).
  rewrite bool_decide_eq_false_2 by done. cbn [negb].
  apply panics_run. apply wp_acquire; [by rewrite Hheld|].
  pose proof (nohart_procs _ _ E1) as P1.
  apply panics_run. apply (wp_getp _ i p); [ksimp; by rewrite P1|].
  rewrite !bool_decide_eq_true_2 by done. cbn [andb]. apply panics_bind.
  apply panics_run. apply (wp_setp _ i _ p); [ksimp; by rewrite P1|]. apply panics_bind.
  unfold sys_uptime. apply panics_bind. unfold panics. apply acquire_held. ksimp. right. by rewrite Hheld.
Qed.

Lemma wakeup_panics chan l s :
  hart_wf s -> (forall i, Lproc i ∉ k_held s) -> Ltickslock ∈ k_held s ->
  Forall (fun i => is_Some (k_procs s !! i)) l ->
  (exists i p, i ∈ l /\ k_procs s !! i = Some p /\ c_proc (k_cpu s) <> Some i /\
     p_state p = SLEEPING /\ p_chan p = chan) ->
  panics "acquire" (for_list l (wake_one chan) s).
Proof.
  revert s. induction l as [|j l IH]; intros s Hw Hl Ht Hin (i & p & Hi & Hp & Hme & Hs & Hc).
  { by apply not_elem_of_nil in Hi. }
  rewrite for_list_cons. apply Forall_cons in Hin as [[q Hq] Hin].
  destruct (decide (c_proc (k_cpu s) <> Some j /\ p_state q = SLEEPING /\ p_chan q = chan)) as [(?&?&?)|Hno].
  { apply panics_bind. by eapply wake_one_panics. }
  apply panics_run. apply (wp_wake_skip chan j s q); auto.
  { destruct (decide (c_proc (k_cpu s) = Some j)); [by left|right; naive_solver]. }
  intros s1 [Hh1 E1]. pose proof (nohart_procs _ _ E1) as P1. pose proof Hh1 as (Hheld & Hcp & _).
  apply elem_of_cons in Hi as [->|Hi]; [destruct Hno; by simplify_eq|].
  apply IH.
  - by eapply hart_same_wf.
  - by rewrite Hheld.
  - by rewrite Hheld.
  - by rewrite P1.
  - exists i, p. rewrite P1, Hcp. auto.
Qed.

(** ** sched and sleep *)

(** Under its contract sched switches, and the resumed thread only puts its
    own [intena] back. *)
Lemma sched_switch s i p :
  hart_wf s -> c_proc (k_cpu s) = Some i -> Lproc i ∈ k_held s -> c_noff (k_cpu s) = 1 ->
  k_procs s !! i = Some p -> p_state p <> RUNNING ->
  exists s1, hart_eq s s1 /\
    sched s = Switch s1 (fun s2 => Done tt (s2 <| k_cpu ::= upd c_intena (fun _ => c_intena (k_cpu s)) |>)).
Proof.
  intros Hw Hc Hl Hn Hp Hr. unfold sched.
  set (Φ := fun o : outcome kstate unit => exists s1, hart_eq s s1 /\
    o = Switch s1 (fun s2 => Done tt (s2 <| k_cpu ::= upd c_intena (fun _ => c_intena (k_cpu s)) |>))).
  apply (wp_run _ _ s Φ). apply wp_myproc; [done|]. intros s1 H1. pose proof H1 as [Hh E1].
  destruct Hh as (Hheld & Hcp & Hnoff & Hsie & _ & Hint).
  rewrite Hc. apply (wp_run _ _ s1 Φ). apply wp_ret.
  apply (wp_run _ _ s1 Φ). unfold holding. wp_step. rewrite bool_decide_eq_true_2 by by rewrite Hheld. cbn [negb].
  apply (wp_run _ _ s1 Φ). unfold mycpu. wp_step. rewrite Hnoff, Hn. cbn [Z.eqb negb].
  apply (wp_run _ _ s1 Φ). apply (wp_getp s1 i p); [by rewrite (nohart_procs _ _ E1)|].
  rewrite decide_False by done.
  apply (wp_run _ _ s1 Φ). unfold intr_get. wp_step.
  destruct Hw as [_ Hw]. rewrite Hsie, Hw by lia.
  exists s1. split; [done|]. unfold bind, gets, switch. simpl. rewrite Hint by lia. reflexivity.
Qed.

(** The time accounting of a process that stops running. *)
Definition charged (t : Z) (p : proc) : proc :=
  let p := p <| p_run_time := u32 (p_run_time p + (t - p_last_run_start p)) |> in
  if negb (p_is_kernel p =? 0)
  then p <| p_kernel_time := u32 (p_kernel_time p + (t - p_last_kernel_time p)) |> else p.

Lemma hart_eq_locks s s' : hart_eq s s' -> k_held s' = k_held s /\ k_procs s' = k_procs s /\ k_ticks s' = k_ticks s.
Proof.
  intros [(? & _) E]. split; [done|]. split; [exact (f_equal k_procs E)|exact (f_equal k_ticks E)].
Qed.
Lemma nohart_eq_set s s' X : hart_eq s s' -> nohart (s' <| k_procs := X |>) = nohart (s <| k_procs := X |>).
Proof. intros [_ E]. by apply nohart_set_eq. Qed.
Lemma hart_same_set s s' X Y : hart_same s s' -> hart_same (s <| k_procs := X |>) (s' <| k_procs := Y |>).
Proof. done. Qed.
Lemma hart_wf_set s X : hart_wf s -> hart_wf (s <| k_procs := X |>).
Proof. done. Qed.

Lemma wp_charge i s p (Q : unit -> kstate -> Prop) :
  hart_wf s -> Ltickslock ∉ k_held s -> k_procs s !! i = Some p ->
  (forall s', hart_same s s' ->
     nohart s' = nohart (s <| k_procs := <[i := charged (k_ticks s) p]> (k_procs s) |>) -> Q tt s') ->
  wp (charge i) s Q.
Proof.
  intros Hw Ht Hp HQ. unfold charge, when.
  assert (Hi : (i < length (k_procs s))%nat) by by eapply lookup_lt_Some.
  wp_step. apply wp_sys_uptime; auto. intros s1 H1. destruct (hart_eq_locks _ _ H1) as (L1 & P1 & T1).
  wp_step. apply (wp_setp s1 i _ p); [by rewrite P1|].
  set (p1 := p <| p_run_time := u32 (p_run_time p + (k_ticks s - p_last_run_start p)) |>).
  wp_step. apply (wp_getp _ i p1); [ksimp; apply list_lookup_insert_eq; by rewrite P1|].
  unfold charged in HQ. fold p1 in HQ. cbv zeta in HQ.
  destruct (negb (p_is_kernel p1 =? 0)).
  - wp_step. apply wp_sys_uptime.
    + eapply hart_same_wf; [|exact Hw]. apply H1.
    + ksimp. by rewrite L1.
    + intros s2 H2. destruct (hart_eq_locks _ _ H2) as (L2 & P2 & T2). ksimp.
      apply (wp_setp s2 i _ p1); [rewrite P2; apply list_lookup_insert_eq; by rewrite P1|].
      apply HQ; [etrans; [apply H1|apply H2]|].
      rewrite (nohart_eq_set _ _ _ H2), P2, P1, T1, list_insert_insert_eq.
      change (nohart (s1 <| k_procs := ?a |> <| k_procs := ?b |>)) with (nohart (s1 <| k_procs := b |>)).
      by rewrite (nohart_eq_set _ _ _ H1).
  - apply wp_ret. apply HQ; [apply H1|]. rewrite (nohart_eq_set _ _ _ H1), P1. done.
Qed.

Lemma filter_second (l1 l2 : lockid) : l1 <> l2 -> filter (fun x => x <> l2) [l1; l2] = [l1].
Proof. intros. rewrite filter_cons_True by done. by rewrite filter_cons_False by auto. Qed.

(** Swapping the caller's lock for the process's own. *)
Lemma wp_swap_locks i lk s s1 (Q : unit -> kstate -> Prop) :
  hart_eq s s1 -> c_proc (k_cpu s) = Some i -> k_held s = [lk] -> c_noff (k_cpu s) = 1 -> lk <> Lproc i ->
  (forall s2, hart_wf s2 -> c_proc (k_cpu s2) = Some i -> k_held s2 = [Lproc i] -> c_noff (k_cpu s2) = 1 ->
     c_sie (k_cpu s2) = false -> nohart s2 = nohart s -> Q tt s2) ->
  wp (acquire (Lproc i) ;! release lk) s1 Q.
Proof.
  intros [(L1 & C1 & N1 & _) E1] Hc Hh Hn Hne HQ.
  wp_step. apply wp_acquire; [rewrite L1, Hh; intros E%list_elem_of_singleton; done|].
  eapply wp_eq.
  { apply release_done with (h := [Lproc i]); ksimp; rewrite ?L1, ?Hh, ?N1, ?Hn; auto.
    - right. left.
    - apply filter_second. auto.
    - lia. }
  apply HQ; [|ksimp; rewrite ?N1, ?Hn, ?C1; done..|].
  - unfold hart_wf. ksimp. rewrite N1, Hn. split; [lia|done].
  - rewrite nohart_unlocked, nohart_locked. exact E1.
Qed.

Lemma wp_sleep_enter chan lk s i p :
  hart_wf s -> c_proc (k_cpu s) = Some i -> k_held s = [lk] -> c_noff (k_cpu s) = 1 ->
  lk <> Lproc i -> k_procs s !! i = Some p ->
  wp (sleep_enter chan lk) s (fun r s' => r = i /\ c_proc (k_cpu s') = Some i /\
    k_held s' = [Lproc i] /\ c_noff (k_cpu s') = 1 /\ c_sie (k_cpu s') = false /\
    nohart s' = nohart (s <| k_procs :=
      <[i := (charged (k_ticks s) (p <| p_chan := Some chan |>)) <| p_state := SLEEPING |>]> (k_procs s) |>)).
Proof.
  intros Hw Hc Hh Hn Hne Hp. unfold sleep_enter.
  assert (Hi : (i < length (k_procs s))%nat) by by eapply lookup_lt_Some.
  wp_step. apply wp_myproc; [done|]. intros s1 H1. rewrite Hc. wp_step. apply wp_ret.
  apply wp_assoc. wp_step. apply (wp_swap_locks i lk s); auto. intros s2 Hw2 C2 L2 N2 S2 E2.
  pose proof (nohart_procs _ _ E2) as P2. pose proof (f_equal k_ticks E2 : k_ticks s2 = k_ticks s) as T2.
  wp_step. apply (wp_setp s2 i _ p); [by rewrite P2|].
  wp_step. apply (wp_charge i _ (p <| p_chan := Some chan |>)).
  { done. }
  { ksimp. rewrite L2. intros E%list_elem_of_singleton. done. }
  { ksimp. apply list_lookup_insert_eq. by rewrite P2. }
  intros s3 (L3 & C3 & N3 & S3 & _) E3. ksimp. rewrite T2, P2, list_insert_insert_eq in E3.
  set (p3 := charged (k_ticks s) (p <| p_chan := Some chan |>)) in *.
  assert (P3 : k_procs s3 = <[i := p3]> (k_procs s)) by exact (f_equal k_procs E3).
  wp_step. apply (wp_setp s3 i _ p3); [rewrite P3; by apply list_lookup_insert_eq|].
  apply wp_ret. ksimp. rewrite L3, C3, N3, S3. ksimp. split; [done|]. split; [done|]. split; [done|].
  split; [done|]. split; [done|].
  rewrite (nohart_set s2 s3 _ _ E3), P3, list_insert_insert_eq. by apply nohart_set_eq.
Qed.

Lemma wp_sleep_leave i lk s p :
  lk <> Lproc i -> k_held s = [Lproc i] -> c_noff (k_cpu s) = 1 -> c_sie (k_cpu s) = false ->
  k_procs s !! i = Some p ->
  wp (sleep_leave i lk) s (fun _ s' => k_held s' = [lk] /\ c_noff (k_cpu s') = 1 /\
    c_sie (k_cpu s') = false /\ c_proc (k_cpu s') = c_proc (k_cpu s) /\
    nohart s' = nohart (s <| k_procs := <[i := p <| p_chan := None |>]> (k_procs s) |>)).
Proof.
  intros Hne Hh Hn Hs Hp. unfold sleep_leave. wp_step. apply (wp_setp s i _ p); [done|]. wp_step.
  apply (wp_release (Lproc i) _ []); ksimp; auto; [apply not_elem_of_nil|lia|].
  apply wp_acquire; ksimp; [apply not_elem_of_nil|]. rewrite Hn.
  split_and!; [done|done|done|done|]. rewrite nohart_locked, nohart_unlocked. done.
Qed.

(** ** kill *)

(** The victim's entry after a kill at time [t]. *)
Definition kill_proc (t : Z) (p : proc) : proc :=
  let p := p <| p_killed := 1 |> in
  if bool_decide (p_state p = SLEEPING)
  then p <| p_state := RUNNABLE |> <| p_last_runnable := u32 t |> else p.

Lemma wp_kill_skip pid i s p (Q : option Z -> kstate -> Prop) :
  hart_wf s -> Lproc i ∉ k_held s -> k_procs s !! i = Some p -> p_pid p <> pid ->
  (forall s', hart_eq s s' -> Q None s') -> wp (kill_one pid i) s Q.
Proof.
  intros Hw Hl Hp Hne HQ. unfold kill_one. wp_step. apply wp_acquire; [done|].
  wp_step. apply (wp_getp _ i p); [by ksimp|]. rewrite (proj2 (Z.eqb_neq _ _)) by done.
  wp_step. apply (wp_unlock (Lproc i) s); auto; [reflexivity|].
  intros s2 Hh E. apply wp_ret. apply HQ. split; [done|]. by rewrite E.
Qed.

Lemma wp_kill_hit i s p (Q : option Z -> kstate -> Prop) :
  hart_wf s -> Lproc i ∉ k_held s -> Ltickslock ∉ k_held s -> k_procs s !! i = Some p ->
  (forall s', hart_same s s' ->
     nohart s' = nohart (s <| k_procs := <[i := kill_proc (k_ticks s) p]> (k_procs s) |>) -> Q (Some 0) s') ->
  wp (kill_one (p_pid p) i) s Q.
Proof.
  intros Hw Hl Ht Hp HQ. unfold kill_one.
  assert (Hi : (i < length (k_procs s))%nat) by by eapply lookup_lt_Some.
  wp_step. apply wp_acquire; [done|].
  wp_step. apply (wp_getp _ i p); [by ksimp|]. rewrite Z.eqb_refl.
  wp_step. apply (wp_setp _ i _ p); [by ksimp|]. ksimp. wp_step. unfold when.
  unfold kill_proc in HQ. ksimp. destruct (bool_decide (p_state p = SLEEPING)).
  - wp_step. apply (wp_setp _ i _ (p <| p_killed := 1 |>)); [ksimp; by apply list_lookup_insert_eq|]. ksimp.
    rewrite list_insert_insert_eq. set (p2 := p <| p_killed := 1 |> <| p_state := RUNNABLE |>) in *.
    wp_step. apply wp_sys_uptime.
    + apply (hart_same_wf (locked (Lproc i) s)); [by repeat split|by apply locked_wf].
    + ksimp. by intros [?|?]%elem_of_cons.
    + intros s2 H2. destruct (hart_eq_locks _ _ H2) as (L2 & P2 & T2). ksimp.
      apply (wp_setp s2 i _ p2); [rewrite P2; by apply list_lookup_insert_eq|].
      wp_step. apply (wp_unlock (Lproc i) s); auto; [exact (proj1 H2)|].
      intros s3 H3 E3. apply wp_ret. apply HQ; [done|]. rewrite E3, P2, list_insert_insert_eq.
      exact (nohart_set s s2 _ _ (proj2 H2)).
  - apply wp_ret. wp_step. apply (wp_unlock (Lproc i) s); [done|done|by repeat split|].
    intros s3 H3 E3. apply wp_ret. apply HQ; [done|]. by rewrite E3.
Qed.

Lemma wp_kill_list pid l s (Q : option Z -> kstate -> Prop) :
  hart_wf s -> (forall i, Lproc i ∉ k_held s) -> Ltickslock ∉ k_held s ->
  Forall (fun i => is_Some (k_procs s !! i)) l ->
  (Forall (fun i => forall p, k_procs s !! i = Some p -> p_pid p <> pid) l ->
     forall s', hart_eq s s' -> Q None s') ->
  (forall i p l1 l2, l = l1 ++ i :: l2 -> k_procs s !! i = Some p -> p_pid p = pid ->
     Forall (fun i => forall p, k_procs s !! i = Some p -> p_pid p <> pid) l1 ->
     forall s', hart_same s s' ->
     nohart s' = nohart (s <| k_procs := <[i := kill_proc (k_ticks s) p]> (k_procs s) |>) -> Q (Some 0) s') ->
  wp (find_list l (kill_one pid)) s Q.
Proof.
  revert s Q. induction l as [|i l IH]; intros s Q Hw Hl Ht Hin Hno Hyes.
  { apply wp_ret. apply Hno; [constructor|done]. }
  apply Forall_cons in Hin as [[p Hp] Hin]. rewrite find_list_cons. wp_step.
  destruct (Z.eq_dec (p_pid p) pid) as [<-|Hne].
  { apply (wp_kill_hit i s p); auto. intros s' Hh E. apply wp_ret.
    apply (Hyes i p [] l); auto. }
  apply (wp_kill_skip pid i s p); auto. intros s1 H1.
  destruct (hart_eq_locks _ _ H1) as (L1 & P1 & T1).
  apply IH.
  - eapply hart_same_wf; [apply H1|done].
  - by rewrite L1.
  - by rewrite L1.
  - by rewrite P1.
  - rewrite P1. intros Hall s' H'. apply Hno; [|by etrans]. constructor; [|done]. naive_solver.
  - rewrite P1, T1. intros j q l1 l2 -> Hq Hpid Hall s' Hh E.
    apply (Hyes j q (i :: l1) l2); auto; [|by etrans; [apply H1|]|].
    + constructor; [|done]. naive_solver.
    + rewrite E. by apply nohart_eq_set.
Qed.

(** A whole sleep. *)
Lemma sleep_run chan lk s i p :
  hart_wf s -> c_proc (k_cpu s) = Some i -> k_held s = [lk] -> c_noff (k_cpu s) = 1 ->
  lk <> Lproc i -> k_procs s !! i = Some p ->
  exists s1 k, sleep chan lk s = Switch s1 k /\
    c_proc (k_cpu s1) = Some i /\ k_held s1 = [Lproc i] /\ c_noff (k_cpu s1) = 1 /\ c_sie (k_cpu s1) = false /\
    nohart s1 = nohart (s <| k_procs :=
      <[i := (charged (k_ticks s) (p <| p_chan := Some chan |>)) <| p_state := SLEEPING |>]> (k_procs s) |>) /\
    forall s2 p2, k_held s2 = [Lproc i] -> c_noff (k_cpu s2) = 1 -> c_sie (k_cpu s2) = false ->
      k_procs s2 !! i = Some p2 ->
      exists s3, k s2 = Done tt s3 /\ k_held s3 = [lk] /\ c_noff (k_cpu s3) = 1 /\
        c_sie (k_cpu s3) = false /\ c_proc (k_cpu s3) = c_proc (k_cpu s2) /\
        nohart s3 = nohart (s2 <| k_procs := <[i := p2 <| p_chan := None |>]> (k_procs s2) |>).
Proof.
  intros Hw Hc Hh Hn Hne Hp. unfold sleep.
  destruct (proj1 (wp_done _ _ _) (wp_sleep_enter chan lk s i p Hw Hc Hh Hn Hne Hp))
    as (r & s4 & E4 & -> & C4 & L4 & N4 & S4 & NH4).
  rewrite (bind_done _ _ _ _ _ E4).
  set (p4 := (charged (k_ticks s) (p <| p_chan := Some chan |>)) <| p_state := SLEEPING |>) in *.
  destruct (sched_switch s4 i p4) as (s5 & [(L5 & C5 & N5 & S5 & _) E5'] & E5); auto.
  - split; [lia|done].
  - rewrite L4. left.
  - rewrite (f_equal k_procs NH4 : k_procs s4 = <[i := p4]> (k_procs s)).
    apply list_lookup_insert_eq. by eapply lookup_lt_Some.
  - unfold bind at 1. rewrite E5. cbn [obind]. do 2 eexists. split; [reflexivity|].
    split; [congruence|]. split; [congruence|]. split; [congruence|]. split; [congruence|]. split; [rewrite E5'; exact NH4|].
    intros s6 p6 L6 N6 S6 P6.
    set (s6' := s6 <| k_cpu ::= upd c_intena (fun _ => c_intena (k_cpu s4)) |>).
    destruct (proj1 (wp_done _ _ _) (wp_sleep_leave i lk s6' p6 Hne L6 N6 S6 P6))
      as ([] & s7 & E7 & ?). exists s7. split; [exact E7|]. done.
Qed.

(** ** Properties *)

(** wakeup makes exactly the processes that sleep on [chan] runnable, the
    caller excepted, and stamps them with the current time; every other
    process and the rest of the kernel state is unchanged, no lock stays held,
    and no panic is possible when the caller holds no p->lock and not
    tickslock. *)
Theorem wakeup_spec chan s :
  hart_wf s -> (forall i, Lproc i ∉ k_held s) -> Ltickslock ∉ k_held s ->
  length (k_procs s) = Z.to_nat NPROC ->
  exists s', wakeup chan s = Done tt s' /\ hart_same s s' /\
    nohart s' = nohart (s <| k_procs := imap (woken chan (c_proc (k_cpu s)) (k_ticks s)) (k_procs s) |>).
Proof.
  intros. cut (wp (wakeup chan) s (fun _ s' => hart_same s s' /\
    nohart s' = nohart (s <| k_procs := imap (woken chan (c_proc (k_cpu s)) (k_ticks s)) (k_procs s) |>))).
  { intros ([] & s' & ?)%wp_done. eauto. }
  by apply wp_wakeup.
Qed.

(** C34. A clock tick panics the kernel when a process sleeps on [&ticks]:
    clockintr holds tickslock when wakeup stamps the woken process with
    sys_uptime, which takes tickslock again. *)
Theorem clockintr_panics s i p :
  hart_wf s -> (forall i, Lproc i ∉ k_held s) -> Ltickslock ∉ k_held s ->
  length (k_procs s) = Z.to_nat NPROC ->
  k_procs s !! i = Some p -> c_proc (k_cpu s) <> Some i ->
  p_state p = SLEEPING -> p_chan p = Some Cticks ->
  exists s', clockintr s = Panic "acquire" s'.
Proof.
  intros Hw Hl Ht Hlen Hp Hme Hs Hc. unfold clockintr. change (panics "acquire" (
    (acquire Ltickslock ;! modify (upd k_ticks (fun t => u32 (t + 1))) ;! wakeup (Some Cticks) ;!
     release Ltickslock) s)).
  apply panics_run. apply wp_acquire; [done|]. apply panics_run. wp_step. apply panics_bind.
  apply wakeup_panics; ksimp.
  - apply (hart_same_wf (locked Ltickslock s)); [by repeat split|by apply locked_wf].
  - intros j. rewrite not_elem_of_cons. split; [done|apply Hl].
  - left.
  - apply Forall_forall. intros j Hj%elem_of_seq. apply lookup_lt_is_Some_2. lia.
  - exists i, p. split; [|done]. apply elem_of_seq. apply lookup_lt_Some in Hp. lia.
Qed.

(** C35. sleep(chan, lk): the process gives up the CPU asleep on [chan], with
    [lk] released and its own lock the only one held (so that a wakeup between
    the release and the switch waits for that lock and is not lost), its
    running time charged and nothing else changed; when it is resumed with
    that lock, it returns with exactly [lk] held again and its channel
    cleared. *)
Theorem sleep_spec chan lk s i p :
  hart_wf s -> c_proc (k_cpu s) = Some i -> k_held s = [lk] -> c_noff (k_cpu s) = 1 ->
  lk <> Lproc i -> k_procs s !! i = Some p ->
  exists s1 k, sleep chan lk s = Switch s1 k /\
    k_held s1 = [Lproc i] /\ c_noff (k_cpu s1) = 1 /\ c_sie (k_cpu s1) = false /\
    nohart s1 = nohart (s <| k_procs :=
      <[i := (charged (k_ticks s) (p <| p_chan := Some chan |>)) <| p_state := SLEEPING |>]> (k_procs s) |>) /\
    forall s2 p2, k_held s2 = [Lproc i] -> c_noff (k_cpu s2) = 1 -> c_sie (k_cpu s2) = false ->
      k_procs s2 !! i = Some p2 ->
      exists s3, k s2 = Done tt s3 /\ k_held s3 = [lk] /\ c_noff (k_cpu s3) = 1 /\
        nohart s3 = nohart (s2 <| k_procs := <[i := p2 <| p_chan := None |>]> (k_procs s2) |>).
Proof.
  intros Hw Hc Hh Hn Hne Hp. destruct (sleep_run chan lk s i p Hw Hc Hh Hn Hne Hp) as (s1 & k & E & _ & H1 & H2 & H3 & H4 & Hk).
  exists s1, k. split_and!; [done..|]. intros s2 p2 L2 N2 S2 P2.
  destruct (Hk s2 p2 L2 N2 S2 P2) as (s3 & ? & ? & ? & _ & _ & ?). by exists s3.
Qed.

Lemma kill_cases pid s :
  hart_wf s -> (forall i, Lproc i ∉ k_held s) -> Ltickslock ∉ k_held s ->
  length (k_procs s) = Z.to_nat NPROC ->
  (exists i p s', k_procs s !! i = Some p /\ p_pid p = pid /\
     (forall j q, (j < i)%nat -> k_procs s !! j = Some q -> p_pid q <> pid) /\
     kill pid s = Done 0 s' /\ hart_same s s' /\
     nohart s' = nohart (s <| k_procs := <[i := kill_proc (k_ticks s) p]> (k_procs s) |>)) \/
  ((forall i p, k_procs s !! i = Some p -> p_pid p <> pid) /\
     exists s', kill pid s = Done (-1) s' /\ hart_eq s s').
Proof.
  intros Hw Hl Ht Hlen.
  set (R := fun r s' => (exists i p, k_procs s !! i = Some p /\ p_pid p = pid /\
     (forall j q, (j < i)%nat -> k_procs s !! j = Some q -> p_pid q <> pid) /\ r = 0 /\ hart_same s s' /\
     nohart s' = nohart (s <| k_procs := <[i := kill_proc (k_ticks s) p]> (k_procs s) |>)) \/
    ((forall i p, k_procs s !! i = Some p -> p_pid p <> pid) /\ r = -1 /\ hart_eq s s')).
  cut (wp (kill pid) s R).
  { intros (r & s' & E & [(i & p & ? & ? & ? & -> & ? & ?)|(? & -> & ?)])%wp_done; [left|right]; eauto 10. }
  unfold kill. wp_step. apply wp_kill_list; auto.
  - apply Forall_forall. intros j Hj%elem_of_seq. apply lookup_lt_is_Some_2. lia.
  - intros Hall s' H'. apply wp_ret. right. split; [|done]. intros i p Hp.
    apply (proj1 (Forall_forall _ _) Hall i); [|done]. apply elem_of_seq. apply lookup_lt_Some in Hp. lia.
  - intros i p l1 l2 Hl12 Hp Hpid Hall s' Hh E. apply wp_ret. left. exists i, p. split; [done|]. split; [done|].
    split; [|done]. intros j q Hj Hq. apply (proj1 (Forall_forall _ _) Hall j); [|done].
    by apply (seq_prefix _ _ _ _ Hl12).
Qed.

(** kill(pid) marks the first process with that pid as killed, waking it
    when it sleeps, and returns 0; with no such process it returns -1 and
    changes nothing. *)
Theorem kill_spec pid s :
  hart_wf s -> (forall i, Lproc i ∉ k_held s) -> Ltickslock ∉ k_held s ->
  length (k_procs s) = Z.to_nat NPROC ->
  (exists i p s', k_procs s !! i = Some p /\ p_pid p = pid /\
     (forall j q, (j < i)%nat -> k_procs s !! j = Some q -> p_pid q <> pid) /\
     kill pid s = Done 0 s' /\ hart_same s s' /\
     nohart s' = nohart (s <| k_procs := <[i := kill_proc (k_ticks s) p]> (k_procs s) |>)) \/
  ((forall i p, k_procs s !! i = Some p -> p_pid p <> pid) /\
     exists s', kill pid s = Done (-1) s' /\ hart_eq s s').
Proof. apply kill_cases. Qed.

(** ** Examples *)

(** Process 0 runs, process 1 sleeps on the clock. *)
Definition ex_sched : kstate :=
  bss <| k_procs := <[0%nat := zero_proc <| p_state := RUNNING |>]>
           (<[1%nat := zero_proc <| p_state := SLEEPING |> <| p_chan := Some Cticks |> <| p_pid := 2 |>]>
             (k_procs bss)) |>
      <| k_cpu := mkCpu (Some 0%nat) 0 false true 0 |> <| k_ticks := 7 |>.

Lemma ex_sched_ok : hart_wf ex_sched /\ (forall l, l ∉ k_held ex_sched) /\
  length (k_procs ex_sched) = Z.to_nat NPROC.
Proof. split; [split; done|]. split; [intros l; apply not_elem_of_nil|reflexivity]. Qed.

Lemma wakeup_spec_witness : exists s', wakeup (Some Cticks) ex_sched = Done tt s' /\
  p_state <$> (k_procs s' !! 1%nat) = Some RUNNABLE.
Proof.
  destruct ex_sched_ok as (Hw & Hl & Hn).
  destruct (wakeup_spec (Some Cticks) ex_sched Hw (fun i => Hl (Lproc i)) (Hl Ltickslock) Hn)
    as (s' & E & _ & Hs).
  exists s'. split; [exact E|]. rewrite (nohart_procs _ _ Hs). reflexivity.
Defined.

Lemma clockintr_panics_witness : exists s', clockintr ex_sched = Panic "acquire" s'.
Proof.
  destruct ex_sched_ok as (Hw & Hl & Hn).
  apply (clockintr_panics ex_sched 1
    (zero_proc <| p_state := SLEEPING |> <| p_chan := Some Cticks |> <| p_pid := 2 |>)
    Hw (fun i => Hl (Lproc i)) (Hl Ltickslock) Hn); [reflexivity|discriminate|reflexivity|reflexivity].
Defined.

Lemma sleep_spec_witness :
  let s := ex_sched <| k_held := [Lwait_lock] |> <| k_cpu := mkCpu (Some 0%nat) 1 true false 0 |> in
  exists s1 k, sleep (Cproc 0) Lwait_lock s = Switch s1 k /\ k_held s1 = [Lproc 0].
Proof.
  intros s.
  destruct (sleep_spec (Cproc 0) Lwait_lock s 0 (zero_proc <| p_state := RUNNING |>))
    as (s1 & k & E & L & _).
  - split; [done|reflexivity].
  - reflexivity.
  - reflexivity.
  - reflexivity.
  - discriminate.
  - reflexivity.
  - exists s1, k. split; [exact E|exact L].
Defined.

Lemma kill_spec_witness : exists s', kill 2 ex_sched = Done 0 s' /\
  p_killed <$> (k_procs s' !! 1%nat) = Some 1.
Proof.
  destruct ex_sched_ok as (Hw & Hl & Hn).
  destruct (kill_spec 2 ex_sched Hw (fun i => Hl (Lproc i)) (Hl Ltickslock) Hn)
    as [(i & p & s' & Hp & Hpid & Hfirst & E & _ & Hs)|[Hno _]].
  - exists s'. split; [exact E|]. rewrite (nohart_procs _ _ Hs).
    destruct (decide (i = 1%nat)) as [->|Hi].
    + simpl in Hp. injection Hp as <-. reflexivity.
    + exfalso. destruct i as [|[|i]]; [simpl in Hp; injection Hp as <-; discriminate|done|].
      by apply (Hfirst 1%nat (zero_proc <| p_state := SLEEPING |> <| p_chan := Some Cticks |> <| p_pid := 2 |>)); [lia|..].
  - exfalso. by apply (Hno 1%nat (zero_proc <| p_state := SLEEPING |> <| p_chan := Some Cticks |> <| p_pid := 2 |>)).
Defined.

End Sched.
Export Sched.
