(* ===== verification/SchedLive.v ===== *)
(** * The scheduler gives every runnable process the CPU

    [scheduler] switches to a process and is resumed in the state the process
    left; [drive] runs it against any such states.  A process that is
    RUNNABLE gets the CPU before the scheduler has run more processes than
    the table has entries before it. *)

From S2P Require Import Prelude State Spinlock CString Mem Kalloc Sched.

Module SchedLive.

(** [drive env n o]: the states at the context switches of [o] and what it
    ends with, when the [k]-th switch from [n] on is answered by [env]. *)
Fixpoint drive {A} (env : nat -> kstate -> kstate) (n : nat) (o : outcome kstate A) : list kstate * outcome kstate A :=
  match o with
  | Switch s k => let '(tr, o) := drive env (S n) (k (env n s)) in (s :: tr, o)
  | o => ([], o)
  end.

Lemma drive_bind {A B} env n (o : outcome kstate A) (f : A -> K B) tr a s :
  drive env n o = (tr, Done a s) ->
  drive env n (obind o f) = let '(tr', o') := drive env (n + length tr) (f a s) in (tr ++ tr', o').
Proof.
  revert n tr. induction o as [b t|m t|m t| |t k IH]; intros n tr; cbn [drive obind]; try done.
  - intros [= <- -> ->]. rewrite Nat.add_0_r. by destruct (drive env n (f a s)).
  - destruct (drive env (S n) (k (env n t))) as [tr1 o1] eqn:E. intros [= <- ->].
    rewrite (IH _ _ _ E). cbn [length]. rewrite Nat.add_succ_r. by destruct (drive env _ (f a s)).
Qed.

(** Between processes the scheduler holds no lock. *)
Record idle (s : kstate) : Prop := {
  id_held : k_held s = [];
  id_noff : c_noff (k_cpu s) = 0;
  id_proc : c_proc (k_cpu s) = None;
  id_len : length (k_procs s) = Z.to_nat NPROC;
}.
(** What sched() tests before it switches back: interrupts are off and the
    lock of the process is the only one held. *)
Record held_by (i : nat) (s : kstate) : Prop := {
  hb_held : k_held s = [Lproc i];
  hb_noff : c_noff (k_cpu s) = 1;
  hb_sie : c_sie (k_cpu s) = false;
  hb_len : length (k_procs s) = Z.to_nat NPROC;
}.
Definition state_is (st : procstate) (i : nat) (s : kstate) : Prop :=
  exists p, k_procs s !! i = Some p /\ p_state p = st.

(** The entry of a process that gets the CPU at time [t]. *)
Definition started (t : Z) (p : proc) : proc :=
  let p := p <| p_state := RUNNING |> <| p_waiting_time := u32 (p_waiting_time p + (t - p_last_runnable p)) |>
             <| p_last_run_start := u32 t |> in
  if negb (p_is_kernel p =? 0) then p <| p_last_kernel_time := u32 t |> else p.

(** The rest of a turn, after the process came back. *)
Definition after (i : nat) : K unit :=
  setp i (upd p_context_switches (fun n => u32 (n + 1))) ;!
  modify (upd k_cpu (upd c_proc (fun _ => None))) ;!
  release (Lproc i).

Lemma idle_wf s : idle s -> hart_wf s.
Proof. intros [_ Hn _ _]. split; lia. Qed.

Lemma skip_turn s i p : idle s -> k_procs s !! i = Some p -> p_state p <> RUNNABLE ->
  wp (schedule_one i) s (fun _ s' => idle s' /\ k_procs s' = k_procs s).
Proof.
  intros Hi Hp Hr. pose proof (idle_wf s Hi) as Hw. destruct Hi as [Hh Hn Hc Hl]. unfold schedule_one.
  wp_step. apply wp_acquire; [rewrite Hh; apply not_elem_of_nil|].
  wp_step. apply (wp_getp _ i p); [by ksimp|]. rewrite bool_decide_eq_false_2 by done. cbn [when].
  do 2 wp_step. apply (wp_unlock (Lproc i) s); [done|rewrite Hh; apply not_elem_of_nil|done|].
  intros s2 (H1 & H2 & H3 & _) E. pose proof (f_equal k_procs E : k_procs s2 = k_procs s) as Ep.
  split; [|done]. split; [by rewrite H1|by rewrite H3|by rewrite H2|by rewrite Ep].
Qed.

Lemma after_done s i p : held_by i s -> k_procs s !! i = Some p ->
  wp (after i) s (fun _ s' => idle s' /\
    k_procs s' = <[i := upd p_context_switches (fun n => u32 (n + 1)) p]> (k_procs s)).
Proof.
  intros [Hh Hn Hs Hl] Hp. unfold after. wp_step. apply (wp_setp s i _ p); [done|]. do 2 wp_step.
  apply (wp_release (Lproc i) _ []); ksimp; [done|apply not_elem_of_nil|done|by rewrite Hn|].
  split; [|done]. split; ksimp; [done|by rewrite Hn|done|by rewrite length_insert].
Qed.

(** [s] with the lock of [i] taken and the process table [X]. *)
Definition at_table (s : kstate) (i : nat) (X : list proc) (t : kstate) : Prop :=
  hart_same (locked (Lproc i) s) t /\ nohart t = nohart (s <| k_procs := X |>).

Lemma at_table_procs s i X t : at_table s i X t -> k_procs t = X.
Proof. intros [_ E]. exact (f_equal k_procs E). Qed.

Lemma at_uptime s i X t (Q : Z -> kstate -> Prop) : idle s -> at_table s i X t ->
  (forall t', at_table s i X t' -> Q (k_ticks s) t') -> wp sys_uptime t Q.
Proof.
  intros Hi [Hh E] HQ. pose proof (f_equal k_ticks E : k_ticks t = k_ticks s) as Et. apply wp_sys_uptime.
  - eapply hart_same_wf; [exact Hh|]. by apply locked_wf, idle_wf.
  - destruct Hh as (-> & _). ksimp. rewrite (id_held _ Hi). intros E'%list_elem_of_singleton. done.
  - intros t' [Hh' E']. rewrite Et. apply HQ. split; [by etrans|congruence].
Qed.
Lemma at_setp s i X q f t (Q : unit -> kstate -> Prop) : at_table s i X t -> X !! i = Some q ->
  (forall t', at_table s i (<[i := f q]> X) t' -> Q tt t') -> wp (setp i f) t Q.
Proof.
  intros Ht Hq HQ. pose proof (at_table_procs _ _ _ _ Ht) as Ep. destruct Ht as [Hh E].
  apply (wp_setp t i f q); [by rewrite Ep|]. apply HQ. split; [done|]. rewrite Ep. by apply (nohart_set s t _ X).
Qed.

(** Up to the switch. *)
Lemma take_turn s i p : idle s -> k_procs s !! i = Some p -> p_state p = RUNNABLE ->
  exists s1 k, schedule_one i s = Switch s1 k /\ (forall s2, k s2 = after i s2) /\
    held_by i s1 /\ c_proc (k_cpu s1) = Some i /\ k_procs s1 = <[i := started (k_ticks s) p]> (k_procs s).
Proof.
  intros Hi Hp Hr. pose proof (idle_wf s Hi) as Hw. pose proof Hi as [Hh Hn Hc Hl].
  assert (Hlt : (i < length (k_procs s))%nat) by by eapply lookup_lt_Some.
  set (Φ := fun o : outcome kstate unit => exists s1 k, o = Switch s1 k /\ (forall s2, k s2 = after i s2) /\
    held_by i s1 /\ c_proc (k_cpu s1) = Some i /\ k_procs s1 = <[i := started (k_ticks s) p]> (k_procs s)).
  set (Φ1 := fun o : outcome kstate unit => Φ (obind o (fun _ => release (Lproc i)))).
  change (Φ (schedule_one i s)). unfold schedule_one.
  apply (wp_run _ _ s Φ). apply wp_acquire; [rewrite Hh; apply not_elem_of_nil|].
  apply (wp_run _ _ _ Φ). apply (wp_getp _ i p); [by ksimp|]. rewrite bool_decide_eq_true_2 by done. cbn [when].
  set (inner := bind (setp i _) _). change (Φ1 (inner (locked (Lproc i) s))). unfold inner. clear inner.
  apply (wp_run _ _ _ Φ1). apply (at_setp s i (k_procs s) p); [by split; [|by destruct s]|done|]. intros t1 H1.
  apply (wp_run _ _ _ Φ1). eapply (at_uptime s i); [done|exact H1|]. clear t1 H1. intros t1 H1.
  apply (wp_run _ _ _ Φ1). eapply at_setp; [exact H1|by apply list_lookup_insert_eq|]. rewrite list_insert_insert_eq.
  clear t1 H1. intros t1 H1.
  apply (wp_run _ _ _ Φ1). eapply (at_uptime s i); [done|exact H1|]. clear t1 H1. intros t1 H1.
  apply (wp_run _ _ _ Φ1). eapply at_setp; [exact H1|by apply list_lookup_insert_eq|]. rewrite list_insert_insert_eq.
  clear t1 H1. intros t1 H1. set (p1 := upd p_last_run_start _ _) in H1.
  apply (wp_run _ _ _ Φ1). apply (wp_getp _ i p1).
  { rewrite (at_table_procs _ _ _ _ H1). by apply list_lookup_insert_eq. }
  apply (wp_run _ _ _ Φ1). cut (forall t2, at_table s i (<[i := started (k_ticks s) p]> (k_procs s)) t2 ->
    Φ1 ((modify (upd k_cpu (upd c_proc (fun _ => Some i))) ;! switch ;!
         setp i (upd p_context_switches (fun n => u32 (n + 1))) ;!
         modify (upd k_cpu (upd c_proc (fun _ => None))))%K t2)).
  { intros Hk. assert (Hst : started (k_ticks s) p =
      if negb (p_is_kernel p1 =? 0) then p1 <| p_last_kernel_time := u32 (k_ticks s) |> else p1) by done.
    destruct (negb (p_is_kernel p1 =? 0)); cbn [when]; [|apply wp_ret; apply Hk; by rewrite Hst].
    apply wp_bind. eapply (at_uptime s i); [done|exact H1|]. clear t1 H1. intros t1 H1.
    eapply at_setp; [exact H1|by apply list_lookup_insert_eq|]. rewrite list_insert_insert_eq.
    intros t2 H2. apply Hk. by rewrite Hst. }
  clear t1 H1. intros t1 H1. pose proof (at_table_procs _ _ _ _ H1) as Ep. destruct H1 as [(G1 & _ & G3 & G4 & _) _].
  eexists _, _. split; [reflexivity|]. split; [|split; [|split; [done|by ksimp]]].
  - intros s2. unfold after, bind, setp. cbn [obind]. by destruct (k_procs s2 !! i).
  - split; ksimp; [rewrite G1; by ksimp; rewrite Hh|rewrite G3; ksimp; lia|rewrite G4; by ksimp|].
    by rewrite Ep, length_insert.
Qed.

Section live.
Context (env : nat -> kstate -> kstate).
(** A process comes back the way sched() leaves it. *)
Context (Hret : forall n i s, held_by i s -> c_proc (k_cpu s) = Some i -> state_is RUNNING i s -> held_by i (env n s)).

(** One turn: the CPU went to [i] in state [s1], or [i] was not runnable. *)
Lemma turn n i s : idle s -> (i < Z.to_nat NPROC)%nat ->
  exists tr s', drive env n (schedule_one i s) = (tr, Done tt s') /\ idle s' /\
    ((tr = [] /\ ~ state_is RUNNABLE i s /\ k_procs s' = k_procs s) \/
     (exists s1 p f, tr = [s1] /\ held_by i s1 /\ c_proc (k_cpu s1) = Some i /\ state_is RUNNING i s1 /\
        k_procs s1 = <[i := p]> (k_procs s) /\ k_procs s' = <[i := f]> (k_procs (env n s1)))).
Proof.
  intros Hi Hlt. rewrite <- (id_len _ Hi) in Hlt. destruct (lookup_lt_is_Some_2 _ _ Hlt) as [p Hp].
  destruct (decide (p_state p = RUNNABLE)) as [Hr|Hr].
  - destruct (take_turn s i p Hi Hp Hr) as (s1 & k & E & Ek & Hb & Hc & Ep). rewrite E. cbn [drive]. rewrite Ek.
    assert (Hrun : state_is RUNNING i s1).
    { exists (started (k_ticks s) p). rewrite Ep. split; [by apply list_lookup_insert_eq|].
      unfold started. by destruct (negb _). }
    pose proof (Hret n i s1 Hb Hc Hrun) as Hb2. assert (Hlt2 : (i < length (k_procs (env n s1)))%nat).
    { by rewrite (hb_len _ _ Hb2), <- (id_len _ Hi). }
    destruct (lookup_lt_is_Some_2 _ _ Hlt2) as [q Hq].
    destruct (proj1 (wp_done _ _ _) (after_done _ _ _ Hb2 Hq)) as ([] & s3 & E3 & Hi3 & Ep3). rewrite E3. cbn [drive].
    exists [s1], s3. split; [done|]. split; [done|]. right. by eexists s1, _, _.
  - destruct (proj1 (wp_done _ _ _) (skip_turn s i p Hi Hp Hr)) as ([] & s3 & E3 & Hi3 & Ep3). rewrite E3.
    exists [], s3. split; [done|]. split; [done|]. left. split; [done|]. split; [|done]. intros (p' & Hp' & ?). congruence.
Qed.

Context (j : nat) (Hkeep : forall n i s, i <> j -> held_by i s -> c_proc (k_cpu s) = Some i ->
  state_is RUNNABLE j s -> state_is RUNNABLE j (env n s)).

Lemma turn_keeps n i s tr s' : i <> j -> idle s -> (i < Z.to_nat NPROC)%nat ->
  drive env n (schedule_one i s) = (tr, Done tt s') -> state_is RUNNABLE j s -> state_is RUNNABLE j s'.
Proof.
  intros Hij Hi Hlt E Hj. destruct (turn n i s Hi Hlt) as (tr' & s2 & E' & _ & H). rewrite E in E'. injection E' as <- <-.
  destruct H as [(_ & _ & Ep)|(s1 & p & f & _ & Hb & Hc & _ & Ep1 & Ep2)].
  - destruct Hj as (q & Hq & ?). exists q. by rewrite Ep.
  - assert (Hj1 : state_is RUNNABLE j s1).
    { destruct Hj as (q & Hq & ?). exists q. rewrite Ep1. by rewrite list_lookup_insert_ne. }
    destruct (Hkeep n i s1 Hij Hb Hc Hj1) as (q & Hq & ?). exists q. rewrite Ep2. by rewrite list_lookup_insert_ne.
Qed.

Definition serves (m : nat) (tr : list kstate) : Prop :=
  exists k s1, (k <= m)%nat /\ tr !! k = Some s1 /\ c_proc (k_cpu s1) = Some j /\ state_is RUNNING j s1.

(** A sweep of the entries [l]. *)
Lemma sweep l n s : idle s -> (forall i, i ∈ l -> (i < Z.to_nat NPROC)%nat) ->
  exists tr s', drive env n (for_list l schedule_one s) = (tr, Done tt s') /\ idle s' /\ (length tr <= length l)%nat /\
    forall l1 l2, l = l1 ++ j :: l2 -> j ∉ l1 -> state_is RUNNABLE j s -> serves (length l1) tr.
Proof.
  revert n s. induction l as [|i l IH]; intros n s Hi Hl.
  { exists [], s. split; [done|]. split; [done|]. split; [done|]. intros [] l2 H; done. }
  assert (Hlt : (i < Z.to_nat NPROC)%nat) by (apply Hl; left).
  destruct (turn n i s Hi Hlt) as (tr & s1 & E & Hi1 & Ht).
  destruct (IH (n + length tr)%nat s1 Hi1) as (tr2 & s2 & E2 & Hi2 & Hlen & Hs). { intros k ?. apply Hl. by right. }
  exists (tr ++ tr2), s2. split.
  { change (for_list (i :: l) schedule_one s) with (obind (schedule_one i s) (fun _ => for_list l schedule_one)).
    rewrite (drive_bind _ _ _ _ _ _ _ E). by rewrite E2. }
  split; [done|]. rewrite length_app. cbn [length].
  assert (Hone : (length tr <= 1)%nat) by (destruct Ht as [(-> & _)|(? & ? & ? & -> & _)]; simpl; lia).
  split; [lia|]. intros l1 l2 El Hn Hj. destruct l1 as [|i' l1]; injection El as Ei El.
  - destruct Ht as [(_ & Hno & _)|(s3 & p & f & -> & _ & Hc & Hr & _)]; [by rewrite Ei in Hno|].
    exists 0%nat, s3. rewrite Ei in *. split; [simpl; lia|done].
  - apply not_elem_of_cons in Hn as [Hij Hn].
    assert (Hij' : i <> j) by congruence.
    destruct (Hs l1 l2 El Hn (turn_keeps n i s tr s1 Hij' Hi Hlt E Hj)) as (k & s3 & Hk & Hlk & ?).
    exists (length tr + k)%nat, s3. cbn [length]. split; [lia|]. split; [|done].
    rewrite lookup_app_r by lia. by replace (length tr + k - length tr)%nat with k by lia.
Qed.

Lemma rounds_end n r s : idle s -> exists tr s', drive env n (scheduler_loop r s) = (tr, Done tt s') /\ idle s'.
Proof.
  revert n s. induction r as [|r IH]; intros n s Hi; [by exists [], s|].
  set (s1 := upd k_cpu (upd c_sie (fun _ => true)) s).
  assert (Hi1 : idle s1) by (destruct Hi; split; done).
  destruct (sweep all_procs n s1 Hi1) as (tr & s2 & E & Hi2 & _). { intros i Hin%elem_of_seq. lia. }
  destruct (IH (n + length tr)%nat s2 Hi2) as (tr2 & s3 & E2 & Hi3).
  exists (tr ++ tr2), s3. split; [|done].
  change (scheduler_loop (S r) s) with (obind (for_list all_procs schedule_one s1) (fun _ => scheduler_loop r)).
  rewrite (drive_bind _ _ _ _ _ _ _ E). by rewrite E2.
Qed.

Lemma serves_mono m m' tr tr' : (m <= m')%nat -> serves m tr -> serves m' (tr ++ tr').
Proof.
  intros Hle (k & s1 & Hk & Hl & H). exists k, s1. split; [lia|]. split; [by apply lookup_app_l_Some|done].
Qed.

End live.

(** ** Properties *)


(** ** Example: two processes that take turns *)

(** The running process calls yield. *)
Definition ex_env (n : nat) (s : kstate) : kstate :=
  match c_proc (k_cpu s) with
  | Some i => s <| k_procs ::= alter (upd p_state (fun _ => RUNNABLE)) i |>
  | None => s
  end.
Definition ex_two : kstate := bss <| k_procs ::= alter (upd p_state (fun _ => RUNNABLE)) 3%nat |>
  <| k_procs ::= alter (upd p_state (fun _ => RUNNABLE)) 5%nat |>.


End SchedLive.
