(* ===== verification/FileLayer.v ===== *)
(** * What proc.c relies on of the file system

    The operations of file.c, fs.c and log.c that fork, clone, exit and
    userinit call, with what they promise: they may sleep and run other
    processes, but the calling code's view of the process table ([proc_view]:
    everything but the scheduling fields) and of the namespaces is theirs
    to keep in every stretch they run. *)

From S2P Require Import Prelude State Sched.

Class FileLayer := {
  filedup : nat -> K nat;
  fileclose : nat -> K unit;
  idup : option nat -> K (option nat);
  iput : option nat -> K unit;
  begin_op : K unit;
  end_op : K unit;
  namei : list Z -> K (option nat);
  filedup_frame f : frame proc_view (filedup f);
  fileclose_frame f : frame proc_view (fileclose f);
  idup_frame ip : frame proc_view (idup ip);
  iput_frame ip : frame proc_view (iput ip);
  begin_op_frame : frame proc_view begin_op;
  end_op_frame : frame proc_view end_op;
  namei_frame path : frame proc_view (namei path);
}.
#[export] Hint Resolve filedup_frame fileclose_frame idup_frame iput_frame begin_op_frame end_op_frame
  namei_frame : segs.
