(* ===== verification/Proc.v ===== *)
(** * proc.c: processes and pid namespaces

    Process creation and destruction, the namespace tree, wait and the
    ps_list / ps_info system calls.  The file system operations come in
    through the interface [FileLayer]. *)

From S2P Require Import Prelude State Spinlock CString Mem Kalloc Vm Sched FileLayer.

Module Proc.

Definition procinit : K unit :=
  for_list all_procs (fun i =>
    setp i (fun p => p <| p_state := UNUSED |> <| p_kstack := KSTACK (Z.of_nat i) |> <| p_init_ticks := 0 |>
      <| p_run_time := 0 |> <| p_context_switches := 0 |> <| p_waiting_time := 0 |>
      <| p_last_runnable := 0 |> <| p_ns := None |> <| p_pids := replicate (Z.to_nat MAXDEPTH) 0 |>)).

Definition namespaceinit : K unit :=
  for_list all_nss (fun n =>
    setns n (fun x => x <| ns_parent := None |> <| ns_head := None |> <| ns_id := 0 |> <| ns_depth := 0 |>
      <| ns_used := 0 |> <| ns_next_ns_pid := 1 |> <| ns_num_proc := 0 |>)).

Definition allocpid : K Z :=
  acquire Lpid_lock ;!
  let! pid := gets k_nextpid in
  modify (upd k_nextpid (fun n => i32 (n + 1))) ;!
  release Lpid_lock ;!
  ret pid.

Definition allocnamespaceid : K Z :=
  acquire Lns_lock ;!
  let! id := gets k_nextnamespace in
  modify (upd k_nextnamespace (fun n => i32 (n + 1))) ;!
  release Lns_lock ;!
  ret id.

Definition allocnamespace : K (option nat) :=
  find_list all_nss (fun n =>
    acquire (Lns n) ;!
    let! x := getns n in
    if ns_used x =? 0 then
      let! id := allocnamespaceid in
      setns n (fun x => x <| ns_id := id |> <| ns_head := None |> <| ns_parent := None |> <| ns_used := 1 |>
        <| ns_num_proc := 0 |> <| ns_depth := 0 |> <| ns_next_ns_pid := 1 |>) ;!
      release (Lns n) ;!
      ret (Some n)
    else release (Lns n) ;! ret None).

(** [p->pids[i] = v] *)
Definition setpid (p : nat) (i : nat) (v : Z) : K unit :=
  if decide (i < Z.to_nat MAXDEPTH)%nat then setp p (upd p_pids (fun l => <[i := v]> l))
  else fault "pids".
(** [p->pids[i]] *)
Definition getpid_at (p : nat) (i : Z) : K Z :=
  let! x := getp p in
  if i <? 0 then fault "pids" else deref "pids" (p_pids x !! Z.to_nat i).

(** The loop of allocproc, [for(int i = ns->depth; i >= 0; --i)], with
    [k = i + 1]. *)
Fixpoint assign_pids (p : nat) (k : nat) (curr_ns : option nat) : K unit :=
  match k with
  | O => ret tt
  | S i =>
      let! n := deref "curr_ns" curr_ns in
      acquire (Lns n) ;!
      let! x := getns n in
      setpid p i (ns_next_ns_pid x) ;!
      setns n (upd ns_next_ns_pid (fun v => i32 (v + 1))) ;!
      setns n (upd ns_num_proc (fun v => i32 (v + 1))) ;!
      release (Lns n) ;!
      let! x := getns n in
      assign_pids p i (ns_parent x)
  end.

Section proc.
Context {img : Image}.

Definition proc_pagetable (p : nat) : K Z :=
  let! pagetable := uvmcreate in
  if pagetable =? 0 then ret 0 else
  let! r := mappages pagetable TRAMPOLINE PGSIZE sym_trampoline (Z.lor PTE_R PTE_X) in
  if r <? 0 then uvmfree pagetable 0 ;! ret 0 else
  let! x := getp p in
  let! r := mappages pagetable TRAPFRAME PGSIZE (p_trapframe x) (Z.lor PTE_R PTE_W) in
  if r <? 0 then
    uvmunmap pagetable TRAMPOLINE 1 false ;!
    uvmfree pagetable 0 ;!
    ret 0
  else ret pagetable.

Definition proc_freepagetable (pagetable sz : Z) : K unit :=
  uvmunmap pagetable TRAMPOLINE 1 false ;!
  uvmunmap pagetable TRAPFRAME 1 false ;!
  uvmfree pagetable sz.

Definition freeproc (i : nat) : K unit :=
  let! p := getp i in
  when (negb (p_trapframe p =? 0)) (kfree (p_trapframe p)) ;!
  setp i (upd p_trapframe (fun _ => 0)) ;!
  let! p := getp i in
  when (negb (p_pagetable p =? 0)) (proc_freepagetable (p_pagetable p) (p_sz p)) ;!
  setp i (fun p => p <| p_pagetable := 0 |> <| p_sz := 0 |> <| p_pid := 0 |> <| p_parent := None |>
    <| p_name ::= <[0%nat := 0]> |> <| p_chan := None |> <| p_killed := 0 |> <| p_xstate := 0 |>
    <| p_state := UNUSED |> <| p_init_ticks := 0 |> <| p_kernel_time := 0 |> <| p_waiting_time := 0 |>
    <| p_last_runnable := 0 |>) ;!
  charge i ;!
  setp i (fun p => p <| p_ns := None |> <| p_pids := replicate (Z.to_nat MAXDEPTH) 0 |>).

(** The scan of allocproc: it returns with the lock of the entry held. *)
Definition find_unused : K (option nat) :=
  find_list all_procs (fun i =>
    acquire (Lproc i) ;!
    let! p := getp i in
    if decide (p_state p = UNUSED) then ret (Some i)
    else release (Lproc i) ;! ret None).

(** allocproc from [found:] up to the allocation of the trapframe. *)
Definition init_proc (i : nat) (ns : option nat) : K unit :=
  let! pid := allocpid in
  setp i (fun p => p <| p_pid := pid |> <| p_state := USED |> <| p_read_b := 0 |> <| p_write_b := 0 |>
    <| p_heap_pages := 0 |>) ;!
  let! t := sys_uptime in
  setp i (fun p => p <| p_last_run_start := u32 t |> <| p_is_kernel := 0 |> <| p_kernel_time := 0 |>) ;!
  let! t := sys_uptime in
  setp i (fun p => p <| p_last_kernel_time := u32 t |> <| p_ns := ns |>) ;!
  let! n := deref "ns" ns in
  let! x := getns n in
  assign_pids i (Z.to_nat (ns_depth x + 1)) ns.

Definition allocproc (ns : option nat) : K (option nat) :=
  let! f := find_unused in
  match f with
  | None => ret None
  | Some i =>
      init_proc i ns ;!
      let! tf := kalloc in
      setp i (upd p_trapframe (fun _ => tf)) ;!
      if tf =? 0 then freeproc i ;! release (Lproc i) ;! ret None else
      let! pt := proc_pagetable i in
      setp i (upd p_pagetable (fun _ => pt)) ;!
      if pt =? 0 then freeproc i ;! release (Lproc i) ;! ret None else
      setp i (fun p => p <| p_context := mkContext sym_forkret (u64 (p_kstack p + PGSIZE)) (replicate 12 0) |>) ;!
      ret (Some i)
  end.

(** Offsets in struct trapframe. *)
Definition TF_epc : Z := 24.
Definition TF_sp : Z := 48.
Definition TF_a0 : Z := 112.
Definition TF_size : Z := 288.

Definition growproc (n : Z) : K Z :=
  let! p := myproc in
  let! i := deref "p" p in
  let! x := getp i in
  let sz := p_sz x in
  if 0 <? n then
    let! sz' := uvmalloc (p_pagetable x) sz (u64 (sz + n)) PTE_W in
    if sz' =? 0 then ret (-1) else
    setp i (upd p_sz (fun _ => sz')) ;! ret 0
  else if n <? 0 then
    let! sz' := uvmdealloc (p_pagetable x) sz (u64 (sz + n)) in
    setp i (upd p_sz (fun _ => sz')) ;! ret 0
  else setp i (upd p_sz (fun _ => sz)) ;! ret 0.

(** compare_ns: the chain of parents has at most NUMNS members. *)
Fixpoint compare_ns_loop (fuel : nat) (ns ns2 : option nat) : K bool :=
  match ns with
  | None => ret false
  | Some n =>
      if bool_decide (ns = ns2) then ret true else
      match fuel with
      | O => nofuel
      | S fuel => let! x := getns n in compare_ns_loop fuel (ns_parent x) ns2
      end
  end.
Definition compare_ns (ns1 ns2 : option nat) : K bool :=
  compare_ns_loop (Z.to_nat NUMNS) ns1 ns2.

Fixpoint get_ns_head_loop (fuel : nat) (curr_ns : nat) (p : option nat) : K (option nat) :=
  let! x := getns curr_ns in
  if (0 <? ns_depth x) && bool_decide (p = None) then
    match fuel with
    | O => nofuel
    | S fuel =>
        let! n := deref "curr_ns" (ns_parent x) in
        let! y := getns n in
        get_ns_head_loop fuel n (ns_head y)
    end
  else ret p.
Definition get_ns_head (ns : option nat) : K (option nat) :=
  let! n := deref "ns" ns in
  let! x := getns n in
  get_ns_head_loop (Z.to_nat NUMNS) n (ns_head x).

Definition reparent (p : nat) : K unit :=
  for_list all_procs (fun pp =>
    let! x := getp pp in
    when (bool_decide (p_parent x = Some p))
      (let! new_parent := get_ns_head (p_ns x) in
       setp pp (upd p_parent (fun _ => new_parent)) ;!
       wakeup (Cproc <$> new_parent))).

Definition either_copyout (user_dst : bool) (dst : Z) (src : list Z) (len : Z) : K Z :=
  let! p := myproc in
  if user_dst then
    let! i := deref "p" p in
    let! x := getp i in
    copyout (p_pagetable x) dst src len
  else memmove_out dst src len ;! ret 0.

Definition either_copyin (user_src : bool) (src len : Z) : K (Z * list Z) :=
  let! p := myproc in
  if user_src then
    let! i := deref "p" p in
    let! x := getp i in
    copyin (p_pagetable x) src len
  else let! bs := memmove_in src len in ret (0, bs).

Section segs.
Context (P : kstate -> kstate -> Prop) `{!PreOrder P}
  `{!Blind P k_mem, !Blind P k_freelist, !Blind P k_held, !Blind P k_cpu}.
Lemma segs_proc_pagetable p : segs P (proc_pagetable p).
Proof. unfold proc_pagetable. segs_tac. Qed.
Lemma segs_proc_freepagetable p sz : segs P (proc_freepagetable p sz).
Proof. unfold proc_freepagetable. segs_tac. Qed.
Lemma segs_compare_ns a b : segs P (compare_ns a b).
Proof.
  unfold compare_ns. generalize (Z.to_nat NUMNS). intros fuel. revert a.
  induction fuel; intros; cbn [compare_ns_loop]; segs_tac.
Qed.
Lemma segs_get_ns_head a : segs P (get_ns_head a).
Proof.
  unfold get_ns_head. apply segs_bind; [segs_tac|segs_tac|]. intros n. apply segs_bind; [segs_tac|segs_tac|].
  intros x. generalize (ns_head x). revert n. generalize (Z.to_nat NUMNS). intros fuel.
  induction fuel; intros; cbn [get_ns_head_loop]; segs_tac.
Qed.
Lemma segs_find_unused : segs P find_unused.
Proof. unfold find_unused. segs_tac. Qed.
Lemma segs_getpid_at p i : segs P (getpid_at p i).
Proof. unfold getpid_at. segs_tac. Qed.
Lemma segs_either_copyout u d b n : segs P (either_copyout u d b n).
Proof. unfold either_copyout. segs_tac. Qed.
Lemma segs_either_copyin u a n : segs P (either_copyin u a n).
Proof. unfold either_copyin. segs_tac. Qed.
End segs.

(** The current process's entry. *)
Definition me : K nat := let! p := myproc in deref "myproc" p.

Lemma segs_me (P : kstate -> kstate -> Prop) `{!PreOrder P, !Blind P k_cpu} : segs P me.
Proof. unfold me. segs_tac. Qed.

(** [p->state != UNUSED && compare_ns(p->ns, myproc()->ns)] *)
Definition ps_visible (i : nat) : K bool :=
  let! x := getp i in
  if decide (p_state x = UNUSED) then ret false else
  let! m := me in
  let! y := getp m in
  compare_ns (p_ns x) (p_ns y).

Fixpoint ps_count (l : list nat) (count_ps : Z) : K Z :=
  match l with
  | [] => ret count_ps
  | i :: l =>
      let! v := ps_visible i in
      ps_count l (if v then count_ps + 1 else count_ps)
  end.

(** The second loop of ps_list; [None] is its [return -1]. *)
Fixpoint ps_copy (l : list nat) (index limit pids : Z) (global : Z) : K (option Z) :=
  match l with
  | [] => ret (Some index)
  | i :: l =>
      let! v := ps_visible i in
      if v && (index <? limit) then
        acquire (Lproc i) ;!
        let! x := getp i in
        let! m := me in
        let! y := getp m in
        let! n := deref "ns" (p_ns y) in
        let! ns := getns n in
        let! nspid := getpid_at i (ns_depth ns) in
        let curr_pid := if global =? 1 then p_pid x else nspid in
        let! m := me in
        let! y := getp m in
        let! copy_res := copyout (p_pagetable y) (u64 (pids + index * 4)) (bytes_of_int curr_pid) 4 in
        release (Lproc i) ;!
        if negb (copy_res =? 0) then ret None
        else ps_copy l (index + 1) limit pids global
      else ps_copy l index limit pids global
  end.

Definition ps_list (limit pids global : Z) : K Z :=
  let! count_ps := ps_count all_procs 0 in
  let limit := if count_ps <? limit then count_ps else limit in
  let! r := ps_copy all_procs 0 limit pids global in
  match r with None => ret (-1) | Some _ => ret count_ps end.

(** The table [states] of ps_info: the literals, each with its NUL and what
    follows it in memory. *)
Definition state_name (st : procstate) : list Z :=
  match st with
  | UNUSED => [117; 110; 117; 115; 101; 100]      (* "unused" *)
  | USED => [117; 115; 101; 100]                  (* "used" *)
  | SLEEPING => [115; 108; 101; 101; 112; 32]     (* "sleep " *)
  | RUNNABLE => [114; 117; 110; 98; 108; 101]     (* "runble" *)
  | RUNNING => [114; 117; 110; 32; 32; 32]        (* "run   " *)
  | ZOMBIE => [122; 111; 109; 98; 105; 101]       (* "zombie" *)
  end.
Definition state_str (st : procstate) : list Z := state_name st ++ [0] ++ sym_rodata.

Definition STATE_SIZE : Z := 16.
Definition NAME_SIZE : Z := 16.

(** One field of struct process_info: copy it out, and on failure release
    curr_proc->lock and return -1. *)
Definition ps_put (cp : nat) (ptr : Z) (bs : list Z) (len : Z) (k : K Z) : K Z :=
  let! m := me in
  let! y := getp m in
  let! copy_res := copyout (p_pagetable y) ptr bs len in
  if negb (copy_res =? 0) then release (Lproc cp) ;! ret (-1) else k.

(** The loop of ps_info keeps the last process with the pid. *)
Fixpoint ps_find (pid : Z) (l : list nat) (curr : option nat) : K (option nat) :=
  match l with
  | [] => ret curr
  | i :: l =>
      acquire (Lproc i) ;!
      let! x := getp i in
      release (Lproc i) ;!
      ps_find pid l (if p_pid x =? pid then Some i else curr)
  end.

(** The parent's pid in curr_proc's namespace, 0 for another namespace. *)
Definition ps_parent_pid (cp : nat) : K Z :=
  acquire Lwait_lock ;!
  let! x := getp cp in
  let! r := (match p_parent x with
             | None => ret 0
             | Some pa =>
                 acquire (Lproc pa) ;!
                 let! y := getp pa in
                 let! r := (if bool_decide (p_ns x = p_ns y) then
                              let! n := deref "ns" (p_ns x) in
                              let! ns := getns n in
                              getpid_at pa (ns_depth ns)
                            else ret 0) in
                 release (Lproc pa) ;!
                 ret r
             end) in
  release Lwait_lock ;!
  ret r.

Definition files_count (p : proc) : Z := Z.of_nat (length (filter is_Some (p_ofile p))).

Definition ps_info (pid psinfo : Z) : K Z :=
  let! c := ps_find pid all_procs None in
  let! cp := deref "curr_proc" c in
  acquire (Lproc cp) ;!
  let! x := getp cp in
  ps_put cp psinfo (state_str (p_state x)) STATE_SIZE (
  let ptr := u64 (psinfo + STATE_SIZE) in
  let! parent_pid := ps_parent_pid cp in
  ps_put cp ptr (bytes_of_int parent_pid) 4 (
  let ptr := u64 (ptr + 4) in
  let! x := getp cp in
  ps_put cp ptr (bytes_of_int (p_sz x)) 4 (
  let ptr := u64 (ptr + 4) in
  ps_put cp ptr (bytes_of_int (files_count x)) 4 (
  let ptr := u64 (ptr + 4) in
  ps_put cp ptr (p_name x) NAME_SIZE (
  let ptr := u64 (ptr + NAME_SIZE) in
  let! t := sys_uptime in
  ps_put cp ptr (bytes_of_int (t - p_init_ticks x)) 4 (
  let ptr := u64 (ptr + 4) in
  ps_put cp ptr (bytes_of_int (p_run_time x)) 4 (
  let ptr := u64 (ptr + 4) in
  ps_put cp ptr (bytes_of_int (p_context_switches x)) 4 (
  let ptr := u64 (ptr + 4) in
  ps_put cp ptr (bytes_of_int (p_run_time x - p_kernel_time x)) 4 (
  let ptr := u64 (ptr + 4) in
  ps_put cp ptr (bytes_of_int (p_kernel_time x)) 4 (
  let ptr := u64 (ptr + 4) in
  ps_put cp ptr (bytes_of_int (p_waiting_time x)) 4 (
  let ptr := u64 (ptr + 4) in
  ps_put cp ptr (bytes_of_int (p_read_b x)) 4 (
  let ptr := u64 (ptr + 4) in
  ps_put cp ptr (bytes_of_int (p_write_b x)) 4 (
  let ptr := u64 (ptr + 4) in
  ps_put cp ptr (bytes_of_int (p_heap_pages x)) 4 (
  release (Lproc cp) ;!
  ret 0)))))))))))))).

Context {fl : FileLayer}.

(** proc.c: initcode[] *)
Definition initcode : list Z := [
  0x17; 0x05; 0x00; 0x00; 0x13; 0x05; 0x45; 0x02;
  0x97; 0x05; 0x00; 0x00; 0x93; 0x85; 0x35; 0x02;
  0x93; 0x08; 0x70; 0x00; 0x73; 0x00; 0x00; 0x00;
  0x93; 0x08; 0x20; 0x00; 0x73; 0x00; 0x00; 0x00;
  0xef; 0xf0; 0x9f; 0xff; 0x2f; 0x69; 0x6e; 0x69;
  0x74; 0x00; 0x00; 0x24; 0x00; 0x00; 0x00; 0x00;
  0x00; 0x00; 0x00; 0x00 ].

(** [safestrcpy(p->name, src, sizeof(p->name))] *)
Definition set_name (i : nat) (src : list Z) : K unit :=
  let! x := getp i in
  let! name := deref "safestrcpy" (safestrcpy (p_name x) src 16) in
  setp i (upd p_name (fun _ => name)).

Definition userinit : K unit :=
  let! ns := allocnamespace in
  modify (upd k_initns (fun _ => ns)) ;!
  let! p := allocproc ns in
  modify (upd k_initproc (fun _ => p)) ;!
  let! i := deref "p" p in
  let! x := getp i in
  uvmfirst (p_pagetable x) initcode (Z.of_nat (length initcode)) ;!
  setp i (upd p_sz (fun _ => PGSIZE)) ;!
  st64 (p_trapframe x + TF_epc) 0 ;!
  st64 (p_trapframe x + TF_sp) PGSIZE ;!
  set_name i [105; 110; 105; 116; 99; 111; 100; 101; 0] ;!     (* "initcode" *)
  let! cwd := namei [47; 0] in                                 (* "/" *)
  setp i (fun p => p <| p_cwd := cwd |> <| p_state := RUNNABLE |>) ;!
  let! t := sys_uptime in
  setp i (upd p_init_ticks (fun _ => u32 t)) ;!
  let! t := sys_uptime in
  setp i (upd p_last_runnable (fun _ => u32 t)) ;!
  let! n := deref "ns" ns in
  acquire (Lns n) ;!
  let! ip := gets k_initproc in
  setns n (fun x => x <| ns_head := ip |> <| ns_num_proc := 1 |>) ;!
  release (Lns n) ;!
  let! ins := gets k_initns in
  setp i (upd p_ns (fun _ => ins)) ;!
  release (Lproc i).

(** [for(i = 0; i < NOFILE; i++) if(p->ofile[i]) np->ofile[i] = filedup(p->ofile[i]);] *)
Definition dup_files (p np : nat) : K unit :=
  for_list (seq 0 (Z.to_nat NOFILE)) (fun k =>
    let! x := getp p in
    match mjoin (p_ofile x !! k) with
    | None => ret tt
    | Some f => let! f' := filedup f in setp np (upd p_ofile (fun l => <[k := Some f']> l))
    end).

(** What fork and clone do after allocproc succeeded (proc.c has this text
    twice). *)
Definition fork_child (p np : nat) : K Z :=
  let! x := getp p in
  let! y := getp np in
  let! r := uvmcopy (p_pagetable x) (p_pagetable y) (p_sz x) in
  if r <? 0 then freeproc np ;! release (Lproc np) ;! ret (-1) else
  setp np (upd p_sz (fun _ => p_sz x)) ;!
  modify (upd k_mem (fun m => memmove m (p_trapframe y) (p_trapframe x) TF_size)) ;!
  st64 (p_trapframe y + TF_a0) 0 ;!
  dup_files p np ;!
  let! x := getp p in
  let! cwd := idup (p_cwd x) in
  setp np (upd p_cwd (fun _ => cwd)) ;!
  let! x := getp p in
  set_name np (p_name x) ;!
  let! n := deref "p->ns" (p_ns x) in
  let! ns := getns n in
  let! pid := getpid_at np (ns_depth ns) in
  release (Lproc np) ;!
  acquire Lwait_lock ;!
  setp np (upd p_parent (fun _ => Some p)) ;!
  release Lwait_lock ;!
  acquire (Lproc np) ;!
  setp np (upd p_state (fun _ => RUNNABLE)) ;!
  let! t := sys_uptime in
  setp np (upd p_last_runnable (fun _ => u32 t)) ;!
  let! t := sys_uptime in
  setp np (fun x => x <| p_init_ticks := u32 t |> <| p_run_time := 0 |> <| p_context_switches := 0 |>
    <| p_kernel_time := 0 |> <| p_waiting_time := 0 |>) ;!
  release (Lproc np) ;!
  ret pid.

Definition fork : K Z :=
  let! p := me in
  let! x := getp p in
  let! np := allocproc (p_ns x) in
  match np with
  | None => ret (-1)
  | Some np => fork_child p np
  end.

Definition clone : K Z :=
  let! p := me in
  let! ns := allocnamespace in
  match ns with
  | None => ret (-1)
  | Some n =>
      let! x := getp p in
      setns n (upd ns_parent (fun _ => p_ns x)) ;!
      let! pn := deref "p->ns" (p_ns x) in
      let! pns := getns pn in
      if MAXDEPTH <=? ns_depth pns + 1 then ret (-1) else
      setns n (upd ns_depth (fun _ => ns_depth pns + 1)) ;!
      let! np := allocproc (Some n) in
      match np with
      | None => ret (-1)
      | Some np =>
          setns n (upd ns_head (fun _ => Some np)) ;!
          fork_child p np
      end
  end.

(** exit closes the files, leaves the directory, hands over its children
    and stops as a zombie. *)
Definition close_files (p : nat) : K unit :=
  for_list (seq 0 (Z.to_nat NOFILE)) (fun fd =>
    let! x := getp p in
    match mjoin (p_ofile x !! fd) with
    | None => ret tt
    | Some f => fileclose f ;! setp p (upd p_ofile (fun l => <[fd := None]> l))
    end).

Definition exit_enter (p : nat) (status : Z) : K unit :=
  acquire Lwait_lock ;!
  reparent p ;!
  let! x := getp p in
  wakeup (Cproc <$> p_parent x) ;!
  acquire (Lproc p) ;!
  setp p (upd p_xstate (fun _ => status)) ;!
  charge p ;!
  setp p (upd p_state (fun _ => ZOMBIE)) ;!
  release Lwait_lock.

Definition exit (status : Z) : K unit :=
  let! p := me in
  let! ip := gets k_initproc in
  if bool_decide (Some p = ip) then panic "init exiting" else
  close_files p ;!
  begin_op ;!
  let! x := getp p in
  iput (p_cwd x) ;!
  end_op ;!
  setp p (upd p_cwd (fun _ => None)) ;!
  exit_enter p status ;!
  sched ;!
  panic "zombie exit".

(** The scan of wait: [inl r] is [return r], [inr havekids] the end of the
    loop. *)
Definition wait_one (p : nat) (addr : Z) (pp : nat) : K (Z + bool) :=
  let! x := getp pp in
  if bool_decide (p_parent x = Some p) then
    acquire (Lproc pp) ;!
    let! x := getp pp in
    if decide (p_state x = ZOMBIE) then
      let pid := p_pid x in
      let! y := getp p in
      let! r := (if addr =? 0 then ret 0
                 else copyout (p_pagetable y) addr (bytes_of_int (p_xstate x)) 4) in
      if r <? 0 then
        release (Lproc pp) ;!
        release Lwait_lock ;!
        ret (inl (-1))
      else
        freeproc pp ;!
        release (Lproc pp) ;!
        release Lwait_lock ;!
        ret (inl pid)
    else release (Lproc pp) ;! ret (inr true)
  else ret (inr false).
Fixpoint wait_scan (p : nat) (addr : Z) (l : list nat) (havekids : bool) : K (Z + bool) :=
  match l with
  | [] => ret (inr havekids)
  | pp :: l =>
      let! r := wait_one p addr pp in
      match r with
      | inl v => ret (inl v)
      | inr k => wait_scan p addr l (havekids || k)
      end
  end.
(** [fuel] bounds the number of times wait goes back to sleep. *)
Fixpoint wait_loop (fuel : nat) (p : nat) (addr : Z) : K Z :=
  let! r := wait_scan p addr all_procs false in
  match r with
  | inl v => ret v
  | inr havekids =>
      let! k := (if negb havekids then ret 1 else killed p) in
      if negb (k =? 0) then release Lwait_lock ;! ret (-1) else
      match fuel with
      | O => nofuel
      | S fuel => sleep (Cproc p) Lwait_lock ;! wait_loop fuel p addr
      end
  end.
Definition wait (fuel : nat) (addr : Z) : K Z :=
  let! p := me in
  acquire Lwait_lock ;!
  wait_loop fuel p addr.

(** Creating a process never sleeps. *)
Lemma nosw_sys_uptime : noswitch sys_uptime.
Proof. unfold sys_uptime. nosw_tac. Qed.
#[local] Hint Resolve nosw_sys_uptime : nosw.
Lemma nosw_charge i : noswitch (charge i).
Proof. unfold charge. nosw_tac. Qed.
#[local] Hint Resolve nosw_charge : nosw.
Lemma nosw_me : noswitch me.
Proof. unfold me. nosw_tac. Qed.
Lemma nosw_allocnamespace : noswitch allocnamespace.
Proof. unfold allocnamespace, allocnamespaceid. nosw_tac. Qed.
Lemma nosw_freeproc i : noswitch (freeproc i).
Proof. unfold freeproc, proc_freepagetable. nosw_tac. Qed.
#[local] Hint Resolve nosw_freeproc : nosw.
Lemma nosw_assign_pids p k n : noswitch (assign_pids p k n).
Proof. revert n. induction k; intros; cbn [assign_pids]; unfold setpid; nosw_tac. Qed.
#[local] Hint Resolve nosw_assign_pids : nosw.
Lemma nosw_allocproc n : noswitch (allocproc n).
Proof. unfold allocproc, find_unused, init_proc, allocpid, proc_pagetable. nosw_tac. Qed.

End proc.
End Proc.
Export Proc.
#[export] Hint Resolve nosw_sys_uptime nosw_charge nosw_me nosw_allocnamespace nosw_freeproc nosw_assign_pids
  nosw_allocproc : nosw.
#[export] Hint Resolve segs_proc_pagetable segs_proc_freepagetable segs_compare_ns segs_get_ns_head
  segs_find_unused segs_getpid_at segs_either_copyout segs_either_copyin segs_me : segs.
