(* ===== verification/SpaceSpec.v ===== *)
(** * The life of a page table

    [freewalk] gives back every page of a table without leaves, [uvmfree] the
    user frames as well; [proc_pagetable] and [proc_freepagetable] begin and
    end the life of a process's address space.  Together with [uvmcopy] no
    page is lost between the two. *)

From S2P Require Import Prelude State Spinlock CString Mem Kalloc Vm PageTable UvmSpec Sched FileLayer Proc.

Module SpaceSpec.
Import UvmSpec.

Section space.
Context {img : Image}.

(** The pages [P] went to the free list; nothing else changed. *)
Record released (P : Z -> Prop) (s : kstate) (l : list Z) (s' : kstate) (l' : list Z) : Prop := {
  rl_free : free_pages s' l';
  rl_pages p : p ∈ l' <-> p ∈ l \/ P p;
  rl_mem x : (forall p, P p -> ~ in_page p x) -> rd (k_mem s') x = rd (k_mem s) x;
  rl_hart : hart_same s s';
  rl_only : only_mem s s';
}.

(** ** freewalk *)

Section freewalk.
Context (m0 : gmap Z Z) (root : Z) (T : gmap (list Z) Z) (Hpt : pt m0 root T).

(** The tables from the one at path [π] on. *)
Definition below (π : list Z) (p : Z) : Prop := exists π', T !! (π ++ π') = Some p.

(** Memory holds this part of the tree, and it has no leaves. *)
Definition bare (m : gmap Z Z) (π : list Z) : Prop :=
  forall π' t i, T !! (π ++ π') = Some t -> 0 <= i < 512 ->
    let e := load64 m (pte_addr t i) in
    if (length (π ++ π') <? 2)%nat
    then T !! ((π ++ π') ++ [i]) = (if valid e then Some (PTE2PA e) else None) /\
         (valid e = true -> branch e = true)
    else valid e = false.

Lemma below_child π i p : below (π ++ [i]) p -> below π p.
Proof. intros [π' H]. exists (i :: π'). by rewrite <- app_assoc in H. Qed.

Lemma below_disj π i j p : below (π ++ [i]) p -> below (π ++ [j]) p -> i = j.
Proof.
  intros [π1 H1] [π2 H2]. pose proof (pt_inj _ _ _ Hpt _ _ _ H1 H2) as E.
  rewrite <- !app_assoc in E. apply app_inv_head in E. by injection E.
Qed.

Lemma below_ok π p : below π p -> page_ok p.
Proof. intros [π' H]. by eapply pt_page. Qed.

Lemma below_top π i t : T !! π = Some t -> ~ below (π ++ [i]) t.
Proof.
  intros Ht [π' H]. pose proof (pt_inj _ _ _ Hpt _ _ _ Ht H) as E%(f_equal length).
  rewrite !length_app in E. simpl in E. lia.
Qed.

Lemma tree_prefix π π' t : T !! (π ++ π') = Some t -> is_Some (T !! π).
Proof.
  revert t. induction π' as [|i π' IH] using rev_ind; intros t H; [rewrite app_nil_r in H; eauto|].
  rewrite app_assoc in H. apply (pt_closed _ _ _ Hpt) in H as [[u Hu] _]. eauto.
Qed.

(** A table is its page and what hangs under its entries. *)
Lemma below_split π t p : T !! π = Some t ->
  below π p <-> p = t \/ exists j, 0 <= j < 512 /\ below (π ++ [j]) p.
Proof.
  intros Ht. split.
  - intros [[|j π'] H]; [left; rewrite app_nil_r in H; congruence|]. right. exists j.
    assert (Hj : is_Some (T !! (π ++ [j]))) by (apply (tree_prefix _ π' p); by rewrite <- app_assoc).
    destruct Hj as [q Hq]. pose proof (pt_closed _ _ _ Hpt _ _ _ Hq) as (_ & _ & ?).
    split; [done|]. exists π'. by rewrite <- app_assoc.
  - intros [->|(j & _ & H)]; [exists []; by rewrite app_nil_r|by eapply below_child].
Qed.

Lemma bare_ext m m' π : bare m π ->
  (forall p x, below π p -> in_page p x -> rd m' x = rd m x) -> bare m' π.
Proof.
  intros H Hx π' t i Ht Hi. rewrite (load64_ext m' m); [by apply H|].
  intros x Hr. apply (Hx t); [by exists π'|]. by eapply in_page_pte.
Qed.
Lemma bare_child m π i : bare m π -> bare m (π ++ [i]).
Proof. intros H π' t j Ht Hj. rewrite <- !app_assoc in *. specialize (H ([i] ++ π') t j Ht Hj). by rewrite <- !app_assoc in H. Qed.

Lemma bare_entry m π t i : bare m π -> T !! π = Some t -> 0 <= i < 512 ->
  let e := load64 m (pte_addr t i) in
  (valid e = false /\ T !! (π ++ [i]) = None) \/
  (valid e = true /\ branch e = true /\ (length π < 2)%nat /\ T !! (π ++ [i]) = Some (PTE2PA e)).
Proof.
  intros Hb Ht Hi e. pose proof (Hb [] t i) as He. rewrite app_nil_r in He. specialize (He Ht Hi).
  fold e in He. cbv zeta in He. destruct (Nat.ltb_spec (length π) 2) as [Hlt|Hge].
  - destruct He as [E Hbr]. destruct (valid e); [right; auto|by left].
  - left. split; [done|]. destruct (T !! (π ++ [i])) eqn:E; [|done].
    apply (pt_closed _ _ _ Hpt) in E as (_ & ? & _). lia.
Qed.

(** Before entry [n] of the table [t] at [π]. *)
Record walking (π : list Z) (t : Z) (s : kstate) (l : list Z) (n : Z) (s' : kstate) (l' : list Z) : Prop := {
  wk_free : free_pages s' l';
  wk_pages p : p ∈ l' <-> p ∈ l \/ exists j, 0 <= j < n /\ below (π ++ [j]) p;
  wk_mem x : ~ in_page t x -> (forall j p, 0 <= j < n -> below (π ++ [j]) p -> ~ in_page p x) ->
    rd (k_mem s') x = rd (k_mem s) x;
  wk_rest i : n <= i < 512 -> load64 (k_mem s') (pte_addr t i) = load64 (k_mem s) (pte_addr t i);
  wk_hart : hart_same s s';
  wk_only : only_mem s s';
}.

Lemma walking_start π t s l : free_pages s l -> walking π t s l 0 s l.
Proof. intros. split; try done. intros p. split; [auto|]. intros [?|(j & ? & _)]; [done|lia]. Qed.

(** An entry without a table below it. *)
Lemma walking_skip π t s l n s' l' : walking π t s l n s' l' -> T !! (π ++ [n]) = None ->
  walking π t s l (n + 1) s' l'.
Proof.
  intros [F P M R H O] Hn.
  assert (Hno : forall p, ~ below (π ++ [n]) p).
  { intros p [π' Hp]. apply tree_prefix in Hp as [? ?]. congruence. }
  split; auto.
  - intros p. rewrite P. split; (intros [?|(j & Hj & Hb)]; [auto|]); right; exists j; (split; [|done]); [lia|].
    destruct (Z.eq_dec j n) as [->|]; [by destruct (Hno p)|lia].
  - intros x Ht Hx. apply M; [done|]. intros j p Hj. apply Hx. lia.
  - intros i Hi. apply R. lia.
Qed.

(** The subtree under entry [n] was freed and the entry cleared. *)
Lemma walking_child π t s l n s1 l1 s2 l2 :
  T !! π = Some t -> (forall p, below π p -> p ∉ l) -> 0 <= n < 512 ->
  walking π t s l n s1 l1 -> released (below (π ++ [n])) s1 l1 s2 l2 ->
  walking π t s l (n + 1) (s2 <| k_mem := store64 (k_mem s2) (pte_addr t n) 0 |>) l2.
Proof.
  intros Ht Hl Hn [F P M R H O] [F2 P2 M2 H2 O2]. pose proof (pt_page _ _ _ Hpt _ _ Ht) as Htok.
  assert (Hp2 : forall p, p ∈ l2 <-> p ∈ l \/ exists j, 0 <= j < n + 1 /\ below (π ++ [j]) p).
  { intros p. rewrite P2, P. split.
    - intros [[?|(j & Hj & Hb)]|Hb]; [by left|right; exists j; split; [lia|done]|].
      right. exists n. split; [lia|done].
    - intros [?|(j & Hj & Hb)]; [by left; left|]. destruct (Z.eq_dec j n) as [->|]; [by right|].
      left. right. exists j. split; [lia|done]. }
  assert (Htl : t ∉ l2).
  { intros [Hin|(j & _ & Hb)]%Hp2; [|by apply (below_top π j t)]. apply (Hl t); [|done].
    exists []. by rewrite app_nil_r. }
  assert (Htn : forall x, in_page t x -> rd (k_mem s2) x = rd (k_mem s1) x).
  { intros x Hx. apply M2. intros p Hb. apply (in_page_disj t p x); auto; [by eapply below_ok|].
    intros <-. by apply (below_top π n t). }
  split; auto.
  - destruct F2 as (Hli & Hnd & Hok). split; [|done]. ksimp. eapply linked_ext; [|done].
    intros q Hq. apply load64_store64_ne. pose proof (proj1 (Forall_forall _ _) Hok q Hq) as [Hqal _].
    destruct (page_disjoint t q) as [?|?]; [apply Htok|done|by intros ->| |];
      pose proof (pte_in_page t n Hn); unfold PGSIZE in *; lia.
  - intros x Hx Hb. ksimp. rewrite rd_store64_ne, M2, M; auto.
    + intros j p Hj. apply Hb. lia.
    + intros p Hp. apply (Hb n p); [lia|done].
    + pose proof (pte_in_page t n Hn). unfold in_page in Hx. lia.
  - intros i Hi. ksimp. rewrite load64_store64_ne by (unfold pte_addr; lia). rewrite <- R by lia.
    apply load64_ext. intros x Hx. apply Htn. apply (in_page_pte t i); [lia|done].
  - by etrans; [exact H|].
  - etrans; [exact O|]. etrans; [exact O2|]. apply only_mem_upd.
Qed.

Lemma walking_bare π t s l n s' l' : T !! π = Some t -> (forall p, below π p -> p ∉ l) -> 0 <= n < 512 ->
  walking π t s l n s' l' -> bare (k_mem s) π ->
  bare (k_mem s') (π ++ [n]) /\ forall p, below (π ++ [n]) p -> p ∉ l'.
Proof.
  intros Ht Hl Hn Hw Hb. split.
  - apply (bare_ext (k_mem s)); [by apply bare_child|]. intros p x Hp Hx. apply (wk_mem _ _ _ _ _ _ _ Hw).
    + apply (in_page_disj p t x); [by eapply below_ok|by eapply pt_page| |done].
      intros ->. by apply (below_top π n t).
    + intros j q Hj Hq. apply (in_page_disj p q x); [by eapply below_ok|by eapply below_ok| |done].
      intros <-. pose proof (below_disj _ _ _ _ Hp Hq). lia.
  - intros p Hp [Hin|(j & Hj & Hq)]%(wk_pages _ _ _ _ _ _ _ Hw).
    + apply (Hl p); [by eapply below_child|done].
    + pose proof (below_disj _ _ _ _ Hp Hq). lia.
Qed.

Lemma wp_freewalk fuel π t s l :
  0 < sym_end -> hart_wf s -> Lkmem ∉ k_held s -> free_pages s l ->
  T !! π = Some t -> (length π + fuel = 3)%nat -> (length π <= 2)%nat ->
  bare (k_mem s) π -> (forall p, below π p -> p ∉ l) ->
  wp (freewalk fuel t) s (fun _ s' => exists l', released (below π) s l s' l').
Proof.
  intros Himg. revert π t s l. induction fuel as [|fuel IH]; intros π t s l Hw Hlk Hf Ht Hlen Hl2 Hb Hl; [lia|].
  cbn [freewalk]. wp_step.
  apply (wp_for_list (fun n s' => exists l', walking π t s l (Z.of_nat n) s' l')).
  - exists l. by apply walking_start.
  - intros n i s1 [-> Hn]%lookup_seqZ [l1 Hk]. rewrite Z.add_0_l.
    replace (Z.of_nat (S n)) with (Z.of_nat n + 1) by lia.
    assert (Hr : 0 <= Z.of_nat n < 512) by lia.
    wp_step. unfold ld64. wp_step. rewrite (wk_rest _ _ _ _ _ _ _ Hk) by lia.
    destruct (bare_entry (k_mem s) π t (Z.of_nat n)) as [[Hv Hno]|(Hv & Hbr & Hlt & Hc)]; auto; rewrite Hv.
    { cbn [andb when]. wp_step. exists l1. by apply walking_skip. }
    unfold branch in Hbr. rewrite Hbr. cbn [andb]. pose proof (wk_hart _ _ _ _ _ _ _ Hk) as Hh.
    destruct (walking_bare π t s l (Z.of_nat n) s1 l1) as [Hb1 Hl1]; auto.
    wp_step. eapply wp_mono; [apply (IH (π ++ [Z.of_nat n]) _ s1 l1)|].
    + by eapply hart_same_wf.
    + by rewrite (proj1 Hh).
    + apply Hk.
    + done.
    + rewrite length_app. simpl. lia.
    + rewrite length_app. simpl. lia.
    + done.
    + done.
    + intros [] s2 [l2 Hrel]. unfold st64. wp_step. exists l2. by eapply walking_child.
  - intros s1 [l1 Hk]. rewrite length_seqZ in Hk. pose proof (wk_hart _ _ _ _ _ _ _ Hk) as Hh.
    assert (Htb : below π t) by (exists []; by rewrite app_nil_r).
    apply (wp_kfree s1 l1 t); auto; [by eapply hart_same_wf|by rewrite (proj1 Hh)|apply Hk|by eapply below_ok| |].
    { intros [Hin|(j & _ & Hj)]%(wk_pages _ _ _ _ _ _ _ Hk); [by apply (Hl t)|by apply (below_top π j t)]. }
    intros s2 Hh2 Ho2 Hf2 Hm2. exists (t :: l1). split; auto.
    + intros p. rewrite elem_of_cons, (wk_pages _ _ _ _ _ _ _ Hk), (below_split π t) by done. tauto.
    + intros x Hx. pose proof (Hx t Htb) as Hnt. rewrite Hm2 by (unfold in_page in Hnt; lia).
      apply (wk_mem _ _ _ _ _ _ _ Hk); [done|]. intros j p _ Hp. apply Hx. by eapply below_child.
    + by etrans; [exact Hh|].
    + by etrans; [apply Hk|].
Qed.
End freewalk.

(** ** Addresses by indices *)

Definition va_of (i2 i1 i0 : Z) : Z := ((i2 * 512 + i1) * 512 + i0) * PGSIZE.

Lemma va_of_range i2 i1 i0 : 0 <= i2 < 512 -> 0 <= i1 < 512 -> 0 <= i0 < 512 -> 0 <= va_of i2 i1 i0 < VAEND.
Proof. unfold va_of, VAEND, PGSIZE. lia. Qed.
Lemma PX_va_of i2 i1 i0 : 0 <= i2 < 512 -> 0 <= i1 < 512 -> 0 <= i0 < 512 ->
  PX 2 (va_of i2 i1 i0) = i2 /\ PX 1 (va_of i2 i1 i0) = i1 /\ PX 0 (va_of i2 i1 i0) = i0.
Proof.
  intros H2 H1 H0. pose proof (PX_split _ (va_of_range i2 i1 i0 H2 H1 H0)) as E.
  pose proof (PX_range 2 (va_of i2 i1 i0)). pose proof (PX_range 1 (va_of i2 i1 i0)).
  pose proof (PX_range 0 (va_of i2 i1 i0)).
  assert (va_of i2 i1 i0 mod PGSIZE = 0) as Hm by by apply Z.mod_mul.
  rewrite Hm in E. unfold va_of at 1 in E. unfold PGSIZE in E. lia.
Qed.
Lemma pte_of_va_of m T i2 i1 i0 t : 0 <= i2 < 512 -> 0 <= i1 < 512 -> 0 <= i0 < 512 ->
  T !! [i2; i1] = Some t -> pte_of m T (va_of i2 i1 i0) = load64 m (pte_addr t i0).
Proof. intros H2 H1 H0 Ht. destruct (PX_va_of i2 i1 i0) as (E2 & E1 & E0); auto. unfold pte_of. by rewrite E2, E1, E0, Ht. Qed.

(** A table without valid entries is bare. *)
Lemma bare_root m root T : pt m root T ->
  (forall a, 0 <= a < VAEND -> valid (pte_of m T a) = false) -> bare T m [].
Proof.
  intros Hp Hv π t i Ht Hi e. simpl in Ht |- *. destruct (Nat.ltb_spec (length π) 2).
  - split; [by eapply pt_node|by eapply pt_branch].
  - destruct π as [|i2 [|i1 [|i0 π]]]; simpl in *; try lia.
    + destruct (pt_closed _ _ _ Hp [i2] i1 t Ht) as ([t1 Ht1] & _ & ?).
      destruct (pt_closed _ _ _ Hp [] i2 t1 Ht1) as (_ & _ & ?).
      unfold e. rewrite <- (pte_of_va_of m T i2 i1 i t) by done. apply Hv. by apply va_of_range.
    + destruct (tree_prefix _ _ _ Hp [i2; i1; i0] π t Ht) as [u Hu].
      pose proof (pt_closed _ _ _ Hp [i2; i1] i0 u Hu) as (_ & Hl & _). simpl in Hl. lia.
Qed.
(** ** uvmfree *)

(** The size a process with [n] pages has. *)
Definition size_of (n : nat) (sz : Z) : Prop := (Z.of_nat n - 1) * PGSIZE < sz <= Z.of_nat n * PGSIZE.

Lemma size_pages n sz : 0 <= sz <= MAXVA -> size_of n sz -> PGROUNDUP sz / PGSIZE = Z.of_nat n.
Proof.
  intros Hsz [Hlo Hhi]. assert (HM : MAXVA = 2 ^ 38) by done.
  pose proof (PGROUNDUP_spec sz ltac:(unfold PGSIZE; lia)) as [Hal Hr].
  apply Z.mod_divide in Hal as [q Hq]; [|done]. rewrite Hq, Z.div_mul by done.
  unfold PGSIZE in *. lia.
Qed.

Lemma wp_uvmfree s root T l F sz :
  0 < sym_end -> hart_wf s -> Lkmem ∉ k_held s -> vmst s root T l -> frames T l F ->
  maps (k_mem s) T 0 F -> 0 <= sz <= MAXVA -> size_of (length F) sz ->
  (forall a, 0 <= a < VAEND -> valid (pte_of (k_mem s) T a) = true -> a < Z.of_nat (length F) * PGSIZE) ->
  wp (uvmfree root sz) s (fun _ s' => exists l', released (fun p => p ∈ F \/ tab T p) s l s' l').
Proof.
  intros Himg Hw Hlk Hv HF Hm Hsz Hlen Hval. unfold uvmfree. wp_step.
  cut (wp (when (0 <? sz) (uvmunmap root 0 (PGROUNDUP sz / PGSIZE) true)) s
    (fun _ s' => unmapped root s T l 0 F s')).
  { intros H. eapply wp_mono; [exact H|]. intros [] s1 Hu. pose proof (um_hart _ _ _ _ _ _ _ Hu) as Hh.
    pose proof (um_vm _ _ _ _ _ _ _ Hu) as Hv1. pose proof (vm_pt _ _ _ _ Hv1) as Hp1.
    eapply wp_mono; [apply (wp_freewalk (k_mem s1) root T Hp1 3 [] root s1 (rev F ++ l)); auto|].
    - by eapply hart_same_wf.
    - by rewrite (proj1 Hh).
    - apply Hv1.
    - apply Hp1.
    - apply (bare_root _ root); [done|]. intros a Ha. rewrite (um_pte _ _ _ _ _ _ _ Hu) by done.
      rewrite Z.add_0_l, (proj2 (Z.leb_le _ _)) by lia. cbn [andb].
      destruct (Z.ltb_spec a (Z.of_nat (length F) * PGSIZE)); [done|].
      destruct (valid (pte_of (k_mem s) T a)) eqn:E; [|done]. apply Hval in E; lia.
    - intros p [π Hπ]. by eapply vm_tabs.
    - intros [] s2 [l2 Hr]. exists l2. split.
      + apply Hr.
      + intros p. assert (p ∈ rev F <-> p ∈ F) by (rewrite !list_elem_of_In; symmetry; apply in_rev).
        rewrite (rl_pages _ _ _ _ _ Hr), elem_of_app. unfold below, tab. simpl. tauto.
      + intros x Hx. rewrite (rl_mem _ _ _ _ _ Hr), (um_mem _ _ _ _ _ _ _ Hu); auto.
      + etrans; [exact Hh|apply Hr].
      + etrans; [apply Hu|apply Hr]. }
  destruct (Z.ltb_spec 0 sz); cbn [when].
  - rewrite (size_pages (length F)) by done. apply wp_uvmunmap; auto; [lia|].
    destruct Hlen. assert (MAXVA = 2 ^ 26 * PGSIZE) as HM by done. unfold PGSIZE in *. lia.
  - destruct F; [|destruct Hlen; cbn [length] in *; unfold PGSIZE in *; lia].
    apply wp_ret. by apply unmapped_nil.
Qed.
(** ** uvmunmap of one page whose frame stays *)

Record cleared (root : Z) (s : kstate) (T : gmap (list Z) Z) (l : list Z) (va : Z) (s' : kstate) : Prop := {
  cl_vm : vmst s' root T l;
  cl_pte a : 0 <= a < VAEND -> pte_of (k_mem s') T a =
    if va =? PGROUNDDOWN a then 0 else pte_of (k_mem s) T a;
  cl_mem x : (forall t, tab T t -> ~ in_page t x) -> rd (k_mem s') x = rd (k_mem s) x;
  cl_hart : hart_same s s';
  cl_only : only_mem s s';
}.

Lemma wp_uvmunmap_keep s root T l va f :
  0 < sym_end -> vmst s root T l -> va mod PGSIZE = 0 -> 0 <= va < MAXVA -> leaf (k_mem s) T va f ->
  wp (uvmunmap root va 1 false) s (fun _ s' => cleared root s T l va s').
Proof.
  intros Himg Hv Hal Hr (Hval & Hfl & _). pose proof (valid_pte_place _ _ _ Hval) as Hpl.
  assert (HM : MAXVA = 2 ^ 38) by done. assert (HP : PGSIZE = 4096) by done.
  unfold uvmunmap. rewrite Hal. cbn [Z.eqb negb]. rewrite Z.mul_1_l, (u64_small PGSIZE) by (by rewrite HP).
  rewrite u64_small by lia. replace (va + PGSIZE - va) with (1 * PGSIZE) by lia. rewrite Z.div_mul by done.
  change (Z.to_nat 1) with 1%nat. cbn [uvmunmap_loop]. rewrite (proj2 (Z.ltb_lt va _)) by lia.
  wp_step. eapply wp_eq; [apply (walk_lookup s root T va); [apply Hv|lia]|].
  rewrite (proj2 (Z.eqb_neq _ _)) by (eapply walk_at_nz; eauto; apply Hv).
  wp_step. unfold ld64. wp_step. rewrite load_walk_at, Hval by done. cbn [negb].
  rewrite (proj2 (Z.eqb_neq _ _)) by done. cbn [when]. unfold st64. do 4 wp_step.
  rewrite u64_small, Z.ltb_irrefl by lia. wp_step.
  pose proof (grows_store root s T l va 0 Hv Hpl) as Hg. split; ksimp; try apply Hg.
  - intros a Ha. rewrite (pte_of_store_leaf _ root) by (done || apply Hv).
    by rewrite (PGROUNDDOWN_aligned va).
  - intros x HT. by rewrite rd_store_leaf.
Qed.

(** ** A process's address space *)

(** Pages 0 to [length F - 1] are the user's, in the frames [F]; the
    trampoline and the trap frame are at the top; nothing else is mapped. *)
Record space (s : kstate) (root : Z) (T : gmap (list Z) Z) (l F : list Z) : Prop := {
  sp_vm : vmst s root T l;
  sp_frames : frames T l F;
  sp_maps : maps (k_mem s) T 0 F;
  sp_room : Z.of_nat (length F) * PGSIZE <= TRAPFRAME;
  sp_tramp : exists f, leaf (k_mem s) T TRAMPOLINE f;
  sp_trapf : exists f, leaf (k_mem s) T TRAPFRAME f;
  sp_only a : 0 <= a < VAEND -> valid (pte_of (k_mem s) T a) = true ->
    a < Z.of_nat (length F) * PGSIZE \/ TRAPFRAME <= a < MAXVA;
}.

Lemma wp_proc_freepagetable s root T l F sz :
  0 < sym_end -> hart_wf s -> Lkmem ∉ k_held s -> space s root T l F -> 0 <= sz -> size_of (length F) sz ->
  wp (proc_freepagetable root sz) s (fun _ s' => exists l', released (fun p => p ∈ F \/ tab T p) s l s' l').
Proof.
  intros Himg Hw Hlk [Hv HF Hm Hroom [ft Ht] [ff Hff] Honly] Hsz Hlen. unfold proc_freepagetable.
  assert (HT : TRAMPOLINE = 2 ^ 38 - 4096) by done. assert (HTF : TRAPFRAME = 2 ^ 38 - 8192) by done.
  assert (HM : MAXVA = 2 ^ 38) by done. pose proof MAXVA_VAEND. assert (HP : PGSIZE = 4096) by done.
  wp_step. eapply wp_mono; [apply (wp_uvmunmap_keep s root T l TRAMPOLINE ft); auto; (done || lia)|].
  intros [] s1 [V1 P1 M1 H1 O1]. wp_step.
  eapply wp_mono; [apply (wp_uvmunmap_keep s1 root T l TRAPFRAME ff); auto; [lia|]|].
  { apply (leaf_pte (k_mem s)); [|done]. rewrite P1 by lia. done. }
  intros [] s2 [V2 P2 M2 H2 O2].
  assert (Hpe : forall a, 0 <= a < VAEND -> pte_of (k_mem s2) T a =
    if (TRAPFRAME <=? a) && (a <? MAXVA) then 0 else pte_of (k_mem s) T a).
  { intros a Ha. rewrite P2, P1 by done. pose proof (PGROUNDDOWN_spec a) as [Hal Hr].
    apply Z.mod_divide in Hal as [q Hq]; [|done]. rewrite Hq in *. rewrite HT, HTF, HM, HP in *.
    destruct (Z.eqb_spec (2 ^ 38 - 8192) (q * 4096)), (Z.eqb_spec (2 ^ 38 - 4096) (q * 4096)),
      (Z.leb_spec (2 ^ 38 - 8192) a), (Z.ltb_spec a (2 ^ 38)); cbn [andb]; (done || lia). }
  eapply wp_mono; [apply (wp_uvmfree s2 root T l F sz); auto|].
  - eapply hart_same_wf; [exact H2|]. by eapply hart_same_wf.
  - by rewrite (proj1 H2), (proj1 H1).
  - intros k f Hk. apply (leaf_pte (k_mem s)); [|by apply Hm]. apply lookup_lt_Some in Hk.
    rewrite Hpe by lia. rewrite (proj2 (Z.leb_gt _ _)) by lia. done.
  - destruct Hlen. lia.
  - intros a Ha. rewrite Hpe by done. destruct (Z.leb_spec TRAPFRAME a), (Z.ltb_spec a MAXVA); cbn [andb]; try done;
      intros Hva; destruct (Honly a Ha Hva); lia.
  - intros [] s3 [l3 [F3 P3 M3 H3 O3]]. exists l3. split; auto.
    + intros x Hx. rewrite M3, M2, M1; auto.
    + etrans; [exact H1|]. etrans; [exact H2|exact H3].
    + etrans; [exact O1|]. etrans; [exact O2|exact O3].
Qed.

(** ** Copying into a space *)

Lemma page_of_top a : 0 <= a -> PGROUNDDOWN a < TRAPFRAME -> a < TRAPFRAME.
Proof.
  intros Ha. pose proof (PGROUNDDOWN_spec a) as [Hal Hr]. apply Z.mod_divide in Hal as [q Hq]; [|done].
  rewrite Hq in *. assert (HTF : TRAPFRAME = 2 ^ 38 - 8192) by done. rewrite HTF. unfold PGSIZE in *. lia.
Qed.

Section copy.
Context (s : kstate) (old new : Z) (To T : gmap (list Z) Z) (l : list Z) (sz : Z).
Context (Himg : 0 < sym_end) (Hsp : space s new T l []) (Hpar : parent s old To T l sz).
Context (Hsz : 0 <= sz <= TRAPFRAME).

Lemma space_free a : 0 <= a -> PGROUNDDOWN a < sz -> valid (pte_of (k_mem s) T a) = false.
Proof.
  intros Ha Hlt. pose proof (page_of_top a Ha ltac:(lia)). assert (TRAPFRAME < VAEND) by done.
  destruct (valid (pte_of (k_mem s) T a)) eqn:E; [|done].
  destruct (sp_only _ _ _ _ _ Hsp a); [lia|done|cbn [length] in *; lia|lia].
Qed.

Lemma copied_space s' T' l' F : copied s new To T l s' T' l' F [] -> size_of (length F) sz ->
  space s' new T' l' F.
Proof.
  intros Hc [Hlo Hhi]. destruct Hsp as [Hv _ _ _ [ft Ht] [ff Hff] Honly].
  assert (HTF : TRAPFRAME = 67108862 * 4096) by done. assert (HT : TRAMPOLINE = 67108863 * 4096) by done.
  assert (HM : MAXVA = 2 ^ 38) by done. assert (HP : PGSIZE = 4096) by done. pose proof MAXVA_VAEND.
  assert (Hroom : Z.of_nat (length F) * PGSIZE <= TRAPFRAME) by (rewrite HP, HTF in *; lia).
  assert (Htop : forall a, TRAPFRAME <= a < VAEND -> pte_of (k_mem s') T' a = pte_of (k_mem s) T a).
  { intros a Ha. rewrite (cp_pte _ _ _ _ _ _ _ _ _ _ Hc) by lia.
    by rewrite lookup_ge_None_2 by (apply page_index_ge; lia). }
  pose proof (cp_frames _ _ _ _ _ _ _ _ _ _ Hc) as HF. rewrite app_nil_r in HF. split; auto.
  - apply Hc.
  - eapply (copied_maps s old new To T l sz); eauto. lia.
  - exists ft. unfold leaf. by rewrite Htop by lia.
  - exists ff. unfold leaf. by rewrite Htop by lia.
  - intros a Ha. rewrite (cp_pte _ _ _ _ _ _ _ _ _ _ Hc) by done.
    destruct (F !! Z.to_nat (a / PGSIZE)) as [f|] eqn:E; intros Hval.
    + left. apply lookup_lt_Some in E. destruct (Z.ltb_spec a (Z.of_nat (length F) * PGSIZE)); [done|].
      pose proof (page_index_ge (length F) a). lia.
    + destruct (Honly a Ha Hval); [cbn [length] in *; lia|by right].
Qed.

Lemma undone_space s' T' l' : undone s new T l sz s' T' l' -> space s' new T' l' [].
Proof.
  intros Hu. destruct Hsp as [Hv _ _ Hroom [ft Ht] [ff Hff] Honly].
  assert (HTF : TRAPFRAME = 67108862 * 4096) by done. assert (HT : TRAMPOLINE = 67108863 * 4096) by done.
  assert (HM : MAXVA = 2 ^ 38) by done. pose proof MAXVA_VAEND.
  assert (Htop : forall a, TRAPFRAME <= a < VAEND -> pte_of (k_mem s') T' a = pte_of (k_mem s) T a).
  { intros a Ha. destruct (ud_pte _ _ _ _ _ _ _ _ Hu a) as [?|[_ Hlt]]; [lia|done|].
    pose proof (page_of_top a ltac:(lia) ltac:(lia)). lia. }
  split; auto.
  - apply Hu.
  - apply frames_nil.
  - intros k f Hk. done.
  - exists ft. unfold leaf. by rewrite Htop by lia.
  - exists ff. unfold leaf. by rewrite Htop by lia.
  - intros a Ha. destruct (ud_pte _ _ _ _ _ _ _ _ Hu a) as [->|[-> _]]; [lia| |done]. by apply Honly.
Qed.
End copy.

(** ** proc_pagetable *)

(** Of the free pages [l] the pages [P] are in use and [l'] are free; memory
    outside [l] is as it was. *)
Record moved (P : Z -> Prop) (s : kstate) (l : list Z) (s' : kstate) (l' : list Z) : Prop := {
  mv_pages p : p ∈ l <-> p ∈ l' \/ P p;
  mv_mem x : (forall p, p ∈ l -> ~ in_page p x) -> rd (k_mem s') x = rd (k_mem s) x;
  mv_hart : hart_same s s';
  mv_only : only_mem s s';
}.

Lemma moved_grows root s l s1 T1 l1 s2 T2 l2 :
  moved (tab T1) s l s1 l1 -> grows root s1 T1 l1 s2 T2 l2 -> moved (tab T2) s l s2 l2.
Proof.
  intros [P M H O] [V2 S2 F2 N2 K2 M2 H2 O2]. split; auto; try by etrans.
  - intros p. rewrite P. split.
    + intros [Hp|[π Hp]]; [by apply K2|]. right. exists π. by eapply lookup_weaken.
    + intros [Hp|[π Hp]]; [left; by eapply suffix_elem|].
      apply N2 in Hp as [?|?]; [right; by exists π|by left].
  - intros x Hx. rewrite M2, M; auto.
    + intros π t Ht. apply Hx. apply P. right. by exists π.
    + intros p Hp. apply Hx. apply P. by left.
Qed.

Lemma moved_cleared root s l s1 T1 l1 va s2 :
  moved (tab T1) s l s1 l1 -> cleared root s1 T1 l1 va s2 -> moved (tab T1) s l s2 l1.
Proof.
  intros [P M H O] [V2 P2 M2 H2 O2]. split; auto; try by etrans.
  intros x Hx. rewrite M2, M; auto. intros t Ht. apply Hx. apply P. by right.
Qed.

(** Everything is free again. *)
Definition back (s : kstate) (l : list Z) (s' : kstate) : Prop :=
  exists l', free_pages s' l' /\ moved (fun _ => False) s l s' l'.

Lemma moved_back P s l s1 l1 s2 l2 : moved P s l s1 l1 -> released P s1 l1 s2 l2 -> back s l s2.
Proof.
  intros [Pg M H O] [F2 P2 M2 H2 O2]. exists l2. split; [done|]. split; try by etrans.
  - intros p. rewrite P2, Pg. tauto.
  - intros x Hx. rewrite M2, M; auto. intros p Hp. apply Hx. apply Pg. by right.
Qed.

Lemma wp_uvmcreate s l :
  0 < sym_end -> hart_wf s -> Lkmem ∉ k_held s -> free_pages s l ->
  wp uvmcreate s (fun r s' =>
    (r = 0 /\ back s l s') \/
    (r <> 0 /\ exists l', vmst s' r {[ [] := r ]} l' /\ moved (tab {[ [] := r ]}) s l s' l' /\ forall a, pte_of (k_mem s') {[ [] := r ]} a = 0)).
Proof.
  intros Himg Hw Hlk Hf. unfold uvmcreate. wp_step. apply (wp_kalloc s l); auto.
  intros r s1 Hh Ho Hpost. destruct l as [|root l]; cbn [kalloc_post] in Hpost.
  { destruct Hpost as (-> & Hm & Hf1). cbn [Z.eqb]. wp_step. left. split; [done|]. exists [].
    split; [done|]. split; auto; [tauto|]. intros x _. by rewrite Hm. }
  destruct Hpost as (-> & Hm & Hf1). destruct Hf as (_ & Hnd & Hok).
  apply Forall_cons in Hok as [Hpok Hok]. apply NoDup_cons in Hnd as [Hpl Hnd].
  rewrite (proj2 (Z.eqb_neq root 0)) by (destruct Hpok; lia). do 3 wp_step.
  assert (HP : 0 <= PGSIZE) by done. right. split; [destruct Hpok; lia|]. exists l. split; [|split].
  - split; ksimp.
    + destruct Hf1 as (Hl & _). split; [|done]. ksimp. apply linked_memset; auto. apply Hpok.
    + apply (pt_ext ∅); [by apply pt_empty|]. intros π t x Ht Hx.
      apply lookup_singleton_Some in Ht as [_ <-]. unfold in_page in Hx. rewrite memset_spec by done.
      rewrite (proj2 (Z.leb_le _ _)), (proj2 (Z.ltb_lt _ _)) by lia. done.
    + intros π t Ht. by apply lookup_singleton_Some in Ht as [_ <-].
  - split; ksimp; auto.
    + intros p. rewrite elem_of_cons. unfold tab. split.
      * intros [->|?]; [|by left]. right. exists []. apply lookup_insert_eq.
      * intros [?|[π Ht]]; [by right|]. left. by apply lookup_singleton_Some in Ht as [_ <-].
    + intros x Hx. specialize (Hx root ltac:(left)). unfold in_page in Hx. rewrite memset_spec, Hm by done.
      destruct (Z.leb_spec root x), (Z.ltb_spec x (root + PGSIZE)); cbn [andb]; (done || lia).
    + etrans; [exact Ho|apply only_mem_upd].
  - intros a. unfold pte_of. by rewrite lookup_singleton_ne.
Qed.

Lemma wp_map_page s l root s1 T1 l1 va pa perm :
  0 < sym_end -> hart_wf s1 -> Lkmem ∉ k_held s1 -> vmst s1 root T1 l1 -> moved (tab T1) s l s1 l1 ->
  va mod PGSIZE = 0 -> 0 <= va -> va + PGSIZE <= MAXVA -> pa_ok pa -> pa + PGSIZE <= 2 ^ 56 -> 0 <= perm < 1024 ->
  (forall a, va <= a < va + PGSIZE -> valid (pte_of (k_mem s1) T1 a) = false) ->
  wp (mappages root va PGSIZE pa perm) s1 (fun r s2 => exists T2 l2,
    vmst s2 root T2 l2 /\ moved (tab T2) s l s2 l2 /\ hart_same s1 s2 /\ only_mem s1 s2 /\
    ((r = 0 /\ forall a, 0 <= a < VAEND -> pte_of (k_mem s2) T2 a =
        if va =? PGROUNDDOWN a then Z.lor (PA2PTE pa) (Z.lor perm PTE_V) else pte_of (k_mem s1) T1 a) \/
     (r = -1 /\ forall a, 0 <= a < VAEND -> pte_of (k_mem s2) T2 a = pte_of (k_mem s1) T1 a))).
Proof.
  intros Himg Hw Hlk Hv Hmv Hal H0 Hmax Hpa Hpam Hperm Hfree. assert (HP : PGSIZE = 4096) by done.
  eapply wp_mono; [apply (wp_mappages s1 root T1 l1 va PGSIZE pa perm); auto; lia|].
  intros r s2 (T2 & l2 & k & Hg & Hpe & Hr). exists T2, l2. rewrite Z.div_same in Hr by done.
  split; [apply Hg|]. split; [by eapply moved_grows|]. split; [apply Hg|]. split; [apply Hg|].
  destruct Hr as [[-> ->]|(-> & Hk & _)]; [left|right]; (split; [done|]); intros a Ha; rewrite Hpe by done.
  - unfold mapped. rewrite Z.mul_1_l. pose proof (PGROUNDDOWN_spec a) as [Had Har].
    destruct (Z.eqb_spec va (PGROUNDDOWN a)) as [E|E], (Z.leb_spec va a), (Z.ltb_spec a (va + PGSIZE)); cbn [andb]; try lia; try done.
    + by rewrite <- E, Z.sub_diag, Z.add_0_r, Z.lor_assoc.
    + destruct (page_disjoint va (PGROUNDDOWN a)); auto; lia.
  - assert (k = 0) as -> by lia. by rewrite mapped_0.
Qed.

Lemma mk_leaf m T va pa perm : pa_ok pa -> 0 <= perm < 1024 -> Z.lor perm PTE_V <> PTE_V ->
  pte_of m T va = Z.lor (PA2PTE pa) (Z.lor perm PTE_V) -> leaf m T va pa.
Proof.
  intros Hpa Hperm H1 E. unfold leaf. rewrite E.
  assert (Hf : 0 <= Z.lor perm PTE_V < 1024) by by apply flags_lor_V.
  by rewrite valid_mk, PTE_FLAGS_mk, PTE2PA_mk, valid_lor_V by done.
Qed.

Lemma wp_free_empty s l root s1 T1 l1 :
  0 < sym_end -> hart_wf s1 -> Lkmem ∉ k_held s1 -> vmst s1 root T1 l1 -> moved (tab T1) s l s1 l1 ->
  (forall a, 0 <= a < VAEND -> valid (pte_of (k_mem s1) T1 a) = false) ->
  wp (uvmfree root 0) s1 (fun _ s2 => back s l s2).
Proof.
  intros Himg Hw Hlk Hv Hmv Hval. eapply wp_mono; [apply (wp_uvmfree s1 root T1 l1 [] 0); auto|].
  - apply frames_nil.
  - done.
  - split; vm_compute; congruence.
  - split; cbn [length]; unfold PGSIZE; lia.
  - intros a Ha Hva. by rewrite Hval in Hva.
  - intros [] s2 [l2 [F2 P2 M2 H2 O2]]. apply (moved_back (tab T1) s l s1 l1 s2 l2); [done|]. split; auto.
    + intros p. rewrite P2, elem_of_nil. tauto.
    + intros x Hx. apply M2. intros p [Hp|Hp]; [by apply not_elem_of_nil in Hp|by apply Hx].
Qed.

(** A frame a page-table entry can name. *)
Definition mappable (pa : Z) : Prop := pa_ok pa /\ pa + PGSIZE <= 2 ^ 56.

Definition pagetable_post (s : kstate) (l : list Z) (r : Z) (s' : kstate) : Prop :=
  (r = 0 /\ back s l s') \/
  (r <> 0 /\ exists T l', space s' r T l' [] /\ moved (tab T) s l s' l').

(** The second half: the trap frame. *)
Lemma wp_map_trapframe s l root s1 T1 l1 i x :
  0 < sym_end -> hart_wf s -> Lkmem ∉ k_held s -> vmst s1 root T1 l1 -> moved (tab T1) s l s1 l1 -> root <> 0 ->
  k_procs s !! i = Some x -> mappable (p_trapframe x) -> mappable sym_trampoline ->
  (forall a, 0 <= a < VAEND -> pte_of (k_mem s1) T1 a =
     if TRAMPOLINE =? PGROUNDDOWN a then Z.lor (PA2PTE sym_trampoline) (Z.lor (Z.lor PTE_R PTE_X) PTE_V) else 0) ->
  wp (let! x := getp i in
      let! r := mappages root TRAPFRAME PGSIZE (p_trapframe x) (Z.lor PTE_R PTE_W) in
      if r <? 0 then
        uvmunmap root TRAMPOLINE 1 false ;!
        uvmfree root 0 ;!
        ret 0
      else ret root) s1 (pagetable_post s l).
Proof.
  intros Himg Hw Hlk Hv Hmv Hr Hx [Htf Htfm] [Htr _] Hpe. pose proof (mv_hart _ _ _ _ _ Hmv) as Hh.
  assert (HTF : TRAPFRAME = 67108862 * 4096) by done. assert (HT : TRAMPOLINE = 67108863 * 4096) by done.
  assert (HM : MAXVA = 67108864 * 4096) by done. assert (HP : PGSIZE = 4096) by done. pose proof MAXVA_VAEND.
  assert (Hrd : forall a, exists q, PGROUNDDOWN a = q * 4096 /\ q * 4096 <= a < q * 4096 + 4096).
  { intros a. pose proof (PGROUNDDOWN_spec a) as [Hal Hbd]. apply Z.mod_divide in Hal as [q Hq]; [|done].
    exists q. rewrite Hq, HP in Hbd. rewrite Hq, HP. lia. }
  wp_step. apply (wp_getp s1 i x). { by rewrite (mv_only _ _ _ _ _ Hmv). }
  wp_step. eapply wp_mono; [apply (wp_map_page s l root s1 T1 l1 TRAPFRAME); auto; try done; try lia|].
  - by eapply hart_same_wf.
  - by rewrite (proj1 Hh).
  - intros a Ha. rewrite Hpe by lia. destruct (Hrd a) as (q & -> & ?).
    by rewrite (proj2 (Z.eqb_neq _ _)) by lia.
  - intros r s2 (T2 & l2 & Hv2 & Hmv2 & Hh2 & _ & [[-> Hpe2]|[-> Hpe2]]); cbn [Z.ltb Z.compare].
    + wp_step. right. split; [done|]. exists T2, l2. split; [|done]. split; try done.
      * apply frames_nil.
      * exists sym_trampoline. apply (mk_leaf _ _ _ _ (Z.lor PTE_R PTE_X)); [done..|]. rewrite Hpe2 by lia.
        rewrite (proj2 (Z.eqb_neq _ _)), Hpe by (rewrite ?PGROUNDDOWN_aligned; (done || lia)). done.
      * exists (p_trapframe x). apply (mk_leaf _ _ _ _ (Z.lor PTE_R PTE_W)); [done..|]. rewrite Hpe2 by lia.
        by rewrite PGROUNDDOWN_aligned, Z.eqb_refl.
      * intros a Ha. rewrite Hpe2, Hpe by done. destruct (Hrd a) as (q & -> & ?). right. revert H1.
        destruct (Z.eqb_spec TRAPFRAME (q * 4096)); [lia|]. destruct (Z.eqb_spec TRAMPOLINE (q * 4096)); [lia|done].
    + pose proof (hart_same_wf _ _ (mv_hart _ _ _ _ _ Hmv2) Hw) as Hw2.
      assert (Hlk2 : Lkmem ∉ k_held s2) by by rewrite (proj1 (mv_hart _ _ _ _ _ Hmv2)).
      wp_step. eapply wp_mono; [apply (wp_uvmunmap_keep s2 root T2 l2 TRAMPOLINE sym_trampoline); auto; try lia|].
      * apply (mk_leaf _ _ _ _ (Z.lor PTE_R PTE_X)); [done..|]. rewrite Hpe2, Hpe by lia.
        by rewrite PGROUNDDOWN_aligned, Z.eqb_refl.
      * intros [] s3 Hcl. pose proof (moved_cleared _ _ _ _ _ _ _ _ Hmv2 Hcl) as Hmv3.
        pose proof (mv_hart _ _ _ _ _ Hmv3) as Hh3. wp_step.
        eapply wp_mono; [apply (wp_free_empty s l root s3 T2 l2); auto|].
        -- by eapply hart_same_wf.
        -- by rewrite (proj1 Hh3).
        -- apply Hcl.
        -- intros a Ha. rewrite (cl_pte _ _ _ _ _ _ Hcl), Hpe2, Hpe by done. by destruct (TRAMPOLINE =? _).
        -- intros [] s4 Hb. wp_step. by left.
Qed.

Lemma wp_proc_pagetable s l i x :
  0 < sym_end -> hart_wf s -> Lkmem ∉ k_held s -> free_pages s l ->
  k_procs s !! i = Some x -> mappable (p_trapframe x) -> mappable sym_trampoline ->
  wp (proc_pagetable i) s (pagetable_post s l).
Proof.
  intros Himg Hw Hlk Hf Hx Htf Htr. unfold proc_pagetable.
  wp_step. eapply wp_mono; [apply (wp_uvmcreate s l); auto|].
  intros root s1 [[-> Hb]|(Hr & l1 & Hv & Hmv & Hpe)].
  { cbn [Z.eqb]. wp_step. by left. }
  rewrite (proj2 (Z.eqb_neq root 0)) by done. pose proof (mv_hart _ _ _ _ _ Hmv) as Hh.
  wp_step. destruct Htr as [Htr Htrm].
  eapply wp_mono; [apply (wp_map_page s l root s1 {[ [] := root ]} l1 TRAMPOLINE); auto; try done|].
  - by eapply hart_same_wf.
  - by rewrite (proj1 Hh).
  - intros a _. by rewrite Hpe.
  - intros r s2 (T2 & l2 & Hv2 & Hmv2 & _ & _ & [[-> Hpe2]|[-> Hpe2]]); cbn [Z.ltb Z.compare].
    + eapply wp_map_trapframe; eauto; [by split|]. intros a Ha. by rewrite Hpe2, Hpe.
    + pose proof (mv_hart _ _ _ _ _ Hmv2) as Hh2.
      wp_step. eapply wp_mono; [apply (wp_free_empty s l root s2 T2 l2); auto|].
      * by eapply hart_same_wf.
      * by rewrite (proj1 Hh2).
      * intros a Ha. by rewrite Hpe2, Hpe.
      * intros [] s4 Hb. wp_step. by left.
Qed.

(** ** From creation to the end *)

(** The memory of a process that has nothing to do with the free pages. *)
Definition apart (s : kstate) (old : Z) (To : gmap (list Z) Z) (l : list Z) (sz : Z) : Prop := parent s old To ∅ l sz.

Lemma apart_moved s old To l sz s1 T1 l1 :
  free_pages s l -> apart s old To l sz -> moved (tab T1) s l s1 l1 -> parent s1 old To T1 l1 sz.
Proof.
  intros (_ & _ & Hok) [Hp Hl Ht] [P M H O].
  assert (Hin : forall p x, page_ok p -> p ∉ l -> in_page p x -> rd (k_mem s1) x = rd (k_mem s) x).
  { intros p x Hpok Hpl Hx. apply M. intros q Hq. apply (in_page_disj p q x); auto; [|by intros ->].
    by apply (proj1 (Forall_forall _ _) Hok). }
  assert (Hnew : forall p, p ∉ l -> p ∉ l1 /\ ~ tab T1 p).
  { intros p Hp'. split; intros ?; apply Hp', P; auto. }
  destruct (pt_ext (k_mem s) (k_mem s1) old To Hp) as [Hp1 Hpe].
  { intros π t x Hπ. apply Hin; [by eapply pt_page|]. apply Ht. by exists π. }
  split; [done| |].
  - intros a Ha. destruct (Hl a Ha) as (f & Hf & Hfok & Hfl & _). exists f.
    split; [by apply (leaf_pte (k_mem s))|]. split; [done|]. by apply Hnew.
  - intros t Htab. apply Hnew. by destruct (Ht t Htab).
Qed.

(** A page table is made, takes a copy of a process's memory and is freed,
    as fork and then wait do; when the copy fails the size is still 0. *)
Definition life (i : nat) (old sz : Z) : K Z :=
  let! t := proc_pagetable i in
  if t =? 0 then ret (-1) else
  let! r := uvmcopy old t sz in
  if r <? 0 then proc_freepagetable t 0 ;! ret (-1)
  else proc_freepagetable t sz ;! ret 0.

Lemma copy_moved s l s1 T1 l1 s2 T2 l2 (F : list Z) :
  moved (tab T1) s l s1 l1 -> (forall p, p ∈ l1 \/ tab T1 p <-> p ∈ l2 \/ p ∈ F \/ tab T2 p) ->
  mem_frame T1 l1 (k_mem s1) (k_mem s2) -> hart_same s1 s2 -> only_mem s1 s2 ->
  moved (fun p => p ∈ F \/ tab T2 p) s l s2 l2.
Proof.
  intros [P M H O] P2 M2 H2 O2. split; try by etrans.
  - intros p. rewrite P. apply P2.
  - intros x Hx. rewrite M2, M; auto.
    + intros π t Hπ. apply Hx, P. right. by exists π.
    + intros p Hp. apply Hx, P. by left.
Qed.

Lemma size_of_0 sz : sz = 0 -> size_of (@length Z []) sz.
Proof. intros ->. split; cbn [length]; unfold PGSIZE; lia. Qed.

(** The end of a space whose pages came from [l]. *)
Lemma wp_end_space s l s2 root T2 l2 F sz (r : Z) :
  0 < sym_end -> hart_wf s -> Lkmem ∉ k_held s -> space s2 root T2 l2 F -> 0 <= sz -> size_of (length F) sz ->
  moved (fun p => p ∈ F \/ tab T2 p) s l s2 l2 ->
  wp (proc_freepagetable root sz ;! ret r) s2 (fun r' s' => r' = r /\ back s l s').
Proof.
  intros Himg Hw Hlk Hsp Hsz Hlen Hmv. pose proof (mv_hart _ _ _ _ _ Hmv) as Hh.
  wp_step. eapply wp_mono; [apply (wp_proc_freepagetable s2 root T2 l2 F sz); auto|].
  - by eapply hart_same_wf.
  - by rewrite (proj1 Hh).
  - intros [] s3 [l3 Hr]. wp_step. split; [done|]. by eapply moved_back.
Qed.

Lemma wp_life s l i x old To sz :
  0 < sym_end -> hart_wf s -> Lkmem ∉ k_held s -> free_pages s l ->
  k_procs s !! i = Some x -> mappable (p_trapframe x) -> mappable sym_trampoline ->
  0 <= sz <= TRAPFRAME -> apart s old To l sz ->
  wp (life i old sz) s (fun r s' => (r = 0 \/ r = -1) /\ back s l s').
Proof.
  intros Himg Hw Hlk Hf Hx Htf Htr Hsz Hap. unfold life.
  wp_step. eapply wp_mono; [eapply wp_proc_pagetable; eauto|].
  intros t s1 [[-> Hb]|(Ht & T1 & l1 & Hsp & Hmv)].
  { cbn [Z.eqb]. wp_step. auto. }
  rewrite (proj2 (Z.eqb_neq t 0)) by done. pose proof (mv_hart _ _ _ _ _ Hmv) as Hh.
  pose proof (apart_moved _ _ _ _ _ _ _ _ Hf Hap Hmv) as Hpar.
  assert (HTF : TRAPFRAME <= MAXVA) by (vm_compute; congruence).
  wp_step. eapply wp_mono; [apply (wp_uvmcopy s1 old t To T1 l1 sz); auto|].
  - by eapply hart_same_wf.
  - by rewrite (proj1 Hh).
  - lia.
  - apply Hsp.
  - intros a Ha. by eapply space_free.
  - intros r s2 [(-> & T2 & l2 & F & Hc & Hlen)|(-> & T2 & l2 & Hu)]; cbn [Z.ltb Z.compare].
    + eapply wp_mono; [apply (wp_end_space s l s2 t T2 l2 F sz); auto; [|lia|]|].
      * by eapply copied_space.
      * eapply copy_moved; [done| |apply Hc..]. intros p.
        rewrite (cp_pages _ _ _ _ _ _ _ _ _ _ Hc), app_nil_r. done.
      * intros r s3 [-> Hb]. auto.
    + eapply wp_mono; [apply (wp_end_space s l s2 t T2 l2 [] 0); auto; [|lia|by apply size_of_0|]|].
      * by eapply undone_space.
      * eapply copy_moved; [done| |apply Hu..]. intros p.
        rewrite (ud_pages _ _ _ _ _ _ _ _ Hu), elem_of_nil. tauto.
      * intros r s3 [-> Hb]. auto.
Qed.

(** ** Properties *)

(** C8. No page is lost over the life of an address space: making a page
    table, copying a process's memory into it and freeing it (with size 0
    when the copy failed) returns, whatever runs out on the way, with exactly
    the pages free that were free before, each once; memory outside them, the
    copied process's among it, and the locks are as before. *)
Theorem space_life s l i x old To sz :
  0 < sym_end -> hart_wf s -> Lkmem ∉ k_held s -> free_pages s l ->
  k_procs s !! i = Some x -> mappable (p_trapframe x) -> mappable sym_trampoline ->
  0 <= sz <= TRAPFRAME -> apart s old To l sz ->
  exists r s' l', life i old sz s = Done r s' /\ (r = 0 \/ r = -1) /\
    free_pages s' l' /\ l' ≡ₚ l /\
    (forall a, (forall p, p ∈ l -> ~ in_page p a) -> rd (k_mem s') a = rd (k_mem s) a) /\
    hart_same s s' /\ only_mem s s'.
Proof.
  intros Himg Hw Hlk Hf Hx Htf Htr Hsz Hap.
  destruct (proj1 (wp_done _ _ _) (wp_life s l i x old To sz Himg Hw Hlk Hf Hx Htf Htr Hsz Hap))
    as (r & s' & E & Hr & l' & Hf' & [P M H O]).
  exists r, s', l'. split; [done|]. split; [done|]. split; [done|]. split; [|done].
  destruct Hf as (_ & Hnd & _), Hf' as (_ & Hnd' & _). apply NoDup_Permutation; auto.
  intros p. rewrite P. tauto.
Qed.

End space.

(** ** Example: a one-page process, and six free pages, which are enough *)

Section sample.
Local Existing Instance sample_image.

Definition six : list Z := [0x87ffb000; 0x87ffa000; 0x87ff9000; 0x87ff8000; 0x87ff7000; 0x87ff6000].
Definition ex_m6 : gmap Z Z :=
  foldr (fun p m => store64 m p (p - PGSIZE)) ex_m3 [0x87ffb000; 0x87ffa000; 0x87ff9000; 0x87ff8000; 0x87ff7000].
Definition ex_life : kstate :=
  bss <| k_mem := ex_m6 |> <| k_freelist := 0x87ffb000 |> <| k_procs ::= alter (upd p_trapframe (fun _ => 0x87ff5000)) 0%nat |>.

Lemma ex_m6_rd x : 0x87ffc000 <= x -> rd ex_m6 x = rd ex_m3 x.
Proof. intros. unfold ex_m6. cbn [foldr]. by rewrite !rd_store64_ne by lia. Qed.

Lemma ex_life_apart : apart ex_life ex_root ex_T six PGSIZE.
Proof.
  destruct (pt_ext ex_m3 ex_m6 ex_root ex_T ex_pt3) as [Hp Hpe].
  { intros π t x Ht Hx. apply ex_m6_rd.
    apply ex_tables in Ht as [->|[->| ->]]; unfold in_page, ex_root, ex_t1, ex_t0 in Hx; lia. }
  split; [exact Hp| |].
  - intros a Ha. exists ex_frame. unfold leaf. change (k_mem ex_life) with ex_m6.
    rewrite Hpe, ex_pte by (assert (PGSIZE < MAXVA) by done; lia).
    rewrite PGROUNDDOWN_eq, Z.mod_small, Z.sub_diag by lia. cbn [Z.eqb].
    split; [repeat split; vm_compute; congruence|]. split; [repeat split; vm_compute; congruence|].
    split; [by apply (bool_decide_unpack _); vm_compute|]. intros [π Ht]. done.
  - intros t [π Ht]. split; [|intros [π' Ht']; done].
    apply ex_tables in Ht as [->|[->| ->]]; by apply (bool_decide_unpack _); vm_compute.
Qed.

Lemma space_life_witness :
  exists s' l', life 0 ex_root PGSIZE ex_life = Done 0 s' /\ free_pages s' l' /\ l' ≡ₚ six.
Proof.
  destruct (space_life ex_life six 0 (default zero_proc (k_procs ex_life !! 0%nat)) ex_root ex_T PGSIZE)
    as (r & s' & l' & E & Hr & Hf & Hl & _).
  - done.
  - split; done.
  - apply not_elem_of_nil.
  - split; [vm_compute; auto 10|]. split; [by apply (bool_decide_unpack _); vm_compute|].
    repeat constructor; vm_compute; congruence.
  - vm_compute; reflexivity.
  - repeat split; vm_compute; congruence.
  - repeat split; vm_compute; congruence.
  - split; vm_compute; congruence.
  - exact ex_life_apart.
  - exists s', l'. destruct Hr as [-> | ->]; [split; [exact E|split; [exact Hf|exact Hl]]|].
    assert (match life 0 ex_root PGSIZE ex_life with Done r _ => r | _ => 1 end = 0) as H0
      by (vm_compute; reflexivity).
    rewrite E in H0. discriminate H0.
Defined.

End sample.
End SpaceSpec.
