(* ===== verification/GrowSpec.v ===== *)
(** * sbrk: growing and shrinking a process

    [uvmalloc], [uvmdealloc] and [growproc] over the address spaces of
    [SpaceSpec]: growing adds zeroed pages or undoes itself, shrinking gives
    pages back, and the rest of the memory stays. *)

From S2P Require Import Prelude State Spinlock CString Mem Kalloc Vm PageTable UvmSpec Sched FileLayer Proc SpaceSpec.

Module GrowSpec.
Import UvmSpec SpaceSpec.

Section grow.
Context {img : Image}.

(** ** Spaces under small changes *)

Lemma space_ext s s' root T l F : k_mem s' = k_mem s -> k_freelist s' = k_freelist s ->
  space s root T l F -> space s' root T l F.
Proof.
  intros Em Ef [[Hf Hp Ht] HF Hm Hr Htr Htf Ho]. split; rewrite ?Em; auto.
  split; rewrite ?Em; auto. unfold free_pages. by rewrite Em, Ef.
Qed.

(** The frames a process can have: fewer than physical memory has pages. *)
Lemma frames_bound T l F : 0 < sym_end -> frames T l F -> Z.of_nat (length F) * PGSIZE <= PHYSTOP.
Proof.
  intros Himg [Hnd Hok].
  assert (Hsub : F ⊆+ (fun k => Z.of_nat k * PGSIZE) <$> seq 0 (Z.to_nat (PHYSTOP / PGSIZE))).
  { apply NoDup_submseteq; [done|]. intros f Hf. destruct (Hok f Hf) as ((Hal & Hr) & _).
    apply Z.mod_divide in Hal as [q ->]; [|done]. apply list_elem_of_fmap. exists (Z.to_nat q).
    assert (PHYSTOP = 557056 * PGSIZE) as HP by done. rewrite HP, Z.div_mul in * by done. unfold PGSIZE in *.
    split; [lia|]. apply elem_of_seq. lia. }
  apply submseteq_length in Hsub. rewrite length_fmap, length_seq in Hsub.
  change (PHYSTOP / PGSIZE) with 557056 in Hsub. change PHYSTOP with (557056 * PGSIZE). unfold PGSIZE. lia.
Qed.

Lemma space_shrink s root T l F G s' : space s root T l (F ++ G) ->
  unmapped root s T l (Z.of_nat (length F) * PGSIZE) G s' -> space s' root T (rev G ++ l) F.
Proof.
  intros [Hv [Hnd Hok] Hm Hr [ft Ht] [ff Hf] Ho] [V P M H O]. rewrite length_app in *.
  assert (HTF : TRAPFRAME = 67108862 * 4096) by done. assert (HT : TRAMPOLINE = 67108863 * 4096) by done.
  assert (HM : MAXVA = 2 ^ 38) by done. assert (HP : PGSIZE = 4096) by done. pose proof MAXVA_VAEND.
  apply NoDup_app in Hnd as (HndF & HFG & _).
  assert (Hout : forall a, 0 <= a < VAEND -> a < Z.of_nat (length F) * PGSIZE \/ TRAPFRAME <= a ->
    pte_of (k_mem s') T a = pte_of (k_mem s) T a).
  { intros a Ha Hc. rewrite P by done.
    destruct (Z.leb_spec (Z.of_nat (length F) * PGSIZE) a),
      (Z.ltb_spec a (Z.of_nat (length F) * PGSIZE + Z.of_nat (length G) * PGSIZE)); cbn [andb]; (done || lia). }
  split; auto; try lia.
  - split; [done|]. intros f Hf'. destruct (Hok f) as (? & Hl & ?); [apply elem_of_app; by left|].
    split; [done|]. split; [|done]. intros [Hin|?]%elem_of_app; [|done].
    apply (HFG f Hf'). by rewrite list_elem_of_In, in_rev, <- list_elem_of_In.
  - intros k f Hk. pose proof (lookup_lt_Some _ _ _ Hk). apply (leaf_pte (k_mem s)).
    + apply Hout; lia.
    + apply Hm. by apply lookup_app_l_Some.
  - exists ft. apply (leaf_pte (k_mem s)); [apply Hout; lia|done].
  - exists ff. apply (leaf_pte (k_mem s)); [apply Hout; lia|done].
  - intros a Ha. rewrite P by done.
    destruct (Z.leb_spec (Z.of_nat (length F) * PGSIZE) a),
      (Z.ltb_spec a (Z.of_nat (length F) * PGSIZE + Z.of_nat (length G) * PGSIZE)); cbn [andb]; try done;
      intros Hval; destruct (Ho a Ha Hval); lia.
Qed.

Lemma space_grown s root T l F s' T' l' F' : space s root T l F -> vmst s' root T' l' ->
  frames T' l' F' -> maps (k_mem s') T' 0 F' -> (length F <= length F')%nat ->
  Z.of_nat (length F') * PGSIZE <= TRAPFRAME ->
  (forall a, Z.of_nat (length F') * PGSIZE <= a < VAEND -> pte_of (k_mem s') T' a = pte_of (k_mem s) T a) ->
  space s' root T' l' F'.
Proof.
  intros [Hv HF Hm Hr [ft Ht] [ff Hf] Ho] Hv' HF' Hm' Hle Hr' Hout.
  assert (TRAPFRAME < TRAMPOLINE < VAEND) by done. split; auto.
  - exists ft. apply (leaf_move (k_mem s) T); [apply Hout; lia|done].
  - exists ff. apply (leaf_move (k_mem s) T); [apply Hout; lia|done].
  - intros a Ha Hval. destruct (Z.ltb_spec a (Z.of_nat (length F') * PGSIZE)); [by left|].
    rewrite Hout in Hval by lia. destruct (Ho a Ha Hval); [unfold PGSIZE in *; lia|by right].
Qed.

Lemma frames_grows root s T l F s' T' l' : grows root s T l s' T' l' -> frames T l F -> frames T' l' F.
Proof.
  intros Hg [Hnd Hok]. split; [done|]. intros f Hin. destruct (Hok f Hin) as (? & Hl & Ht). split; [done|]. split.
  - intros ?. by apply Hl; eapply suffix_elem; [apply Hg|].
  - intros [π [?|?]%(gr_new _ _ _ _ _ _ _ Hg)]; [|done]. by apply Ht; exists π.
Qed.
Lemma frames_app_l T l F G : frames T l (F ++ G) -> frames T l F.
Proof.
  intros [Hnd Hok]. apply NoDup_app in Hnd as (? & _). split; [done|]. intros f Hf. apply Hok, elem_of_app. by left.
Qed.

(** Only the page [p], which is not a table, and the free list changed. *)
Lemma space_page s s' root T l l' F p : space s root T l F -> page_ok p -> ~ tab T p ->
  (forall a, ~ in_page p a -> rd (k_mem s') a = rd (k_mem s) a) -> free_pages s' l' ->
  (forall t, tab T t -> t ∉ l') -> frames T l' F -> space s' root T l' F.
Proof.
  intros Hsp Hpok Hpt Ha Hf Ht HF. pose proof (sp_vm _ _ _ _ _ Hsp) as Hv.
  destruct (pt_ext (k_mem s) (k_mem s') root T (vm_pt _ _ _ _ Hv)) as [Hp' Hpe].
  { intros π t a Hπ Hin. apply Ha. apply (in_page_disj t p a); auto; [by eapply pt_page; [apply Hv|]|].
    intros ->. by destruct Hpt; exists π. }
  apply (space_grown s root T l F); auto; [| |apply Hsp].
  - split; auto. intros π t Hπ. apply Ht. by exists π.
  - intros k f Hk. apply (leaf_pte (k_mem s)); [done|by apply (sp_maps _ _ _ _ _ Hsp)].
Qed.

(** Mapping one more page. *)
Lemma wp_map_next s root T l F p perm (a := Z.of_nat (length F) * PGSIZE) :
  0 < sym_end -> hart_wf s -> Lkmem ∉ k_held s -> space s root T l F -> frames T l (F ++ [p]) ->
  a < TRAPFRAME -> 0 <= perm < 1024 -> Z.lor perm PTE_V <> PTE_V ->
  wp (mappages root a PGSIZE p perm) s (fun r s' => exists T' l',
    grows root s T l s' T' l' /\
    ((r = 0 /\ space s' root T' l' (F ++ [p]) /\
      forall b, a <= b < a + PGSIZE -> pte_of (k_mem s') T' b = Z.lor (PA2PTE p) (Z.lor perm PTE_V)) \/
     (r = -1 /\ l' = [] /\ space s' root T' [] F /\ (length l < 2)%nat))).
Proof.
  intros Himg Hw Hlk Hsp HF Ha Hperm HpV. pose proof (sp_only _ _ _ _ _ Hsp) as Ho.
  assert (HTF : TRAPFRAME = 67108862 * 4096) by done. assert (HM : MAXVA = 2 ^ 38) by done.
  assert (HP : PGSIZE = 4096) by done. pose proof MAXVA_VAEND.
  destruct (fs_ok _ _ _ HF p) as (Hpok & _); [apply elem_of_app; right; left|].
  pose proof (page_pa_ok p Himg Hpok) as Hpa.
  assert (Hroom : a + PGSIZE <= TRAPFRAME) by (unfold a in *; rewrite HP, HTF in *; lia).
  assert (Hal : a mod PGSIZE = 0) by by apply Z.mod_mul.
  assert (Ha0 : 0 <= a) by (unfold a; lia).
  eapply wp_mono; [apply (wp_mappages s root T l a PGSIZE p perm); auto; try lia|].
  - apply Hsp.
  - destruct Hpok as [_ ?]. assert (PHYSTOP < 2 ^ 55) by done. lia.
  - intros b Hb. destruct (valid (pte_of (k_mem s) T b)) eqn:E; [|done]. destruct (Ho b); (done || lia).
  - intros r s' (T' & l' & k & Hg & Hpe & Hk). exists T', l'. split; [done|]. rewrite Z.div_same in Hk by done.
    assert (Hout : forall b, 0 <= b < VAEND -> b < a \/ a + k * PGSIZE <= b -> pte_of (k_mem s') T' b = pte_of (k_mem s) T b).
    { intros b Hb Hc. rewrite Hpe by done. unfold mapped.
      destruct (Z.leb_spec a b), (Z.ltb_spec b (a + k * PGSIZE)); cbn [andb]; (done || lia). }
    assert (Hmaps : maps (k_mem s') T' 0 F).
    { intros j f Hj. pose proof (lookup_lt_Some _ _ _ Hj). apply (leaf_move (k_mem s) T); [|by apply (sp_maps _ _ _ _ _ Hsp)].
      apply Hout; unfold a; lia. }
    destruct Hk as [[-> ->]|(-> & Hk & ->)]; [left|right]; (split; [done|]).
    + assert (Hin : forall b, a <= b < a + PGSIZE -> pte_of (k_mem s') T' b = Z.lor (PA2PTE p) (Z.lor perm PTE_V)).
      { intros b Hb. rewrite Hpe by lia. unfold mapped.
        pose proof (rounddown_add a (b - a) Hal ltac:(lia)) as E. replace (a + (b - a)) with b in E by lia.
        rewrite (proj2 (Z.leb_le _ _)), (proj2 (Z.ltb_lt _ _)), E by lia. cbn [andb].
        by rewrite Z.sub_diag, Z.add_0_r, Z.lor_assoc. }
      split; [|exact Hin]. apply (space_grown s root T l F); auto.
      * apply Hg.
      * by eapply frames_grows.
      * intros j f [[Hlt Hj]|[-> ->]]%lookup_snoc_Some; [by apply Hmaps|]. rewrite Z.add_0_l. fold a.
        apply (mk_leaf _ _ _ _ perm); auto. apply Hin. lia.
      * rewrite length_app. lia.
      * rewrite length_app. cbn [length]. unfold a in *. lia.
      * intros b. rewrite length_app. cbn [length]. intros Hb. apply Hout; unfold a in *; lia.
    + assert (k = 0) as -> by lia. split; [done|]. split; [|lia].
      apply (space_grown s root T l F); auto; [apply Hg| |apply Hsp|].
      * eapply frames_grows; [done|]. by eapply frames_app_l.
      * intros b Hb. apply Hout; unfold a in *; lia.
Qed.

(** ** uvmdealloc *)

Lemma size_round n sz : 0 <= sz <= MAXVA -> size_of n sz -> PGROUNDUP sz = Z.of_nat n * PGSIZE.
Proof.
  intros Hsz Hn. assert (HM : MAXVA = 2 ^ 38) by done. rewrite <- (size_pages n sz Hsz Hn).
  pose proof (PGROUNDUP_spec sz ltac:(unfold PGSIZE; lia)) as [Hal _].
  apply Z.mod_divide in Hal as [q ->]; [|done]. by rewrite Z.div_mul.
Qed.
Lemma size_of_full n : size_of n (Z.of_nat n * PGSIZE).
Proof. split; unfold PGSIZE; lia. Qed.

Lemma wp_uvmdealloc s root T l F G oldsz newsz :
  0 < sym_end -> hart_wf s -> Lkmem ∉ k_held s -> space s root T l (F ++ G) ->
  size_of (length (F ++ G)) oldsz -> size_of (length F) newsz -> 0 <= newsz <= oldsz ->
  wp (uvmdealloc root oldsz newsz) s
    (fun r s' => r = newsz /\ unmapped root s T l (Z.of_nat (length F) * PGSIZE) G s').
Proof.
  intros Himg Hw Hlk Hsp Hold Hnew Hle. pose proof (sp_room _ _ _ _ _ Hsp) as Hroom.
  pose proof (frames_bound _ _ _ Himg (sp_frames _ _ _ _ _ Hsp)) as Hb.
  assert (TRAPFRAME < MAXVA) by done. assert (HP : PGSIZE = 4096) by done. rewrite length_app in *.
  assert (HPH : PHYSTOP = 2281701376) by done. assert (HTF : TRAPFRAME = 67108862 * 4096) by done.
  assert (Hnil : G = [] -> unmapped root s T l (Z.of_nat (length F) * PGSIZE) G s).
  { intros ->. apply unmapped_nil. rewrite app_nil_r in Hsp. apply Hsp. }
  unfold uvmdealloc. destruct (Z.leb_spec oldsz newsz).
  { apply wp_ret. assert (oldsz = newsz) as -> by lia. split; [done|]. apply Hnil.
    destruct G; [done|]. destruct Hold, Hnew. cbn [length] in *. lia. }
  rewrite (size_round (length F) newsz), (size_round (length F + length G) oldsz) by (destruct Hold; (done || lia)).
  wp_step. destruct (Z.ltb_spec (Z.of_nat (length F) * PGSIZE) (Z.of_nat (length F + length G) * PGSIZE)) as [Hlt|Hge]; cbn [when].
  - replace (Z.of_nat (length F + length G) * PGSIZE - Z.of_nat (length F) * PGSIZE) with (Z.of_nat (length G) * PGSIZE) by lia.
    rewrite Z.div_mul, i32_small, u64_small by (done || lia).
    eapply wp_mono; [apply (wp_uvmunmap s root T l (Z.of_nat (length F) * PGSIZE) G); auto|].
    + apply Hsp.
    + by apply Z.mod_mul.
    + lia.
    + lia.
    + intros k f Hk. pose proof (sp_maps _ _ _ _ _ Hsp (length F + k)%nat f) as Hm.
      replace (Z.of_nat (length F) * PGSIZE + Z.of_nat k * PGSIZE) with (0 + Z.of_nat (length F + k) * PGSIZE) by lia.
      apply Hm. rewrite lookup_app_r by lia. by replace (length F + k - length F)%nat with k by lia.
    + destruct (sp_frames _ _ _ _ _ Hsp) as [Hnd Hok]. apply NoDup_app in Hnd as (_ & _ & ?).
      split; [done|]. intros f Hf. apply Hok, elem_of_app. by right.
    + intros [] s' Hu. wp_step. done.
  - do 2 wp_step. split; [done|]. apply Hnil. destruct G; [done|]. cbn [length] in *. lia.
Qed.

(** ** The page counter of the process *)

Definition bump (p : proc) : proc := upd p_heap_pages (fun n => u32 (n + 1)) p.
(** [s'] is [s] with other memory and the counter of process [i] up by [n]. *)
Definition counted (i n : nat) (s s' : kstate) : Prop :=
  only_mem (s <| k_procs := alter (Nat.iter n bump) i (k_procs s) |>) s'.

Lemma counted_0 i s s' : only_mem s s' -> counted i 0 s s'.
Proof.
  intros H. unfold counted. rewrite list_alter_id by done.
  replace (s <| k_procs := k_procs s |>) with s; [done|]. by destruct s.
Qed.
Lemma counted_mem i n s s1 s2 : counted i n s s1 -> only_mem s1 s2 -> counted i n s s2.
Proof. unfold counted. intros. by etrans. Qed.
Lemma counted_procs i n s s' : counted i n s s' -> k_procs s' = alter (Nat.iter n bump) i (k_procs s).
Proof. intros H. by rewrite H. Qed.
Lemma only_mem_set s s1 X : only_mem s s1 -> only_mem (s <| k_procs := X |>) (s1 <| k_procs := X |>).
Proof. unfold only_mem. intros E. rewrite E at 1. by destruct s, s1. Qed.
Lemma nohart_only_mem s s' : nohart s' = nohart s ->
  only_mem s s' /\ k_mem s' = k_mem s /\ k_freelist s' = k_freelist s.
Proof.
  intros E. pose proof (f_equal k_mem E : k_mem s' = k_mem s) as Em.
  pose proof (f_equal k_freelist E : k_freelist s' = k_freelist s) as Ef. split; [|done].
  unfold only_mem. rewrite Em, Ef. transitivity ((nohart s') <| k_held := k_held s' |> <| k_cpu := k_cpu s' |>).
  - destruct s'; reflexivity.
  - rewrite E. destruct s; reflexivity.
Qed.
Lemma counted_S i n s s1 s2 : counted i n s s1 ->
  nohart s2 = nohart (s1 <| k_procs := alter bump i (k_procs s1) |>) -> counted i (S n) s s2.
Proof.
  intros H E. apply nohart_only_mem in E as (E & _ & _). unfold counted in *.
  etrans; [|exact E]. rewrite (counted_procs _ _ _ _ H), list_alter_alter_eq.
  etrans; [|apply only_mem_set, H]. reflexivity.
Qed.

Lemma alter_insert {A} (f : A -> A) (l : list A) (i : nat) x : l !! i = Some x -> alter f i l = <[i := f x]> l.
Proof.
  revert i. induction l as [|y l IH]; intros [|i] H; try done.
  - by injection H as ->.
  - change (y :: alter f i l = y :: <[i := f x]> l). f_equal. by apply IH.
Qed.

Lemma wp_count i s x (k : K Z) (Q : Z -> kstate -> Prop) :
  hart_wf s -> c_proc (k_cpu s) = Some i -> Lproc i ∉ k_held s -> k_procs s !! i = Some x ->
  (forall s', hart_same s s' -> nohart s' = nohart (s <| k_procs := alter bump i (k_procs s) |>) -> wp k s' Q) ->
  wp (let! p := myproc in
      let! j := deref "p" p in
      acquire (Lproc j) ;!
      setp j (upd p_heap_pages (fun n => u32 (n + 1))) ;!
      release (Lproc j) ;! k) s Q.
Proof.
  intros Hw Hc Hlk Hx HQ. wp_step. apply wp_myproc; [done|]. intros s1 H1. rewrite Hc.
  destruct (hart_eq_locks _ _ H1) as (L1 & P1 & _). pose proof H1 as [Hh1 E1].
  wp_step. eapply wp_eq; [reflexivity|]. wp_step. apply wp_acquire; [by rewrite L1|].
  wp_step. apply (wp_setp _ i _ x); [ksimp; by rewrite P1|].
  pose proof (hart_same_wf _ _ Hh1 Hw) as [Hn Hs]. wp_step. apply (wp_release _ _ (k_held s1)); ksimp; [done|by rewrite L1|done|lia|].
  apply HQ.
  - etrans; [exact Hh1|]. by apply (lock_unlock (Lproc i)).
  - rewrite nohart_unlocked, (alter_insert _ _ _ _ Hx), P1. by rewrite <- (nohart_eq_set _ _ _ H1).
Qed.

(** ** uvmalloc *)

Section alloc.
Context (s0 : kstate) (i : nat) (x : proc) (root : Z) (T0 : gmap (list Z) Z) (l0 F0 : list Z).
Local Notation m0 := (k_mem s0).

(** The frames [G] were added, zeroed, after [n] counts; [H] is zeroed but not
    mapped yet. *)
Record growing (n : nat) (s : kstate) (T : gmap (list Z) Z) (l G H : list Z) : Prop := {
  gw_space : space s root T l (F0 ++ G);
  gw_frames : frames T l (F0 ++ G ++ H);
  gw_pages p : p ∈ l0 \/ tab T0 p <-> p ∈ l \/ p ∈ G ++ H \/ tab T p;
  gw_mem : mem_frame T0 l0 m0 (k_mem s);
  gw_zero f a : f ∈ G ++ H -> in_page f a -> rd (k_mem s) a = 0;
  gw_hart : hart_same s0 s;
  gw_count : counted i n s0 s;
}.

Context (Himg : 0 < sym_end) (Hwf : hart_wf s0) (Hlk : Lkmem ∉ k_held s0) (Hplk : Lproc i ∉ k_held s0).
Context (Hc : c_proc (k_cpu s0) = Some i) (Hx : k_procs s0 !! i = Some x) (Hsp0 : space s0 root T0 l0 F0).

Lemma growing_start : growing 0 s0 T0 l0 [] [].
Proof.
  split; rewrite ?app_nil_r; try done.
  - apply Hsp0.
  - intros p. rewrite elem_of_nil. tauto.
  - intros f a Hf. by apply not_elem_of_nil in Hf.
  - by apply counted_0.
Qed.

(** Frames lie outside the tables and the free pages. *)
Lemma growing_outside n s T l G H f a : growing n s T l G H -> f ∈ G ++ H -> in_page f a ->
  (forall π t, T !! π = Some t -> ~ in_page t a) /\ (forall p, p ∈ l -> ~ in_page p a).
Proof.
  intros Hg Hf Ha. pose proof (gw_space _ _ _ _ _ _ Hg) as [Hv _ _ _ _ _ _].
  destruct (fs_ok _ _ _ (gw_frames _ _ _ _ _ _ Hg) f) as (Hok & Hl & Ht); [apply elem_of_app; by right|]. split.
  - intros π t Hπ. apply (in_page_disj f t a); auto; [by eapply pt_page; [apply Hv|]|].
    intros ->. by destruct Ht; exists π.
  - intros q Hq. apply (in_page_disj f q a); auto; [|by intros ->].
    destruct (vm_free _ _ _ _ Hv) as (_ & _ & Hfr). by apply (proj1 (Forall_forall _ _) Hfr).
Qed.

Lemma growing_frame n s T l G H m' : growing n s T l G H ->
  (forall a, (forall t, tab T t -> ~ in_page t a) -> (forall p, p ∈ l ++ G ++ H -> ~ in_page p a) ->
     rd m' a = rd (k_mem s) a) ->
  mem_frame T0 l0 m0 m'.
Proof.
  intros Hg Hm a HT Hl. rewrite <- (gw_mem _ _ _ _ _ _ Hg a HT Hl). apply Hm.
  - intros t Ht. destruct (proj2 (gw_pages _ _ _ _ _ _ Hg t)) as [?|[π ?]]; eauto.
  - intros p [Hp|Hp]%elem_of_app; destruct (proj2 (gw_pages _ _ _ _ _ _ Hg p)) as [?|[π ?]]; eauto.
Qed.

Lemma growing_grows n s T l G H s' T' l' G' H' :
  growing n s T l G H -> grows root s T l s' T' l' -> space s' root T' l' (F0 ++ G') -> G' ++ H' = G ++ H ->
  growing n s' T' l' G' H'.
Proof.
  intros Hg Hgr Hsp E. split; rewrite ?E; auto.
  - eapply frames_grows; [done|apply Hg].
  - intros p. rewrite (gw_pages _ _ _ _ _ _ Hg). split.
    + intros [Hp|[?|[π Hp]]]; [apply (gr_taken _ _ _ _ _ _ _ Hgr) in Hp as [?|[??]]; unfold tab; eauto|auto|].
      right. right. exists π. eapply lookup_weaken; [done|apply Hgr].
    + intros [Hp|[?|[π Hp]]]; [left; eapply suffix_elem; [apply Hgr|done]|auto|].
      apply (gr_new _ _ _ _ _ _ _ Hgr) in Hp as [?|?]; [right; right; by exists π|auto].
  - eapply growing_frame; [done|]. intros a HT Hl. apply (gr_mem _ _ _ _ _ _ _ Hgr); [unfold tab in HT; eauto|].
    intros p Hp. apply Hl, elem_of_app. by left.
  - intros f a Hf Ha. destruct (growing_outside _ _ _ _ _ _ f a Hg Hf Ha) as [H1 H2].
    rewrite (gr_mem _ _ _ _ _ _ _ Hgr) by done. by apply (gw_zero _ _ _ _ _ _ Hg f).
  - etrans; [apply Hg|apply Hgr].
  - eapply counted_mem; [apply Hg|apply Hgr].
Qed.

(** A page leaves the free list and is zeroed. *)
Lemma growing_taken n s T p l G s' :
  growing n s T (p :: l) G [] -> free_pages s' l ->
  (forall a, ~ in_page p a -> rd (k_mem s') a = rd (k_mem s) a) ->
  (forall a, in_page p a -> rd (k_mem s') a = 0) ->
  hart_same s s' -> counted i (S n) s0 s' -> growing (S n) s' T l G [p].
Proof.
  intros Hg Hf Ha Hz Hh Hco. pose proof (gw_space _ _ _ _ _ _ Hg) as Hsp. pose proof (sp_vm _ _ _ _ _ Hsp) as Hv.
  destruct (vm_free _ _ _ _ Hv) as (_ & [Hpl Hnd]%NoDup_cons & [Hpok Hok]%Forall_cons).
  assert (Hpt : ~ tab T p) by (intros [π Hπ]; by apply (vm_tabs _ _ _ _ Hv _ _ Hπ); left).
  destruct (gw_frames _ _ _ _ _ _ Hg) as [HFn HFok]. rewrite app_nil_r in HFn, HFok.
  assert (HpF : p ∉ F0 ++ G) by (intros HF; destruct (HFok p HF) as (_ & Hn & _); by apply Hn; left).
  assert (HF : frames T l (F0 ++ G ++ [p])).
  { rewrite app_assoc. split.
    - apply NoDup_app. split; [done|]. split; [|apply NoDup_singleton].
      intros f Hf' ->%list_elem_of_singleton. done.
    - intros f [Hf'| ->%list_elem_of_singleton]%elem_of_app; [|done].
      destruct (HFok f Hf') as (? & Hn & ?). split; [done|]. split; [|done]. intros ?. apply Hn. by right. }
  split; auto.
  - apply (space_page s s' root T (p :: l) l (F0 ++ G) p); auto.
    + intros t [π Hπ] ?. apply (vm_tabs _ _ _ _ Hv _ _ Hπ). by right.
    + rewrite app_assoc in HF. by eapply frames_app_l.
  - intros q. rewrite (gw_pages _ _ _ _ _ _ Hg), app_nil_r, elem_of_cons, elem_of_app, list_elem_of_singleton. tauto.
  - apply (growing_frame n s T (p :: l) G []); [done|]. intros a _ Hl. apply Ha, Hl. left.
  - intros f a [Hf'| ->%list_elem_of_singleton]%elem_of_app Hin; [|by apply Hz].
    rewrite Ha; [apply (gw_zero _ _ _ _ _ _ Hg f); [by rewrite app_nil_r|done]|].
    apply (in_page_disj f p a); auto; [apply HFok, elem_of_app; by right|]. intros ->.
    apply HpF, elem_of_app. by right.
  - etrans; [apply Hg|done].
Qed.

(** The page in flight is given back. *)
Lemma growing_freed n s T p l G s' :
  growing n s T l G [p] -> free_pages s' (p :: l) ->
  (forall a, ~ in_page p a -> rd (k_mem s') a = rd (k_mem s) a) ->
  hart_same s s' -> only_mem s s' -> growing n s' T (p :: l) G [].
Proof.
  intros Hg Hf Ha Hh Ho. pose proof (gw_space _ _ _ _ _ _ Hg) as Hsp. pose proof (sp_vm _ _ _ _ _ Hsp) as Hv.
  destruct (gw_frames _ _ _ _ _ _ Hg) as [HFn HFok]. rewrite app_assoc in HFn, HFok.
  apply NoDup_app in HFn as (HFn & HpF & _).
  destruct (HFok p) as (Hpok & Hpl & Hpt); [apply elem_of_app; right; left|].
  assert (Hne : forall f, f ∈ F0 ++ G -> f <> p) by (intros f Hf' ->; apply (HpF p Hf'); left).
  assert (HF : frames T (p :: l) (F0 ++ G)).
  { split; [done|]. intros f Hf'. destruct (HFok f) as (? & Hn & ?); [apply elem_of_app; by left|].
    split; [done|]. split; [|done]. intros [->|?]%elem_of_cons; [by apply (Hne p)|done]. }
  split; rewrite ?app_nil_r; auto.
  - apply (space_page s s' root T l (p :: l) (F0 ++ G) p); auto.
    intros t [π Hπ] [->|?]%elem_of_cons; [by destruct Hpt; exists π|]. by apply (vm_tabs _ _ _ _ Hv _ _ Hπ).
  - intros q. rewrite (gw_pages _ _ _ _ _ _ Hg), elem_of_cons, elem_of_app, list_elem_of_singleton. tauto.
  - apply (growing_frame n s T l G [p]); [done|]. intros a _ Hl. apply Ha, Hl.
    apply elem_of_app. right. apply elem_of_app. right. left.
  - intros f a Hf' Hin. assert (HfF : f ∈ F0 ++ G) by (apply elem_of_app; by right).
    rewrite Ha; [apply (gw_zero _ _ _ _ _ _ Hg f); [apply elem_of_app; by left|done]|].
    apply (in_page_disj f p a); auto. apply HFok, elem_of_app. by left.
  - etrans; [apply Hg|done].
  - eapply counted_mem; [apply Hg|done].
Qed.

Lemma growing_same n s T l G s' : growing n s T l G [] -> k_mem s' = k_mem s -> free_pages s' l ->
  hart_same s s' -> only_mem s s' -> growing n s' T l G [].
Proof.
  intros Hg Hm Hf Hh Ho. pose proof (gw_space _ _ _ _ _ _ Hg) as Hsp. pose proof (sp_vm _ _ _ _ _ Hsp) as [_ Hp Ht].
  split; rewrite ?Hm; try apply Hg; [|by etrans; [apply Hg|]|by eapply counted_mem; [apply Hg|]].
  apply (space_grown s root T l (F0 ++ G)); rewrite ?Hm; try apply Hsp; auto. by split; rewrite ?Hm.
Qed.

(** Undoing: the frames are free again. *)
Lemma growing_undo n s T l G s' : growing n s T l G [] ->
  unmapped root s T l (Z.of_nat (length F0) * PGSIZE) G s' -> growing n s' T (rev G ++ l) [] [].
Proof.
  intros Hg Hu. assert (Hsp : space s' root T (rev G ++ l) F0) by (eapply space_shrink; [apply Hg|done]).
  split; rewrite ?app_nil_r; auto.
  - apply Hsp.
  - intros p. assert (p ∈ rev G <-> p ∈ G) by (rewrite !list_elem_of_In; symmetry; apply in_rev).
    rewrite (gw_pages _ _ _ _ _ _ Hg), app_nil_r, elem_of_app, elem_of_nil. tauto.
  - apply (growing_frame n s T l G []); [done|]. intros a HT Hp. apply Hu; [done|].
    intros f Hf. apply Hp. rewrite app_nil_r. apply elem_of_app. by right.
  - intros f a Hf. by apply not_elem_of_nil in Hf.
  - etrans; [apply Hg|apply Hu].
  - eapply counted_mem; [apply Hg|apply Hu].
Qed.

Lemma wp_alloc_undo n s T l G :
  growing n s T l G [] ->
  wp (uvmdealloc root (Z.of_nat (length (F0 ++ G)) * PGSIZE) (Z.of_nat (length F0) * PGSIZE) ;! ret 0) s
    (fun r s' => r = 0 /\ exists l', growing n s' T l' [] []).
Proof.
  intros Hg. pose proof (gw_hart _ _ _ _ _ _ Hg) as Hh. wp_step.
  eapply wp_mono; [apply (wp_uvmdealloc s root T l F0 G); auto using size_of_full|].
  - by eapply hart_same_wf.
  - by rewrite (proj1 Hh).
  - apply Hg.
  - rewrite length_app. unfold PGSIZE. lia.
  - intros r s' [-> Hu]. wp_step. split; [done|]. eexists. by eapply growing_undo.
Qed.

Definition alloc_post (newsz r : Z) (s' : kstate) : Prop :=
  (r = newsz /\ exists T' l' G, growing (length G) s' T' l' G [] /\ size_of (length (F0 ++ G)) newsz) \/
  (r = 0 /\ exists n T' l', growing n s' T' l' [] []).

(** The zeroed page after kalloc and the count. *)
Lemma growing_zeroed n s T p l G s1 s2 :
  growing n s T (p :: l) G [] -> page_filled (k_mem s) p 5 (k_mem s1) -> free_pages s1 l ->
  hart_same s s1 -> only_mem s s1 -> hart_same s1 s2 ->
  nohart s2 = nohart (s1 <| k_procs := alter bump i (k_procs s1) |>) ->
  growing (S n) (upd k_mem (fun m => memset m p 0 PGSIZE) s2) T l G [p].
Proof.
  intros Hg Hm Hf Hh Ho Hh2 E. apply nohart_only_mem in E as E'. destruct E' as (_ & Em & Ef). ksimp.
  pose proof (sp_vm _ _ _ _ _ (gw_space _ _ _ _ _ _ Hg)) as Hv.
  destruct (vm_free _ _ _ _ Hv) as (_ & [Hpl Hnd]%NoDup_cons & [Hpok Hok]%Forall_cons).
  assert (HP : 0 <= PGSIZE) by done.
  apply (growing_taken n s); auto; ksimp.
  - destruct Hf as (Hl & _). split; [|done]. ksimp. rewrite Em, Ef. apply linked_memset; auto. apply Hpok.
  - intros a Ha. rewrite memset_spec, Em, Hm by done. unfold in_page in Ha.
    destruct (Z.leb_spec p a), (Z.ltb_spec a (p + PGSIZE)); cbn [andb]; (done || lia).
  - intros a Ha. rewrite memset_spec by done. unfold in_page in Ha.
    by rewrite (proj2 (Z.leb_le _ _)), (proj2 (Z.ltb_lt _ _)) by lia.
  - by etrans.
  - eapply counted_mem; [|apply only_mem_upd]. eapply counted_S; [|exact E]. eapply counted_mem; [apply Hg|done].
Qed.

Lemma growing_hart n s T l G H : growing n s T l G H ->
  hart_wf s /\ Lkmem ∉ k_held s /\ Lproc i ∉ k_held s /\ c_proc (k_cpu s) = Some i /\ exists y, k_procs s !! i = Some y.
Proof.
  intros Hg. pose proof (gw_hart _ _ _ _ _ _ Hg) as Hh. pose proof Hh as (Hh1 & Hh2 & _).
  split; [by eapply hart_same_wf|]. rewrite Hh1, Hh2. repeat (split; [done|]).
  exists (Nat.iter n bump x). rewrite (counted_procs _ _ _ _ (gw_count _ _ _ _ _ _ Hg)).
  by rewrite list_lookup_alter_eq, Hx.
Qed.

(** mappages of the page in flight, then the error path or the next round. *)
Lemma wp_alloc_map n s T l G p perm newsz (k : K Z) (a := Z.of_nat (length (F0 ++ G)) * PGSIZE) :
  growing n s T l G [p] -> a < TRAPFRAME -> 0 <= perm < 1024 -> Z.lor perm PTE_V <> PTE_V ->
  (forall s' T' l', growing n s' T' l' (G ++ [p]) [] -> wp k s' (alloc_post newsz)) ->
  wp (let! r := mappages root a PGSIZE p perm in
      if negb (r =? 0) then
        kfree p ;! uvmdealloc root a (Z.of_nat (length F0) * PGSIZE) ;! ret 0
      else k) s (alloc_post newsz).
Proof.
  intros Hg Ha Hperm HpV Hk. destruct (growing_hart _ _ _ _ _ _ Hg) as (Hw & Hl & _).
  wp_step. eapply wp_mono; [apply (wp_map_next s root T l (F0 ++ G) p perm); auto|].
  - apply Hg.
  - rewrite <- app_assoc. apply Hg.
  - intros r s1 (T1 & l1 & Hgr & [(-> & Hsp & _)|(-> & -> & Hsp & _)]); cbn [Z.eqb negb].
    + apply (Hk s1 T1 l1). eapply growing_grows; [done|done|by rewrite app_assoc|by rewrite app_nil_r].
    + assert (Hg1 : growing n s1 T1 [] G [p]) by by eapply growing_grows.
      destruct (growing_hart _ _ _ _ _ _ Hg1) as (Hw1 & Hl1 & _).
      destruct (fs_ok _ _ _ (gw_frames _ _ _ _ _ _ Hg1) p) as (Hpok & Hpl & _); [do 2 (apply elem_of_app; right); left|].
      wp_step. apply (wp_kfree s1 [] p); auto; [apply Hsp|].
      intros s2 Hh2 Ho2 Hf2 Ha2. eapply wp_mono; [apply (wp_alloc_undo n s2 T1 [p] G)|].
      * apply (growing_freed n s1); auto. intros b Hb. apply Ha2. unfold in_page in Hb. lia.
      * intros r s3 [-> [l3 Hg3]]. right. split; [done|]. by exists n, T1, l3.
Qed.

Lemma wp_uvmalloc_loop fuel s T l G newsz xperm (perm := Z.lor (Z.lor PTE_R PTE_U) xperm) :
  growing (length G) s T l G [] -> newsz <= TRAPFRAME -> 0 <= perm < 1024 -> Z.lor perm PTE_V <> PTE_V ->
  (Z.of_nat (length (F0 ++ G)) - 1) * PGSIZE < newsz ->
  newsz <= (Z.of_nat (length (F0 ++ G)) + Z.of_nat fuel) * PGSIZE ->
  wp (uvmalloc_loop fuel root (Z.of_nat (length (F0 ++ G)) * PGSIZE) (Z.of_nat (length F0) * PGSIZE) newsz xperm) s
    (alloc_post newsz).
Proof.
  intros Hg Hns Hperm HpV. revert s T l G Hg. induction fuel as [|fuel IH]; intros s T l G Hg Hlo Hfu;
    set (a := Z.of_nat (length (F0 ++ G)) * PGSIZE) in *; cbn [uvmalloc_loop]; destruct (Z.ltb_spec a newsz).
  1: lia.
  1,3: apply wp_ret; left; split; [done|]; exists T, l, G; split; [done|split; unfold a in *; lia].
  destruct (growing_hart _ _ _ _ _ _ Hg) as (Hw & Hl & Hpl & Hcp & _).
  wp_step. apply (wp_kalloc s l); auto; [apply Hg|]. intros r s1 Hh1 Ho1 Hpost.
  destruct l as [|p l]; cbn [kalloc_post] in Hpost.
  { destruct Hpost as (-> & Hm & Hf). cbn [Z.eqb]. eapply wp_mono; [apply (wp_alloc_undo (length G) s1 T [] G)|].
    - by eapply growing_same.
    - intros r s3 [-> [l3 Hg3]]. right. split; [done|]. by exists (length G), T, l3. }
  destruct Hpost as (-> & Hm & Hf).
  destruct (vm_free _ _ _ _ (sp_vm _ _ _ _ _ (gw_space _ _ _ _ _ _ Hg))) as (_ & _ & [[_ Hpr] _]%Forall_cons).
  rewrite (proj2 (Z.eqb_neq p 0)) by lia. pose proof Hh1 as (Hheld & Hcp1 & _).
  destruct (growing_hart _ _ _ _ _ _ Hg) as (_ & _ & _ & _ & y & Hy).
  apply (wp_count i s1 y); [by eapply hart_same_wf|by rewrite Hcp1|by rewrite Hheld|by rewrite Ho1|].
  intros s2 Hh2 E2. do 2 wp_step.
  pose proof (growing_zeroed _ _ _ _ _ _ _ _ Hg Hm Hf Hh1 Ho1 Hh2 E2) as Hg2.
  set (s3 := upd k_mem _ s2) in *. clearbody s3.
  apply (wp_alloc_map (S (length G)) s3 T l G p perm newsz); auto; [lia|].
  intros s4 T4 l4 Hg4. assert (HP : PGSIZE = 4096) by done. assert (HTF : TRAPFRAME = 2 ^ 38 - 8192) by done.
  assert (Hlen : length (F0 ++ G ++ [p]) = S (length (F0 ++ G))) by (rewrite !length_app; simpl; lia).
  rewrite u64_small by (unfold a in *; lia).
  replace (a + PGSIZE) with (Z.of_nat (length (F0 ++ G ++ [p])) * PGSIZE) by (unfold a; rewrite Hlen; lia).
  apply (IH s4 T4 l4 (G ++ [p])); [|rewrite Hlen; unfold a in *; lia..].
  rewrite length_app. simpl. by rewrite Nat.add_comm.
Qed.

Lemma wp_uvmalloc sz newsz xperm (perm := Z.lor (Z.lor PTE_R PTE_U) xperm) :
  0 <= sz <= newsz -> newsz <= TRAPFRAME -> size_of (length F0) sz -> 0 <= perm < 1024 -> Z.lor perm PTE_V <> PTE_V ->
  wp (uvmalloc root sz newsz xperm) s0 (alloc_post newsz).
Proof.
  intros Hsz Hns Hn Hperm HpV. assert (TRAPFRAME < MAXVA) by done. assert (HP : PGSIZE = 4096) by done.
  unfold uvmalloc. rewrite (proj2 (Z.ltb_ge _ _)) by lia. rewrite (size_round (length F0) sz) by (done || lia).
  rewrite Z.min_l by lia. pose proof (wp_uvmalloc_loop
    (Z.to_nat ((newsz - Z.of_nat (length F0) * PGSIZE) / PGSIZE + 2)) s0 T0 l0 [] newsz xperm) as Hw.
  rewrite app_nil_r in Hw. destruct Hn as [Hn1 Hn2]. apply Hw; auto using growing_start; [lia|].
  pose proof (Z.mul_succ_div_gt (newsz - Z.of_nat (length F0) * PGSIZE) PGSIZE ltac:(done)). rewrite HP in *. lia.
Qed.

End alloc.

(** ** growproc *)

(** The memory of process [i]: [sz] bytes in the frames [F]. *)
Record process (s : kstate) (i : nat) (T : gmap (list Z) Z) (l F : list Z) (sz : Z) (x : proc) : Prop := {
  pr_entry : k_procs s !! i = Some x;
  pr_sz : p_sz x = sz;
  pr_space : space s (p_pagetable x) T l F;
  pr_size : size_of (length F) sz;
  pr_nonneg : 0 <= sz;
}.

(** The process has [sz'] bytes now: those it keeps are as they were, new
    pages are zero, no page is lost, its page counter went up by [k]; other
    processes and the locks are as they were. *)
Record resized (s : kstate) (i : nat) (T : gmap (list Z) Z) (l F : list Z) (sz : Z) (x : proc) (k : nat)
    (s' : kstate) (T' : gmap (list Z) Z) (l' F' : list Z) (sz' : Z) : Prop := {
  rz_proc : process s' i T' l' F' sz' (upd p_sz (fun _ => sz') (Nat.iter k bump x));
  rz_other j : j <> i -> k_procs s' !! j = k_procs s !! j;
  rz_keep a : 0 <= a < Z.min sz sz' -> vbyte (k_mem s') T' a = vbyte (k_mem s) T a;
  rz_zero a : PGROUNDUP sz <= a < sz' -> vbyte (k_mem s') T' a = 0;
  rz_pages p : p ∈ l \/ p ∈ F \/ tab T p <-> p ∈ l' \/ p ∈ F' \/ tab T' p;
  rz_hart : hart_same s s';
}.

Lemma bump_iter k x : p_sz (Nat.iter k bump x) = p_sz x /\ p_pagetable (Nat.iter k bump x) = p_pagetable x.
Proof. by induction k as [|k [IH1 IH2]]. Qed.

(** A virtual address of a space, by its frame. *)
Lemma space_vbyte s root T l F a f : space s root T l F -> 0 <= a -> F !! Z.to_nat (a / PGSIZE) = Some f ->
  vbyte (k_mem s) T a = rd (k_mem s) (f + a mod PGSIZE) /\ in_page f (f + a mod PGSIZE).
Proof.
  intros Hsp Ha Hf. pose proof (sp_maps _ _ _ _ _ Hsp _ _ Hf) as (_ & _ & E).
  rewrite Z.add_0_l, page_base, pte_of_rounddown in E by done. unfold vbyte. rewrite E. split; [done|].
  pose proof (Z.mod_pos_bound a PGSIZE ltac:(done)). unfold in_page. lia.
Qed.
Lemma space_frame s root T l F a : space s root T l F -> 0 <= a < Z.of_nat (length F) * PGSIZE ->
  exists f, F !! Z.to_nat (a / PGSIZE) = Some f.
Proof. intros Hsp Ha. apply lookup_lt_is_Some_2. by apply page_index_lt. Qed.

(** Setting p->sz. *)
Lemma process_set s i T l F sz' y s' : space s (p_pagetable y) T l F -> size_of (length F) sz' -> 0 <= sz' ->
  k_mem s' = k_mem s -> k_freelist s' = k_freelist s -> k_procs s' !! i = Some (upd p_sz (fun _ => sz') y) ->
  process s' i T l F sz' (upd p_sz (fun _ => sz') y).
Proof. intros Hsp Hn H0 Em Ef Hx. split; auto. by eapply space_ext. Qed.

Lemma growing_resized s i T l F sz x k s' T' l' G s2 sz' :
  0 < sym_end -> process s i T l F sz x -> growing s i (p_pagetable x) T l F k s' T' l' G [] ->
  size_of (length (F ++ G)) sz' -> sz <= sz' -> sz' <= TRAPFRAME ->
  k_mem s2 = k_mem s' -> k_freelist s2 = k_freelist s' -> hart_same s' s2 ->
  k_procs s2 = <[i := upd p_sz (fun _ => sz') (Nat.iter k bump x)]> (k_procs s') ->
  resized s i T l F sz x k s2 T' l' (F ++ G) sz'.
Proof.
  intros Himg [Hx Esz Hsp Hn H0] Hg Hn' Hle Hmax Em Ef Hh Ep. destruct (bump_iter k x) as [_ Ept].
  pose proof (gw_space _ _ _ _ _ _ _ _ _ _ _ _ Hg) as Hsp'. pose proof (counted_procs _ _ _ _ (gw_count _ _ _ _ _ _ _ _ _ _ _ _ Hg)) as Ecp.
  assert (HTF : TRAPFRAME < MAXVA) by done. assert (Hlen : (length F <= length (F ++ G))%nat) by (rewrite length_app; lia).
  split.
  - apply (process_set s'); auto; [by rewrite Ept|lia|]. rewrite Ep, list_lookup_insert_eq; [done|].
    rewrite Ecp, length_alter. by eapply lookup_lt_Some.
  - intros j Hj. rewrite Ep, list_lookup_insert_ne, Ecp by done. by rewrite list_lookup_alter_ne.
  - intros a Ha. destruct Hn. rewrite Em.
    destruct (space_frame _ _ _ _ _ a Hsp) as [f Hf]; [lia|].
    destruct (space_vbyte _ _ _ _ _ _ _ Hsp (proj1 Ha) Hf) as [-> Hin].
    destruct (space_vbyte _ _ _ _ _ a f Hsp') as [-> _]; [lia|by apply lookup_app_l_Some|].
    destruct (fs_ok _ _ _ (sp_frames _ _ _ _ _ Hsp) f) as (Hok & Hl & Ht); [by eapply list_elem_of_lookup_2|].
    pose proof (sp_vm _ _ _ _ _ Hsp) as Hv. apply (gw_mem _ _ _ _ _ _ _ _ _ _ _ _ Hg).
    + intros π t Hπ. apply (in_page_disj f t); auto; [by eapply pt_page; [apply Hv|]|]. intros ->. by destruct Ht; exists π.
    + intros q Hq. apply (in_page_disj f q); auto; [|by intros ->].
      destruct (vm_free _ _ _ _ Hv) as (_ & _ & Hfr). by apply (proj1 (Forall_forall _ _) Hfr).
  - intros a. rewrite (size_round (length F) sz) by (done || lia). intros Ha. destruct Hn'. rewrite Em.
    assert (Ha0 : 0 <= a) by (unfold PGSIZE in *; lia).
    destruct (space_frame _ _ _ _ _ a Hsp') as [f Hf]; [lia|].
    destruct (space_vbyte _ _ _ _ _ _ _ Hsp' Ha0 Hf) as [-> Hin].
    apply (gw_zero _ _ _ _ _ _ _ _ _ _ _ _ Hg f); [|done]. rewrite app_nil_r.
    rewrite lookup_app_r in Hf by (apply page_index_ge; lia). by eapply list_elem_of_lookup_2.
  - intros p. pose proof (gw_pages _ _ _ _ _ _ _ _ _ _ _ _ Hg p) as Hp. rewrite app_nil_r in Hp.
    rewrite elem_of_app. tauto.
  - etrans; [apply Hg|done].
Qed.

Lemma unmapped_resized s i T l F G sz x s' s2 sz' :
  0 < sym_end -> process s i T l (F ++ G) sz x ->
  unmapped (p_pagetable x) s T l (Z.of_nat (length F) * PGSIZE) G s' ->
  size_of (length F) sz' -> 0 <= sz' <= sz ->
  k_mem s2 = k_mem s' -> k_freelist s2 = k_freelist s' -> hart_same s' s2 ->
  k_procs s2 = <[i := upd p_sz (fun _ => sz') x]> (k_procs s') ->
  resized s i T l (F ++ G) sz x 0 s2 T (rev G ++ l) F sz'.
Proof.
  intros Himg [Hx Esz Hsp Hn H0] Hu Hn' Hle Em Ef Hh Ep.
  pose proof (space_shrink _ _ _ _ _ _ _ Hsp Hu) as Hsp'. pose proof (f_equal k_procs (um_only _ _ _ _ _ _ _ Hu)) as Ecp.
  change (k_procs s' = k_procs s) in Ecp.
  pose proof (sp_room _ _ _ _ _ Hsp). assert (TRAPFRAME < MAXVA) by done. split.
  - apply (process_set s'); auto; [lia|]. rewrite Ep, list_lookup_insert_eq; [done|].
    rewrite Ecp. by eapply lookup_lt_Some.
  - intros j Hj. by rewrite Ep, list_lookup_insert_ne, Ecp.
  - intros a Ha. rewrite Z.min_r in Ha by lia. destruct Hn'. rewrite Em.
    destruct (space_frame _ _ _ _ _ a Hsp') as [f Hf]; [lia|].
    destruct (space_vbyte _ _ _ _ _ _ _ Hsp' (proj1 Ha) Hf) as [-> Hin].
    destruct (space_vbyte _ _ _ _ _ a f Hsp) as [-> _]; [lia|by apply lookup_app_l_Some|].
    apply list_elem_of_lookup_2 in Hf.
    destruct (fs_ok _ _ _ (sp_frames _ _ _ _ _ Hsp) f) as (Hok & Hl & Ht); [apply elem_of_app; by left|].
    pose proof (sp_vm _ _ _ _ _ Hsp) as Hv. apply (um_mem _ _ _ _ _ _ _ Hu).
    + intros t [π Hπ]. apply (in_page_disj f t); auto; [by eapply pt_page; [apply Hv|]|]. intros ->. by destruct Ht; exists π.
    + intros q Hq. destruct (sp_frames _ _ _ _ _ Hsp) as [Hnd Hqok].
      apply (in_page_disj f q); auto; [apply Hqok, elem_of_app; by right|]. intros ->.
      apply NoDup_app in Hnd as (_ & Hd & _). by apply (Hd q).
  - intros a. destruct Hn. rewrite (size_round (length (F ++ G)) sz) by (done || lia). lia.
  - intros p. assert (p ∈ rev G <-> p ∈ G) by (rewrite !list_elem_of_In; symmetry; apply in_rev).
    rewrite !elem_of_app. tauto.
  - etrans; [apply Hu|done].
Qed.

(** Nothing but the locks of the hart moved. *)
Lemma resized_same s i T l F sz x s2 :
  process s i T l F sz x -> hart_same s s2 -> k_mem s2 = k_mem s -> k_freelist s2 = k_freelist s ->
  k_procs s2 = <[i := upd p_sz (fun _ => sz) x]> (k_procs s) -> resized s i T l F sz x 0 s2 T l F sz.
Proof.
  intros [Hx Esz Hsp Hn H0] Hh Em Ef Ep. pose proof (sp_room _ _ _ _ _ Hsp). assert (TRAPFRAME < MAXVA) by done. split; auto.
  - apply (process_set s); auto. rewrite Ep, list_lookup_insert_eq; [done|by eapply lookup_lt_Some].
  - intros j Hj. by rewrite Ep, list_lookup_insert_ne.
  - intros a Ha. by rewrite Em.
  - intros a. destruct Hn. rewrite (size_round (length F) sz) by (done || lia). lia.
Qed.

Lemma set_sz_same (x : proc) : upd p_sz (fun _ => p_sz x) x = x.
Proof. by destruct x. Qed.

Lemma process_split s i T l F sz x newsz : 0 < sym_end -> process s i T l F sz x -> 0 <= newsz <= sz ->
  exists F1 G, F = F1 ++ G /\ size_of (length F1) newsz.
Proof.
  intros Himg [Hx Esz Hsp Hn H0] Hle. pose proof (sp_room _ _ _ _ _ Hsp).
  assert (HTF : TRAPFRAME = 2 ^ 38 - 8192) by done. destruct Hn as [Hn1 Hn2]. assert (HP : PGSIZE = 4096) by done.
  pose proof (PGROUNDUP_spec newsz ltac:(lia)) as [Hal Hr]. apply Z.mod_divide in Hal as [q Hq]; [|done].
  rewrite Hq, HP in *. exists (take (Z.to_nat q) F), (drop (Z.to_nat q) F).
  rewrite take_drop. split; [done|]. unfold size_of. rewrite length_take, HP. lia.
Qed.

Lemma resized_from s s1 i T l F sz x k s' T' l' F' sz' : hart_eq s s1 ->
  resized s1 i T l F sz x k s' T' l' F' sz' -> resized s i T l F sz x k s' T' l' F' sz'.
Proof.
  intros [Hh E] [R1 R2 R3 R4 R5 R6].
  pose proof (f_equal k_procs E : k_procs s1 = k_procs s) as Ep. pose proof (f_equal k_mem E : k_mem s1 = k_mem s) as Em.
  rewrite Ep in R2. rewrite Em in R3. split; auto. by etrans.
Qed.
Lemma process_from s s1 i T l F sz x : hart_eq s s1 -> process s i T l F sz x -> process s1 i T l F sz x.
Proof.
  intros [Hh E] [Hx Esz Hsp Hn H0]. pose proof (nohart_only_mem _ _ E) as (_ & Em & Ef).
  split; auto; [by rewrite (f_equal k_procs E : k_procs s1 = k_procs s)|by eapply space_ext].
Qed.

(** The result of growproc(n). *)
Definition grow_post (n : Z) (s : kstate) (i : nat) (T : gmap (list Z) Z) (l F : list Z) (sz : Z) (x : proc)
    (r : Z) (s' : kstate) : Prop :=
  exists k T' l' F' sz', resized s i T l F sz x k s' T' l' F' sz' /\
    (0 <= n -> (r = 0 /\ sz' = sz + n /\ length F' = (length F + k)%nat) \/ (r = -1 /\ 0 < n /\ sz' = sz)) /\
    (n < 0 -> r = 0 /\ k = 0%nat /\ sz' = if 0 <=? sz + n then sz + n else sz).

(** The three cases after the size was read. *)
Lemma wp_grow_up n s i T l F sz x :
  0 < sym_end -> hart_wf s -> Lkmem ∉ k_held s -> Lproc i ∉ k_held s -> c_proc (k_cpu s) = Some i ->
  process s i T l F sz x -> 0 < n < 2 ^ 31 ->
  wp (let! sz' := uvmalloc (p_pagetable x) sz (u64 (sz + n)) PTE_W in
      if sz' =? 0 then ret (-1) else
      setp i (upd p_sz (fun _ => sz')) ;! ret 0) s (grow_post n s i T l F sz x).
Proof.
  intros Himg Hw Hlk Hpl Hc Hpr Hn. pose proof Hpr as [Hx Esz Hsp Hs H0].
  pose proof (frames_bound _ _ _ Himg (sp_frames _ _ _ _ _ Hsp)) as Hb. destruct Hs as [Hs1 Hs2].
  assert (HPH : PHYSTOP = 2281701376) by done. assert (HTF : TRAPFRAME = 2 ^ 38 - 8192) by done.
  rewrite u64_small by lia. wp_step.
  eapply wp_mono; [apply (wp_uvmalloc s i x (p_pagetable x) T l F Himg Hw Hlk Hpl Hc Hx Hsp sz (sz + n)); (done || lia)|].
  intros r s1 [(-> & T1 & l1 & G & Hg & Hn1)|(-> & k & T1 & l1 & Hg)].
  - rewrite (proj2 (Z.eqb_neq _ _)) by lia.
    pose proof (counted_procs _ _ _ _ (gw_count _ _ _ _ _ _ _ _ _ _ _ _ Hg)) as Ecp. wp_step.
    apply (wp_setp _ i _ (Nat.iter (length G) bump x)); [by rewrite Ecp, list_lookup_alter_eq, Hx|]. wp_step.
    exists (length G), T1, l1, (F ++ G), (sz + n). split; [|rewrite length_app; split; [auto|lia]].
    by eapply growing_resized; [done|done|done|done|lia|lia|..].
  - cbn [Z.eqb]. wp_step. exists k, T1, l1, F, sz. split; [|split; [right; split; [done|lia]|lia]].
    pose proof (counted_procs _ _ _ _ (gw_count _ _ _ _ _ _ _ _ _ _ _ _ Hg)) as Ecp. destruct (bump_iter k x) as [Ebs _].
    rewrite <- (app_nil_r F) at 2. eapply growing_resized; [done|done|done|by rewrite app_nil_r|lia|lia|done|done|done|].
    assert (upd p_sz (fun _ => sz) (Nat.iter k bump x) = Nat.iter k bump x) as ->.
    { rewrite Esz in Ebs. rewrite <- Ebs. apply set_sz_same. }
    symmetry. apply list_insert_id.
    by rewrite Ecp, list_lookup_alter_eq, Hx.
Qed.

Lemma wp_grow_down n s i T l F sz x :
  0 < sym_end -> hart_wf s -> Lkmem ∉ k_held s -> process s i T l F sz x -> - 2 ^ 31 <= n < 0 ->
  wp (let! sz' := uvmdealloc (p_pagetable x) sz (u64 (sz + n)) in
      setp i (upd p_sz (fun _ => sz')) ;! ret 0) s (grow_post n s i T l F sz x).
Proof.
  intros Himg Hw Hlk Hpr Hn. pose proof Hpr as [Hx Esz Hsp Hs H0].
  pose proof (sp_room _ _ _ _ _ Hsp). assert (HTF : TRAPFRAME = 2 ^ 38 - 8192) by done. destruct Hs as [Hs1 Hs2].
  destruct (Z.leb_spec 0 (sz + n)) as [Hpos|Hneg].
  - rewrite u64_small by lia. destruct (process_split _ _ _ _ _ _ _ (sz + n) Himg Hpr ltac:(lia)) as (F1 & G & -> & Hn1).
    wp_step. eapply wp_mono; [apply (wp_uvmdealloc s (p_pagetable x) T l F1 G sz (sz + n)); auto; [done|lia]|].
    intros r s1 [-> Hu]. wp_step.
    pose proof (f_equal k_procs (um_only _ _ _ _ _ _ _ Hu) : k_procs s1 = k_procs s) as Ecp.
    apply (wp_setp _ i _ x); [by rewrite Ecp|]. wp_step.
    exists 0%nat, T, (rev G ++ l), F1, (sz + n). split; [|split; [lia|by rewrite (proj2 (Z.leb_le _ _))]].
    by eapply unmapped_resized; [done|done|done|done|lia|..].
  - assert (Hu : u64 (sz + n) = sz + n + 2 ^ 64).
    { rewrite u64_eq. symmetry. apply Z.mod_unique with (-1); lia. }
    rewrite Hu. unfold uvmdealloc. rewrite (proj2 (Z.leb_le _ _)) by lia. wp_step. wp_step.
    wp_step. apply (wp_setp _ i _ x); [done|]. wp_step.
    exists 0%nat, T, l, F, sz. split; [by apply resized_same|]. split; [lia|]. by rewrite (proj2 (Z.leb_gt _ _)) by lia.
Qed.

(** ** Properties *)


End grow.

(** ** Example: a new process grows by 5000 bytes *)

Section sample.
Local Existing Instance sample_image.

Definition eight : list Z := (fun k => 0x87ff7000 - Z.of_nat k * PGSIZE) <$> seq 0 8.
Definition ex_mem : gmap Z Z := foldr (fun p m => store64 m p (p - PGSIZE)) ∅ (take 7 eight).
Definition ex_new : kstate :=
  bss <| k_mem := ex_mem |> <| k_freelist := 0x87ff7000 |> <| k_procs ::= alter (upd p_trapframe (fun _ => 0x87ffa000)) 0%nat |>.
(** The state after proc_pagetable, with process 0 running on the table. *)
Definition ex_tab : kstate := match proc_pagetable 0 ex_new with Done _ s => s | _ => bss end.
Definition ex_grow : kstate :=
  ex_tab <| k_procs ::= alter (upd p_pagetable (fun _ => 0x87ff7000)) 0%nat |> <| k_cpu := mkCpu (Some 0%nat) 0 true false 0 |>.

Lemma ex_grow_process : exists T l, process ex_grow 0 T l [] 0 (default zero_proc (k_procs ex_grow !! 0%nat)).
Proof.
  destruct (proj1 (wp_done _ _ _) (wp_proc_pagetable ex_new eight 0 (default zero_proc (k_procs ex_new !! 0%nat))
    ltac:(done) ltac:(split; done) ltac:(apply not_elem_of_nil)
    ltac:(split; [vm_compute; auto 12|split; [by apply (bool_decide_unpack _); vm_compute|repeat constructor; vm_compute; congruence]])
    ltac:(vm_compute; reflexivity) ltac:(repeat split; vm_compute; congruence)
    ltac:(repeat split; vm_compute; congruence))) as (r & s & E & Hpost).
  assert (Es : ex_tab = s) by (unfold ex_tab; by rewrite E).
  assert (Er : r = 0x87ff7000).
  { assert (match proc_pagetable 0 ex_new with Done r _ => r | _ => 1 end = 0x87ff7000) as H0 by (vm_compute; reflexivity).
    by rewrite E in H0. }
  destruct Hpost as [[-> _]|(_ & T & l & Hsp & _)]; [done|]. exists T, l. subst r s. split.
  - vm_compute; reflexivity.
  - vm_compute; reflexivity.
  - replace (p_pagetable (default zero_proc (k_procs ex_grow !! 0%nat))) with 0x87ff7000 by (vm_compute; reflexivity).
    clear E. unfold ex_grow. generalize dependent ex_tab. intros t Hsp. by eapply space_ext; [| |exact Hsp].
  - by apply size_of_0.
  - lia.
Qed.


End sample.
End GrowSpec.
