(* ===== verification/Namespace.v ===== *)
(** * The namespace tree and the pids in it

    [anc nss n m]: namespace [m] is [n] or an ancestor of [n].  The
    invariant [ns_inv]: every process with a namespace hangs in a well-formed
    chain of at most MAXDEPTH namespaces, and in every namespace the
    processes at or below it have distinct pids.  Every operation of proc.c
    keeps it. *)

From S2P Require Import Prelude State Spinlock CString Mem Kalloc Vm Sched FileLayer Proc.

Module Namespace.

(** ** The tree *)

Inductive anc (nss : list namespace) : nat -> nat -> Prop :=
| anc_refl n : anc nss n n
| anc_up n x k m : nss !! n = Some x -> ns_parent x = Some k -> anc nss k m -> anc nss n m.

(** [chain nss d n]: [n] has depth [d] and its ancestors have depths
    [d-1, ..., 0], ending in a root without parent. *)
Fixpoint chain (nss : list namespace) (d : nat) (n : nat) : Prop :=
  exists x, nss !! n = Some x /\ ns_depth x = Z.of_nat d /\
  match d with
  | O => ns_parent x = None
  | S d => exists k, ns_parent x = Some k /\ chain nss d k
  end.

Lemma chain_lookup nss d n : chain nss d n -> exists x, nss !! n = Some x /\ ns_depth x = Z.of_nat d.
Proof. destruct d; simpl; intros (x & ? & ? & _); eauto. Qed.

Lemma chain_anc nss d n m : chain nss d n -> anc nss n m -> exists d', (d' <= d)%nat /\ chain nss d' m.
Proof.
  intros Hc Ha. revert d Hc. induction Ha as [n|n x k m Hx Hk Ha IH]; intros d Hc; [eauto|].
  destruct d as [|d]; destruct Hc as (y & Hy & _ & Hp); simplify_eq.
  destruct Hp as (k' & ? & Hc). simplify_eq. destruct (IH d Hc) as (d' & ? & ?). exists d'. split; [lia|done].
Qed.

Lemma chain_depth nss d n x : chain nss d n -> nss !! n = Some x -> ns_depth x = Z.of_nat d.
Proof. intros (y & ? & ?)%chain_lookup ?. by simplify_eq. Qed.

(** On a chain, an ancestor is determined by its depth. *)
Lemma anc_depth nss d n m m' x x' :
  chain nss d n -> anc nss n m -> anc nss n m' -> nss !! m = Some x -> nss !! m' = Some x' ->
  ns_depth x = ns_depth x' -> m = m'.
Proof.
  revert n. induction d as [|d IH]; intros n Hc Ha Ha' Hx Hx' Hd.
  - destruct Hc as (y & Hy & _ & Hp). destruct Ha; [|by simplify_eq]. destruct Ha'; [done|by simplify_eq].
  - pose proof Hc as (y & Hy & Hyd & k & Hk & Hck).
    assert (Hup : forall m'' x'', anc nss k m'' -> nss !! m'' = Some x'' -> ns_depth x'' <= Z.of_nat d).
    { intros m'' x'' Hm Hx''. destruct (chain_anc _ _ _ _ Hck Hm) as (d' & ? & Hc').
      rewrite (chain_depth _ _ _ _ Hc' Hx''). lia. }
    destruct Ha as [|n y1 k1 m Hy1 Hk1 Ha]; destruct Ha' as [|n' y2 k2 m' Hy2 Hk2 Ha']; simplify_eq; [done|..].
    + pose proof (Hup _ _ Ha' Hx'). lia.
    + pose proof (Hup _ _ Ha Hx). lia.
    + eapply IH; eauto.
Qed.

(** compare_ns decides the ancestor relation. *)
Lemma compare_ns_loop_eq s fuel d n m :
  chain (k_nss s) d n -> (d < fuel)%nat ->
  exists b, compare_ns_loop fuel (Some n) (Some m) s = Done b s /\ (b = true <-> anc (k_nss s) n m).
Proof.
  revert fuel n. induction d as [|d IH]; intros fuel n Hc Hf; (destruct fuel as [|fuel]; [lia|]);
    pose proof Hc as (x & Hx & _ & Hp); cbn [compare_ns_loop].
  - case_bool_decide as E.
    { simplify_eq. exists true. split; [done|]. split; [constructor|done]. }
    rewrite (bind_done _ _ s _ _ (getns_done _ _ _ Hx)), Hp. exists false.
    split; [by destruct fuel|]. split; [done|]. intros Ha. destruct Ha; [done|simplify_eq].
  - destruct Hp as (k & Hk & Hck). case_bool_decide as E.
    { simplify_eq. exists true. split; [done|]. split; [constructor|done]. }
    rewrite (bind_done _ _ s _ _ (getns_done _ _ _ Hx)), Hk.
    destruct (IH fuel k Hck ltac:(lia)) as (b & Hb & Hiff). exists b. split; [done|]. rewrite Hiff.
    split; [intros; by eapply anc_up|]. intros Ha. destruct Ha; [done|by simplify_eq].
Qed.

Lemma compare_ns_eq s d n m :
  chain (k_nss s) d n -> (d < Z.to_nat MAXDEPTH)%nat ->
  exists b, compare_ns (Some n) (Some m) s = Done b s /\ (b = true <-> anc (k_nss s) n m).
Proof.
  intros Hc Hd. apply (compare_ns_loop_eq s _ d); [done|].
  change (Z.to_nat MAXDEPTH) with 8%nat in Hd. change (Z.to_nat NUMNS) with 64%nat. lia.
Qed.

(** ** Trees with the same shape *)

(** Parent and depth of every namespace are the same. *)
Definition same_shape (nss nss' : list namespace) : Prop :=
  (fun x => (ns_parent x, ns_depth x)) <$> nss' = (fun x => (ns_parent x, ns_depth x)) <$> nss.

Lemma same_shape_lookup nss nss' n x : same_shape nss nss' -> nss !! n = Some x ->
  exists x', nss' !! n = Some x' /\ ns_parent x' = ns_parent x /\ ns_depth x' = ns_depth x.
Proof.
  intros H Hx. apply (f_equal (fun l => l !! n)) in H. rewrite !list_lookup_fmap, Hx in H. simpl in H.
  destruct (nss' !! n) as [x'|]; simplify_eq/=. eauto.
Qed.
Lemma same_shape_sym nss nss' : same_shape nss nss' -> same_shape nss' nss.
Proof. unfold same_shape. congruence. Qed.
Lemma same_shape_anc nss nss' n m : same_shape nss nss' -> anc nss n m -> anc nss' n m.
Proof.
  intros H. induction 1 as [|n x k m Hx Hk Ha IH]; [constructor|].
  destruct (same_shape_lookup _ _ _ _ H Hx) as (x' & ? & ? & _). apply (anc_up _ n x' k m); [done|congruence|done].
Qed.
Lemma same_shape_chain nss nss' d n : same_shape nss nss' -> chain nss d n -> chain nss' d n.
Proof.
  intros H. revert n. induction d as [|d IH]; intros n (x & Hx & Hd & Hp);
    destruct (same_shape_lookup _ _ _ _ H Hx) as (x' & Hx' & Hp' & Hd'); exists x';
    (split; [done|]; split; [congruence|]).
  - congruence.
  - destruct Hp as (k & Hk & Hc). exists k. split; [congruence|auto].
Qed.
Lemma same_shape_insert nss n x x' : nss !! n = Some x -> ns_parent x' = ns_parent x ->
  ns_depth x' = ns_depth x -> same_shape nss (<[n := x']> nss).
Proof.
  intros Hx Hp Hd. unfold same_shape. rewrite list_fmap_insert. rewrite Hp, Hd.
  apply list_insert_id. by rewrite list_lookup_fmap, Hx.
Qed.

(** ** Assigning pids *)

(** [x'] is [x] after one pid was taken from it. *)
Definition taken (x : namespace) : namespace :=
  x <| ns_next_ns_pid := i32 (ns_next_ns_pid x + 1) |> <| ns_num_proc := i32 (ns_num_proc x + 1) |>.

Lemma setpid_inv s p i v a s' : setpid p i v s = Done a s' ->
  exists q, (i < Z.to_nat MAXDEPTH)%nat /\ k_procs s !! p = Some q /\
    s' = s <| k_procs := <[p := q <| p_pids := <[i := v]> (p_pids q) |>]> (k_procs s) |>.
Proof. unfold setpid. case_decide; [|done]. intros (q & ? & ->)%setp_inv. eauto. Qed.

(** What assign_pids leaves behind: in process [p] the pid for every ancestor
    of [n] is the ancestor's counter, each of these counters moved on by one,
    and nothing else of the two tables changed. *)
Record assigned (ps : list proc) (nss : list namespace) (p d n : nat)
    (ps' : list proc) (nss' : list namespace) : Prop := {
  as_proc : exists q pids', ps !! p = Some q /\ ps' = <[p := q <| p_pids := pids' |>]> ps /\
    length pids' = length (p_pids q) /\
    (forall m x, anc nss n m -> nss !! m = Some x -> pids' !! Z.to_nat (ns_depth x) = Some (ns_next_ns_pid x)) /\
    (forall j, (d < j)%nat -> pids' !! j = p_pids q !! j);
  as_anc m x : anc nss n m -> nss !! m = Some x -> nss' !! m = Some (taken x);
  as_other m : ~ anc nss n m -> nss' !! m = nss !! m;
  as_each m x : nss !! m = Some x -> nss' !! m = Some x \/ nss' !! m = Some (taken x);
  as_shape : same_shape nss nss';
}.

Lemma assign_step s p i n a s' :
  assign_pids p (S i) (Some n) s = Done a s' ->
  exists x q s1, k_nss s !! n = Some x /\ k_procs s !! p = Some q /\
    k_procs s1 = <[p := q <| p_pids := <[i := ns_next_ns_pid x]> (p_pids q) |>]> (k_procs s) /\
    k_nss s1 = <[n := taken x]> (k_nss s) /\ k_nextpid s1 = k_nextpid s /\
    k_nextnamespace s1 = k_nextnamespace s /\ k_initproc s1 = k_initproc s /\ k_initns s1 = k_initns s /\
    assign_pids p i (ns_parent x) s1 = Done a s'.
Proof.
  cbn [assign_pids]. intros H. mstep_inv H. simplify_eq. mstep_inv H. mstep_inv H.
  apply bind_done_inv in H. destruct H as (b & s2 & E2 & H).
  apply setpid_inv in E2. destruct E2 as (q & Hi & Hq & ->).
  mstep_inv H. mstep_inv H. mstep_inv H. mstep_inv H.
  assert (Hlt : (a0 < length (k_nss s))%nat) by (rewrite <- En; by eapply lookup_lt_Some).
  rewrite En in *. assert (x = a2) as -> by congruence.
  rewrite list_lookup_insert_eq in E1 by done. injection E1 as <-.
  rewrite list_insert_insert_eq in En0.
  rewrite En0, list_lookup_insert_eq in E2 by done. injection E2 as <-.
  exists a2, q, s1. rewrite Ep in *.
  split; [exact E|]. split; [exact Hq|]. split; [exact Ep0|]. split; [exact En0|].
  repeat (split; [congruence|]). exact H.
Qed.

(** Taking a pid from [n] leaves the ancestors of its parent alone. *)
Lemma assigned_step ps nss d p n x k q ps' nss' :
  chain nss (S d) n -> nss !! n = Some x -> ns_parent x = Some k -> ps !! p = Some q ->
  length (p_pids q) = Z.to_nat MAXDEPTH -> (S d < Z.to_nat MAXDEPTH)%nat ->
  assigned (<[p := q <| p_pids := <[S d := ns_next_ns_pid x]> (p_pids q) |>]> ps)
    (<[n := taken x]> nss) p d k ps' nss' ->
  assigned ps nss p (S d) n ps' nss'.
Proof.
  intros Hc Hx Hk Hq Hlen HSd [Hp Hanc Hoth Hea Hshp].
  assert (Hsh : same_shape nss (<[n := taken x]> nss)) by by eapply same_shape_insert.
  pose proof Hc as (x0 & ? & Hd & k0 & ? & Hck). simplify_eq.
  assert (Hnk : forall m, anc nss k m -> m <> n).
  { intros m Hm ->. destruct (chain_anc _ _ _ _ Hck Hm) as (d' & ? & Hc').
    pose proof (chain_depth _ _ _ _ Hc' Hx). lia. }
  assert (Hn : (n < length nss)%nat) by by eapply lookup_lt_Some.
  split.
  - destruct Hp as (q1 & pids' & Hq1 & -> & Hl & Hpid & Hhi).
    rewrite list_lookup_insert_eq in Hq1 by by eapply lookup_lt_Some. injection Hq1 as <-.
    exists q, pids'. split; [done|]. rewrite list_insert_insert_eq. split; [done|].
    ksimp. rewrite length_insert in *. split; [done|]. split.
    + intros m y Hm Hy. destruct Hm as [|n' y1 k1 m Hy1 Hk1 Hm]; simplify_eq.
      * rewrite Hd, Nat2Z.id, Hhi by lia. apply list_lookup_insert_eq. lia.
      * apply (Hpid m); [by eapply same_shape_anc|]. by rewrite list_lookup_insert_ne by (symmetry; auto).
    + intros j Hj. rewrite Hhi by lia. by rewrite list_lookup_insert_ne by lia.
  - intros m y Hm Hy. destruct Hm as [|n' y1 k1 m Hy1 Hk1 Hm]; simplify_eq.
    + rewrite Hoth; [by apply list_lookup_insert_eq|].
      intros Ha. apply (Hnk _ (same_shape_anc _ _ _ _ (same_shape_sym _ _ Hsh) Ha)). done.
    + apply Hanc; [by eapply same_shape_anc|]. by rewrite list_lookup_insert_ne by (symmetry; auto).
  - intros m Hm. assert (m <> n) by (intros ->; apply Hm; constructor).
    rewrite Hoth; [by rewrite list_lookup_insert_ne|].
    intros Ha. apply Hm. eapply anc_up; [done..|].
    by apply (same_shape_anc _ _ _ _ (same_shape_sym _ _ Hsh)).
  - intros m y Hy. destruct (decide (m = n)) as [->|Hm].
    + simplify_eq. right. rewrite Hoth; [by apply list_lookup_insert_eq|].
      intros Ha. by apply (Hnk _ (same_shape_anc _ _ _ _ (same_shape_sym _ _ Hsh) Ha)).
    + apply Hea. by rewrite list_lookup_insert_ne.
  - unfold same_shape in *. congruence.
Qed.

Lemma assign_pids_inv s p d n q s' a :
  chain (k_nss s) d n -> k_procs s !! p = Some q -> length (p_pids q) = Z.to_nat MAXDEPTH ->
  (d < Z.to_nat MAXDEPTH)%nat ->
  assign_pids p (S d) (Some n) s = Done a s' ->
  assigned (k_procs s) (k_nss s) p d n (k_procs s') (k_nss s') /\
  k_nextpid s' = k_nextpid s /\ k_nextnamespace s' = k_nextnamespace s /\
  k_initproc s' = k_initproc s /\ k_initns s' = k_initns s.
Proof.
  revert s n q. induction d as [|d IH]; intros s n q Hc Hq Hlen Hd H;
    apply assign_step in H as (x & q0 & s1 & Hx & Hq0 & Hp1 & Hn1 & Hc1 & Hd1 & Hi1 & Hj1 & H);
    assert (q0 = q) as -> by congruence.
  - apply ret_inv in H as [-> _]. split; [|done]. rewrite Hp1, Hn1.
    destruct Hc as (x0 & Hx' & Hx0 & Hpar). assert (x0 = x) as -> by congruence.
    assert (Hroot : forall m, anc (k_nss s) n m -> m = n) by (intros m Hm; inversion Hm; congruence).
    assert (Hn : (n < length (k_nss s))%nat) by by eapply lookup_lt_Some.
    split.
    + exists q, (<[0%nat := ns_next_ns_pid x]> (p_pids q)). rewrite length_insert.
      split; [done|]. split; [done|]. split; [done|]. split.
      * intros m y Hm Hy. apply Hroot in Hm as ->. simplify_eq. rewrite Hx0. apply list_lookup_insert_eq. lia.
      * intros j Hj. by rewrite list_lookup_insert_ne by lia.
    + intros m y Hm Hy. apply Hroot in Hm as ->. simplify_eq. by apply list_lookup_insert_eq.
    + intros m Hm. rewrite list_lookup_insert_ne; [done|]. intros ->. apply Hm. constructor.
    + intros m y Hy. destruct (decide (m = n)) as [->|Hm]; [right|left].
      * simplify_eq. by apply list_lookup_insert_eq.
      * by rewrite list_lookup_insert_ne.
    + by eapply same_shape_insert.
  - pose proof Hc as (x0 & Hx' & Hx0 & k & Hk & Hck). assert (x0 = x) as -> by congruence. rewrite Hk in H.
    assert (Hsh : same_shape (k_nss s) (<[n := taken x]> (k_nss s))) by by eapply same_shape_insert.
    edestruct (IH s1 k) as (Has & ? & ? & ? & ?); [| | | |exact H|].
    + rewrite Hn1. by eapply same_shape_chain.
    + rewrite Hp1. apply list_lookup_insert_eq. by eapply lookup_lt_Some.
    + ksimp. by rewrite length_insert.
    + lia.
    + rewrite Hp1, Hn1 in Has. split; [|repeat split; congruence].
      by eapply assigned_step.
Qed.

(** ** The invariant *)

Definition pid_at (p : proc) (x : namespace) : option Z := p_pids p !! Z.to_nat (ns_depth x).

Record ns_inv (ps : list proc) (nss : list namespace) : Prop := {
  inv_len i p : ps !! i = Some p -> length (p_pids p) = Z.to_nat MAXDEPTH;
  inv_next m x : nss !! m = Some x -> 1 <= ns_next_ns_pid x;
  inv_chain i p n : ps !! i = Some p -> p_ns p = Some n ->
    exists d, (d < Z.to_nat MAXDEPTH)%nat /\ chain nss d n;
  inv_used i p n m x : ps !! i = Some p -> p_ns p = Some n -> anc nss n m -> nss !! m = Some x ->
    ns_used x <> 0;
  inv_pid i p n m x : ps !! i = Some p -> p_ns p = Some n -> anc nss n m -> nss !! m = Some x ->
    exists v, pid_at p x = Some v /\ 1 <= v < ns_next_ns_pid x;
  inv_uniq i j p q n n' m x : i <> j -> ps !! i = Some p -> ps !! j = Some q ->
    p_ns p = Some n -> p_ns q = Some n' -> anc nss n m -> anc nss n' m -> nss !! m = Some x ->
    pid_at p x <> pid_at q x;
}.

(** The counters of the namespaces above [n] have not reached the largest
    [int]. *)
Definition room (nss : list namespace) : Prop :=
  forall m x, nss !! m = Some x -> ns_next_ns_pid x < 2 ^ 31 - 1.

Lemma room_insert nss n y : room nss -> ns_next_ns_pid y = 1 -> room (<[n := y]> nss).
Proof.
  intros Hr Hy m x Hx. destruct (decide (m = n)) as [->|].
  - apply list_lookup_insert_Some in Hx as [(_ & <- & _)|[? _]]; [lia|done].
  - rewrite list_lookup_insert_ne in Hx by done. eauto.
Qed.

Lemma taken_next x : 1 <= ns_next_ns_pid x < 2 ^ 31 - 1 -> ns_next_ns_pid (taken x) = ns_next_ns_pid x + 1.
Proof. intros. unfold taken. ksimp. apply i32_small. lia. Qed.

(** Every namespace after an assignment comes from one before it. *)
Lemma assigned_back ps nss i d n ps' nss' m x' :
  assigned ps nss i d n ps' nss' -> room nss -> (forall m x, nss !! m = Some x -> 1 <= ns_next_ns_pid x) ->
  nss' !! m = Some x' ->
  exists x, nss !! m = Some x /\ ns_depth x' = ns_depth x /\ ns_used x' = ns_used x /\
    ns_next_ns_pid x <= ns_next_ns_pid x' /\ (anc nss n m -> ns_next_ns_pid x' = ns_next_ns_pid x + 1).
Proof.
  intros [_ Hanc Hoth Hea Hsh] Hroom Hnext Hx'.
  destruct (same_shape_lookup _ _ _ _ (same_shape_sym _ _ Hsh) Hx') as (x & Hx & _ & _).
  exists x. split; [done|]. pose proof (taken_next x) as Ht. pose proof (Hroom _ _ Hx). pose proof (Hnext _ _ Hx).
  destruct (Hea m x Hx) as [E|E]; rewrite E in Hx'; injection Hx' as <-.
  - repeat split; try lia. intros Ha. rewrite (Hanc m x Ha Hx) in E. injection E as E.
    rewrite <- E at 1. apply Ht. lia.
  - rewrite Ht by lia. repeat split; lia.
Qed.

Lemma insert_cases (ps : list proc) i q j p : (i < length ps)%nat -> <[i := q]> ps !! j = Some p ->
  (j = i /\ p = q) \/ (j <> i /\ ps !! j = Some p).
Proof.
  intros Hi Hj. destruct (decide (j = i)) as [->|]; [left|right].
  - rewrite list_lookup_insert_eq in Hj by done. by simplify_eq.
  - by rewrite list_lookup_insert_ne in Hj by done.
Qed.

(** What the pids of old and new processes are bounded by. *)
Lemma assigned_old ps nss i q d n ps' nss' j p n' m x' :
  ns_inv ps nss -> room nss -> assigned (<[i := q]> ps) nss i d n ps' nss' ->
  ps !! j = Some p -> p_ns p = Some n' -> anc nss n' m -> nss' !! m = Some x' ->
  exists x v, nss !! m = Some x /\ pid_at p x' = Some v /\ 1 <= v < ns_next_ns_pid x /\
    ns_next_ns_pid x <= ns_next_ns_pid x'.
Proof.
  intros [_ In _ _ Ip _] Hroom Has Hp Hn' Ha Hx'.
  destruct (assigned_back _ _ _ _ _ _ _ _ _ Has Hroom In Hx') as (x & Hx & Hdx & _ & Hle & _).
  destruct (Ip j p n' m x Hp Hn' Ha Hx) as (v & Hv & Hr). exists x, v.
  unfold pid_at in *. rewrite Hdx. auto.
Qed.

Lemma assigned_new ps nss i q d n ps' nss' :
  (forall m x, nss !! m = Some x -> 1 <= ns_next_ns_pid x) -> room nss -> (i < length ps)%nat ->
  assigned (<[i := q]> ps) nss i d n ps' nss' ->
  exists q', ps' = <[i := q']> ps /\ p_ns q' = p_ns q /\ length (p_pids q') = length (p_pids q) /\
    forall m x', anc nss n m -> nss' !! m = Some x' ->
      exists x, nss !! m = Some x /\ pid_at q' x' = Some (ns_next_ns_pid x) /\
        ns_next_ns_pid x' = ns_next_ns_pid x + 1.
Proof.
  intros In Hroom Hi Has. destruct (as_proc _ _ _ _ _ _ _ Has) as (q0 & pids' & Hq0 & -> & Hl' & Hpid & _).
  rewrite list_lookup_insert_eq in Hq0 by done. injection Hq0 as <-. rewrite list_insert_insert_eq.
  eexists. split; [done|]. split; [done|]. split; [done|]. intros m x' Ha Hx'.
  destruct (assigned_back _ _ _ _ _ _ _ _ _ Has Hroom In Hx') as (x & Hx & Hdx & _ & _ & Hn).
  exists x. split; [done|]. split; [|auto]. unfold pid_at. ksimp. rewrite Hdx. by apply (Hpid m).
Qed.

(** Giving a process a fresh set of pids keeps the invariant. *)
Lemma ns_inv_assigned ps nss i q d n ps' nss' :
  ns_inv ps nss -> room nss -> chain nss d n -> (d < Z.to_nat MAXDEPTH)%nat ->
  (forall m x, anc nss n m -> nss !! m = Some x -> ns_used x <> 0) ->
  (i < length ps)%nat -> p_ns q = Some n -> length (p_pids q) = Z.to_nat MAXDEPTH ->
  assigned (<[i := q]> ps) nss i d n ps' nss' ->
  ns_inv ps' nss'.
Proof.
  intros Hinv Hroom Hc Hd Hused Hi Hqn Hql Has. pose proof Hinv as [Il In Ic Iu _ Iq].
  pose proof (as_shape _ _ _ _ _ _ _ Has) as Hsh. pose proof (same_shape_sym _ _ Hsh) as Hsh'.
  destruct (assigned_new _ _ _ _ _ _ _ _ In Hroom Hi Has) as (q' & Hps' & Hqn' & Hql' & Hnew).
  assert (Hback := fun m x' => assigned_back _ _ _ _ _ _ _ m x' Has Hroom In).
  assert (Hold := fun j p n' m x' => assigned_old _ _ _ _ _ _ _ _ j p n' m x' Hinv Hroom Has).
  assert (Hlk := fun j p => insert_cases ps i q' j p Hi). rewrite Hps'. rewrite Hqn in Hqn'. split.
  - intros j p [[-> ->]|[Hj Hp]]%Hlk; [congruence|by eapply Il].
  - intros m x' Hx'. destruct (Hback m x' Hx') as (x & Hx & _ & _ & ? & _). pose proof (In _ _ Hx). lia.
  - intros j p n' [[-> ->]|[Hj Hp]]%Hlk Hn'.
    + simplify_eq. exists d. split; [done|]. by eapply same_shape_chain.
    + destruct (Ic j p n' Hp Hn') as (d' & ? & ?). exists d'. split; [done|]. by eapply same_shape_chain.
  - intros j p n' m x' [[-> ->]|[Hj Hp]]%Hlk Hn' Ha Hx'; apply (same_shape_anc _ _ _ _ Hsh') in Ha;
      destruct (Hback m x' Hx') as (x & Hx & _ & -> & _).
    + simplify_eq. eauto.
    + eauto.
  - intros j p n' m x' [[-> ->]|[Hj Hp]]%Hlk Hn' Ha Hx'; apply (same_shape_anc _ _ _ _ Hsh') in Ha.
    + simplify_eq. destruct (Hnew m x' Ha Hx') as (x & Hx & Hv & Hn).
      exists (ns_next_ns_pid x). pose proof (In _ _ Hx). split; [done|lia].
    + destruct (Hold j p n' m x' Hp Hn' Ha Hx') as (x & v & _ & Hv & ? & ?). exists v. split; [done|lia].
  - intros j k p r n1 n2 m x' Hjk [[-> ->]|[Hj Hp]]%Hlk [[-> ->]|[Hk Hr]]%Hlk Hn1 Hn2 Ha1 Ha2 Hx'; [done|..];
      apply (same_shape_anc _ _ _ _ Hsh') in Ha1, Ha2.
    + simplify_eq. destruct (Hnew m x' Ha1 Hx') as (x & Hx & -> & _).
      destruct (Hold k r n2 m x' Hr Hn2 Ha2 Hx') as (y & v & Hy & -> & ? & _). simplify_eq. intros [=]. lia.
    + simplify_eq. destruct (Hnew m x' Ha2 Hx') as (x & Hx & -> & _).
      destruct (Hold j p n1 m x' Hp Hn1 Ha1 Hx') as (y & v & Hy & -> & ? & _). simplify_eq. intros [=]. lia.
    + destruct (Hback m x' Hx') as (x & Hx & Hdx & _). unfold pid_at. rewrite Hdx.
      by apply (Iq j k p r n1 n2 m x).
Qed.

(** Clearing a process, or changing fields the invariant does not mention. *)
Lemma ns_inv_clear ps nss i p' :
  ns_inv ps nss -> p_ns p' = None -> length (p_pids p') = Z.to_nat MAXDEPTH -> ns_inv (<[i := p']> ps) nss.
Proof.
  intros [Il In Ic Iu Ip Iq] Hn Hl.
  assert (Hlk : forall j p, <[i := p']> ps !! j = Some p -> p = p' \/ ps !! j = Some p).
  { intros j p Hj. destruct (decide (j = i)) as [->|].
    - apply list_lookup_insert_Some in Hj as [(_ & <- & _)|[? ?]]; auto.
    - rewrite list_lookup_insert_ne in Hj by done. auto. }
  split.
  - intros j p [->|Hp]%Hlk; eauto.
  - eauto.
  - intros j p n [->|Hp]%Hlk; [congruence|eauto].
  - intros j p n m x [->|Hp]%Hlk; [congruence|eauto].
  - intros j p n m x [->|Hp]%Hlk; [congruence|eauto].
  - intros j k p q n n' m x Hjk [->|Hp]%Hlk [->|Hq]%Hlk; try congruence. eauto.
Qed.

Lemma ns_inv_same_shape nss nss' ps : same_shape nss nss' -> ns_inv ps nss ->
  (forall m y, nss' !! m = Some y ->
     exists x, nss !! m = Some x /\ ns_used y = ns_used x /\ ns_next_ns_pid y = ns_next_ns_pid x) ->
  ns_inv ps nss'.
Proof.
  intros Hsh [Il In Ic Iu Ip Iq] Hb. pose proof (same_shape_sym _ _ Hsh) as Hsh'.
  assert (Hanc := fun a b => same_shape_anc _ _ a b Hsh').
  assert (Hb' : forall m y, nss' !! m = Some y -> exists x, nss !! m = Some x /\ ns_used y = ns_used x /\
    ns_next_ns_pid y = ns_next_ns_pid x /\ forall p, pid_at p y = pid_at p x).
  { intros m y Hy. destruct (Hb m y Hy) as (x & Hx & ? & ?). exists x.
    destruct (same_shape_lookup _ _ _ _ Hsh Hx) as (y' & ? & _ & Hd). simplify_eq.
    repeat split; [done..|]. intros p. unfold pid_at. by rewrite Hd. }
  split.
  - done.
  - intros m y (x & Hx & _ & -> & _)%Hb'. eauto.
  - intros i p n Hp Hn. destruct (Ic i p n Hp Hn) as (d & ? & ?). exists d. split; [done|]. by eapply same_shape_chain.
  - intros i p n m y Hp Hn Ha%Hanc (x & Hx & -> & _)%Hb'. eauto.
  - intros i p n m y Hp Hn Ha%Hanc (x & Hx & _ & -> & E)%Hb'. rewrite E. eauto.
  - intros i j p q n n' m y Hij Hp Hq Hn Hn' Ha%Hanc Ha'%Hanc (x & Hx & _ & _ & E)%Hb'. rewrite !E. eauto.
Qed.

Lemma ns_inv_keep ps ps' nss :
  (fun p => (p_ns p, p_pids p)) <$> ps' = (fun p => (p_ns p, p_pids p)) <$> ps ->
  ns_inv ps nss -> ns_inv ps' nss.
Proof.
  intros E [Il In Ic Iu Ip Iq].
  assert (Hlk : forall j p', ps' !! j = Some p' -> exists p, ps !! j = Some p /\ p_ns p = p_ns p' /\ p_pids p = p_pids p').
  { intros j p' Hj. apply (f_equal (fun l => l !! j)) in E. rewrite !list_lookup_fmap, Hj in E. simpl in E.
    destruct (ps !! j) as [p|]; simplify_eq/=. eauto. }
  unfold pid_at in *. split.
  - intros j p' (p & Hp & _ & <-)%Hlk. eauto.
  - eauto.
  - intros j p' n (p & Hp & <- & _)%Hlk. eauto.
  - intros j p' n m x (p & Hp & <- & _)%Hlk. eauto.
  - intros j p' n m x (p & Hp & <- & E1)%Hlk. unfold pid_at. rewrite <- E1. eauto.
  - intros j k p' q' n n' m x Hjk (p & Hp & <- & E1)%Hlk (q & Hq & <- & E2)%Hlk.
    unfold pid_at. rewrite <- E1, <- E2. eauto.
Qed.

(** ** Runs of the pieces of allocproc *)

Lemma allocpid_inv s pid s' : allocpid s = Done pid s' ->
  pid = k_nextpid s /\ k_nextpid s' = i32 (k_nextpid s + 1) /\ k_procs s' = k_procs s /\ k_nss s' = k_nss s /\
  k_nextnamespace s' = k_nextnamespace s /\ k_initproc s' = k_initproc s /\ k_initns s' = k_initns s.
Proof.
  unfold allocpid. intros H. mstep_inv H. mstep_inv H. mstep_inv H. mstep_inv H.
  apply ret_inv in H as [-> ->]. repeat split; congruence.
Qed.

(** The entry of a process after the first half of allocproc, pids apart. *)
Definition inited (p q : proc) (pid : Z) (n : nat) : Prop :=
  p_pid q = pid /\ p_state q = USED /\ p_ns q = Some n /\ p_pids q = p_pids p /\
  p_killed q = p_killed p /\ p_parent q = p_parent p /\ p_ofile q = p_ofile p.

Lemma init_proc_inv s i p d n a s' :
  k_procs s !! i = Some p -> length (p_pids p) = Z.to_nat MAXDEPTH ->
  chain (k_nss s) d n -> (d < Z.to_nat MAXDEPTH)%nat ->
  init_proc i (Some n) s = Done a s' ->
  exists q, inited p q (k_nextpid s) n /\
    assigned (<[i := q]> (k_procs s)) (k_nss s) i d n (k_procs s') (k_nss s') /\
    k_nextpid s' = i32 (k_nextpid s + 1) /\ k_nextnamespace s' = k_nextnamespace s /\
    k_initproc s' = k_initproc s /\ k_initns s' = k_initns s.
Proof.
  intros Hp Hl Hc Hd H. unfold init_proc in H.
  apply bind_done_inv in H. destruct H as (pid & s1 & E1 & H).
  apply allocpid_inv in E1 as (-> & C1 & P1 & N1 & D1 & I1 & J1).
  mstep_inv H. mstep_inv H. mstep_inv H. mstep_inv H. mstep_inv H. mstep_inv H. mstep_inv H. lookups.
  injection E2 as <-. rewrite (chain_depth _ _ _ _ Hc E3) in H.
  replace (Z.to_nat (Z.of_nat d + 1)) with (S d) in H by lia.
  eapply assign_pids_inv in H; ksimp.
  - destruct H as (Has & ? & ? & ? & ?). ksimp.
    rewrite En0, En, N1, Ep0, list_insert_insert_eq, Ep, list_insert_insert_eq, P1 in Has.
    eexists. split; [|split; [exact Has|repeat split; congruence]]. by repeat split.
  - by rewrite En0, En, N1.
  - apply list_lookup_insert_eq. rewrite Ep0, length_insert, Ep, length_insert, P1. by eapply lookup_lt_Some.
  - done.
  - done.
Qed.

Lemma charge_inv s i a s' : charge i s = Done a s' ->
  exists p p', k_procs s !! i = Some p /\ k_procs s' = <[i := p']> (k_procs s) /\ k_nss s' = k_nss s /\
    k_nextpid s' = k_nextpid s /\ k_nextnamespace s' = k_nextnamespace s /\ k_initproc s' = k_initproc s /\
    k_initns s' = k_initns s /\ static p' = static p /\ p_state p' = p_state p /\ p_chan p' = p_chan p.
Proof.
  unfold charge. intros H. mstep_inv H. mstep_inv H. mstep_inv H. lookups. unfold when in H.
  destruct (negb _).
  - mstep_inv H. prim_inv H. ksimp. lookups. eexists _, _. split; [exact E|].
    rewrite Ep0, list_insert_insert_eq, Ep. split; [reflexivity|]. repeat split; congruence.
  - prim_inv H. ksimp. eexists _, _. split; [exact E|]. rewrite Ep. split; [reflexivity|]. repeat split; congruence.
Qed.

(** ** The first half of allocproc always returns *)

(** The locks the first half of allocproc takes are free. *)
Definition pid_locks_free (s : kstate) : Prop :=
  Lpid_lock ∉ k_held s /\ Ltickslock ∉ k_held s /\ forall n, Lns n ∉ k_held s.

Lemma hart_free s s' : hart_same s s' -> pid_locks_free s -> pid_locks_free s'.
Proof. unfold pid_locks_free. by intros [-> _]. Qed.

Lemma wp_setns s n f x (Q : unit -> kstate -> Prop) :
  k_nss s !! n = Some x -> Q tt (s <| k_nss := <[n := f x]> (k_nss s) |>) -> wp (setns n f) s Q.
Proof. intros Hx HQ. eapply wp_eq; [|exact HQ]. unfold setns. by rewrite Hx. Qed.

Lemma wp_assign_step s i k n x q (Q : unit -> kstate -> Prop) :
  hart_wf s -> pid_locks_free s -> k_procs s !! i = Some q -> k_nss s !! n = Some x -> (k < Z.to_nat MAXDEPTH)%nat ->
  (forall s', hart_same s s' ->
     k_procs s' = <[i := q <| p_pids := <[k := ns_next_ns_pid x]> (p_pids q) |>]> (k_procs s) ->
     k_nss s' = <[n := taken x]> (k_nss s) -> wp (assign_pids i k (ns_parent x)) s' Q) ->
  wp (assign_pids i (S k) (Some n)) s Q.
Proof.
  intros Hw Hf Hq Hx Hk HQ. cbn [assign_pids]. apply wp_bind. eapply wp_eq; [reflexivity|].
  apply wp_bind, wp_acquire; [apply Hf|]. apply wp_bind. eapply wp_eq; [by apply getns_done|].
  unfold setpid. rewrite decide_True by lia. apply wp_bind. eapply wp_setp; [done|]. ksimp.
  apply wp_bind. eapply wp_setns; [done|]. ksimp.
  assert (Hn : (n < length (k_nss s))%nat) by by eapply lookup_lt_Some.
  apply wp_bind. eapply wp_setns; [by apply list_lookup_insert_eq|]. ksimp. rewrite list_insert_insert_eq.
  apply wp_bind. apply (wp_unlock (Lns n) s); [done|apply Hf|by repeat split|]. intros s2 Hh2 E2.
  assert (En : k_nss s2 = <[n := taken x]> (k_nss s)) by exact (f_equal k_nss E2).
  apply wp_bind. eapply wp_eq; [apply getns_done; rewrite En; by apply list_lookup_insert_eq|].
  by apply HQ; [|exact (f_equal k_procs E2)|].
Qed.

Lemma wp_assign_pids d n i q s :
  hart_wf s -> pid_locks_free s -> k_procs s !! i = Some q -> chain (k_nss s) d n -> (d < Z.to_nat MAXDEPTH)%nat ->
  wp (assign_pids i (S d) (Some n)) s (fun _ s' => hart_same s s').
Proof.
  revert n q s. induction d as [|d IH]; intros n q s Hw Hf Hq Hc Hd; pose proof Hc as (x & Hx & Hdx & Hp);
    eapply wp_assign_step; try done; intros s1 H1 Ep En.
  destruct Hp as (k & Hk & Hck). rewrite Hk. eapply wp_mono.
  - eapply (IH k); [by eapply hart_same_wf|by eapply hart_free| | |lia].
    + rewrite Ep. apply list_lookup_insert_eq. by eapply lookup_lt_Some.
    + rewrite En. eapply same_shape_chain; [|done]. by eapply same_shape_insert.
  - intros ? s2 H2. by etrans.
Qed.

(** [s'] is [s] with another entry for process [i], as far as the tables go. *)
Definition entry_set (i : nat) (s s' : kstate) : Prop :=
  hart_same s s' /\ k_nss s' = k_nss s /\ exists p', k_procs s' = <[i := p']> (k_procs s).
Lemma entry_set_trans i s1 s2 s3 : entry_set i s1 s2 -> entry_set i s2 s3 -> entry_set i s1 s3.
Proof.
  intros (H1 & N1 & p1 & P1) (H2 & N2 & p2 & P2). split; [by etrans|]. split; [congruence|].
  exists p2. by rewrite P2, P1, list_insert_insert_eq.
Qed.
Lemma wp_uptime_setp s i p f (k : K unit) (Q : unit -> kstate -> Prop) :
  hart_wf s -> pid_locks_free s -> k_procs s !! i = Some p ->
  (forall s' p', entry_set i s s' -> k_procs s' !! i = Some p' -> wp k s' Q) ->
  wp (let! t := sys_uptime in setp i (f t) ;! k) s Q.
Proof.
  intros Hw Hf Hp HQ. apply wp_bind, wp_sys_uptime; [done|apply Hf|]. intros s1 [H1 E1].
  assert (Ep : k_procs s1 = k_procs s) by exact (f_equal k_procs E1).
  apply wp_bind. eapply wp_setp; [by rewrite Ep|]. rewrite Ep. eapply HQ.
  - split; [etrans; [exact H1|by repeat split]|]. split; [exact (f_equal k_nss E1)|]. by eexists.
  - ksimp. apply list_lookup_insert_eq. by eapply lookup_lt_Some.
Qed.

Lemma wp_init_proc s i p d n :
  hart_wf s -> pid_locks_free s -> k_procs s !! i = Some p -> chain (k_nss s) d n -> (d < Z.to_nat MAXDEPTH)%nat ->
  wp (init_proc i (Some n)) s (fun _ s' => hart_same s s').
Proof.
  intros Hw Hf Hp Hc Hd. unfold init_proc, allocpid.
  apply wp_bind, wp_bind, wp_acquire; [apply Hf|]. apply wp_bind, wp_gets, wp_bind, wp_modify.
  apply wp_bind. apply (wp_unlock Lpid_lock s); [done|apply Hf|by repeat split|]. intros s1 H1 E1.
  assert (Ep : k_procs s1 = k_procs s) by exact (f_equal k_procs E1).
  apply wp_ret, wp_bind. eapply wp_setp; [by rewrite Ep|]. rewrite Ep.
  match goal with |- wp _ ?s2 _ => assert (S2 : entry_set i s s2) end.
  { split; [etrans; [exact H1|by repeat split]|]. split; [exact (f_equal k_nss E1)|]. by eexists. }
  assert (Hi : (i < length (k_procs s))%nat) by by eapply lookup_lt_Some.
  eapply (wp_uptime_setp _ i _ (fun t p => p <| p_last_run_start := u32 t |> <| p_is_kernel := 0 |> <| p_kernel_time := 0 |>));
    [eapply hart_same_wf; [apply S2|done]|eapply hart_free; [apply S2|done]|ksimp; by apply list_lookup_insert_eq|].
  intros s3 p3 S3 Hp3. pose proof (entry_set_trans _ _ _ _ S2 S3) as S4.
  eapply (wp_uptime_setp _ i _ (fun t p => p <| p_last_kernel_time := u32 t |> <| p_ns := Some n |>));
    [eapply hart_same_wf; [apply S4|done]|eapply hart_free; [apply S4|done]|done|].
  intros s5 p5 S5 Hp5. pose proof (entry_set_trans _ _ _ _ S4 S5) as (H6 & N6 & _).
  apply wp_bind. eapply wp_eq; [reflexivity|]. destruct (chain_lookup _ _ _ Hc) as (x & Hx & Hdx).
  apply wp_bind. eapply wp_eq; [apply getns_done; by rewrite N6|]. rewrite Hdx.
  replace (Z.to_nat (Z.of_nat d + 1)) with (S d) by lia. eapply wp_mono.
  - eapply (wp_assign_pids d n i p5 s5); [by eapply hart_same_wf|by eapply hart_free|done|by rewrite N6|done].
  - intros ? s7 H7. by etrans.
Qed.

Section runs.
Context {img : Image}.

Lemma init_proc_run s i p d n :
  hart_wf s -> pid_locks_free s -> k_procs s !! i = Some p -> length (p_pids p) = Z.to_nat MAXDEPTH ->
  chain (k_nss s) d n -> (d < Z.to_nat MAXDEPTH)%nat ->
  exists s' q, init_proc i (Some n) s = Done tt s' /\ hart_same s s' /\ k_procs s' = <[i := q]> (k_procs s) /\
    p_state q = USED /\ p_pid q = k_nextpid s /\ p_ns q = Some n /\ p_killed q = p_killed p /\
    (forall m x, anc (k_nss s) n m -> k_nss s !! m = Some x ->
       pid_at q x = Some (ns_next_ns_pid x) /\ k_nss s' !! m = Some (taken x)) /\
    (forall m, ~ anc (k_nss s) n m -> k_nss s' !! m = k_nss s !! m).
Proof.
  intros Hw Hf Hp Hl Hc Hd.
  destruct (proj1 (wp_done _ _ _) (wp_init_proc s i p d n Hw Hf Hp Hc Hd)) as ([] & s' & E & Hh).
  destruct (init_proc_inv s i p d n tt s' Hp Hl Hc Hd E) as (q & Hq & Has & _).
  destruct Hq as (H1 & H2 & H3 & H4 & H5 & _). destruct Has as [(q0 & pids' & Hq0 & Hps & _ & Hpid & _) Ha Ho _ _].
  rewrite list_lookup_insert_eq in Hq0 by by eapply lookup_lt_Some. injection Hq0 as <-.
  rewrite list_insert_insert_eq in Hps. eexists s', _. split; [done|]. split; [done|]. split; [exact Hps|].
  split; [exact H2|]. split; [exact H1|]. split; [exact H3|]. split; [exact H5|]. split; [|done].
  intros m x Hm Hx. split; [by apply (Hpid m)|by apply Ha].
Qed.

(** A freed entry. *)
Definition cleared (p : proc) : Prop :=
  p_state p = UNUSED /\ p_pid p = 0 /\ p_ns p = None /\ p_pids p = replicate (Z.to_nat MAXDEPTH) 0 /\
  p_parent p = None /\ p_killed p = 0 /\ p_chan p = None /\ p_pagetable p = 0 /\ p_trapframe p = 0 /\ p_sz p = 0.

Lemma freeproc_inv s i a s' : freeproc i s = Done a s' ->
  exists p p', k_procs s !! i = Some p /\ k_procs s' = <[i := p']> (k_procs s) /\ cleared p' /\
    k_nss s' = k_nss s /\ k_nextpid s' = k_nextpid s /\ k_nextnamespace s' = k_nextnamespace s /\
    k_initproc s' = k_initproc s /\ k_initns s' = k_initns s.
Proof.
  unfold freeproc. intros H. mstep_inv H. mstep_inv H. mstep_inv H. mstep_inv H. mstep_inv H. mstep_inv H.
  apply bind_done_inv in H. destruct H as (b & s2 & E' & H).
  apply charge_inv in E'. destruct E' as (p & p' & Hp & Hp' & ? & ? & ? & ? & ? & Hst & Hs & Hch).
  prim_inv H. ksimp. lookups.
  eexists _, _. split; [exact E|]. split; [by rewrite Hp', !list_insert_insert_eq, Ep0, list_insert_insert_eq, Ep|].
  split; [|repeat split; congruence]. unfold cleared. ksimp.
  rewrite Hs, Hch. split; [reflexivity|]. split; [exact (f_equal p_pid Hst)|]. split; [done|]. split; [done|].
  split; [exact (f_equal p_parent Hst)|]. split; [exact (f_equal p_killed Hst)|]. split; [reflexivity|].
  split; [exact (f_equal p_pagetable Hst)|]. split; [exact (f_equal p_trapframe Hst)|]. exact (f_equal p_sz Hst).
Qed.

Lemma find_unused_inv s r s' : find_unused s = Done r s' -> tables s' = tables s /\
  forall i, r = Some i -> exists p, k_procs s !! i = Some p /\ p_state p = UNUSED /\ (i < Z.to_nat NPROC)%nat.
Proof.
  intros H. split; [apply (segs_done (same tables) find_unused s r); [segs_tac|done]|].
  intros i ->. revert H. unfold find_unused.
  assert (Hl : forall j, j ∈ all_procs -> (j < Z.to_nat NPROC)%nat) by (intros j ?%elem_of_seq; lia).
  revert Hl. generalize all_procs. intros l. revert s. induction l as [|j l IH]; intros s Hl H; [done|].
  rewrite find_list_cons in H. apply bind_done_inv in H. destruct H as (r & s1 & E1 & H).
  mstep_inv E1. mstep_inv E1. case_decide.
  - apply ret_inv in E1 as [-> ->]. apply ret_inv in H as [_ [= <-]]. lookups.
    eexists. split; [done|]. split; [done|]. apply Hl. left.
  - mstep_inv E1. apply ret_inv in E1 as [-> ->].
    apply IH in H as (p & Hp & ?); [|intros; apply Hl; by right]. exists p. split; [|done]. congruence.
Qed.

Lemma giveup_inv s i r s' : (freeproc i ;! release (Lproc i) ;! ret (@None nat)) s = Done r s' ->
  r = None /\ exists p p', k_procs s !! i = Some p /\ k_procs s' = <[i := p']> (k_procs s) /\ cleared p' /\
    k_nss s' = k_nss s /\ k_nextpid s' = k_nextpid s /\ k_nextnamespace s' = k_nextnamespace s /\
    k_initproc s' = k_initproc s /\ k_initns s' = k_initns s.
Proof.
  intros H. apply bind_done_inv in H. destruct H as ([] & s1 & E1 & H).
  apply freeproc_inv in E1 as (p & p' & Hp & Hp' & Hcl & ? & ? & ? & ? & ?).
  mstep_inv H. apply ret_inv in H as [-> ->]. split; [done|]. exists p, p'.
  split; [done|]. split; [congruence|]. split; [done|]. repeat split; congruence.
Qed.

(** What a run of allocproc did: it found no entry, or gave an entry up
    again after taking its pids, or returns an initialised entry. *)
Lemma allocproc_inv s n d r s' :
  (forall i p, k_procs s !! i = Some p -> length (p_pids p) = Z.to_nat MAXDEPTH) ->
  chain (k_nss s) d n -> (d < Z.to_nat MAXDEPTH)%nat ->
  allocproc (Some n) s = Done r s' ->
  (r = None /\ tables s' = tables s) \/
  exists i p q s1, k_procs s !! i = Some p /\ p_state p = UNUSED /\ inited p q (k_nextpid s) n /\
    assigned (<[i := q]> (k_procs s)) (k_nss s) i d n (k_procs s1) (k_nss s1) /\
    k_nss s' = k_nss s1 /\ k_nextpid s' = i32 (k_nextpid s + 1) /\ k_nextnamespace s' = k_nextnamespace s /\
    k_initproc s' = k_initproc s /\ k_initns s' = k_initns s /\
    exists q1 q', k_procs s1 !! i = Some q1 /\ k_procs s' = <[i := q']> (k_procs s1) /\
      ((r = None /\ cleared q') \/
       (r = Some i /\ q' = q1 <| p_trapframe := p_trapframe q' |> <| p_pagetable := p_pagetable q' |>
                              <| p_context := p_context q' |>)).
Proof.
  intros Hlen Hc Hd H. unfold allocproc in H.
  apply bind_done_inv in H. destruct H as (f & s0 & E0 & H).
  apply find_unused_inv in E0 as [T0 Hf]. apply tables_eq in T0 as (P0 & N0 & C0 & D0 & I0 & J0).
  destruct f as [i|]; [|apply ret_inv in H as [-> ->]; left; unfold tables; split; congruence].
  destruct (Hf i eq_refl) as (p & Hp & Hst & Hi). right.
  apply bind_done_inv in H. destruct H as ([] & s1 & E1 & H).
  apply (init_proc_inv s0 i p d n) in E1; [|congruence|eauto|by rewrite N0|done].
  destruct E1 as (q & Hq & Has & C1 & D1 & I1 & J1). rewrite P0, N0, C0 in *.
  exists i, p, q, s1. split; [done|]. split; [done|]. split; [done|]. split; [done|].
  mstep_inv H. mstep_inv H. rewrite Ep in E. destruct (a =? 0).
  { apply giveup_inv in H as (-> & p1 & p' & Hp1 & Hp' & Hcl & ? & ? & ? & ? & ?). ksimp.
    repeat (split; [congruence|]). exists x, p'. split; [done|].
    split; [by rewrite Hp', list_insert_insert_eq, Ep|]. by left. }
  mstep_inv H. mstep_inv H. lookups. destruct (a1 =? 0).
  { apply giveup_inv in H as (-> & p1 & p' & Hp1 & Hp' & Hcl & ? & ? & ? & ? & ?). ksimp.
    repeat (split; [congruence|]). exists x, p'. split; [done|].
    split; [by rewrite Hp', list_insert_insert_eq, Ep0, list_insert_insert_eq, Ep|]. by left. }
  mstep_inv H. apply ret_inv in H as [-> ->]. ksimp. lookups.
  repeat (split; [congruence|]). eexists x, _. split; [done|].
  split; [by rewrite list_insert_insert_eq, Ep0, list_insert_insert_eq, Ep|]. right. split; [done|]. by destruct x.
Qed.

Lemma ns_inv_allocproc s n d r s' :
  ns_inv (k_procs s) (k_nss s) -> room (k_nss s) -> chain (k_nss s) d n -> (d < Z.to_nat MAXDEPTH)%nat ->
  (forall m x, anc (k_nss s) n m -> k_nss s !! m = Some x -> ns_used x <> 0) ->
  allocproc (Some n) s = Done r s' -> ns_inv (k_procs s') (k_nss s').
Proof.
  intros Hinv Hroom Hc Hd Hu H. apply (allocproc_inv s n d) in H; [|apply Hinv|done|done].
  destruct H as [[-> T]|(i & p & q & s1 & Hp & Hst & Hq & Has & Hn & _ & _ & _ & _ & q1 & q' & Hq1 & Hp' & Hr)].
  { apply tables_eq in T as (-> & -> & _). done. }
  destruct Hq as (_ & _ & Hqn & Hqp & _). rewrite Hn, Hp'.
  assert (Hi1 : ns_inv (k_procs s1) (k_nss s1)).
  { eapply ns_inv_assigned; try done; [by eapply lookup_lt_Some|]. rewrite Hqp. by eapply (inv_len _ _ Hinv). }
  destruct Hr as [[_ Hcl]|[_ Hq']].
  - destruct Hcl as (_ & _ & ? & Hpp & _). apply ns_inv_clear; [done..|]. by rewrite Hpp, length_replicate.
  - eapply ns_inv_keep, Hi1. rewrite list_fmap_insert, Hq'. apply list_insert_id.
    by rewrite list_lookup_fmap, Hq1.
Qed.

Lemma allocproc_null s r s' : allocproc None s = Done r s' -> tables s' = tables s.
Proof.
  unfold allocproc. intros H. apply bind_done_inv in H. destruct H as (f & s1 & E & H).
  apply find_unused_inv in E as [T _]. destruct f as [i|]; [|by apply ret_inv in H as [-> _]].
  unfold init_proc in H. apply bind_done_inv in H. destruct H as ([] & s2 & E & _).
  apply bind_done_inv in E. destruct E as (pid & s3 & E1 & E). 
  do 6 (apply bind_done_inv in E; destruct E as (? & ? & ? & E)). by apply deref_inv in H4 as [_ ?].
Qed.

(** A namespace as allocnamespace hands it out. *)
Definition fresh_ns (id : Z) : namespace := mkNamespace None None id 0 1 1 0.

(** What a run of allocnamespace did: all entries were in use, or the entry
    it returns was unused and is fresh now. *)
Definition ns_alloc (l : list nat) (s : kstate) (r : option nat) (s' : kstate) : Prop :=
  (r = None /\ tables s' = tables s /\ forall n x, n ∈ l -> k_nss s !! n = Some x -> ns_used x <> 0) \/
  exists n x, r = Some n /\ k_nss s !! n = Some x /\ ns_used x = 0 /\
    k_nss s' = <[n := fresh_ns (k_nextnamespace s)]> (k_nss s) /\ k_procs s' = k_procs s /\
    k_nextnamespace s' = i32 (k_nextnamespace s + 1) /\ k_nextpid s' = k_nextpid s /\
    k_initproc s' = k_initproc s /\ k_initns s' = k_initns s.

Lemma allocnamespace_inv s r s' : allocnamespace s = Done r s' -> ns_alloc all_nss s r s'.
Proof.
  unfold allocnamespace. revert s. generalize all_nss. intros l. induction l as [|n l IH]; intros s H.
  { apply ret_inv in H as [-> ->]. left. repeat split; [done..|]. intros n x []%not_elem_of_nil. }
  rewrite find_list_cons in H. apply bind_done_inv in H. destruct H as (r1 & s1 & E1 & H).
  mstep_inv E1. mstep_inv E1. destruct (ns_used a0 =? 0) eqn:Hu.
  - right. apply bind_done_inv in E1. destruct E1 as (id & s2 & E2 & E1). unfold allocnamespaceid in E2.
    mstep_inv E2. mstep_inv E2. mstep_inv E2. mstep_inv E2. apply ret_inv in E2 as [-> ->].
    mstep_inv E1. mstep_inv E1. apply ret_inv in E1 as [-> ->]. apply ret_inv in H as [-> ->]. ksimp. lookups.
    exists n, a0. split; [done|]. split; [congruence|]. split; [lia|].
    split; [rewrite En2, En1, En0, En, Ed0, Ed; reflexivity|]. repeat split; congruence.
  - mstep_inv E1. apply ret_inv in E1 as [-> ->]. lookups.
    apply IH in H as [(-> & T & Hno)|(m & y & -> & Hy & ? & ? & ? & ? & ? & ? & ?)].
    + left. split; [done|]. split; [rewrite T; unfold tables; congruence|].
      intros m y [->|Hm]%elem_of_cons Hy; [|apply (Hno m); congruence].
      assert (y = a0) as -> by congruence. lia.
    + right. exists m, y. split; [done|]. split; [congruence|]. split; [done|]. repeat split; congruence.
Qed.

Lemma wp_allocnamespace s (Q : option nat -> kstate -> Prop) :
  hart_wf s -> (forall n, Lns n ∉ k_held s) -> Lns_lock ∉ k_held s -> length (k_nss s) = Z.to_nat NUMNS ->
  (forall r s', hart_same s s' -> ns_alloc all_nss s r s' -> Q r s') -> wp allocnamespace s Q.
Proof.
  intros Hw Hf Hf2 Hlen HQ.
  cut (wp allocnamespace s (fun _ s' => hart_same s s')).
  { intros (r & s' & E & H)%wp_done. eapply wp_eq; [exact E|]. apply HQ; [done|]. by apply allocnamespace_inv. }
  clear HQ. unfold allocnamespace.
  assert (Hl : forall n, n ∈ all_nss -> is_Some (k_nss s !! n)) by (intros n ?%elem_of_seq; apply lookup_lt_is_Some_2; lia).
  clear Hlen. revert s Hw Hf Hf2 Hl. generalize all_nss. intros l. induction l as [|n l IH]; intros s Hw Hf Hf2 Hl.
  { by apply wp_ret. }
  destruct (Hl n) as [x Hx]; [left|]. rewrite find_list_cons.
  apply wp_bind, wp_bind, wp_acquire; [done|]. apply wp_bind. eapply wp_eq; [by apply getns_done|].
  pose proof (locked_wf (Lns n) s Hw) as Hwl.
  destruct (ns_used x =? 0).
  - unfold allocnamespaceid. apply wp_bind, wp_bind, wp_acquire; [ksimp; by apply not_elem_of_cons|].
    apply wp_bind, wp_gets, wp_bind, wp_modify, wp_bind.
    apply (wp_unlock Lns_lock (locked (Lns n) s)); [done|ksimp; by apply not_elem_of_cons|by repeat split|].
    intros s1 H1 E1. apply wp_ret. apply wp_bind.
    eapply wp_setns; [by rewrite (f_equal k_nss E1 : k_nss s1 = k_nss s)|]. apply wp_bind.
    eapply (wp_unlock (Lns n) s); [done..|etrans; [exact H1|by repeat split]|]. intros s2 H2 E2.
    apply wp_ret. by apply wp_ret.
  - apply wp_bind. eapply (wp_unlock (Lns n) s); [done..|]. intros s1 H1 E1. apply wp_ret.
    assert (En : k_nss s1 = k_nss s) by exact (f_equal k_nss E1). pose proof H1 as [Hh1 _].
    eapply wp_mono; [apply IH; rewrite ?Hh1, ?En; try done; [by eapply hart_same_wf|intros; apply Hl; by right]|].
    intros ? s2 H2. by etrans.
Qed.

(** Namespaces no process lives in or below can change freely. *)
Lemma anc_insert nss n y m m' : ~ anc nss m' n -> anc (<[n := y]> nss) m' m -> anc nss m' m.
Proof.
  intros Hno Ha. induction Ha as [|a x k m Hx Hk Ha IH]; [constructor|].
  destruct (decide (a = n)) as [->|Hne]; [destruct Hno; constructor|].
  rewrite list_lookup_insert_ne in Hx by done. apply (anc_up _ a x k); [done..|]. apply IH.
  intros Hk'. apply Hno. by apply (anc_up _ a x k).
Qed.
Lemma chain_insert nss n y d m : ~ anc nss m n -> chain nss d m -> chain (<[n := y]> nss) d m.
Proof.
  revert m. induction d as [|d IH]; intros m Hno (x & Hx & Hd & Hp);
    (assert (m <> n) by (intros ->; apply Hno; constructor)); exists x;
    (split; [by rewrite list_lookup_insert_ne|]; split; [done|]); [done|].
  destruct Hp as (k & Hk & Hc). exists k. split; [done|]. apply IH; [|done].
  intros Ha. apply Hno. by apply (anc_up _ m x k).
Qed.
Lemma ns_inv_spare ps nss n y :
  ns_inv ps nss -> (forall i p m, ps !! i = Some p -> p_ns p = Some m -> ~ anc nss m n) ->
  1 <= ns_next_ns_pid y -> ns_inv ps (<[n := y]> nss).
Proof.
  intros [Il In Ic Iu Ip Iq] Hno Hy.
  assert (Hb : forall i p m m' x, ps !! i = Some p -> p_ns p = Some m -> anc (<[n := y]> nss) m m' ->
    <[n := y]> nss !! m' = Some x -> anc nss m m' /\ nss !! m' = Some x).
  { intros i p m m' x Hp Hm Ha Hx. pose proof (Hno i p m Hp Hm) as Hn.
    assert (anc nss m m') as Ha'. by by eapply anc_insert.
    split; [done|]. rewrite list_lookup_insert_ne in Hx; [done|]. intros ->. done. }
  split.
  - done.
  - intros m x. destruct (decide (m = n)) as [->|].
    + intros Hx. apply list_lookup_insert_Some in Hx as [(_ & <- & _)|[? _]]; done.
    + rewrite list_lookup_insert_ne by done. eauto.
  - intros i p m Hp Hm. destruct (Ic i p m Hp Hm) as (d & ? & ?). exists d. split; [done|].
    apply chain_insert; eauto.
  - intros i p m m' x Hp Hm Ha Hx. destruct (Hb i p m m' x Hp Hm Ha Hx). eauto.
  - intros i p m m' x Hp Hm Ha Hx. destruct (Hb i p m m' x Hp Hm Ha Hx). eauto.
  - intros i j p q m1 m2 m' x Hij Hp Hq Hm1 Hm2 Ha1 Ha2 Hx.
    destruct (Hb i p m1 m' x Hp Hm1 Ha1 Hx). destruct (Hb j q m2 m' x Hq Hm2 Ha2 Hx). eauto.
Qed.

Lemma live_used ps nss i p n : ns_inv ps nss -> ps !! i = Some p -> p_ns p = Some n ->
  exists d, (d < Z.to_nat MAXDEPTH)%nat /\ chain nss d n /\
    forall m x, anc nss n m -> nss !! m = Some x -> ns_used x <> 0.
Proof.
  intros Hi Hp Hn. destruct (inv_chain _ _ Hi _ _ _ Hp Hn) as (d & ? & ?). exists d.
  split; [done|]. split; [done|]. intros m x. by apply (inv_used _ _ Hi i p n).
Qed.

Lemma unused_spare ps nss n x0 : ns_inv ps nss -> nss !! n = Some x0 -> ns_used x0 = 0 ->
  forall i p m, ps !! i = Some p -> p_ns p = Some m -> ~ anc nss m n.
Proof. intros Hi Hx Hu i p m Hp Hm Ha. by apply (inv_used _ _ Hi i p m n x0). Qed.

(** A fresh child of a live process's namespace. *)
Lemma ns_inv_child ps nss p x pn pns n x0 y :
  ns_inv ps nss -> ps !! p = Some x -> p_ns x = Some pn -> nss !! pn = Some pns ->
  nss !! n = Some x0 -> ns_used x0 = 0 ->
  ns_parent y = Some pn -> ns_depth y = ns_depth pns + 1 -> ns_depth pns + 1 < MAXDEPTH ->
  ns_used y <> 0 -> ns_next_ns_pid y = 1 ->
  ns_inv ps (<[n := y]> nss) /\ exists d, (d < Z.to_nat MAXDEPTH)%nat /\ chain (<[n := y]> nss) d n /\
    forall m z, anc (<[n := y]> nss) n m -> <[n := y]> nss !! m = Some z -> ns_used z <> 0.
Proof.
  intros Hinv Hx Hpn Hpns Hn Hu Hyp Hyd Hd Hyu Hyn. pose proof (unused_spare _ _ _ _ Hinv Hn Hu) as Hsp.
  split; [by apply ns_inv_spare; [| |lia]|].
  destruct (live_used _ _ _ _ _ Hinv Hx Hpn) as (d & Hdm & Hc & Hus).
  rewrite (chain_depth _ _ _ _ Hc Hpns) in *. exists (S d). split; [lia|].
  assert (Hln : (n < length nss)%nat) by by eapply lookup_lt_Some.
  assert (Hnp : ~ anc nss pn n) by by eapply Hsp.
  split.
  - exists y. split; [by apply list_lookup_insert_eq|]. split; [lia|]. exists pn. split; [done|].
    by apply chain_insert.
  - intros m z Ha Hz. destruct (decide (m = n)) as [->|Hm].
    { rewrite list_lookup_insert_eq in Hz by done. by simplify_eq. }
    inversion Ha as [|a y' k m' Hy' Hk Ha']; [done|subst]. rewrite list_lookup_insert_eq in Hy' by done.
    injection Hy' as <-. assert (k = pn) as -> by congruence.
    rewrite list_lookup_insert_ne in Hz by done. apply (Hus m); [|done]. by eapply anc_insert.
Qed.

(** ** Reparenting *)

(** The head of the nearest namespace at or above [n] that has one; [d] is
    the depth of [n]. *)
Fixpoint head_at (nss : list namespace) (d n : nat) : option nat :=
  match nss !! n with
  | None => None
  | Some x =>
      match d, ns_head x, ns_parent x with
      | S d, None, Some k => head_at nss d k
      | _, h, _ => h
      end
  end.

Lemma get_ns_head_eq s d n : chain (k_nss s) d n -> (d < Z.to_nat MAXDEPTH)%nat ->
  get_ns_head (Some n) s = Done (head_at (k_nss s) d n) s.
Proof.
  intros Hc Hd. unfold get_ns_head. rewrite (bind_done _ _ s n s) by done.
  destruct (chain_lookup _ _ _ Hc) as (x & Hx & _). rewrite (bind_done _ _ s _ _ (getns_done _ _ _ Hx)).
  assert (Hf : (d < Z.to_nat NUMNS)%nat)
    by (change (Z.to_nat MAXDEPTH) with 8%nat in Hd; change (Z.to_nat NUMNS) with 64%nat; lia).
  clear Hd. revert Hf. generalize (Z.to_nat NUMNS). intros fuel Hf. revert n x Hc Hx fuel Hf.
  induction d as [|d IH]; intros n x Hc Hx fuel Hf; pose proof Hc as (x0 & Hx0 & Hdx & Hp);
    assert (x0 = x) as -> by congruence; (destruct fuel as [|fuel]; [lia|]); cbn [get_ns_head_loop head_at];
    rewrite (bind_done _ _ s _ _ (getns_done _ _ _ Hx)), Hx, Hdx.
  - rewrite (proj2 (Z.ltb_ge _ _)) by lia. done.
  - rewrite (proj2 (Z.ltb_lt _ _)) by lia. destruct (ns_head x) as [h|]; [done|]. simpl.
    destruct Hp as (k & Hk & Hck). rewrite Hk. rewrite (bind_done _ _ s k s) by done.
    destruct (chain_lookup _ _ _ Hck) as (y & Hy & _). rewrite (bind_done _ _ s _ _ (getns_done _ _ _ Hy)).
    apply IH; [done..|lia].
Qed.

(** The parent of a process after reparent of [p]'s children. *)
Definition new_parent (nss : list namespace) (p : nat) (x : proc) (r : option nat) : Prop :=
  if decide (p_parent x = Some p)
  then forall d n, p_ns x = Some n -> chain nss d n -> r = head_at nss d n
  else r = p_parent x.

(** [s'] is [s] with the children of [p] below [k] handed over. *)
Record reparented (p k : nat) (s s' : kstate) : Prop := {
  rp_hart : hart_same s s';
  rp_nss : k_nss s' = k_nss s;
  rp_len : length (k_procs s') = length (k_procs s);
  rp_entry j x : k_procs s !! j = Some x -> exists x', k_procs s' !! j = Some x' /\
    p_ns x' = p_ns x /\ p_pids x' = p_pids x /\ p_pid x' = p_pid x /\ p_xstate x' = p_xstate x /\
    if decide (j < k)%nat then new_parent (k_nss s) p x (p_parent x') else p_parent x' = p_parent x;
}.

Lemma woken_fields chan me t i x :
  p_ns (woken chan me t i x) = p_ns x /\ p_pids (woken chan me t i x) = p_pids x /\
  p_pid (woken chan me t i x) = p_pid x /\ p_xstate (woken chan me t i x) = p_xstate x /\
  p_parent (woken chan me t i x) = p_parent x.
Proof. unfold woken. by case_match. Qed.

Lemma chain_unique nss d d' n : chain nss d n -> chain nss d' n -> d = d'.
Proof.
  intros H H'. destruct (chain_lookup _ _ _ H) as (x & Hx & Hd). pose proof (chain_depth _ _ _ _ H' Hx). lia.
Qed.

(** One round of reparent. *)
Lemma reparented_skip p k s s' x : reparented p k s s' -> k_procs s !! k = Some x -> p_parent x <> Some p ->
  reparented p (S k) s s'.
Proof.
  intros [H1 H2 H3 H4] Hx Hne. split; [done..|]. intros j y Hy.
  destruct (H4 j y Hy) as (y' & Hy' & ? & ? & ? & ? & Hp). exists y'. split; [done|]. do 4 (split; [done|]).
  destruct (decide (j = k)) as [->|Hjk].
  - rewrite decide_False in Hp by lia. rewrite decide_True by lia. unfold new_parent.
    assert (y = x) as -> by congruence. by rewrite decide_False by done.
  - repeat case_decide; try lia; done.
Qed.
Lemma reparented_set p k s s' s2 x x' d n :
  reparented p k s s' -> k_procs s !! k = Some x -> p_parent x = Some p -> p_ns x = Some n ->
  chain (k_nss s) d n -> k_procs s' !! k = Some x' -> hart_same s' s2 -> k_nss s2 = k_nss s' ->
  (forall j, exists f, k_procs s2 !! j =
     f <$> (<[k := x' <| p_parent := head_at (k_nss s) d n |>]> (k_procs s') !! j) /\
     forall y, p_ns (f y) = p_ns y /\ p_pids (f y) = p_pids y /\ p_pid (f y) = p_pid y /\
       p_xstate (f y) = p_xstate y /\ p_parent (f y) = p_parent y) ->
  length (k_procs s2) = length (k_procs s') ->
  reparented p (S k) s s2.
Proof.
  intros [H1 H2 H3 H4] Hx Hp Hn Hc Hx' Hh En Hf Hlen. split; [by etrans|congruence|congruence|].
  intros j y Hy. destruct (H4 j y Hy) as (y' & Hy' & ? & ? & ? & ? & Hpy).
  destruct (Hf j) as (f & Ej & Hfy). destruct (decide (j = k)) as [->|Hjk].
  - rewrite list_lookup_insert_eq in Ej by by eapply lookup_lt_Some. cbn [fmap option_fmap option_map] in Ej.
    assert (y' = x') as -> by congruence. assert (y = x) as -> by congruence.
    eexists. split; [exact Ej|]. match goal with |- context [f ?z] => destruct (Hfy z) as (F1 & F2 & F3 & F4 & F5) end.
    ksimp. split; [congruence|]. split; [congruence|]. split; [congruence|]. split; [congruence|].
    rewrite decide_True by lia. unfold new_parent. rewrite decide_True by done. intros d' n' Hn' Hc'.
    assert (n' = n) as -> by congruence. rewrite (chain_unique _ _ _ _ Hc' Hc). rewrite F5. done.
  - rewrite list_lookup_insert_ne, Hy' in Ej by done. cbn [fmap option_fmap option_map] in Ej.
    eexists. split; [exact Ej|]. destruct (Hfy y') as (F1 & F2 & F3 & F4 & F5).
    split; [congruence|]. split; [congruence|]. split; [congruence|]. split; [congruence|].
    rewrite F5. repeat case_decide; try lia; done.
Qed.

(** Every child of [p] hangs in a chain of namespaces. *)
Definition children_chained (p : nat) (s : kstate) : Prop :=
  forall j x, k_procs s !! j = Some x -> p_parent x = Some p ->
  exists n d, p_ns x = Some n /\ (d < Z.to_nat MAXDEPTH)%nat /\ chain (k_nss s) d n.

Lemma wp_reparent p s (Q : unit -> kstate -> Prop) :
  hart_wf s -> (forall i, Lproc i ∉ k_held s) -> Ltickslock ∉ k_held s ->
  length (k_procs s) = Z.to_nat NPROC -> children_chained p s ->
  (forall s', reparented p (Z.to_nat NPROC) s s' -> Q tt s') -> wp (reparent p) s Q.
Proof.
  intros Hw Hl Ht Hlen Hns HQ. unfold reparent. apply (wp_for_list (fun k s' => reparented p k s s')).
  - split; [done..|]. intros j x Hx. exists x. rewrite decide_False by lia. done.
  - intros k b s1 [-> Hk]%all_procs_lookup Hr. pose proof Hr as [R1 R2 R3 R4].
    assert (is_Some (k_procs s !! k)) as [x Hx] by (apply lookup_lt_is_Some_2; lia).
    destruct (R4 k x Hx) as (x' & Hx' & Hxn & _ & _ & _ & Hpar). rewrite decide_False in Hpar by lia.
    apply wp_bind, (wp_getp _ _ x'); [done|]. rewrite Hpar. unfold when. case_bool_decide as Hp.
    2: { apply wp_ret. by eapply reparented_skip. }
    destruct (Hns k x Hx Hp) as (n & d & Hn & Hd & Hc).
    rewrite Hxn, Hn. apply wp_bind. eapply wp_eq; [eapply get_ns_head_eq; [by rewrite R2|done]|]. rewrite R2.
    apply wp_bind. eapply wp_setp; [done|]. destruct R1 as (Rh & Rest).
    apply wp_wakeup; ksimp.
    + eapply (hart_same_wf s); [split; ksimp; done|done].
    + by rewrite Rh.
    + by rewrite Rh.
    + rewrite length_insert. congruence.
    + intros s2 Hh2 E2. eapply (reparented_set p k s s1 s2); try done.
      * exact (f_equal k_nss E2).
      * intros j. eexists. rewrite (f_equal k_procs E2 : k_procs s2 = imap _ _).
        split; [apply list_lookup_imap|]. intros y. apply woken_fields.
      * rewrite (f_equal k_procs E2 : k_procs s2 = imap _ _), length_imap. ksimp. by rewrite length_insert.
  - intros s' Hr. apply HQ. exact Hr.
Qed.

(** ** Every operation keeps the invariant *)

Definition keeps (s s' : kstate) : Prop :=
  ns_inv (k_procs s) (k_nss s) -> ns_inv (k_procs s') (k_nss s').

#[local] Instance keeps_preorder : PreOrder keeps.
Proof. split; [intros s H; exact H|intros s1 s2 s3; unfold keeps; auto]. Qed.
#[local] Hint Extern 1 (Blind keeps _) => (intros ? ?; exact id) : typeclass_instances.

Lemma keeps_setp i f : (forall p, p_ns (f p) = p_ns p /\ p_pids (f p) = p_pids p) -> segs keeps (setp i f).
Proof.
  intros Hf s. unfold setp. destruct (k_procs s !! i) as [p|] eqn:E; simpl; [|done].
  unfold keeps. ksimp. apply ns_inv_keep. destruct (Hf p) as [Hn Hp].
  rewrite list_fmap_insert, Hn, Hp. apply list_insert_id. by rewrite list_lookup_fmap, E.
Qed.
Lemma keeps_clear i f :
  (forall p, p_ns (f p) = None /\ p_pids (f p) = replicate (Z.to_nat MAXDEPTH) 0) -> segs keeps (setp i f).
Proof.
  intros Hf s. unfold setp. destruct (k_procs s !! i) as [p|] eqn:E; simpl; [|done].
  unfold keeps. ksimp. destruct (Hf p) as [Hn Hp]. intros H. apply ns_inv_clear; [done..|].
  by rewrite Hp, length_replicate.
Qed.
#[local] Instance keeps_sched_blind : SchedBlind keeps.
Proof.
  intros i f Hf _. apply keeps_setp. intros p. pose proof (Hf p) as E.
  split; [exact (f_equal p_ns E)|exact (f_equal p_pids E)].
Qed.
Lemma view_keeps s s' : proc_view s' = proc_view s -> keeps s s'.
Proof.
  intros E. unfold proc_view in E. injection E as Ep En _ _ _ _.
  unfold keeps. rewrite En. apply ns_inv_keep.
  apply (f_equal (fmap (fun p => (p_ns p, p_pids p)))) in Ep. rewrite <- !list_fmap_compose in Ep. exact Ep.
Qed.
Lemma keeps_view {A} (m : K A) : frame proc_view m -> segs keeps m.
Proof. apply segs_mono. exact view_keeps. Qed.
Lemma keeps_same {A} (m : K A) : frame tables m -> segs keeps m.
Proof.
  apply segs_mono. intros s s' E. apply tables_eq in E as (Ep & En & _). unfold keeps. by rewrite Ep, En.
Qed.
#[local] Hint Extern 2 (segs keeps (setp _ _)) => (apply keeps_setp; split; reflexivity) : segs.
#[local] Hint Extern 2 (segs keeps (setp _ _)) => (apply keeps_clear; split; reflexivity) : segs.

Lemma keeps_setns n f : (forall x, ns_parent (f x) = ns_parent x /\ ns_depth (f x) = ns_depth x /\
    ns_used (f x) = ns_used x /\ ns_next_ns_pid (f x) = ns_next_ns_pid x) -> segs keeps (setns n f).
Proof.
  intros Hf s. unfold setns. destruct (k_nss s !! n) as [x|] eqn:E; simpl; [|done].
  unfold keeps. ksimp. intros Hinv. destruct (Hf x) as (Hp & Hd & Hu & Hx).
  pose proof (same_shape_insert _ _ _ (f x) E Hp Hd) as Hsh. apply (ns_inv_same_shape (k_nss s)); [done|done|].
  intros m y Hy. destruct (decide (m = n)) as [->|].
  - rewrite list_lookup_insert_eq in Hy by by eapply lookup_lt_Some. simplify_eq. eauto.
  - rewrite list_lookup_insert_ne in Hy by done. eauto.
Qed.

Lemma keeps_freeproc i : segs keeps (freeproc i).
Proof. unfold freeproc. segs_tac. Qed.
#[local] Hint Resolve keeps_freeproc : segs.

Context {fl : FileLayer}.
#[local] Hint Extern 1 (segs keeps (filedup _)) => (apply keeps_view, filedup_frame) : segs.
#[local] Hint Extern 1 (segs keeps (fileclose _)) => (apply keeps_view, fileclose_frame) : segs.
#[local] Hint Extern 1 (segs keeps (idup _)) => (apply keeps_view, idup_frame) : segs.
#[local] Hint Extern 1 (segs keeps (iput _)) => (apply keeps_view, iput_frame) : segs.
#[local] Hint Extern 1 (segs keeps begin_op) => (apply keeps_view, begin_op_frame) : segs.
#[local] Hint Extern 1 (segs keeps end_op) => (apply keeps_view, end_op_frame) : segs.

Lemma keeps_fork_child p np : segs keeps (fork_child p np).
Proof. unfold fork_child, dup_files, set_name. segs_tac. Qed.
Lemma keeps_exit st : segs keeps (exit st).
Proof. unfold exit, close_files, exit_enter, reparent, me. segs_tac. Qed.
Lemma keeps_wait fuel addr : segs keeps (wait fuel addr).
Proof.
  unfold wait, me. segs_tac.
  match goal with |- segs _ (wait_loop _ ?p _) => generalize p end. intros p.
  assert (forall l k, segs keeps (wait_scan p addr l k)).
  { intros l. induction l; intros; cbn [wait_scan]; unfold wait_one; segs_tac. }
  induction fuel; cbn [wait_loop]; segs_tac.
Qed.
Lemma keeps_growproc n : segs keeps (growproc n).
Proof. unfold growproc. segs_tac. Qed.

(** fork and clone keep it as long as the pid counters have room. *)
Definition keeps_room (s s' : kstate) : Prop := room (k_nss s) -> keeps s s'.

Lemma keeps_room_of s s' : keeps s s' -> keeps_room s s'.
Proof. by intros H _. Qed.

Lemma keeps_fork : segs keeps_room fork.
Proof.
  intros s. unfold fork. apply oseg_step; [nosw_tac|]. intros p s1 E1. use_tables E1.
  apply oseg_step; [nosw_tac|]. intros x s2 [-> Hx]%getp_inv.
  apply oseg_step; [nosw_tac|]. intros np s3 E3.
  assert (Hk : keeps_room s s3).
  { intros Hroom Hinv. rewrite <- Ep, <- En in *.
    destruct (p_ns x) as [n|] eqn:Hn.
    - destruct (live_used _ _ _ _ _ Hinv Hx Hn) as (d & ? & ? & ?). by eapply ns_inv_allocproc.
    - by apply allocproc_null in E3 as (-> & -> & _)%tables_eq. }
  destruct np as [np|]; [|exact Hk].
  apply (oseg_last keeps); [apply keeps_fork_child| |apply keeps_room_of].
  intros s4 Hs4 Hroom Hinv. by apply Hs4, Hk.
Qed.

Lemma keeps_clone : segs keeps_room clone.
Proof.
  intros s. unfold clone. apply oseg_step; [nosw_tac|]. intros p s1 E1. use_tables E1.
  apply oseg_step; [nosw_tac|]. intros ns s2 E2. apply allocnamespace_inv in E2.
  destruct E2 as [(-> & (Ep2 & En2 & _)%tables_eq & _)|(n & x0 & -> & Hx0 & Hu & En2 & Ep2 & _)].
  { intros _. unfold keeps. by rewrite Ep2, En2, Ep, En. }
  apply oseg_step; [nosw_tac|]. intros x s3 [-> Hx]%getp_inv.
  apply oseg_step; [nosw_tac|]. intros [] s3 (y & Hy & ->)%setns_inv.
  apply oseg_step; [nosw_tac|]. intros pn s4 [-> Hpn]%deref_inv.
  apply oseg_step; [nosw_tac|]. intros pns s4 [-> Hpns]%getns_inv. ksimp.
  rewrite En2, Ep2, Ep, En, ?list_insert_insert_eq in *.
  destruct (MAXDEPTH <=? ns_depth pns + 1) eqn:Hdep.
  { intros _ Hinv. ksimp. rewrite Ep2. apply ns_inv_spare; [done|by eapply unused_spare|].
    apply list_lookup_insert_Some in Hy as [(_ & <- & _)|[[] _]]; done. }
  apply oseg_step; [nosw_tac|]. intros [] s5 (z & Hz & ->)%setns_inv. ksimp. rewrite list_insert_insert_eq.
  apply oseg_step; [nosw_tac|]. intros np s6 E6. lookups.
  assert (Hk : keeps_room s s6).
  { intros Hroom Hinv. rewrite Hpn in *.
    assert (pn <> n) by (intros ->; eapply (unused_spare _ _ _ _ Hinv Hx0 Hu); eauto; constructor).
    rewrite list_lookup_insert_ne in Hpns by done. apply Z.leb_gt in Hdep.
    set (y := (fresh_ns _) <| ns_parent := _ |> <| ns_depth := _ |>) in E6.
    destruct (ns_inv_child _ _ _ _ _ _ _ _ y Hinv Hx Hpn Hpns Hx0 Hu) as (Hinv' & d & Hd & Hc & Hus); [done..|].
    eapply ns_inv_allocproc in E6; ksimp; rewrite ?Ep2; try done. by apply room_insert. }
  destruct np as [np|]; [|exact Hk].
  apply (oseg_last keeps); [| |apply keeps_room_of].
  - apply segs_bind; [apply _| |intros _; apply keeps_fork_child]. by apply keeps_setns.
  - intros s7 Hs7 Hroom Hinv. by apply Hs7, Hk.
Qed.

Lemma keeps_kill pid : segs keeps (kill pid).
Proof. unfold kill, kill_one. segs_tac. Qed.
Lemma keeps_ps_list limit pids global : segs keeps (ps_list limit pids global).
Proof.
  unfold ps_list, ps_visible.
  assert (Hv : forall i, segs keeps (ps_visible i)) by (intros i; unfold ps_visible; segs_tac).
  assert (forall l c, segs keeps (ps_count l c)) by (intros l; induction l; intros; cbn [ps_count]; segs_tac).
  assert (forall l k lim, segs keeps (ps_copy l k lim pids global))
    by (intros l; induction l; intros; cbn [ps_copy]; segs_tac).
  segs_tac.
Qed.
Lemma keeps_ps_put cp ptr bs len k : segs keeps k -> segs keeps (ps_put cp ptr bs len k).
Proof. intros. unfold ps_put. segs_tac. Qed.
Lemma keeps_ps_info pid a : segs keeps (ps_info pid a).
Proof.
  unfold ps_info.
  assert (forall l c, segs keeps (ps_find pid l c)) by (intros l; induction l; intros; cbn [ps_find]; segs_tac).
  assert (forall c, segs keeps (ps_parent_pid c)) by (intros; unfold ps_parent_pid; segs_tac).
  repeat first [progress cbv zeta|apply keeps_ps_put|seg_step].
Qed.

(** ** The process system calls, interleaved *)

Inductive op : Type :=
| OFork | OClone | OExit (status : Z) | OWait (fuel : nat) (addr : Z) | OKill (pid : Z) | OYield
| OSleep (chan : channel) (lk : lockid) | OWakeup (chan : option channel) | OGrow (n : Z)
| OPsList (limit pids global : Z) | OPsInfo (pid psinfo : Z).

Definition run (o : op) : K Z :=
  match o with
  | OFork => fork
  | OClone => clone
  | OExit status => exit status ;! ret 0
  | OWait fuel addr => wait fuel addr
  | OKill pid => kill pid
  | OYield => yield ;! ret 0
  | OSleep chan lk => sleep chan lk ;! ret 0
  | OWakeup chan => wakeup chan ;! ret 0
  | OGrow n => growproc n
  | OPsList limit pids global => ps_list limit pids global
  | OPsInfo pid psinfo => ps_info pid psinfo
  end.

(** A thread that gave up the CPU, waiting to be resumed. *)
Definition thread : Type := kstate -> outcome kstate Z.

(** The state after a stretch of one thread, and the thread if it goes on. *)
Definition stretch (o : outcome kstate Z) (s' : kstate) (ts : list thread) : Prop :=
  match o with
  | Done _ s => s' = s /\ ts = []
  | Switch s k => s' = s /\ ts = [k]
  | _ => False
  end.

(** Calls start in any order, run up to the points where they give up the
    CPU and are resumed in any order; in between anything may happen that
    leaves [proc_view] alone: the scheduler, interrupts, user code. *)
Inductive reachable (s0 : kstate) : kstate -> list thread -> Prop :=
| reach_init : reachable s0 s0 []
| reach_call s ts o s' t : reachable s0 s ts -> room (k_nss s) -> stretch (run o s) s' t ->
    reachable s0 s' (t ++ ts)
| reach_resume s ts1 k ts2 s' t : reachable s0 s (ts1 ++ k :: ts2) -> room (k_nss s) -> stretch (k s) s' t ->
    reachable s0 s' (ts1 ++ t ++ ts2)
| reach_other s ts s' : reachable s0 s ts -> proc_view s' = proc_view s -> reachable s0 s' ts.

Lemma keeps_run o : segs keeps_room (run o).
Proof.
  destruct o; cbn [run]; [apply keeps_fork|apply keeps_clone|..];
    apply (segs_mono keeps); try apply keeps_room_of;
    auto using keeps_wait, keeps_kill, keeps_growproc, keeps_ps_list, keeps_ps_info.
  - apply segs_bind; [apply _|apply keeps_exit|segs_tac].
  - segs_tac.
  - segs_tac.
  - segs_tac.
Qed.

Definition thread_ok (k : thread) : Prop := forall s, oseg keeps_room s (k s).

Lemma stretch_ok o s s' t : oseg keeps_room s o -> stretch o s' t -> keeps_room s s' /\ Forall thread_ok t.
Proof.
  destruct o as [v s1|?|?| |s1 k]; simpl; try done.
  - intros H [-> ->]. split; [done|constructor].
  - intros [H1 H2] [-> ->]. split; [done|]. by repeat constructor.
Qed.

Lemma reachable_ns_inv s0 s ts : ns_inv (k_procs s0) (k_nss s0) -> reachable s0 s ts ->
  ns_inv (k_procs s) (k_nss s) /\ Forall thread_ok ts.
Proof.
  intros H0. induction 1 as [|s ts o s' t Hr IH Hroom Ht|s ts1 k ts2 s' t Hr IH Hroom Ht|s ts s' Hr IH Hv].
  - split; [done|constructor].
  - destruct IH as [Hi Hts]. destruct (stretch_ok _ s _ _ (keeps_run o s) Ht) as [Hk Hn].
    split; [by apply Hk|by apply Forall_app].
  - destruct IH as [Hi [H1 [Hk H2]%Forall_cons]%Forall_app]. destruct (stretch_ok _ s _ _ (Hk s) Ht) as [Hk' Hn].
    split; [by apply Hk'|]. apply Forall_app. split; [done|]. by apply Forall_app.
  - destruct IH as [Hi Hts]. split; [|done]. by eapply view_keeps.
Qed.

(** A new process gets the next pid of every namespace it is in.  From
    [found:] to the allocation of the trapframe, allocproc always returns;
    it leaves the entry in state USED, in the given namespace, with the
    kernel's next global pid; for each namespace at or above the given one
    the process's pid there is that namespace's counter, which moves on by
    one together with its process count; the other namespaces and entries are
    untouched. *)
Theorem new_pids s i p d n :
  hart_wf s -> pid_locks_free s -> k_procs s !! i = Some p -> length (p_pids p) = Z.to_nat MAXDEPTH ->
  chain (k_nss s) d n -> (d < Z.to_nat MAXDEPTH)%nat ->
  exists s' q, init_proc i (Some n) s = Done tt s' /\ hart_same s s' /\ k_procs s' = <[i := q]> (k_procs s) /\
    p_state q = USED /\ p_pid q = k_nextpid s /\ p_ns q = Some n /\
    (forall m x, anc (k_nss s) n m -> k_nss s !! m = Some x ->
       pid_at q x = Some (ns_next_ns_pid x) /\ k_nss s' !! m = Some (taken x)) /\
    (forall m, ~ anc (k_nss s) n m -> k_nss s' !! m = k_nss s !! m).
Proof.
  intros Hw Hf Hp Hl Hc Hd. destruct (init_proc_run s i p d n) as (s' & q & ? & ? & ? & ? & ? & ? & _ & ?); eauto 10.
Qed.


(** C31. reparent hands over exactly the children of the exiting process: each
    gets the head of its own nearest namespace that has one (its own, then
    its ancestors'), every other process keeps its parent, and pids,
    namespaces and exit states stay; it always returns. *)
Theorem reparent_spec p s :
  hart_wf s -> (forall i, Lproc i ∉ k_held s) -> Ltickslock ∉ k_held s ->
  length (k_procs s) = Z.to_nat NPROC -> children_chained p s ->
  exists s', reparent p s = Done tt s' /\ hart_same s s' /\ k_nss s' = k_nss s /\
    forall j x, k_procs s !! j = Some x -> exists x', k_procs s' !! j = Some x' /\
      p_ns x' = p_ns x /\ p_pids x' = p_pids x /\ p_pid x' = p_pid x /\ p_xstate x' = p_xstate x /\
      new_parent (k_nss s) p x (p_parent x').
Proof.
  intros Hw Hl Ht Hlen Hns. destruct (proj1 (wp_done (reparent p) s (fun _ s' => reparented p (Z.to_nat NPROC) s s')))
    as ([] & s' & E & [H1 H2 H3 H4]); [by apply wp_reparent|].
  exists s'. split; [done|]. split; [done|]. split; [done|]. intros j x Hx.
  destruct (H4 j x Hx) as (x' & Hr). rewrite decide_True in Hr by (apply lookup_lt_Some in Hx; lia). eauto.
Qed.

(** C37. The first process of a namespace does not hand over its children:
    the head of a namespace stays recorded when it exits, so reparent gives
    every child that lives in the same namespace the exiting process itself
    as its parent again. *)
Theorem exiting_head_keeps_children p s c x n d xn :
  hart_wf s -> (forall i, Lproc i ∉ k_held s) -> Ltickslock ∉ k_held s ->
  length (k_procs s) = Z.to_nat NPROC -> children_chained p s ->
  k_procs s !! c = Some x -> p_parent x = Some p -> p_ns x = Some n -> chain (k_nss s) d n ->
  k_nss s !! n = Some xn -> ns_head xn = Some p ->
  exists s' x', reparent p s = Done tt s' /\ k_procs s' !! c = Some x' /\ p_parent x' = Some p.
Proof.
  intros Hw Hl Ht Hlen Hns Hx Hp Hn Hc Hxn Hh.
  destruct (proj1 (wp_done (reparent p) s (fun _ s' => reparented p (Z.to_nat NPROC) s s')))
    as ([] & s' & E & [H1 H2 H3 H4]); [by apply wp_reparent|].
  destruct (H4 c x Hx) as (x' & Hx' & _ & _ & _ & _ & Hr).
  rewrite decide_True in Hr by (apply lookup_lt_Some in Hx; lia). unfold new_parent in Hr. rewrite decide_True in Hr by done.
  exists s', x'. split; [done|]. split; [done|]. rewrite (Hr d n Hn Hc). destruct d; simpl; by rewrite Hxn, Hh.
Qed.

(** C36. compare_ns decides visibility: for a namespace of a live process it
    always returns, leaves the state alone and answers whether the second
    namespace is the first one or one of its ancestors. *)
Theorem compare_ns_decides s i p n m :
  ns_inv (k_procs s) (k_nss s) -> k_procs s !! i = Some p -> p_ns p = Some n ->
  exists b, compare_ns (Some n) (Some m) s = Done b s /\ (b = true <-> anc (k_nss s) n m).
Proof.
  intros Hi Hp Hn. destruct (inv_chain _ _ Hi _ _ _ Hp Hn) as (d & Hd & Hc). by apply (compare_ns_eq s d).
Qed.

(** C38. clone at the depth limit leaks a namespace: for a caller at depth
    MAXDEPTH - 1 it takes a free entry of the namespace table before it looks
    at the depth, returns -1 and leaves the entry in use, so that repeated
    attempts use the table up. *)
Theorem clone_at_limit_leaks s m y pn pns :
  hart_wf s -> (forall n, Lns n ∉ k_held s) -> Lns_lock ∉ k_held s -> length (k_nss s) = Z.to_nat NUMNS ->
  c_proc (k_cpu s) = Some m -> k_procs s !! m = Some y -> p_ns y = Some pn -> k_nss s !! pn = Some pns ->
  ns_used pns <> 0 -> MAXDEPTH <= ns_depth pns + 1 ->
  (exists n x, (n < Z.to_nat NUMNS)%nat /\ k_nss s !! n = Some x /\ ns_used x = 0) ->
  exists s' n x, clone s = Done (-1) s' /\ k_nss s !! n = Some x /\ ns_used x = 0 /\
    k_nss s' = <[n := (fresh_ns (k_nextnamespace s)) <| ns_parent := Some pn |>]> (k_nss s) /\
    k_procs s' = k_procs s.
Proof.
  intros Hw Hf Hf2 Hlen Hm Hy Hpn Hpns Hu Hdep (n1 & x1 & Hn1 & Hx1 & Hu1).
  cut (wp clone s (fun v s' => v = -1 /\ exists n x, k_nss s !! n = Some x /\ ns_used x = 0 /\
    k_nss s' = <[n := (fresh_ns (k_nextnamespace s)) <| ns_parent := Some pn |>]> (k_nss s) /\
    k_procs s' = k_procs s)).
  { intros (v & s' & E & -> & n & x & ?)%wp_done. exists s', n, x. done. }
  unfold clone, me. apply wp_bind, wp_bind, wp_myproc; [done|]. intros s1 [H1 E1]. rewrite Hm.
  eapply wp_eq; [reflexivity|]. assert (Ep : k_procs s1 = k_procs s) by exact (f_equal k_procs E1).
  assert (En : k_nss s1 = k_nss s) by exact (f_equal k_nss E1).
  assert (Ei : k_nextnamespace s1 = k_nextnamespace s) by exact (f_equal k_nextnamespace E1).
  pose proof H1 as [Hh _]. apply wp_bind, wp_allocnamespace; rewrite ?Hh, ?En; try done; [by eapply hart_same_wf|].
  intros r s2 H2 Hns. unfold ns_alloc in Hns. rewrite Ep, En, Ei in Hns.
  destruct Hns as [(_ & _ & Hno)|(n & x & -> & Hx & Hxu & En2 & Ep2 & _)].
  { exfalso. apply (Hno n1 x1); [|done..]. apply elem_of_seq. lia. }
  assert (Hne : pn <> n) by congruence.
  apply wp_bind, (wp_getp _ _ y); [by rewrite Ep2|]. apply wp_bind. eapply wp_setns.
  { rewrite En2. apply list_lookup_insert_eq. by eapply lookup_lt_Some. }
  rewrite Hpn. apply wp_bind. eapply wp_eq; [reflexivity|]. apply wp_bind. eapply wp_eq.
  { apply getns_done. ksimp. rewrite En2, !list_lookup_insert_ne by done. exact Hpns. }
  rewrite (proj2 (Z.leb_le _ _)) by lia. apply wp_ret. split; [done|]. exists n, x. ksimp.
  rewrite En2, list_insert_insert_eq. done.
Qed.

(** C4. Pids are unique in every namespace.  Start from any state in which
    [ns_inv] holds, and let fork, clone, exit, wait, kill, yield, sleep,
    wakeup, growproc, ps_list and ps_info be called in any order, each run
    up to its context switches and be resumed in any order, with anything
    in between that leaves the process view alone.  While no pid counter has
    reached the largest int, two processes at or below a namespace have
    different pids in it, every such pid is positive and below the
    namespace's counter, and every process hangs in a chain of fewer than
    MAXDEPTH namespaces in use. *)
Theorem pids_unique s0 s ts :
  ns_inv (k_procs s0) (k_nss s0) -> reachable s0 s ts ->
  (forall i p n, k_procs s !! i = Some p -> p_ns p = Some n ->
     (exists d, (d < Z.to_nat MAXDEPTH)%nat /\ chain (k_nss s) d n) /\
     forall m x, anc (k_nss s) n m -> k_nss s !! m = Some x ->
       ns_used x <> 0 /\ exists v, pid_at p x = Some v /\ 1 <= v < ns_next_ns_pid x) /\
  (forall i j p q n n' m x, i <> j -> k_procs s !! i = Some p -> k_procs s !! j = Some q ->
     p_ns p = Some n -> p_ns q = Some n' -> anc (k_nss s) n m -> anc (k_nss s) n' m ->
     k_nss s !! m = Some x -> pid_at p x <> pid_at q x).
Proof.
  intros H0 Hr. destruct (reachable_ns_inv _ _ _ H0 Hr) as [Hi _]. split; [|apply Hi].
  intros i p n Hp Hn. split; [by eapply (inv_chain _ _ Hi)|]. intros m x Ha Hx.
  split; [by eapply (inv_used _ _ Hi)|by eapply (inv_pid _ _ Hi)].
Qed.

End runs.

(** ** Examples *)

(** A file layer with nothing in it. *)
Definition no_files : FileLayer.
Proof.
  refine {| filedup := fun f => ret f; fileclose := fun _ => ret tt; idup := fun ip => ret ip;
    iput := fun _ => ret tt; begin_op := ret tt; end_op := ret tt; namei := fun _ => ret None |};
    intros; apply segs_ret; apply _.
Defined.

(** The initial process runs in the initial namespace; memory is used up. *)
Definition ex_init : proc :=
  zero_proc <| p_state := RUNNING |> <| p_pid := 1 |> <| p_ns := Some 0%nat |> <| p_pids := [1; 0; 0; 0; 0; 0; 0; 0] |>.
Definition ex_root_ns : namespace := mkNamespace None (Some 0%nat) 1 0 1 2 1.
Definition ex_procs : list proc := ex_init :: replicate 63 zero_proc.
Definition ex_nss : list namespace := ex_root_ns :: replicate 63 (zero_namespace <| ns_next_ns_pid := 1 |>).
Definition ex_ns : kstate :=
  bss <| k_procs := ex_procs |> <| k_nss := ex_nss |> <| k_nextpid := 2 |> <| k_initproc := Some 0%nat |>
    <| k_initns := Some 0%nat |> <| k_cpu := mkCpu (Some 0%nat) 0 false false 0 |>.

Lemma ex_procs_lookup i p : ex_procs !! i = Some p -> (i = 0%nat /\ p = ex_init) \/ p = zero_proc.
Proof. destruct i; [left; by simplify_eq/=|]. intros [-> _]%lookup_replicate. by right. Qed.
Lemma ex_anc m : anc ex_nss 0 m -> m = 0%nat.
Proof. inversion 1; by simplify_eq/=. Qed.
Lemma ex_ns_inv : ns_inv (k_procs ex_ns) (k_nss ex_ns).
Proof.
  change (ns_inv ex_procs ex_nss). split.
  - intros i p [[_ ->]| ->]%ex_procs_lookup; done.
  - intros [|m] x; [by intros [= <-]|]. by intros [-> _]%lookup_replicate.
  - intros i p n [[_ ->]| ->]%ex_procs_lookup [= <-]. exists 0%nat. split; [apply Nat.ltb_lt; reflexivity|]. by exists ex_root_ns.
  - intros i p n m x [[_ ->]| ->]%ex_procs_lookup [= <-] ->%ex_anc [= <-]. done.
  - intros i p n m x [[_ ->]| ->]%ex_procs_lookup [= <-] ->%ex_anc [= <-]. exists 1. done.
  - intros i j p q n n' m x Hij [[-> ->]| ->]%ex_procs_lookup [[-> ->]| ->]%ex_procs_lookup; done.
Qed.

Lemma ex_chain : chain (k_nss ex_ns) 0 0.
Proof. by exists ex_root_ns. Qed.

Lemma new_pids_witness :
  exists s' q, init_proc 1 (Some 0%nat) ex_ns = Done tt s' /\ k_procs s' !! 1%nat = Some q /\
    pid_at q ex_root_ns = Some 2.
Proof.
  destruct (new_pids ex_ns 1 zero_proc 0 0) as (s' & q & E & _ & Hp & _ & _ & _ & Ha & _);
    [done| |done|done|exact ex_chain|apply Nat.ltb_lt; reflexivity|].
  - repeat split; intros; apply not_elem_of_nil.
  - exists s', q. split; [exact E|]. split; [rewrite Hp; reflexivity|].
    apply (Ha 0%nat ex_root_ns); [constructor|reflexivity].
Defined.


(** Process 1 is the head of namespace 1, a child of the root, and has a
    child there. *)
Definition ex_head : kstate :=
  ex_ns <| k_procs := ex_init :: zero_proc <| p_ns := Some 1%nat |> <| p_parent := Some 0%nat |>
                      :: zero_proc <| p_ns := Some 1%nat |> <| p_parent := Some 1%nat |> :: replicate 61 zero_proc |>
        <| k_nss := ex_root_ns :: mkNamespace (Some 0%nat) (Some 1%nat) 2 1 1 3 2 :: replicate 62 zero_namespace |>.
Lemma ex_head_chain : chain (k_nss ex_head) 1 1.
Proof. eexists. do 2 (split; [reflexivity|]). exists 0%nat. split; [reflexivity|]. by exists ex_root_ns. Qed.
Lemma ex_head_children : children_chained 1 ex_head.
Proof.
  intros [|[|[|j]]] x Hx Hp; try (injection Hx as <-; done).
  - exists 1%nat, 1%nat. injection Hx as <-. split; [done|]. split; [apply Nat.ltb_lt; reflexivity|exact ex_head_chain].
  - by apply lookup_replicate in Hx as [-> _].
Qed.

Lemma reparent_spec_witness :
  exists s' x', reparent 1 ex_head = Done tt s' /\ k_procs s' !! 2%nat = Some x' /\ p_ns x' = Some 1%nat.
Proof.
  destruct (reparent_spec 1 ex_head) as (s' & E & _ & _ & H);
    [done|intros i; apply not_elem_of_nil|apply not_elem_of_nil|done|exact ex_head_children|].
  destruct (H 2%nat _ eq_refl) as (x' & Hx' & Hn & _). exists s', x'. split; [exact E|]. split; [exact Hx'|exact Hn].
Defined.

Lemma exiting_head_keeps_children_witness :
  exists s' x', reparent 1 ex_head = Done tt s' /\ k_procs s' !! 2%nat = Some x' /\ p_parent x' = Some 1%nat.
Proof.
  eapply (exiting_head_keeps_children 1 ex_head 2); try reflexivity.
  - done.
  - intros i; apply not_elem_of_nil.
  - apply not_elem_of_nil.
  - exact ex_head_children.
  - exact ex_head_chain.
Defined.

Lemma compare_ns_decides_witness :
  exists b, compare_ns (Some 0%nat) (Some 0%nat) ex_ns = Done b ex_ns /\ (b = true <-> anc (k_nss ex_ns) 0 0).
Proof. apply (compare_ns_decides ex_ns 0 ex_init 0 0); [exact ex_ns_inv|reflexivity|reflexivity]. Defined.

(** The caller sits at the largest depth. *)
Definition ex_deep : kstate :=
  ex_ns <| k_nss := mkNamespace None (Some 0%nat) 1 7 1 2 1 :: replicate 63 zero_namespace |>.
Lemma clone_at_limit_leaks_witness :
  exists s' n x, clone (img := sample_image) (fl := no_files) ex_deep = Done (-1) s' /\
    k_nss ex_deep !! n = Some x /\ ns_used x = 0 /\
    k_nss s' = <[n := (fresh_ns 1) <| ns_parent := Some 0%nat |>]> (k_nss ex_deep) /\ k_procs s' = k_procs ex_deep.
Proof.
  apply (clone_at_limit_leaks (img := sample_image) (fl := no_files) ex_deep 0 ex_init 0
    (mkNamespace None (Some 0%nat) 1 7 1 2 1)); try done.
  - intros n. apply not_elem_of_nil.
  - apply not_elem_of_nil.
  - exists 1%nat, zero_namespace. split; [apply Nat.ltb_lt; reflexivity|]. by split.
Defined.

(** A fork that finds no memory: the entry is given back, the pid is gone. *)
Definition ex_fork : kstate :=
  match run (img := sample_image) (fl := no_files) OFork ex_ns with Done _ s => s | _ => ex_ns end.

Lemma pids_unique_witness :
  ns_inv (k_procs ex_ns) (k_nss ex_ns) /\ reachable (img := sample_image) (fl := no_files) ex_ns ex_fork [] /\
  exists x v, k_nss ex_fork !! 0%nat = Some x /\ pid_at ex_init x = Some v /\ 1 <= v < ns_next_ns_pid x.
Proof.
  assert (Hr : reachable (img := sample_image) (fl := no_files) ex_ns ex_fork []).
  { apply (reach_call ex_ns ex_ns [] OFork ex_fork []); [apply reach_init| |].
    - intros [|m] x; [by intros [= <-]|]. by intros [-> _]%lookup_replicate.
    - vm_compute. by split. }
  split; [exact ex_ns_inv|]. split; [exact Hr|].
  destruct (pids_unique (img := sample_image) (fl := no_files) ex_ns ex_fork [] ex_ns_inv Hr) as [H _].
  destruct (H 0%nat _ 0%nat ltac:(vm_compute; reflexivity) eq_refl) as [_ H'].
  destruct (H' 0%nat _ (anc_refl _ _) ltac:(vm_compute; reflexivity)) as (_ & v & Hv & Hb).
  eexists _, v. split; [vm_compute; reflexivity|]. split; [exact Hv|exact Hb].
Defined.

End Namespace.
Export Namespace.
