(* ===== verification/PsList.v ===== *)
(** * The ps_list system call

    ps_list counts the processes at or below the caller's namespace and
    copies the pids of the first ones to the caller's memory.  Here its result
    and the bytes it writes are characterised. *)

From S2P Require Import Prelude State Spinlock CString Mem Kalloc Vm PageTable Sched FileLayer Proc Namespace.

Module PsList.

(** [s'] is [s] up to user memory and the dead [intena]. *)
Definition mem_eq (s s' : kstate) : Prop :=
  hart_same s s' /\ nohart s' = nohart (s <| k_mem := k_mem s' |>).

Lemma hart_mem_eq s s' : hart_eq s s' -> mem_eq s s' /\ k_mem s' = k_mem s.
Proof.
  intros [H E]. assert (Em : k_mem s' = k_mem s) by exact (f_equal k_mem E). split; [|done]. split; [done|].
  rewrite E. rewrite Em. by destruct s.
Qed.
Lemma mem_eq_trans s1 s2 s3 : mem_eq s1 s2 -> mem_eq s2 s3 -> mem_eq s1 s3.
Proof.
  intros [H1 E1] [H2 E2]. split; [by etrans|]. rewrite E2.
  change ((nohart s2) <| k_mem := k_mem s3 |> = nohart (s1 <| k_mem := k_mem s3 |>)). rewrite E1. reflexivity.
Qed.
Lemma mem_eq_refl s : mem_eq s s.
Proof. split; [reflexivity|]. by destruct s. Qed.

(** The namespace [n0] is that of process [i] or above it, and [i] is in use. *)
Definition sees (s : kstate) (n0 i : nat) : Prop :=
  exists x n, k_procs s !! i = Some x /\ p_state x <> UNUSED /\ p_ns x = Some n /\ anc (k_nss s) n n0.

Definition seesb (s : kstate) (n0 i : nat) : bool :=
  match k_procs s !! i with
  | Some x => bool_decide (p_state x <> UNUSED) &&
      match compare_ns (p_ns x) (Some n0) s with Done b _ => b | _ => false end
  | None => false
  end.

Lemma seesb_sees s n0 i : ns_inv (k_procs s) (k_nss s) -> seesb s n0 i = true <-> sees s n0 i.
Proof.
  intros Hinv. unfold seesb, sees. destruct (k_procs s !! i) as [x|] eqn:Hx; [|naive_solver].
  destruct (p_ns x) as [n|] eqn:Hn.
  - destruct (inv_chain _ _ Hinv _ _ _ Hx Hn) as (d & Hd & Hc).
    destruct (compare_ns_eq s d n n0 Hc Hd) as (b & -> & Hb). rewrite andb_true_iff, bool_decide_eq_true, Hb.
    naive_solver.
  - change (compare_ns None (Some n0) s) with (@Done kstate bool false s).
    rewrite andb_false_r. naive_solver.
Qed.
Lemma seesb_ext s s' n0 i : ns_inv (k_procs s) (k_nss s) -> k_procs s' = k_procs s -> k_nss s' = k_nss s ->
  seesb s' n0 i = seesb s n0 i.
Proof.
  intros Hinv Ep En. apply eq_bool_prop_intro. rewrite !Is_true_true, !seesb_sees by (by rewrite ?Ep, ?En).
  unfold sees. by rewrite Ep, En.
Qed.

Section ps.
Context {img : Image}.

Lemma wp_me s m (Q : nat -> kstate -> Prop) : hart_wf s -> c_proc (k_cpu s) = Some m ->
  (forall s', hart_eq s s' -> Q m s') -> wp me s Q.
Proof.
  intros Hw Hm HQ. unfold me. apply wp_bind, wp_myproc; [done|]. intros s' Hs. rewrite Hm.
  eapply wp_eq; [reflexivity|]. auto.
Qed.

(** The caller: process [m] with entry [y] in namespace [n0] with entry [x0]. *)
Record caller (s : kstate) (m : nat) (y : proc) (n0 : nat) (x0 : namespace) : Prop := {
  cl_wf : hart_wf s;
  cl_free i : Lproc i ∉ k_held s;
  cl_proc : c_proc (k_cpu s) = Some m;
  cl_len : length (k_procs s) = Z.to_nat NPROC;
  cl_inv : ns_inv (k_procs s) (k_nss s);
  cl_me : k_procs s !! m = Some y;
  cl_ns : p_ns y = Some n0;
  cl_nsx : k_nss s !! n0 = Some x0;
}.
Lemma caller_mem s s' m y n0 x0 : mem_eq s s' -> caller s m y n0 x0 -> caller s' m y n0 x0.
Proof.
  intros [Hh E] [Hw Hf Hp Hl Hi Hy Hn Hx]. pose proof (f_equal k_procs E : k_procs s' = k_procs s) as Ep.
  pose proof (f_equal k_nss E : k_nss s' = k_nss s) as En.
  split; [by eapply hart_same_wf|..]; rewrite ?Ep, ?En; try done.
  - destruct Hh as [-> _]. done.
  - destruct Hh as (_ & -> & _). done.
Qed.
Lemma seesb_mem s s' m y n0 x0 i : mem_eq s s' -> caller s m y n0 x0 -> seesb s' n0 i = seesb s n0 i.
Proof.
  intros [Hh E] Hc. apply seesb_ext; [apply Hc|exact (f_equal k_procs E)|exact (f_equal k_nss E)].
Qed.

Lemma wp_ps_visible s m y n0 x0 i (Q : bool -> kstate -> Prop) :
  caller s m y n0 x0 -> (i < Z.to_nat NPROC)%nat ->
  (forall s', hart_eq s s' -> Q (seesb s n0 i) s') -> wp (ps_visible i) s Q.
Proof.
  intros Hc Hi HQ. pose proof Hc as [Hw _ Hp Hl Hinv Hy Hn _]. unfold ps_visible.
  assert (is_Some (k_procs s !! i)) as [x Hx] by (apply lookup_lt_is_Some_2; lia).
  apply wp_bind. apply (wp_getp _ _ x); [done|]. case_decide as Hst.
  { apply wp_ret. replace false with (seesb s n0 i); [by apply HQ|]. unfold seesb. rewrite Hx, bool_decide_eq_false_2; [done|naive_solver]. }
  apply wp_bind, (wp_me _ m); [done..|]. intros s1 H1. destruct (hart_mem_eq _ _ H1) as [M1 _].
  destruct M1 as [_ E1]. pose proof (f_equal k_procs E1 : k_procs s1 = k_procs s) as Ep.
  pose proof (f_equal k_nss E1 : k_nss s1 = k_nss s) as En.
  apply wp_bind, (wp_getp _ _ y); [by rewrite Ep|]. rewrite Hn.
  specialize (HQ s1 H1). rewrite <- (seesb_ext s s1) in HQ by done.
  unfold seesb in HQ. rewrite Ep, Hx, bool_decide_eq_true_2 in HQ by done. simpl in HQ.
  destruct (p_ns x) as [n|] eqn:Hxn; [|by eapply wp_eq].
  destruct (inv_chain _ _ Hinv _ _ _ Hx Hxn) as (d & Hd & Hch). rewrite <- En in Hch.
  destruct (compare_ns_eq s1 d n n0 Hch Hd) as (b & Eb & _). rewrite Eb in HQ. by eapply wp_eq.
Qed.

Lemma wp_ps_count s m y n0 x0 l c (Q : Z -> kstate -> Prop) :
  caller s m y n0 x0 -> (forall i, i ∈ l -> (i < Z.to_nat NPROC)%nat) ->
  (forall s', hart_eq s s' -> Q (c + Z.of_nat (length (filter (fun i => seesb s n0 i) l))) s') ->
  wp (ps_count l c) s Q.
Proof.
  revert s c. induction l as [|i l IH]; intros s c Hc Hl HQ; cbn [ps_count].
  { apply wp_ret. replace c with (c + 0) by lia. by apply HQ. }
  apply wp_bind. eapply wp_ps_visible; [done|apply Hl; left|]. intros s1 H1.
  destruct (hart_mem_eq _ _ H1) as [M1 _].
  apply IH; [by eapply caller_mem|intros; apply Hl; by right|]. intros s2 H2.
  specialize (HQ s2 ltac:(by etrans)). rewrite filter_cons in HQ.
  rewrite (list_filter_iff _ (fun i => seesb s n0 i)) by (intros j; by rewrite (seesb_mem _ _ _ _ _ _ _ M1 Hc)).
  destruct (seesb s n0 i); case_decide; try done; simpl in HQ.
  by replace (c + 1 + _) with (c + Z.of_nat (S (length (filter (fun i => seesb s n0 i) l)))) by lia.
Qed.

(** The pid ps_list reports for process [i] to a caller in namespace [x0]. *)
Definition ps_pid (s : kstate) (x0 : namespace) (global : Z) (i : nat) : Z :=
  match k_procs s !! i with
  | Some x => if global =? 1 then p_pid x else default 0 (pid_at x x0)
  | None => 0
  end.

Lemma ps_pid_mem s s' x0 global i : mem_eq s s' -> ps_pid s' x0 global i = ps_pid s x0 global i.
Proof. intros [_ E]. unfold ps_pid. by rewrite (f_equal k_procs E : k_procs s' = k_procs s). Qed.

Lemma wp_getpid_at s0 s m y n0 x0 i x (Q : Z -> kstate -> Prop) :
  caller s0 m y n0 x0 -> k_procs s = k_procs s0 -> k_procs s !! i = Some x -> Q (default 0 (pid_at x x0)) s ->
  wp (getpid_at i (ns_depth x0)) s Q.
Proof.
  intros Hc Ep Hx HQ. unfold getpid_at. apply wp_bind, (wp_getp _ _ x); [done|].
  destruct (inv_chain _ _ (cl_inv _ _ _ _ _ Hc) _ _ _ (cl_me _ _ _ _ _ Hc) (cl_ns _ _ _ _ _ Hc)) as (d & Hd & Hch).
  pose proof (chain_depth _ _ _ _ Hch (cl_nsx _ _ _ _ _ Hc)) as Hdx.
  rewrite (proj2 (Z.ltb_ge _ _)) by lia. unfold pid_at in HQ.
  destruct (lookup_lt_is_Some_2 (p_pids x) (Z.to_nat (ns_depth x0))) as [v Hv].
  { rewrite Ep in Hx. rewrite (inv_len _ _ (cl_inv _ _ _ _ _ Hc) _ _ Hx). lia. }
  rewrite Hv in *. by eapply wp_eq.
Qed.

(** One round of the copying loop for a process the caller sees. *)
Lemma wp_ps_one s m y n0 x0 T i index limit pids global l (Q : option Z -> kstate -> Prop) :
  caller s m y n0 x0 -> 0 < sym_end -> pt (k_mem s) (p_pagetable y) T -> frames_ok (k_mem s) T ->
  (i < Z.to_nat NPROC)%nat -> seesb s n0 i = true -> 0 <= index < limit -> 0 <= pids ->
  range_ok (k_mem s) T (pids + 4 * index) 4 ->
  (forall s', mem_eq s s' ->
     uwrite (k_mem s) (k_mem s') (p_pagetable y) T (pids + 4 * index) (bytes_of_int (ps_pid s x0 global i)) ->
     wp (ps_copy l (index + 1) limit pids global) s' Q) ->
  wp (ps_copy (i :: l) index limit pids global) s Q.
Proof.
  intros Hc Himg Hpt Hfr Hi Hsee Hidx Hpids Hrange HQ. cbn [ps_copy].
  apply wp_bind. eapply wp_ps_visible; [done..|]. intros s1 H1. rewrite Hsee. simpl.
  rewrite (proj2 (Z.ltb_lt _ _)) by lia. destruct (hart_mem_eq _ _ H1) as [M1 Em1].
  pose proof (caller_mem _ _ _ _ _ _ M1 Hc) as Hc1. pose proof Hc1 as [Hw1 Hf1 Hp1 Hl1 Hi1 Hy1 Hn1 Hx1].
  assert (is_Some (k_procs s1 !! i)) as [x Hx] by (apply lookup_lt_is_Some_2; lia).
  apply wp_bind, wp_acquire; [done|]. 
  assert (Hwl : hart_wf (locked (Lproc i) s1)) by by apply locked_wf.
  apply wp_bind, (wp_getp _ _ x); [done|]. apply wp_bind, (wp_me _ m); [done|by ksimp|].
  intros s2 H2. destruct (hart_mem_eq _ _ H2) as [[_ E2] Em2].
  pose proof (f_equal k_procs E2 : k_procs s2 = k_procs s1) as Ep2.
  pose proof (f_equal k_nss E2 : k_nss s2 = k_nss s1) as En2.
  apply wp_bind, (wp_getp _ _ y); [by rewrite Ep2|]. rewrite Hn1. apply wp_bind. eapply wp_eq; [reflexivity|].
  apply wp_bind. eapply wp_eq; [apply getns_done; by rewrite En2|].
  apply wp_bind. apply (wp_getpid_at s1 s2 m y n0 x0 i x); [done|done|by rewrite Ep2|].
  assert (Hpid : (if global =? 1 then p_pid x else default 0 (pid_at x x0)) = ps_pid s x0 global i).
  { rewrite <- (ps_pid_mem s s1) by done. unfold ps_pid. by rewrite Hx. }
  rewrite Hpid. apply wp_bind, (wp_me _ m); [by eapply hart_same_wf; [apply H2|]|by destruct H2 as [(_ & -> & _) _]; ksimp|].
  intros s3 H3. destruct (hart_mem_eq _ _ H3) as [[_ E3] Em3].
  pose proof (f_equal k_procs E3 : k_procs s3 = k_procs s2) as Ep3.
  apply wp_bind, (wp_getp _ _ y); [by rewrite Ep3, Ep2|].
  assert (Em : k_mem s3 = k_mem s). { rewrite Em3, Em2. ksimp. exact Em1. }
  assert (Hb : pids + 4 * index < MAXVA) by (apply (user_pa_below (k_mem s) T), Hrange; lia).
  assert (MAXVA = 2 ^ 38) by reflexivity. rewrite (u64_small (pids + index * 4)) by lia.
  replace (pids + index * 4) with (pids + 4 * index) by lia.
  destruct (copyout_eq s3 (p_pagetable y) T (pids + 4 * index) (bytes_of_int (ps_pid s x0 global i)) 4)
    as (s4 & Hs4 & [(_ & E & Hwr)|(k & Hk & _ & Hz & _)]); rewrite ?Em in *; try done; try lia.
  2: { exfalso. by apply (Hrange (pids + 4 * index + k)); [lia|]. }
  apply wp_bind. eapply wp_eq; [exact E|].
  assert (Hh4 : hart_same (locked (Lproc i) s1) s4).
  { etrans; [apply H2|]. etrans; [apply H3|]. rewrite Hs4. by repeat split. }
  apply wp_bind. apply (wp_unlock (Lproc i) s1); [done..|]. intros s5 Hh5 E5. simpl.
  assert (Em5 : k_mem s5 = k_mem s4) by exact (f_equal k_mem E5).
  apply HQ; [|by rewrite Em5]. split; [etrans; [apply M1|done]|].
  rewrite E5, Em5, Hs4. ksimp. generalize (k_mem s4). intros mm.
  change ((nohart s3) <| k_mem := mm |> = (nohart s) <| k_mem := mm |>). f_equal.
  destruct H1 as [_ N1], H2 as [_ N2], H3 as [_ N3]. by rewrite N3, N2, nohart_locked, N1.
Qed.

(** One round for a process that is not copied. *)
Lemma wp_ps_skip s m y n0 x0 i index limit pids global l (Q : option Z -> kstate -> Prop) :
  caller s m y n0 x0 -> (i < Z.to_nat NPROC)%nat -> seesb s n0 i && (index <? limit) = false ->
  (forall s', mem_eq s s' -> k_mem s' = k_mem s -> wp (ps_copy l index limit pids global) s' Q) ->
  wp (ps_copy (i :: l) index limit pids global) s Q.
Proof.
  intros Hc Hi Hno HQ. cbn [ps_copy]. apply wp_bind. eapply wp_ps_visible; [done..|]. intros s1 H1. rewrite Hno.
  destruct (hart_mem_eq _ _ H1). auto.
Qed.

(** The pids of a list of processes, as ps_list lays them out. *)
Definition pid_bytes (s : kstate) (x0 : namespace) (global : Z) (l : list nat) : list Z :=
  l ≫= (fun i => bytes_of_int (ps_pid s x0 global i)).

Lemma pid_bytes_cons s x0 global i l :
  pid_bytes s x0 global (i :: l) = bytes_of_int (ps_pid s x0 global i) ++ pid_bytes s x0 global l.
Proof. reflexivity. Qed.
Lemma pid_bytes_mem s s' x0 global l : mem_eq s s' -> pid_bytes s' x0 global l = pid_bytes s x0 global l.
Proof.
  intros Hm. induction l as [|i l IH]; [done|]. by rewrite !pid_bytes_cons, IH, (ps_pid_mem s s').
Qed.

Lemma wp_ps_copy l s m y n0 x0 T index limit pids global (Q : option Z -> kstate -> Prop) :
  let vs := take (Z.to_nat (limit - index)) (filter (fun i => seesb s n0 i) l) in
  caller s m y n0 x0 -> 0 < sym_end -> pt (k_mem s) (p_pagetable y) T -> frames_ok (k_mem s) T ->
  (forall i, i ∈ l -> (i < Z.to_nat NPROC)%nat) -> 0 <= index -> 0 <= pids ->
  range_ok (k_mem s) T (pids + 4 * index) (4 * Z.of_nat (length vs)) ->
  (forall s' r, mem_eq s s' ->
     uwrite (k_mem s) (k_mem s') (p_pagetable y) T (pids + 4 * index) (pid_bytes s x0 global vs) ->
     Q (Some r) s') ->
  wp (ps_copy l index limit pids global) s Q.
Proof.
  revert s index. induction l as [|i l IH]; intros s index vs Hc Himg Hpt Hfr Hl Hidx Hpids Hr HQ.
  { apply wp_ret. apply HQ; [apply mem_eq_refl|]. unfold vs. rewrite filter_nil, take_nil. by apply uwrite_nil. }
  unfold vs in *. rewrite filter_cons in *.
  destruct (decide (seesb s n0 i)) as [Hsee|Hsee]; [apply Is_true_true in Hsee|].
  - destruct (Z.ltb_spec index limit) as [Hlt|Hge].
    + replace (Z.to_nat (limit - index)) with (S (Z.to_nat (limit - (index + 1)))) in * by lia.
      cbn [take length] in *. 
      eapply wp_ps_one; try done; [apply Hl; left| |].
      { intros a Ha. apply Hr. lia. }
      intros s1 M1 W1. pose proof W1 as [Wp Wt _ _].
      assert (Hf : filter (fun i => seesb s1 n0 i) l = filter (fun i => seesb s n0 i) l)
        by (apply list_filter_iff; intros j; by rewrite (seesb_mem _ _ _ _ _ _ _ M1 Hc)).
      apply IH; rewrite ?Hf; try done.
      * by eapply caller_mem.
      * by eapply frames_ok_pte.
      * intros; apply Hl; by right.
      * lia.
      * intros a Ha. rewrite (user_pa_pte _ _ _ Wp). apply Hr. lia.
      * intros s2 r M2 W2. apply (HQ s2 r); [by eapply mem_eq_trans|]. rewrite pid_bytes_cons.
        eapply uwrite_app; [done|]. rewrite (pid_bytes_mem s s1) in W2 by done.
        by replace (pids + 4 * index + _) with (pids + 4 * (index + 1)) by (simpl; lia).
    + replace (Z.to_nat (limit - index)) with 0%nat in * by lia.
      apply (wp_ps_skip s m y n0 x0); [done|apply Hl; left|by rewrite (proj2 (Z.ltb_ge _ _)), andb_false_r by lia|].
      intros s1 M1 Em. rewrite <- Em in *. eapply IH; try done; [by eapply caller_mem|intros; apply Hl; by right|..];
        replace (Z.to_nat (limit - index)) with 0%nat by lia; [done|].
      intros s2 r M2 W2. apply (HQ s2 r); [by eapply mem_eq_trans|done].
  - apply (wp_ps_skip s m y n0 x0); [done|apply Hl; left|by destruct (seesb s n0 i)|].
    intros s1 M1 Em. rewrite <- Em in *.
    assert (Hf : filter (fun i => seesb s1 n0 i) l = filter (fun i => seesb s n0 i) l)
      by (apply list_filter_iff; intros j; by rewrite (seesb_mem _ _ _ _ _ _ _ M1 Hc)).
    eapply IH; rewrite ?Hf; try done; [by eapply caller_mem|intros; apply Hl; by right|].
    intros s2 r M2 W2. rewrite (pid_bytes_mem s s1) in W2 by done. apply (HQ s2 r); [by eapply mem_eq_trans|done].
Qed.

Lemma take_limit {A} (vs : list A) limit :
  take (Z.to_nat (if Z.of_nat (length vs) <? limit then Z.of_nat (length vs) else limit)) vs = take (Z.to_nat limit) vs.
Proof.
  destruct (Z.ltb_spec (Z.of_nat (length vs)) limit); [|done]. rewrite Nat2Z.id, firstn_all, take_ge by lia. done.
Qed.

(** C28. ps_list is exact.  Let [vs] list, in table order, the processes in
    use at or below the caller's namespace.  When the first [limit] slots of
    the buffer are mapped user memory, ps_list returns the length of [vs] and
    writes to the buffer the pids of the first [limit] members of [vs], as
    seen in the caller's namespace (or the kernel's own pids when [global] is
    1), and nothing else changes in memory or in the kernel's tables. *)
Theorem ps_list_spec s m y n0 x0 T limit pids global :
  caller s m y n0 x0 -> 0 < sym_end -> pt (k_mem s) (p_pagetable y) T -> frames_ok (k_mem s) T -> 0 <= pids ->
  exists vs, vs `sublist_of` all_procs /\ (forall i, i ∈ vs <-> (i < Z.to_nat NPROC)%nat /\ sees s n0 i) /\
    (range_ok (k_mem s) T pids (4 * Z.of_nat (length (take (Z.to_nat limit) vs))) ->
     exists s', ps_list limit pids global s = Done (Z.of_nat (length vs)) s' /\ mem_eq s s' /\
       uwrite (k_mem s) (k_mem s') (p_pagetable y) T pids (pid_bytes s x0 global (take (Z.to_nat limit) vs))).
Proof.
  intros Hc Himg Hpt Hfr Hpids. exists (filter (fun i => seesb s n0 i) all_procs).
  assert (Hall : forall i, i ∈ all_procs -> (i < Z.to_nat NPROC)%nat) by (intros i ?%elem_of_seq; lia).
  split; [|split].
  - apply sublist_filter.
  - intros i. rewrite list_elem_of_filter, Is_true_true, seesb_sees by apply Hc.
    unfold all_procs. rewrite elem_of_seq. naive_solver lia.
  - intros Hr. cut (wp (ps_list limit pids global) s (fun v s' =>
      v = Z.of_nat (length (filter (fun i => seesb s n0 i) all_procs)) /\ mem_eq s s' /\
      uwrite (k_mem s) (k_mem s') (p_pagetable y) T pids
        (pid_bytes s x0 global (take (Z.to_nat limit) (filter (fun i => seesb s n0 i) all_procs))))).
    { intros (v & s' & E & -> & ? & ?)%wp_done. eauto. }
    unfold ps_list. apply wp_bind. eapply wp_ps_count; [done..|]. intros s1 H1.
    destruct (hart_mem_eq _ _ H1) as [M1 Em].
    assert (Hf : filter (fun i => seesb s1 n0 i) all_procs = filter (fun i => seesb s n0 i) all_procs)
      by (apply list_filter_iff; intros j; by rewrite (seesb_mem _ _ _ _ _ _ _ M1 Hc)).
    apply wp_bind. eapply wp_ps_copy; rewrite ?Em, ?Hf, ?Z.sub_0_r, ?Z.add_0_l, ?take_limit, ?Z.mul_0_r, ?Z.add_0_r;
      try done; [by eapply caller_mem|].
    intros s2 r M2 W2. apply wp_ret. rewrite (pid_bytes_mem s s1) in W2 by done.
    split; [done|]. split; [by eapply mem_eq_trans|done].
Qed.

End ps.

(** ** Examples *)

#[local] Existing Instance sample_image.

(** The initial process with one page of user memory. *)
Definition ex_ps_me : proc := ex_init <| p_pagetable := ex_root |>.
Definition ex_ps : kstate := ex_ns <| k_procs := ex_ps_me :: replicate 63 zero_proc |> <| k_mem := ex_m3 |>.

Lemma ex_ps_caller : caller ex_ps 0 ex_ps_me 0 ex_root_ns.
Proof.
  split; try done.
  - intros i Hi. by apply not_elem_of_nil in Hi.
  - apply (ns_inv_keep ex_procs); [reflexivity|exact ex_ns_inv].
Qed.

Lemma ps_list_spec_witness :
  caller ex_ps 0 ex_ps_me 0 ex_root_ns /\ pt ex_m3 ex_root ex_T /\ frames_ok ex_m3 ex_T /\
  exists vs, vs `sublist_of` all_procs /\ (forall i, i ∈ vs <-> (i < Z.to_nat NPROC)%nat /\ sees ex_ps 0 i) /\
    exists s', ps_list 1 16 0 ex_ps = Done (Z.of_nat (length vs)) s'.
Proof.
  split; [exact ex_ps_caller|]. split; [exact ex_pt3|]. split; [exact ex_frames|].
  destruct (ps_list_spec (img := sample_image) ex_ps 0 ex_ps_me 0 ex_root_ns ex_T 1 16 0)
    as (vs & Hs & Hv & H); [exact ex_ps_caller|done|exact ex_pt3|exact ex_frames|lia|].
  exists vs. split; [exact Hs|]. split; [exact Hv|]. destruct H as (s' & E & _); [|exists s'; exact E].
  intros a Ha. assert (length (take (Z.to_nat 1) vs) <= 1)%nat by (rewrite length_take; lia).
  change (k_mem ex_ps) with ex_m3. rewrite ex_user_pa by lia. assert (PGSIZE = 4096) by reflexivity.
  rewrite (proj2 (Z.ltb_lt _ _)) by lia. done.
Defined.

End PsList.
Export PsList.
