(* ===== verification/Ring.v ===== *)
(** * Ring buffers with free-running indices

    The console's input buffer, the UART's transmit buffer and the pipes are
    arrays of [N] bytes with a read and a write index that count without
    reset and wrap at the width [2 ^ W] of their C type; slot [i] of the
    stream is element [i % N] of the array.  [contents] is the queue such a
    buffer stands for. *)

From S2P Require Import Prelude.

Module Ring.
Section ring.
Context (N W : Z).

Definition slot (i : Z) : nat := Z.to_nat (i mod N).
Definition count (r w : Z) : Z := (w - r) mod 2 ^ W.
Definition contents (buf : list Z) (r w : Z) : list Z :=
  (fun k => default 0 (buf !! slot (r + Z.of_nat k))) <$> seq 0 (Z.to_nat (count r w)).

(** The buffer is well formed: it never holds more than [N] bytes. *)
Definition ring_ok (buf : list Z) (r w : Z) : Prop :=
  length buf = Z.to_nat N /\ 0 <= r < 2 ^ W /\ 0 <= w < 2 ^ W /\ count r w <= N.

Context (HN : 0 < N < 2 ^ W) (HW : 2 ^ W mod N = 0).

Lemma mod_mod_ring z : (z mod 2 ^ W) mod N = z mod N.
Proof.
  rewrite (Z.mod_eq z (2 ^ W)) by lia. apply Z.mod_divide in HW as [q Hq]; [|lia].
  rewrite Hq. replace (z - q * N * (z / (q * N))) with (z + (- (q * (z / (q * N)))) * N) by ring.
  apply Z.mod_add. lia.
Qed.
Lemma slot_mod z : slot (z mod 2 ^ W) = slot z.
Proof. unfold slot. by rewrite mod_mod_ring. Qed.
Lemma slot_lt z : (slot z < Z.to_nat N)%nat.
Proof. unfold slot. pose proof (Z.mod_pos_bound z N). lia. Qed.
Lemma count_range r w : 0 <= count r w < 2 ^ W.
Proof. apply Z.mod_pos_bound. lia. Qed.
Lemma count_write r w : 0 <= w < 2 ^ W -> (r + count r w) mod 2 ^ W = w.
Proof.
  intros Hw. unfold count. rewrite Zplus_mod_idemp_r. replace (r + (w - r)) with w by ring.
  by apply Z.mod_small.
Qed.
Lemma slot_write r w : 0 <= w < 2 ^ W -> slot w = slot (r + count r w).
Proof. intros Hw. by rewrite <- (count_write r w Hw) at 1; rewrite slot_mod. Qed.
Lemma slot_inj r i j : 0 <= i < N -> 0 <= j < N -> slot (r + i) = slot (r + j) -> i = j.
Proof.
  intros Hi Hj Heq. unfold slot in Heq.
  pose proof (Z.mod_pos_bound (r + i) N). pose proof (Z.mod_pos_bound (r + j) N).
  apply Z2Nat.inj in Heq; [|lia..].
  assert (E : (i - j) mod N = 0).
  { replace (i - j) with (r + i - (r + j)) by ring. by rewrite Zminus_mod, Heq, Z.sub_diag. }
  apply Z.mod_divide in E as [q Hq]; [|lia]. assert (q = 0) by nia. lia.
Qed.
Lemma count_incr_w r w : count r w + 1 < 2 ^ W -> count r ((w + 1) mod 2 ^ W) = count r w + 1.
Proof.
  intros Hc. pose proof (count_range r w). unfold count in *. rewrite Zminus_mod_idemp_l.
  replace (w + 1 - r) with (w - r + 1) by ring. rewrite <- Zplus_mod_idemp_l. apply Z.mod_small. lia.
Qed.
Lemma count_incr_r r w : 0 < count r w -> count ((r + 1) mod 2 ^ W) w = count r w - 1.
Proof.
  intros Hc. pose proof (count_range r w). unfold count in *. rewrite Zminus_mod_idemp_r.
  replace (w - (r + 1)) with (w - r - 1) by ring. rewrite <- Zminus_mod_idemp_l. apply Z.mod_small. lia.
Qed.
Lemma count_decr_w r w : 0 < count r w -> count r ((w - 1) mod 2 ^ W) = count r w - 1.
Proof.
  intros Hc. pose proof (count_range r w). unfold count in *. rewrite Zminus_mod_idemp_l.
  replace (w - 1 - r) with (w - r - 1) by ring. rewrite <- Zminus_mod_idemp_l. apply Z.mod_small. lia.
Qed.
Lemma count_inj r w w' : 0 <= w < 2 ^ W -> 0 <= w' < 2 ^ W -> count r w = count r w' -> w = w'.
Proof. intros Hw Hw' E. by rewrite <- (count_write r w Hw), <- (count_write r w' Hw'), E. Qed.
Lemma count_zero r w : 0 <= r < 2 ^ W -> 0 <= w < 2 ^ W -> count r w = 0 <-> r = w.
Proof.
  intros Hr Hw. split; [|intros ->; unfold count; by rewrite Z.sub_diag].
  intros Hc. pose proof (count_write r w Hw) as E. rewrite Hc, Z.add_0_r, Z.mod_small in E; done.
Qed.
Lemma count_full r w : 0 <= r < 2 ^ W -> 0 <= w < 2 ^ W -> count r w = N <-> w = (r + N) mod 2 ^ W.
Proof.
  intros Hr Hw. split; [intros <-; symmetry; by apply count_write|].
  intros ->. unfold count. rewrite Zminus_mod_idemp_l. replace (r + N - r) with N by ring.
  apply Z.mod_small. lia.
Qed.

Lemma contents_length buf r w : length (contents buf r w) = Z.to_nat (count r w).
Proof. unfold contents. by rewrite length_fmap, length_seq. Qed.
Lemma contents_empty buf r : contents buf r r = [].
Proof. unfold contents, count. by rewrite Z.sub_diag. Qed.

(** Writing at the write index appends. *)
Lemma contents_put buf r w c : ring_ok buf r w -> count r w < N ->
  contents (<[slot w := c]> buf) r ((w + 1) mod 2 ^ W) = contents buf r w ++ [c].
Proof.
  intros (Hl & Hr & Hw & _) Hc. pose proof (count_range r w). unfold contents.
  rewrite count_incr_w by lia. replace (Z.to_nat (count r w + 1)) with (S (Z.to_nat (count r w))) by lia.
  rewrite seq_S, fmap_app. simpl. rewrite (slot_write r w Hw). rewrite Z2Nat.id by lia.
  rewrite list_lookup_insert_eq by (rewrite Hl; apply slot_lt). f_equal.
  apply list_fmap_ext. intros k k' [-> Hk]%lookup_seq. rewrite list_lookup_insert_ne; [done|].
  intros E. apply slot_inj in E; lia.
Qed.
(** Advancing the read index removes the first byte. *)
Lemma contents_drop buf r w : 0 < count r w ->
  contents buf r w = default 0 (buf !! slot r) :: contents buf ((r + 1) mod 2 ^ W) w.
Proof.
  intros Hc. unfold contents. rewrite count_incr_r by done.
  replace (Z.to_nat (count r w)) with (S (Z.to_nat (count r w - 1))) by lia.
  rewrite <- cons_seq, <- fmap_S_seq. cbn [fmap list_fmap]. rewrite Z.add_0_r. f_equal.
  rewrite <- list_fmap_compose. apply list_fmap_ext. intros k k' _. simpl. f_equal. f_equal.
  unfold slot. f_equal. rewrite <- (mod_mod_ring (_ mod 2 ^ W + _)), Zplus_mod_idemp_l, mod_mod_ring.
  f_equal. lia.
Qed.

Lemma ring_ok_put buf r w c : ring_ok buf r w -> count r w < N ->
  ring_ok (<[slot w := c]> buf) r ((w + 1) mod 2 ^ W).
Proof.
  intros (Hl & Hr & Hw & Hc) Hlt. pose proof (Z.mod_pos_bound (w + 1) (2 ^ W)).
  split_and!; [by rewrite length_insert|lia..|]. rewrite count_incr_w; lia.
Qed.
Lemma ring_ok_drop buf r w : ring_ok buf r w -> 0 < count r w -> ring_ok buf ((r + 1) mod 2 ^ W) w.
Proof.
  intros (Hl & Hr & Hw & Hc) Hlt. pose proof (Z.mod_pos_bound (r + 1) (2 ^ W)).
  split_and!; [done|lia..|]. rewrite count_incr_r; lia.
Qed.
Lemma ring_slot buf r w z : ring_ok buf r w -> is_Some (buf !! slot z).
Proof. intros (Hl & _). apply lookup_lt_is_Some. rewrite Hl. apply slot_lt. Qed.

End ring.
End Ring.
