(* ===== verification/Console.v ===== *)
(** * uart.c, printf.c and console.c

    The UART's transmit buffer and registers, the kernel's formatted output
    and the console's line discipline.  The device is the part of [devices]
    the registers show: the next answers of the transmitter-idle bit, the
    bytes received and the bytes sent. *)

From S2P Require Import Prelude State Spinlock CString Mem Kalloc Vm Sched FileLayer Proc.

(** How often a loop that waits for a condition goes back to sleep; when it
    is used up the run is [NoFuel], and theorems that claim a result say how
    much is needed. *)
Class Fuel := sleep_fuel : nat.

Module Uart.

Definition getd {A} (f : devices -> A) : K A := gets (fun s => f (k_dev s)).
Definition setd (f : devices -> devices) : K unit := modify (upd k_dev f).

Definition IER : Z := 1.
Definition IER_RX_ENABLE : Z := 1.
Definition IER_TX_ENABLE : Z := 2.
Definition FCR : Z := 2.
Definition FCR_FIFO_ENABLE : Z := 1.
Definition FCR_FIFO_CLEAR : Z := 6.
Definition LCR : Z := 3.
Definition LCR_EIGHT_BITS : Z := 3.
Definition LCR_BAUD_LATCH : Z := 128.
Definition LSR_RX_READY : Z := 1.
Definition LSR_TX_IDLE : Z := 32.
Definition UART_TX_BUF_SIZE : Z := 32.

(** [ReadReg(LSR)]: bit 0 is set when a byte waits, bit 5 when the transmitter
    is idle, which the device decides. *)
Definition ReadLSR : K Z := fun s =>
  let d := k_dev s in
  let rx := if decide (uart_in d = []) then 0 else LSR_RX_READY in
  match uart_idle d with
  | [] => Done rx s
  | b :: l => Done (Z.lor rx (if b : bool then LSR_TX_IDLE else 0)) (s <| k_dev := d <| uart_idle := l |> |>)
  end.
(** [ReadReg(RHR)]: takes the byte that waits. *)
Definition ReadRHR : K Z := fun s =>
  let d := k_dev s in
  match uart_in d with
  | [] => Done 0 s
  | c :: l => Done c (s <| k_dev := d <| uart_in := l |> |>)
  end.
Definition WriteTHR (c : Z) : K unit := setd (upd uart_out (cons (u8 c))).
Definition WriteReg (reg v : Z) : K unit := setd (upd uart_cfg (cons (reg, v))).

Definition uartinit : K unit :=
  WriteReg IER 0 ;!
  WriteReg LCR LCR_BAUD_LATCH ;!
  WriteReg 0 3 ;!
  WriteReg 1 0 ;!
  WriteReg LCR LCR_EIGHT_BITS ;!
  WriteReg FCR (Z.lor FCR_FIFO_ENABLE FCR_FIFO_CLEAR) ;!
  WriteReg IER (Z.lor IER_TX_ENABLE IER_RX_ENABLE).

(** uartstart: each round sends one buffered byte, so UART_TX_BUF_SIZE
    rounds and a last look are enough. *)
Fixpoint uartstart_loop (fuel : nat) : K unit :=
  match fuel with
  | O => nofuel
  | S fuel =>
      let! w := getd uart_tx_w in
      let! r := getd uart_tx_r in
      if w =? r then ret tt else
      let! lsr := ReadLSR in
      if Z.land lsr LSR_TX_IDLE =? 0 then ret tt else
      let! b := getd uart_tx_buf in
      let! c := deref "uart_tx_buf" (b !! Z.to_nat (r mod UART_TX_BUF_SIZE)) in
      setd (upd uart_tx_r (fun r => u64 (r + 1))) ;!
      wakeup (Some Cuart_tx_r) ;!
      WriteTHR c ;!
      uartstart_loop fuel
  end.
Definition uartstart : K unit := uartstart_loop (Z.to_nat UART_TX_BUF_SIZE + 1).

(** [while(uart_tx_w == uart_tx_r + UART_TX_BUF_SIZE) sleep(...)] *)
Fixpoint uart_room (fuel : nat) : K unit :=
  let! w := getd uart_tx_w in
  let! r := getd uart_tx_r in
  if negb (w =? u64 (r + UART_TX_BUF_SIZE)) then ret tt else
  match fuel with
  | O => nofuel
  | S fuel => sleep Cuart_tx_r Luart_tx ;! uart_room fuel
  end.

Section uart.
Context {fuel : Fuel}.

(** After a panic the other harts spin here for ever. *)
Definition stop_if_panicked : K unit :=
  let! p := getd panicked in
  if p =? 0 then ret tt else nofuel.

Definition uartputc (c : Z) : K unit :=
  acquire Luart_tx ;!
  stop_if_panicked ;!
  uart_room sleep_fuel ;!
  let! w := getd uart_tx_w in
  setd (upd uart_tx_buf (fun b => <[Z.to_nat (w mod UART_TX_BUF_SIZE) := u8 c]> b)) ;!
  setd (upd uart_tx_w (fun w => u64 (w + 1))) ;!
  uartstart ;!
  release Luart_tx.
End uart.

(** [while((ReadReg(LSR) & LSR_TX_IDLE) == 0) ;] spins until the device is
    idle. *)
Fixpoint spin_idle (l : list bool) : K unit :=
  match l with
  | [] => nofuel
  | _ :: l =>
      let! lsr := ReadLSR in
      if Z.land lsr LSR_TX_IDLE =? 0 then spin_idle l else ret tt
  end.
Definition uartputc_sync (c : Z) : K unit :=
  push_off ;!
  stop_if_panicked ;!
  let! l := getd uart_idle in
  spin_idle l ;!
  WriteTHR c ;!
  pop_off.

Definition uartgetc : K Z :=
  let! lsr := ReadLSR in
  if negb (Z.land lsr 1 =? 0) then ReadRHR else ret (-1).

End Uart.
Export Uart.

Module Printf.

(** A C string literal. *)
Definition lit (s : string) : list Z :=
  (fun a => Z.of_N (Ascii.N_of_ascii a)) <$> String.list_ascii_of_string s.

Definition BACKSPACE : Z := 0x100.
Definition consputc (c : Z) : K unit :=
  if c =? BACKSPACE then uartputc_sync 8 ;! uartputc_sync 32 ;! uartputc_sync 8
  else uartputc_sync c.

Definition digits : list Z := lit "0123456789abcdef".

(** The do-while loop of printint: the digits of [x], the last one first; a
    32-bit number has at most 32 digits. *)
Fixpoint int_digits (fuel : nat) (base x : Z) : list Z :=
  match fuel with
  | O => []
  | S fuel =>
      default 0 (digits !! Z.to_nat (x mod base)) ::
      (if x / base =? 0 then [] else int_digits fuel base (x / base))
  end.
Definition int_text (xx base : Z) (sign : bool) : list Z :=
  let neg := sign && (xx <? 0) in
  let x := if neg then u32 (- xx) else u32 xx in
  rev (int_digits 32 base x ++ (if neg then [45] else [])).
Definition printint (xx base : Z) (sign : bool) : K unit :=
  for_list (int_text xx base sign) consputc.

Definition ptr_text (x : Z) : list Z :=
  (fun i => default 0 (digits !! Z.to_nat (Z.shiftr x (60 - 4 * Z.of_nat i) mod 16))) <$> seq 0 16.
Definition printptr (x : Z) : K unit :=
  consputc 48 ;! consputc 120 ;! for_list (ptr_text x) consputc.

(** The variable arguments of printf. *)
Inductive parg : Type := AInt (x : Z) | APtr (x : Z) | AStr (s : option (list Z)).

(** The loop of printf over the rest of the format and of the arguments; an
    argument of the wrong kind is undefined behaviour. *)
Fixpoint printf_loop (fmt : list Z) (ap : list parg) : K unit :=
  match fmt with
  | [] => ret tt
  | c :: fmt =>
      if negb (c =? 37) then consputc c ;! printf_loop fmt ap else
      match fmt with
      | [] => ret tt
      | c :: fmt =>
          if c =? 100 then
            match ap with
            | AInt x :: ap => printint x 10 true ;! printf_loop fmt ap
            | _ => fault "va_arg"
            end
          else if c =? 120 then
            match ap with
            | AInt x :: ap => printint x 16 true ;! printf_loop fmt ap
            | _ => fault "va_arg"
            end
          else if c =? 112 then
            match ap with
            | APtr x :: ap => printptr x ;! printf_loop fmt ap
            | _ => fault "va_arg"
            end
          else if c =? 115 then
            match ap with
            | AStr s :: ap => for_list (CString.cstr (default (lit "(null)") s)) consputc ;! printf_loop fmt ap
            | _ => fault "va_arg"
            end
          else if c =? 37 then consputc 37 ;! printf_loop fmt ap
          else consputc 37 ;! consputc c ;! printf_loop fmt ap
      end
  end.

Definition printf (fmt : list Z) (ap : list parg) : K unit :=
  let! locking := getd pr_locking in
  when (negb (locking =? 0)) (acquire Lpr) ;!
  printf_loop fmt ap ;!
  when (negb (locking =? 0)) (release Lpr).

Definition printfinit : K unit := setd (upd pr_locking (fun _ => 1)).

(** What panic() prints before it stops; the stop itself is [Panic]. *)
Definition panic_print (msg : list Z) : K unit :=
  setd (upd pr_locking (fun _ => 0)) ;!
  printf (lit "panic: ") [] ;!
  printf msg [] ;!
  printf [10] [] ;!
  setd (upd panicked (fun _ => 1)).

(** proc.c: procdump *)
Definition procdump : K unit :=
  printf [10] [] ;!
  for_list all_procs (fun i =>
    let! p := getp i in
    if decide (p_state p = UNUSED) then ret tt else
    printf (lit "%d %s %s") [AInt (p_pid p); AStr (Some (state_name (p_state p)));
      AStr (Some (p_name p))] ;!
    printf [10] []).

End Printf.
Export Printf.

Module Console.

Definition INPUT_BUF_SIZE : Z := 128.
Definition CONSOLE : Z := 1.
(** [C(x)] *)
Definition C (x : Z) : Z := x - 64.

Definition consoleinit : K unit :=
  uartinit ;!
  setd (upd devsw_on (fun l => <[Z.to_nat CONSOLE := true]> l)).

(** The byte [cons.buf[i % INPUT_BUF_SIZE]]. *)
Definition cons_at (i : Z) : K Z :=
  let! b := getd cons_buf in
  deref "cons.buf" (b !! Z.to_nat (i mod INPUT_BUF_SIZE)).

(** Kill line: at most INPUT_BUF_SIZE characters are being edited. *)
Fixpoint kill_line (fuel : nat) : K unit :=
  let! e := getd cons_e in
  let! w := getd cons_w in
  if e =? w then ret tt else
  let! c := cons_at (u32 (e - 1)) in
  if c =? 10 then ret tt else
  match fuel with
  | O => nofuel
  | S fuel =>
      setd (upd cons_e (fun e => u32 (e - 1))) ;!
      consputc BACKSPACE ;!
      kill_line fuel
  end.

(** The default case of consoleintr. *)
Definition cons_store (c : Z) : K unit :=
  let! e := getd cons_e in
  let! r := getd cons_r in
  if negb (c =? 0) && (u32 (e - r) <? INPUT_BUF_SIZE) then
    let c := if c =? 13 then 10 else c in
    consputc c ;!
    setd (upd cons_buf (fun b => <[Z.to_nat (e mod INPUT_BUF_SIZE) := u8 c]> b)) ;!
    setd (upd cons_e (fun e => u32 (e + 1))) ;!
    let! e := getd cons_e in
    when ((c =? 10) || (c =? C 68) || (u32 (e - r) =? INPUT_BUF_SIZE))
      (setd (upd cons_w (fun _ => e)) ;! wakeup (Some Ccons_r))
  else ret tt.

Definition consoleintr (c : Z) : K unit :=
  acquire Lcons ;!
  (if c =? C 80 then procdump
   else if c =? C 85 then kill_line (Z.to_nat INPUT_BUF_SIZE)
   else if (c =? C 72) || (c =? 127) then
     let! e := getd cons_e in
     let! w := getd cons_w in
     when (negb (e =? w)) (setd (upd cons_e (fun e => u32 (e - 1))) ;! consputc BACKSPACE)
   else cons_store c) ;!
  release Lcons.

(** uart.c: uartintr; the loop ends when no byte waits. *)
Fixpoint uartintr_loop (fuel : nat) : K unit :=
  match fuel with
  | O => nofuel
  | S fuel =>
      let! c := uartgetc in
      if c =? -1 then ret tt else consoleintr c ;! uartintr_loop fuel
  end.
Definition uartintr : K unit :=
  let! l := getd uart_in in
  uartintr_loop (S (length l)) ;!
  acquire Luart_tx ;!
  uartstart ;!
  release Luart_tx.

Section console.
Context {fuel : Fuel}.

Fixpoint consolewrite_loop (k : nat) (i : Z) (user_src : bool) (src : Z) : K Z :=
  match k with
  | O => ret i
  | S k =>
      let! r := either_copyin user_src (u64 (src + i)) 1 in
      if r.1 =? -1 then ret i else
      let! c := deref "c" (r.2 !! 0%nat) in
      uartputc c ;!
      consolewrite_loop k (i + 1) user_src src
  end.
Definition consolewrite (user_src : bool) (src n : Z) : K Z :=
  consolewrite_loop (Z.to_nat n) 0 user_src src.

(** The inner loop of consoleread waits for input; [false] is
    [return -1]. *)
Fixpoint cons_wait (fuel : nat) : K bool :=
  let! r := getd cons_r in
  let! w := getd cons_w in
  if negb (r =? w) then ret true else
  let! p := me in
  let! k := killed p in
  if negb (k =? 0) then release Lcons ;! ret false else
  match fuel with
  | O => nofuel
  | S fuel => sleep Ccons_r Lcons ;! cons_wait fuel
  end.

(** The outer loop with [n] bytes still wanted. *)
Fixpoint consoleread_loop (n : nat) (target : Z) (user_dst : bool) (dst : Z) : K Z :=
  match n with
  | O => release Lcons ;! ret target
  | S n' =>
      let! ok := cons_wait sleep_fuel in
      if negb ok then ret (-1) else
      let! r := getd cons_r in
      let! c := cons_at r in
      setd (upd cons_r (fun r => u32 (r + 1))) ;!
      if c =? C 68 then
        when (Z.of_nat n <? target) (setd (upd cons_r (fun r => u32 (r - 1)))) ;!
        release Lcons ;! ret (target - Z.of_nat n)
      else
        let! e := either_copyout user_dst dst [c] 1 in
        if e =? -1 then release Lcons ;! ret (target - Z.of_nat n) else
        if c =? 10 then release Lcons ;! ret (target - Z.of_nat n')
        else consoleread_loop n' target user_dst (u64 (dst + 1))
  end.
Definition consoleread (user_dst : bool) (dst n : Z) : K Z :=
  acquire Lcons ;!
  consoleread_loop (Z.to_nat n) (Z.max n 0) user_dst dst.
End console.

End Console.
Export Console.

(** ** Frames: output leaves the process view alone *)

Lemma view_setd f : frame proc_view (setd f).
Proof. apply segs_modify. intros s. reflexivity. Qed.
#[export] Hint Resolve view_setd : segs.
Lemma view_getd {A} (f : devices -> A) : frame proc_view (getd f).
Proof. unfold getd. segs_tac. Qed.
#[export] Hint Resolve view_getd : segs.
Lemma view_ReadLSR : frame proc_view ReadLSR.
Proof. intros s. unfold ReadLSR. by destruct (uart_idle (k_dev s)). Qed.
Lemma view_ReadRHR : frame proc_view ReadRHR.
Proof. intros s. unfold ReadRHR. by destruct (uart_in (k_dev s)). Qed.
Lemma view_WriteTHR c : frame proc_view (WriteTHR c).
Proof. unfold WriteTHR. segs_tac. Qed.
#[export] Hint Resolve view_ReadLSR view_ReadRHR view_WriteTHR : segs.
Lemma view_uartstart : frame proc_view uartstart.
Proof.
  unfold uartstart. generalize (Z.to_nat UART_TX_BUF_SIZE + 1)%nat. intros k.
  induction k; cbn [uartstart_loop]; segs_tac.
Qed.
#[export] Hint Resolve view_uartstart : segs.
Lemma view_uartputc {fuel : Fuel} c : frame proc_view (uartputc c).
Proof.
  unfold uartputc, stop_if_panicked. segs_tac. induction sleep_fuel; cbn [uart_room]; segs_tac.
Qed.
Lemma view_spin_idle l : frame proc_view (spin_idle l).
Proof. induction l; cbn [spin_idle]; segs_tac. Qed.
#[export] Hint Resolve view_uartputc view_spin_idle : segs.
Lemma view_consputc c : frame proc_view (consputc c).
Proof. unfold consputc, uartputc_sync, stop_if_panicked. segs_tac. Qed.
#[export] Hint Resolve view_consputc : segs.
Lemma view_printf_loop fmt : forall ap, frame proc_view (printf_loop fmt ap).
Proof.
  remember (length fmt) as n eqn:Hn. assert (Hle : (length fmt <= n)%nat) by lia. clear Hn. revert fmt Hle.
  induction n as [|n IH]; intros [|c fmt] Hle ap; simpl in Hle; try lia; cbn [printf_loop]; try solve [segs_tac].
  assert (H1 : forall ap, frame proc_view (printf_loop fmt ap)) by (intros; apply IH; lia).
  destruct (negb _); [segs_tac|]. destruct fmt as [|c' fmt]; [segs_tac|].
  assert (H2 : forall ap, frame proc_view (printf_loop fmt ap)) by (intros; apply IH; simpl in Hle; lia).
  clear IH H1. unfold printint, printptr. segs_tac.
Qed.
#[export] Hint Resolve view_printf_loop : segs.
Lemma view_printf fmt ap : frame proc_view (printf fmt ap).
Proof. unfold printf. segs_tac. Qed.
#[export] Hint Resolve view_printf : segs.
Lemma view_consoleintr c : frame proc_view (consoleintr c).
Proof.
  unfold consoleintr, procdump, cons_store. segs_tac.
  generalize (Z.to_nat INPUT_BUF_SIZE). intros k. induction k; cbn [kill_line]; unfold cons_at; segs_tac.
Qed.
#[export] Hint Resolve view_consoleintr : segs.
