(* ===== verification/Bio.v ===== *)
(** * sleeplock.c and bio.c

    Sleep locks and the buffer cache.  bcache's circular list is kept with
    its links: [b_next] and [b_prev] are indices into [fs_bufs], where the
    entry after the last buffer is bcache.head.  The disk driver comes in
    through the interface [Disk]. *)

From S2P Require Import Prelude State Spinlock CString Sched FileLayer Proc Console.

Module Sleeplock.

Definition getfs {A} (f : fsys -> A) : K A := gets (fun s => f (k_fs s)).
Definition setfs (f : fsys -> fsys) : K unit := modify (upd k_fs f).

Definition getb (i : nat) : K buf :=
  let! l := getfs fs_bufs in deref "buf" (l !! i).
Definition setb (i : nat) (f : buf -> buf) : K unit :=
  let! b := getb i in setfs (upd fs_bufs (fun l => <[i := f b]> l)).
Definition geti (i : nat) : K inode :=
  let! l := getfs fs_itable in deref "inode" (l !! i).
Definition seti (i : nat) (f : inode -> inode) : K unit :=
  let! x := geti i in setfs (upd fs_itable (fun l => <[i := f x]> l)).

(** The lock inside a buffer or an inode. *)
Definition getsl (sl : sleepid) : K sleeplock :=
  match sl with
  | SLbuf i => let! b := getb i in ret (b_lock b)
  | SLinode i => let! x := geti i in ret (i_lock x)
  end.
Definition setsl (sl : sleepid) (l : sleeplock) : K unit :=
  match sl with
  | SLbuf i => setb i (upd b_lock (fun _ => l))
  | SLinode i => seti i (upd i_lock (fun _ => l))
  end.

Definition initsleeplock (sl : sleepid) : K unit := setsl sl (mkSleeplock 0 0).

(** [myproc()->pid] *)
Definition mypid : K Z :=
  let! m := me in
  let! p := getp m in
  ret (p_pid p).

Fixpoint acquiresleep_loop (fuel : nat) (sl : sleepid) : K unit :=
  let! l := getsl sl in
  if sl_locked l =? 0 then ret tt else
  match fuel with
  | O => nofuel
  | S fuel => sleep (Csleep sl) (Lsleep sl) ;! acquiresleep_loop fuel sl
  end.
Definition acquiresleep {fuel : Fuel} (sl : sleepid) : K unit :=
  acquire (Lsleep sl) ;!
  acquiresleep_loop sleep_fuel sl ;!
  let! pid := mypid in
  setsl sl (mkSleeplock 1 pid) ;!
  release (Lsleep sl).

Definition releasesleep (sl : sleepid) : K unit :=
  acquire (Lsleep sl) ;!
  setsl sl (mkSleeplock 0 0) ;!
  wakeup (Some (Csleep sl)) ;!
  release (Lsleep sl).

Definition holdingsleep (sl : sleepid) : K bool :=
  acquire (Lsleep sl) ;!
  let! l := getsl sl in
  let! r := (if sl_locked l =? 0 then ret false
             else let! pid := mypid in ret (sl_pid l =? pid)) in
  release (Lsleep sl) ;!
  ret r.

End Sleeplock.
Export Sleeplock.

(** What is none of the disk driver's business: everything of the buffers but
    their data and the flag [disk], the console, the pipes and the files. *)
Definition buf_meta (b : buf) := (b_valid b, b_dev b, b_blockno b, b_lock b, b_refcnt b, b_prev b, b_next b).
Definition bystanders (s : kstate) := (buf_meta <$> fs_bufs (k_fs s), k_dev s, k_pipes s, k_ftable s).

(** What bio.c needs of the disk driver: virtio_disk_rw(b, write), which may
    sleep but leaves the process table and the [bystanders] to their owners, and
    the scheduling fields with values of their types. *)
Class Disk := {
  virtio_disk_rw : nat -> bool -> K unit;
  virtio_disk_rw_frame b write : frame proc_view (virtio_disk_rw b write);
  virtio_disk_rw_bystanders b write : frame bystanders (virtio_disk_rw b write);
  virtio_disk_rw_typed b write : segs typed (virtio_disk_rw b write);
}.
#[export] Hint Resolve virtio_disk_rw_frame : segs.

Module Bio.

(** bcache.head *)
Definition HEAD : nat := Z.to_nat NBUF.
Definition all_bufs : list nat := seq 0 (Z.to_nat NBUF).
Arguments all_bufs : simpl never.

(** [b->next->prev = b->prev; b->prev->next = b->next;] and the insertion
    after the head. *)
Definition buf_unlink (i : nat) : K unit :=
  let! b := getb i in
  setb (b_next b) (upd b_prev (fun _ => b_prev b)) ;!
  let! b := getb i in
  setb (b_prev b) (upd b_next (fun _ => b_next b)).
Definition buf_push (i : nat) : K unit :=
  let! h := getb HEAD in
  setb i (upd b_next (fun _ => b_next h)) ;!
  setb i (upd b_prev (fun _ => HEAD)) ;!
  let! h := getb HEAD in
  setb (b_next h) (upd b_prev (fun _ => i)) ;!
  setb HEAD (upd b_next (fun _ => i)).

Definition binit : K unit :=
  setb HEAD (upd b_prev (fun _ => HEAD)) ;!
  setb HEAD (upd b_next (fun _ => HEAD)) ;!
  for_list all_bufs (fun i =>
    let! h := getb HEAD in
    setb i (fun b => b <| b_next := b_next h |> <| b_prev := HEAD |>) ;!
    initsleeplock (SLbuf i) ;!
    let! h := getb HEAD in
    setb (b_next h) (upd b_prev (fun _ => i)) ;!
    setb HEAD (upd b_next (fun _ => i))).

Section bio.
Context {fuel : Fuel}.

(** The two scans of bget: forward for the block, backward for a buffer
    nobody uses.  The list has NBUF buffers. *)
Fixpoint bget_cached (k : nat) (b : nat) (dev blockno : Z) : K (option nat) :=
  if decide (b = HEAD) then ret None else
  match k with
  | O => nofuel
  | S k =>
      let! x := getb b in
      if (b_dev x =? dev) && (b_blockno x =? blockno) then
        setb b (upd b_refcnt (fun n => u32 (n + 1))) ;!
        ret (Some b)
      else bget_cached k (b_next x) dev blockno
  end.
Fixpoint bget_recycle (k : nat) (b : nat) (dev blockno : Z) : K (option nat) :=
  if decide (b = HEAD) then ret None else
  match k with
  | O => nofuel
  | S k =>
      let! x := getb b in
      if b_refcnt x =? 0 then
        setb b (fun x => x <| b_dev := dev |> <| b_blockno := blockno |> <| b_valid := 0 |> <| b_refcnt := 1 |>) ;!
        ret (Some b)
      else bget_recycle k (b_prev x) dev blockno
  end.
(** The buffer for the block, with its reference taken: the cached one or a
    recycled one. *)
Definition bget_find (dev blockno : Z) : K (option nat) :=
  let! h := getb HEAD in
  let! r := bget_cached (Z.to_nat NBUF) (b_next h) dev blockno in
  match r with
  | Some b => ret (Some b)
  | None =>
      let! h := getb HEAD in
      bget_recycle (Z.to_nat NBUF) (b_prev h) dev blockno
  end.
Definition bget (dev blockno : Z) : K nat :=
  acquire Lbcache ;!
  let! r := bget_find dev blockno in
  match r with
  | Some b => release Lbcache ;! acquiresleep (SLbuf b) ;! ret b
  | None => panic "bget: no buffers"
  end.

Context {disk : Disk}.

Definition bread (dev blockno : Z) : K nat :=
  let! b := bget dev blockno in
  let! x := getb b in
  when (b_valid x =? 0)
    (virtio_disk_rw b false ;!
     setb b (upd b_valid (fun _ => 1))) ;!
  ret b.

Definition bwrite (b : nat) : K unit :=
  let! h := holdingsleep (SLbuf b) in
  if negb h then panic "bwrite" else
  virtio_disk_rw b true.
End bio.

Definition brelse (b : nat) : K unit :=
  let! h := holdingsleep (SLbuf b) in
  if negb h then panic "brelse" else
  releasesleep (SLbuf b) ;!
  acquire Lbcache ;!
  setb b (upd b_refcnt (fun n => u32 (n - 1))) ;!
  let! x := getb b in
  when (b_refcnt x =? 0) (buf_unlink b ;! buf_push b) ;!
  release Lbcache.

Definition bpin (b : nat) : K unit :=
  acquire Lbcache ;!
  setb b (upd b_refcnt (fun n => u32 (n + 1))) ;!
  release Lbcache.
Definition bunpin (b : nat) : K unit :=
  acquire Lbcache ;!
  setb b (upd b_refcnt (fun n => u32 (n - 1))) ;!
  release Lbcache.

End Bio.
Export Bio.

(** ** Frames: the file system leaves the process view alone *)

Lemma view_getb i : frame proc_view (getb i).
Proof. unfold getb, getfs. segs_tac. Qed.
Lemma view_geti i : frame proc_view (geti i).
Proof. unfold geti, getfs. segs_tac. Qed.
#[export] Hint Resolve view_getb view_geti : segs.
Lemma view_setfs f : frame proc_view (setfs f).
Proof. apply segs_modify. intros s. reflexivity. Qed.
#[export] Hint Resolve view_setfs : segs.
Lemma view_setb i f : frame proc_view (setb i f).
Proof. unfold setb. segs_tac. Qed.
Lemma view_seti i f : frame proc_view (seti i f).
Proof. unfold seti. segs_tac. Qed.
#[export] Hint Resolve view_setb view_seti : segs.
Lemma view_getsl sl : frame proc_view (getsl sl).
Proof. unfold getsl. segs_tac. Qed.
Lemma view_setsl sl l : frame proc_view (setsl sl l).
Proof. unfold setsl. segs_tac. Qed.
#[export] Hint Resolve view_getsl view_setsl : segs.
Lemma view_acquiresleep {fuel : Fuel} sl : frame proc_view (acquiresleep sl).
Proof.
  unfold acquiresleep, mypid. segs_tac. induction sleep_fuel; cbn [acquiresleep_loop]; segs_tac.
Qed.
Lemma view_releasesleep sl : frame proc_view (releasesleep sl).
Proof. unfold releasesleep. segs_tac. Qed.
Lemma view_holdingsleep sl : frame proc_view (holdingsleep sl).
Proof. unfold holdingsleep, mypid. segs_tac. Qed.
#[export] Hint Resolve view_acquiresleep view_releasesleep view_holdingsleep : segs.
Lemma view_bread {fuel : Fuel} {disk : Disk} dev b : frame proc_view (bread dev b).
Proof.
  unfold bread, bget, bget_find, getfs.
  assert (H1 : forall k i, frame proc_view (bget_cached k i dev b))
    by (intros k; induction k; intros; cbn [bget_cached]; segs_tac).
  assert (H2 : forall k i, frame proc_view (bget_recycle k i dev b))
    by (intros k; induction k; intros; cbn [bget_recycle]; segs_tac).
  segs_tac.
Qed.
Lemma view_bwrite {disk : Disk} b : frame proc_view (bwrite b).
Proof. unfold bwrite. segs_tac. Qed.
Lemma view_brelse b : frame proc_view (brelse b).
Proof. unfold brelse, buf_unlink, buf_push. segs_tac. Qed.
Lemma view_bpin b : frame proc_view (bpin b).
Proof. unfold bpin. segs_tac. Qed.
Lemma view_bunpin b : frame proc_view (bunpin b).
Proof. unfold bunpin. segs_tac. Qed.
#[export] Hint Resolve view_bread view_bwrite view_brelse view_bpin view_bunpin : segs.
