(* ===== verification/BufCache.v ===== *)
(** * The buffer cache's list and its invariant

    bcache's buffers hang in one circular doubly linked list through
    bcache.head, the most recently released buffer first, and no block of a
    device is cached twice. *)

From S2P Require Import Prelude State Spinlock Sched FileLayer Proc Console Bio.

Module BufCache.

(** ** Circular lists *)

(** [seg nx a l z]: following [nx] from [a] visits [l] and then reaches [z]. *)
Fixpoint seg (nx : nat -> option nat) (a : nat) (l : list nat) (z : nat) : Prop :=
  match l with
  | [] => a = z
  | x :: l => a = x /\ exists c, nx x = Some c /\ seg nx c l z
  end.

Lemma seg_app nx a l1 l2 z : seg nx a (l1 ++ l2) z <-> exists m, seg nx a l1 m /\ seg nx m l2 z.
Proof.
  revert a. induction l1 as [|x l1 IH]; intros a; simpl.
  - split; [eauto|]. by intros (? & -> & ?).
  - split.
    + intros (-> & c & Hc & (m & ? & ?)%IH). eauto 10.
    + intros (m & (-> & c & Hc & ?) & ?). split; [done|]. exists c. split; [done|]. apply IH. eauto.
Qed.
Lemma seg_ext nx nx' a l z : (forall i, i ∈ l -> nx' i = nx i) -> seg nx a l z -> seg nx' a l z.
Proof.
  revert a. induction l as [|x l IH]; intros a Heq; simpl; [done|].
  intros (-> & c & Hc & Hs). split; [done|]. exists c. split; [rewrite Heq; [done|left]|].
  apply IH; [|done]. intros i Hi. apply Heq. by right.
Qed.
Lemma seg_head nx a x l z : seg nx a (x :: l) z -> a = x.
Proof. by intros [-> _]. Qed.

(** The last node is made to point elsewhere. *)
Lemma seg_retarget nx nx' a l p z z' : p ∉ l -> nx' p = Some z' -> (forall i, i ∈ l -> nx' i = nx i) ->
  seg nx a (l ++ [p]) z -> seg nx' a (l ++ [p]) z'.
Proof.
  intros Hp Hz Heq (m & Hs & -> & _)%seg_app. apply seg_app. exists p.
  split; [by eapply seg_ext|]. simpl. eauto.
Qed.

(** [cycle nx pv h l]: [nx] runs from [h] through [l] back to [h], and [pv]
    the other way round. *)
Definition cycle (nx pv : nat -> option nat) (h : nat) (l : list nat) : Prop :=
  seg nx h (h :: l) h /\ seg pv h (h :: reverse l) h.

Lemma cycle_sym nx pv h l : cycle nx pv h l -> cycle pv nx h (reverse l).
Proof. intros [H1 H2]. split; [done|]. by rewrite reverse_involutive. Qed.

Lemma snoc_exists (h : nat) l : exists l' p, h :: l = l' ++ [p].
Proof. destruct (exists_last (l := h :: l) ltac:(done)) as (l' & p & E). eauto. Qed.

Lemma snoc_in (h : nat) l l' p : h :: reverse l = l' ++ [p] -> p ∈ h :: l.
Proof.
  intros E. assert (Hp : p ∈ h :: reverse l) by (rewrite E; set_solver).
  by rewrite elem_of_cons, elem_of_reverse, <- elem_of_cons in Hp.
Qed.

(** What the links of a node say. *)
Lemma cycle_pred nx pv h l1 b l2 l' p : cycle nx pv h (l1 ++ b :: l2) -> h :: l1 = l' ++ [p] -> pv b = Some p.
Proof.
  intros [_ H2] E. rewrite reverse_app, reverse_cons, <- app_assoc in H2. simpl in H2.
  destruct H2 as (_ & c & Hc & (m & _ & Hb)%seg_app). simpl in Hb. destruct Hb as (-> & c' & Hc' & Hs).
  rewrite Hc'. f_equal. assert (Hp : reverse l1 ++ [h] = p :: reverse l').
  { apply (f_equal reverse) in E. by rewrite reverse_cons, reverse_app in E. }
  apply (seg_head pv c' p (reverse l') c). rewrite <- Hp. apply seg_app. exists h. split; [done|].
  simpl. eauto.
Qed.
Lemma cycle_succ nx pv h l l' p : cycle nx pv h l -> h :: reverse l = l' ++ [p] -> nx h = Some p.
Proof.
  intros [H1 _] E. destruct H1 as (_ & c & Hc & Hs). rewrite Hc. f_equal.
  assert (Hp : l ++ [h] = p :: reverse l').
  { apply (f_equal reverse) in E. by rewrite reverse_cons, reverse_app, reverse_involutive in E. }
  apply (seg_head nx c p (reverse l') c). rewrite <- Hp. apply seg_app. exists h. split; [done|]. simpl. eauto.
Qed.

(** Half of unlinking [b]: its predecessor points to its successor. *)
Lemma seg_unlink nx pv h l1 b l2 nx' : NoDup (h :: l1 ++ b :: l2) -> cycle nx pv h (l1 ++ b :: l2) ->
  (forall i, i <> b -> nx' i = if decide (pv b = Some i) then nx b else nx i) ->
  seg nx' h (h :: l1 ++ l2) h.
Proof.
  intros Hnd Hc Hnx. destruct (snoc_exists h l1) as (l' & p & E).
  pose proof (cycle_pred _ _ _ _ _ _ _ _ Hc E) as Hp. destruct Hc as [H1 _].
  rewrite app_comm_cons, E in H1, Hnd. apply seg_app in H1 as (m & Hm & Hb). simpl in Hb.
  destruct Hb as (-> & c & Hc & Hs). rewrite app_comm_cons, E. apply seg_app.
  apply NoDup_app in Hnd as (Hnd1 & Hd & Hnd2). apply NoDup_app in Hnd1 as (_ & Hp' & _).
  assert (forall i, i ∈ l' ++ [p] -> i <> b) by (intros i Hi ->; apply (Hd b); [done|left]).
  exists c. split.
  - apply (seg_retarget nx _ _ _ _ b); [intros Hi; apply (Hp' p Hi); by left| | |done].
    + rewrite Hnx by (set_solver). by rewrite decide_True.
    + intros i Hi. rewrite Hnx by set_solver. rewrite decide_False; [done|]. rewrite Hp. intros [= ->].
      apply (Hp' i); [done|left].
  - apply (seg_ext nx); [|done]. intros i Hi. apply NoDup_cons in Hnd2 as [Hb2 _].
    rewrite Hnx by set_solver. rewrite decide_False; [done|]. rewrite Hp. intros [= ->].
    apply (Hd i); [set_solver|by right].
Qed.
Lemma cycle_unlink nx pv h l1 b l2 nx' pv' : NoDup (h :: l1 ++ b :: l2) -> cycle nx pv h (l1 ++ b :: l2) ->
  (forall i, i <> b -> nx' i = if decide (pv b = Some i) then nx b else nx i) ->
  (forall i, i <> b -> pv' i = if decide (nx b = Some i) then pv b else pv i) ->
  cycle nx' pv' h (l1 ++ l2).
Proof.
  intros Hnd Hc Hnx Hpv. split; [by eapply seg_unlink|]. rewrite reverse_app.
  apply cycle_sym in Hc. rewrite reverse_app, reverse_cons, <- app_assoc in Hc.
  eapply seg_unlink; [|exact Hc|done]. simpl.
  assert (Hp : h :: reverse l2 ++ b :: reverse l1 ≡ₚ h :: l1 ++ b :: l2).
  { rewrite !reverse_Permutation. solve_Permutation. }
  by rewrite Hp.
Qed.

(** Inserting [b] after [h]. *)
Lemma cycle_push nx pv h l b nx' pv' : NoDup (h :: l) -> b ∉ h :: l -> cycle nx pv h l ->
  nx' b = nx h -> nx' h = Some b -> (forall i, i ∈ l -> nx' i = nx i) ->
  pv' b = Some h ->
  (forall i, i ∈ h :: l -> pv' i = if decide (nx h = Some i) then Some b else pv i) ->
  cycle nx' pv' h (b :: l).
Proof.
  intros Hnd Hb Hc Hnb Hnh Hnl Hpb Hpv.
  destruct (snoc_exists h (reverse l)) as (l' & p & E).
  pose proof (cycle_succ _ _ _ _ _ _ Hc E) as Hp. destruct Hc as [H1 H2]. split.
  - simpl in *. destruct H1 as (_ & c & Hc & Hs). split; [done|]. exists b. split; [done|]. split; [done|].
    exists c. split; [congruence|]. by apply (seg_ext nx).
  - rewrite reverse_cons, app_comm_cons, E. rewrite E in H2. apply seg_app. exists b.
    assert (Hnd' : NoDup (l' ++ [p])).
    { rewrite <- E. assert (HP : h :: reverse l ≡ₚ h :: l) by by rewrite reverse_Permutation. by rewrite HP. }
    apply NoDup_app in Hnd' as (_ & Hd & _).
    assert (Hin : forall i, i ∈ l' ++ [p] -> i ∈ h :: l).
    { intros i. rewrite <- E, !elem_of_cons, elem_of_reverse. done. }
    split; [|simpl; eauto]. apply (seg_retarget pv _ _ _ _ h).
    + intros Hi. apply (Hd p Hi). left.
    + rewrite Hpv by (apply Hin; set_solver). by rewrite decide_True.
    + intros i Hi. rewrite Hpv by (apply Hin; set_solver). rewrite decide_False; [done|].
      rewrite Hp. intros [= ->]. apply (Hd i Hi). left.
    + done.
Qed.

(** ** The list in the state *)

Abbreviation bufs s := (fs_bufs (k_fs s)).
Definition setbufs (s : kstate) (bs : list buf) : kstate := s <| k_fs := (k_fs s) <| fs_bufs := bs |> |>.
Lemma setbufs_setbufs s bs bs' : setbufs (setbufs s bs) bs' = setbufs s bs'.
Proof. reflexivity. Qed.
Lemma bufs_setbufs s bs : bufs (setbufs s bs) = bs.
Proof. reflexivity. Qed.

Lemma getb_done s i x : bufs s !! i = Some x -> getb i s = Done x s.
Proof. intros E. unfold getb, getfs, bind, gets. simpl. by rewrite E. Qed.
Lemma getb_inv s i x s' : getb i s = Done x s' -> s' = s /\ bufs s !! i = Some x.
Proof. unfold getb, getfs, bind, gets. simpl. apply deref_inv. Qed.
Lemma setb_done s i f x : bufs s !! i = Some x -> setb i f s = Done tt (setbufs s (<[i := f x]> (bufs s))).
Proof. intros E. unfold setb. rewrite (bind_done _ _ _ _ _ (getb_done _ _ _ E)). reflexivity. Qed.
Lemma setb_inv s i f a s' : setb i f s = Done a s' ->
  exists x, bufs s !! i = Some x /\ s' = setbufs s (<[i := f x]> (bufs s)).
Proof.
  unfold setb. intros (x & s1 & E & H)%bind_done_inv. apply getb_inv in E as [-> E].
  exists x. split; [done|]. by injection H as _ <-.
Qed.
Lemma wp_getb s i x (Q : buf -> kstate -> Prop) : bufs s !! i = Some x -> Q x s -> wp (getb i) s Q.
Proof. intros E. apply wp_eq. by apply getb_done. Qed.
Lemma wp_setb s i f x (Q : unit -> kstate -> Prop) :
  bufs s !! i = Some x -> Q tt (setbufs s (<[i := f x]> (bufs s))) -> wp (setb i f) s Q.
Proof. intros E. apply wp_eq. by apply setb_done. Qed.
Lemma nosw_getb i : noswitch (getb i).
Proof. unfold getb, getfs. nosw_tac. Qed.
Lemma nosw_setfs f : noswitch (setfs f).
Proof. unfold setfs. nosw_tac. Qed.
#[export] Hint Resolve nosw_getb nosw_setfs : nosw.
Lemma nosw_setb i f : noswitch (setb i f).
Proof. unfold setb. nosw_tac. Qed.
#[export] Hint Resolve nosw_setb : nosw.

Definition nextf (bs : list buf) (i : nat) : option nat := b_next <$> bs !! i.
Definition prevf (bs : list buf) (i : nat) : option nat := b_prev <$> bs !! i.
Definition ring (bs : list buf) (l : list nat) : Prop := cycle (nextf bs) (prevf bs) HEAD l.

Lemma field_insert {T} (f : buf -> T) (bs : list buf) (i : nat) x y j : bs !! i = Some x ->
  f <$> (<[i := y]> bs) !! j = if decide (i = j) then Some (f y) else f <$> bs !! j.
Proof.
  intros Hx. case_decide as E; [subst|by rewrite list_lookup_insert_ne].
  rewrite list_lookup_insert_eq; [done|by eapply lookup_lt_Some].
Qed.
Lemma nextf_insert (bs : list buf) i x y j : bs !! i = Some x ->
  nextf (<[i := y]> bs) j = if decide (i = j) then Some (b_next y) else nextf bs j.
Proof. apply field_insert. Qed.
Lemma prevf_insert (bs : list buf) i x y j : bs !! i = Some x ->
  prevf (<[i := y]> bs) j = if decide (i = j) then Some (b_prev y) else prevf bs j.
Proof. apply field_insert. Qed.

(** Everything of a buffer but its links. *)
Definition payload (b : buf) := (b_valid b, b_disk b, b_dev b, b_blockno b, b_lock b, b_refcnt b, b_data b).
Definition same_payload (bs bs' : list buf) : Prop := payload <$> bs' = payload <$> bs.
Lemma same_payload_lookup (bs bs' : list buf) (i : nat) x : same_payload bs bs' -> bs !! i = Some x ->
  exists x', bs' !! i = Some x' /\ payload x' = payload x.
Proof.
  intros H Hx. apply (f_equal (fun l => l !! i)) in H. rewrite !list_lookup_fmap, Hx in H.
  destruct (bs' !! i) as [x'|]; [|done]. exists x'. split; [done|]. exact (Some_inj _ _ H).
Qed.
Lemma same_payload_insert (bs bs' : list buf) (i : nat) x y : same_payload bs bs' -> bs' !! i = Some x -> payload y = payload x ->
  same_payload bs (<[i := y]> bs').
Proof.
  intros H Hx Hp. unfold same_payload. rewrite list_fmap_insert, Hp, <- H. apply list_insert_id.
  by rewrite list_lookup_fmap, Hx.
Qed.

Lemma cycle_next_in nx pv h l1 b l2 n : cycle nx pv h (l1 ++ b :: l2) -> nx b = Some n -> n ∈ h :: l2.
Proof.
  intros Hc Hn. apply cycle_sym in Hc. rewrite reverse_app, reverse_cons, <- app_assoc in Hc. simpl in Hc.
  destruct (snoc_exists h (reverse l2)) as (l' & p & E). rewrite (cycle_pred _ _ _ _ _ _ _ _ Hc E) in Hn.
  injection Hn as ->. by eapply snoc_in.
Qed.
Lemma cycle_prev_in nx pv h l1 b l2 p : cycle nx pv h (l1 ++ b :: l2) -> pv b = Some p -> p ∈ h :: l1.
Proof.
  intros Hc Hn. destruct (snoc_exists h l1) as (l' & p' & E). rewrite (cycle_pred _ _ _ _ _ _ _ _ Hc E) in Hn.
  injection Hn as ->. rewrite E. set_solver.
Qed.
Lemma cycle_head_in nx pv h l n : cycle nx pv h l -> nx h = Some n -> n ∈ h :: l.
Proof.
  intros Hc Hn. destruct (snoc_exists h (reverse l)) as (l' & p & E). rewrite (cycle_succ _ _ _ _ _ _ Hc E) in Hn.
  injection Hn as ->. by eapply snoc_in.
Qed.

(** The entries of [h :: l] exist. *)
Definition present (bs : list buf) (l : list nat) : Prop := forall i, i ∈ HEAD :: l -> is_Some (bs !! i).
Lemma same_payload_present bs bs' l : same_payload bs bs' -> present bs l -> present bs' l.
Proof. intros Hs Hp i Hi. destruct (Hp i Hi) as [x Hx]. destruct (same_payload_lookup _ _ _ _ Hs Hx) as (? & ? & _). eauto. Qed.

Lemma wp_unlink s l1 b l2 (Q : unit -> kstate -> Prop) :
  NoDup (HEAD :: l1 ++ b :: l2) -> present (bufs s) (l1 ++ b :: l2) -> ring (bufs s) (l1 ++ b :: l2) ->
  (forall bs', same_payload (bufs s) bs' -> ring bs' (l1 ++ l2) -> Q tt (setbufs s bs')) ->
  wp (buf_unlink b) s Q.
Proof.
  intros Hnd Hp Hr HQ. set (bs := bufs s) in *. destruct (Hp b ltac:(set_solver)) as [xb Hb].
  assert (Hn : nextf bs b = Some (b_next xb)) by (unfold nextf; by rewrite Hb).
  assert (Hpv : prevf bs b = Some (b_prev xb)) by (unfold prevf; by rewrite Hb).
  pose proof (cycle_next_in _ _ _ _ _ _ _ Hr Hn) as Hni. pose proof (cycle_prev_in _ _ _ _ _ _ _ Hr Hpv) as Hpi.
  destruct (Hp (b_next xb) ltac:(set_solver)) as [xn Hxn]. destruct (Hp (b_prev xb) ltac:(set_solver)) as [xp Hxp].
  assert (Hne : b_next xb <> b).
  { intros E. rewrite E in Hni. apply elem_of_cons in Hni as [->|Hi]; apply NoDup_cons in Hnd as [H1 H2]; [set_solver|].
    apply NoDup_app in H2 as (_ & _ & [H3 _]%NoDup_cons). done. }
  unfold buf_unlink. apply wp_bind, (wp_getb _ _ xb); [done|]. apply wp_bind, (wp_setb _ _ _ xn); [done|].
  apply wp_bind, (wp_getb _ _ xb); [rewrite bufs_setbufs; by rewrite list_lookup_insert_ne|].
  pose (bs1 := <[b_next xb := upd b_prev (fun _ => b_prev xb) xn]> bs). change (<[b_next xb := _]> _) with bs1.
  assert (Hxp1 : exists x1, bs1 !! b_prev xb = Some x1 /\ b_prev x1 = if decide (b_next xb = b_prev xb) then b_prev xb else b_prev xp).
  { unfold bs1. case_decide as E.
    - rewrite <- E, list_lookup_insert_eq by (by eapply lookup_lt_Some). eexists. split; [done|]. by ksimp.
    - rewrite list_lookup_insert_ne by done. eauto. }
  destruct Hxp1 as (x1 & Hx1 & Hx1p). apply (wp_setb _ _ _ x1); [done|]. rewrite setbufs_setbufs, bufs_setbufs. apply HQ.
  - eapply same_payload_insert; [|exact Hx1|reflexivity]. by eapply same_payload_insert.
  - eapply cycle_unlink; [exact Hnd|exact Hr| |]; intros i Hi; rewrite Hn, Hpv.
    + rewrite (nextf_insert _ _ x1) by done. unfold bs1. rewrite (nextf_insert _ _ xn) by done.
      repeat case_decide; simplify_eq; try done. unfold nextf. by rewrite Hxn.
    + rewrite (prevf_insert _ _ x1) by done. unfold bs1. rewrite (prevf_insert _ _ xn) by done.
      repeat case_decide; simplify_eq; try done; ksimp; rewrite ?Hx1p; unfold prevf; rewrite ?Hxp;
        repeat case_decide; simplify_eq; first [done|congruence].
Qed.

(** The list after the four assignments of an insertion at the head, [xn] being
    the old first node and [h3] the head before the last of them. *)
Lemma ring_push bs bs2 l b y h xn h3 : NoDup (HEAD :: l) -> b ∉ HEAD :: l -> ring bs l ->
  bs !! HEAD = Some h -> bs2 !! b_next h = Some xn ->
  bs2 !! b = Some y -> b_next y = b_next h -> b_prev y = HEAD ->
  (forall i, i <> b -> bs2 !! i = bs !! i) ->
  <[b_next h := upd b_prev (fun _ => b) xn]> bs2 !! HEAD = Some h3 ->
  b_next h ∈ HEAD :: l ->
  ring (<[HEAD := upd b_next (fun _ => b) h3]> (<[b_next h := upd b_prev (fun _ => b) xn]> bs2)) (b :: l).
Proof.
  intros Hnd Hb Hr Hh Hxn Hy Hyn Hyp Hlk Hh3 Hni.
  assert (Hn : nextf bs HEAD = Some (b_next h)) by (unfold nextf; by rewrite Hh).
  assert (b <> HEAD) by set_solver. assert (b <> b_next h) by set_solver.
  assert (Enx : forall i, nextf (<[HEAD := upd b_next (fun _ => b) h3]> (<[b_next h := upd b_prev (fun _ => b) xn]> bs2)) i =
    if decide (HEAD = i) then Some b else if decide (b = i) then Some (b_next h) else nextf bs i).
  { intros i. rewrite (nextf_insert _ _ h3), (nextf_insert _ _ xn) by done. unfold nextf.
    repeat case_decide; subst; ksimp; try done; rewrite ?Hy, <- ?Hlk by done; rewrite ?Hxn; simpl; congruence. }
  assert (Hh3p : Some (b_prev h3) = if decide (b_next h = HEAD) then Some b else prevf bs HEAD).
  { unfold prevf. rewrite <- Hlk by done. case_decide as E.
    - rewrite E, list_lookup_insert_eq in Hh3 by (rewrite E in Hxn; by eapply lookup_lt_Some). by injection Hh3 as <-.
    - rewrite list_lookup_insert_ne in Hh3 by done. by rewrite Hh3. }
  assert (Epv : forall i, prevf (<[HEAD := upd b_next (fun _ => b) h3]> (<[b_next h := upd b_prev (fun _ => b) xn]> bs2)) i =
    if decide (b_next h = i) then Some b else if decide (b = i) then Some HEAD else prevf bs i).
  { intros i. rewrite (prevf_insert _ _ h3), (prevf_insert _ _ xn) by done. ksimp. unfold prevf in *.
    repeat case_decide; subst; rewrite ?Hh3p; ksimp; try done; rewrite ?Hy, <- ?Hlk by done; simpl; congruence. }
  eapply cycle_push; [exact Hnd|exact Hb|exact Hr|..].
  - by rewrite Enx, decide_False, decide_True, Hn by done.
  - by rewrite Enx, decide_True.
  - intros i Hi. rewrite Enx, !decide_False; [done|set_solver|]. intros E. apply NoDup_cons in Hnd as [Hnd _]. by rewrite E in Hnd.
  - by rewrite Epv, decide_False, decide_True by done.
  - intros i Hi. rewrite Epv, Hn. repeat case_decide; simplify_eq; done.
Qed.

Lemma wp_push s l b xb (Q : unit -> kstate -> Prop) :
  NoDup (HEAD :: l) -> b ∉ HEAD :: l -> present (bufs s) l -> bufs s !! b = Some xb -> ring (bufs s) l ->
  (forall bs', same_payload (bufs s) bs' -> ring bs' (b :: l) -> Q tt (setbufs s bs')) ->
  wp (buf_push b) s Q.
Proof.
  intros Hnd Hb Hp Hxb Hr HQ. set (bs := bufs s) in *.
  destruct (Hp HEAD ltac:(set_solver)) as [h Hh].
  assert (Hn : nextf bs HEAD = Some (b_next h)) by (unfold nextf; by rewrite Hh).
  pose proof (cycle_head_in _ _ _ _ _ Hr Hn) as Hni. destruct (Hp _ Hni) as [xn Hxn].
  assert (Hbh : b <> HEAD) by set_solver. assert (Hbn : b <> b_next h) by set_solver.
  unfold buf_push. apply wp_bind, (wp_getb _ _ h); [done|]. apply wp_bind, (wp_setb _ _ _ xb); [done|].
  pose (bs1 := <[b := upd b_next (fun _ => b_next h) xb]> bs). change (<[b := _]> _) with bs1.
  assert (Hx1 : bs1 !! b = Some (upd b_next (fun _ => b_next h) xb))
    by (apply list_lookup_insert_eq; by eapply lookup_lt_Some).
  apply wp_bind. eapply wp_setb; [exact Hx1|]. rewrite setbufs_setbufs, bufs_setbufs.
  pose (bs2 := <[b := upd b_prev (fun _ => HEAD) (upd b_next (fun _ => b_next h) xb)]> bs1).
  change (<[b := _]> bs1) with bs2.
  assert (Hlk : forall i, i <> b -> bs2 !! i = bs !! i).
  { intros i Hi. unfold bs2, bs1. by rewrite !list_lookup_insert_ne. }
  assert (Hxn2 : bs2 !! b_next h = Some xn) by by rewrite Hlk.
  apply wp_bind, (wp_getb _ _ h); [by rewrite bufs_setbufs, Hlk|].
  apply wp_bind, (wp_setb _ _ _ xn); [done|]. rewrite setbufs_setbufs, bufs_setbufs.
  pose (bs3 := <[b_next h := upd b_prev (fun _ => b) xn]> bs2). change (<[b_next h := _]> bs2) with bs3.
  destruct (bs3 !! HEAD) as [h3|] eqn:Hh3; cycle 1.
  { unfold bs3 in Hh3. apply lookup_ge_None in Hh3. rewrite length_insert in Hh3.
    apply lookup_ge_None in Hh3. by rewrite Hlk, Hh in Hh3. }
  apply (wp_setb _ _ _ h3); [done|]. rewrite setbufs_setbufs, bufs_setbufs. apply HQ.
  - eapply same_payload_insert; [|exact Hh3|reflexivity]. eapply same_payload_insert; [|exact Hxn2|reflexivity].
    eapply same_payload_insert; [|exact Hx1|reflexivity]. by eapply same_payload_insert.
  - eapply ring_push; [exact Hnd|exact Hb|exact Hr|exact Hh|exact Hxn2| | | |exact Hlk|exact Hh3|exact Hni].
    + apply list_lookup_insert_eq. by eapply lookup_lt_Some.
    + by ksimp.
    + by ksimp.
Qed.

(** ** The invariant *)

Record cache_ok (bs : list buf) : Prop := {
  co_length : length bs = S (Z.to_nat NBUF);
  co_ring : exists l, l ≡ₚ all_bufs /\ ring bs l;
  co_unique i j x y : i <> HEAD -> j <> HEAD -> bs !! i = Some x -> bs !! j = Some y ->
    b_dev x <> 0 -> b_dev x = b_dev y -> b_blockno x = b_blockno y -> i = j;
  co_head h : bs !! HEAD = Some h -> sl_locked (b_lock h) = 0;
}.

Lemma all_bufs_lt i : i ∈ all_bufs <-> (i < HEAD)%nat.
Proof. unfold all_bufs. rewrite elem_of_seq. unfold HEAD. lia. Qed.
Lemma all_bufs_nodup l : l ≡ₚ all_bufs -> NoDup (HEAD :: l).
Proof.
  intros Hl. apply NoDup_cons. split.
  - rewrite Hl, all_bufs_lt. lia.
  - rewrite Hl. apply NoDup_seq.
Qed.
Lemma cache_present bs l : cache_ok bs -> l ≡ₚ all_bufs -> present bs l.
Proof.
  intros Hc Hl i Hi. apply lookup_lt_is_Some. rewrite (co_length _ Hc).
  apply elem_of_cons in Hi as [->|Hi]; [unfold HEAD; lia|]. rewrite Hl, all_bufs_lt in Hi. unfold HEAD in Hi. lia.
Qed.

(** Changing no link, no identity and no lock of the head. *)
Definition same_ids (bs bs' : list buf) : Prop :=
  (fun b => (b_next b, b_prev b, b_dev b, b_blockno b)) <$> bs' =
  (fun b => (b_next b, b_prev b, b_dev b, b_blockno b)) <$> bs.
Lemma same_ids_lookup (bs bs' : list buf) (i : nat) x' : same_ids bs bs' -> bs' !! i = Some x' ->
  exists x, bs !! i = Some x /\ b_next x' = b_next x /\ b_prev x' = b_prev x /\ b_dev x' = b_dev x /\ b_blockno x' = b_blockno x.
Proof.
  intros H Hx. apply (f_equal (fun l => l !! i)) in H. rewrite !list_lookup_fmap, Hx in H.
  destruct (bs !! i) as [x|]; [|done]. exists x. simpl in H. by simplify_eq.
Qed.
Lemma same_ids_ring bs bs' l : same_ids bs bs' -> ring bs l -> ring bs' l.
Proof.
  intros H [H1 H2]. split; (eapply seg_ext; [|eassumption]); intros i _; unfold nextf, prevf;
    apply (f_equal (fun l => l !! i)) in H; rewrite !list_lookup_fmap in H;
    destruct (bs !! i), (bs' !! i); simpl in *; congruence.
Qed.
Lemma cache_same_ids bs bs' : same_ids bs bs' ->
  (forall h, bs' !! HEAD = Some h -> sl_locked (b_lock h) = 0) -> cache_ok bs -> cache_ok bs'.
Proof.
  intros H Hh [Hl (l & Hp & Hr) Hu _]. split; [|..|done].
  - apply (f_equal length) in H. rewrite !length_fmap in H. congruence.
  - exists l. split; [done|]. by eapply same_ids_ring.
  - intros i j x y Hi Hj Hx Hy Hd. destruct (same_ids_lookup _ _ _ _ H Hx) as (x0 & ? & _ & _ & Ex & Ex').
    destruct (same_ids_lookup _ _ _ _ H Hy) as (y0 & ? & _ & _ & Ey & Ey').
    rewrite Ex in Hd. rewrite Ex, Ey, Ex', Ey'. eauto.
Qed.
(** One buffer changes. *)
Lemma cache_update bs i x y : bs !! i = Some x -> cache_ok bs ->
  b_next y = b_next x -> b_prev y = b_prev x -> b_dev y = b_dev x -> b_blockno y = b_blockno x ->
  (i = HEAD -> sl_locked (b_lock y) = 0) -> cache_ok (<[i := y]> bs).
Proof.
  intros Hx Hc Hn Hp Hd Hb Hl. apply (cache_same_ids bs); [| |done].
  - unfold same_ids. rewrite list_fmap_insert, Hn, Hp, Hd, Hb. apply list_insert_id. by rewrite list_lookup_fmap, Hx.
  - intros h Hh. apply list_lookup_insert_Some in Hh as [(E & <- & _)|[_ Hh]]; [by apply Hl|].
    by apply (co_head _ Hc).
Qed.
(** A buffer is given to a block that is not cached. *)
Lemma cache_recycle bs i x y : bs !! i = Some x -> cache_ok bs -> i <> HEAD ->
  b_next y = b_next x -> b_prev y = b_prev x ->
  (forall j z, j <> HEAD -> bs !! j = Some z -> b_dev z = b_dev y -> b_blockno z = b_blockno y -> False) ->
  cache_ok (<[i := y]> bs).
Proof.
  intros Hx Hc Hi Hn Hp Hnot. destruct Hc as [Hl (l & Hpm & Hr) Hu Hh]. split.
  - by rewrite length_insert.
  - exists l. split; [done|]. destruct Hr as [H1 H2].
    split; (eapply seg_ext; [|eassumption]); intros j _;
      [rewrite (nextf_insert _ _ x)|rewrite (prevf_insert _ _ x)]; try done;
      case_decide; subst; try done; unfold nextf, prevf; rewrite Hx; simpl; congruence.
  - intros j1 j2 x1 x2 Hj1 Hj2 H1 H2 Hd Hd' Hb'.
    apply list_lookup_insert_Some in H1 as [(-> & <- & _)|[N1 H1]];
      apply list_lookup_insert_Some in H2 as [(-> & <- & _)|[N2 H2]]; [done|..].
    + by destruct (Hnot j2 x2).
    + by destruct (Hnot j1 x1).
    + eapply Hu; [exact Hj1|exact Hj2|exact H1|exact H2|..]; done.
  - intros h Hhd. rewrite list_lookup_insert_ne in Hhd by done. by apply Hh.
Qed.

(** brelse moves a buffer to the front. *)
Lemma same_payload_cache bs bs' l' : same_payload bs bs' -> l' ≡ₚ all_bufs -> ring bs' l' -> cache_ok bs -> cache_ok bs'.
Proof.
  intros Hs Hl Hr [Hlen _ Hu Hh].
  assert (Hback : forall (i : nat) x, bs' !! i = Some x -> exists y, bs !! i = Some y /\ payload y = payload x).
  { intros i x Hx. apply (same_payload_lookup bs' bs); [by symmetry|done]. }
  split.
  - apply (f_equal length) in Hs. rewrite !length_fmap in Hs. congruence.
  - eauto.
  - intros i j x y Hi Hj (x0 & Hx0 & [=])%Hback (y0 & Hy0 & [=])%Hback ? ? ?. apply (Hu i j x0 y0); congruence.
  - intros h (h0 & Hh0 & [=])%Hback. rewrite <- (Hh h0 Hh0). congruence.
Qed.
Lemma wp_move s l1 b l2 (Q : unit -> kstate -> Prop) :
  cache_ok (bufs s) -> l1 ++ b :: l2 ≡ₚ all_bufs -> ring (bufs s) (l1 ++ b :: l2) ->
  (forall bs', same_payload (bufs s) bs' -> ring bs' (b :: l1 ++ l2) -> cache_ok bs' -> Q tt (setbufs s bs')) ->
  wp (buf_unlink b ;! buf_push b) s Q.
Proof.
  intros Hc Hl Hr HQ. pose proof (all_bufs_nodup _ Hl) as Hnd. pose proof (cache_present _ _ Hc Hl) as Hp.
  destruct (Hp b ltac:(set_solver)) as [xb Hb].
  assert (HP : HEAD :: l1 ++ b :: l2 ≡ₚ b :: HEAD :: l1 ++ l2) by solve_Permutation.
  apply wp_bind, (wp_unlink _ l1 b l2); [done..|]. intros bs1 Hs1 Hr1.
  destruct (same_payload_lookup _ _ _ _ Hs1 Hb) as (xb1 & Hb1 & _).
  rewrite HP in Hnd. apply NoDup_cons in Hnd as [Hnb Hnd].
  apply (wp_push _ (l1 ++ l2) b xb1); [done|done| |done|done|].
  { apply (same_payload_present (bufs s)); [done|]. intros i Hi. apply Hp. set_solver. }
  intros bs2 Hs2 Hr2. rewrite setbufs_setbufs, bufs_setbufs in *.
  assert (Hs : same_payload (bufs s) bs2) by (unfold same_payload in *; congruence).
  apply HQ; [done|done|]. apply (same_payload_cache (bufs s) _ (b :: l1 ++ l2)); [done| |done|done].
  rewrite <- Hl. solve_Permutation.
Qed.

(** ** The two scans of bget *)

Definition holds (dev blockno : Z) (x : buf) : Prop := b_dev x = dev /\ b_blockno x = blockno.
Definition reuse (dev blockno : Z) (x : buf) : buf :=
  x <| b_dev := dev |> <| b_blockno := blockno |> <| b_valid := 0 |> <| b_refcnt := 1 |>.
Definition ref_up (x : buf) : buf := upd b_refcnt (fun n => u32 (n + 1)) x.

Lemma bget_cached_run k b l dev blockno s :
  seg (nextf (bufs s)) b l HEAD -> HEAD ∉ l -> (length l <= k)%nat ->
  (exists l1 i x l2, l = l1 ++ i :: l2 /\ bufs s !! i = Some x /\ holds dev blockno x /\
     bget_cached k b dev blockno s = Done (Some i) (setbufs s (<[i := ref_up x]> (bufs s)))) \/
  ((forall j y, j ∈ l -> bufs s !! j = Some y -> ~ holds dev blockno y) /\
     bget_cached k b dev blockno s = Done None s).
Proof.
  revert b k. induction l as [|i l IH]; intros b k Hs Hh Hk; simpl in Hs.
  { right. split; [set_solver|]. subst b. destruct k; cbn [bget_cached]; by rewrite decide_True. }
  destruct Hs as (-> & c & Hc & Hs). destruct k as [|k]; simpl in Hk; [lia|]. cbn [bget_cached].
  rewrite decide_False by set_solver. unfold nextf in Hc. destruct (bufs s !! i) as [x|] eqn:Hx; [|done].
  injection Hc as Hc. rewrite (bind_done _ _ _ _ _ (getb_done _ _ _ Hx)).
  destruct ((b_dev x =? dev) && (b_blockno x =? blockno)) eqn:E.
  - left. exists [], i, x, l. apply andb_true_iff in E as [E1%Z.eqb_eq E2%Z.eqb_eq]. split_and!; [done..|].
    rewrite (bind_done _ _ _ _ _ (setb_done _ _ _ _ Hx)). done.
  - rewrite Hc. destruct (IH c k Hs ltac:(set_solver) ltac:(lia)) as [(l1 & j & y & l2 & -> & Hy & Hm & Hr)|[Hm Hr]].
    + left. exists (i :: l1), j, y, l2. done.
    + right. split; [|done]. intros j y [->|Hj]%elem_of_cons Hy; [|by apply (Hm j)]. simplify_eq.
      intros [H1%Z.eqb_eq H2%Z.eqb_eq]. by rewrite H1, H2 in E.
Qed.

Lemma bget_recycle_run k b l dev blockno s :
  seg (prevf (bufs s)) b l HEAD -> HEAD ∉ l -> (length l <= k)%nat ->
  (exists l1 i x l2, l = l1 ++ i :: l2 /\ bufs s !! i = Some x /\ b_refcnt x = 0 /\
     (forall j y, j ∈ l1 -> bufs s !! j = Some y -> b_refcnt y <> 0) /\
     bget_recycle k b dev blockno s = Done (Some i) (setbufs s (<[i := reuse dev blockno x]> (bufs s)))) \/
  ((forall j y, j ∈ l -> bufs s !! j = Some y -> b_refcnt y <> 0) /\
     bget_recycle k b dev blockno s = Done None s).
Proof.
  revert b k. induction l as [|i l IH]; intros b k Hs Hh Hk; simpl in Hs.
  { right. split; [set_solver|]. subst b. destruct k; cbn [bget_recycle]; by rewrite decide_True. }
  destruct Hs as (-> & c & Hc & Hs). destruct k as [|k]; simpl in Hk; [lia|]. cbn [bget_recycle].
  rewrite decide_False by set_solver. unfold prevf in Hc. destruct (bufs s !! i) as [x|] eqn:Hx; [|done].
  injection Hc as Hc. rewrite (bind_done _ _ _ _ _ (getb_done _ _ _ Hx)).
  destruct (Z.eqb_spec (b_refcnt x) 0) as [E|E].
  - left. exists [], i, x, l. split_and!; [done..|set_solver|].
    rewrite (bind_done _ _ _ _ _ (setb_done _ _ _ _ Hx)). done.
  - rewrite Hc. destruct (IH c k Hs ltac:(set_solver) ltac:(lia)) as [(l1 & j & y & l2 & -> & Hy & Hm & Hf & Hr)|[Hm Hr]].
    + left. exists (i :: l1), j, y, l2. split_and!; [done..| |done].
      intros j' y' [->|Hj]%elem_of_cons Hy'; [by simplify_eq|by apply (Hf j')].
    + right. split; [|done]. intros j y [->|Hj]%elem_of_cons Hy; [by simplify_eq|by apply (Hm j)].
Qed.

(** What bget finds: [l] is the order of the list, most recent first. *)
Inductive lookup_result (bs : list buf) (l : list nat) (dev blockno : Z) : option (nat * buf) -> Prop :=
| lookup_hit i x : i ∈ l -> bs !! i = Some x -> holds dev blockno x ->
    lookup_result bs l dev blockno (Some (i, ref_up x))
| lookup_miss l1 i x l2 : l = l1 ++ i :: l2 -> bs !! i = Some x -> b_refcnt x = 0 ->
    (forall j y, j ∈ l -> bs !! j = Some y -> ~ holds dev blockno y) ->
    (forall j y, j ∈ l2 -> bs !! j = Some y -> b_refcnt y <> 0) ->
    lookup_result bs l dev blockno (Some (i, reuse dev blockno x))
| lookup_none : (forall j y, j ∈ l -> bs !! j = Some y -> ~ holds dev blockno y) ->
    (forall j y, j ∈ l -> bs !! j = Some y -> b_refcnt y <> 0) ->
    lookup_result bs l dev blockno None.

Lemma lookup_result_cache bs l dev blockno i y : cache_ok bs -> l ≡ₚ all_bufs ->
  lookup_result bs l dev blockno (Some (i, y)) ->
  i <> HEAD /\ holds dev blockno y /\ cache_ok (<[i := y]> bs).
Proof.
  intros Hc Hl Hr.
  assert (Hin : forall j, j ∈ l <-> (j < HEAD)%nat) by (intros j; by rewrite Hl, all_bufs_lt).
  inversion Hr as [i0 x Hi Hx Hh|l1 i0 x l2 El Hx H0 Hno Hun|]; subst.
  - apply Hin in Hi. split; [lia|]. split; [done|]. by eapply cache_update; [exact Hx|..]; try done; intros ->; lia.
  - assert (Hi : (i < HEAD)%nat) by (apply Hin; set_solver). split; [lia|]. split; [done|].
    eapply cache_recycle; [exact Hx|done|lia|done|done|]. intros j z Hj Hz Hd Hb. eapply (Hno j z); [|done|done].
    apply Hin. apply lookup_lt_Some in Hz. rewrite (co_length _ Hc) in Hz. unfold HEAD in *. lia.
Qed.

Lemma bget_find_run s l dev blockno :
  cache_ok (bufs s) -> l ≡ₚ all_bufs -> ring (bufs s) l ->
  exists r, lookup_result (bufs s) l dev blockno r /\
    bget_find dev blockno s =
      Done (fst <$> r) (match r with Some (i, y) => setbufs s (<[i := y]> (bufs s)) | None => s end).
Proof.
  intros Hc Hl Hr. pose proof (all_bufs_nodup l Hl) as [Hh _]%NoDup_cons.
  assert (Hlen : (length l <= Z.to_nat NBUF)%nat) by (rewrite Hl; unfold all_bufs; by rewrite length_seq).
  destruct (cache_present _ _ Hc Hl HEAD ltac:(set_solver)) as [h Hhd].
  destruct Hr as [(_ & c & Hn & Hs1) (_ & d & Hp & Hs2)].
  assert (c = b_next h) as -> by (unfold nextf in Hn; rewrite Hhd in Hn; by injection Hn).
  assert (d = b_prev h) as -> by (unfold prevf in Hp; rewrite Hhd in Hp; by injection Hp).
  unfold bget_find. rewrite (bind_done _ _ _ _ _ (getb_done _ _ _ Hhd)).
  destruct (bget_cached_run (Z.to_nat NBUF) (b_next h) l dev blockno s Hs1 Hh Hlen)
    as [(l1 & i & x & l2 & -> & Hx & Hm & E)|[Hm E]]; rewrite (bind_done _ _ _ _ _ E).
  { exists (Some (i, ref_up x)). split; [|done]. apply lookup_hit; [set_solver|done..]. }
  rewrite (bind_done _ _ _ _ _ (getb_done _ _ _ Hhd)).
  destruct (bget_recycle_run (Z.to_nat NBUF) (b_prev h) (reverse l) dev blockno s Hs2)
    as [(l1 & i & x & l2 & El & Hx & H0 & Hf & E')|[Hf E']];
    [by rewrite elem_of_reverse|by rewrite length_reverse|..]; rewrite E'.
  - exists (Some (i, reuse dev blockno x)). split; [|done]. apply (f_equal reverse) in El.
    rewrite reverse_involutive, reverse_app, reverse_cons, <- app_assoc in El.
    eapply lookup_miss; [exact El|done|done|done|]. intros j y Hj. apply Hf. by apply elem_of_reverse.
  - exists None. split; [|done]. constructor; [done|]. intros j y Hj. apply Hf. by apply elem_of_reverse.
Qed.

(** ** binit *)

(** After [n] rounds: the first [n] buffers are in the list, the last one
    first; nothing but links and locks has changed. *)
Record binit_ok (bs0 bs : list buf) (n : nat) : Prop := {
  bi_ring : ring bs (reverse (seq 0 n));
  bi_length : length bs = length bs0;
  bi_dev i x : bs !! i = Some x -> exists x0, bs0 !! i = Some x0 /\ b_dev x = b_dev x0;
  bi_head h : bs !! HEAD = Some h -> exists h0, bs0 !! HEAD = Some h0 /\ b_lock h = b_lock h0;
}.

Lemma binit_step bs0 bs n h x xn h3 : binit_ok bs0 bs n -> (n < HEAD)%nat ->
  bs !! HEAD = Some h -> bs !! n = Some x ->
  let y := upd b_lock (fun _ => zero_sleeplock) (x <| b_next := b_next h |> <| b_prev := HEAD |>) in
  let bs2 := <[n := y]> bs in
  bs2 !! b_next h = Some xn -> <[b_next h := upd b_prev (fun _ => n) xn]> bs2 !! HEAD = Some h3 ->
  binit_ok bs0 (<[HEAD := upd b_next (fun _ => n) h3]> (<[b_next h := upd b_prev (fun _ => n) xn]> bs2)) (S n).
Proof.
  intros [Hr Hl Hd Hh] Hn Hhd Hx y bs2 Hxn Hh3.
  assert (Hni : b_next h ∈ HEAD :: reverse (seq 0 n)).
  { apply (cycle_head_in (nextf bs) (prevf bs)); [done|]. unfold nextf. by rewrite Hhd. }
  assert (Hnin : n ∉ HEAD :: reverse (seq 0 n)).
  { rewrite elem_of_cons, elem_of_reverse, elem_of_seq. lia. }
  assert (b_next h <> n) by set_solver.
  assert (Hback : forall i z, bs2 !! i = Some z -> exists z0, bs !! i = Some z0 /\ b_dev z = b_dev z0 /\
    (i = HEAD -> b_lock z = b_lock z0)).
  { intros i z Hz. unfold bs2 in Hz. apply list_lookup_insert_Some in Hz as [(<- & <- & _)|[_ Hz]]; [|eauto].
    exists x. split; [done|]. split; [done|lia]. }
  assert (Hback3 : forall i z, <[b_next h := upd b_prev (fun _ => n) xn]> bs2 !! i = Some z ->
    exists z0, bs !! i = Some z0 /\ b_dev z = b_dev z0 /\ (i = HEAD -> b_lock z = b_lock z0)).
  { intros i z Hz. apply list_lookup_insert_Some in Hz as [(<- & <- & _)|[_ Hz]]; [|eauto].
    destruct (Hback _ _ Hxn) as (z0 & ? & ? & ?). exists z0. done. }
  assert (Hback4 : forall i z, <[HEAD := upd b_next (fun _ => n) h3]> (<[b_next h := upd b_prev (fun _ => n) xn]> bs2) !! i = Some z ->
    exists z0, bs !! i = Some z0 /\ b_dev z = b_dev z0 /\ (i = HEAD -> b_lock z = b_lock z0)).
  { intros i z Hz. apply list_lookup_insert_Some in Hz as [(<- & <- & _)|[_ Hz]]; [|eauto].
    destruct (Hback3 _ _ Hh3) as (z0 & ? & ? & ?). exists z0. done. }
  split.
  - rewrite seq_S, reverse_snoc. simpl.
    eapply ring_push; [|exact Hnin|exact Hr|exact Hhd|exact Hxn| | | | |exact Hh3|exact Hni].
    + apply NoDup_cons. rewrite elem_of_reverse, elem_of_seq. split; [lia|]. rewrite reverse_Permutation. apply NoDup_seq.
    + apply list_lookup_insert_eq. by eapply lookup_lt_Some.
    + done.
    + done.
    + intros i Hi. by apply list_lookup_insert_ne.
  - unfold bs2. by rewrite !length_insert.
  - intros i z (z0 & Hz0 & -> & _)%Hback4. by apply Hd.
  - intros z (z0 & Hz0 & _ & Hlk)%Hback4. destruct (Hh _ Hz0) as (h0 & ? & ?). exists h0. split; [done|].
    by rewrite Hlk.
Qed.

Lemma wp_binit_round bs0 s n (Q : unit -> kstate -> Prop) :
  length bs0 = S HEAD -> binit_ok bs0 (bufs s) n -> (n < HEAD)%nat ->
  (forall bs', binit_ok bs0 bs' (S n) -> Q tt (setbufs s bs')) ->
  wp (let! h := getb HEAD in
      setb n (fun b => b <| b_next := b_next h |> <| b_prev := HEAD |>) ;!
      initsleeplock (SLbuf n) ;!
      let! h := getb HEAD in
      setb (b_next h) (upd b_prev (fun _ => n)) ;!
      setb HEAD (upd b_next (fun _ => n))) s Q.
Proof.
  intros H0 Hb Hn HQ. pose proof (bi_length _ _ _ Hb) as Hl.
  assert (Hlk : forall i, (i < S HEAD)%nat -> is_Some (bufs s !! i)) by (intros i Hi; apply lookup_lt_is_Some; lia).
  destruct (Hlk HEAD ltac:(lia)) as [h Hh]. destruct (Hlk n ltac:(lia)) as [x Hx].
  assert (Hni : b_next h ∈ HEAD :: reverse (seq 0 n)).
  { apply (cycle_head_in (nextf (bufs s)) (prevf (bufs s))); [apply Hb|]. unfold nextf. by rewrite Hh. }
  assert (Hn1 : b_next h <> n /\ (b_next h < S HEAD)%nat).
  { apply elem_of_cons in Hni as [->|Hni]; [lia|]. apply elem_of_reverse, elem_of_seq in Hni. lia. }
  destruct (Hlk (b_next h) (proj2 Hn1)) as [xn Hxn].
  apply wp_bind, (wp_getb _ _ h); [done|]. apply wp_bind, (wp_setb _ _ _ x); [done|].
  unfold initsleeplock, setsl. apply wp_bind. eapply wp_setb.
  { rewrite bufs_setbufs. apply list_lookup_insert_eq. by eapply lookup_lt_Some. }
  rewrite setbufs_setbufs, bufs_setbufs, list_insert_insert_eq.
  set (bs2 := <[n := _]> (bufs s)).
  assert (Hlk2 : forall i, i <> n -> bs2 !! i = bufs s !! i) by (intros i Hi; by apply list_lookup_insert_ne).
  apply wp_bind, (wp_getb _ _ h); [rewrite bufs_setbufs, Hlk2; [done|lia]|].
  apply wp_bind, (wp_setb _ _ _ xn); [rewrite bufs_setbufs, Hlk2; [done|apply Hn1]|]. rewrite setbufs_setbufs, bufs_setbufs.
  assert (H3 : is_Some ((<[b_next h := upd b_prev (fun _ => n) xn]> bs2) !! HEAD)).
  { apply lookup_lt_is_Some. unfold bs2. rewrite !length_insert. lia. }
  destruct H3 as [h3 Hh3]. apply (wp_setb _ _ _ h3); [done|]. rewrite setbufs_setbufs, bufs_setbufs. apply HQ.
  eapply binit_step; [exact Hb|exact Hn|exact Hh|exact Hx| |exact Hh3]. rewrite Hlk2; [done|apply Hn1].
Qed.

Lemma wp_binit s (Q : unit -> kstate -> Prop) :
  length (bufs s) = S (Z.to_nat NBUF) -> (forall i x, bufs s !! i = Some x -> b_dev x = 0) ->
  (forall h, bufs s !! HEAD = Some h -> sl_locked (b_lock h) = 0) ->
  (forall bs', cache_ok bs' -> Q tt (setbufs s bs')) -> wp binit s Q.
Proof.
  intros Hl Hd Hh HQ. destruct (lookup_lt_is_Some_2 (bufs s) HEAD ltac:(unfold HEAD; lia)) as [h Hhd].
  unfold binit. apply wp_bind, (wp_setb _ _ _ h); [done|]. apply wp_bind. eapply wp_setb.
  { rewrite bufs_setbufs. apply list_lookup_insert_eq. by eapply lookup_lt_Some. }
  rewrite setbufs_setbufs, bufs_setbufs, list_insert_insert_eq.
  apply (wp_for_list (fun n s' => exists bs, s' = setbufs s bs /\ binit_ok (bufs s) bs n)).
  - eexists. split; [done|]. split.
    + simpl. split; split_and!; try done; exists HEAD; (split; [|done]);
        unfold nextf, prevf; rewrite list_lookup_insert_eq by (by eapply lookup_lt_Some); done.
    + by rewrite length_insert.
    + intros i x Hx. apply list_lookup_insert_Some in Hx as [(<- & <- & _)|[_ Hx]]; eauto.
    + intros x Hx. rewrite list_lookup_insert_eq in Hx by (by eapply lookup_lt_Some). injection Hx as <-. eauto.
  - intros n b s' Hb (bs & -> & Hi). unfold all_bufs in Hb. apply lookup_seq in Hb as [-> Hn]. simpl.
    apply (wp_binit_round (bufs s)); [done|done|done|]. intros bs' Hi'. rewrite setbufs_setbufs. eauto.
  - intros s' (bs & -> & [Hr Hlen Hdev Hhead]). apply HQ. unfold all_bufs in *. rewrite length_seq in Hr. split.
    + congruence.
    + exists (reverse (seq 0 (Z.to_nat NBUF))). split; [by rewrite reverse_Permutation|done].
    + intros i j x y _ _ (x0 & Hx0 & Ex)%Hdev _ Hne. rewrite Ex, (Hd _ _ Hx0) in Hne. done.
    + intros h' (h0 & Hh0 & ->)%Hhead. by apply Hh.
Qed.

End BufCache.
