(* ===== verification/Virtio.v ===== *)
(** * virtio_disk.c: the disk driver

    The driver's side of the virtqueue.  The device's registers are read
    through the parameter [mmio], which may depend on everything written to
    them so far; what the device does to the rings and to memory happens
    between the driver's steps. *)

From S2P Require Import Prelude State Spinlock CString Mem Kalloc Sched FileLayer Proc Console Bio.

Module Virtio.

Definition NUM : Z := 8.
Definition VRING_DESC_F_NEXT : Z := 1.
Definition VRING_DESC_F_WRITE : Z := 2.
Definition VIRTIO_BLK_T_IN : Z := 0.
Definition VIRTIO_BLK_T_OUT : Z := 1.
Definition VIRTIO_MMIO_MAGIC_VALUE : Z := 0x000.
Definition VIRTIO_MMIO_VERSION : Z := 0x004.
Definition VIRTIO_MMIO_DEVICE_ID : Z := 0x008.
Definition VIRTIO_MMIO_VENDOR_ID : Z := 0x00c.
Definition VIRTIO_MMIO_DEVICE_FEATURES : Z := 0x010.
Definition VIRTIO_MMIO_DRIVER_FEATURES : Z := 0x020.
Definition VIRTIO_MMIO_QUEUE_SEL : Z := 0x030.
Definition VIRTIO_MMIO_QUEUE_NUM_MAX : Z := 0x034.
Definition VIRTIO_MMIO_QUEUE_NUM : Z := 0x038.
Definition VIRTIO_MMIO_QUEUE_READY : Z := 0x044.
Definition VIRTIO_MMIO_QUEUE_NOTIFY : Z := 0x050.
Definition VIRTIO_MMIO_INTERRUPT_STATUS : Z := 0x060.
Definition VIRTIO_MMIO_INTERRUPT_ACK : Z := 0x064.
Definition VIRTIO_MMIO_STATUS : Z := 0x070.
Definition VIRTIO_MMIO_QUEUE_DESC_LOW : Z := 0x080.
Definition VIRTIO_MMIO_QUEUE_DESC_HIGH : Z := 0x084.
Definition VIRTIO_MMIO_DRIVER_DESC_LOW : Z := 0x090.
Definition VIRTIO_MMIO_DRIVER_DESC_HIGH : Z := 0x094.
Definition VIRTIO_MMIO_DEVICE_DESC_LOW : Z := 0x0a0.
Definition VIRTIO_MMIO_DEVICE_DESC_HIGH : Z := 0x0a4.
Definition VIRTIO_CONFIG_S_ACKNOWLEDGE : Z := 1.
Definition VIRTIO_CONFIG_S_DRIVER : Z := 2.
Definition VIRTIO_CONFIG_S_DRIVER_OK : Z := 4.
Definition VIRTIO_CONFIG_S_FEATURES_OK : Z := 8.
Definition VIRTIO_BLK_F_RO : Z := 5.
Definition VIRTIO_BLK_F_SCSI : Z := 7.
Definition VIRTIO_BLK_F_CONFIG_WCE : Z := 11.
Definition VIRTIO_BLK_F_MQ : Z := 12.
Definition VIRTIO_F_ANY_LAYOUT : Z := 27.
Definition VIRTIO_RING_F_INDIRECT_DESC : Z := 28.
Definition VIRTIO_RING_F_EVENT_IDX : Z := 29.

Definition getv {A} (f : vdisk -> A) : K A := gets (fun s => f (k_vdisk s)).
Definition setv (f : vdisk -> vdisk) : K unit := modify (upd k_vdisk f).
Definition W (reg v : Z) : K unit := setv (upd v_writes (cons (reg, u32 v))).

Definition get_desc (i : Z) : K virtq_desc :=
  let! l := getv v_desc in deref "desc" (l !! Z.to_nat i).
Definition set_desc (i : Z) (d : virtq_desc) : K unit :=
  setv (upd v_desc (fun l => <[Z.to_nat i := d]> l)).

(** The first [i] with [disk.free[i]], which is taken. *)
Definition alloc_desc : K Z :=
  let! r := find_list (seq 0 (Z.to_nat NUM)) (fun i =>
    let! l := getv v_free in
    if negb (default 0 (l !! i) =? 0) then
      setv (upd v_free (fun l => <[i := 0]> l)) ;! ret (Some (Z.of_nat i))
    else ret None) in
  ret (default (-1) r).

Definition free_desc (i : Z) : K unit :=
  if NUM <=? i then panic "free_desc 1" else
  let! l := getv v_free in
  let! f := deref "free" (l !! Z.to_nat i) in
  if negb (f =? 0) then panic "free_desc 2" else
  set_desc i (mkDesc Dnull 0 0 0) ;!
  setv (upd v_free (fun l => <[Z.to_nat i := 1]> l)) ;!
  wakeup (Some Cvdisk_free).

(** A chain has at most NUM members. *)
Fixpoint free_chain (k : nat) (i : Z) : K unit :=
  match k with
  | O => nofuel
  | S k =>
      let! d := get_desc i in
      free_desc i ;!
      if negb (Z.land (vd_flags d) VRING_DESC_F_NEXT =? 0) then free_chain k (vd_next d) else ret tt
  end.

(** Three descriptors, or none. *)
Definition alloc3_desc : K (option (Z * Z * Z)) :=
  let! a := alloc_desc in
  if a <? 0 then ret None else
  let! b := alloc_desc in
  if b <? 0 then free_desc a ;! ret None else
  let! c := alloc_desc in
  if c <? 0 then free_desc a ;! free_desc b ;! ret None else
  ret (Some (a, b, c)).

Fixpoint alloc3_wait (k : nat) : K (Z * Z * Z) :=
  let! r := alloc3_desc in
  match r with
  | Some idx => ret idx
  | None =>
      match k with
      | O => nofuel
      | S k => sleep Cvdisk_free Lvdisk ;! alloc3_wait k
      end
  end.

(** [while(b->disk == 1) sleep(b, &disk.vdisk_lock)] *)
Fixpoint wait_disk (k : nat) (b : nat) : K unit :=
  let! x := getb b in
  if b_disk x =? 1 then
    match k with
    | O => nofuel
    | S k => sleep (Cbuf b) Lvdisk ;! wait_disk k b
    end
  else ret tt.

(** Filling in the three descriptors and handing them to the device. *)
Definition submit (b : nat) (write : bool) (idx : Z * Z * Z) : K unit :=
  let '(i0, i1, i2) := idx in
  let! x := getb b in
  let sector := u32 (b_blockno x * (BSIZE / 512)) in
  setv (upd v_ops (fun l => <[Z.to_nat i0 := (if write then VIRTIO_BLK_T_OUT else VIRTIO_BLK_T_IN, sector)]> l)) ;!
  set_desc i0 (mkDesc (Dop (Z.to_nat i0)) 16 VRING_DESC_F_NEXT i1) ;!
  set_desc i1 (mkDesc (Ddata b) BSIZE (Z.lor (if write then 0 else VRING_DESC_F_WRITE) VRING_DESC_F_NEXT) i2) ;!
  setv (upd v_info_status (fun l => <[Z.to_nat i0 := 0xff]> l)) ;!
  set_desc i2 (mkDesc (Dstatus (Z.to_nat i0)) 1 VRING_DESC_F_WRITE 0) ;!
  setb b (upd b_disk (fun _ => 1)) ;!
  setv (upd v_info_b (fun l => <[Z.to_nat i0 := Some b]> l)) ;!
  let! idx := getv v_avail_idx in
  setv (upd v_avail_ring (fun l => <[Z.to_nat (idx mod NUM) := i0]> l)) ;!
  setv (upd v_avail_idx (fun i => (i + 1) mod 2 ^ 16)) ;!
  W VIRTIO_MMIO_QUEUE_NOTIFY 0.

Definition disk_rw {fuel : Fuel} (b : nat) (write : bool) : K unit :=
  acquire Lvdisk ;!
  let! idx := alloc3_wait sleep_fuel in
  submit b write idx ;!
  wait_disk sleep_fuel b ;!
  setv (upd v_info_b (fun l => <[Z.to_nat idx.1.1 := None]> l)) ;!
  free_chain (Z.to_nat NUM) idx.1.1 ;!
  release Lvdisk.

Section device.
Context {img : Image} (mmio : vdisk -> Z -> Z).

(** [*R(reg)] *)
Definition R (reg : Z) : K Z := getv (fun v => mmio v reg).

Definition virtio_disk_init : K unit :=
  let! magic := R VIRTIO_MMIO_MAGIC_VALUE in
  let! version := R VIRTIO_MMIO_VERSION in
  let! id := R VIRTIO_MMIO_DEVICE_ID in
  let! vendor := R VIRTIO_MMIO_VENDOR_ID in
  if negb (magic =? 0x74726976) || negb (version =? 2) || negb (id =? 2) || negb (vendor =? 0x554d4551)
  then panic "could not find virtio disk" else
  W VIRTIO_MMIO_STATUS 0 ;!
  let status := Z.lor 0 VIRTIO_CONFIG_S_ACKNOWLEDGE in
  W VIRTIO_MMIO_STATUS status ;!
  let status := Z.lor status VIRTIO_CONFIG_S_DRIVER in
  W VIRTIO_MMIO_STATUS status ;!
  let! features := R VIRTIO_MMIO_DEVICE_FEATURES in
  let off f b := Z.land f (Z.lnot (Z.shiftl 1 b)) in
  let features := off (off (off (off (off (off (off features VIRTIO_BLK_F_RO) VIRTIO_BLK_F_SCSI)
    VIRTIO_BLK_F_CONFIG_WCE) VIRTIO_BLK_F_MQ) VIRTIO_F_ANY_LAYOUT) VIRTIO_RING_F_EVENT_IDX)
    VIRTIO_RING_F_INDIRECT_DESC in
  W VIRTIO_MMIO_DRIVER_FEATURES features ;!
  let status := Z.lor status VIRTIO_CONFIG_S_FEATURES_OK in
  W VIRTIO_MMIO_STATUS status ;!
  let! status := R VIRTIO_MMIO_STATUS in
  if Z.land status VIRTIO_CONFIG_S_FEATURES_OK =? 0 then panic "virtio disk FEATURES_OK unset" else
  W VIRTIO_MMIO_QUEUE_SEL 0 ;!
  let! ready := R VIRTIO_MMIO_QUEUE_READY in
  if negb (ready =? 0) then panic "virtio disk should not be ready" else
  let! max := R VIRTIO_MMIO_QUEUE_NUM_MAX in
  if max =? 0 then panic "virtio disk has no queue 0" else
  if max <? NUM then panic "virtio disk max queue too short" else
  let! desc := kalloc in
  let! avail := kalloc in
  let! used := kalloc in
  if (desc =? 0) || (avail =? 0) || (used =? 0) then panic "virtio disk kalloc" else
  setv (fun v => v <| v_desc := replicate 8 (mkDesc Dnull 0 0 0) |> <| v_avail_ring := replicate 8 0 |>
    <| v_avail_idx := 0 |> <| v_used_ring := replicate 8 0 |> <| v_used_next := 0 |>) ;!
  W VIRTIO_MMIO_QUEUE_NUM NUM ;!
  W VIRTIO_MMIO_QUEUE_DESC_LOW desc ;!
  W VIRTIO_MMIO_QUEUE_DESC_HIGH (Z.shiftr desc 32) ;!
  W VIRTIO_MMIO_DRIVER_DESC_LOW avail ;!
  W VIRTIO_MMIO_DRIVER_DESC_HIGH (Z.shiftr avail 32) ;!
  W VIRTIO_MMIO_DEVICE_DESC_LOW used ;!
  W VIRTIO_MMIO_DEVICE_DESC_HIGH (Z.shiftr used 32) ;!
  W VIRTIO_MMIO_QUEUE_READY 1 ;!
  setv (upd v_free (fun _ => replicate (Z.to_nat NUM) 1)) ;!
  W VIRTIO_MMIO_STATUS (Z.lor status VIRTIO_CONFIG_S_DRIVER_OK).

(** The loop of virtio_disk_intr; the device is at most NUM entries ahead. *)
Fixpoint intr_loop (k : nat) : K unit :=
  let! i := getv v_used_idx in
  let! next := getv v_used_next in
  if i =? next then ret tt else
  match k with
  | O => nofuel
  | S k =>
      let! ring := getv v_used_ring in
      let! id := deref "ring" (ring !! Z.to_nat (i mod NUM)) in
      let! st := getv v_info_status in
      let! status := deref "info" (st !! Z.to_nat id) in
      if negb (status =? 0) then panic "virtio_disk_intr status" else
      let! bs := getv v_info_b in
      let! b := deref "b" (mjoin (bs !! Z.to_nat id)) in
      setb b (upd b_disk (fun _ => 0)) ;!
      wakeup (Some (Cbuf b)) ;!
      setv (upd v_used_idx (fun i => (i + 1) mod 2 ^ 16)) ;!
      intr_loop k
  end.
Definition virtio_disk_intr : K unit :=
  acquire Lvdisk ;!
  let! st := R VIRTIO_MMIO_INTERRUPT_STATUS in
  W VIRTIO_MMIO_INTERRUPT_ACK (Z.land st 3) ;!
  intr_loop (Z.to_nat NUM) ;!
  release Lvdisk.
End device.

(** ** The driver as bio.c's disk *)

Lemma view_setv f : frame proc_view (setv f).
Proof. apply segs_modify. intros s. reflexivity. Qed.
Lemma view_getv {A} (f : vdisk -> A) : frame proc_view (getv f).
Proof. unfold getv. segs_tac. Qed.
#[local] Hint Resolve view_setv view_getv : segs.
Lemma view_free_desc i : frame proc_view (free_desc i).
Proof. unfold free_desc, set_desc. segs_tac. Qed.
Lemma view_alloc_desc : frame proc_view alloc_desc.
Proof. unfold alloc_desc. segs_tac. Qed.
#[local] Hint Resolve view_free_desc view_alloc_desc : segs.
Lemma view_disk_rw {fuel : Fuel} b w : frame proc_view (disk_rw b w).
Proof.
  unfold disk_rw, submit, W, set_desc. segs_tac.
  - induction sleep_fuel; cbn [alloc3_wait]; unfold alloc3_desc; segs_tac.
  - induction sleep_fuel; cbn [wait_disk]; segs_tac.
  - match goal with |- context [free_chain ?k ?i] => generalize i; induction k end;
      intros; cbn [free_chain]; unfold get_desc; segs_tac.
Qed.

Lemma by_setv f : frame bystanders (setv f).
Proof. apply segs_modify. intros s. reflexivity. Qed.
Lemma by_getv {A} (f : vdisk -> A) : frame bystanders (getv f).
Proof. unfold getv. segs_tac. Qed.
Lemma by_getb i : frame bystanders (getb i).
Proof. unfold getb, getfs. segs_tac. Qed.
Lemma by_set_disk i v : frame bystanders (setb i (upd b_disk (fun _ => v))).
Proof.
  unfold setb, getb, getfs, setfs. intros s. unfold bind, gets. simpl.
  destruct (fs_bufs (k_fs s) !! i) as [x|] eqn:Hx; [|done]. unfold same, bystanders. simpl. ksimp.
  rewrite list_fmap_insert, (list_insert_id (buf_meta <$> _)); [done|]. by rewrite list_lookup_fmap, Hx.
Qed.
#[local] Hint Resolve by_setv by_getv by_getb by_set_disk : segs.
Lemma by_free_desc i : frame bystanders (free_desc i).
Proof. unfold free_desc, set_desc. segs_tac. Qed.
Lemma by_alloc_desc : frame bystanders alloc_desc.
Proof. unfold alloc_desc. segs_tac. Qed.
#[local] Hint Resolve by_free_desc by_alloc_desc : segs.
Lemma by_disk_rw {fuel : Fuel} b w : frame bystanders (disk_rw b w).
Proof.
  unfold disk_rw, submit, W, set_desc. segs_tac.
  - induction sleep_fuel; cbn [alloc3_wait]; unfold alloc3_desc; segs_tac.
  - induction sleep_fuel; cbn [wait_disk]; segs_tac.
  - match goal with |- context [free_chain ?k ?i] => generalize i; induction k end;
      intros; cbn [free_chain]; unfold get_desc; segs_tac.
Qed.

Lemma ty_setv f : segs typed (setv f).
Proof. unfold setv. segs_tac. Qed.
Lemma ty_getv {A} (f : vdisk -> A) : segs typed (getv f).
Proof. unfold getv. segs_tac. Qed.
Lemma ty_getb i : segs typed (getb i).
Proof. unfold getb, getfs. segs_tac. Qed.
Lemma ty_setb i f : segs typed (setb i f).
Proof. unfold setb, getb, getfs, setfs. segs_tac. Qed.
#[local] Hint Resolve ty_setv ty_getv ty_getb ty_setb : segs.
Lemma ty_free_desc i : segs typed (free_desc i).
Proof. unfold free_desc, set_desc. segs_tac. Qed.
Lemma ty_alloc_desc : segs typed alloc_desc.
Proof. unfold alloc_desc. segs_tac. Qed.
#[local] Hint Resolve ty_free_desc ty_alloc_desc : segs.
Lemma ty_disk_rw {fuel : Fuel} b w : segs typed (disk_rw b w).
Proof.
  unfold disk_rw, submit, W, set_desc. segs_tac.
  - induction sleep_fuel; cbn [alloc3_wait]; unfold alloc3_desc; segs_tac.
  - induction sleep_fuel; cbn [wait_disk]; segs_tac.
  - match goal with |- context [free_chain ?k ?i] => generalize i; induction k end;
      intros; cbn [free_chain]; unfold get_desc; segs_tac.
Qed.
#[export] Instance virtio_disk {fuel : Fuel} : Disk :=
  {| virtio_disk_rw := disk_rw; virtio_disk_rw_frame := view_disk_rw;
     virtio_disk_rw_bystanders := by_disk_rw; virtio_disk_rw_typed := ty_disk_rw |}.

End Virtio.
