(* ===== verification/Log.v ===== *)
(** * log.c: the write-ahead log *)

From S2P Require Import Prelude State Spinlock CString Mem Sched FileLayer Proc Console Bio.

(** ** Fields inside a block *)

(** [n] bytes at offset [off] of a block, and writing bytes there. *)
Definition blk_get (bs : list Z) (off n : nat) : list Z := take n (drop off bs).
Definition blk_put (bs : list Z) (off : nat) (v : list Z) : list Z :=
  take off bs ++ v ++ drop (off + length v) bs.
Definition get16 (bs : list Z) (off : nat) : Z := le_val (blk_get bs off 2).
Definition get32 (bs : list Z) (off : nat) : Z := le_val (blk_get bs off 4).
Definition put16 (bs : list Z) (off : nat) (v : Z) : list Z := blk_put bs off (le_bytes 2 (v mod 2 ^ 16)).
Definition put32 (bs : list Z) (off : nat) (v : Z) : list Z := blk_put bs off (le_bytes 4 (u32 v)).

Module Log.

Definition getl {A} (f : log -> A) : K A := getfs (fun x => f (fs_log x)).
Definition setl (f : log -> log) : K unit := setfs (upd fs_log f).

(** [log.lh.block[i]] *)
Definition lh_block (i : nat) : K Z :=
  let! l := getl lg_block in deref "lh.block" (l !! i).
Definition set_lh_block (i : nat) (v : Z) : K unit :=
  let! l := getl lg_block in
  let! _ := deref "lh.block" (l !! i) in
  setl (upd lg_block (fun l => <[i := v]> l)).

(** [memmove(to->data, from->data, BSIZE)] *)
Definition buf_copy (to from : nat) : K unit :=
  let! x := getb from in
  setb to (upd b_data (fun _ => b_data x)).

Section log.
Context {fuel : Fuel} {disk : Disk}.

Fixpoint install_trans_loop (recovering : bool) (k tail : nat) : K unit :=
  match k with
  | O => ret tt
  | S k =>
      let! dev := getl lg_dev in
      let! start := getl lg_start in
      let! lbuf := bread dev (start + Z.of_nat tail + 1) in
      let! dst := lh_block tail in
      let! dbuf := bread dev dst in
      buf_copy dbuf lbuf ;!
      bwrite dbuf ;!
      when (negb recovering) (bunpin dbuf) ;!
      brelse lbuf ;!
      brelse dbuf ;!
      install_trans_loop recovering k (S tail)
  end.
Definition install_trans (recovering : bool) : K unit :=
  let! n := getl lg_n in
  install_trans_loop recovering (Z.to_nat n) 0.

Definition read_head : K unit :=
  let! dev := getl lg_dev in
  let! start := getl lg_start in
  let! b := bread dev start in
  let! x := getb b in
  let n := i32 (get32 (b_data x) 0) in
  setl (upd lg_n (fun _ => n)) ;!
  for_list (seq 0 (Z.to_nat n)) (fun i =>
    set_lh_block i (i32 (get32 (b_data x) (4 + 4 * i)))) ;!
  brelse b.

Definition write_head : K unit :=
  let! dev := getl lg_dev in
  let! start := getl lg_start in
  let! b := bread dev start in
  let! n := getl lg_n in
  setb b (upd b_data (fun d => put32 d 0 n)) ;!
  for_list (seq 0 (Z.to_nat n)) (fun i =>
    let! v := lh_block i in
    setb b (upd b_data (fun d => put32 d (4 + 4 * i) v))) ;!
  bwrite b ;!
  brelse b.

Definition recover_from_log : K unit :=
  read_head ;!
  install_trans true ;!
  setl (upd lg_n (fun _ => 0)) ;!
  write_head.

Definition initlog (dev : Z) (sb : superblock) : K unit :=
  setl (fun l => l <| lg_start := sb_logstart sb |> <| lg_size := sb_nlog sb |> <| lg_dev := dev |>) ;!
  recover_from_log.

Fixpoint begin_op_loop (fuel : nat) : K unit :=
  let! l := getl id in
  if negb (lg_committing l =? 0) || (LOGSIZE <? lg_n l + (lg_outstanding l + 1) * MAXOPBLOCKS) then
    match fuel with
    | O => nofuel
    | S fuel => sleep Clog Llog ;! begin_op_loop fuel
    end
  else
    setl (upd lg_outstanding (fun n => n + 1)) ;!
    release Llog.
Definition begin_op : K unit :=
  acquire Llog ;!
  begin_op_loop sleep_fuel.

Fixpoint write_log_loop (k tail : nat) : K unit :=
  match k with
  | O => ret tt
  | S k =>
      let! dev := getl lg_dev in
      let! start := getl lg_start in
      let! to := bread dev (start + Z.of_nat tail + 1) in
      let! src := lh_block tail in
      let! from := bread dev src in
      buf_copy to from ;!
      bwrite to ;!
      brelse from ;!
      brelse to ;!
      write_log_loop k (S tail)
  end.
Definition write_log : K unit :=
  let! n := getl lg_n in
  write_log_loop (Z.to_nat n) 0.

Definition commit : K unit :=
  let! n := getl lg_n in
  if 0 <? n then
    write_log ;!
    write_head ;!
    install_trans false ;!
    setl (upd lg_n (fun _ => 0)) ;!
    write_head
  else ret tt.

Definition end_op : K unit :=
  acquire Llog ;!
  setl (upd lg_outstanding (fun n => n - 1)) ;!
  let! l := getl id in
  if negb (lg_committing l =? 0) then panic "log.committing" else
  let do_commit := lg_outstanding l =? 0 in
  (if do_commit then setl (upd lg_committing (fun _ => 1)) else wakeup (Some Clog)) ;!
  release Llog ;!
  when do_commit
    (commit ;!
     acquire Llog ;!
     setl (upd lg_committing (fun _ => 0)) ;!
     wakeup (Some Clog) ;!
     release Llog).

(** The index of [blockno] among the first [n] logged blocks, or [n]. *)
Fixpoint absorb (blockno : Z) (k i : nat) (l : list Z) : nat :=
  match k with
  | O => i
  | S k => if bool_decide (l !! i = Some blockno) then i else absorb blockno k (S i) l
  end.
Definition log_write (b : nat) : K unit :=
  acquire Llog ;!
  let! l := getl id in
  if (LOGSIZE <=? lg_n l) || (lg_size l - 1 <=? lg_n l) then panic "too big a transaction" else
  if lg_outstanding l <? 1 then panic "log_write outside of trans" else
  let! x := getb b in
  let i := absorb (b_blockno x) (Z.to_nat (lg_n l)) 0 (lg_block l) in
  set_lh_block i (b_blockno x) ;!
  when (Z.of_nat i =? lg_n l)
    (bpin b ;!
     setl (upd lg_n (fun n => n + 1))) ;!
  release Llog.

End log.
End Log.

(** ** Frames *)

Section frames.
Import Log.
Context {fuel : Fuel} {disk : Disk}.
Lemma view_setl f : frame proc_view (setl f).
Proof. unfold setl. segs_tac. Qed.
Lemma view_getl {A} (f : log -> A) : frame proc_view (getl f).
Proof. unfold getl, getfs. segs_tac. Qed.
#[local] Hint Resolve view_setl view_getl : segs.
Lemma view_lh_block i : frame proc_view (lh_block i).
Proof. unfold lh_block. segs_tac. Qed.
Lemma view_set_lh_block i v : frame proc_view (set_lh_block i v).
Proof. unfold set_lh_block. segs_tac. Qed.
Lemma view_buf_copy i j : frame proc_view (buf_copy i j).
Proof. unfold buf_copy. segs_tac. Qed.
#[local] Hint Resolve view_lh_block view_set_lh_block view_buf_copy : segs.
Lemma view_install_trans r : frame proc_view (install_trans r).
Proof.
  unfold install_trans. segs_tac. generalize 0%nat. induction (Z.to_nat _); intros; cbn [install_trans_loop]; segs_tac.
Qed.
Lemma view_read_head : frame proc_view read_head.
Proof. unfold read_head. segs_tac. Qed.
Lemma view_write_head : frame proc_view write_head.
Proof. unfold write_head. segs_tac. Qed.
Lemma view_write_log : frame proc_view write_log.
Proof.
  unfold write_log. segs_tac. generalize 0%nat. induction (Z.to_nat _); intros; cbn [write_log_loop]; segs_tac.
Qed.
#[local] Hint Resolve view_install_trans view_read_head view_write_head view_write_log : segs.
Lemma view_initlog dev sb : frame proc_view (initlog dev sb).
Proof. unfold initlog, recover_from_log. segs_tac. Qed.
Lemma view_begin_op : frame proc_view Log.begin_op.
Proof. unfold Log.begin_op. segs_tac. induction sleep_fuel; cbn [begin_op_loop]; segs_tac. Qed.
Lemma view_end_op : frame proc_view Log.end_op.
Proof. unfold Log.end_op, commit. segs_tac. Qed.
Lemma view_log_write b : frame proc_view (log_write b).
Proof. unfold log_write. segs_tac. Qed.
End frames.
#[export] Hint Resolve view_setl view_getl view_initlog view_begin_op view_end_op view_log_write : segs.
