(* ===== verification/FsLogic.v ===== *)
(** * Total correctness of file-system code

    [fwp m h F Q]: when a process that holds the spin locks [h] runs [m]
    on the file-system state [F], [m] returns [a] with [Q a h' F'], [h'] being
    the locks it then holds and [F'] the file-system state, provided each
    switch is resumed in a state that the environment allows.  What else the
    state holds is left to [calm]. *)

From S2P Require Import Prelude State Spinlock CString Sched FileLayer Proc PsList Console Bio BufCache Log.

Module FsLogic.
Import BufCache.

(** The environment: in what state a switch is resumed, and the state of the
    disk driver between its calls. *)
Record env := mkEnv {
  rely : kstate -> kstate -> Prop;
  idle : vdisk -> Prop;
}.

(** The hart runs a process with pid [pid] and holds the locks [h]. *)
Record calm (E : env) (pid : Z) (h : list lockid) (s : kstate) : Prop := {
  calm_held : k_held s = h;
  calm_noff : c_noff (k_cpu s) = Z.of_nat (length h);
  calm_sie : h <> [] -> c_sie (k_cpu s) = false;
  calm_proc : exists m p, c_proc (k_cpu s) = Some m /\ k_procs s !! m = Some p /\ p_pid p = pid;
  calm_len : length (k_procs s) = Z.to_nat NPROC;
  calm_idle : idle E (k_vdisk s);
}.
Lemma calm_wf E pid h s : calm E pid h s -> hart_wf s.
Proof.
  intros [Hh Hn Hs _ _ _]. split; [lia|]. intros Hp. apply Hs. intros ->. rewrite Hn in Hp. simpl in Hp. lia.
Qed.
Lemma calm_same E pid h s s' : hart_same s s' -> length (k_procs s') = length (k_procs s) -> k_vdisk s' = k_vdisk s ->
  (forall m p, k_procs s !! m = Some p -> exists p', k_procs s' !! m = Some p' /\ p_pid p' = p_pid p) ->
  calm E pid h s -> calm E pid h s'.
Proof.
  intros (H1 & H2 & H3 & H4 & _) Hlen Hd Hp [Hh Hn Hs (m & p & Hm & Hpm & Hpid) Hl Hi]. split.
  - congruence.
  - congruence.
  - intros Hne. rewrite H4. auto.
  - destruct (Hp _ _ Hpm) as (p' & ? & ?). exists m, p'. split_and!; congruence.
  - congruence.
  - by rewrite Hd.
Qed.
Lemma calm_eq E pid h s s' : hart_eq s s' -> calm E pid h s -> calm E pid h s' /\ k_fs s' = k_fs s.
Proof.
  intros [Hh Es] Hc. pose proof (f_equal k_procs Es : k_procs s' = k_procs s) as Ep.
  pose proof (f_equal k_vdisk Es : k_vdisk s' = k_vdisk s) as Ev.
  split; [|exact (f_equal k_fs Es)]. apply (calm_same _ _ _ s); [done|by rewrite Ep|done| |done]. rewrite Ep. eauto.
Qed.

Section logic.
Context (E : env) (pid : Z).

Definition fwp {A} (m : K A) (h : list lockid) (F : fsys) (Q : A -> list lockid -> fsys -> Prop) : Prop :=
  forall s, calm E pid h s -> k_fs s = F ->
    rwp (rely E) m s (fun a s' => exists h', calm E pid h' s' /\ Q a h' (k_fs s')).

Lemma fwp_wp {A} (m : K A) h F (Q : A -> list lockid -> fsys -> Prop) :
  (forall s, calm E pid h s -> k_fs s = F -> wp m s (fun a s' => exists h', calm E pid h' s' /\ Q a h' (k_fs s'))) ->
  fwp m h F Q.
Proof. intros H s Hc HF. apply rwp_wp. auto. Qed.
Lemma fwp_bind {A B} (m : K A) (f : A -> K B) h F Q :
  fwp m h F (fun a h' F' => fwp (f a) h' F' Q) -> fwp (bind m f) h F Q.
Proof.
  intros H s Hc HF. apply rwp_bind. eapply rwp_mono; [by apply H|]. intros a s' (h' & Hc' & Hf). by apply Hf.
Qed.
Lemma fwp_mono {A} (m : K A) h F (Q Q' : A -> list lockid -> fsys -> Prop) :
  fwp m h F Q -> (forall a h' F', Q a h' F' -> Q' a h' F') -> fwp m h F Q'.
Proof. intros H HQ s Hc HF. eapply rwp_mono; [by apply H|]. intros a s' (h' & ? & ?). eauto. Qed.
Lemma fwp_ret {A} (a : A) h F (Q : A -> list lockid -> fsys -> Prop) : Q a h F -> fwp (ret a) h F Q.
Proof. intros H s Hc <-. exists h. split; [done|]. exact H. Qed.
Lemma fwp_getfs {A} (f : fsys -> A) h F (Q : A -> list lockid -> fsys -> Prop) : Q (f F) h F -> fwp (getfs f) h F Q.
Proof. intros H s Hc <-. exists h. split; [done|]. exact H. Qed.
Lemma fwp_setfs f h F (Q : unit -> list lockid -> fsys -> Prop) : Q tt h (f F) -> fwp (setfs f) h F Q.
Proof. intros H s [H1 H2 H3 H4 H5 H6] <-. exists h. split; [by split|]. exact H. Qed.
Lemma fwp_deref {A} w (o : option A) a h F (Q : A -> list lockid -> fsys -> Prop) :
  o = Some a -> Q a h F -> fwp (deref w o) h F Q.
Proof. intros -> H. by apply fwp_ret. Qed.
Lemma fwp_when_false m h F (Q : unit -> list lockid -> fsys -> Prop) : Q tt h F -> fwp (when false m) h F Q.
Proof. apply fwp_ret. Qed.

Lemma fwp_acquire lk h F (Q : unit -> list lockid -> fsys -> Prop) : lk ∉ h -> Q tt (lk :: h) F -> fwp (acquire lk) h F Q.
Proof.
  intros Hn HQ. apply fwp_wp. intros s Hc <-. pose proof Hc as [Hh Ho Hs Hp Hl Hi].
  apply wp_acquire; [by rewrite Hh|]. exists (lk :: h). split; [|exact HQ]. split; ksimp; simpl.
  - by rewrite Hh.
  - rewrite Ho. lia.
  - done.
  - exact Hp.
  - exact Hl.
  - exact Hi.
Qed.
Lemma fwp_release lk h F (Q : unit -> list lockid -> fsys -> Prop) :
  lk ∉ h -> Q tt h F -> fwp (release lk) (lk :: h) F Q.
Proof.
  intros Hn HQ. apply fwp_wp. intros s Hc <-. pose proof Hc as [Hh Ho Hs Hp Hl Hi]. simpl in Ho.
  apply (wp_release lk _ h); [done|done|by apply Hs|lia|]. exists h. split; [|exact HQ]. split; ksimp.
  - done.
  - cbn [c_noff]. lia.
  - intros Hne. cbn [c_sie]. replace (c_noff (k_cpu s) - 1 =? 0) with false; [done|].
    symmetry. apply Z.eqb_neq. destruct h; [done|]. simpl in Ho. lia.
  - exact Hp.
  - exact Hl.
  - exact Hi.
Qed.
Lemma fwp_wakeup chan h F (Q : unit -> list lockid -> fsys -> Prop) :
  (forall i, Lproc i ∉ h) -> Ltickslock ∉ h -> Q tt h F -> fwp (wakeup chan) h F Q.
Proof.
  intros Hl Ht HQ. apply fwp_wp. intros s Hc <-. pose proof Hc as [Hh _ _ _ Hlen _].
  apply wp_wakeup; [by eapply calm_wf|by rewrite Hh|by rewrite Hh|done|]. intros s' Hs Es.
  pose proof (f_equal k_procs Es :
    k_procs s' = imap (woken chan (c_proc (k_cpu s)) (k_ticks s)) (k_procs s)) as Ep. pose proof (f_equal k_fs Es : k_fs s' = k_fs s) as Ef.
  exists h. split; [|by rewrite Ef]. apply (calm_same _ _ _ s); [done| |exact (f_equal k_vdisk Es)| |done]; rewrite Ep.
  - apply length_imap.
  - intros m p Hp. rewrite list_lookup_imap, Hp. eexists. split; [done|]. unfold woken.
    by repeat case_match.
Qed.
Lemma fwp_mypid h F (Q : Z -> list lockid -> fsys -> Prop) : Q pid h F -> fwp mypid h F Q.
Proof.
  intros HQ. apply fwp_wp. intros s Hc <-. pose proof Hc as [_ _ _ (m & p & Hm & Hp & Hpid) _ _].
  unfold mypid. apply wp_bind, (wp_me _ m); [by eapply calm_wf|done|]. intros s' Hs.
  destruct (calm_eq _ _ _ _ _ Hs Hc) as [Hc' Ef]. destruct Hs as [_ Es]. pose proof (f_equal k_procs Es : k_procs s' = k_procs s) as Ep.
  apply wp_bind, (wp_getp _ _ p); [by rewrite Ep|]. apply wp_ret. exists h. split; [done|]. by rewrite Hpid, Ef.
Qed.

(** *** Buffers and sleep locks *)
Lemma fwp_getb i x h F (Q : buf -> list lockid -> fsys -> Prop) : fs_bufs F !! i = Some x -> Q x h F -> fwp (getb i) h F Q.
Proof. intros Hx HQ. unfold getb. apply fwp_bind, fwp_getfs. by eapply fwp_deref. Qed.
Lemma fwp_setb i f x h F (Q : unit -> list lockid -> fsys -> Prop) :
  fs_bufs F !! i = Some x -> Q tt h (F <| fs_bufs := <[i := f x]> (fs_bufs F) |>) -> fwp (setb i f) h F Q.
Proof. intros Hx HQ. unfold setb. apply fwp_bind. eapply fwp_getb; [done|]. by apply fwp_setfs. Qed.

Lemma fwp_acquiresleep {fuel : Fuel} i x F (Q : unit -> list lockid -> fsys -> Prop) :
  fs_bufs F !! i = Some x -> sl_locked (b_lock x) = 0 ->
  Q tt [] (F <| fs_bufs := <[i := x <| b_lock := mkSleeplock 1 pid |>]> (fs_bufs F) |>) ->
  fwp (acquiresleep (SLbuf i)) [] F Q.
Proof.
  intros Hx Hl HQ. unfold acquiresleep. apply fwp_bind, fwp_acquire; [apply not_elem_of_nil|]. apply fwp_bind.
  assert (Hloop : forall n Q, Q tt [Lsleep (SLbuf i)] F -> fwp (acquiresleep_loop n (SLbuf i)) [Lsleep (SLbuf i)] F Q).
  { intros n Q' HQ'. destruct n; cbn [acquiresleep_loop getsl]; apply fwp_bind, fwp_bind;
      (eapply fwp_getb; [done|]); apply fwp_ret; rewrite Hl; by apply fwp_ret. }
  apply Hloop. apply fwp_bind, fwp_mypid. apply fwp_bind. cbn [setsl]. eapply fwp_setb; [done|].
  apply fwp_release; [apply not_elem_of_nil|]. exact HQ.
Qed.
Lemma fwp_releasesleep i x F (Q : unit -> list lockid -> fsys -> Prop) :
  fs_bufs F !! i = Some x ->
  Q tt [] (F <| fs_bufs := <[i := x <| b_lock := mkSleeplock 0 0 |>]> (fs_bufs F) |>) ->
  fwp (releasesleep (SLbuf i)) [] F Q.
Proof.
  intros Hx HQ. unfold releasesleep. apply fwp_bind, fwp_acquire; [apply not_elem_of_nil|]. apply fwp_bind. cbn [setsl].
  eapply fwp_setb; [done|]. apply fwp_bind, fwp_wakeup.
  - intros j. by rewrite list_elem_of_singleton.
  - by rewrite list_elem_of_singleton.
  - apply fwp_release; [apply not_elem_of_nil|]. exact HQ.
Qed.
Lemma fwp_holdingsleep i x F (Q : bool -> list lockid -> fsys -> Prop) :
  fs_bufs F !! i = Some x -> b_lock x = mkSleeplock 1 pid -> Q true [] F -> fwp (holdingsleep (SLbuf i)) [] F Q.
Proof.
  intros Hx Hl HQ. unfold holdingsleep. apply fwp_bind, fwp_acquire; [apply not_elem_of_nil|]. cbn [getsl].
  apply fwp_bind, fwp_bind. eapply fwp_getb; [done|]. apply fwp_ret. rewrite Hl. simpl.
  apply fwp_bind, fwp_bind, fwp_mypid. apply fwp_ret. apply fwp_bind, fwp_release; [apply not_elem_of_nil|].
  apply fwp_ret. by rewrite Z.eqb_refl.
Qed.

(** *** The parts of bio.c that handle the list *)
Lemma calm_setbufs h s bs : calm E pid h s -> calm E pid h (setbufs s bs).
Proof. intros [H1 H2 H3 H4 H5 H6]. by split. Qed.
Lemma fwp_bget_find l dev blockno h F (Q : option nat -> list lockid -> fsys -> Prop) :
  cache_ok (fs_bufs F) -> l ≡ₚ all_bufs -> ring (fs_bufs F) l ->
  (forall r, lookup_result (fs_bufs F) l dev blockno r ->
     Q (fst <$> r) h (match r with Some (i, y) => F <| fs_bufs := <[i := y]> (fs_bufs F) |> | None => F end)) ->
  fwp (bget_find dev blockno) h F Q.
Proof.
  intros Hc Hl Hr HQ. apply fwp_wp. intros s Hs <-. destruct (bget_find_run s l dev blockno Hc Hl Hr) as (r & Hres & Er).
  eapply wp_eq; [exact Er|]. exists h. specialize (HQ r Hres). destruct r as [[i y]|]; [|done].
  split; [by apply calm_setbufs|exact HQ].
Qed.
Lemma fwp_move l1 b l2 h F (Q : unit -> list lockid -> fsys -> Prop) :
  cache_ok (fs_bufs F) -> l1 ++ b :: l2 ≡ₚ all_bufs -> ring (fs_bufs F) (l1 ++ b :: l2) ->
  (forall bs', same_payload (fs_bufs F) bs' -> ring bs' (b :: l1 ++ l2) -> cache_ok bs' -> Q tt h (F <| fs_bufs := bs' |>)) ->
  fwp (buf_unlink b ;! buf_push b) h F Q.
Proof.
  intros Hc Hl Hr HQ. apply fwp_wp. intros s Hs <-. apply (wp_move _ l1 b l2); [done..|]. intros bs' H1 H2 H3.
  exists h. split; [by apply calm_setbufs|by apply HQ].
Qed.
End logic.
End FsLogic.
