(* ===== verification/BufSpec.v ===== *)
(** * What the buffer cache promises

    Seen through bread, bwrite and brelse the cache is transparent: there is
    one logical content [L] for every block, bread returns a locked buffer with
    it, bwrite brings it to the disk, and what is evicted was on the disk
    already.  [cst F L held P] ties a file-system state to [L], with the
    buffers the process holds and the blocks the log has pinned. *)

From S2P Require Import Prelude State Spinlock CString Sched FileLayer Proc PsList Console Bio BufCache Log FsLogic.

Module BufSpec.
Import BufCache FsLogic.

(** The last write of block [bno] in a history of writes. *)
Fixpoint block (d : list (Z * list Z)) (bno : Z) : list Z :=
  match d with
  | [] => zero_block
  | (b, data) :: d => if b =? bno then data else block d bno
  end.

(** What the disk driver promises to bio.c: a read brings in the last write of
    the buffer's block, a write appends the buffer's data to the history.  The
    driver may leave its own flag in the buffer. *)
Definition with_bufs (F : fsys) (bs : list buf) : fsys := F <| fs_bufs := bs |>.
Class DiskLaw {disk : Disk} (E : env) (pid : Z) : Prop := {
  disk_read b x F Q : fs_bufs F !! b = Some x -> 0 <= b_blockno x < 2 ^ 31 ->
    (forall k, Q tt [] (with_bufs F
       (<[b := x <| b_disk := k |> <| b_data := block (fs_disk F) (b_blockno x) |>]> (fs_bufs F)))) ->
    fwp E pid (virtio_disk_rw b false) [] F Q;
  disk_write b x F Q : fs_bufs F !! b = Some x -> 0 <= b_blockno x < 2 ^ 31 ->
    (forall k, Q tt [] ((with_bufs F (<[b := x <| b_disk := k |>]> (fs_bufs F)))
       <| fs_disk ::= cons (b_blockno x, b_data x) |>)) ->
    fwp E pid (virtio_disk_rw b true) [] F Q;
}.

Section spec.
Context (E : env) (pid dev : Z) (Hdev : dev <> 0).

(** Buffer [x] is the one for block [bno]. *)
Definition is_for (bno : Z) (x : buf) : Prop := b_dev x = dev /\ b_blockno x = bno.

(** The number of references to a buffer: one if the process holds it, one
    if the log has pinned it. *)
Definition refs (held : list (nat * Z)) (P : list Z) (i : nat) (x : buf) : Z :=
  (if decide (i ∈ held.*1) then 1 else 0) + (if decide (b_dev x = dev /\ b_blockno x ∈ P) then 1 else 0).

Record bst (F : fsys) (L : Z -> list Z) (held : list (nat * Z)) (P : list Z) (i : nat) (x : buf) : Prop := {
  bs_refs : b_refcnt x = refs held P i x;
  bs_mine : i ∈ held.*1 -> b_lock x = mkSleeplock 1 pid;
  bs_free : i ∉ held.*1 -> sl_locked (b_lock x) = 0;
  bs_data : b_dev x = dev -> b_valid x <> 0 -> b_data x = L (b_blockno x);
  bs_clean : b_dev x = dev -> b_valid x <> 0 -> i ∉ held.*1 -> b_blockno x ∉ P -> L (b_blockno x) = block (fs_disk F) (b_blockno x);
}.
Record cst (F : fsys) (L : Z -> list Z) (held : list (nat * Z)) (P : list Z) : Prop := {
  c_ok : cache_ok (fs_bufs F);
  c_buf i x : i <> HEAD -> fs_bufs F !! i = Some x -> bst F L held P i x;
  c_held b bno : (b, bno) ∈ held -> b <> HEAD /\ exists x, fs_bufs F !! b = Some x /\ is_for bno x /\ b_valid x <> 0;
  c_miss bno : (forall i x, i <> HEAD -> fs_bufs F !! i = Some x -> is_for bno x -> b_valid x = 0) ->
    L bno = block (fs_disk F) bno;
  c_pin bno : bno ∈ P -> exists i x, i <> HEAD /\ fs_bufs F !! i = Some x /\ is_for bno x;
  c_nodup : NoDup held.*1;
}.

(** A buffer for the block is unique. *)
Lemma is_for_unique F L held P bno i j x y : cst F L held P -> i <> HEAD -> j <> HEAD ->
  fs_bufs F !! i = Some x -> fs_bufs F !! j = Some y -> is_for bno x -> is_for bno y -> i = j.
Proof.
  intros Hc Hi Hj Hx Hy [Hd Hb] [Hd' Hb']. apply (co_unique _ (c_ok _ _ _ _ Hc) i j x y); congruence.
Qed.

(** Not all buffers are in use. *)
Lemma some_free F L held P l : cst F L held P -> l ≡ₚ all_bufs -> (length held + length P < Z.to_nat NBUF)%nat ->
  ~ (forall j y, j ∈ l -> fs_bufs F !! j = Some y -> b_refcnt y <> 0).
Proof.
  intros Hc Hl Hlt Hall.
  set (tag := fun i : nat => if decide (i ∈ held.*1) then inl i else inr (default 0 (b_blockno <$> fs_bufs F !! i)) : nat + Z).
  assert (Hlk : forall i, i ∈ all_bufs -> i <> HEAD /\ exists x, fs_bufs F !! i = Some x).
  { intros i Hi. rewrite all_bufs_lt in Hi. split; [lia|]. apply lookup_lt_is_Some.
    rewrite (co_length _ (c_ok _ _ _ _ Hc)). unfold HEAD in Hi. lia. }
  assert (Hpin : forall i x, i ∈ all_bufs -> fs_bufs F !! i = Some x -> i ∉ held.*1 -> b_dev x = dev /\ b_blockno x ∈ P).
  { intros i x Hi Hx Hnh. destruct (Hlk i Hi) as [Hne _]. pose proof (bs_refs _ _ _ _ _ _ (c_buf _ _ _ _ Hc i x Hne Hx)) as Hr.
    unfold refs in Hr. rewrite decide_False in Hr by done. case_decide; [done|]. destruct (Hall i x); [by rewrite Hl|done|lia]. }
  assert (Hsub : tag <$> all_bufs ⊆+ (inl <$> held.*1) ++ (inr <$> P)).
  { apply NoDup_submseteq.
    - apply NoDup_fmap_2_strong; [|apply NoDup_seq]. intros i j Hi Hj. unfold tag.
      destruct (Hlk i Hi) as (Hni & x & Hx). destruct (Hlk j Hj) as (Hnj & y & Hy).
      repeat case_decide; intros [= Et]; [done|]. rewrite Hx, Hy in Et. simpl in Et.
      destruct (Hpin i x Hi Hx) as [? _]; [done|]. destruct (Hpin j y Hj Hy) as [? _]; [done|].
      apply (is_for_unique F L held P (b_blockno x) i j x y); done.
    - intros t (i & -> & Hi)%list_elem_of_fmap. unfold tag. apply elem_of_app. case_decide.
      + left. apply list_elem_of_fmap. eauto.
      + right. apply list_elem_of_fmap. destruct (Hlk i Hi) as (_ & x & Hx). rewrite Hx. simpl. eexists. split; [done|].
        by destruct (Hpin i x Hi Hx). }
  apply submseteq_length in Hsub. rewrite length_app, !length_fmap in Hsub. unfold all_bufs in Hsub.
  rewrite length_seq in Hsub. lia.
Qed.

Lemma refs_ne held P i j bno x : i <> j -> refs ((i, bno) :: held) P j x = refs held P j x.
Proof.
  intros Hne. unfold refs. cbn [fmap list_fmap fst]. f_equal.
  destruct (decide (j ∈ held.*1)) as [H|H]; destruct (decide (j ∈ i :: held.*1)) as [H'|H']; set_solver.
Qed.
Lemma bst_others F F' L held P i bno j x : i <> j -> fs_disk F' = fs_disk F -> bst F L held P j x ->
  bst F' L ((i, bno) :: held) P j x.
Proof.
  intros Hne Hd [H1 H2 H3 H4 H5]. split.
  - by rewrite refs_ne.
  - intros H. apply H2. set_solver.
  - intros H. apply H3. set_solver.
  - done.
  - intros ? ? H. rewrite Hd. apply H5; [done|done|set_solver].
Qed.

(** The process takes buffer [i] for block [bno]: a buffer that has it, or an
    unused one. *)
Lemma cst_take F L held P i bno x y : cst F L held P -> i <> HEAD -> i ∉ held.*1 ->
  fs_bufs F !! i = Some x -> b_next y = b_next x -> b_prev y = b_prev x ->
  is_for bno y -> b_valid y <> 0 -> b_refcnt y = refs ((i, bno) :: held) P i y ->
  b_lock y = mkSleeplock 1 pid -> b_data y = L bno ->
  is_for bno x \/ (b_refcnt x = 0 /\ forall j z, j <> HEAD -> fs_bufs F !! j = Some z -> ~ is_for bno z) ->
  cst (with_bufs F (<[i := y]> (fs_bufs F))) L ((i, bno) :: held) P.
Proof.
  intros Hc Hi Hnh Hx Hn Hp [Hyd Hyb] Hv Hrc Hlk Hdata Hcase. unfold with_bufs.
  assert (Hlen : (i < length (fs_bufs F))%nat) by by eapply lookup_lt_Some.
  assert (Hold : b_refcnt x = 0 -> ~ (b_dev x = dev /\ b_blockno x ∈ P)).
  { intros H0 Hpin. pose proof (bs_refs _ _ _ _ _ _ (c_buf _ _ _ _ Hc i x Hi Hx)) as Hr. unfold refs in Hr.
    rewrite decide_False in Hr by done. rewrite decide_True in Hr by done. lia. }
  split; ksimp.
  - destruct Hcase as [[Hxd Hxb]|[_ Hno]].
    + eapply cache_update; [exact Hx|apply Hc|done|done|congruence|congruence|done].
    + eapply cache_recycle; [exact Hx|apply Hc|done|done|done|]. intros j z Hj Hz Hd Hb. apply (Hno j z Hj Hz).
      split; congruence.
  - intros j z Hj Hz. apply list_lookup_insert_Some in Hz as [(<- & <- & _)|[Hne Hz]].
    + split; [done|done|set_solver|intros; congruence|set_solver].
    + apply (bst_others F); [done|done|]. by apply (c_buf _ _ _ _ Hc).
  - intros b bno' [[= -> ->]|Hin]%elem_of_cons.
    + split; [done|]. exists y. by rewrite list_lookup_insert_eq.
    + destruct (c_held _ _ _ _ Hc b bno' Hin) as (Hb & z & Hz & ?). split; [done|]. exists z.
      rewrite list_lookup_insert_ne; [done|]. intros ->. apply Hnh. apply list_elem_of_fmap. by exists (b, bno').
  - intros b' Hmiss. destruct (decide (is_for b' x /\ b_valid x <> 0)) as [[[Hxd Hxb] Hxv]|Hno].
    + destruct (decide (b' = bno)) as [->|Hne].
      { exfalso. apply Hv, (Hmiss i y Hi); [by rewrite list_lookup_insert_eq|done]. }
      destruct Hcase as [[_ ?]|[H0 _]]; [congruence|]. rewrite <- Hxb.
      apply (bs_clean _ _ _ _ _ _ (c_buf _ _ _ _ Hc i x Hi Hx)); [done|done|done|]. intros Hin. by apply Hold.
    + apply (c_miss _ _ _ _ Hc). intros j z Hj Hz Hfor. destruct (decide (i = j)) as [<-|Hne].
      { simplify_eq. destruct (decide (b_valid x = 0)); [done|]. by destruct Hno. }
      apply (Hmiss j z Hj); [by rewrite list_lookup_insert_ne|done].
  - intros b' Hin. destruct (c_pin _ _ _ _ Hc b' Hin) as (j & z & Hj & Hz & Hfor).
    destruct (decide (i = j)) as [<-|Hne].
    + simplify_eq. destruct Hfor as [Hfd Hfb]. destruct Hcase as [[_ Hb]|[H0 _]].
      * exists i, y. rewrite list_lookup_insert_eq by done. split; [done|]. split; [done|]. split; congruence.
      * destruct (Hold H0). split; [done|congruence].
    + exists j, z. rewrite list_lookup_insert_ne by done. done.
  - simpl. apply NoDup_cons. split; [done|apply Hc].
Qed.

(** Moving a buffer in the list. *)
Lemma cst_payload F L held P bs' : cst F L held P -> same_payload (fs_bufs F) bs' -> cache_ok bs' ->
  cst (with_bufs F bs') L held P.
Proof.
  intros Hc Hs Hok.
  assert (Hfwd : forall (i : nat) x, fs_bufs F !! i = Some x -> exists y, bs' !! i = Some y /\ payload y = payload x)
    by (intros; by apply (same_payload_lookup (fs_bufs F) bs')).
  assert (Hback : forall (i : nat) y, bs' !! i = Some y -> exists x, fs_bufs F !! i = Some x /\ payload x = payload y)
    by (intros; apply (same_payload_lookup bs' (fs_bufs F)); [by symmetry|done]).
  split; unfold with_bufs; ksimp; [done|..|apply Hc].
  - intros i y Hi (x & Hx & [=])%Hback. destruct (c_buf _ _ _ _ Hc i x Hi Hx) as [H1' H2' H3' H4' H5'].
    unfold refs in H1'. split; unfold refs; ksimp; repeat match goal with H : _ x = _ y |- _ => rewrite H in * end; done.
  - intros b bno Hin. destruct (c_held _ _ _ _ Hc b bno Hin) as (Hb & x & Hx & [Hd Hn] & Hv). split; [done|].
    destruct (Hfwd _ _ Hx) as (y & Hy & [=]). exists y. split; [done|]. split; [split|]; congruence.
  - intros bno Hm. apply (c_miss _ _ _ _ Hc). intros i x Hi Hx [Hd Hn]. destruct (Hfwd _ _ Hx) as (y & Hy & [=]).
    assert (b_valid y = 0) by (apply (Hm i y Hi Hy); split; congruence). congruence.
  - intros bno Hin. destruct (c_pin _ _ _ _ Hc bno Hin) as (i & x & Hi & Hx & [Hd Hn]).
    destruct (Hfwd _ _ Hx) as (y & Hy & [=]). exists i, y. split_and!; [done|done|split; congruence].
Qed.
Lemma cst_perm F L held held' P : held ≡ₚ held' -> cst F L held P -> cst F L held' P.
Proof.
  intros Hp Hc. assert (Hp1 : held.*1 ≡ₚ held'.*1) by by rewrite Hp.
  assert (Hin : forall i, i ∈ held'.*1 <-> i ∈ held.*1) by (intros i; by rewrite Hp1).
  split; [apply Hc|..|apply Hc|apply Hc|rewrite <- Hp1; apply Hc].
  - intros i x Hi Hx. destruct (c_buf _ _ _ _ Hc i x Hi Hx) as [H1 H2 H3 H4 H5]. split; [|rewrite ?Hin; done..].
    rewrite H1. unfold refs. f_equal. destruct (decide (i ∈ held.*1)), (decide (i ∈ held'.*1)); first [done|naive_solver].
  - intros b bno. rewrite <- Hp. apply Hc.
Qed.
(** Writing a held buffer to the disk. *)
Lemma cst_write F L held P bno : cst F L held P -> cst (F <| fs_disk ::= cons (bno, L bno) |>) L held P.
Proof.
  intros Hc. assert (Hb : forall b, L b = block (fs_disk F) b -> L b = block ((bno, L bno) :: fs_disk F) b).
  { intros b Eb. simpl. destruct (Z.eqb_spec bno b) as [->|]; done. }
  split; ksimp; [apply Hc|..|apply Hc| |apply Hc|apply Hc].
  - intros i x Hi Hx. destruct (c_buf _ _ _ _ Hc i x Hi Hx) as [H1 H2 H3 H4 H5]. split; ksimp; auto.
  - intros b Hm. apply Hb, (c_miss _ _ _ _ Hc). done.
Qed.
(** Changing the data of a held buffer; the driver's flag is free. *)
Definition upd_block (L : Z -> list Z) (bno : Z) (d : list Z) : Z -> list Z := fun b => if b =? bno then d else L b.
Lemma cst_put F L held P b bno x y d : cst F L held P -> (b, bno) ∈ held -> fs_bufs F !! b = Some x ->
  buf_meta y = buf_meta x -> b_data y = d ->
  cst (with_bufs F (<[b := y]> (fs_bufs F))) (upd_block L bno d) held P.
Proof.
  intros Hc Hin Hx [= Ev Ed En El Er Ep Enx] <-. destruct (c_held _ _ _ _ Hc b bno Hin) as (Hb & x' & Hx' & Hfor & Hv). simplify_eq.
  assert (Hlen : (b < length (fs_bufs F))%nat) by by eapply lookup_lt_Some.
  assert (Hh : b ∈ held.*1) by (apply list_elem_of_fmap; by exists (b, bno)).
  assert (Hfy : is_for bno y) by (destruct Hfor; split; congruence).
  assert (Hoth : forall j z, j <> HEAD -> b <> j -> fs_bufs F !! j = Some z -> b_dev z = dev -> (b_blockno z =? bno) = false).
  { intros j z Hj Hne Hz Hzd. apply Z.eqb_neq. intros Eb. apply Hne. by apply (is_for_unique F L held P bno b j x z). }
  split; unfold with_bufs; ksimp.
  - eapply cache_update; [exact Hx|apply Hc|done..].
  - intros j z Hj Hz. apply list_lookup_insert_Some in Hz as [(<- & <- & _)|[Hne Hz]].
    + destruct (c_buf _ _ _ _ Hc b x Hb Hx) as [H1 H2 H3 H4 H5].
      split; ksimp; [|by rewrite El|by intros []| |by intros _ _ []].
      * rewrite Er, H1. unfold refs. by rewrite Ed, En.
      * intros _ _. unfold upd_block. destruct Hfy as [_ ->]. by rewrite Z.eqb_refl.
    + destruct (c_buf _ _ _ _ Hc j z Hj Hz) as [H1 H2 H3 H4 H5]. split; ksimp; [done..| |].
      * intros Hd Hvz. unfold upd_block. rewrite (Hoth j z) by done. auto.
      * intros Hd Hvz. unfold upd_block. rewrite (Hoth j z) by done. auto.
  - intros b' bno' Hin'. destruct (c_held _ _ _ _ Hc b' bno' Hin') as (Hb' & z & Hz & Hforz & Hvz). split; [done|].
    destruct (decide (b = b')) as [<-|Hne].
    + simplify_eq. exists y. split; [by apply list_lookup_insert_eq|]. destruct Hforz. split; [split|]; congruence.
    + exists z. by rewrite list_lookup_insert_ne.
  - intros b' Hm. unfold upd_block. destruct (Z.eqb_spec b' bno) as [->|Hne].
    + destruct Hv. rewrite <- Ev. exact (Hm b _ Hb (list_lookup_insert_eq _ _ _ Hlen) Hfy).
    + apply (c_miss _ _ _ _ Hc). intros j z Hj Hz Hforz. destruct (decide (b = j)) as [<-|Hbj].
      { simplify_eq. destruct Hfor, Hforz. congruence. }
      apply (Hm j z Hj); [by rewrite list_lookup_insert_ne|done].
  - intros b' Hp. destruct (c_pin _ _ _ _ Hc b' Hp) as (j & z & Hj & Hz & Hforz). destruct (decide (b = j)) as [<-|Hbj].
    + simplify_eq. exists b, y. split; [done|]. split; [by apply list_lookup_insert_eq|]. destruct Hforz. split; congruence.
    + exists j, z. by rewrite list_lookup_insert_ne.
  - apply Hc.
Qed.
Lemma cst_ext F L L' held P : (forall b, L b = L' b) -> cst F L held P -> cst F L' held P.
Proof.
  intros HL Hc. split; [apply Hc|..|apply Hc| |apply Hc|apply Hc].
  - intros i x Hi Hx. destruct (c_buf _ _ _ _ Hc i x Hi Hx). split; intros; rewrite <- ?HL; auto.
  - intros b Hm. rewrite <- HL. by apply (c_miss _ _ _ _ Hc).
Qed.
(** What a held buffer contains. *)
Lemma cst_get F L held P b bno : cst F L held P -> (b, bno) ∈ held ->
  exists x, fs_bufs F !! b = Some x /\ b <> HEAD /\ b_blockno x = bno /\ b_data x = L bno /\ b_lock x = mkSleeplock 1 pid.
Proof.
  intros Hc Hin. destruct (c_held _ _ _ _ Hc b bno Hin) as (Hb & x & Hx & [Hd Hn] & Hv). exists x.
  destruct (c_buf _ _ _ _ Hc b x Hb Hx) as [H1 H2 H3 H4 H5]. split_and!; [done..|rewrite <- Hn; auto|].
  apply H2, list_elem_of_fmap. by exists (b, bno).
Qed.

(** Giving up a held buffer that is pinned or on the disk. *)
Lemma cst_release F L held P b bno x n : cst F L ((b, bno) :: held) P -> fs_bufs F !! b = Some x ->
  bno ∈ P \/ L bno = block (fs_disk F) bno -> n = b_refcnt x - 1 ->
  cst (with_bufs F (<[b := x <| b_lock := mkSleeplock 0 0 |> <| b_refcnt := n |>]> (fs_bufs F))) L held P.
Proof.
  intros Hc Hx Hclean ->. destruct (c_held _ _ _ _ Hc b bno ltac:(left)) as (Hb & x' & Hx' & [Hfd Hfb] & Hv). simplify_eq.
  assert (Hlen : (b < length (fs_bufs F))%nat) by by eapply lookup_lt_Some.
  pose proof (c_nodup _ _ _ _ Hc) as Hnd. simpl in Hnd. apply NoDup_cons in Hnd as [Hnin Hnd].
  split; unfold with_bufs; ksimp.
  - eapply cache_update; [exact Hx|apply Hc|done..].
  - intros j z Hj Hz. apply list_lookup_insert_Some in Hz as [(<- & <- & _)|[Hne Hz]].
    + destruct (c_buf _ _ _ _ Hc b x Hb Hx) as [H1 H2 H3 H4 H5]. split; ksimp; [|done|done|done|].
      * rewrite H1. unfold refs. ksimp. rewrite decide_True by (simpl; left). rewrite (decide_False (P := b ∈ held.*1)) by done. lia.
      * intros _ _ _ Hnp. destruct Hclean as [|Hd]; [congruence|exact Hd].
    + destruct (c_buf _ _ _ _ Hc j z Hj Hz) as [H1 H2 H3 H4 H5]. rewrite refs_ne in H1 by done.
      split; ksimp; [done|intros H; apply H2; simpl; by right|intros H; apply H3; set_solver|done|].
      intros ? ? ? ?. apply H5; [done|done|set_solver|done].
  - intros b' bno' Hin'. destruct (c_held _ _ _ _ Hc b' bno' ltac:(by right)) as (Hb' & z & Hz & Hforz & Hvz). split; [done|].
    exists z. rewrite list_lookup_insert_ne; [done|]. intros <-. apply Hnin, list_elem_of_fmap. by exists (b, bno').
  - intros b' Hm. apply (c_miss _ _ _ _ Hc). intros j z Hj Hz Hforz. destruct (decide (b = j)) as [<-|Hbj].
    + simplify_eq. exact (Hm b _ Hj (list_lookup_insert_eq _ _ _ Hlen) Hforz).
    + apply (Hm j z Hj); [by rewrite list_lookup_insert_ne|done].
  - intros b' Hp. destruct (c_pin _ _ _ _ Hc b' Hp) as (j & z & Hj & Hz & Hforz). destruct (decide (b = j)) as [<-|Hbj].
    + simplify_eq. exists b. eexists. split; [done|]. split; [by apply list_lookup_insert_eq|exact Hforz].
    + exists j, z. by rewrite list_lookup_insert_ne.
  - done.
Qed.
(** The log gives up its pin on a held buffer. *)
Lemma cst_unpin F L held P b bno x n : cst F L held (bno :: P) -> bno ∉ P -> (b, bno) ∈ held -> fs_bufs F !! b = Some x ->
  n = b_refcnt x - 1 -> cst (with_bufs F (<[b := x <| b_refcnt := n |>]> (fs_bufs F))) L held P.
Proof.
  intros Hc Hnp Hin Hx ->. destruct (c_held _ _ _ _ Hc b bno Hin) as (Hb & x' & Hx' & [Hfd Hfb] & Hv). simplify_eq.
  assert (Hlen : (b < length (fs_bufs F))%nat) by by eapply lookup_lt_Some.
  assert (Hh : b ∈ held.*1) by (apply list_elem_of_fmap; by exists (b, b_blockno x)).
  assert (Hoth : forall j z, j <> HEAD -> b <> j -> fs_bufs F !! j = Some z -> b_dev z = b_dev x -> b_blockno z <> b_blockno x).
  { intros j z Hj Hne Hz Hzd Hzb. apply Hne. apply (co_unique _ (c_ok _ _ _ _ Hc) b j x z); congruence. }
  split; unfold with_bufs; ksimp.
  - eapply cache_update; [exact Hx|apply Hc|done..].
  - intros j z Hj Hz. apply list_lookup_insert_Some in Hz as [(<- & <- & _)|[Hne Hz]].
    + destruct (c_buf _ _ _ _ Hc b x Hb Hx) as [H1 H2 H3 H4 H5]. split; ksimp; [|done..].
      rewrite H1. unfold refs. ksimp. rewrite (decide_True (P := _ /\ _)) by (split; [done|left]).
      rewrite (decide_False (P := _ /\ b_blockno x ∈ P)) by (intros [_ ?]; done). lia.
    + destruct (c_buf _ _ _ _ Hc j z Hj Hz) as [H1 H2 H3 H4 H5]. split; ksimp; [|done..|].
      * rewrite H1. unfold refs. f_equal. apply decide_ext. split; [|set_solver]. intros [Hd Hi]. split; [done|].
        apply elem_of_cons in Hi as [Hi|Hi]; [|done]. by destruct (Hoth j z Hj Hne Hz ltac:(congruence)).
      * intros Hd ? ? Hi. apply H5; [done|done|done|]. apply not_elem_of_cons. split; [by apply (Hoth j z); try congruence|done].
  - intros b' bno' Hin'. destruct (c_held _ _ _ _ Hc b' bno' Hin') as (Hb' & z & Hz & Hforz & Hvz). split; [done|].
    destruct (decide (b = b')) as [<-|Hne].
    + simplify_eq. eexists. split; [by apply list_lookup_insert_eq|done].
    + exists z. by rewrite list_lookup_insert_ne.
  - intros b' Hm. apply (c_miss _ _ _ _ Hc). intros j z Hj Hz Hforz. destruct (decide (b = j)) as [<-|Hbj].
    + simplify_eq. exact (Hm b _ Hj (list_lookup_insert_eq _ _ _ Hlen) Hforz).
    + apply (Hm j z Hj); [by rewrite list_lookup_insert_ne|done].
  - intros b' Hp. destruct (c_pin _ _ _ _ Hc b' ltac:(by right)) as (j & z & Hj & Hz & Hforz). destruct (decide (b = j)) as [<-|Hbj].
    + simplify_eq. exists b. eexists. split; [done|]. split; [by apply list_lookup_insert_eq|exact Hforz].
    + exists j, z. by rewrite list_lookup_insert_ne.
  - apply Hc.
Qed.

(** ** The operations *)

(** The log pins a held buffer. *)
Lemma cst_pin F L held P b bno x n : cst F L held P -> bno ∉ P -> (b, bno) ∈ held -> fs_bufs F !! b = Some x ->
  n = b_refcnt x + 1 -> cst (with_bufs F (<[b := x <| b_refcnt := n |>]> (fs_bufs F))) L held (bno :: P).
Proof.
  intros Hc Hnp Hin Hx ->. destruct (c_held _ _ _ _ Hc b bno Hin) as (Hb & x' & Hx' & [Hfd Hfb] & Hv). simplify_eq.
  assert (Hlen : (b < length (fs_bufs F))%nat) by by eapply lookup_lt_Some.
  assert (Hoth : forall j z, j <> HEAD -> b <> j -> fs_bufs F !! j = Some z -> b_dev z = b_dev x -> b_blockno z <> b_blockno x).
  { intros j z Hj Hne Hz Hzd Hzb. apply Hne. apply (co_unique _ (c_ok _ _ _ _ Hc) b j x z); congruence. }
  split; unfold with_bufs; ksimp.
  - eapply cache_update; [exact Hx|apply Hc|done..].
  - intros j z Hj Hz. apply list_lookup_insert_Some in Hz as [(<- & <- & _)|[Hne Hz]].
    + destruct (c_buf _ _ _ _ Hc b x Hb Hx) as [H1 H2 H3 H4 H5]. split; ksimp; [|done..|intros; apply H5; set_solver].
      rewrite H1. unfold refs. ksimp. rewrite (decide_True (P := _ /\ b_blockno x ∈ _ :: _)) by (split; [done|left]).
      rewrite (decide_False (P := _ /\ b_blockno x ∈ P)) by (intros [_ ?]; done). lia.
    + destruct (c_buf _ _ _ _ Hc j z Hj Hz) as [H1 H2 H3 H4 H5]. split; ksimp; [|done..|intros; apply H5; set_solver].
      rewrite H1. unfold refs. f_equal. apply decide_ext. split; [set_solver|]. intros [Hd Hi]. split; [done|].
      apply elem_of_cons in Hi as [Hi|Hi]; [|done]. by destruct (Hoth j z Hj Hne Hz ltac:(congruence)).
  - intros b' bno' Hin'. destruct (c_held _ _ _ _ Hc b' bno' Hin') as (Hb' & z & Hz & Hforz & Hvz). split; [done|].
    destruct (decide (b = b')) as [<-|Hne].
    + simplify_eq. eexists. split; [by apply list_lookup_insert_eq|done].
    + exists z. by rewrite list_lookup_insert_ne.
  - intros b' Hm. apply (c_miss _ _ _ _ Hc). intros j z Hj Hz Hforz. destruct (decide (b = j)) as [<-|Hbj].
    + simplify_eq. exact (Hm b _ Hj (list_lookup_insert_eq _ _ _ Hlen) Hforz).
    + apply (Hm j z Hj); [by rewrite list_lookup_insert_ne|done].
  - intros b' [->|Hp]%elem_of_cons.
    { exists b. eexists. split; [done|]. split; [by apply list_lookup_insert_eq|done]. }
    destruct (c_pin _ _ _ _ Hc b' Hp) as (j & z & Hj & Hz & Hforz). destruct (decide (b = j)) as [<-|Hbj].
    + simplify_eq. exists b. eexists. split; [done|]. split; [by apply list_lookup_insert_eq|exact Hforz].
    + exists j, z. by rewrite list_lookup_insert_ne.
  - apply Hc.
Qed.
(** The order of the pins is of no account. *)
Lemma cst_pins F L held P P' : (forall b, b ∈ P <-> b ∈ P') -> cst F L held P -> cst F L held P'.
Proof.
  intros HP Hc. split; [apply Hc| |apply Hc|apply Hc| |apply Hc].
  - intros i x Hi Hx. destruct (c_buf _ _ _ _ Hc i x Hi Hx) as [H1 H2 H3 H4 H5]. split; rewrite <- ?HP; [|done..].
    rewrite H1. unfold refs. f_equal. apply decide_ext. by rewrite HP.
  - intros b. rewrite <- HP. apply Hc.
Qed.

Lemma ref_set f x n : f (b_refcnt x) = n -> upd b_refcnt f x = x <| b_refcnt := n |>.
Proof. by intros <-. Qed.
Lemma refs_range held P i x : 0 <= refs held P i x <= 2.
Proof. unfold refs. repeat case_decide; lia. Qed.

(** What bget leaves of buffer [b]: [y] in the place of [x]. *)
Record got (F : fsys) (L : Z -> list Z) (held : list (nat * Z)) (P : list Z) (bno : Z) (b : nat) (x y : buf) : Prop := {
  g_ne : b <> HEAD;
  g_new : b ∉ held.*1;
  g_old : fs_bufs F !! b = Some x;
  g_next : b_next y = b_next x;
  g_prev : b_prev y = b_prev x;
  g_for : is_for bno y;
  g_refs : b_refcnt y = refs ((b, bno) :: held) P b y;
  g_data : b_valid y <> 0 -> b_data y = L bno;
  g_miss : b_valid y = 0 -> L bno = block (fs_disk F) bno;
  g_case : is_for bno x \/ (b_refcnt x = 0 /\ forall j z, j <> HEAD -> fs_bufs F !! j = Some z -> ~ is_for bno z);
  g_lock : sl_locked (b_lock y) = 0;
}.
Lemma got_hit F L held P bno b x : cst F L held P -> bno ∉ held.*2 -> b <> HEAD -> fs_bufs F !! b = Some x ->
  is_for bno x -> got F L held P bno b x (ref_up x).
Proof.
  intros Hc Hnh Hb Hx Hfor.
  assert (Hnb : b ∉ held.*1).
  { intros ([b' bno'] & -> & Hin)%list_elem_of_fmap. destruct (c_held _ _ _ _ Hc _ _ Hin) as (_ & z & Hz & Hforz & _).
    simpl in *. apply Hnh, list_elem_of_fmap. exists (b', bno'). split; [|done]. destruct Hfor, Hforz. simpl. congruence. }
  destruct (c_buf _ _ _ _ Hc b x Hb Hx) as [H1 H2 H3 H4 H5]. pose proof Hfor as [Hd Hn].
  split; unfold ref_up; ksimp; [done..| | | |by left|by apply H3].
  - pose proof (refs_range held P b x). rewrite H1, u32_small by lia. unfold refs. ksimp.
    rewrite decide_False by done. rewrite (decide_True (P := b ∈ _)) by (simpl; left). lia.
  - rewrite <- Hn. auto.
  - intros Hv. apply (c_miss _ _ _ _ Hc). intros j z Hj Hz Hforz.
    pose proof (is_for_unique F L held P bno b j x z Hc Hb Hj Hx Hz Hfor Hforz). congruence.
Qed.
Lemma got_miss F L held P bno b x : cst F L held P -> b <> HEAD -> fs_bufs F !! b = Some x -> b_refcnt x = 0 ->
  (forall j z, j <> HEAD -> fs_bufs F !! j = Some z -> ~ is_for bno z) -> got F L held P bno b x (reuse dev bno x).
Proof.
  intros Hc Hb Hx H0 Hno. destruct (c_buf _ _ _ _ Hc b x Hb Hx) as [H1 H2 H3 H4 H5].
  assert (Hnb : b ∉ held.*1). { intros Hin. rewrite H0 in H1. unfold refs in H1. rewrite decide_True in H1 by done. case_decide; lia. }
  assert (Hnp : bno ∉ P). { intros Hin. destruct (c_pin _ _ _ _ Hc bno Hin) as (j & z & Hj & Hz & Hf). by apply (Hno j z). }
  split; unfold reuse; ksimp; [done..| | | |by right|by apply H3].
  - unfold refs. ksimp. rewrite decide_True by (simpl; left). rewrite decide_False by (intros [_ ?]; done). done.
  - done.
  - intros _. apply (c_miss _ _ _ _ Hc). intros j z Hj Hz Hf. by destruct (Hno j z).
Qed.
(** Every outcome of the search of bget; there is a buffer. *)
Lemma lookup_got F L held P bno l r : cst F L held P -> bno ∉ held.*2 -> l ≡ₚ all_bufs ->
  bno ∈ P \/ (length held + length P < Z.to_nat NBUF)%nat -> lookup_result (fs_bufs F) l dev bno r ->
  exists b x y, r = Some (b, y) /\ got F L held P bno b x y.
Proof.
  intros Hc Hnh Hl Hroom Hr. assert (Hin : forall j, j ∈ l <-> (j < HEAD)%nat) by (intros j; by rewrite Hl, all_bufs_lt).
  assert (Hinb : forall j z, j <> HEAD -> fs_bufs F !! j = Some z -> j ∈ l).
  { intros j z Hj Hz. apply Hin. apply lookup_lt_Some in Hz. rewrite (co_length _ (c_ok _ _ _ _ Hc)) in Hz. unfold HEAD in *. lia. }
  destruct Hr as [b x Hb Hx Hf|l1 b x l2 -> Hx H0 Hno _|Hno Hu].
  - exists b, x, (ref_up x). split; [done|]. apply got_hit; try done. apply Hin in Hb. lia.
  - exists b, x, (reuse dev bno x). split; [done|]. apply got_miss; try done.
    + assert (b ∈ l1 ++ b :: l2) as ?%Hin by set_solver. lia.
    + intros j z Hj Hz. apply (Hno j z); [by eapply Hinb|done].
  - exfalso. destruct Hroom as [Hp|Hlt]; [|by eapply some_free].
    destruct (c_pin _ _ _ _ Hc bno Hp) as (j & z & Hj & Hz & Hf). apply (Hno j z); [by eapply Hinb|done|done].
Qed.

Section ops.
Context {fuel : Fuel}.
Lemma fwp_bget F L held P bno (Q : nat -> list lockid -> fsys -> Prop) : cst F L held P -> bno ∉ held.*2 ->
  bno ∈ P \/ (length held + length P < Z.to_nat NBUF)%nat ->
  (forall b x y, got F L held P bno b x y ->
     Q b [] (with_bufs F (<[b := y <| b_lock := mkSleeplock 1 pid |>]> (fs_bufs F)))) ->
  fwp E pid (bget dev bno) [] F Q.
Proof.
  intros Hc Hnh Hroom HQ. destruct (co_ring _ (c_ok _ _ _ _ Hc)) as (l & Hl & Hr).
  unfold bget. apply fwp_bind, fwp_acquire; [apply not_elem_of_nil|]. apply fwp_bind.
  apply (fwp_bget_find E pid l); [apply Hc|done|done|]. intros r Hres.
  destruct (lookup_got F L held P bno l r Hc Hnh Hl Hroom Hres) as (b & x & y & -> & Hg). cbn [fmap option_fmap option_map fst].
  assert (Hlen : (b < length (fs_bufs F))%nat) by (eapply lookup_lt_Some; apply Hg).
  apply fwp_bind, fwp_release; [apply not_elem_of_nil|]. apply fwp_bind.
  apply (fwp_acquiresleep E pid b y); [ksimp; by apply list_lookup_insert_eq|apply Hg|]. apply fwp_ret.
  specialize (HQ b x y Hg). unfold with_bufs in HQ. ksimp. by rewrite list_insert_insert_eq.
Qed.
Context {disk : Disk} {law : DiskLaw E pid}.

(** bread returns a locked buffer with the block's content. *)
Lemma fwp_bread F L held P bno (Q : nat -> list lockid -> fsys -> Prop) : cst F L held P -> bno ∉ held.*2 ->
  bno ∈ P \/ (length held + length P < Z.to_nat NBUF)%nat -> 0 <= bno < 2 ^ 31 ->
  (forall b bs', cst (with_bufs F bs') L ((b, bno) :: held) P -> Q b [] (with_bufs F bs')) ->
  fwp E pid (bread dev bno) [] F Q.
Proof.
  intros Hc Hnh Hroom Hrange HQ. unfold bread. apply fwp_bind, (fwp_bget F L held P); [done..|]. intros b x y Hg.
  assert (Hlen : (b < length (fs_bufs F))%nat) by (eapply lookup_lt_Some; apply Hg).
  pose proof Hg as [H1 H2 H3 H4 H5 [H6 H6'] H7 H8 H9 H10 H11].
  set (y1 := y <| b_lock := mkSleeplock 1 pid |>).
  apply fwp_bind, (fwp_getb _ _ b y1); [unfold with_bufs; ksimp; by apply list_lookup_insert_eq|]. apply fwp_bind.
  assert (Hend : forall z, b_next z = b_next y -> b_prev z = b_prev y -> b_refcnt z = b_refcnt y -> b_lock z = b_lock y1 ->
    b_dev z = b_dev y -> b_blockno z = b_blockno y -> b_valid z <> 0 -> b_data z = L bno ->
    fwp E pid (ret b) [] (with_bufs F (<[b := z]> (fs_bufs F))) Q).
  { intros z E1 E2 E3 E4 E5 E6 Hv Hd. apply fwp_ret, HQ. apply (cst_take F L held P b bno x z); try done; try congruence.
    - split; congruence.
    - rewrite E3, H7. unfold refs. by rewrite E5, E6. }
  change (b_valid y1) with (b_valid y). destruct (Z.eqb_spec (b_valid y) 0) as [Hv|Hv]; cbn [when].
  - apply fwp_bind, (disk_read b y1); [unfold with_bufs; ksimp; by apply list_lookup_insert_eq|by rewrite <- H6' in Hrange|].
    intros k. eapply fwp_setb; [unfold with_bufs; ksimp; apply list_lookup_insert_eq; by rewrite length_insert|].
    unfold with_bufs. ksimp. rewrite !list_insert_insert_eq. apply Hend; try done. unfold with_bufs. ksimp. change (b_blockno y1) with (b_blockno y). rewrite H6'. symmetry. auto.
  - apply fwp_ret. apply Hend; try done. ksimp. auto.
Qed.
(** bwrite of a held buffer appends it to the disk's history. *)
Lemma fwp_bwrite F L held P b bno (Q : unit -> list lockid -> fsys -> Prop) : cst F L held P -> (b, bno) ∈ held -> 0 <= bno < 2 ^ 31 ->
  (forall bs', let F' := (with_bufs F bs') <| fs_disk ::= cons (bno, L bno) |> in cst F' L held P -> Q tt [] F') ->
  fwp E pid (bwrite b) [] F Q.
Proof.
  intros Hc Hin Hr HQ. destruct (cst_get _ _ _ _ _ _ Hc Hin) as (x & Hx & Hb & Hn & Hd & Hl).
  unfold bwrite. apply fwp_bind, (fwp_holdingsleep _ _ b x); [done|done|]. cbn [negb].
  apply (disk_write b x); [done|by rewrite Hn|]. intros k. rewrite Hn, Hd. apply HQ. apply (cst_write (with_bufs F _)).
  eapply (cst_ext _ (upd_block L bno (b_data x))).
  - intros b'. unfold upd_block. ksimp. destruct (Z.eqb_spec b' bno) as [->|]; done.
  - by eapply cst_put.
Qed.
End ops.
(** brelse gives the buffer back. *)
Lemma fwp_brelse F L held P b bno (Q : unit -> list lockid -> fsys -> Prop) : cst F L ((b, bno) :: held) P ->
  bno ∈ P \/ L bno = block (fs_disk F) bno ->
  (forall bs', cst (with_bufs F bs') L held P -> Q tt [] (with_bufs F bs')) -> fwp E pid (brelse b) [] F Q.
Proof.
  intros Hc Hcl HQ. destruct (cst_get _ _ _ _ _ _ Hc ltac:(left)) as (x & Hx & Hb & Hn & Hd & Hl).
  assert (Hlen : (b < length (fs_bufs F))%nat) by by eapply lookup_lt_Some.
  assert (Hr : 1 <= b_refcnt x <= 2).
  { rewrite (bs_refs _ _ _ _ _ _ (c_buf _ _ _ _ Hc b x Hb Hx)). unfold refs. rewrite decide_True by (simpl; left). case_decide; lia. }
  unfold brelse. apply fwp_bind, (fwp_holdingsleep _ _ b x); [done|done|]. cbn [negb].
  apply fwp_bind, (fwp_releasesleep _ _ b x); [done|]. apply fwp_bind, fwp_acquire; [apply not_elem_of_nil|].
  apply fwp_bind. eapply fwp_setb; [ksimp; by apply list_lookup_insert_eq|]. ksimp. rewrite list_insert_insert_eq.
  erewrite ref_set by (ksimp; apply u32_small; lia).
  pose proof (cst_release F L held P b bno x (b_refcnt x - 1) Hc Hx Hcl eq_refl) as Hc'. unfold with_bufs in *.
  apply fwp_bind. eapply fwp_getb; [ksimp; by apply list_lookup_insert_eq|]. ksimp. apply fwp_bind.
  destruct (Z.eqb_spec (b_refcnt x - 1) 0) as [H0|H0]; cbn [when].
  - destruct (co_ring _ (c_ok _ _ _ _ Hc')) as (l & Hl' & Hring).
    assert (Hinl : b ∈ l). { rewrite Hl', all_bufs_lt. rewrite (co_length _ (c_ok _ _ _ _ Hc)) in Hlen. unfold HEAD in *. lia. }
    apply list_elem_of_split in Hinl as (l1 & l2 & ->).
    apply (fwp_move E pid l1 b l2); [apply Hc'|done|done|]. intros bs' Hs _ Hok.
    apply fwp_release; [apply not_elem_of_nil|]. ksimp. apply HQ. exact (cst_payload _ _ _ _ bs' Hc' Hs Hok).
  - apply fwp_ret, fwp_release; [apply not_elem_of_nil|]. by apply HQ.
Qed.
Lemma fwp_bunpin F L held P b bno (Q : unit -> list lockid -> fsys -> Prop) : cst F L held (bno :: P) -> bno ∉ P ->
  (b, bno) ∈ held -> (forall bs', cst (with_bufs F bs') L held P -> Q tt [] (with_bufs F bs')) ->
  fwp E pid (bunpin b) [] F Q.
Proof.
  intros Hc Hnp Hin HQ. destruct (c_held _ _ _ _ Hc b bno Hin) as (Hb & x & Hx & _ & _).
  pose proof (refs_range held (bno :: P) b x) as Hr. destruct (c_held _ _ _ _ Hc b bno Hin) as (_ & x' & Hx' & [Hd Hn] & _).
  simplify_eq. assert (Hr1 : 1 <= b_refcnt x <= 2).
  { rewrite (bs_refs _ _ _ _ _ _ (c_buf _ _ _ _ Hc b x Hb Hx)). unfold refs in *.
    rewrite (decide_True (P := b ∈ _)) in * by (apply list_elem_of_fmap; by exists (b, b_blockno x)). case_decide; lia. }
  unfold bunpin. apply fwp_bind, fwp_acquire; [apply not_elem_of_nil|]. apply fwp_bind. eapply fwp_setb; [done|].
  erewrite ref_set by (apply u32_small; lia). apply fwp_release; [apply not_elem_of_nil|]. apply HQ. by eapply cst_unpin.
Qed.
Lemma fwp_bpin F L held P b bno h (Q : unit -> list lockid -> fsys -> Prop) : cst F L held P -> bno ∉ P -> Lbcache ∉ h ->
  (b, bno) ∈ held -> (forall bs', cst (with_bufs F bs') L held (bno :: P) -> Q tt h (with_bufs F bs')) ->
  fwp E pid (bpin b) h F Q.
Proof.
  intros Hc Hnp Hh Hin HQ. destruct (c_held _ _ _ _ Hc b bno Hin) as (Hb & x & Hx & _ & _).
  pose proof (bs_refs _ _ _ _ _ _ (c_buf _ _ _ _ Hc b x Hb Hx)) as Hr. pose proof (refs_range held P b x).
  unfold bpin. apply fwp_bind, fwp_acquire; [done|]. apply fwp_bind. eapply fwp_setb; [done|].
  erewrite ref_set by (apply u32_small; lia). apply fwp_release; [done|]. apply HQ. by eapply cst_pin.
Qed.

End spec.
End BufSpec.
