(* ===== verification/LogSpec.v ===== *)
(** * What the log promises

    commit writes the blocks of a transaction to the log, then the header,
    then the blocks to their places, then an empty header.  The disk is the
    history of its writes, so a crash leaves a suffix of the history; recovery
    from every such suffix yields either all of the transaction or none of
    it, and a crash during recovery changes nothing. *)

From S2P Require Import Prelude State Spinlock CString Mem Sched FileLayer Proc PsList Console Bio BufCache Log FsLogic BufSpec.

(** ** Fields of a block *)

Lemma blk_put_length bs off v : (off + length v <= length bs)%nat -> length (blk_put bs off v) = length bs.
Proof. intros H. unfold blk_put. rewrite !length_app, length_take, length_drop. lia. Qed.
Lemma blk_get_put bs off v : (off + length v <= length bs)%nat -> blk_get (blk_put bs off v) off (length v) = v.
Proof.
  intros H. unfold blk_get, blk_put. rewrite drop_app_length' by (rewrite length_take; lia).
  by rewrite take_app_length.
Qed.
Lemma blk_get_put_ne bs off v off' n : (off + length v <= length bs)%nat ->
  (off' + n <= off \/ off + length v <= off')%nat -> blk_get (blk_put bs off v) off' n = blk_get bs off' n.
Proof.
  intros H Hd. apply list_eq. intros i. unfold blk_get, blk_put. destruct (decide (i < n)%nat) as [Hi|Hi].
  - rewrite !lookup_take_lt, !lookup_drop by lia. destruct Hd as [Hd|Hd].
    + rewrite lookup_app_l by (rewrite length_take; lia). by rewrite lookup_take_lt by lia.
    + rewrite lookup_app_r by (rewrite length_take; lia). rewrite length_take, lookup_app_r by lia.
      rewrite lookup_drop. f_equal. lia.
  - by rewrite !lookup_take_ge by lia.
Qed.
Lemma put32_length bs off v : (off + 4 <= length bs)%nat -> length (put32 bs off v) = length bs.
Proof. intros H. apply blk_put_length. by rewrite le_bytes_length. Qed.
Lemma get32_put32 bs off v : (off + 4 <= length bs)%nat -> get32 (put32 bs off v) off = u32 v.
Proof.
  intros H. unfold get32, put32. pose proof (blk_get_put bs off (le_bytes 4 (u32 v))) as E.
  rewrite le_bytes_length in E. rewrite E by lia. rewrite le_val_bytes. apply Z.mod_small. apply u32_range.
Qed.
Lemma get32_put32_ne bs off v off' : (off + 4 <= length bs)%nat -> (off' + 4 <= off \/ off + 4 <= off')%nat ->
  get32 (put32 bs off v) off' = get32 bs off'.
Proof. intros H Hd. unfold get32, put32. rewrite blk_get_put_ne; [done|by rewrite le_bytes_length..]. Qed.
Lemma i32_u32 v : 0 <= v < 2 ^ 31 -> i32 (u32 v) = v.
Proof. intros H. rewrite u32_small by lia. apply i32_small. lia. Qed.

Module LogSpec.
Import BufCache FsLogic BufSpec Log.

(** ** Sequences of writes, oldest first *)
Definition apply_ws (L : Z -> list Z) (ws : list (Z * list Z)) : Z -> list Z :=
  foldl (fun L w => upd_block L w.1 w.2) L ws.
(** Copying the blocks [bl] to the log, and back. *)
Fixpoint log_writes (L : Z -> list Z) (pos : Z) (bl : list Z) : list (Z * list Z) :=
  match bl with
  | [] => []
  | b :: bl => (pos, L b) :: log_writes L (pos + 1) bl
  end.
Fixpoint install_writes (L : Z -> list Z) (pos : Z) (bl : list Z) : list (Z * list Z) :=
  match bl with
  | [] => []
  | b :: bl => (b, L pos) :: install_writes L (pos + 1) bl
  end.
(** The header block: the count, then the block numbers. *)
Definition head_put (bl : list Z) (d : list Z) (i : nat) : list Z := put32 d (4 + 4 * i) (default 0 (bl !! i)).
Definition head_bytes (bl : list Z) (d : list Z) : list Z :=
  foldl (head_put bl) (put32 d 0 (Z.of_nat (length bl))) (seq 0 (length bl)).
Definition head_blocks (h : list Z) : list Z :=
  map (fun i => i32 (get32 h (4 + 4 * i))) (seq 0 (Z.to_nat (i32 (get32 h 0)))).

Lemma apply_ws_ext L L' ws b : (forall b, L b = L' b) -> apply_ws L ws b = apply_ws L' ws b.
Proof.
  revert L L'. induction ws as [|w ws IH]; intros L L' Eb; [apply Eb|]. apply IH. intros b'. unfold upd_block. by rewrite Eb.
Qed.
Lemma apply_ws_app L ws ws' b : apply_ws L (ws ++ ws') b = apply_ws (apply_ws L ws) ws' b.
Proof. unfold apply_ws. by rewrite foldl_app. Qed.
Lemma block_app ws d b : block (rev ws ++ d) b = apply_ws (block d) ws b.
Proof.
  revert d b. induction ws as [|[c x] ws IH]; intros d b; [done|]. simpl rev. rewrite <- app_assoc. cbn [app].
  rewrite IH. apply (apply_ws_ext _ (upd_block (block d) c x)). intros b'. simpl. unfold upd_block. by rewrite Z.eqb_sym.
Qed.
(** A block nobody wrote, and one whose content was the same before. *)
Lemma apply_ws_ne L ws b : b ∉ ws.*1 -> apply_ws L ws b = L b.
Proof.
  revert L. induction ws as [|[c x] ws IH]; intros L Hb; [done|]. cbn [fmap list_fmap fst] in Hb.
  apply not_elem_of_cons in Hb as [Hne Hb]. unfold apply_ws. cbn [foldl]. fold (apply_ws (upd_block L c x) ws).
  rewrite IH by done. unfold upd_block. simpl. by rewrite (proj2 (Z.eqb_neq b c)).
Qed.
(** What was there before does not matter for a block that is written. *)
Lemma apply_ws_in L L' ws b : b ∈ ws.*1 \/ L b = L' b -> apply_ws L ws b = apply_ws L' ws b.
Proof.
  revert L L'. induction ws as [|[c x] ws IH]; intros L L' Hb.
  - destruct Hb as [Hb|Hb]; [by apply elem_of_nil in Hb|done].
  - apply IH. unfold upd_block. simpl in *. destruct (Z.eqb_spec b c) as [->|Hne]; [by right|].
    destruct Hb as [[?|Hb]%elem_of_cons|Hb]; [done|by left|by right].
Qed.
(** Repeating the beginning of a sequence of writes. *)
Lemma apply_ws_again L p q b : apply_ws (apply_ws L p) (p ++ q) b = apply_ws L (p ++ q) b.
Proof.
  destruct (decide (b ∈ p.*1)) as [Hin|Hno].
  - apply apply_ws_in. left. rewrite fmap_app. set_solver.
  - apply apply_ws_in. right. by apply apply_ws_ne.
Qed.
Lemma log_writes_ext L L' pos bl : (forall b, b ∈ bl -> L b = L' b) -> log_writes L pos bl = log_writes L' pos bl.
Proof.
  revert pos. induction bl as [|b bl IH]; intros pos Hb; [done|]. simpl. rewrite Hb by left. f_equal. apply IH. set_solver.
Qed.
Lemma install_writes_ext L L' pos bl : (forall p, pos <= p < pos + Z.of_nat (length bl) -> L p = L' p) ->
  install_writes L pos bl = install_writes L' pos bl.
Proof.
  revert pos. induction bl as [|b bl IH]; intros pos Hb; [done|]. simpl in *. rewrite Hb by lia. f_equal. apply IH.
  intros p Hp. apply Hb. lia.
Qed.
Lemma install_writes_fst L pos bl : (install_writes L pos bl).*1 = bl.
Proof. revert pos. induction bl as [|b bl IH]; intros pos; [done|]. simpl. by rewrite IH. Qed.
Lemma log_writes_fst L pos bl p : p ∈ (log_writes L pos bl).*1 <-> pos <= p < pos + Z.of_nat (length bl).
Proof.
  revert pos. induction bl as [|b bl IH]; intros pos; simpl.
  - rewrite elem_of_nil. lia.
  - rewrite elem_of_cons, IH. lia.
Qed.
(** Installing what was logged. *)
Lemma install_logged L pos bl : (forall b, b ∈ bl -> b < pos \/ pos + Z.of_nat (length bl) <= b) ->
  install_writes (apply_ws L (log_writes L pos bl)) pos bl = map (fun b => (b, L b)) bl.
Proof.
  revert L pos. induction bl as [|b bl IH]; intros L pos Hb; [done|]. simpl. f_equal.
  - f_equal. unfold apply_ws. cbn [foldl]. fold (apply_ws (upd_block L pos (L b)) (log_writes L (pos + 1) bl)).
    rewrite apply_ws_ne by (rewrite log_writes_fst; lia). unfold upd_block. by rewrite Z.eqb_refl.
  - unfold apply_ws. cbn [foldl fst snd]. fold (apply_ws (upd_block L pos (L b)) (log_writes L (pos + 1) bl)).
    rewrite (log_writes_ext L (upd_block L pos (L b))).
    + rewrite IH.
      * apply map_ext_in. intros c Hc. unfold upd_block. rewrite (proj2 (Z.eqb_neq c pos)); [done|].
        apply list_elem_of_In in Hc. specialize (Hb c ltac:(by right)). simpl in Hb. lia.
      * intros c Hc. specialize (Hb c ltac:(by right)). simpl in Hb. lia.
    + intros c Hc. unfold upd_block. rewrite (proj2 (Z.eqb_neq c pos)); [done|]. specialize (Hb c ltac:(by right)). simpl in Hb. lia.
Qed.

(** ** The header *)
Lemma head_put_length bl d i : (8 + 4 * i <= length d)%nat -> length (head_put bl d i) = length d.
Proof. intros H. apply put32_length. lia. Qed.
Lemma head_loop_length bl l d : (forall i, i ∈ l -> (8 + 4 * i <= length d)%nat) -> length (foldl (head_put bl) d l) = length d.
Proof.
  revert d. induction l as [|i l IH]; intros d Hl; [done|]. simpl. rewrite IH, head_put_length; [done|apply Hl; left|].
  intros j Hj. rewrite head_put_length by (apply Hl; left). apply Hl. by right.
Qed.
Lemma head_loop_ne bl l d off : (forall i, i ∈ l -> (8 + 4 * i <= length d)%nat) ->
  (forall i, i ∈ l -> (off + 4 <= 4 + 4 * i \/ 8 + 4 * i <= off)%nat) ->
  get32 (foldl (head_put bl) d l) off = get32 d off.
Proof.
  revert d. induction l as [|i l IH]; intros d Hl Hoff; [done|]. pose proof (Hl i ltac:(left)). pose proof (Hoff i ltac:(left)).
  simpl. rewrite IH; [unfold head_put; apply get32_put32_ne; lia| |].
  - intros j Hj. rewrite head_put_length by done. apply Hl. by right.
  - intros j Hj. apply Hoff. by right.
Qed.
Lemma head_loop_get bl l d i : NoDup l -> i ∈ l -> (forall i, i ∈ l -> (8 + 4 * i <= length d)%nat) ->
  get32 (foldl (head_put bl) d l) (4 + 4 * i) = u32 (default 0 (bl !! i)).
Proof.
  revert d. induction l as [|j l IH]; intros d Hnd Hi Hl; [by apply elem_of_nil in Hi|].
  apply NoDup_cons in Hnd as [Hj Hnd]. pose proof (Hl j ltac:(left)) as Hlj. simpl. apply elem_of_cons in Hi as [->|Hi].
  - rewrite head_loop_ne.
    + apply get32_put32. lia.
    + intros k Hk. rewrite head_put_length by done. apply Hl. by right.
    + intros k Hk. assert (k <> j) by congruence. lia.
  - apply IH; [done|done|]. intros k Hk. rewrite head_put_length by done. apply Hl. by right.
Qed.
(** Reading back the header that was written. *)
Lemma head_blocks_bytes bl d : (4 + 4 * length bl <= length d)%nat -> (length bl <= Z.to_nat LOGSIZE)%nat ->
  (forall b, b ∈ bl -> 0 <= b < 2 ^ 31) -> head_blocks (head_bytes bl d) = bl.
Proof.
  intros Hd Hn Hb. unfold head_blocks, head_bytes. rewrite head_loop_ne.
  - rewrite get32_put32 by lia. rewrite i32_u32 by (split; [lia|]; unfold LOGSIZE, MAXOPBLOCKS in Hn; lia). rewrite Nat2Z.id.
    apply list_eq. intros i. rewrite list_lookup_fmap. destruct (decide (i < length bl)%nat) as [Hi|Hi].
    + rewrite lookup_seq_lt by done. cbn [fmap option_fmap option_map Nat.add].
      destruct (lookup_lt_is_Some_2 bl i Hi) as [v Hv]. rewrite Hv. f_equal.
      rewrite (head_loop_get bl (seq 0 (length bl)) _ i).
      * rewrite Hv. apply i32_u32, Hb. by eapply list_elem_of_lookup_2.
      * apply NoDup_seq.
      * apply elem_of_seq. lia.
      * intros k Hk%elem_of_seq. rewrite put32_length; lia.
    + rewrite lookup_seq_ge by lia. symmetry. apply lookup_ge_None. lia.
  - intros k Hk%elem_of_seq. rewrite put32_length; lia.
  - intros k Hk%elem_of_seq. lia.
Qed.
Lemma head_bytes_length bl d : (4 + 4 * length bl <= length d)%nat -> length (head_bytes bl d) = length d.
Proof.
  intros Hd. unfold head_bytes. rewrite head_loop_length; [by apply put32_length; lia|].
  intros k Hk%elem_of_seq. rewrite put32_length; lia.
Qed.

Section log.
Context (E : env) (pid dev : Z) (Hdev : dev <> 0).
Context {fuel : Fuel} {disk : Disk} {law : DiskLaw E pid}.
#[local] Notation fwp := (fwp E pid).
#[local] Notation cst := (cst pid dev).

Lemma fwp_getl {A} (f : log -> A) h F (Q : A -> list lockid -> fsys -> Prop) : Q (f (fs_log F)) h F -> fwp (getl f) h F Q.
Proof. intros H. by apply fwp_getfs. Qed.
Lemma fwp_setl f h F (Q : unit -> list lockid -> fsys -> Prop) : Q tt h (F <| fs_log ::= f |>) -> fwp (setl f) h F Q.
Proof. intros H. by apply fwp_setfs. Qed.
Lemma fwp_lh_block i v h F (Q : Z -> list lockid -> fsys -> Prop) :
  lg_block (fs_log F) !! i = Some v -> Q v h F -> fwp (lh_block i) h F Q.
Proof. intros Hv H. unfold lh_block. apply fwp_bind, fwp_getl. by eapply fwp_deref. Qed.
Lemma cst_log F L held P f : cst F L held P -> cst (F <| fs_log ::= f |>) L held P.
Proof. intros Hc. split; ksimp; try apply Hc. intros i x Hi Hx. destruct (c_buf _ _ _ _ _ _ Hc i x Hi Hx). by split. Qed.
Lemma fwp_buf_copy F L held P to from bt bf (Q : unit -> list lockid -> fsys -> Prop) : cst F L held P ->
  (to, bt) ∈ held -> (from, bf) ∈ held ->
  (forall bs', cst (with_bufs F bs') (upd_block L bt (L bf)) held P -> Q tt [] (with_bufs F bs')) ->
  fwp (buf_copy to from) [] F Q.
Proof.
  intros Hc Ht Hf HQ. destruct (cst_get _ _ _ _ _ _ _ _ Hc Hf) as (x & Hx & _ & _ & Hd & _).
  destruct (cst_get _ _ _ _ _ _ _ _ Hc Ht) as (z & Hz & _). unfold buf_copy.
  apply fwp_bind. eapply fwp_getb; [exact Hx|]. eapply fwp_setb; [exact Hz|]. apply HQ. rewrite <- Hd.
  by apply (cst_put pid dev Hdev F L held P to bt z).
Qed.
(** A block that is neither held nor pinned is on the disk. *)
Lemma cst_clean F L held P bno : cst F L held P -> bno ∉ held.*2 -> bno ∉ P -> L bno = block (fs_disk F) bno.
Proof.
  intros Hc Hh Hp.
  set (valid_for := fun x => bool_decide (b_dev x = dev /\ b_blockno x = bno /\ b_valid x <> 0)).
  destruct (decide (Exists (fun i => from_option valid_for false (fs_bufs F !! i) = true) all_bufs)) as [He|He].
  - apply Exists_exists in He as (i & Hi & He). apply all_bufs_lt in Hi.
    destruct (fs_bufs F !! i) as [x|] eqn:Hx; [|done]. apply bool_decide_eq_true in He as (Hd & <- & Hv).
    apply (bs_clean _ _ _ _ _ _ _ _ (c_buf _ _ _ _ _ _ Hc i x ltac:(lia) Hx)); [done|done| |done].
    intros ([i' bno'] & -> & Hin)%list_elem_of_fmap. destruct (c_held _ _ _ _ _ _ Hc _ _ Hin) as (_ & z & Hz & [_ Hn] & _).
    simpl in *. apply Hh, list_elem_of_fmap. exists (i', bno'). split; [simpl; congruence|done].
  - apply (c_miss _ _ _ _ _ _ Hc). intros i x Hi Hx [Hd Hn]. destruct (decide (b_valid x = 0)) as [|Hv]; [done|]. destruct He.
    apply Exists_exists. exists i. split; [|rewrite Hx; by apply bool_decide_eq_true]. apply all_bufs_lt.
    apply lookup_lt_Some in Hx. rewrite (co_length _ (c_ok _ _ _ _ _ _ Hc)) in Hx. unfold HEAD in *. lia.
Qed.

(** ** write_log and install_trans *)

(** A transaction's blocks: valid numbers outside the log. *)
Definition outside (start : Z) (n : nat) (b : Z) : Prop := 0 <= b < 2 ^ 31 /\ (b < start \/ start + Z.of_nat n < b).

Lemma fwp_write_log_loop start N k : forall tail bl F L P (Q : unit -> list lockid -> fsys -> Prop),
  cst F L [] P -> lg_dev (fs_log F) = dev -> lg_start (fs_log F) = start ->
  0 <= start -> start + Z.of_nat N < 2 ^ 31 -> (tail + k <= N)%nat ->
  length bl = k -> (forall i, (i < k)%nat -> lg_block (fs_log F) !! (tail + i)%nat = bl !! i) ->
  (forall b, b ∈ bl -> b ∈ P /\ outside start N b) -> (length P < Z.to_nat NBUF)%nat ->
  (forall F', fs_log F' = fs_log F -> fs_disk F' = rev (log_writes L (start + Z.of_nat tail + 1) bl) ++ fs_disk F ->
     cst F' (apply_ws L (log_writes L (start + Z.of_nat tail + 1) bl)) [] P -> Q tt [] F') ->
  fwp (write_log_loop k tail) [] F Q.
Proof.
  induction k as [|k IH]; intros tail bl F L P Q Hc Hd Hs Hs0 HsN Hk Hlen Hbl Hb HP HQ.
  { destruct bl; [|done]. apply fwp_ret. by apply HQ. }
  destruct bl as [|b bl]; [done|]. injection Hlen as Hlen. destruct (Hb b ltac:(left)) as [HbP Hbo]. red in Hbo.
  set (pos := start + Z.of_nat tail + 1) in *.
  cbn [write_log_loop]. apply fwp_bind, fwp_getl. rewrite Hd. apply fwp_bind, fwp_getl. rewrite Hs. fold pos.
  apply fwp_bind, (fwp_bread E pid dev Hdev F L [] P); [done|apply not_elem_of_nil|right; simpl; lia|lia|]. intros to bs1 Hc1.
  apply fwp_bind. eapply fwp_lh_block; [specialize (Hbl 0%nat ltac:(lia)); rewrite Nat.add_0_r in Hbl; exact Hbl|].
  apply fwp_bind, (fwp_bread E pid dev Hdev _ L [(to, pos)] P); [done|set_solver by lia|by left|lia|]. intros from bs2 Hc2.
  apply fwp_bind. eapply (fwp_buf_copy _ L _ P to from pos b); [done|set_solver|set_solver|]. intros bs3 Hc3.
  apply fwp_bind. eapply (fwp_bwrite E pid dev Hdev _ _ _ P to pos); [done|set_solver|lia|]. cbv zeta. intros bs4 Hc4.
  apply fwp_bind; eapply (fwp_brelse E pid dev Hdev _ _ [(to, pos)] P from b); [done|by left|]. intros bs5 Hc5.
  apply fwp_bind; eapply (fwp_brelse E pid dev Hdev _ _ [] P to pos); [done| |].
  { right. unfold with_bufs. ksimp. simpl. by rewrite Z.eqb_refl. }
  intros bs6 Hc6. set (L1 := upd_block L pos (L b)) in *.
  assert (HL1 : forall c, c ∈ bl -> L c = L1 c).
  { intros c Hc'. destruct (Hb c ltac:(by right)) as [_ Hco]. red in Hco. unfold L1, upd_block. by rewrite (proj2 (Z.eqb_neq c pos)) by lia. }
  apply (IH (S tail) bl _ L1 P); [done|done|done|done|done|lia|done| |intros c Hc'; apply Hb; by right|done|].
  - intros i Hi. specialize (Hbl (S i) ltac:(lia)). by rewrite Nat.add_succ_r in Hbl.
  - replace (start + Z.of_nat (S tail) + 1) with (pos + 1) by lia. rewrite <- (log_writes_ext L L1) by done.
    intros F' E1 E2 Hc'. apply HQ; [by rewrite E1| |].
    + rewrite E2. unfold with_bufs. ksimp. cbn [log_writes rev]. rewrite <- app_assoc. cbn [app]. do 3 f_equal. unfold L1, upd_block. by rewrite Z.eqb_refl.
    + exact Hc'.
Qed.

Lemma fwp_install_loop (r : bool) start N k : forall tail bl F L (Q : unit -> list lockid -> fsys -> Prop),
  cst F L [] (if r then [] else bl) -> lg_dev (fs_log F) = dev -> lg_start (fs_log F) = start ->
  0 <= start -> start + Z.of_nat N < 2 ^ 31 -> (tail + k <= N)%nat ->
  length bl = k -> (forall i, (i < k)%nat -> lg_block (fs_log F) !! (tail + i)%nat = bl !! i) ->
  (forall b, b ∈ bl -> outside start N b) -> (r = false -> NoDup bl) -> (k < Z.to_nat NBUF \/ r = true)%nat ->
  (forall F', fs_log F' = fs_log F -> fs_disk F' = rev (install_writes L (start + Z.of_nat tail + 1) bl) ++ fs_disk F ->
     cst F' (apply_ws L (install_writes L (start + Z.of_nat tail + 1) bl)) [] [] -> Q tt [] F') ->
  fwp (install_trans_loop r k tail) [] F Q.
Proof.
  induction k as [|k IH]; intros tail bl F L Q Hc Hd Hs Hs0 HsN Hk Hlen Hbl Hb Hnd HP HQ.
  { destruct bl; [|done]. apply fwp_ret. apply HQ; [done|done|]. by destruct r. }
  destruct bl as [|b bl]; [done|]. injection Hlen as Hlen. pose proof (Hb b ltac:(left)) as Hbo. red in Hbo.
  set (pos := start + Z.of_nat tail + 1) in *. set (P := if r then [] else b :: bl) in *. set (P' := if r then [] else bl).
  cbn [install_trans_loop]. apply fwp_bind, fwp_getl. rewrite Hd. apply fwp_bind, fwp_getl. rewrite Hs. fold pos.
  apply fwp_bind, (fwp_bread E pid dev Hdev F L [] P); [done|apply not_elem_of_nil| |lia|].
  { right. unfold P. destruct r; simpl; [|destruct HP; [lia|done]]. unfold NBUF, MAXOPBLOCKS. lia. }
  intros lbuf bs1 Hc1.
  apply fwp_bind. eapply fwp_lh_block; [specialize (Hbl 0%nat ltac:(lia)); rewrite Nat.add_0_r in Hbl; exact Hbl|].
  apply fwp_bind, (fwp_bread E pid dev Hdev _ L [(lbuf, pos)] P); [done|set_solver by lia| |lia|].
  { unfold P. destruct r; [right; simpl; unfold NBUF, MAXOPBLOCKS; lia|left; left]. }
  intros dbuf bs2 Hc2.
  apply fwp_bind. eapply (fwp_buf_copy _ L _ P dbuf lbuf b pos); [done|set_solver|set_solver|]. intros bs3 Hc3.
  apply fwp_bind. eapply (fwp_bwrite E pid dev Hdev _ _ _ P dbuf b); [done|set_solver|lia|]. cbv zeta. intros bs4 Hc4.
  set (L1 := upd_block L b (L pos)) in *. set (F4 := _ <| fs_disk ::= _ |>) in Hc4 |- *.
  apply fwp_bind, (fwp_mono _ _ _ _ _ (fun _ h F' => h = [] /\ exists bs5, F' = with_bufs F4 bs5 /\ cst F' L1 [(dbuf, b); (lbuf, pos)] P')).
  { unfold P, P' in *. destruct r; cbn [negb when].
    - apply fwp_ret. split; [done|]. by exists (fs_bufs F4).
    - eapply (fwp_bunpin E pid dev Hdev _ _ _ bl dbuf b); [done|by apply NoDup_cons in Hnd as [? _]|set_solver|].
      intros bs5 Hc5. split; [done|]. by exists bs5. }
  intros [] h F5 [-> (bs5 & -> & Hc5)].
  apply fwp_bind. eapply (fwp_brelse E pid dev Hdev _ _ [(dbuf, b)] P' lbuf pos).
  { eapply cst_perm; [|exact Hc5]. apply perm_swap. }
  { right. unfold F4, with_bufs. ksimp. cbn [block]. rewrite (proj2 (Z.eqb_neq b pos)) by lia.
    rewrite <- (cst_clean F L [] P pos Hc); [|apply not_elem_of_nil|].
    - unfold L1, upd_block. by rewrite (proj2 (Z.eqb_neq pos b)) by lia.
    - unfold P. destruct r; [apply not_elem_of_nil|]. intros Hin%Hb. red in Hin. lia. }
  intros bs6 Hc6. apply fwp_bind; eapply (fwp_brelse E pid dev Hdev _ _ [] P' dbuf b); [done| |].
  { right. unfold F4, with_bufs. ksimp. cbn [block]. by rewrite Z.eqb_refl. }
  intros bs7 Hc7.
  apply (IH (S tail) bl _ L1); [done|done|done|done|done|lia|done| |intros c Hc'; apply Hb; by right| | |].
  - intros i Hi. specialize (Hbl (S i) ltac:(lia)). by rewrite Nat.add_succ_r in Hbl.
  - intros Hr. specialize (Hnd Hr). by apply NoDup_cons in Hnd as [_ ?].
  - destruct HP; [left; lia|by right].
  - replace (start + Z.of_nat (S tail) + 1) with (pos + 1) by lia. rewrite <- (install_writes_ext L L1).
    + intros F' E1 E2 Hc'. apply HQ; [by rewrite E1| |exact Hc'].
      rewrite E2. unfold F4, with_bufs. ksimp. cbn [install_writes rev]. rewrite <- app_assoc. cbn [app]. do 3 f_equal.
      unfold L1, upd_block. by rewrite Z.eqb_refl.
    + intros p Hp. unfold L1, upd_block. by rewrite (proj2 (Z.eqb_neq p b)) by lia.
Qed.

(** ** The header block *)
Lemma with_bufs_id F : with_bufs F (fs_bufs F) = F.
Proof. by destruct F. Qed.
Lemma upd_block_twice L b d d' c : upd_block (upd_block L b d) b d' c = upd_block L b d' c.
Proof. unfold upd_block. by destruct (c =? b). Qed.
Lemma upd_block_eq L b d : upd_block L b d b = d.
Proof. unfold upd_block. by rewrite Z.eqb_refl. Qed.

(** Changing the data of a buffer that is held. *)
Lemma fwp_put F L held P b bno f (Q : unit -> list lockid -> fsys -> Prop) : cst F L held P -> (b, bno) ∈ held ->
  (forall bs', cst (with_bufs F bs') (upd_block L bno (f (L bno))) held P -> Q tt [] (with_bufs F bs')) ->
  fwp (setb b (upd b_data f)) [] F Q.
Proof.
  intros Hc Hb HQ. destruct (cst_get _ _ _ _ _ _ _ _ Hc Hb) as (x & Hx & _ & _ & Hd & _).
  eapply fwp_setb; [exact Hx|]. apply HQ. rewrite <- Hd. by apply (cst_put pid dev Hdev F L held P b bno x).
Qed.
Lemma fwp_head_loop bl b start held P l : forall F L (Q : unit -> list lockid -> fsys -> Prop), cst F L held P ->
  (b, start) ∈ held -> (forall i, i ∈ l -> lg_block (fs_log F) !! i = bl !! i /\ (i < length bl)%nat) ->
  (forall bs', cst (with_bufs F bs') (upd_block L start (foldl (head_put bl) (L start) l)) held P -> Q tt [] (with_bufs F bs')) ->
  fwp (for_list l (fun i => let! v := lh_block i in setb b (upd b_data (fun d => put32 d (4 + 4 * i) v)))) [] F Q.
Proof.
  induction l as [|i l IH]; intros F L Q Hc Hb Hl HQ.
  - apply fwp_ret. specialize (HQ (fs_bufs F)). rewrite with_bufs_id in HQ. apply HQ. eapply cst_ext; [|exact Hc]. intros c. unfold upd_block. simpl.
    by destruct (Z.eqb_spec c start) as [->|].
  - cbn [for_list]. destruct (Hl i ltac:(left)) as [Hi Hlt]. destruct (lookup_lt_is_Some_2 bl i Hlt) as [v Hv].
    apply fwp_bind, fwp_bind. eapply fwp_lh_block; [by rewrite Hi|].
    eapply fwp_put; [exact Hc|exact Hb|]. intros bs' Hc'. eapply IH; [exact Hc'|done|intros j Hj; apply Hl; by right|].
    intros bs'' Hc''. apply HQ. eapply cst_ext; [|exact Hc'']. intros c. rewrite upd_block_twice, upd_block_eq. simpl.
    unfold head_put at 3. by rewrite Hv.
Qed.
Lemma fwp_write_head bl start F L P (Q : unit -> list lockid -> fsys -> Prop) : cst F L [] P ->
  lg_dev (fs_log F) = dev -> lg_start (fs_log F) = start -> lg_n (fs_log F) = Z.of_nat (length bl) ->
  (forall i, (i < length bl)%nat -> lg_block (fs_log F) !! i = bl !! i) -> 0 <= start < 2 ^ 31 -> (length P < Z.to_nat NBUF)%nat ->
  (forall F', fs_log F' = fs_log F -> fs_disk F' = (start, head_bytes bl (L start)) :: fs_disk F ->
     cst F' (upd_block L start (head_bytes bl (L start))) [] P -> Q tt [] F') ->
  fwp write_head [] F Q.
Proof.
  intros Hc Hd Hs Hn Hbl Hr HP HQ. unfold write_head. apply fwp_bind, fwp_getl. rewrite Hd. apply fwp_bind, fwp_getl. rewrite Hs.
  apply fwp_bind, (fwp_bread E pid dev Hdev F L [] P); [done|apply not_elem_of_nil|right; simpl; lia|lia|]. intros b bs1 Hc1.
  apply fwp_bind, fwp_getl. change (lg_n (fs_log (with_bufs F bs1))) with (lg_n (fs_log F)). rewrite Hn, Nat2Z.id.
  apply fwp_bind. eapply fwp_put; [exact Hc1|left|]. intros bs2 Hc2.
  apply fwp_bind. eapply (fwp_head_loop bl b start); [exact Hc2|left| |].
  { intros i [_ Hi]%elem_of_seq. split; [by apply Hbl|done]. }
  intros bs3 Hc3. rewrite upd_block_eq in Hc3. fold (head_bytes bl (L start)) in Hc3.
  apply fwp_bind. eapply (fwp_bwrite E pid dev Hdev _ _ _ P b start); [exact Hc3|left|lia|]. cbv zeta.
  rewrite upd_block_eq. intros bs4 Hc4.
  eapply (fwp_brelse E pid dev Hdev _ _ [] P b start); [exact Hc4| |].
  { right. unfold with_bufs. ksimp. cbn [block]. by rewrite Z.eqb_refl, upd_block_eq. }
  intros bs5 Hc5. apply HQ; [done|done|]. eapply cst_ext; [|exact Hc5]. intros c. apply upd_block_twice.
Qed.

(** ** commit *)

(** Everything commit writes, oldest first. *)
Definition commit_writes (start : Z) (L : Z -> list Z) (bl : list Z) : list (Z * list Z) :=
  log_writes L (start + 1) bl ++
  (start, head_bytes bl (L start)) ::
  map (fun b => (b, L b)) bl ++
  [(start, head_bytes [] (head_bytes bl (L start)))].

(** A transaction that is ready for commit: its blocks are pinned, and the
    rest of the file system is on the disk. *)
Record ready (start : Z) (F : fsys) (L : Z -> list Z) (bl : list Z) : Prop := {
  r_cst : cst F L [] bl;
  r_dev : lg_dev (fs_log F) = dev;
  r_start : lg_start (fs_log F) = start;
  r_n : lg_n (fs_log F) = Z.of_nat (length bl);
  r_block i : (i < length bl)%nat -> lg_block (fs_log F) !! i = bl !! i;
  r_low : 0 <= start;
  r_high : start + Z.of_nat (length bl) < 2 ^ 31;
  r_out b : b ∈ bl -> outside start (length bl) b;
  r_nodup : NoDup bl;
  r_room : (length bl < Z.to_nat NBUF)%nat;
}.

Lemma apply_ws_upd L b d ws c : apply_ws L ((b, d) :: ws) c = apply_ws (upd_block L b d) ws c.
Proof. done. Qed.
Lemma logged_start L start bl : apply_ws L (log_writes L (start + 1) bl) start = L start.
Proof. apply apply_ws_ne. rewrite log_writes_fst. lia. Qed.
Lemma fwp_commit start F L bl (Q : unit -> list lockid -> fsys -> Prop) : ready start F L bl -> bl <> [] ->
  (forall F', fs_log F' = (fs_log F) <| lg_n := 0 |> -> fs_disk F' = rev (commit_writes start L bl) ++ fs_disk F ->
     cst F' (apply_ws L (commit_writes start L bl)) [] [] -> Q tt [] F') ->
  fwp commit [] F Q.
Proof.
  intros [Hc Hd Hs Hn Hbl Hlo Hhi Hout Hnd Hroom] Hne HQ. unfold commit. apply fwp_bind, fwp_getl. rewrite Hn.
  assert (0 < length bl)%nat by (destruct bl; [done|simpl; lia]). rewrite (proj2 (Z.ltb_lt 0 _)) by lia.
  apply fwp_bind. unfold write_log. apply fwp_bind, fwp_getl. rewrite Hn, Nat2Z.id.
  set (ws1 := log_writes L (start + 1) bl). set (L1 := apply_ws L ws1).
  eapply (fwp_write_log_loop start (length bl) (length bl) 0 bl F L bl); [done..| | |].
  { intros c Hb. split; [done|by apply Hout]. }
  { done. }
  rewrite Z.add_0_r. fold ws1 L1. intros F1 El1 Ed1 Hc1.
  apply fwp_bind. eapply (fwp_write_head bl start F1 L1 bl); rewrite ?El1; [done..|lia|done|].
  assert (HL1 : L1 start = L start) by apply logged_start. rewrite HL1. set (h1 := head_bytes bl (L start)).
  set (L2 := upd_block L1 start h1). intros F2 El2 Ed2 Hc2.
  assert (Hiw : install_writes L2 (start + 1) bl = map (fun b => (b, L b)) bl).
  { rewrite (install_writes_ext L2 L1); [apply install_logged|].
    - intros b Hb. destruct (Hout b Hb). lia.
    - intros p Hp. unfold L2, upd_block. by rewrite (proj2 (Z.eqb_neq p start)) by lia. }
  apply fwp_bind. unfold install_trans. apply fwp_bind, fwp_getl. rewrite El2, Hn, Nat2Z.id.
  eapply (fwp_install_loop false start (length bl) (length bl) 0 bl F2 L2); rewrite ?El2; [done..|by left|].
  rewrite Z.add_0_r, Hiw. set (ws3 := map _ bl). intros F3 El3 Ed3 Hc3.
  apply fwp_bind, fwp_setl.
  eapply (fwp_write_head [] start _ (apply_ws L2 ws3) []); ksimp; rewrite ?El3; [by apply cst_log|done..|simpl; lia|lia|simpl; lia|].
  assert (HL3 : apply_ws L2 ws3 start = h1).
  { rewrite apply_ws_ne; [apply upd_block_eq|]. unfold ws3. rewrite <- Hiw, install_writes_fst. intros Hin%Hout. red in Hin. lia. }
  rewrite HL3. intros F4 El4 Ed4 Hc4. apply HQ.
  - by rewrite El4.
  - rewrite Ed4, Ed3, Ed2, Ed1. unfold commit_writes. fold ws1 h1 ws3. rewrite !rev_app_distr. cbn [rev app].
    rewrite rev_app_distr. cbn [rev app]. by rewrite <- !app_assoc.
  - eapply cst_ext; [|exact Hc4]. intros c. unfold commit_writes. fold ws1 h1 ws3.
    rewrite apply_ws_app, apply_ws_upd, apply_ws_app, apply_ws_upd. done.
Qed.

(** ** Recovery *)

(** What recovery writes. *)
Definition recover_writes (start : Z) (d : list (Z * list Z)) : list (Z * list Z) :=
  let h := block d start in
  install_writes (block d) (start + 1) (head_blocks h) ++ [(start, head_bytes [] h)].

(** The logged block numbers are valid, and there are at most LOGSIZE. *)
Definition log_valid (start : Z) (d : list (Z * list Z)) : Prop :=
  let bl := head_blocks (block d start) in
  0 <= start /\ start + Z.of_nat (length bl) < 2 ^ 31 /\ (length bl <= Z.to_nat LOGSIZE)%nat /\
  forall b, b ∈ bl -> outside start (length bl) b.

Lemma fwp_set_lh_block i v h F (Q : unit -> list lockid -> fsys -> Prop) : (i < length (lg_block (fs_log F)))%nat ->
  Q tt h (F <| fs_log ::= upd lg_block (fun l => <[i := v]> l) |>) -> fwp (set_lh_block i v) h F Q.
Proof.
  intros Hi HQ. unfold set_lh_block. apply fwp_bind, fwp_getl. destruct (lookup_lt_is_Some_2 _ _ Hi) as [w Hw].
  apply fwp_bind. eapply fwp_deref; [exact Hw|]. by apply fwp_setl.
Qed.
(** Copying the block numbers [bl] into the log's header. *)
Lemma fwp_read_loop data k : forall i F L held P (Q : unit -> list lockid -> fsys -> Prop), cst F L held P ->
  (i + k <= length (lg_block (fs_log F)))%nat ->
  (forall F' l, fs_log F' = (fs_log F) <| lg_block := l |> -> length l = length (lg_block (fs_log F)) ->
     fs_disk F' = fs_disk F -> cst F' L held P ->
     (forall j, (j < i)%nat -> l !! j = lg_block (fs_log F) !! j) ->
     (forall j, (i <= j < i + k)%nat -> l !! j = Some (i32 (get32 data (4 + 4 * j)))) -> Q tt [] F') ->
  fwp (for_list (seq i k) (fun i => set_lh_block i (i32 (get32 data (4 + 4 * i))))) [] F Q.
Proof.
  induction k as [|k IH]; intros i F L held P Q Hc Hlen HQ.
  - apply fwp_ret. apply (HQ F (lg_block (fs_log F))); [|done..|lia]. by destruct (fs_log F).
  - cbn [seq for_list]. apply fwp_bind, fwp_set_lh_block; [lia|].
    eapply (IH (S i) _ L held P); [by apply cst_log|ksimp; rewrite length_insert; lia|].
    intros F' l El Hl Ed Hc' Hlt Hge. ksimp. rewrite length_insert in *. apply (HQ F' l); [done|done|done|done|..].
    + intros j Hj. rewrite Hlt by lia. rewrite list_lookup_insert_ne; [done|lia].
    + intros j Hj. destruct (decide (i = j)) as [<-|Hne]; [|apply Hge; lia].
      rewrite Hlt by lia. apply list_lookup_insert_eq. lia.
Qed.
Lemma head_blocks_lookup h i : (i < length (head_blocks h))%nat -> head_blocks h !! i = Some (i32 (get32 h (4 + 4 * i))).
Proof.
  unfold head_blocks. rewrite length_map, length_seq. intros Hi. rewrite list_lookup_fmap, lookup_seq_lt by done. done.
Qed.
Lemma fwp_read_head start F L (Q : unit -> list lockid -> fsys -> Prop) : cst F L [] [] ->
  lg_dev (fs_log F) = dev -> lg_start (fs_log F) = start -> 0 <= start < 2 ^ 31 ->
  (length (head_blocks (L start)) <= length (lg_block (fs_log F)))%nat ->
  (forall F' l, fs_log F' = (fs_log F) <| lg_n := i32 (get32 (L start) 0) |> <| lg_block := l |> -> fs_disk F' = fs_disk F ->
     (forall i, (i < length (head_blocks (L start)))%nat -> l !! i = head_blocks (L start) !! i) ->
     cst F' L [] [] -> Q tt [] F') ->
  fwp read_head [] F Q.
Proof.
  intros Hc Hd Hs Hr Hlen HQ. unfold read_head. apply fwp_bind, fwp_getl. rewrite Hd. apply fwp_bind, fwp_getl. rewrite Hs.
  apply fwp_bind, (fwp_bread E pid dev Hdev F L [] []); [done|apply not_elem_of_nil| |done|].
  { right. unfold NBUF, MAXOPBLOCKS. simpl. lia. }
  intros b bs1 Hc1. destruct (cst_get _ _ _ _ _ _ _ _ Hc1 ltac:(left)) as (x & Hx & _ & _ & Hdx & _).
  apply fwp_bind. eapply fwp_getb; [exact Hx|]. cbv zeta. rewrite Hdx. apply fwp_bind, fwp_setl.
  assert (En : length (head_blocks (L start)) = Z.to_nat (i32 (get32 (L start) 0))) by (unfold head_blocks; by rewrite length_map, length_seq).
  rewrite <- En. apply fwp_bind. eapply (fwp_read_loop (L start)); [apply cst_log, Hc1|ksimp; exact Hlen|].
  intros F2 l El Hl Ed Hc2 _ Hbl. eapply (fwp_brelse E pid dev Hdev _ _ [] [] b start); [exact Hc2| |].
  { right. rewrite Ed. apply (cst_clean F L [] []); [done|apply not_elem_of_nil..]. }
  intros bs3 Hc3. apply (HQ _ l); [exact El|exact Ed| |exact Hc3].
  intros i Hi. rewrite head_blocks_lookup by done. apply Hbl. lia.
Qed.
Lemma fwp_recover start F (Q : unit -> list lockid -> fsys -> Prop) : cst F (block (fs_disk F)) [] [] ->
  lg_dev (fs_log F) = dev -> lg_start (fs_log F) = start -> length (lg_block (fs_log F)) = Z.to_nat LOGSIZE ->
  log_valid start (fs_disk F) ->
  (forall F', fs_disk F' = rev (recover_writes start (fs_disk F)) ++ fs_disk F -> lg_n (fs_log F') = 0 ->
     cst F' (block (fs_disk F')) [] [] -> Q tt [] F') ->
  fwp recover_from_log [] F Q.
Proof.
  intros Hc Hd Hs Hlen (Hlo & Hhi & Hmax & Hout) HQ. set (L := block (fs_disk F)) in *. set (bl := head_blocks (L start)) in *.
  unfold recover_from_log. apply fwp_bind, (fwp_read_head start F L); [done..|lia|by rewrite Hlen|].
  intros F1 l El1 Ed1 Hl Hc1. apply fwp_bind. unfold install_trans. apply fwp_bind, fwp_getl. rewrite El1. ksimp.
  replace (Z.to_nat (i32 (get32 (L start) 0))) with (length bl) by (unfold bl, head_blocks; by rewrite length_map, length_seq).
  eapply (fwp_install_loop true start (length bl) (length bl) 0 bl F1 L); rewrite ?El1; [done..|by right|].
  rewrite Z.add_0_r. set (ws := install_writes L (start + 1) bl). intros F2 El2 Ed2 Hc2. apply fwp_bind, fwp_setl.
  eapply (fwp_write_head [] start _ (apply_ws L ws) []); ksimp; rewrite ?El2; [by apply cst_log|done..|simpl; lia|lia|unfold NBUF, MAXOPBLOCKS; simpl; lia|].
  assert (HL : apply_ws L ws start = L start).
  { apply apply_ws_ne. unfold ws. rewrite install_writes_fst. intros Hin%Hout. red in Hin. lia. }
  rewrite HL. intros F3 El3 Ed3 Hc3. assert (Ed : fs_disk F3 = rev (recover_writes start (fs_disk F)) ++ fs_disk F).
  { rewrite Ed3, Ed2, Ed1. unfold recover_writes. fold L bl ws. rewrite rev_app_distr. done. }
  apply HQ; [exact Ed|by rewrite El3|]. eapply cst_ext; [|exact Hc3]. intros c. rewrite Ed, block_app. unfold recover_writes.
  fold L bl ws. by rewrite apply_ws_app.
Qed.

(** ** Crashes *)

(** Blocks outside the log. *)
Definition user (start : Z) (n : nat) (b : Z) : Prop := b < start \/ start + Z.of_nat n < b.
(** What recovery makes of the history [d]. *)
Definition recovered (start : Z) (d : list (Z * list Z)) : Z -> list Z := block (rev (recover_writes start d) ++ d).

Lemma prefix_app_cases {A} (p l1 : list A) x l2 : p `prefix_of` l1 ++ x :: l2 ->
  p `prefix_of` l1 \/ exists q, p = l1 ++ x :: q /\ q `prefix_of` l2.
Proof.
  revert p. induction l1 as [|y l1 IH]; intros p Hp; (destruct p as [|z p]; [left; apply prefix_nil|]); cbn [app] in Hp;
    pose proof (prefix_cons_inv_1 _ _ _ _ Hp) as ->; apply prefix_cons_inv_2 in Hp.
  - right. by exists p.
  - destruct (IH p Hp) as [H|(q & -> & Hq)].
    + left. by apply prefix_cons.
    + right. by exists q.
Qed.
Lemma recovered_eq start d b : user start 0 b ->
  recovered start d b = apply_ws (block d) (install_writes (block d) (start + 1) (head_blocks (block d start))) b.
Proof.
  intros Hb. unfold recovered. rewrite block_app. unfold recover_writes. rewrite apply_ws_app. apply apply_ws_ne. simpl.
  unfold user in Hb. rewrite list_elem_of_singleton. lia.
Qed.
Lemma head_blocks_empty d : (4 <= length d)%nat -> head_blocks (head_bytes [] d) = [].
Proof. intros Hd. apply head_blocks_bytes; [simpl; lia|simpl; lia|]. intros b Hb. by apply elem_of_nil in Hb. Qed.

Section crash.
Context (start : Z) (d : list (Z * list Z)) (L : Z -> list Z) (bl : list Z).
#[local] Notation N := (length bl).
Hypothesis Hlow : 0 <= start.
Hypothesis Hhigh : start + Z.of_nat N < 2 ^ 31.
Hypothesis Hout : forall b, b ∈ bl -> outside start N b.
Hypothesis Hmax : (N <= Z.to_nat LOGSIZE)%nat.
Hypothesis Hold : forall b, b ∉ bl -> L b = block d b.
Hypothesis Hsize : length (block d start) = Z.to_nat BSIZE.
Hypothesis Hempty : head_blocks (block d start) = [].

#[local] Notation ws1 := (log_writes L (start + 1) bl).
#[local] Notation h1 := (head_bytes bl (L start)).

Lemma start_not_in : start ∉ bl.
Proof. intros Hin%Hout. red in Hin. lia. Qed.
Lemma head_room : (4 + 4 * N <= length (L start))%nat.
Proof. rewrite Hold by apply start_not_in. rewrite Hsize. unfold BSIZE, LOGSIZE, MAXOPBLOCKS in *. lia. Qed.
Lemma h1_blocks : head_blocks h1 = bl.
Proof. apply head_blocks_bytes; [apply head_room|done|]. intros b Hb. by destruct (Hout b Hb). Qed.
Lemma old_valid : log_valid start d.
Proof. unfold log_valid. rewrite Hempty. simpl. split_and!; [done|lia|lia|]. intros b Hb. by apply elem_of_nil in Hb. Qed.

(** Before the header is written the transaction has not happened. *)
Lemma crash_before p : p `prefix_of` ws1 -> log_valid start (rev p ++ d) /\
  forall b, user start N b -> recovered start (rev p ++ d) b = block d b.
Proof.
  intros [q Hq].
  assert (Hin : forall b, b ∈ p.*1 -> start + 1 <= b < start + 1 + Z.of_nat N).
  { intros b Hb. apply (log_writes_fst L). rewrite Hq, fmap_app. set_solver. }
  assert (Hb : forall b, b = start \/ user start N b -> block (rev p ++ d) b = block d b).
  { intros b Hb. rewrite block_app. apply apply_ws_ne. intros Hi%Hin. unfold user in Hb. lia. }
  split.
  - pose proof old_valid as Hv. unfold log_valid in *. by rewrite Hb by by left.
  - intros b Hu. rewrite recovered_eq by (unfold user in *; lia). rewrite (Hb start), Hempty by by left. by apply Hb; right.
Qed.
(** When all blocks are in their places the disk has the new content. *)
Lemma map_fst bl' : (map (fun b => (b, L b)) bl').*1 = bl'.
Proof. induction bl' as [|b l IH]; [done|]. cbn. by f_equal. Qed.
Lemma apply_ws_same bl' b : apply_ws L (map (fun b => (b, L b)) bl') b = L b.
Proof.
  revert b. induction bl' as [|c l IH] using rev_ind; intros b; [done|].
  rewrite map_app, apply_ws_app. cbn [map]. unfold apply_ws at 1. cbn [foldl fst snd]. unfold upd_block.
  destruct (Z.eqb_spec b c) as [->|]; [done|apply IH].
Qed.
Lemma installed b : user start N b ->
  apply_ws (upd_block (apply_ws (block d) ws1) start h1) (map (fun b => (b, L b)) bl) b = L b.
Proof.
  intros Hu. transitivity (apply_ws L (map (fun b => (b, L b)) bl) b); [|apply apply_ws_same]. apply apply_ws_in. rewrite map_fst.
  destruct (decide (b ∈ bl)) as [Hi|Hi]; [by left|right].
  unfold upd_block. rewrite (proj2 (Z.eqb_neq b start)) by (unfold user in Hu; lia).
  rewrite apply_ws_ne by (rewrite log_writes_fst; unfold user in Hu; lia). symmetry. by apply Hold.
Qed.
(** Once it is, it has. *)
Lemma crash_after q : q `prefix_of` map (fun b => (b, L b)) bl -> let d' := rev (ws1 ++ (start, h1) :: q) ++ d in
  log_valid start d' /\ forall b, user start N b -> recovered start d' b = L b.
Proof.
  intros [q' Hq] d'. set (ws3 := map (fun b => (b, L b)) bl) in *.
  assert (Hfst : ws3.*1 = bl) by apply map_fst.
  assert (Hqin : forall b, b ∈ q.*1 -> b ∈ bl) by (intros b Hb; rewrite <- Hfst, Hq, fmap_app; set_solver).
  set (L2 := upd_block (apply_ws (block d) ws1) start h1).
  assert (Hblock : forall b, block d' b = apply_ws L2 q b).
  { intros b. unfold d'. rewrite block_app, apply_ws_app, apply_ws_upd. done. }
  assert (Hstart : block d' start = h1).
  { rewrite Hblock, apply_ws_ne; [apply upd_block_eq|]. intros Hi%Hqin. by apply start_not_in. }
  assert (HL2 : forall b, start < b <= start + Z.of_nat N -> block d' b = apply_ws L ws1 b).
  { intros b Hb. rewrite Hblock, apply_ws_ne by (intros Hi%Hqin%Hout; red in Hi; lia). unfold L2, upd_block.
    rewrite (proj2 (Z.eqb_neq b start)) by lia. apply apply_ws_in. left. apply log_writes_fst. lia. }
  split.
  - unfold log_valid. rewrite Hstart, h1_blocks. done.
  - intros b Hu. rewrite recovered_eq by (unfold user in *; lia). rewrite Hstart, h1_blocks.
    rewrite (install_writes_ext _ (apply_ws L ws1)) by (intros p Hp; apply HL2; lia).
    rewrite install_logged by (intros c Hc; specialize (Hout c Hc); red in Hout; lia). fold ws3.
    rewrite (apply_ws_ext _ (apply_ws L2 q)) by apply Hblock. rewrite Hq, apply_ws_again, <- Hq.
    by apply installed.
Qed.
(** After the last write. *)
Lemma commit_done : let d' := rev (commit_writes start L bl) ++ d in
  (forall b, user start N b -> block d' b = L b) /\ head_blocks (block d' start) = [] /\
  length (block d' start) = Z.to_nat BSIZE.
Proof.
  set (h0 := head_bytes [] h1). set (d1 := rev (ws1 ++ (start, h1) :: map (fun b => (b, L b)) bl) ++ d).
  assert (Ed : rev (commit_writes start L bl) ++ d = (start, h0) :: d1).
  { unfold commit_writes, d1. fold h0. rewrite !rev_app_distr. cbn [rev]. rewrite rev_app_distr. cbn [rev app]. by rewrite <- !app_assoc. }
  rewrite Ed. cbv zeta. cbn [block]. rewrite Z.eqb_refl. pose proof head_room as Hroom. split_and!.
  - intros b Hu. rewrite (proj2 (Z.eqb_neq start b)) by (unfold user in Hu; lia).
    unfold d1. rewrite block_app, apply_ws_app, apply_ws_upd. by apply installed.
  - apply head_blocks_empty. rewrite head_bytes_length; lia.
  - unfold h0. rewrite !head_bytes_length by (rewrite ?head_bytes_length; simpl; lia).
    by rewrite Hold by apply start_not_in.
Qed.
(** A crash at any point of commit. *)
Lemma crash_anywhere p : p `prefix_of` commit_writes start L bl -> let d' := rev p ++ d in log_valid start d' /\
  ((forall b, user start N b -> recovered start d' b = block d b) \/ (forall b, user start N b -> recovered start d' b = L b)).
Proof.
  intros Hp d'. unfold commit_writes in Hp. apply prefix_app_cases in Hp as [Hp|(q & Ep & Hq)].
  { destruct (crash_before p Hp) as [Hv Hb]. split; [done|by left]. }
  apply prefix_app_cases in Hq as [Hq|(q' & -> & ->%prefix_nil_inv)].
  { destruct (crash_after q Hq) as [Hv Hb]. subst p. split; [done|by right]. }
  change (p = commit_writes start L bl) in Ep. destruct commit_done as (Hnew & Hnil & _). rewrite <- Ep in Hnew, Hnil. fold d' in Hnew, Hnil.
  split.
  - unfold log_valid. rewrite Hnil. simpl. split_and!; [done|lia|lia|]. intros b Hb. by apply elem_of_nil in Hb.
  - right. intros b Hu. rewrite recovered_eq by (unfold user in *; lia). rewrite Hnil. by apply Hnew.
Qed.
End crash.

(** A crash during recovery. *)
Lemma crash_recovering start d p : log_valid start d -> (4 <= length (block d start))%nat -> p `prefix_of` recover_writes start d ->
  let d' := rev p ++ d in log_valid start d' /\
  forall b, user start (length (head_blocks (block d start))) b -> recovered start d' b = recovered start d b.
Proof.
  intros Hv Hsize Hp d'. pose proof Hv as (Hlo & Hhi & Hmax & Hout). unfold recover_writes in Hp. set (h := block d start) in *.
  set (bl := head_blocks h) in *. set (ws := install_writes (block d) (start + 1) bl) in *.
  assert (Hws : forall b, b ∈ ws.*1 -> b ∈ bl) by (intros b; unfold ws; by rewrite install_writes_fst).
  apply prefix_app_cases in Hp as [[q Hq]|(q & Ep & Hq)].
  - assert (Hpin : forall b, b ∈ p.*1 -> b ∈ bl) by (intros b Hb; apply Hws; rewrite Hq, fmap_app; set_solver).
    assert (Hsame : forall b, start <= b <= start + Z.of_nat (length bl) -> block d' b = block d b).
    { intros b Hb. unfold d'. rewrite block_app. apply apply_ws_ne. intros Hi%Hpin%Hout. red in Hi. lia. }
    split; [unfold log_valid; rewrite Hsame by lia; done|].
    intros b Hu. rewrite !recovered_eq by (unfold user in *; lia). rewrite (Hsame start) by lia. fold h bl.
    rewrite (install_writes_ext (block d') (block d)) by (intros c Hc; apply Hsame; lia). fold ws.
    rewrite (apply_ws_ext _ (apply_ws (block d) p)) by (intros c; apply block_app). by rewrite Hq, apply_ws_again.
  - apply prefix_nil_inv in Hq as ->. set (h0 := head_bytes [] h) in *.
    assert (Ed : d' = (start, h0) :: rev ws ++ d) by (unfold d'; rewrite Ep, rev_app_distr; done).
    assert (Hstart : block d' start = h0) by (rewrite Ed; simpl; by rewrite Z.eqb_refl).
    assert (Hnil : head_blocks h0 = []) by by apply head_blocks_empty.
    split; [unfold log_valid; rewrite Hstart, Hnil; simpl; split_and!; [done|lia|lia|intros b Hb; by apply elem_of_nil in Hb]|].
    intros b Hu. rewrite !recovered_eq by (unfold user in *; lia). rewrite Hstart, Hnil. cbn [install_writes apply_ws foldl].
    rewrite Ed. cbn [block]. rewrite (proj2 (Z.eqb_neq start b)) by (unfold user in Hu; lia). by rewrite block_app.
Qed.

(** ** Transactions *)

(** A transaction is open: begin_op has been called, [bl] are the blocks
    written so far. *)
Record txn (start size : Z) (F : fsys) (L : Z -> list Z) (held : list (nat * Z)) (bl : list Z) : Prop := {
  t_cst : cst F L held bl;
  t_dev : lg_dev (fs_log F) = dev;
  t_start : lg_start (fs_log F) = start;
  t_size : lg_size (fs_log F) = size;
  t_out : lg_outstanding (fs_log F) = 1;
  t_committing : lg_committing (fs_log F) = 0;
  t_n : lg_n (fs_log F) = Z.of_nat (length bl);
  t_block i : (i < length bl)%nat -> lg_block (fs_log F) !! i = bl !! i;
  t_length : length (lg_block (fs_log F)) = Z.to_nat LOGSIZE;
  t_low : 0 <= start;
  t_high : start + size < 2 ^ 31;
  t_max : 1 <= size <= LOGSIZE;
  t_in b : b ∈ bl -> outside start (Z.to_nat (size - 1)) b;
  t_nodup : NoDup bl;
  t_room : Z.of_nat (length bl) <= size - 1;
}.
Lemma txn_bufs start size F L held bl L' held' bs' : txn start size F L held bl -> cst (with_bufs F bs') L' held' bl ->
  txn start size (with_bufs F bs') L' held' bl.
Proof. intros [] Hc. by split. Qed.

Lemma absorb_find blockno k i l : (exists j, (i <= j < i + k)%nat /\ l !! j = Some blockno) ->
  (i <= absorb blockno k i l < i + k)%nat /\ l !! absorb blockno k i l = Some blockno.
Proof.
  revert i. induction k as [|k IH]; intros i (j & Hj & El); [lia|]. cbn [absorb]. case_bool_decide as Hd; [split; [lia|done]|].
  destruct (IH (S i)) as [H1 H2]; [|split; [lia|done]]. exists j. split; [|done]. destruct (decide (i = j)) as [->|]; [done|lia].
Qed.
Lemma absorb_none blockno k i l : (forall j, (i <= j < i + k)%nat -> l !! j <> Some blockno) -> absorb blockno k i l = (i + k)%nat.
Proof.
  revert i. induction k as [|k IH]; intros i Hno; [cbn; lia|]. cbn [absorb]. rewrite bool_decide_false by (apply Hno; lia).
  rewrite IH; [lia|]. intros j Hj. apply Hno. lia.
Qed.
(** log_write puts the block on the list unless it is there already. *)
Definition logged (bl : list Z) (bno : Z) : list Z := if decide (bno ∈ bl) then bl else bl ++ [bno].

(** What the log and the cache leave alone. *)
Definition outer (F : fsys) : list inode * superblock * list (Z * list Z) := (fs_itable F, fs_sb F, fs_disk F).
Lemma fwp_log_write start size F L held bl b bno (Q : unit -> list lockid -> fsys -> Prop) :
  txn start size F L held bl -> (b, bno) ∈ held -> outside start (Z.to_nat (size - 1)) bno -> Z.of_nat (length bl) < size - 1 ->
  (forall F', outer F' = outer F -> txn start size F' L held (logged bl bno) -> Q tt [] F') ->
  fwp (log_write b) [] F Q.
Proof.
  intros Ht Hin Hbo Hroom HQ. pose proof Ht as [Hc Hd Hs Hsz Ho Hcm Hn Hbl Hlen Hlo Hhi Hmax Hio Hnd _].
  destruct (cst_get _ _ _ _ _ _ _ _ Hc Hin) as (x & Hx & _ & Hxb & _).
  unfold log_write. apply fwp_bind, fwp_acquire; [apply not_elem_of_nil|]. apply fwp_bind, fwp_getl. unfold id. rewrite Hn, Hsz, Ho.
  rewrite (proj2 (Z.leb_gt LOGSIZE _)), (proj2 (Z.leb_gt (size - 1) _)) by lia. cbn [orb Z.ltb Z.compare].
  apply fwp_bind. eapply fwp_getb; [exact Hx|]. cbv zeta. rewrite Hxb, Nat2Z.id. unfold logged in HQ.
  apply fwp_bind. destruct (decide (bno ∈ bl)) as [Hi|Hi].
  - destruct (absorb_find bno (length bl) 0 (lg_block (fs_log F))) as [Ha1 Ha2].
    { apply list_elem_of_lookup in Hi as [j Hj]. exists j. pose proof (lookup_lt_Some _ _ _ Hj). split; [lia|]. by rewrite Hbl. }
    set (i := absorb _ _ _ _) in *. apply fwp_set_lh_block; [by eapply lookup_lt_Some|].
    apply fwp_bind. rewrite (proj2 (Z.eqb_neq _ _)) by lia. apply fwp_ret. apply fwp_release; [apply not_elem_of_nil|].
    apply HQ; [done|]. split; ksimp; try done; try by apply cst_log.
    + intros j Hj. rewrite list_insert_id by done. by apply Hbl.
    + by rewrite length_insert.
    + lia.
  - assert (length bl < Z.to_nat LOGSIZE)%nat by lia.
    rewrite absorb_none; [|intros j Hj; rewrite Hbl by lia; intros Hj'; by apply Hi, (list_elem_of_lookup_2 _ j)].
    cbn [Nat.add]. apply fwp_set_lh_block; [by rewrite Hlen|]. apply fwp_bind. rewrite Z.eqb_refl. cbn [when].
    apply fwp_bind. eapply (fwp_bpin E pid dev Hdev _ L held bl b bno); [by apply cst_log|done|by rewrite list_elem_of_singleton|done|].
    intros bs' Hc'. apply fwp_setl. apply fwp_release; [apply not_elem_of_nil|]. apply HQ; [done|].
    split; unfold with_bufs; ksimp; try done.
    + eapply (cst_pins _ _ _ _ _ (bno :: bl)); [set_solver|]. by apply (cst_log (with_bufs _ bs')).
    + rewrite Hn, length_app. simpl. lia.
    + intros i. rewrite length_app. simpl. intros Hil. destruct (decide (length bl = i)) as [<-|Hne].
      * rewrite list_lookup_insert_eq by lia. by rewrite lookup_app_r, Nat.sub_diag by lia.
      * rewrite list_lookup_insert_ne by done. rewrite lookup_app_l by lia. apply Hbl. lia.
    + by rewrite length_insert.
    + intros c [Hc2|Hc2]%elem_of_app; [by apply Hio|]. apply list_elem_of_singleton in Hc2 as ->. done.
    + apply NoDup_app. split_and!; [done|set_solver|apply NoDup_singleton].
    + rewrite length_app. simpl. lia.
Qed.

(** The way the file system changes a block inside a transaction: bread, a
    change to the data, log_write, brelse. *)
Definition update (u : Z * (list Z -> list Z)) : K unit :=
  let! b := bread dev u.1 in
  setb b (upd b_data u.2) ;!
  log_write b ;!
  brelse b.
Definition transaction (us : list (Z * (list Z -> list Z))) : K unit :=
  begin_op ;!
  for_list us update ;!
  end_op.
(** What the updates make of the blocks. *)
Definition updated (us : list (Z * (list Z -> list Z))) (L : Z -> list Z) : Z -> list Z :=
  foldl (fun L u => upd_block L u.1 (u.2 (L u.1))) L us.

Lemma logged_length bl bno : (length (logged bl bno) <= S (length bl))%nat.
Proof. unfold logged. case_decide; [lia|]. rewrite length_app. simpl. lia. Qed.
Lemma fwp_update start size F L bl u (Q : unit -> list lockid -> fsys -> Prop) : txn start size F L [] bl ->
  outside start (Z.to_nat (size - 1)) u.1 -> Z.of_nat (length bl) < size - 1 ->
  (forall F', fs_disk F' = fs_disk F -> txn start size F' (upd_block L u.1 (u.2 (L u.1))) [] (logged bl u.1) -> Q tt [] F') ->
  fwp (update u) [] F Q.
Proof.
  intros Ht Hu Hroom HQ. destruct u as [bno f]. simpl in *. pose proof Ht as [Hc]. unfold update. simpl.
  assert (Hmax : 1 <= size <= LOGSIZE) by apply Ht. unfold LOGSIZE in Hmax.
  apply fwp_bind, (fwp_bread E pid dev Hdev F L [] bl); [done|apply not_elem_of_nil| |apply Hu|].
  { right. simpl. unfold NBUF. lia. }
  intros b bs1 Hc1. apply fwp_bind. eapply fwp_put; [exact Hc1|left|]. intros bs2 Hc2.
  apply fwp_bind. eapply (fwp_log_write start size _ _ [(b, bno)] bl); [|left|exact Hu|exact Hroom|].
  { eapply (txn_bufs _ _ _ L); [by eapply (txn_bufs _ _ _ L)|exact Hc2]. }
  intros F' Eo Ht'. assert (Ed : fs_disk F' = fs_disk F) by (by injection Eo). eapply (fwp_brelse E pid dev Hdev _ _ [] _ b bno); [apply Ht'| |].
  { left. unfold logged. case_decide; [done|set_solver]. }
  intros bs3 Hc3. apply HQ; [exact Ed|]. by eapply txn_bufs.
Qed.
Lemma fwp_updates start size us : forall F L bl (Q : unit -> list lockid -> fsys -> Prop), txn start size F L [] bl ->
  (forall u, u ∈ us -> outside start (Z.to_nat (size - 1)) u.1) -> Z.of_nat (length bl + length us) <= size - 1 ->
  (forall F' bl', fs_disk F' = fs_disk F -> (bl' = [] -> bl = [] /\ us = []) -> txn start size F' (updated us L) [] bl' -> Q tt [] F') ->
  fwp (for_list us update) [] F Q.
Proof.
  induction us as [|u us IH]; intros F L bl Q Ht Hu Hroom HQ.
  - apply fwp_ret. by apply (HQ F bl).
  - cbn [for_list length] in *. apply fwp_bind. eapply fwp_update; [exact Ht|apply Hu; left|lia|]. intros F' Ed Ht'.
    pose proof (logged_length bl u.1). eapply IH; [exact Ht'|intros v Hv; apply Hu; by right|lia|].
    intros F'' bl' Ed' Hne Ht''. apply (HQ F'' bl'); [congruence| |exact Ht''].
    intros ->. destruct (Hne eq_refl) as [Hl _]. unfold logged in Hl. case_decide as Hi; [|by destruct bl].
    subst bl. by apply elem_of_nil in Hi.
Qed.

(** No transaction is open, and everything is on the disk. *)
Record quiet (start size : Z) (F : fsys) : Prop := {
  q_cst : cst F (block (fs_disk F)) [] [];
  q_dev : lg_dev (fs_log F) = dev;
  q_start : lg_start (fs_log F) = start;
  q_size : lg_size (fs_log F) = size;
  q_out : lg_outstanding (fs_log F) = 0;
  q_committing : lg_committing (fs_log F) = 0;
  q_n : lg_n (fs_log F) = 0;
  q_length : length (lg_block (fs_log F)) = Z.to_nat LOGSIZE;
  q_low : 0 <= start;
  q_high : start + size < 2 ^ 31;
  q_max : 1 <= size <= LOGSIZE;
  q_head : length (block (fs_disk F) start) = Z.to_nat BSIZE;
  q_empty : head_blocks (block (fs_disk F) start) = [];
}.
Lemma fwp_begin_op start size F (Q : unit -> list lockid -> fsys -> Prop) : quiet start size F ->
  (forall F', outer F' = outer F -> txn start size F' (block (fs_disk F)) [] [] -> Q tt [] F') -> fwp begin_op [] F Q.
Proof.
  intros [Hc Hd Hs Hsz Ho Hcm Hn Hlen Hlo Hhi Hmax _ _] HQ. unfold begin_op. apply fwp_bind, fwp_acquire; [apply not_elem_of_nil|].
  assert (Hgo : fwp (setl (upd lg_outstanding (fun n => n + 1)) ;! release Llog) [Llog] F Q).
  { apply fwp_bind, fwp_setl. apply fwp_release; [apply not_elem_of_nil|]. apply HQ; [done|].
    split; ksimp; try done; [by apply cst_log|by rewrite Ho|intros i Hi; simpl in Hi; lia|
      intros b Hb; by apply elem_of_nil in Hb|apply NoDup_nil_2|simpl; lia]. }
  destruct sleep_fuel; cbn [begin_op_loop]; apply fwp_bind, fwp_getl; unfold id; rewrite Hcm, Hn, Ho; exact Hgo.
Qed.
(** The final end_op commits. *)
Lemma fwp_end_op start size F L bl (Q : unit -> list lockid -> fsys -> Prop) : txn start size F L [] bl ->
  (forall F', fs_disk F' = rev (if decide (bl = []) then [] else commit_writes start L bl) ++ fs_disk F ->
     fs_log F' = (fs_log F) <| lg_outstanding := 0 |> <| lg_n := 0 |> <| lg_committing := 0 |> ->
     cst F' (block (fs_disk F')) [] [] -> Q tt [] F') ->
  fwp end_op [] F Q.
Proof.
  intros [Hc Hd Hs Hsz Ho Hcm Hn Hbl Hlen Hlo Hhi Hmax Hio Hnd Hroom] HQ. unfold LOGSIZE in Hmax.
  unfold end_op. apply fwp_bind, fwp_acquire; [apply not_elem_of_nil|]. apply fwp_bind, fwp_setl. apply fwp_bind, fwp_getl.
  unfold id. ksimp. rewrite Hcm, Ho. cbn [negb Z.eqb]. apply fwp_bind, fwp_setl.
  apply fwp_bind, fwp_release; [apply not_elem_of_nil|]. cbn [when Z.sub Z.add Z.opp Z.pos_sub].
  set (F1 := _ <| fs_log ::= upd lg_committing _ |>).
  assert (Hc1 : cst F1 L [] bl) by (unfold F1; by apply cst_log, cst_log).
  assert (Hend : forall F2, fs_log F2 = (fs_log F1) <| lg_n := 0 |> ->
    fs_disk F2 = rev (if decide (bl = []) then [] else commit_writes start L bl) ++ fs_disk F ->
    cst F2 (apply_ws L (if decide (bl = []) then [] else commit_writes start L bl)) [] [] ->
    fwp (acquire Llog ;! setl (upd lg_committing (fun _ => 0)) ;! wakeup (Some Clog) ;! release Llog) [] F2 Q).
  { intros F2 El2 Ed2 Hc2. apply fwp_bind, fwp_acquire; [apply not_elem_of_nil|]. apply fwp_bind, fwp_setl.
    apply fwp_bind, fwp_wakeup; [intros j; by rewrite list_elem_of_singleton|by rewrite list_elem_of_singleton|].
    apply fwp_release; [apply not_elem_of_nil|]. apply HQ; [exact Ed2|ksimp; rewrite El2; unfold F1; ksimp; clear -Ho; destruct (fs_log F); cbn in Ho |- *; by subst|].
    apply (cst_log F2). eapply cst_ext; [|exact Hc2]. intros b. ksimp. rewrite Ed2, block_app.
    destruct (decide (bl = [])) as [->|Hne].
    - cbn. apply (cst_clean F L [] [] b Hc); apply not_elem_of_nil.
    - apply apply_ws_in. destruct (decide (b ∈ bl)) as [Hb|Hb].
      + left. unfold commit_writes. rewrite fmap_app. cbn [fmap list_fmap fst]. rewrite fmap_app, map_fst. set_solver.
      + right. apply (cst_clean F L [] bl b Hc); [apply not_elem_of_nil|done]. }
  apply fwp_bind. destruct (decide (bl = [])) as [->|Hne].
  - unfold commit. apply fwp_bind, fwp_getl. unfold F1. ksimp. rewrite Hn. simpl. apply fwp_ret. apply Hend; try done.
    unfold F1. ksimp. clear -Hn. destruct (fs_log F). cbn in Hn |- *. by subst.
  - apply (fwp_commit start F1 L bl); [|done|].
    + split; unfold F1; ksimp; try done; [lia| |unfold NBUF; lia].
      intros b Hb. destruct (Hio b Hb). split; [done|lia].
    + intros F2 El2 Ed2 Hc2. by apply Hend.
Qed.

(** The state after a reboot: whatever the kernel had in memory is gone, the
    cache is cold. *)
Definition rebooted (d : list (Z * list Z)) (G : fsys) : Prop :=
  cst G (block (fs_disk G)) [] [] /\ fs_disk G = d /\ length (lg_block (fs_log G)) = Z.to_nat LOGSIZE.
Lemma fwp_initlog sb G d (Q : unit -> list lockid -> fsys -> Prop) : rebooted d G -> log_valid (sb_logstart sb) d ->
  (forall G', fs_disk G' = rev (recover_writes (sb_logstart sb) d) ++ d -> Q tt [] G') -> fwp (initlog dev sb) [] G Q.
Proof.
  intros (Hc & <- & Hlen) Hv HQ. unfold initlog. apply fwp_bind, fwp_setl.
  apply (fwp_recover (sb_logstart sb)); [by apply cst_log|done|done|done|done|]. intros F' Ed _ _. by apply HQ.
Qed.

(** What a crash leaves of a run that took the history from [d0] to [d1]. *)
Definition crash (d0 d1 d : list (Z * list Z)) : Prop := d0 `suffix_of` d /\ d `suffix_of` d1.
Lemma crash_prefix ws d0 d : crash d0 (rev ws ++ d0) d -> exists p, p `prefix_of` ws /\ d = rev p ++ d0.
Proof.
  intros [[k ->] [k' Ek]]. rewrite app_assoc in Ek. apply app_inv_tail in Ek. exists (rev k). split; [|by rewrite rev_involutive].
  exists (rev k'). by rewrite <- rev_app_distr, <- Ek, rev_involutive.
Qed.

(** The facts above for an open transaction that end_op commits. *)
Lemma txn_commit start size F L bl : txn start size F L [] bl -> length (block (fs_disk F) start) = Z.to_nat BSIZE ->
  head_blocks (block (fs_disk F) start) = [] ->
  let ws := if decide (bl = []) then [] else commit_writes start L bl in
  let log_end := Z.to_nat (size - 1) in let d := fs_disk F in
  (forall p, p `prefix_of` ws -> log_valid start (rev p ++ d) /\
     ((forall b, user start log_end b -> recovered start (rev p ++ d) b = block d b) \/
      (forall b, user start log_end b -> recovered start (rev p ++ d) b = L b))) /\
  (forall b, user start log_end b -> block (rev ws ++ d) b = L b) /\
  head_blocks (block (rev ws ++ d) start) = [] /\ length (block (rev ws ++ d) start) = Z.to_nat BSIZE.
Proof.
  intros [Hc Hd Hs Hsz Ho Hcm Hn Hbl Hlen Hlo Hhi Hmax Hio Hnd Hroom] Hsize Hempty ws log_end d.
  assert (Hold : forall b, b ∉ bl -> L b = block d b) by (intros b Hb; apply (cst_clean F L [] bl b Hc); [apply not_elem_of_nil|done]).
  assert (Hmono : forall b, user start log_end b -> user start (length bl) b) by (unfold user, log_end; intros; lia).
  assert (Hout : forall b, b ∈ bl -> outside start (length bl) b) by (intros b Hb; destruct (Hio b Hb); split; [done|lia]).
  assert (Hhigh : start + Z.of_nat (length bl) < 2 ^ 31) by lia.
  assert (HN : (length bl <= Z.to_nat LOGSIZE)%nat) by lia.
  pose proof (crash_anywhere start d L bl Hlo Hhigh Hout HN Hold Hsize Hempty) as Hany.
  unfold ws. destruct (decide (bl = [])) as [->|Hne].
  - split_and!; [|intros b _; symmetry; apply Hold, not_elem_of_nil|done|done].
    intros p ->%prefix_nil_inv. destruct (Hany []) as [Hv Hb]; [apply prefix_nil|]. split; [done|].
    destruct Hb as [Hb|Hb]; [left|right]; auto.
  - destruct (commit_done start d L bl) as (H1 & H2 & H3); [done..|]. split_and!; [|auto|done|done].
    intros p Hp. destruct (Hany p Hp) as [Hv Hb]. split; [done|]. destruct Hb as [Hb|Hb]; [left|right]; auto.
Qed.

(** What end_op does to the disk [d] of an open transaction with the logical
    content [L], and what a crash in it leaves. *)
Definition commits (start : Z) (log_end : nat) (d : list (Z * list Z)) (L : Z -> list Z) (F' : fsys) : Prop :=
  (forall b, user start log_end b -> block (fs_disk F') b = L b) /\
  (forall d', crash d (fs_disk F') d' -> forall sb G, sb_logstart sb = start -> rebooted d' G ->
     fwp (initlog dev sb) [] G (fun _ _ G' =>
       (forall b, user start log_end b -> block (fs_disk G') b = block d b) \/
       (forall b, user start log_end b -> block (fs_disk G') b = L b))).
Lemma fwp_last_end_op start size F F2 L bl (Q : unit -> list lockid -> fsys -> Prop) : quiet start size F -> txn start size F2 L [] bl -> fs_disk F2 = fs_disk F ->
  (forall F3, quiet start size F3 -> commits start (Z.to_nat (size - 1)) (fs_disk F) L F3 -> Q tt [] F3) -> fwp end_op [] F2 Q.
Proof.
  intros Hq Ht2 Ed HQ. eapply fwp_end_op; [exact Ht2|]. intros F3 Ed3 El3 Hc3.
  destruct (txn_commit start size F2 L bl Ht2) as (Hcrash & Hnew & Hnil & Hsize); rewrite ?Ed; [apply Hq..|].
  rewrite Ed in *. set (ws := if decide _ then _ else _) in *. rewrite <- Ed3 in Hnew, Hnil, Hsize. apply HQ; [|split; [done|]].
  - pose proof Ht2 as []. split; rewrite ?El3; try done; apply Hq.
  - rewrite Ed3. intros d' (p & Hp & ->)%crash_prefix sb G <- HG. destruct (Hcrash p Hp) as [Hv Hor].
    apply (fwp_initlog sb G _ _ HG Hv). intros G' EG. rewrite EG. exact Hor.
Qed.
(** A transaction with any disk that keeps the law. *)
Lemma txn_atomic start size F us : quiet start size F ->
  (forall u, u ∈ us -> outside start (Z.to_nat (size - 1)) u.1) -> Z.of_nat (length us) <= size - 1 ->
  fwp (transaction us) [] F (fun _ h F' => h = [] /\ quiet start size F' /\
    commits start (Z.to_nat (size - 1)) (fs_disk F) (updated us (block (fs_disk F))) F').
Proof.
  intros Hq Hus Hlen. unfold transaction. apply fwp_bind. eapply fwp_begin_op; [exact Hq|]. intros F1 [= _ _ Ed1] Ht1.
  apply fwp_bind. eapply (fwp_updates start size us); [exact Ht1|exact Hus|simpl; lia|]. intros F2 bl Ed2 Hne Ht2.
  eapply fwp_last_end_op; [exact Hq|exact Ht2|congruence|]. done.
Qed.
(** A crash while initlog recovers. *)
Lemma recover_again sb G d : rebooted d G -> log_valid (sb_logstart sb) d -> (4 <= length (block d (sb_logstart sb)))%nat ->
  let start := sb_logstart sb in let n := length (head_blocks (block d start)) in
  fwp (initlog dev sb) [] G (fun _ h G1 => h = [] /\
    forall d', crash d (fs_disk G1) d' -> forall G2, rebooted d' G2 ->
      fwp (initlog dev sb) [] G2 (fun _ _ G3 => forall b, user start n b -> block (fs_disk G3) b = block (fs_disk G1) b)).
Proof.
  intros HG Hv Hsize start n. eapply fwp_initlog; [exact HG|exact Hv|]. intros G1 E1. split; [done|].
  rewrite E1. intros d' (p & Hp & ->)%crash_prefix G2 HG2.
  destruct (crash_recovering _ _ _ Hv Hsize Hp) as [Hv' Hb].
  eapply fwp_initlog; [exact HG2|exact Hv'|]. intros G3 E3 b Hu. rewrite E3. exact (Hb b Hu).
Qed.
End log.
End LogSpec.
