(* ===== verification/VirtioSpec.v ===== *)
(** * The disk driver keeps its promise

    virtio_disk_rw puts a request into the ring and sleeps; the device serves
    the request; its interrupt runs virtio_disk_intr, which wakes the process.
    The three together are a read or a write of one block, which is what
    bio.c relies on.  [served] is what the virtio block device is documented
    to do with the next request in the ring. *)

From S2P Require Import Prelude State Spinlock CString Mem Kalloc Sched FileLayer Proc PsList Console Bio BufCache Virtio Log FsLogic BufSpec.

Module VirtioSpec.
Import BufCache FsLogic BufSpec Virtio.

(** The device takes the request whose turn it is: a chain of three
    descriptors for the operation, the data and the status. *)
Definition served (v : vdisk) (F : fsys) : option (vdisk * fsys) :=
  if v_avail_idx v =? v_used_next v then None else
  let slot := Z.to_nat (v_used_next v mod NUM) in
  id ← v_avail_ring v !! slot;
  d0 ← v_desc v !! Z.to_nat id;
  d1 ← v_desc v !! Z.to_nat (vd_next d0);
  d2 ← v_desc v !! Z.to_nat (vd_next d1);
  match vd_addr d0, vd_addr d1, vd_addr d2 with
  | Dop i, Ddata b, Dstatus j =>
      op ← v_ops v !! i;
      x ← fs_bufs F !! b;
      let bno := op.2 / (BSIZE / 512) in
      let v' := v <| v_info_status ::= <[j := 0]> |> <| v_used_ring ::= <[slot := id]> |>
                  <| v_used_next := (v_used_next v + 1) mod 2 ^ 16 |> in
      if op.1 =? VIRTIO_BLK_T_IN
      then Some (v', with_bufs F (<[b := x <| b_data := block (fs_disk F) bno |>]> (fs_bufs F)))
      else Some (v', F <| fs_disk ::= cons (bno, b_data x) |>)
  | _, _, _ => None
  end.

(** The driver between two calls: all descriptors are free and nothing is
    under way. *)
Record disk_idle (v : vdisk) : Prop := {
  di_free : v_free v = replicate 8 1;
  di_desc : length (v_desc v) = 8%nat;
  di_avail : length (v_avail_ring v) = 8%nat;
  di_used : length (v_used_ring v) = 8%nat;
  di_b : length (v_info_b v) = 8%nat;
  di_status : length (v_info_status v) = 8%nat;
  di_ops : length (v_ops v) = 8%nat;
  di_next : v_avail_idx v = v_used_next v;
  di_idx : v_used_idx v = v_used_next v;
  di_range : 0 <= v_used_next v < 2 ^ 16;
}.

Section driver.
Context (mmio : vdisk -> Z -> Z) (pid : Z).

(** A process that gave up the CPU in [s] has it back in [s']: meanwhile the
    device served its request, and some hart ([t] to [t']) took the device's
    interrupt. *)
Record resumed (s s' : kstate) : Prop := {
  re_intr : exists t t', served (k_vdisk s) (k_fs s) = Some (k_vdisk t, k_fs t) /\ hart_wf t /\ k_held t = [] /\
    length (k_procs t) = Z.to_nat NPROC /\ virtio_disk_intr mmio t = Done tt t' /\
    k_vdisk s' = k_vdisk t' /\ k_fs s' = k_fs t';
  re_held : k_held s' = k_held s;
  re_noff : c_noff (k_cpu s') = c_noff (k_cpu s);
  re_sie : c_sie (k_cpu s') = c_sie (k_cpu s);
  re_proc : c_proc (k_cpu s') = c_proc (k_cpu s);
  re_len : length (k_procs s') = length (k_procs s);
  re_pid i p : k_procs s !! i = Some p -> exists p', k_procs s' !! i = Some p' /\ p_pid p' = p_pid p;
}.
Definition device : env := mkEnv resumed disk_idle.

(** [dwp]: as [fwp], with the driver's state in sight. *)
Definition bare : env := mkEnv resumed (fun _ => True).
Definition dwp {A} (m : K A) (h : list lockid) (v : vdisk) (F : fsys) (Q : A -> list lockid -> vdisk -> fsys -> Prop) : Prop :=
  forall s, calm bare pid h s -> k_vdisk s = v -> k_fs s = F ->
    rwp resumed m s (fun a s' => exists h', calm bare pid h' s' /\ Q a h' (k_vdisk s') (k_fs s')).
Lemma dwp_fwp {A} (m : K A) h v F Q : fwp (mkEnv resumed (eq v)) pid m h F (fun a h F => Q a h v F) -> dwp m h v F Q.
Proof.
  intros H s [] <- HF. eapply rwp_mono; [apply (H s); [by split|done]|]. intros a s' (h' & [] & HQ). exists h'.
  split; [by split|]. simpl in *. congruence.
Qed.
Lemma fwp_dwp {A} (m : K A) h F Q :
  (forall v, disk_idle v -> dwp m h v F (fun a h' v' F' => disk_idle v' /\ Q a h' F')) -> fwp device pid m h F Q.
Proof.
  intros H s [] HF. eapply rwp_mono; [eapply (H (k_vdisk s)); [done|by split|done|done]|].
  intros a s' (h' & [] & Hi & HQ). exists h'. split; [by split|done].
Qed.
Lemma dwp_bind {A B} (m : K A) (f : A -> K B) h v F Q :
  dwp m h v F (fun a h' v' F' => dwp (f a) h' v' F' Q) -> dwp (bind m f) h v F Q.
Proof.
  intros H s Hc Hv HF. apply rwp_bind. eapply rwp_mono; [by apply H|]. intros a s' (h' & Hc' & Hf). by apply Hf.
Qed.
Lemma dwp_ret {A} (a : A) h v F (Q : A -> list lockid -> vdisk -> fsys -> Prop) : Q a h v F -> dwp (ret a) h v F Q.
Proof. intros H. by apply dwp_fwp, fwp_ret. Qed.
Lemma dwp_getv {A} (f : vdisk -> A) h v F (Q : A -> list lockid -> vdisk -> fsys -> Prop) : Q (f v) h v F -> dwp (getv f) h v F Q.
Proof. intros H s Hc <- <-. exists h. split; [done|exact H]. Qed.
Lemma dwp_setv f h v F (Q : unit -> list lockid -> vdisk -> fsys -> Prop) : Q tt h (f v) F -> dwp (setv f) h v F Q.
Proof. intros H s [] <- <-. exists h. split; [by split|exact H]. Qed.

(** The interrupt handler marks the one buffer done that the device has. *)
Lemma wp_getv {A} (f : vdisk -> A) s (Q : A -> kstate -> Prop) : Q (f (k_vdisk s)) s -> wp (getv f) s Q.
Proof. intros H. by eapply wp_eq. Qed.
Lemma wp_setv f s (Q : unit -> kstate -> Prop) : Q tt (s <| k_vdisk ::= f |>) -> wp (setv f) s Q.
Proof. intros H. by eapply wp_eq. Qed.
Lemma wp_deref {A} w (o : option A) a s (Q : A -> kstate -> Prop) : o = Some a -> Q a s -> wp (deref w o) s Q.
Proof. intros -> H. by apply wp_ret. Qed.
Lemma wp_intr_loop t u id b x (Q : unit -> kstate -> Prop) : hart_wf t -> k_held t = [Lvdisk] -> length (k_procs t) = Z.to_nat NPROC ->
  0 <= u < 2 ^ 16 -> v_used_idx (k_vdisk t) = u -> v_used_next (k_vdisk t) = (u + 1) mod 2 ^ 16 ->
  v_used_ring (k_vdisk t) !! Z.to_nat (u mod NUM) = Some id -> v_info_status (k_vdisk t) !! Z.to_nat id = Some 0 ->
  v_info_b (k_vdisk t) !! Z.to_nat id = Some (Some b) -> fs_bufs (k_fs t) !! b = Some x ->
  (forall t', hart_same t t' -> k_fs t' = with_bufs (k_fs t) (<[b := x <| b_disk := 0 |>]> (fs_bufs (k_fs t))) ->
     k_vdisk t' = (k_vdisk t) <| v_used_idx := (u + 1) mod 2 ^ 16 |> -> Q tt t') ->
  wp (intr_loop (Z.to_nat NUM)) t Q.
Proof.
  intros Hw Hh Hlen Hu Hi Hn Hring Hst Hb Hx HQ. change (Z.to_nat NUM) with 8%nat. cbn [intr_loop].
  apply wp_bind, wp_getv, wp_bind, wp_getv. rewrite Hi, Hn.
  assert (Hne : u <> (u + 1) mod 2 ^ 16).
  { destruct (decide (u + 1 = 2 ^ 16)) as [E|E]; [rewrite E, Z.mod_same by lia; lia|rewrite Z.mod_small by lia; lia]. }
  rewrite (proj2 (Z.eqb_neq _ _) Hne). apply wp_bind, wp_getv, wp_bind. eapply wp_deref; [exact Hring|].
  apply wp_bind, wp_getv, wp_bind. eapply wp_deref; [exact Hst|]. cbn [negb Z.eqb].
  apply wp_bind, wp_getv, wp_bind. eapply wp_deref; [by rewrite Hb|].
  apply wp_bind, (wp_setb _ b _ x); [done|]. apply wp_bind, wp_wakeup.
  - done.
  - intros i. change (Lproc i ∉ k_held t). by rewrite Hh, list_elem_of_singleton.
  - change (Ltickslock ∉ k_held t). by rewrite Hh, list_elem_of_singleton.
  - done.
  - intros t1 Hs E1. pose proof (f_equal k_vdisk E1 : k_vdisk t1 = k_vdisk t) as V1.
    pose proof (f_equal k_fs E1 : k_fs t1 = with_bufs (k_fs t) (<[b := x <| b_disk := 0 |>]> (fs_bufs (k_fs t)))) as F1.
    apply wp_bind, wp_setv, wp_bind, wp_getv, wp_bind, wp_getv. ksimp. rewrite V1, Hi, Hn, Z.eqb_refl.
    apply wp_ret. apply HQ; [exact Hs|exact F1|]. ksimp. rewrite V1. by destruct (k_vdisk t); simpl in *; subst.
Qed.
Lemma intr_effect t t' u id b x : hart_wf t -> k_held t = [] -> length (k_procs t) = Z.to_nat NPROC ->
  0 <= u < 2 ^ 16 -> v_used_idx (k_vdisk t) = u -> v_used_next (k_vdisk t) = (u + 1) mod 2 ^ 16 ->
  v_used_ring (k_vdisk t) !! Z.to_nat (u mod NUM) = Some id -> v_info_status (k_vdisk t) !! Z.to_nat id = Some 0 ->
  v_info_b (k_vdisk t) !! Z.to_nat id = Some (Some b) -> fs_bufs (k_fs t) !! b = Some x ->
  virtio_disk_intr mmio t = Done tt t' ->
  k_fs t' = with_bufs (k_fs t) (<[b := x <| b_disk := 0 |>]> (fs_bufs (k_fs t))) /\
  exists w, k_vdisk t' = (k_vdisk t) <| v_used_idx := (u + 1) mod 2 ^ 16 |> <| v_writes := w |>.
Proof.
  intros Hw Hh Hlen Hu Hi Hn Hring Hst Hb Hx Hrun.
  cut (wp (virtio_disk_intr mmio) t (fun _ t' => k_fs t' = with_bufs (k_fs t) (<[b := x <| b_disk := 0 |>]> (fs_bufs (k_fs t))) /\
    exists w, k_vdisk t' = (k_vdisk t) <| v_used_idx := (u + 1) mod 2 ^ 16 |> <| v_writes := w |>)).
  { intros ([] & t2 & E2 & H2)%wp_done. rewrite E2 in Hrun. by injection Hrun as <-. }
  clear Hrun. unfold virtio_disk_intr, R, W. apply wp_bind, wp_acquire; [rewrite Hh; apply not_elem_of_nil|].
  apply wp_bind, wp_getv, wp_bind, wp_setv. apply wp_bind. eapply (wp_intr_loop _ u id b x); ksimp; try done.
  - by apply locked_wf.
  - by rewrite Hh.
  - intros t1 Hs F1 V1. apply (wp_unlock Lvdisk t); [done|rewrite Hh; apply not_elem_of_nil|exact Hs|].
    intros t2 _ E2. pose proof (f_equal k_fs E2 : k_fs t2 = k_fs t1) as ->. pose proof (f_equal k_vdisk E2 : k_vdisk t2 = k_vdisk t1) as ->.
    split; [exact F1|]. rewrite V1. by eexists.
Qed.

(** What happens while the process sleeps. *)
Definition slept (v : vdisk) (F : fsys) (v' : vdisk) (F' : fsys) : Prop :=
  exists t t', served v F = Some (k_vdisk t, k_fs t) /\ hart_wf t /\ k_held t = [] /\
    length (k_procs t) = Z.to_nat NPROC /\ virtio_disk_intr mmio t = Done tt t' /\ v' = k_vdisk t' /\ F' = k_fs t'.
Lemma dwp_sleep chan v F (Q : unit -> list lockid -> vdisk -> fsys -> Prop) :
  (forall v' F', slept v F v' F' -> Q tt [Lvdisk] v' F') -> dwp (sleep chan Lvdisk) [Lvdisk] v F Q.
Proof.
  intros HQ s Hc <- <-. pose proof Hc as [Hh Hn _ (m & p & Hm & Hp & Hpid) Hl _].
  destruct (sleep_run chan Lvdisk s m p) as (s1 & k & E & C1 & L1 & N1 & S1 & E1 & Hk); [by eapply calm_wf|done..|].
  unfold rwp. rewrite E. cbn [owp]. intros s2 [(t & t' & Hserv & Hw & Ht & Htl & Hrun & Hv & HF) H2 H3 H4 H5 H6 H7].
  set (p1 := (charged _ _) <| p_state := SLEEPING |>) in E1.
  assert (P1 : k_procs s1 = <[m := p1]> (k_procs s)) by exact (f_equal k_procs E1).
  assert (Hp1 : k_procs s1 !! m = Some p1) by (rewrite P1; apply list_lookup_insert_eq; by eapply lookup_lt_Some).
  assert (Hpid1 : p_pid p1 = pid) by (unfold p1, charged; by repeat case_match).
  destruct (H7 m p1 Hp1) as (p2 & Hp2 & Hpid2).
  destruct (Hk s2 p2) as (s3 & E3 & L3 & N3 & S3 & C3 & NH3); [congruence..|]. rewrite E3. cbn [owp].
  assert (P3 : k_procs s3 = <[m := p2 <| p_chan := None |>]> (k_procs s2)) by exact (f_equal k_procs NH3).
  exists [Lvdisk]. split.
  - split; [done|done|done| | |done].
    + exists m. rewrite C3, H5, C1, P3. eexists. split; [done|].
      split; [apply list_lookup_insert_eq; by eapply lookup_lt_Some|]. ksimp. congruence.
    + by rewrite P3, length_insert, H6, P1, length_insert.
  - rewrite (f_equal k_vdisk NH3 : k_vdisk s3 = k_vdisk s2), (f_equal k_fs NH3 : k_fs s3 = k_fs s2).
    apply HQ. exists t, t'. split; [|done]. rewrite <- Hserv.
    by rewrite (f_equal k_vdisk E1 : k_vdisk s1 = k_vdisk s), (f_equal k_fs E1 : k_fs s1 = k_fs s).
Qed.

(** The first free descriptor. *)
Lemma dwp_alloc_desc h v F i f (Q : Z -> list lockid -> vdisk -> fsys -> Prop) : (i < 8)%nat ->
  (forall j, (j < i)%nat -> v_free v !! j = Some 0) -> v_free v !! i = Some f -> f <> 0 ->
  Q (Z.of_nat i) h (v <| v_free ::= <[i := 0]> |>) F -> dwp alloc_desc h v F Q.
Proof.
  intros Hi Hlt Hf Hnz HQ. unfold alloc_desc. change (Z.to_nat NUM) with 8%nat. apply dwp_bind.
  assert (Hgen : forall k n, (n <= i < n + k)%nat ->
    dwp (find_list (seq n k) (fun i => let! l := getv v_free in
      if negb (default 0 (l !! i) =? 0) then setv (upd v_free (fun l => <[i := 0]> l)) ;! ret (Some (Z.of_nat i)) else ret None)) h v F
      (fun r h' v' F' => r = Some (Z.of_nat i) /\ h' = h /\ v' = v <| v_free ::= <[i := 0]> |> /\ F' = F)).
  { induction k as [|k IH]; intros n Hn; [lia|]. cbn [seq find_list]. apply dwp_bind, dwp_bind, dwp_getv.
    destruct (decide (n = i)) as [->|Hne].
    - rewrite Hf. cbn [default]. unfold id. rewrite (proj2 (Z.eqb_neq _ _) Hnz). cbn [negb].
      apply dwp_bind, dwp_setv, dwp_ret, dwp_ret. done.
    - rewrite Hlt by lia. cbn [default id Z.eqb negb]. apply dwp_ret. apply IH. lia. }
  intros s Hc Hv HF. eapply rwp_mono; [apply (Hgen 8%nat 0%nat); [lia|done..]|]. intros r s' (h' & Hc' & -> & -> & E1 & E2).
  exists h. split; [done|]. intros s2 Hc2 Hv2 HF2. exists h. split; [done|]. cbn [default id]. rewrite Hv2, HF2, E1, E2. exact HQ.
Qed.
Lemma dwp_alloc3 k h v F (Q : Z * Z * Z -> list lockid -> vdisk -> fsys -> Prop) : v_free v = replicate 8 1 ->
  Q (0, 1, 2) h (v <| v_free := [0; 0; 0; 1; 1; 1; 1; 1] |>) F -> dwp (alloc3_wait k) h v F Q.
Proof.
  intros Hf HQ. destruct k; cbn [alloc3_wait]; unfold alloc3_desc; apply dwp_bind, dwp_bind;
    (eapply (dwp_alloc_desc _ _ _ 0 1); [lia|lia|by rewrite Hf|lia|]); cbn [Z.of_nat Z.ltb Z.compare];
    apply dwp_bind; (eapply (dwp_alloc_desc _ _ _ 1 1); [lia|ksimp; rewrite Hf; intros [|]; [done|lia]|ksimp; by rewrite Hf|lia|]);
    apply dwp_bind; (eapply (dwp_alloc_desc _ _ _ 2 1); [lia|ksimp; rewrite Hf; intros [|[|]]; [done|done|lia]|ksimp; by rewrite Hf|lia|]);
    apply dwp_ret, dwp_ret; destruct v; simpl in *; subst; exact HQ.
Qed.

Lemma dwp_getb i x h v F (Q : buf -> list lockid -> vdisk -> fsys -> Prop) : fs_bufs F !! i = Some x -> Q x h v F -> dwp (getb i) h v F Q.
Proof. intros Hx HQ. apply dwp_fwp. by eapply fwp_getb. Qed.
Lemma dwp_setb i f x h v F (Q : unit -> list lockid -> vdisk -> fsys -> Prop) :
  fs_bufs F !! i = Some x -> Q tt h v (with_bufs F (<[i := f x]> (fs_bufs F))) -> dwp (setb i f) h v F Q.
Proof. intros Hx HQ. apply dwp_fwp. by eapply fwp_setb. Qed.
Lemma dwp_deref {A} w (o : option A) a h v F (Q : A -> list lockid -> vdisk -> fsys -> Prop) :
  o = Some a -> Q a h v F -> dwp (deref w o) h v F Q.
Proof. intros -> H. by apply dwp_ret. Qed.

(** The driver's state after submit for buffer [b] with descriptors 0, 1, 2. *)
Definition submitted (v : vdisk) (b : nat) (write : bool) (bno : Z) : vdisk :=
  v <| v_free := [0; 0; 0; 1; 1; 1; 1; 1] |>
    <| v_ops ::= <[0%nat := (if write then VIRTIO_BLK_T_OUT else VIRTIO_BLK_T_IN, bno * 2)]> |>
    <| v_desc ::= fun l => <[2%nat := mkDesc (Dstatus 0) 1 VRING_DESC_F_WRITE 0]>
         (<[1%nat := mkDesc (Ddata b) BSIZE (Z.lor (if write then 0 else VRING_DESC_F_WRITE) VRING_DESC_F_NEXT) 2]>
           (<[0%nat := mkDesc (Dop 0) 16 VRING_DESC_F_NEXT 1]> l)) |>
    <| v_info_status ::= <[0%nat := 255]> |>
    <| v_info_b ::= <[0%nat := Some b]> |>
    <| v_avail_ring ::= <[Z.to_nat (v_used_next v mod NUM) := 0]> |>
    <| v_avail_idx := (v_used_next v + 1) mod 2 ^ 16 |>
    <| v_writes ::= cons (VIRTIO_MMIO_QUEUE_NOTIFY, u32 0) |>.
Lemma dwp_submit v b write x F h (Q : unit -> list lockid -> vdisk -> fsys -> Prop) : disk_idle v -> fs_bufs F !! b = Some x ->
  0 <= b_blockno x < 2 ^ 31 ->
  Q tt h (submitted v b write (b_blockno x)) (with_bufs F (<[b := x <| b_disk := 1 |>]> (fs_bufs F))) ->
  dwp (submit b write (0, 1, 2)) h (v <| v_free := [0; 0; 0; 1; 1; 1; 1; 1] |>) F Q.
Proof.
  intros [] Hx Hr HQ. unfold submit. apply dwp_bind. eapply dwp_getb; [exact Hx|]. cbv zeta.
  change (BSIZE / 512) with 2. rewrite u32_small by lia. unfold set_desc, W.
  do 5 (apply dwp_bind, dwp_setv). apply dwp_bind. eapply dwp_setb; [exact Hx|].
  apply dwp_bind, dwp_setv. apply dwp_bind, dwp_getv. apply dwp_bind, dwp_setv. apply dwp_bind, dwp_setv. apply dwp_setv.
  unfold submitted in HQ. destruct v. simpl in *. subst. exact HQ.
Qed.

Lemma idx_ne u : 0 <= u < 2 ^ 16 -> (u + 1) mod 2 ^ 16 <> u.
Proof.
  intros Hu. destruct (decide (u + 1 = 2 ^ 16)) as [E|E]; [rewrite E, Z.mod_same by lia; lia|rewrite Z.mod_small by lia; lia].
Qed.
Lemma vslot_lt u : (Z.to_nat (u mod NUM) < 8)%nat.
Proof. pose proof (Z.mod_pos_bound u NUM ltac:(done)). unfold NUM in *. lia. Qed.
Lemma list8 {A} (l : list A) : length l = 8%nat -> exists a b c d e f g h, l = [a; b; c; d; e; f; g; h].
Proof. intros H. do 8 (destruct l as [|? l]; [done|]). destruct l; [|done]. by do 8 eexists. Qed.

(** The disk's part of a read or a write. *)
Definition transferred (write : bool) (F : fsys) (b : nat) (x : buf) : fsys :=
  if write then F <| fs_disk ::= cons (b_blockno x, b_data x) |>
  else with_bufs F (<[b := x <| b_data := block (fs_disk F) (b_blockno x) |>]> (fs_bufs F)).
Lemma served_submitted v b write x F : disk_idle v -> fs_bufs F !! b = Some x -> 0 <= b_blockno x < 2 ^ 31 ->
  let v2 := submitted v b write (b_blockno x) in
  served v2 F = Some (v2 <| v_info_status ::= <[0%nat := 0]> |> <| v_used_ring ::= <[Z.to_nat (v_used_next v mod NUM) := 0]> |>
    <| v_used_next := (v_used_next v + 1) mod 2 ^ 16 |>, transferred write F b x).
Proof.
  intros [] Hx Hr v2.
  destruct (list8 _ di_desc0) as (d0 & d1 & d2 & d3 & d4 & d5 & d6 & d7 & Hd).
  destruct (list8 _ di_ops0) as (o0 & o1 & o2 & o3 & o4 & o5 & o6 & o7 & Ho).
  assert (Ha : v_avail_ring v2 !! Z.to_nat (v_used_next v2 mod NUM) = Some 0)
    by (apply list_lookup_insert_eq; change (Z.to_nat (v_used_next v mod NUM) < length (v_avail_ring v))%nat; rewrite di_avail0; apply vslot_lt).
  assert (Hd0 : v_desc v2 !! 0%nat = Some (mkDesc (Dop 0) 16 VRING_DESC_F_NEXT 1)) by (unfold v2, submitted; ksimp; by rewrite Hd).
  assert (Hd1 : v_desc v2 !! 1%nat =
    Some (mkDesc (Ddata b) BSIZE (Z.lor (if write then 0 else VRING_DESC_F_WRITE) VRING_DESC_F_NEXT) 2)) by (unfold v2, submitted; ksimp; by rewrite Hd).
  assert (Hd2 : v_desc v2 !! 2%nat = Some (mkDesc (Dstatus 0) 1 VRING_DESC_F_WRITE 0)) by (unfold v2, submitted; ksimp; by rewrite Hd).
  assert (Ho0 : v_ops v2 !! 0%nat = Some (if write then VIRTIO_BLK_T_OUT else VIRTIO_BLK_T_IN, b_blockno x * 2))
    by (unfold v2, submitted; ksimp; by rewrite Ho).
  unfold served. change (v_avail_idx v2) with ((v_used_next v + 1) mod 2 ^ 16). rewrite (proj2 (Z.eqb_neq _ _)) by by apply idx_ne.
  cbv zeta. rewrite Ha. cbn [mbind option_bind]. change (Z.to_nat 0) with 0%nat. rewrite Hd0. cbn [mbind option_bind vd_next vd_addr].
  change (Z.to_nat 1) with 1%nat. rewrite Hd1. cbn [mbind option_bind vd_next vd_addr].
  change (Z.to_nat 2) with 2%nat. rewrite Hd2. cbn [mbind option_bind vd_next vd_addr]. rewrite Ho0, Hx. cbn [mbind option_bind fst snd].
  change (BSIZE / 512) with 2. rewrite Z.div_mul by lia. unfold transferred. by destruct write.
Qed.

(** The driver's state when the request is done. *)
Definition finished (v : vdisk) (b : nat) (write : bool) (bno : Z) (w : list (Z * Z)) : vdisk :=
  (submitted v b write bno) <| v_info_status ::= <[0%nat := 0]> |>
    <| v_used_ring ::= <[Z.to_nat (v_used_next v mod NUM) := 0]> |>
    <| v_used_next := (v_used_next v + 1) mod 2 ^ 16 |> <| v_used_idx := (v_used_next v + 1) mod 2 ^ 16 |> <| v_writes := w |>.
(** The file system when the request is done. *)
Definition rw_done (write : bool) (F : fsys) (b : nat) (x : buf) : fsys :=
  if write then (with_bufs F (<[b := x <| b_disk := 0 |>]> (fs_bufs F))) <| fs_disk ::= cons (b_blockno x, b_data x) |>
  else with_bufs F (<[b := x <| b_disk := 0 |> <| b_data := block (fs_disk F) (b_blockno x) |>]> (fs_bufs F)).
Lemma slept_done v b write x F v' F' : disk_idle v -> fs_bufs F !! b = Some x -> 0 <= b_blockno x < 2 ^ 31 ->
  slept (submitted v b write (b_blockno x)) (with_bufs F (<[b := x <| b_disk := 1 |>]> (fs_bufs F))) v' F' ->
  exists w, v' = finished v b write (b_blockno x) w /\ F' = rw_done write F b x.
Proof.
  intros Hi Hx Hr (t & t' & Hs & Hw & Hh & Hlen & Hrun & -> & ->). pose proof Hi as [].
  assert (Hlt : (b < length (fs_bufs F))%nat) by by eapply lookup_lt_Some.
  change (b_blockno x) with (b_blockno (x <| b_disk := 1 |>)) in Hs.
  rewrite (served_submitted v b write) in Hs; [|done|by apply list_lookup_insert_eq|done].
  injection Hs as Hv HF.
  assert (Hring : v_used_ring (k_vdisk t) !! Z.to_nat (v_used_next v mod NUM) = Some 0).
  { rewrite <- Hv. apply list_lookup_insert_eq. change (Z.to_nat (v_used_next v mod NUM) < length (v_used_ring v))%nat. rewrite di_used0. apply vslot_lt. }
  assert (Hst : v_info_status (k_vdisk t) !! 0%nat = Some 0).
  { rewrite <- Hv. apply list_lookup_insert_eq. unfold submitted. ksimp. rewrite length_insert, di_status0. lia. }
  assert (Hb : v_info_b (k_vdisk t) !! 0%nat = Some (Some b)).
  { rewrite <- Hv. unfold submitted. ksimp. apply list_lookup_insert_eq. rewrite di_b0. lia. }
  assert (HFb : exists x3, fs_bufs (k_fs t) !! b = Some x3 /\
    with_bufs (k_fs t) (<[b := x3 <| b_disk := 0 |>]> (fs_bufs (k_fs t))) = rw_done write F b x).
  { rewrite <- HF. unfold transferred, rw_done, with_bufs. destruct write; ksimp.
    - eexists. split; [by apply list_lookup_insert_eq|]. by rewrite list_insert_insert_eq.
    - rewrite list_insert_insert_eq. eexists. split; [by apply list_lookup_insert_eq|]. by rewrite list_insert_insert_eq. }
  destruct HFb as (x3 & Hx3 & HF3).
  destruct (intr_effect t t' (v_used_next v) 0 b x3 Hw Hh Hlen) as (EF & w & EV); try done.
  - rewrite <- Hv. exact di_idx0.
  - by rewrite <- Hv.
  - exists w. split; [|by rewrite EF]. rewrite EV, <- Hv. done.
Qed.
Lemma dwp_wait k v b write x F (Q : unit -> list lockid -> vdisk -> fsys -> Prop) : disk_idle v -> fs_bufs F !! b = Some x ->
  0 <= b_blockno x < 2 ^ 31 -> (forall w, Q tt [Lvdisk] (finished v b write (b_blockno x) w) (rw_done write F b x)) ->
  dwp (wait_disk (S k) b) [Lvdisk] (submitted v b write (b_blockno x)) (with_bufs F (<[b := x <| b_disk := 1 |>]> (fs_bufs F))) Q.
Proof.
  intros Hi Hx Hr HQ. assert (Hlt : (b < length (fs_bufs F))%nat) by by eapply lookup_lt_Some.
  cbn [wait_disk]. apply dwp_bind. eapply dwp_getb; [by apply list_lookup_insert_eq|]. ksimp. cbn [Z.eqb Pos.eqb].
  apply dwp_bind, dwp_sleep. intros v' F' Hs. destruct (slept_done _ _ _ _ _ _ _ Hi Hx Hr Hs) as (w & -> & ->).
  assert (Hz : exists z, fs_bufs (rw_done write F b x) !! b = Some z /\ b_disk z = 0).
  { unfold rw_done. destruct write; (eexists; split; [by apply list_lookup_insert_eq|done]). }
  destruct Hz as (z & Hz & Hz0).
  destruct k; cbn [wait_disk]; apply dwp_bind; (eapply dwp_getb; [exact Hz|]); rewrite Hz0; apply dwp_ret, HQ.
Qed.

Lemma dwp_free_desc (i : nat) v F h (Q : unit -> list lockid -> vdisk -> fsys -> Prop) : (i < 8)%nat -> v_free v !! i = Some 0 ->
  (forall j, Lproc j ∉ h) -> Ltickslock ∉ h ->
  Q tt h (v <| v_desc ::= fun l => <[i := mkDesc Dnull 0 0 0]> l |> <| v_free ::= fun l => <[i := 1]> l |>) F -> dwp (free_desc (Z.of_nat i)) h v F Q.
Proof.
  intros Hi Hf Hl Ht HQ. unfold free_desc, set_desc. rewrite (proj2 (Z.leb_gt NUM _)) by (unfold NUM; lia). rewrite Nat2Z.id.
  apply dwp_bind, dwp_getv, dwp_bind. eapply dwp_deref; [exact Hf|]. cbn [negb Z.eqb].
  apply dwp_bind, dwp_setv, dwp_bind, dwp_setv. apply dwp_fwp, fwp_wakeup; [done|done|]. exact HQ.
Qed.
Lemma dwp_free_chain v b (write : bool) F (Q : unit -> list lockid -> vdisk -> fsys -> Prop) d3 d4 d5 d6 d7 :
  v_desc v = [mkDesc (Dop 0) 16 VRING_DESC_F_NEXT 1;
    mkDesc (Ddata b) BSIZE (Z.lor (if write then 0 else VRING_DESC_F_WRITE) VRING_DESC_F_NEXT) 2;
    mkDesc (Dstatus 0) 1 VRING_DESC_F_WRITE 0; d3; d4; d5; d6; d7] ->
  v_free v = [0; 0; 0; 1; 1; 1; 1; 1] ->
  (forall l, length l = 8%nat -> Q tt [Lvdisk] (v <| v_desc := l |> <| v_free := replicate 8 1 |>) F) ->
  dwp (free_chain (Z.to_nat NUM) 0) [Lvdisk] v F Q.
Proof.
  intros Hd Hf HQ. change (Z.to_nat NUM) with 8%nat. cbn [free_chain]. unfold get_desc.
  assert (Hh : (forall j, Lproc j ∉ [Lvdisk]) /\ Ltickslock ∉ [Lvdisk])
    by (split; [intros j|]; by rewrite list_elem_of_singleton). destruct Hh as [Hh1 Hh2].
  apply dwp_bind, dwp_bind, dwp_getv. eapply dwp_deref; [by rewrite Hd|]. apply dwp_bind.
  apply (dwp_free_desc 0); [lia|by rewrite Hf|done|done|]. cbn [vd_flags vd_next negb Z.land VRING_DESC_F_NEXT Z.eqb Pos.land].
  apply dwp_bind, dwp_bind, dwp_getv. eapply dwp_deref; [ksimp; by rewrite Hd|]. apply dwp_bind.
  apply (dwp_free_desc 1); [lia|ksimp; by rewrite Hf|done|done|]. cbn [vd_flags vd_next].
  replace (negb (Z.land (Z.lor (if write then 0 else VRING_DESC_F_WRITE) VRING_DESC_F_NEXT) VRING_DESC_F_NEXT =? 0)) with true
    by by destruct write.
  apply dwp_bind, dwp_bind, dwp_getv. eapply dwp_deref; [ksimp; by rewrite Hd|]. apply dwp_bind.
  apply (dwp_free_desc 2); [lia|ksimp; by rewrite Hf|done|done|]. apply dwp_ret.
  destruct v. simpl in *. subst. by eapply HQ.
Qed.

Context {fuel : Fuel} (Hfuel : (0 < sleep_fuel)%nat).
Lemma dwp_disk_rw v b write x F (Q : unit -> list lockid -> fsys -> Prop) : disk_idle v -> fs_bufs F !! b = Some x ->
  0 <= b_blockno x < 2 ^ 31 -> Q tt [] (rw_done write F b x) ->
  dwp (disk_rw b write) [] v F (fun a h v' F' => disk_idle v' /\ Q a h F').
Proof.
  intros Hi Hx Hr HQ. pose proof Hi as []. unfold disk_rw. apply dwp_bind, dwp_fwp, fwp_acquire; [apply not_elem_of_nil|].
  apply dwp_bind, dwp_alloc3; [done|]. apply dwp_bind. apply (dwp_submit v b write x F); [done..|].
  apply dwp_bind. destruct sleep_fuel as [|k]; [lia|]. apply dwp_wait; [done..|]. intros w.
  cbn [fst]. change (Z.to_nat 0) with 0%nat. apply dwp_bind, dwp_setv, dwp_bind.
  destruct (list8 _ di_desc0) as (d0 & d1 & d2 & d3 & d4 & d5 & d6 & d7 & Hd).
  apply (dwp_free_chain _ b write _ _ d3 d4 d5 d6 d7); [unfold finished, submitted; ksimp; by rewrite Hd|done|].
  intros l Hl. apply dwp_fwp, fwp_release; [apply not_elem_of_nil|]. split; [|exact HQ].
  split; unfold finished, submitted; ksimp; rewrite ?length_insert; try done. apply Z.mod_pos_bound. lia.
Qed.

(** The driver, the device and the interrupt handler are a disk. *)
#[export] Instance virtio_law : DiskLaw device pid.
Proof.
  split; intros b x F Q Hx Hr HQ; apply fwp_dwp; intros v Hi; eapply dwp_disk_rw; try done; exact (HQ 0).
Qed.

End driver.

(** ** A machine with a disk *)

(** The device serves the request at once and the idle hart takes the
    interrupt. *)
Definition serve (mmio : vdisk -> Z -> Z) (s : kstate) : option kstate :=
  match served (k_vdisk s) (k_fs s) with
  | Some (v, F) =>
      let t := s <| k_held := [] |> <| k_cpu := mkCpu None 0 true false 0 |> <| k_vdisk := v |> <| k_fs := F |> in
      match virtio_disk_intr mmio t with
      | Done _ t' => Some (s <| k_vdisk := k_vdisk t' |> <| k_fs := k_fs t' |>)
      | _ => None
      end
  | None => None
  end.
Lemma serve_resumed mmio s s' : length (k_procs s) = Z.to_nat NPROC -> serve mmio s = Some s' -> resumed mmio s s'.
Proof.
  intros Hl. unfold serve. destruct (served (k_vdisk s) (k_fs s)) as [[v F]|] eqn:Hs; [|done]. cbv zeta.
  set (t := _ <| k_fs := F |>). destruct (virtio_disk_intr mmio t) as [[] t'| | | |] eqn:Hr; try done. intros [= <-].
  split; [|done..|eauto]. exists t, t'. split_and!; [exact Hs|split; [done|intros Hn; by apply Z.lt_irrefl in Hn]|done|exact Hl|exact Hr|done|done].
Qed.
Definition sample_disk : vdisk :=
  zero_vdisk <| v_desc := replicate 8 (mkDesc Dnull 0 0 0) |> <| v_avail_ring := replicate 8 0 |>
    <| v_used_ring := replicate 8 0 |> <| v_free := replicate 8 1 |> <| v_info_b := replicate 8 None |>
    <| v_info_status := replicate 8 0 |> <| v_ops := replicate 8 (0, 0) |>.
Lemma sample_disk_idle : disk_idle sample_disk.
Proof. by split. Qed.
Definition sample_buf : buf := zero_buf <| b_blockno := 5 |> <| b_data := [1; 2; 3] |>.
Definition sample_fs : fsys := zero_fsys <| fs_bufs := [sample_buf] |>.
(** A process with pid 1 runs. *)
Definition sample_machine (F : fsys) : kstate :=
  bss <| k_cpu := mkCpu (Some 0%nat) 0 true false 0 |>
    <| k_procs := (zero_proc <| p_state := RUNNING |> <| p_pid := 1 |>) :: replicate 63 zero_proc |>
    <| k_vdisk := sample_disk |> <| k_fs := F |>.
Lemma sample_calm F mmio : calm (device mmio) 1 [] (sample_machine F).
Proof. split; [done|done|done| |done|apply sample_disk_idle]. exists 0%nat. by eexists. Qed.
(** The machine runs until the process returns from one request. *)
Definition sample_run (F : fsys) (m : K unit) : option (kstate * kstate * kstate) :=
  match m (sample_machine F) with
  | Switch s1 k =>
      if (length (k_procs s1) =? 64)%nat then
        s2 ← serve (fun _ _ => 0) s1;
        match k s2 with Done _ s3 => Some (s1, s2, s3) | _ => None end
      else None
  | _ => None
  end.
Lemma sample_run_inv F m : bool_decide (is_Some (sample_run F m)) = true ->
  exists s1 k s2 s3, m (sample_machine F) = Switch s1 k /\ resumed (fun _ _ => 0) s1 s2 /\ k s2 = Done tt s3.
Proof.
  unfold sample_run. intros [[[s1 s2] s3] H]%bool_decide_eq_true. destruct (m (sample_machine F)) as [| | | |t1 k]; try done.
  destruct (Nat.eqb_spec (length (k_procs t1)) 64) as [Hl|]; [|done].
  destruct (serve _ t1) as [t2|] eqn:Hs; [|done]. cbn [mbind option_bind] in H.
  destruct (k t2) as [[] t3| | | |] eqn:Hk; try done. exists t1, k, t2, t3. split_and!; [done|by apply serve_resumed|done].
Qed.
Lemma sample_runs : bool_decide (is_Some (sample_run sample_fs (disk_rw (fuel := 1%nat) 0 true))) = true.
Proof. vm_compute. reflexivity. Qed.
End VirtioSpec.
