(* ===== verification/Crash.v ===== *)
(** * Crash safety of the file system's disk

    The log on top of the buffer cache on top of the virtio driver: what a
    transaction does to the disk, and what a crash leaves. *)

From S2P Require Import Prelude State Spinlock CString Mem Sched FileLayer Proc PsList Console Bio BufCache Virtio Log FsLogic BufSpec LogSpec VirtioSpec.

Module Crash.
Import BufCache FsLogic BufSpec LogSpec VirtioSpec Virtio Log.

(** Outside the log's blocks, [start] to [start + n], the disk of [F] has the
    content [L]. *)
Definition disk_has (start : Z) (n : nat) (F : fsys) (L : Z -> list Z) : Prop :=
  forall b, user start n b -> block (fs_disk F) b = L b.

Section crash.
Context {fuel : Fuel} (Hfuel : (0 < sleep_fuel)%nat) (mmio : vdisk -> Z -> Z) (pid dev : Z) (Hdev : dev <> 0).

(** C2. Transactions are atomic, and durable once end_op returns: a process
    that calls begin_op, changes blocks through bread, log_write and brelse,
    and calls end_op, returns from all of it with no lock held; then the disk
    has the changed blocks; and if the machine crashes at any moment in
    between, initlog at the next boot returns and leaves a disk on which
    either all of the changes are there or none.  The disk is the virtio
    driver with its interrupt handler, run against the device. *)
Theorem transaction_atomic start size F us : quiet pid dev start size F ->
  (forall u, u ∈ us -> outside start (Z.to_nat (size - 1)) u.1) -> Z.of_nat (length us) <= size - 1 ->
  let d := fs_disk F in
  let log_end := Z.to_nat (size - 1) in
  fwp (device mmio) pid (transaction dev us) [] F (fun _ h F' =>
    h = [] /\ quiet pid dev start size F' /\
    disk_has start log_end F' (updated us (block d)) /\
    (forall d', crash d (fs_disk F') d' -> forall sb G, sb_logstart sb = start -> rebooted pid dev d' G ->
       fwp (device mmio) pid (initlog dev sb) [] G (fun _ _ G' =>
         disk_has start log_end G' (block d) \/ disk_has start log_end G' (updated us (block d))))).
Proof. intros. pose proof (virtio_law mmio pid Hfuel). by apply txn_atomic. Qed.

(** C21. Recovery may itself be cut short: if the machine crashes at any
    moment while initlog recovers, and then initlog runs again, the disk ends
    up with the content the first run would have given it. *)
Theorem recovery_restartable sb G d : rebooted pid dev d G -> log_valid (sb_logstart sb) d ->
  (4 <= length (block d (sb_logstart sb)))%nat ->
  let start := sb_logstart sb in let n := length (head_blocks (block d start)) in
  fwp (device mmio) pid (initlog dev sb) [] G (fun _ h G1 => h = [] /\
    forall d', crash d (fs_disk G1) d' -> forall G2, rebooted pid dev d' G2 ->
      fwp (device mmio) pid (initlog dev sb) [] G2 (fun _ _ G3 => disk_has start n G3 (block (fs_disk G1)))).
Proof. intros. pose proof (virtio_law mmio pid Hfuel). by apply recover_again. Qed.
End crash.

(** ** A machine *)

(** The cache after binit holds nothing. *)
Definition cold (bs : list buf) : Prop :=
  cache_ok bs /\ Forall (fun x => b_dev x = 0 /\ b_valid x = 0 /\ b_refcnt x = 0 /\ sl_locked (b_lock x) = 0) bs.
Lemma cold_cst pid dev G : dev <> 0 -> cold (fs_bufs G) -> cst pid dev G (block (fs_disk G)) [] [].
Proof.
  intros Hdev [Hc Hall]. rewrite Forall_forall in Hall. split; [done|..|apply NoDup_nil_2].
  - intros i x _ Hx. destruct (Hall x) as (H1 & H2 & H3 & H4); [by eapply list_elem_of_lookup_2|].
    split; [|simpl; intros H; by apply elem_of_nil in H|done|intros; congruence|intros; congruence].
    rewrite H3. unfold refs. rewrite decide_False by (simpl; apply not_elem_of_nil). by rewrite decide_False by (intros [_ []%elem_of_nil]).
  - intros b bno []%elem_of_nil.
  - done.
  - intros bno []%elem_of_nil.
Qed.
Definition cold_bufs : list buf := match binit bss with Done _ s => fs_bufs (k_fs s) | _ => [] end.
Lemma cold_bufs_cold : cold cold_bufs.
Proof.
  split.
  - assert (Hw : wp binit bss (fun _ s => cache_ok (fs_bufs (k_fs s)))).
    { apply wp_binit; [reflexivity| | |].
      - by intros i x [-> _]%lookup_replicate.
      - by intros h [-> _]%lookup_replicate.
      - intros bs' Hbs'. exact Hbs'. }
    destruct (proj1 (wp_done binit bss _) Hw) as (a & s & E & H). unfold cold_bufs. by rewrite E.
  - vm_compute. repeat constructor.
Qed.
#[local] Instance one_wait : Fuel := 1%nat.
Definition sample_log : log := mkLog 2 30 0 0 1 0 (replicate 30 0).
Definition sample_files (d : list (Z * list Z)) : fsys := zero_fsys <| fs_bufs := cold_bufs |> <| fs_log := sample_log |> <| fs_disk := d |>.
Lemma sample_quiet : quiet 1 1 2 30 (sample_files []).
Proof.
  split; try (vm_compute; reflexivity); try (unfold LOGSIZE, MAXOPBLOCKS; lia). apply cold_cst; [lia|]. exact cold_bufs_cold.
Qed.
(** A process writes blocks 40 and 41 in one transaction. *)
Definition sample_updates : list (Z * (list Z -> list Z)) := [(40, fun _ => replicate 1024 7); (41, fun _ => replicate 1024 8)].
Lemma transaction_atomic_witness : quiet 1 1 2 30 (sample_files []) /\
  calm (device (fun _ _ => 0)) 1 [] (sample_machine (sample_files [])) /\
  rwp (resumed (fun _ _ => 0)) (transaction 1 sample_updates) (sample_machine (sample_files []))
    (fun _ s' => block (fs_disk (k_fs s')) 40 = replicate 1024 7 /\ block (fs_disk (k_fs s')) 41 = replicate 1024 8).
Proof.
  split; [exact sample_quiet|]. split; [apply sample_calm|].
  assert (Hus : forall u, u ∈ sample_updates -> outside 2 (Z.to_nat (30 - 1)) u.1).
  { intros u [->|[->|[]%elem_of_nil]%elem_of_cons]%elem_of_cons; vm_compute; intuition congruence. }
  pose proof (transaction_atomic (fuel := one_wait) (le_n 1) (fun _ _ => 0) 1 1 ltac:(lia) 2 30 (sample_files []) sample_updates
    sample_quiet Hus ltac:(simpl; lia) (sample_machine (sample_files [])) (sample_calm _ _) eq_refl) as H.
  eapply rwp_mono; [exact H|]. clear H.
  intros [] s' (h & _ & _ & _ & Hnew & _). split; rewrite Hnew by (unfold user; simpl; lia); reflexivity.
Defined.
(** The log has block 50 committed and not installed. *)
Definition sample_history : list (Z * list Z) :=
  [(2, put32 (put32 zero_block 0 1) 4 50); (3, replicate 1024 9)].
Definition sample_sb : superblock := (fs_sb zero_fsys) <| sb_logstart := 2 |> <| sb_nlog := 30 |>.
Lemma sample_rebooted : rebooted 1 1 sample_history (sample_files sample_history).
Proof. split; [|done]. apply cold_cst; [lia|exact cold_bufs_cold]. Qed.
Lemma sample_head : head_blocks (block sample_history 2) = [50].
Proof. vm_compute. reflexivity. Qed.
Lemma recovery_restartable_witness : log_valid 2 sample_history /\
  rwp (resumed (fun _ _ => 0)) (initlog 1 sample_sb) (sample_machine (sample_files sample_history))
    (fun _ s' => forall d', crash sample_history (fs_disk (k_fs s')) d' -> forall G2, rebooted 1 1 d' G2 ->
      fwp (device (fun _ _ => 0)) 1 (initlog 1 sample_sb) [] G2
        (fun _ _ G3 => block (fs_disk G3) 50 = block (fs_disk (k_fs s')) 50)).
Proof.
  assert (Hv : log_valid 2 sample_history).
  { unfold log_valid. rewrite sample_head. unfold LOGSIZE, MAXOPBLOCKS, outside. simpl. split_and!; [lia..|].
    intros b Hb. apply list_elem_of_singleton in Hb as ->. lia. }
  assert (Hlen : (4 <= length (block sample_history 2))%nat) by (vm_compute; lia).
  split; [exact Hv|].
  pose proof (recovery_restartable (fuel := one_wait) (le_n 1) (fun _ _ => 0) 1 1 ltac:(lia) sample_sb
      (sample_files sample_history) sample_history sample_rebooted Hv Hlen (sample_machine (sample_files sample_history)) (sample_calm _ _) eq_refl) as H.
  eapply rwp_mono; [exact H|]. clear H.
  intros [] s' (h & _ & _ & Hre) d' Hd' G2 HG2. eapply fwp_mono; [exact (Hre d' Hd' G2 HG2)|].
  intros [] h' G3 Hb. apply Hb. change (sb_logstart sample_sb) with 2. rewrite sample_head. unfold user. simpl. lia.
Defined.
End Crash.
