(* ===== verification/Fs.v ===== *)
(** * fs.c: blocks, inodes, directories and path names

    On-disk structures are bytes of buffers, read and written at their
    offsets.  A table entry [struct inode *] is an index into itable. *)

From S2P Require Import Prelude State Spinlock CString Mem Kalloc Vm Sched FileLayer Proc Console Bio Log.

(** ** fs.h and stat.h *)

Definition i16 (x : Z) : Z := let y := x mod 2 ^ 16 in if y <? 2 ^ 15 then y else y - 2 ^ 16.

Definition ROOTINO : Z := 1.
Definition FSMAGIC : Z := 0x10203040.
Definition NDIRECT : Z := 12.
Definition NINDIRECT : Z := BSIZE / 4.
Definition MAXFILE : Z := NDIRECT + NINDIRECT.
Definition DINODE_SIZE : Z := 64.
Definition IPB : Z := BSIZE / DINODE_SIZE.
Definition IBLOCK (i : Z) (sb : superblock) : Z := u32 (i / IPB + sb_inodestart sb).
Definition BPB : Z := BSIZE * 8.
Definition BBLOCK (b : Z) (sb : superblock) : Z := u32 (b / BPB + sb_bmapstart sb).
Definition DIRSIZ : Z := 14.
Definition DIRENT_SIZE : Z := 16.
Definition T_DIR : Z := 1.
Definition T_FILE : Z := 2.
Definition T_DEVICE : Z := 3.

(** struct dinode, at byte [off] of a block. *)
Record dinode := mkDinode {
  di_type : Z; di_major : Z; di_minor : Z; di_nlink : Z; di_size : Z; di_addrs : list Z }.
Definition get_dinode (d : list Z) (off : nat) : dinode :=
  mkDinode (i16 (get16 d off)) (i16 (get16 d (off + 2))) (i16 (get16 d (off + 4))) (i16 (get16 d (off + 6)))
    (get32 d (off + 8)) ((fun i => get32 d (off + 12 + 4 * i)) <$> seq 0 13).
Definition dinode_bytes (x : dinode) : list Z :=
  le_bytes 2 (di_type x mod 2 ^ 16) ++ le_bytes 2 (di_major x mod 2 ^ 16) ++ le_bytes 2 (di_minor x mod 2 ^ 16) ++
  le_bytes 2 (di_nlink x mod 2 ^ 16) ++ le_bytes 4 (u32 (di_size x)) ++
  (di_addrs x ≫= fun a => le_bytes 4 (u32 a)).
(** [(struct dinode * )bp->data + inum%IPB] *)
Definition dinode_off (inum : Z) : nat := Z.to_nat (inum mod IPB * DINODE_SIZE).

(** struct superblock at the start of a block. *)
Definition get_superblock (d : list Z) : superblock :=
  mkSuperblock (get32 d 0) (get32 d 4) (get32 d 8) (get32 d 12) (get32 d 16) (get32 d 20) (get32 d 24) (get32 d 28).

Module Fs.
Import Log.

Section fs.
Context {fuel : Fuel} {disk : Disk}.

Definition readsb (dev : Z) : K superblock :=
  let! bp := bread dev 1 in
  let! b := getb bp in
  let sb := get_superblock (b_data b) in
  brelse bp ;!
  ret sb.

Definition fsinit (dev : Z) : K unit :=
  let! sb := readsb dev in
  setfs (upd fs_sb (fun _ => sb)) ;!
  if negb (sb_magic sb =? FSMAGIC) then panic "invalid file system" else
  initlog dev sb.

Definition bzero (dev bno : Z) : K unit :=
  let! bp := bread dev bno in
  setb bp (upd b_data (fun _ => zero_block)) ;!
  log_write bp ;!
  brelse bp.

(** Bit [bi] of a bitmap block, and setting or clearing it. *)
Definition bit_test (d : list Z) (bi : Z) : bool :=
  negb (Z.land (default 0 (d !! Z.to_nat (bi / 8))) (Z.shiftl 1 (bi mod 8)) =? 0).
Definition bit_set (d : list Z) (bi : Z) : list Z :=
  alter (fun x => Z.lor x (Z.shiftl 1 (bi mod 8))) (Z.to_nat (bi / 8)) d.
Definition bit_clear (d : list Z) (bi : Z) : list Z :=
  alter (fun x => Z.land x (Z.lnot (Z.shiftl 1 (bi mod 8)))) (Z.to_nat (bi / 8)) d.

(** The inner loop of balloc: the first clear bit from [bi] among [k]. *)
Fixpoint first_clear (k : nat) (bi : Z) (d : list Z) : option Z :=
  match k with
  | O => None
  | S k => if bit_test d bi then first_clear k (bi + 1) d else Some bi
  end.
(** The outer loop: [k] bitmap blocks from block number [b] on. *)
Fixpoint balloc_loop (k : nat) (b dev : Z) : K Z :=
  match k with
  | O => printf (lit "balloc: out of blocks" ++ [10]) [] ;! ret 0
  | S k =>
      let! sb := getfs fs_sb in
      let! bp := bread dev (BBLOCK b sb) in
      let! x := getb bp in
      match first_clear (Z.to_nat (Z.min BPB (sb_size sb - b))) 0 (b_data x) with
      | Some bi =>
          setb bp (upd b_data (fun d => bit_set d bi)) ;!
          log_write bp ;!
          brelse bp ;!
          bzero dev (b + bi) ;!
          ret (b + bi)
      | None => brelse bp ;! balloc_loop k (b + BPB) dev
      end
  end.
Definition balloc (dev : Z) : K Z :=
  let! sb := getfs fs_sb in
  balloc_loop (Z.to_nat ((sb_size sb + BPB - 1) / BPB)) 0 dev.

Definition bfree (dev b : Z) : K unit :=
  let! sb := getfs fs_sb in
  let! bp := bread dev (BBLOCK b sb) in
  let bi := b mod BPB in
  let! x := getb bp in
  if negb (bit_test (b_data x) bi) then panic "freeing free block" else
  setb bp (upd b_data (fun d => bit_clear d bi)) ;!
  log_write bp ;!
  brelse bp.

(** ** Inodes *)

Definition all_inodes : list nat := seq 0 (Z.to_nat NINODE).

Definition iinit : K unit := for_list all_inodes (fun i => initsleeplock (SLinode i)).

(** The scan of iget: [inl] is a hit, [inr] the first empty entry. *)
Fixpoint iget_scan (l : list nat) (empty : option nat) (dev inum : Z) : K (nat + option nat) :=
  match l with
  | [] => ret (inr empty)
  | i :: l =>
      let! x := geti i in
      if (0 <? i_ref x) && (i_dev x =? dev) && (i_inum x =? inum) then
        seti i (upd i_ref (fun r => r + 1)) ;! ret (inl i)
      else
        let empty := if bool_decide (empty = None) && (i_ref x =? 0) then Some i else empty in
        iget_scan l empty dev inum
  end.
Definition iget (dev inum : Z) : K nat :=
  acquire Litable ;!
  let! r := iget_scan all_inodes None dev inum in
  match r with
  | inl i => release Litable ;! ret i
  | inr None => panic "iget: no inodes"
  | inr (Some i) =>
      seti i (fun x => x <| i_dev := dev |> <| i_inum := inum |> <| i_ref := 1 |> <| i_valid := 0 |>) ;!
      release Litable ;!
      ret i
  end.

(** ialloc tries [k] inodes from [inum] on. *)
Fixpoint ialloc_loop (k : nat) (inum dev type : Z) : K (option nat) :=
  match k with
  | O => printf (lit "ialloc: no inodes" ++ [10]) [] ;! ret None
  | S k =>
      let! sb := getfs fs_sb in
      let! bp := bread dev (IBLOCK inum sb) in
      let! x := getb bp in
      if get16 (b_data x) (dinode_off inum) =? 0 then
        setb bp (upd b_data (fun d => put16 (blk_put d (dinode_off inum) (replicate 64 0)) (dinode_off inum) type)) ;!
        log_write bp ;!
        brelse bp ;!
        let! i := iget dev inum in
        ret (Some i)
      else brelse bp ;! ialloc_loop k (inum + 1) dev type
  end.
Definition ialloc (dev type : Z) : K (option nat) :=
  let! sb := getfs fs_sb in
  ialloc_loop (Z.to_nat (sb_ninodes sb - 1)) 1 dev type.

Definition iupdate (ip : nat) : K unit :=
  let! x := geti ip in
  let! sb := getfs fs_sb in
  let! bp := bread (i_dev x) (IBLOCK (i_inum x) sb) in
  let! x := geti ip in
  setb bp (upd b_data (fun d => blk_put d (dinode_off (i_inum x))
    (dinode_bytes (mkDinode (i_type x) (i_major x) (i_minor x) (i_nlink x) (i_size x) (i_addrs x))))) ;!
  log_write bp ;!
  brelse bp.

Definition idup (ip : nat) : K nat :=
  acquire Litable ;!
  seti ip (upd i_ref (fun r => r + 1)) ;!
  release Litable ;!
  ret ip.

Definition ilock (ip : option nat) : K unit :=
  match ip with
  | None => panic "ilock"
  | Some i =>
      let! x := geti i in
      if i_ref x <? 1 then panic "ilock" else
      acquiresleep (SLinode i) ;!
      let! x := geti i in
      if i_valid x =? 0 then
        let! sb := getfs fs_sb in
        let! bp := bread (i_dev x) (IBLOCK (i_inum x) sb) in
        let! b := getb bp in
        let dip := get_dinode (b_data b) (dinode_off (i_inum x)) in
        seti i (fun x => x <| i_type := di_type dip |> <| i_major := di_major dip |> <| i_minor := di_minor dip |>
          <| i_nlink := di_nlink dip |> <| i_size := di_size dip |> <| i_addrs := di_addrs dip |>) ;!
        brelse bp ;!
        seti i (upd i_valid (fun _ => 1)) ;!
        let! x := geti i in
        if i_type x =? 0 then panic "ilock: no type" else ret tt
      else ret tt
  end.

Definition iunlock (ip : option nat) : K unit :=
  match ip with
  | None => panic "iunlock"
  | Some i =>
      let! h := holdingsleep (SLinode i) in
      if negb h then panic "iunlock" else
      let! x := geti i in
      if i_ref x <? 1 then panic "iunlock" else
      releasesleep (SLinode i)
  end.

(** [ip->addrs[k]] *)
Definition get_addr (ip : nat) (k : nat) : K Z :=
  let! x := geti ip in deref "addrs" (i_addrs x !! k).
Definition set_addr (ip : nat) (k : nat) (v : Z) : K unit :=
  seti ip (upd i_addrs (fun l => <[k := v]> l)).

(** An address slot of the inode, allocating a block when it is 0; 0 when
    the disk is full. *)
Definition bmap_slot (ip k : nat) : K Z :=
  let! addr := get_addr ip k in
  if addr =? 0 then
    let! x := geti ip in
    let! addr := balloc (i_dev x) in
    if addr =? 0 then ret 0 else
    set_addr ip k addr ;! ret addr
  else ret addr.
Definition bmap (ip : nat) (bn : Z) : K Z :=
  if bn <? NDIRECT then bmap_slot ip (Z.to_nat bn) else
  let bn := bn - NDIRECT in
  if bn <? NINDIRECT then
    let! addr := bmap_slot ip (Z.to_nat NDIRECT) in
    if addr =? 0 then ret 0 else
    let! x := geti ip in
    let! bp := bread (i_dev x) addr in
    let! b := getb bp in
    let addr := get32 (b_data b) (Z.to_nat (4 * bn)) in
    let! addr := (if addr =? 0 then
                    let! addr := balloc (i_dev x) in
                    when (negb (addr =? 0))
                      (setb bp (upd b_data (fun d => put32 d (Z.to_nat (4 * bn)) addr)) ;! log_write bp) ;!
                    ret addr
                  else ret addr) in
    brelse bp ;!
    ret addr
  else panic "bmap: out of range".

Definition itrunc (ip : nat) : K unit :=
  for_list (seq 0 (Z.to_nat NDIRECT)) (fun i =>
    let! a := get_addr ip i in
    when (negb (a =? 0))
      (let! x := geti ip in bfree (i_dev x) a ;! set_addr ip i 0)) ;!
  let! ind := get_addr ip (Z.to_nat NDIRECT) in
  when (negb (ind =? 0))
    (let! x := geti ip in
     let! bp := bread (i_dev x) ind in
     for_list (seq 0 (Z.to_nat NINDIRECT)) (fun j =>
       let! b := getb bp in
       let a := get32 (b_data b) (4 * j) in
       when (negb (a =? 0)) (bfree (i_dev x) a)) ;!
     brelse bp ;!
     bfree (i_dev x) ind ;!
     set_addr ip (Z.to_nat NDIRECT) 0) ;!
  seti ip (upd i_size (fun _ => 0)) ;!
  iupdate ip.

Definition iput (ip : nat) : K unit :=
  acquire Litable ;!
  let! x := geti ip in
  (if (i_ref x =? 1) && negb (i_valid x =? 0) && (i_nlink x =? 0) then
     acquiresleep (SLinode ip) ;!
     release Litable ;!
     itrunc ip ;!
     seti ip (upd i_type (fun _ => 0)) ;!
     iupdate ip ;!
     seti ip (upd i_valid (fun _ => 0)) ;!
     releasesleep (SLinode ip) ;!
     acquire Litable
   else ret tt) ;!
  seti ip (upd i_ref (fun r => r - 1)) ;!
  release Litable.

Definition iunlockput (ip : nat) : K unit := iunlock (Some ip) ;! iput ip.

(** struct stat *)
Record stat := mkStat { st_dev : Z; st_ino : Z; st_type : Z; st_nlink : Z; st_size : Z }.
Definition stati (ip : nat) : K stat :=
  let! x := geti ip in
  ret (mkStat (i_dev x) (i_inum x) (i_type x) (i_nlink x) (i_size x)).

(** Where readi copies to: user memory, kernel memory, or a local variable
    of the caller, which gets the bytes with the result. *)
Inductive dest : Type := DUser (va : Z) | DKern (pa : Z) | DLocal.
Definition dest_add (d : dest) (k : Z) : dest :=
  match d with DUser va => DUser (u64 (va + k)) | DKern pa => DKern (u64 (pa + k)) | DLocal => DLocal end.
Definition copy_to (d : dest) (bs : list Z) : K Z :=
  match d with
  | DUser va => either_copyout true va bs (Z.of_nat (length bs))
  | DKern pa => either_copyout false pa bs (Z.of_nat (length bs))
  | DLocal => ret 0
  end.

(** The loop of readi with [n - tot = left]; each round but the first and
    the last reads a whole block. *)
Fixpoint readi_loop (k : nat) (ip : nat) (dst : dest) (off left tot : Z) (acc : list Z) : K (Z * list Z) :=
  if left <=? 0 then ret (tot, acc) else
  match k with
  | O => nofuel
  | S k =>
      let! addr := bmap ip (off / BSIZE) in
      if addr =? 0 then ret (tot, acc) else
      let! x := geti ip in
      let! bp := bread (i_dev x) addr in
      let m := Z.min left (BSIZE - off mod BSIZE) in
      let! b := getb bp in
      let bs := blk_get (b_data b) (Z.to_nat (off mod BSIZE)) (Z.to_nat m) in
      let! r := copy_to dst bs in
      if r =? -1 then brelse bp ;! ret (-1, acc) else
      brelse bp ;!
      readi_loop k ip (dest_add dst m) (off + m) (left - m) (tot + m) (acc ++ bs)
  end.
Definition readi (ip : nat) (dst : dest) (off n : Z) : K (Z * list Z) :=
  let! x := geti ip in
  if (i_size x <? off) || (u32 (off + n) <? off) then ret (0, []) else
  let n := if i_size x <? u32 (off + n) then i_size x - off else n in
  readi_loop (Z.to_nat (n / BSIZE + 2)) ip dst off n 0 [].

(** Where writei copies from. *)
Inductive source : Type := SUser (va : Z) | SKern (pa : Z) | SLocal (bs : list Z).
Definition source_add (d : source) (k : Z) : source :=
  match d with
  | SUser va => SUser (u64 (va + k)) | SKern pa => SKern (u64 (pa + k)) | SLocal bs => SLocal (drop (Z.to_nat k) bs)
  end.
Definition copy_from (d : source) (n : Z) : K (Z * list Z) :=
  match d with
  | SUser va => either_copyin true va n
  | SKern pa => either_copyin false pa n
  | SLocal bs => ret (0, take (Z.to_nat n) bs)
  end.

(** The loop of writei; the result is [tot] and the final [off]. *)
Fixpoint writei_loop (k : nat) (ip : nat) (src : source) (off left tot : Z) : K (Z * Z) :=
  if left <=? 0 then ret (tot, off) else
  match k with
  | O => nofuel
  | S k =>
      let! addr := bmap ip (off / BSIZE) in
      if addr =? 0 then ret (tot, off) else
      let! x := geti ip in
      let! bp := bread (i_dev x) addr in
      let m := Z.min left (BSIZE - off mod BSIZE) in
      let! r := copy_from src m in
      setb bp (upd b_data (fun d => blk_put d (Z.to_nat (off mod BSIZE)) r.2)) ;!
      if r.1 =? -1 then brelse bp ;! ret (tot, off) else
      log_write bp ;!
      brelse bp ;!
      writei_loop k ip (source_add src m) (off + m) (left - m) (tot + m)
  end.
Definition writei (ip : nat) (src : source) (off n : Z) : K Z :=
  let! x := geti ip in
  if (i_size x <? off) || (u32 (off + n) <? off) then ret (-1) else
  if MAXFILE * BSIZE <? u32 (off + n) then ret (-1) else
  let! r := writei_loop (Z.to_nat (n / BSIZE + 2)) ip src off n 0 in
  let! x := geti ip in
  when (i_size x <? r.2) (seti ip (upd i_size (fun _ => r.2))) ;!
  iupdate ip ;!
  ret r.1.

(** ** Directories *)

Definition namecmp (s t : list Z) : K Z := deref "namecmp" (strncmp s t (Z.to_nat DIRSIZ)).

(** A directory entry: inode number and name. *)
Definition de_inum (de : list Z) : Z := get16 de 0.
Definition de_name (de : list Z) : list Z := blk_get de 2 14.

(** [k] entries from byte [off] on; the result is the inode and the offset. *)
Fixpoint dirlookup_loop (k : nat) (dp : nat) (name : list Z) (off : Z) : K (option (nat * Z)) :=
  let! x := geti dp in
  if i_size x <=? off then ret None else
  match k with
  | O => nofuel
  | S k =>
      let! r := readi dp DLocal off DIRENT_SIZE in
      if negb (r.1 =? DIRENT_SIZE) then panic "dirlookup read" else
      if de_inum r.2 =? 0 then dirlookup_loop k dp name (off + DIRENT_SIZE) else
      let! c := namecmp name (de_name r.2) in
      if c =? 0 then
        let! x := geti dp in
        let! ip := iget (i_dev x) (de_inum r.2) in
        ret (Some (ip, off))
      else dirlookup_loop k dp name (off + DIRENT_SIZE)
  end.
Definition dirlookup (dp : nat) (name : list Z) : K (option (nat * Z)) :=
  let! x := geti dp in
  if negb (i_type x =? T_DIR) then panic "dirlookup not DIR" else
  dirlookup_loop (Z.to_nat (i_size x / DIRENT_SIZE + 1)) dp name 0.

(** The offset of the first empty entry, or of the end. *)
Fixpoint dirlink_slot (k : nat) (dp : nat) (off : Z) : K Z :=
  let! x := geti dp in
  if i_size x <=? off then ret off else
  match k with
  | O => nofuel
  | S k =>
      let! r := readi dp DLocal off DIRENT_SIZE in
      if negb (r.1 =? DIRENT_SIZE) then panic "dirlink read" else
      if de_inum r.2 =? 0 then ret off else dirlink_slot k dp (off + DIRENT_SIZE)
  end.
Definition dirlink (dp : nat) (name : list Z) (inum : Z) : K Z :=
  let! r := dirlookup dp name in
  match r with
  | Some (ip, _) => iput ip ;! ret (-1)
  | None =>
      let! x := geti dp in
      let! off := dirlink_slot (Z.to_nat (i_size x / DIRENT_SIZE + 1)) dp 0 in
      let! nm := deref "strncpy" (strncpy (replicate 14 0) name (Z.to_nat DIRSIZ)) in
      let! r := writei dp (SLocal (le_bytes 2 (inum mod 2 ^ 16) ++ nm)) off DIRENT_SIZE in
      if negb (r =? DIRENT_SIZE) then ret (-1) else ret 0
  end.

(** ** Paths *)

(** A path is the list of its bytes before the NUL. *)
Fixpoint skip_slash (path : list Z) : list Z :=
  match path with c :: l => if c =? 47 then skip_slash l else path | [] => [] end.
Fixpoint take_elem (path : list Z) : list Z * list Z :=
  match path with
  | [] => ([], [])
  | c :: l => if c =? 47 then ([], path) else let r := take_elem l in (c :: r.1, r.2)
  end.
(** skipelem: the name (as strncmp reads it) and the rest of the path, or
    [None] when there is no name left. *)
Definition skipelem (path : list Z) : option (list Z * list Z) :=
  match skip_slash path with
  | [] => None
  | p =>
      let r := take_elem p in
      let name := if DIRSIZ <=? Z.of_nat (length r.1) then take (Z.to_nat DIRSIZ) r.1 else r.1 ++ [0] in
      Some (name, skip_slash r.2)
  end.

(** namex with a starting inode; every round removes an element. *)
Fixpoint namex_loop (k : nat) (ip : nat) (path : list Z) (nameiparent : bool) (name : list Z) :
    K (option nat * list Z) :=
  match skipelem path with
  | None =>
      if nameiparent then iput ip ;! ret (None, name) else ret (Some ip, name)
  | Some (name, path) =>
      match k with
      | O => nofuel
      | S k =>
          ilock (Some ip) ;!
          let! x := geti ip in
          if negb (i_type x =? T_DIR) then iunlockput ip ;! ret (None, name) else
          if nameiparent && bool_decide (path = []) then iunlock (Some ip) ;! ret (Some ip, name) else
          let! next := dirlookup ip name in
          match next with
          | None => iunlockput ip ;! ret (None, name)
          | Some (next, _) => iunlockput ip ;! namex_loop k next path nameiparent name
          end
      end
  end.
Definition namex (path : list Z) (nameiparent : bool) : K (option nat * list Z) :=
  let! ip := (match path with
              | 47 :: _ => iget ROOTDEV ROOTINO
              | _ =>
                  let! m := me in
                  let! p := getp m in
                  let! cwd := deref "cwd" (p_cwd p) in
                  idup cwd
              end) in
  namex_loop (S (length path)) ip path nameiparent [].

Definition namei (path : list Z) : K (option nat) :=
  let! r := namex path false in ret r.1.
Definition nameiparent (path : list Z) : K (option nat * list Z) := namex path true.

End fs.
End Fs.

(** ** Frames *)

Section frames.
Import Log Fs.
Context {fuel : Fuel} {disk : Disk}.
Lemma view_getfs {A} (f : fsys -> A) : frame proc_view (getfs f).
Proof. unfold getfs. segs_tac. Qed.
#[local] Hint Resolve view_getfs : segs.
Lemma view_balloc dev : frame proc_view (balloc dev).
Proof.
  unfold balloc. segs_tac. generalize 0. induction (Z.to_nat _); intros; cbn [balloc_loop]; unfold bzero; segs_tac.
Qed.
Lemma view_bfree dev b : frame proc_view (bfree dev b).
Proof. unfold bfree. segs_tac. Qed.
Lemma view_iget dev inum : frame proc_view (iget dev inum).
Proof.
  unfold iget. segs_tac. generalize (@None nat).
  induction all_inodes; intros; cbn [iget_scan]; segs_tac.
Qed.
#[local] Hint Resolve view_balloc view_bfree view_iget : segs.
Lemma view_ialloc dev type : frame proc_view (ialloc dev type).
Proof.
  unfold ialloc. segs_tac. match goal with |- context [ialloc_loop ?k ?i] => generalize k; generalize i end.
  intros i k. revert i. induction k; intros; cbn [ialloc_loop]; segs_tac.
Qed.
Lemma view_iupdate ip : frame proc_view (iupdate ip).
Proof. unfold iupdate. segs_tac. Qed.
Lemma view_idup ip : frame proc_view (Fs.idup ip).
Proof. unfold Fs.idup. segs_tac. Qed.
Lemma view_ilock ip : frame proc_view (ilock ip).
Proof. unfold ilock. segs_tac. Qed.
Lemma view_iunlock ip : frame proc_view (iunlock ip).
Proof. unfold iunlock. segs_tac. Qed.
#[local] Hint Resolve view_iupdate view_ilock view_iunlock : segs.
Lemma view_itrunc ip : frame proc_view (itrunc ip).
Proof. unfold itrunc, get_addr, set_addr. segs_tac. Qed.
#[local] Hint Resolve view_itrunc : segs.
Lemma view_iput ip : frame proc_view (Fs.iput ip).
Proof. unfold Fs.iput. segs_tac. Qed.
#[local] Hint Resolve view_iput : segs.
Lemma view_bmap ip bn : frame proc_view (bmap ip bn).
Proof. unfold bmap, bmap_slot, get_addr, set_addr. segs_tac. Qed.
#[local] Hint Resolve view_bmap : segs.
Lemma view_readi ip dst off n : frame proc_view (readi ip dst off n).
Proof.
  unfold readi.
  assert (forall k dst off left tot acc, frame proc_view (readi_loop k ip dst off left tot acc))
    by (intros k; induction k; intros; cbn [readi_loop]; unfold copy_to; segs_tac).
  segs_tac.
Qed.
Lemma view_writei ip src off n : frame proc_view (writei ip src off n).
Proof.
  unfold writei.
  assert (forall k src off left tot, frame proc_view (writei_loop k ip src off left tot))
    by (intros k; induction k; intros; cbn [writei_loop]; unfold copy_from; segs_tac).
  segs_tac.
Qed.
#[local] Hint Resolve view_readi view_writei : segs.
Lemma view_dirlookup dp name : frame proc_view (dirlookup dp name).
Proof.
  unfold dirlookup. segs_tac. generalize 0. induction (Z.to_nat _); intros; cbn [dirlookup_loop]; unfold namecmp; segs_tac.
Qed.
#[local] Hint Resolve view_dirlookup : segs.
Lemma view_dirlink dp name inum : frame proc_view (dirlink dp name inum).
Proof.
  unfold dirlink. segs_tac. generalize 0. induction (Z.to_nat _); intros; cbn [dirlink_slot]; segs_tac.
Qed.
Lemma view_namex path np : frame proc_view (namex path np).
Proof.
  unfold namex. apply segs_bind; [apply _| |].
  - pose proof view_idup. segs_tac.
  - intros ip. generalize (@nil Z). revert ip. generalize (S (length path)). intros k. revert path.
    induction k; intros; cbn [namex_loop]; unfold iunlockput; segs_tac.
Qed.
End frames.
#[export] Hint Resolve view_getfs view_balloc view_bfree view_iget view_ialloc view_iupdate view_idup view_ilock
  view_iunlock view_itrunc view_iput view_bmap view_readi view_writei view_dirlookup view_dirlink view_namex : segs.
