(* ===== verification/TxnSpec.v ===== *)
(** * File-system code inside a transaction

    Between begin_op and end_op the file system works on one logical content
    of the blocks.  [tx O L held bl F]: the state [F] has the logical content
    [L], the process holds the buffers [held], [bl] are the blocks in the log,
    and [O] is the rest (the inode table, the superblock, the disk). *)

From S2P Require Import Prelude State Spinlock CString Sched FileLayer Proc PsList Console Bio BufCache Log FsLogic BufSpec LogSpec.

Module TxnSpec.
Import BufCache FsLogic BufSpec LogSpec Log.

Notation outer_t := (list inode * superblock * list (Z * list Z))%type.

Section txn.
Context (E : env) (pid dev : Z) (Hdev : dev <> 0).
Context {fuel : Fuel} {disk : Disk} {law : DiskLaw E pid}.
Context (start size : Z).
Notation fwp := (fwp E pid).
Definition tx (O : outer_t) (L : Z -> list Z) (held : list (nat * Z)) (bl : list Z) (F : fsys) : Prop :=
  txn pid dev start size F L held bl /\ outer F = O.
(** The block may be given back without having been logged. *)
Definition clean (O : outer_t) (L : Z -> list Z) (bl : list Z) (bno : Z) : Prop := bno ∈ bl \/ L bno = block O.2 bno.

Lemma tx_ext O L L' held bl F : (forall b, L b = L' b) -> tx O L held bl F -> tx O L' held bl F.
Proof. intros HL [[] HO]. split; [|done]. split; try done. by eapply cst_ext. Qed.
Lemma tx_bread O L held bl F bno (Q : nat -> list lockid -> fsys -> Prop) : tx O L held bl F -> bno ∉ held.*2 ->
  (length held + length bl < Z.to_nat NBUF)%nat -> 0 <= bno < 2 ^ 31 ->
  (forall b F', tx O L ((b, bno) :: held) bl F' -> clean O L bl bno -> Q b [] F') -> fwp (bread dev bno) [] F Q.
Proof.
  intros [Ht HO] Hn Hroom Hr HQ. eapply (fwp_bread E pid dev Hdev F L held bl); [apply Ht|done|by right|done|].
  intros b bs' Hc. apply HQ; [split; [by eapply txn_bufs|done]|]. destruct (decide (bno ∈ bl)) as [Hi|Hi]; [by left|right].
  subst O. eapply cst_clean; [apply Ht|done|done].
Qed.
Lemma tx_getb O L held bl F b bno (Q : buf -> list lockid -> fsys -> Prop) : tx O L held bl F -> (b, bno) ∈ held ->
  (forall x, b_data x = L bno -> Q x [] F) -> fwp (getb b) [] F Q.
Proof.
  intros [Ht HO] Hin HQ. destruct (cst_get _ _ _ _ _ _ _ _ (t_cst _ _ _ _ _ _ _ _ Ht) Hin) as (x & Hx & _ & _ & Hd & _). eapply fwp_getb; [exact Hx|]. by apply HQ.
Qed.
Lemma tx_put O L held bl F b bno f (Q : unit -> list lockid -> fsys -> Prop) : tx O L held bl F -> (b, bno) ∈ held ->
  (forall F', tx O (upd_block L bno (f (L bno))) held bl F' -> Q tt [] F') -> fwp (setb b (upd b_data f)) [] F Q.
Proof.
  intros [Ht HO] Hin HQ. eapply (fwp_put E pid dev Hdev F L held bl); [apply Ht|done|]. intros bs' Hc. apply HQ. split; [by eapply txn_bufs|done].
Qed.
Lemma tx_log_write O L held bl F b bno (Q : unit -> list lockid -> fsys -> Prop) : tx O L held bl F -> (b, bno) ∈ held ->
  outside start (Z.to_nat (size - 1)) bno -> Z.of_nat (length bl) < size - 1 ->
  (forall F', tx O L held (logged bl bno) F' -> Q tt [] F') -> fwp (log_write b) [] F Q.
Proof.
  intros [Ht HO] Hin Ho Hroom HQ. eapply (fwp_log_write E pid dev Hdev start size F L held bl); [done..|]. intros F' EO Ht'. apply HQ. split; [done|congruence].
Qed.
Lemma tx_brelse O L held bl F b bno (Q : unit -> list lockid -> fsys -> Prop) : tx O L ((b, bno) :: held) bl F -> clean O L bl bno ->
  (forall F', tx O L held bl F' -> Q tt [] F') -> fwp (brelse b) [] F Q.
Proof.
  intros [Ht HO] Hc HQ. eapply (fwp_brelse E pid dev Hdev F L held bl b bno); [apply Ht|by subst O|]. intros bs' Hc'. apply HQ. split; [by eapply txn_bufs|done].
Qed.
Lemma tx_geti h O L held bl F ip x (Q : inode -> list lockid -> fsys -> Prop) : tx O L held bl F -> O.1.1 !! ip = Some x ->
  Q x h F -> fwp (geti ip) h F Q.
Proof. intros [_ <-] Hx HQ. unfold geti. apply fwp_bind, fwp_getfs. by eapply fwp_deref. Qed.
Lemma tx_seti h O L held bl F ip x f (Q : unit -> list lockid -> fsys -> Prop) : tx O L held bl F -> O.1.1 !! ip = Some x ->
  (forall F', tx (<[ip := f x]> O.1.1, O.1.2, O.2) L held bl F' -> Q tt h F') -> fwp (seti ip f) h F Q.
Proof.
  intros [Ht <-] Hx HQ. unfold seti. apply fwp_bind. eapply tx_geti; [split; [exact Ht|reflexivity]|exact Hx|]. apply fwp_setfs, HQ. split; [|done].
  destruct Ht as [[]]. split; try done. split; try done. intros i y Hi Hy. destruct (c_buf0 i y Hi Hy). by split.
Qed.
Lemma tx_sb O L held bl F (Q : superblock -> list lockid -> fsys -> Prop) : tx O L held bl F -> Q O.1.2 [] F -> fwp (getfs fs_sb) [] F Q.
Proof. intros [_ <-] HQ. by apply fwp_getfs. Qed.
End txn.
End TxnSpec.
