(* ===== verification/BlockSpec.v ===== *)
(** * Block allocation: balloc, bzero and bfree

    The layout of the disk is the log, the inode blocks, the bitmap and the
    data blocks, in this order.  A block is used if its bit in the bitmap is
    set. *)

From S2P Require Import Prelude State Spinlock CString Mem Sched FileLayer Proc PsList Console Bio BufCache Log FsLogic BufSpec LogSpec TxnSpec Fs.

Module BlockSpec.
Import BufCache FsLogic BufSpec LogSpec TxnSpec Log Fs.

(** ** Bits *)
Lemma shiftl1_bit n k : 0 <= n -> 0 <= k -> Z.testbit (Z.shiftl 1 n) k = (k =? n).
Proof. intros Hn Hk. rewrite Z.shiftl_1_l. destruct (Z.eqb_spec k n) as [->|Hne]; [by apply Z.pow2_bits_true|by apply Z.pow2_bits_false]. Qed.
Lemma land_bit x n : 0 <= n -> negb (Z.land x (Z.shiftl 1 n) =? 0) = Z.testbit x n.
Proof.
  intros Hn. destruct (Z.eqb_spec (Z.land x (Z.shiftl 1 n)) 0) as [E|E]; cbn [negb].
  - apply (f_equal (fun z => Z.testbit z n)) in E. rewrite Z.land_spec, shiftl1_bit, Z.eqb_refl, andb_true_r, Z.bits_0 in E by lia. by rewrite E.
  - destruct (Z.testbit x n) eqn:Et; [done|]. destruct E. apply Z.bits_inj'. intros k Hk. rewrite Z.land_spec, shiftl1_bit, Z.bits_0 by lia.
    destruct (Z.eqb_spec k n) as [->|]; [by rewrite Et|by rewrite andb_false_r].
Qed.
Lemma bit_test_spec d bi : 0 <= bi -> bit_test d bi = Z.testbit (default 0 (d !! Z.to_nat (bi / 8))) (bi mod 8).
Proof. intros Hb. unfold bit_test. apply land_bit. apply Z.mod_pos_bound. lia. Qed.
Lemma same_byte a b : 0 <= a -> 0 <= b -> a <> b -> Z.to_nat (a / 8) = Z.to_nat (b / 8) -> a mod 8 <> b mod 8.
Proof. intros Ha Hb Hne E Em. pose proof (Z.div_mod a 8 ltac:(lia)). pose proof (Z.div_mod b 8 ltac:(lia)). assert (a / 8 = b / 8) by (apply Z2Nat.inj; [apply Z.div_pos; lia..|done]). lia. Qed.
(** Setting or clearing a bit changes that bit only. *)
Lemma bit_set_spec d a b : 0 <= a < Z.of_nat (length d) * 8 -> 0 <= b -> bit_test (bit_set d a) b = if decide (b = a) then true else bit_test d b.
Proof.
  intros Ha Hb. rewrite !bit_test_spec by lia. unfold bit_set. pose proof (Z.mod_pos_bound a 8 ltac:(lia)). pose proof (Z.mod_pos_bound b 8 ltac:(lia)).
  destruct (decide (Z.to_nat (a / 8) = Z.to_nat (b / 8))) as [E|E].
  - rewrite <- E, list_lookup_alter_eq. destruct (lookup_lt_is_Some_2 d (Z.to_nat (a / 8))) as [x Hx].
    { pose proof (Z.div_lt_upper_bound a 8 (Z.of_nat (length d))). lia. }
    rewrite Hx. cbn. rewrite Z.lor_spec, shiftl1_bit by lia. destruct (decide (b = a)) as [->|Hne]; [by rewrite Z.eqb_refl, orb_true_r|].
    rewrite (proj2 (Z.eqb_neq _ _)), orb_false_r; [done|]. intros Em. apply (same_byte a b); [lia|lia|congruence|done|done].
  - rewrite list_lookup_alter_ne by done. rewrite decide_False by (by intros ->). done.
Qed.
Lemma bit_clear_spec d a b : 0 <= a < Z.of_nat (length d) * 8 -> 0 <= b -> bit_test (bit_clear d a) b = if decide (b = a) then false else bit_test d b.
Proof.
  intros Ha Hb. rewrite !bit_test_spec by lia. unfold bit_clear. pose proof (Z.mod_pos_bound a 8 ltac:(lia)). pose proof (Z.mod_pos_bound b 8 ltac:(lia)).
  destruct (decide (Z.to_nat (a / 8) = Z.to_nat (b / 8))) as [E|E].
  - rewrite <- E, list_lookup_alter_eq. destruct (lookup_lt_is_Some_2 d (Z.to_nat (a / 8))) as [x Hx].
    { pose proof (Z.div_lt_upper_bound a 8 (Z.of_nat (length d))). lia. }
    rewrite Hx. cbn. rewrite Z.land_spec, Z.lnot_spec, shiftl1_bit by lia. destruct (decide (b = a)) as [->|Hne]; [by rewrite Z.eqb_refl, andb_false_r|].
    rewrite (proj2 (Z.eqb_neq _ _)), andb_true_r; [done|]. intros Em. apply (same_byte a b); [lia|lia|congruence|done|done].
  - rewrite list_lookup_alter_ne by done. rewrite decide_False by (by intros ->). done.
Qed.
Lemma first_clear_some k : forall bi d r, first_clear k bi d = Some r -> bi <= r < bi + Z.of_nat k /\ bit_test d r = false.
Proof.
  induction k as [|k IH]; intros bi d r; cbn [first_clear]; [done|]. destruct (bit_test d bi) eqn:E.
  - intros [H1 H2]%IH. split; [lia|done].
  - intros [= <-]. split; [lia|done].
Qed.
Lemma first_clear_none k : forall bi d r, first_clear k bi d = None -> bi <= r < bi + Z.of_nat k -> bit_test d r = true.
Proof.
  induction k as [|k IH]; intros bi d r; cbn [first_clear]; [lia|]. destruct (bit_test d bi) eqn:E; [|done]. intros H Hr.
  destruct (decide (r = bi)) as [->|]; [done|]. apply (IH (bi + 1)); [done|lia].
Qed.

(** ** The layout *)
(** The blocks of the log, the inodes, the bitmap and the data follow each
    other; the data begin at [data0]. *)
Record layout (sb : superblock) (start size data0 : Z) : Prop := {
  lay_log : 0 <= start /\ 0 < size /\ start + size <= sb_inodestart sb;
  lay_inodes : 0 < sb_ninodes sb /\ sb_inodestart sb + (sb_ninodes sb - 1) / IPB < sb_bmapstart sb;
  lay_bmap : sb_bmapstart sb + (sb_size sb - 1) / BPB < data0;
  lay_size : 0 < data0 < sb_size sb /\ sb_size sb < 2 ^ 31 }.
Definition sized (sb : superblock) (L : Z -> list Z) : Prop := forall b, sb_inodestart sb <= b -> length (L b) = 1024%nat.
Definition used (sb : superblock) (L : Z -> list Z) (b : Z) : bool := bit_test (L (BBLOCK b sb)) (b mod BPB).
(** What balloc does to the blocks when it returns block [b], and bfree. *)
Definition balloced (sb : superblock) (L : Z -> list Z) (b : Z) : Z -> list Z :=
  upd_block (upd_block L (BBLOCK b sb) (bit_set (L (BBLOCK b sb)) (b mod BPB))) b zero_block.
Definition bfreed (sb : superblock) (L : Z -> list Z) (b : Z) : Z -> list Z :=
  upd_block L (BBLOCK b sb) (bit_clear (L (BBLOCK b sb)) (b mod BPB)).

Lemma upd_block_ne L b d c : c <> b -> upd_block L b d c = L c.
Proof. intros H. unfold upd_block. by rewrite (proj2 (Z.eqb_neq _ _) H). Qed.
Lemma sized_upd sb L b d : sized sb L -> length d = 1024%nat -> sized sb (upd_block L b d).
Proof. intros HL Hd c Hc. unfold upd_block. case_match; [done|by apply HL]. Qed.
Lemma length_bit_set d a : length (bit_set d a) = length d.
Proof. apply length_alter. Qed.
Lemma length_bit_clear d a : length (bit_clear d a) = length d.
Proof. apply length_alter. Qed.
Lemma elem_of_logged bl b c : c ∈ logged bl b <-> c = b \/ c ∈ bl.
Proof. unfold logged. case_decide; set_solver. Qed.

Section layout.
Context (sb : superblock) (start size data0 : Z) (Hlay : layout sb start size data0).
Notation sized := (sized sb).
Lemma BPB_div b : 0 <= b < sb_size sb -> 0 <= b / BPB <= (sb_size sb - 1) / BPB.
Proof. intros Hb. split; [apply Z.div_pos; unfold BPB, BSIZE; lia|apply Z.div_le_mono; unfold BPB, BSIZE; lia]. Qed.
Lemma BPB_mod b : 0 <= b mod BPB < 8192.
Proof. apply (Z.mod_pos_bound b 8192). lia. Qed.
Lemma lay_inode_blocks i : 0 <= i < sb_ninodes sb -> 0 <= i / IPB /\ sb_inodestart sb + i / IPB < sb_bmapstart sb.
Proof.
  intros Hi. destruct Hlay. assert (0 < IPB) by done. assert (i / IPB <= (sb_ninodes sb - 1) / IPB) by (apply Z.div_le_mono; lia).
  split; [apply Z.div_pos; lia|lia].
Qed.
Lemma lay_order : 0 <= start /\ 0 < size /\ start + size <= sb_inodestart sb < sb_bmapstart sb /\ sb_bmapstart sb < data0 /\ data0 < sb_size sb < 2 ^ 31.
Proof. destruct Hlay. destruct (lay_inode_blocks 0); [lia|]. destruct (BPB_div 0); [lia|]. lia. Qed.
Lemma BBLOCK_eq b : 0 <= b < sb_size sb -> BBLOCK b sb = b / BPB + sb_bmapstart sb.
Proof. intros Hb. pose proof (BPB_div b Hb). pose proof lay_order. destruct Hlay. unfold BBLOCK. apply u32_small. lia. Qed.
Lemma BBLOCK_range b : 0 <= b < sb_size sb -> sb_bmapstart sb <= BBLOCK b sb < data0.
Proof. intros Hb. rewrite BBLOCK_eq by done. pose proof (BPB_div b Hb). destruct Hlay. lia. Qed.
Lemma BBLOCK_mod b c : 0 <= b < sb_size sb -> 0 <= c < sb_size sb -> BBLOCK b sb = BBLOCK c sb -> b mod BPB = c mod BPB -> b = c.
Proof.
  intros Hb Hc. rewrite !BBLOCK_eq by done. intros. rewrite (Z.div_mod b BPB), (Z.div_mod c BPB) by done. lia.
Qed.
Lemma lay_outside b : sb_inodestart sb <= b < sb_size sb -> outside start (Z.to_nat (size - 1)) b.
Proof. intros Hb. pose proof lay_order. red. lia. Qed.

Lemma used_balloced L b c : sized L -> data0 <= b < sb_size sb -> 0 <= c < sb_size sb ->
  used sb (balloced sb L b) c = if decide (c = b) then true else used sb L c.
Proof.
  intros HL Hb Hc. pose proof lay_order. unfold used, balloced. pose proof (BBLOCK_range c Hc). rewrite upd_block_ne by lia.
  destruct (decide (BBLOCK c sb = BBLOCK b sb)) as [E|E].
  - rewrite E, upd_block_eq, bit_set_spec; [|rewrite HL by lia; pose proof (BPB_mod b); lia|pose proof (BPB_mod c); lia].
    destruct (decide (c = b)) as [->|Hne]; [by rewrite decide_True|]. rewrite decide_False; [done|]. intros Em. apply Hne, BBLOCK_mod; [done|lia|done..].
  - rewrite upd_block_ne by done. rewrite decide_False by (by intros ->). done.
Qed.
Lemma used_bfreed L b c : sized L -> data0 <= b < sb_size sb -> 0 <= c < sb_size sb ->
  used sb (bfreed sb L b) c = if decide (c = b) then false else used sb L c.
Proof.
  intros HL Hb Hc. pose proof lay_order. unfold used, bfreed. pose proof (BBLOCK_range c Hc).
  destruct (decide (BBLOCK c sb = BBLOCK b sb)) as [E|E].
  - rewrite E, upd_block_eq, bit_clear_spec; [|rewrite HL by lia; pose proof (BPB_mod b); lia|pose proof (BPB_mod c); lia].
    destruct (decide (c = b)) as [->|Hne]; [by rewrite decide_True|]. rewrite decide_False; [done|]. intros Em. apply Hne, BBLOCK_mod; [done|lia|done..].
  - rewrite upd_block_ne by done. rewrite decide_False by (by intros ->). done.
Qed.
(** A data block other than the new one keeps its content. *)
Lemma balloced_data L b c : data0 <= b < sb_size sb -> data0 <= c -> c <> b -> balloced sb L b c = L c.
Proof.
  intros Hb Hc Hne. unfold balloced. rewrite upd_block_ne by done. apply upd_block_ne. pose proof lay_order. pose proof (BBLOCK_range b). lia.
Qed.
Lemma balloced_new L b : balloced sb L b b = zero_block.
Proof. apply upd_block_eq. Qed.
Lemma balloced_inodes L b c : data0 <= b < sb_size sb -> c < sb_bmapstart sb -> balloced sb L b c = L c.
Proof.
  intros Hb Hc. pose proof lay_order. pose proof (BBLOCK_range b). unfold balloced. rewrite !upd_block_ne by lia. done.
Qed.
Lemma sized_balloced L b : sized L -> 0 <= b < sb_size sb -> sized (balloced sb L b).
Proof.
  intros HL Hb. pose proof lay_order. pose proof (BBLOCK_range b Hb). apply sized_upd; [|done]. apply sized_upd; [done|]. rewrite length_bit_set. apply HL. lia.
Qed.
Lemma sized_bfreed L b : sized L -> 0 <= b < sb_size sb -> sized (bfreed sb L b).
Proof. intros HL Hb. pose proof lay_order. pose proof (BBLOCK_range b Hb). apply sized_upd; [done|]. rewrite length_bit_clear. apply HL. lia. Qed.
End layout.

(** ** The operations *)
Section ops.
Context (E : env) (pid dev : Z) (Hdev : dev <> 0).
Context {fuel : Fuel} {disk : Disk} {law : DiskLaw E pid}.
Context (sb : superblock) (start size data0 : Z) (Hlay : layout sb start size data0).
Notation fwp := (fwp E pid).
Notation tx := (tx pid dev start size).
Notation sized := (sized sb).

(** A held buffer is changed and logged: the block has the new content and is
    in the log. *)
Lemma tx_update {A} O L held bl F b bno f (m : K A) (Q : A -> list lockid -> fsys -> Prop) :
  tx O L held bl F -> (b, bno) ∈ held -> outside start (Z.to_nat (size - 1)) bno -> Z.of_nat (length bl) < size - 1 ->
  (forall F', tx O (upd_block L bno (f (L bno))) held (logged bl bno) F' -> fwp m [] F' Q) ->
  fwp (setb b (upd b_data f) ;! log_write b ;! m) [] F Q.
Proof.
  intros Ht Hin Ho Hroom HQ. apply fwp_bind. eapply tx_put; [exact Hdev|exact Ht|exact Hin|]. intros F1 H1. apply fwp_bind.
  eapply tx_log_write; [exact Hdev|exact law|exact H1|exact Hin|done|done|]. done.
Qed.
Lemma tx_brelse_logged O L held bl F b bno (Q : unit -> list lockid -> fsys -> Prop) : tx O L ((b, bno) :: held) (logged bl bno) F ->
  (forall F', tx O L held (logged bl bno) F' -> Q tt [] F') -> fwp (brelse b) [] F Q.
Proof. intros Ht HQ. eapply tx_brelse; [exact Hdev|exact Ht|left; apply elem_of_logged; by left|done]. Qed.
Lemma fwp_bzero O L held bl F bno (Q : unit -> list lockid -> fsys -> Prop) :
  tx O L held bl F -> bno ∉ held.*2 -> (length held + length bl < Z.to_nat NBUF)%nat -> outside start (Z.to_nat (size - 1)) bno -> Z.of_nat (length bl) < size - 1 ->
  (forall F', tx O (upd_block L bno zero_block) held (logged bl bno) F' -> Q tt [] F') -> fwp (bzero dev bno) [] F Q.
Proof.
  intros Ht Hn Hl Ho Hroom HQ. unfold bzero. apply fwp_bind. eapply tx_bread; [exact Hdev|exact law|exact Ht|done|done|apply Ho|]. intros b F1 H1 _.
  eapply (tx_update _ _ _ _ _ _ _ (fun _ => zero_block)); [exact H1|left|done..|]. intros F2 H2. by eapply tx_brelse_logged.
Qed.

Definition free (L : Z -> list Z) (b : Z) : Prop := data0 <= b < sb_size sb /\ used sb L b = false.
(** The blocks below the data are never free, and those held are in use. *)
Definition meta_used (L : Z -> list Z) : Prop := forall b, 0 <= b < data0 -> used sb L b = true.
Definition held_used (L : Z -> list Z) (held : list (nat * Z)) : Prop :=
  (length held <= 1)%nat /\ forall bno, bno ∈ held.*2 -> data0 <= bno < sb_size sb /\ used sb L bno = true.
(** The log has room for [n] more blocks, and so has the cache, which pins the
    blocks in the log and in which up to two more are in use. *)
Definition room (bl : list Z) (n : Z) : Prop := Z.of_nat (length bl) + n <= Z.min (size - 1) (NBUF - 2).

Lemma meta_not_held L held b : held_used L held -> b < data0 -> b ∉ held.*2.
Proof. intros [_ H] Hb Hin%H. lia. Qed.
Lemma room_logged bl b n : room bl (1 + n) -> room (logged bl b) n.
Proof. unfold room. pose proof (logged_length bl b). lia. Qed.
Lemma room_buf bl n L held : room bl n -> 0 <= n -> held_used L held -> (length held + length bl < Z.to_nat NBUF)%nat.
Proof. unfold room. intros Hr Hn [Hh _]. unfold NBUF, MAXOPBLOCKS in *. lia. Qed.

Lemma fwp_balloc_loop k : forall b O L held bl F (Q : Z -> list lockid -> fsys -> Prop),
  tx O L held bl F -> O.1.2 = sb -> sized L -> meta_used L -> held_used L held -> room bl 2 ->
  (BPB | b) -> 0 <= b -> (exists c, free L c /\ b <= c < b + Z.of_nat k * BPB) ->
  (forall c F', free L c -> tx O (balloced sb L c) held (logged (logged bl (BBLOCK c sb)) c) F' -> Q c [] F') ->
  fwp (balloc_loop k b dev) [] F Q.
Proof.
  induction k as [|k IH]; intros b O L held bl F Q Ht Hsb HL Hm Hh Hroom Hdiv Hb Hfree HQ; [destruct Hfree as (c & _ & Hc); lia|].
  assert (HBPB : BPB = 8192) by done. pose proof (lay_order sb start size data0 Hlay) as Hord. cbn [balloc_loop]. apply fwp_bind. eapply tx_sb; [exact Ht|]. rewrite Hsb.
  destruct Hfree as (c & [Hcr Hcu] & Hc). assert (Hbs : 0 <= b < sb_size sb) by lia.
  pose proof (BBLOCK_range _ _ _ _ Hlay b Hbs) as HB. apply fwp_bind. eapply tx_bread; [exact Hdev|exact law|exact Ht|by eapply meta_not_held; [|lia]|by eapply room_buf; [done| |done]|lia|].
  intros bp F1 H1 Hcl. apply fwp_bind. eapply tx_getb; [exact H1|left|]. intros x Ex. rewrite Ex.
  (* the block numbers of this bitmap block *)
  destruct Hdiv as [j Ej]. assert (Hin : forall bi, 0 <= bi < BPB -> (b + bi) mod BPB = bi /\ (b + bi) / BPB = b / BPB).
  { intros bi Hbi. subst b. rewrite Z.add_comm, Z_mod_plus_full, Z.mod_small, Z.div_add, Z.div_small, Z.div_mul by (done || lia). lia. }
  assert (Hsame : forall bi, 0 <= bi < Z.min BPB (sb_size sb - b) -> used sb L (b + bi) = bit_test (L (BBLOCK b sb)) bi /\ BBLOCK (b + bi) sb = BBLOCK b sb).
  { intros bi Hbi. destruct (Hin bi) as [E1 E2]; [lia|]. unfold used. rewrite E1. assert (BBLOCK (b + bi) sb = BBLOCK b sb) as -> by (unfold BBLOCK; by rewrite E2). done. }
  destruct (first_clear _ 0 _) as [bi|] eqn:Ef.
  - apply first_clear_some in Ef as [Hbi Hclr]. rewrite Z.add_0_l, Z2Nat.id in Hbi by lia. destruct (Hsame bi Hbi) as [Hu HBB]. rewrite Hclr in Hu.
    assert (Hfr : free L (b + bi)). { split; [|done]. destruct (decide (b + bi < data0)); [|lia]. rewrite Hm in Hu by lia. done. }
    eapply (tx_update _ _ _ _ _ _ _ (fun d => bit_set d bi)); [exact H1|left|apply (lay_outside _ _ _ _ Hlay); lia|unfold room in Hroom; lia|].
    intros F1' H1'. apply fwp_bind. eapply tx_brelse_logged; [exact H1'|]. intros F2 H2. apply fwp_bind. pose proof (room_logged bl (BBLOCK b sb) 1 Hroom) as Hr2.
    eapply fwp_bzero; [exact H2| |by eapply room_buf; [exact Hr2|lia|exact Hh]|apply (lay_outside _ _ _ _ Hlay); destruct Hfr; lia|unfold room in Hr2; lia|].
    { intros Hi%Hh. destruct Hfr, Hi. congruence. }
    intros F3 H3. apply fwp_ret, HQ; [done|]. unfold balloced. destruct (Hin bi) as [-> _]; [lia|]. by rewrite HBB.
  - apply fwp_bind. eapply tx_brelse; [exact Hdev|exact H1|exact Hcl|]. intros F2 H2. eapply IH; [exact H2|done..| |lia| |done].
    + exists (j + 1). lia.
    + exists c. split; [done|]. split; [|lia]. destruct (decide (b + BPB <= c)); [done|]. exfalso.
      destruct (Hsame (c - b)) as [Hu _]; [lia|]. replace (b + (c - b)) with c in Hu by lia. rewrite (first_clear_none _ _ _ (c - b) Ef) in Hu by lia. congruence.
Qed.
(** If there is a free block, balloc returns one: it was free, its bit is now
    set, and it is zero. *)
Lemma fwp_balloc O L held bl F (Q : Z -> list lockid -> fsys -> Prop) :
  tx O L held bl F -> O.1.2 = sb -> sized L -> meta_used L -> held_used L held -> room bl 2 -> (exists c, free L c) ->
  (forall c F', free L c -> tx O (balloced sb L c) held (logged (logged bl (BBLOCK c sb)) c) F' -> Q c [] F') ->
  fwp (balloc dev) [] F Q.
Proof.
  intros Ht Hsb HL Hm Hh Hroom [c Hc] HQ. unfold balloc. apply fwp_bind. eapply tx_sb; [exact Ht|]. rewrite Hsb.
  eapply fwp_balloc_loop; [exact Ht|done..|exists 0; done|lia| |exact HQ]. exists c. split; [done|]. destruct Hc as [Hc _].
  pose proof (lay_order _ _ _ _ Hlay). assert (0 < BPB) by done. pose proof (Z.div_mod (sb_size sb + BPB - 1) BPB ltac:(lia)).
  pose proof (Z.mod_pos_bound (sb_size sb + BPB - 1) BPB ltac:(lia)). pose proof (Z.div_pos (sb_size sb + BPB - 1) BPB). lia.
Qed.
Lemma fwp_bfree O L held bl F b (Q : unit -> list lockid -> fsys -> Prop) :
  tx O L held bl F -> O.1.2 = sb -> held_used L held -> room bl 1 -> data0 <= b < sb_size sb -> used sb L b = true ->
  (forall F', tx O (bfreed sb L b) held (logged bl (BBLOCK b sb)) F' -> Q tt [] F') -> fwp (bfree dev b) [] F Q.
Proof.
  intros Ht Hsb Hh Hroom Hb Hu HQ. pose proof (lay_order _ _ _ _ Hlay). pose proof (BBLOCK_range _ _ _ _ Hlay b ltac:(lia)) as HB.
  unfold bfree. apply fwp_bind. eapply tx_sb; [exact Ht|]. rewrite Hsb. apply fwp_bind.
  eapply tx_bread; [exact Hdev|exact law|exact Ht|by eapply meta_not_held; [|lia]|by eapply room_buf; [done| |done]|lia|].
  intros bp F1 H1 _. apply fwp_bind. eapply tx_getb; [exact H1|left|]. intros x Ex. rewrite Ex. fold (used sb L b). rewrite Hu. cbn [negb].
  eapply (tx_update _ _ _ _ _ _ _ (fun d => bit_clear d (b mod BPB))); [exact H1|left|apply (lay_outside _ _ _ _ Hlay); lia|unfold room in Hroom; lia|].
  intros F2 H2. by eapply tx_brelse_logged.
Qed.
End ops.
End BlockSpec.
