(* ===== verification/FileSpec.v ===== *)
(** * The blocks of a file

    A file is the 13 addresses of its inode: twelve blocks, and a block with
    256 further addresses.  Here are the content of a file as a function of
    the disk, what makes the addresses of a file well formed, and the steps
    by which a file takes a free block. *)

From S2P Require Import Prelude State Spinlock CString Mem Sched FileLayer Proc PsList Console Bio BufCache Log FsLogic BufSpec LogSpec TxnSpec Fs BlockSpec.

Module FileSpec.
Import BufCache FsLogic BufSpec LogSpec TxnSpec BlockSpec Log Fs.

(** The addresses in order: the twelve direct ones, that of the indirect
    block, and those in the indirect block. *)
Definition NSLOT : Z := NDIRECT + 1 + NINDIRECT.
Definition entry (d : list Z) (j : Z) : Z := get32 d (Z.to_nat (4 * j)).
Definition slot (L : Z -> list Z) (ad : list Z) (i : Z) : Z :=
  if i <=? NDIRECT then default 0 (ad !! Z.to_nat i)
  else let ind := default 0 (ad !! Z.to_nat NDIRECT) in if ind =? 0 then 0 else entry (L ind) (i - NDIRECT - 1).
(** The slot of the file's block [bn]. *)
Definition place (bn : Z) : Z := if bn <? NDIRECT then bn else bn + 1.
Definition fblock (L : Z -> list Z) (ad : list Z) (bn : Z) : list Z :=
  if slot L ad (place bn) =? 0 then zero_block else L (slot L ad (place bn)).
(** The byte at position [p]. *)
Definition fbyte (L : Z -> list Z) (ad : list Z) (p : Z) : Z := default 0 (fblock L ad (p / BSIZE) !! Z.to_nat (p mod BSIZE)).

Lemma place_range bn : 0 <= bn < MAXFILE -> 0 <= place bn < NSLOT /\ place bn <> NDIRECT.
Proof. unfold place, MAXFILE, NSLOT, NDIRECT. change NINDIRECT with 256. case_match; lia. Qed.
Lemma place_inj bn bn' : place bn = place bn' -> bn = bn'.
Proof. unfold place. repeat case_match; lia. Qed.

Lemma filter_notin (c : Z) (fs : list Z) : c ∉ fs -> filter (fun b => b <> c) fs = fs.
Proof. induction fs as [|b fs IH]; intros Hc; [done|]. rewrite filter_cons. case_decide; [f_equal; apply IH; set_solver|set_solver]. Qed.

Section file.
Context (sb : superblock) (start size data0 : Z) (Hlay : layout sb start size data0).
Notation used := (used sb).
Notation free := (free sb data0).
Notation meta_used := (meta_used sb data0).

(** The addresses are of data blocks in use, each once. *)
Record file_ok (L : Z -> list Z) (ad : list Z) : Prop := {
  f_len : length ad = 13%nat;
  f_data : forall i, 0 <= i < NSLOT -> slot L ad i <> 0 -> data0 <= slot L ad i < sb_size sb /\ used L (slot L ad i) = true;
  f_inj : forall i j, 0 <= i < NSLOT -> 0 <= j < NSLOT -> slot L ad i <> 0 -> slot L ad i = slot L ad j -> i = j }.
Definition owns (L : Z -> list Z) (ad : list Z) (c : Z) : Prop := exists i, 0 <= i < NSLOT /\ slot L ad i <> 0 /\ slot L ad i = c.
Definition disk_ok (L : Z -> list Z) : Prop := sized sb L /\ meta_used L.
(** At least [n] blocks are free. *)
Definition avail (L : Z -> list Z) (n : nat) : Prop := exists fs, NoDup fs /\ (n <= length fs)%nat /\ forall c, c ∈ fs -> free L c.

(** What the indirect block may still cost in the log: its bitmap block and
    itself. *)
Definition ipot (ad : list Z) (bl : list Z) : Z := if decide (default 0 (ad !! 12%nat) <> 0 /\ default 0 (ad !! 12%nat) ∈ bl) then 0 else 2.
Definition cost (ad : list Z) (bl : list Z) : Z := Z.of_nat (length bl) + ipot ad bl.

(** The file [ad] on [L] has become [ad'] on [L'], with at most [n] more
    blocks in the log, and nothing but the file's blocks, free blocks and
    the bitmap has changed. *)
Record ext (n : Z) (L : Z -> list Z) (ad bl : list Z) (L' : Z -> list Z) (ad' bl' : list Z) : Prop := {
  e_slot : forall i, 0 <= i < NSLOT -> slot L' ad' i = slot L ad i \/ slot L ad i = 0 /\ free L (slot L' ad' i);
  e_used : forall c, data0 <= c < sb_size sb -> used L c = true -> used L' c = true;
  e_frame : forall c, c < sb_bmapstart sb \/ data0 <= c -> ~ free L c -> ~ owns L ad c -> L' c = L c;
  e_sub : bl ⊆ bl';
  e_cost : cost ad' bl' <= cost ad bl + n }.

Lemma ipot_bound ad bl : 0 <= ipot ad bl <= 2.
Proof. unfold ipot. case_decide; lia. Qed.
Lemma ext_refl L ad bl : ext 0 L ad bl L ad bl.
Proof. split; [by left|done|done|done|lia]. Qed.
Lemma ext_weaken n m L ad bl L' ad' bl' : ext n L ad bl L' ad' bl' -> n <= m -> ext m L ad bl L' ad' bl'.
Proof. intros [] Hnm. split; try done. lia. Qed.
Lemma free_unused L L' c : (forall c, data0 <= c < sb_size sb -> used L c = true -> used L' c = true) -> free L' c -> free L c.
Proof. intros Hu [Hr Hf]. split; [done|]. destruct (used L c) eqn:E; [|done]. rewrite Hu in Hf; done. Qed.
Lemma free_nz L c : free L c -> c <> 0.
Proof. intros [Hr _]. pose proof (lay_order _ _ _ _ Hlay). lia. Qed.
Lemma ext_keep n L ad bl L' ad' bl' i : ext n L ad bl L' ad' bl' -> 0 <= i < NSLOT -> slot L ad i <> 0 -> slot L' ad' i = slot L ad i.
Proof. intros He Hi Hne. destruct (e_slot _ _ _ _ _ _ _ He i Hi) as [|[? _]]; done. Qed.
Lemma ext_owns n L ad bl L' ad' bl' c : ext n L ad bl L' ad' bl' -> owns L' ad' c -> owns L ad c \/ free L c.
Proof.
  intros He (i & Hi & Hne & <-). destruct (e_slot _ _ _ _ _ _ _ He i Hi) as [E|[_ Hf]]; [|by right]. left. exists i. rewrite <- E. done.
Qed.
Lemma ext_trans n m L ad bl L1 ad1 bl1 L2 ad2 bl2 : ext n L ad bl L1 ad1 bl1 -> ext m L1 ad1 bl1 L2 ad2 bl2 -> ext (n + m) L ad bl L2 ad2 bl2.
Proof.
  intros H1 H2. pose proof (free_unused L L1) as Hfu. split.
  - intros i Hi. destruct (e_slot _ _ _ _ _ _ _ H1 i Hi) as [E1|[E1 F1]], (e_slot _ _ _ _ _ _ _ H2 i Hi) as [E2|[E2 F2]].
    + left. congruence.
    + right. split; [congruence|]. apply Hfu; [apply H1|done].
    + right. split; [done|]. by rewrite E2.
    + destruct (free_nz _ _ F1). done.
  - intros c Hc Hu. apply H2; [done|]. by apply H1.
  - intros c Hc Hf Ho. rewrite (e_frame _ _ _ _ _ _ _ H2); [by apply H1|done| |].
    + intros H. apply Hf, Hfu; [apply H1|done].
    + intros H. destruct (ext_owns _ _ _ _ _ _ _ _ H1 H); done.
  - etrans; [apply H1|apply H2].
  - pose proof (e_cost _ _ _ _ _ _ _ H1). pose proof (e_cost _ _ _ _ _ _ _ H2). lia.
Qed.
Lemma avail_alloc L L' c n : free L c -> (forall b, 0 <= b < sb_size sb -> used L' b = if decide (b = c) then true else used L b) -> avail L (S n) -> avail L' n.
Proof.
  intros Hc Hu (fs & Hnd & Hlen & Hfs). exists (filter (fun b => b <> c) fs). split; [by apply NoDup_filter|]. split.
  - clear Hfs. revert n Hlen. induction Hnd as [|b fs Hb Hnd IH]; intros n Hlen; simpl in *; [lia|]. rewrite filter_cons. case_decide as Hd.
    + destruct n; simpl; [lia|]. specialize (IH n). lia.
    + subst b. rewrite filter_notin by done. lia.
  - intros b [Hne Hb]%list_elem_of_filter. destruct (Hfs b Hb) as [Hr Hf]. split; [done|]. pose proof (lay_order _ _ _ _ Hlay). rewrite Hu by lia. by rewrite decide_False.
Qed.

(** ** Taking a block *)
(** A file takes the free block [c] in slot [k]. *)
Section grow.
Context (L : Z -> list Z) (ad : list Z) (c k : Z) (L' : Z -> list Z) (ad' : list Z).
Record grows : Prop := {
  g_free : free L c;
  g_k : 0 <= k < NSLOT;
  g_empty : slot L ad k = 0;
  g_len : length ad' = 13%nat;
  g_slot : forall i, 0 <= i < NSLOT -> slot L' ad' i = if decide (i = k) then c else slot L ad i;
  g_used : forall b, 0 <= b < sb_size sb -> used L' b = if decide (b = c) then true else used L b;
  g_zero : k <> NDIRECT -> L' c = zero_block;
  g_same : forall b, b < sb_bmapstart sb \/ data0 <= b -> b <> c -> ~ (b <> 0 /\ b = slot L ad NDIRECT) -> L' b = L b }.
Context (Hok : file_ok L ad) (Hg : grows).

Lemma grow_old i : 0 <= i < NSLOT -> slot L ad i <> c.
Proof.
  intros Hi E. destruct (g_free Hg) as [Hr Hf]. pose proof (free_nz L c (g_free Hg)). destruct (f_data _ _ Hok i Hi); congruence.
Qed.
Lemma grow_ok : file_ok L' ad'.
Proof.
  pose proof (lay_order _ _ _ _ Hlay) as Hord. destruct (g_free Hg) as [Hr Hf]. split; [apply Hg|..].
  - intros i Hi. rewrite (g_slot Hg) by done. case_decide as Hk; intros Hne.
    + split; [done|]. rewrite (g_used Hg) by lia. by rewrite decide_True.
    + destruct (f_data _ _ Hok i Hi Hne) as [Hs Hu]. split; [done|]. rewrite (g_used Hg) by lia. by case_decide.
  - intros i j Hi Hj. rewrite !(g_slot Hg) by done. pose proof (grow_old i Hi). pose proof (grow_old j Hj).
    repeat case_decide; intros; try congruence. by apply (f_inj _ _ Hok).
Qed.
Lemma grow_fblock bn : 0 <= bn < MAXFILE -> fblock L' ad' bn = fblock L ad bn.
Proof.
  intros Hbn. destruct (place_range bn Hbn) as [Hp Hp']. unfold fblock. rewrite (g_slot Hg) by done. case_decide as Hk.
  - rewrite Hk, (g_empty Hg), (proj2 (Z.eqb_neq _ _) (free_nz _ _ (g_free Hg))). apply (g_zero Hg). congruence.
  - destruct (Z.eqb_spec (slot L ad (place bn)) 0) as [|Hne]; [done|]. destruct (f_data _ _ Hok _ Hp Hne) as [Hr _].
    apply (g_same Hg); [lia|by apply grow_old|]. intros [_ E]. apply Hp', (f_inj _ _ Hok); [done|done|done|done].
Qed.
Lemma grow_ext n bl bl' : bl ⊆ bl' -> cost ad' bl' <= cost ad bl + n -> ext n L ad bl L' ad' bl'.
Proof.
  intros Hsub Hcost. split; [..|done|done].
  - intros i Hi. rewrite (g_slot Hg) by done. case_decide as Hk; [|by left]. right. subst i. split; [apply Hg|apply Hg].
  - intros b Hb Hu. pose proof (lay_order _ _ _ _ Hlay). rewrite (g_used Hg) by lia. by case_decide.
  - intros b Hb Hf Ho. apply (g_same Hg); [done|intros ->; apply Hf, Hg|]. intros [Hne ->]. apply Ho. by exists NDIRECT.
Qed.
End grow.

Lemma entry_zero j : 0 <= j < NINDIRECT -> entry zero_block j = 0.
Proof.
  intros Hj. unfold entry, get32, blk_get, zero_block. rewrite drop_replicate, take_replicate. change NINDIRECT with 256 in Hj.
  replace (Nat.min 4 (1024 - Z.to_nat (4 * j))) with 4%nat by lia. reflexivity.
Qed.
Lemma entry_put d j j' v : length d = 1024%nat -> 0 <= j < NINDIRECT -> 0 <= j' < NINDIRECT -> 0 <= v < 2 ^ 32 ->
  entry (put32 d (Z.to_nat (4 * j)) v) j' = if decide (j' = j) then v else entry d j'.
Proof.
  change NINDIRECT with 256. intros Hd Hj Hj' Hv. unfold entry. case_decide as Hjj.
  - subst j'. rewrite get32_put32 by lia. by apply u32_small.
  - apply get32_put32_ne; lia.
Qed.
Lemma slot_direct L ad i : 0 <= i <= NDIRECT -> slot L ad i = default 0 (ad !! Z.to_nat i).
Proof. intros Hi. unfold slot. rewrite (proj2 (Z.leb_le _ _)); [done|lia]. Qed.
Lemma slot_indirect L ad i : NDIRECT < i -> slot L ad i = if slot L ad NDIRECT =? 0 then 0 else entry (L (slot L ad NDIRECT)) (i - NDIRECT - 1).
Proof. intros Hi. unfold slot at 1. rewrite (proj2 (Z.leb_gt _ _)) by lia. rewrite (slot_direct _ _ NDIRECT) by (unfold NDIRECT; lia). done. Qed.
Lemma used_upd_data L a d b : data0 <= a -> 0 <= b < sb_size sb -> used (upd_block L a d) b = used L b.
Proof. intros Ha Hb. unfold BlockSpec.used. pose proof (BBLOCK_range _ _ _ _ Hlay b Hb). by rewrite upd_block_ne by lia. Qed.

Lemma grows_slot L ad c k : disk_ok L -> file_ok L ad -> free L c -> 0 <= k <= NDIRECT -> slot L ad k = 0 ->
  grows L ad c k (balloced sb L c) (<[Z.to_nat k := c]> ad).
Proof.
  intros [HL Hm] Hok Hc Hk H0. pose proof (lay_order _ _ _ _ Hlay) as Hord. pose proof Hc as [Hr Hu]. pose proof (f_len _ _ Hok) as Hlen.
  assert (HN : NDIRECT = 12) by done. split; [done|unfold NSLOT; change NINDIRECT with 256; lia|done|by rewrite length_insert|..].
  - assert (Hd : forall i, 0 <= i <= NDIRECT -> slot (balloced sb L c) (<[Z.to_nat k:=c]> ad) i = if decide (i = k) then c else slot L ad i).
    { intros i Hi. rewrite !slot_direct by done. case_decide as Hik; [subst i; rewrite list_lookup_insert_eq by lia; done|]. rewrite list_lookup_insert_ne by lia. done. }
    intros i Hi. destruct (decide (i <= NDIRECT)) as [Hle|Hgt]; [apply Hd; lia|]. rewrite decide_False by lia.
    rewrite (slot_indirect _ (<[_:=_]> _)), Hd, (slot_indirect L ad i) by lia. unfold NSLOT in Hi. case_decide as Hik.
    + rewrite Hik, H0. cbn [Z.eqb]. rewrite balloced_new, entry_zero by lia. by destruct (c =? 0).
    + destruct (Z.eqb_spec (slot L ad NDIRECT) 0) as [|Hne]; [done|]. destruct (f_data _ _ Hok NDIRECT ltac:(done) Hne) as [Hr' Hu'].
      by rewrite (balloced_data _ _ _ _ Hlay) by (lia || congruence).
  - intros b Hb. by apply (used_balloced _ _ _ _ Hlay).
  - intros _. apply balloced_new.
  - intros b [Hb|Hb] Hbc _; [by apply (balloced_inodes _ _ _ _ Hlay)|by apply (balloced_data _ _ _ _ Hlay)].
Qed.
Lemma grows_entry L ad c j : disk_ok L -> file_ok L ad -> free L c -> 0 <= j < NINDIRECT -> slot L ad NDIRECT <> 0 -> slot L ad (NDIRECT + 1 + j) = 0 ->
  let ind := slot L ad NDIRECT in let B := balloced sb L c in
  grows L ad c (NDIRECT + 1 + j) (upd_block B ind (put32 (B ind) (Z.to_nat (4 * j)) c)) ad.
Proof.
  intros [HL Hm] Hok Hc Hj Hne H0 ind B. pose proof (lay_order _ _ _ _ Hlay) as Hord. pose proof Hc as [Hr Hu]. assert (HN : NDIRECT = 12) by done.
  destruct (f_data _ _ Hok NDIRECT ltac:(done) Hne) as [Hr' Hu']. fold ind in Hr', Hu', Hne. assert (Hci : c <> ind) by congruence.
  assert (HB : B ind = L ind) by (apply (balloced_data _ _ _ _ Hlay); [done|lia|done]).
  split; [done|unfold NSLOT; lia|done|apply Hok|..].
  - intros i Hi. unfold NSLOT in Hi. destruct (decide (i <= NDIRECT)) as [Hle|Hgt].
    { rewrite decide_False by lia. by rewrite !slot_direct by lia. }
    rewrite !(slot_indirect _ _ i) by lia. rewrite (slot_direct (upd_block _ _ _)), <- (slot_direct L) by lia. fold ind.
    rewrite (proj2 (Z.eqb_neq _ _) Hne), upd_block_eq, HB, entry_put by (lia || (apply HL; lia) || (split; lia)).
    destruct (decide (i = NDIRECT + 1 + j)); [by rewrite decide_True by lia|by rewrite decide_False by lia].
  - intros b Hb. rewrite used_upd_data by lia. by apply (used_balloced _ _ _ _ Hlay).
  - intros _. rewrite upd_block_ne by done. apply balloced_new.
  - intros b Hb Hbc Hbi. rewrite upd_block_ne by (intros ->; by apply Hbi).
    destruct Hb; [by apply (balloced_inodes _ _ _ _ Hlay)|by apply (balloced_data _ _ _ _ Hlay)].
Qed.

(** ** Writing a block of the file *)
Section put.
Context (L : Z -> list Z) (ad : list Z) (bn : Z) (d : list Z) (Hok : file_ok L ad) (Hbn : 0 <= bn < MAXFILE).
Notation a := (slot L ad (place bn)).
Context (Ha : a <> 0).
Notation L' := (upd_block L a d).
Lemma put_data : data0 <= a < sb_size sb.
Proof. by apply (f_data _ _ Hok); [apply place_range|]. Qed.
Lemma put_slot i : 0 <= i < NSLOT -> slot L' ad i = slot L ad i.
Proof.
  intros Hi. destruct (decide (i <= NDIRECT)); [by rewrite !slot_direct by lia|]. rewrite !(slot_indirect _ _ i) by lia.
  rewrite (slot_direct L'), <- (slot_direct L) by done. destruct (Z.eqb_spec (slot L ad NDIRECT) 0) as [|Hne]; [done|].
  rewrite upd_block_ne; [done|]. intros E. destruct (place_range bn Hbn) as [Hp Hp']. symmetry in E. by apply Hp', (f_inj _ _ Hok).
Qed.
Lemma put_used b : 0 <= b < sb_size sb -> used L' b = used L b.
Proof. apply used_upd_data. apply put_data. Qed.
Lemma put_ok : file_ok L' ad.
Proof.
  pose proof (lay_order _ _ _ _ Hlay). split; [apply Hok|..].
  - intros i Hi. rewrite put_slot by done. intros Hne. destruct (f_data _ _ Hok i Hi Hne) as [Hr Hu]. split; [done|]. rewrite put_used by lia. done.
  - intros i j Hi Hj. rewrite !put_slot by done. by apply (f_inj _ _ Hok).
Qed.
Lemma put_disk_ok : length d = 1024%nat -> disk_ok L -> disk_ok L'.
Proof. intros Hd [HL Hm]. split; [by apply sized_upd|]. intros b Hb. pose proof (lay_order _ _ _ _ Hlay). rewrite put_used by lia. by apply Hm. Qed.
Lemma put_fblock bn' : 0 <= bn' < MAXFILE -> fblock L' ad bn' = if decide (bn' = bn) then d else fblock L ad bn'.
Proof.
  intros Hb. destruct (place_range bn' Hb) as [Hp _]. destruct (place_range bn Hbn) as [Hp' _]. unfold fblock. rewrite put_slot by done. case_decide as E.
  - subst bn'. rewrite (proj2 (Z.eqb_neq _ _) Ha). apply upd_block_eq.
  - destruct (Z.eqb_spec (slot L ad (place bn')) 0) as [|Hne]; [done|]. apply upd_block_ne. intros Es. apply E, place_inj. by apply (f_inj _ _ Hok).
Qed.
Lemma put_ext bl : ext 1 L ad bl L' ad (logged bl a).
Proof.
  split.
  - intros i Hi. left. by apply put_slot.
  - intros c Hc Hu. pose proof (lay_order _ _ _ _ Hlay). rewrite put_used by lia. done.
  - intros c Hc _ Ho. apply upd_block_ne. intros ->. apply Ho. exists (place bn). split; [by apply place_range|done].
  - intros b Hb. apply elem_of_logged. by right.
  - unfold cost, ipot. pose proof (logged_length bl a). repeat case_decide; try lia. 
    destruct H1. destruct H0. split; [done|]. apply elem_of_logged. by right.
Qed.
(** A block that is in the log already costs nothing. *)
Lemma put_ext_in bl : a ∈ bl -> ext 0 L ad bl L' ad (logged bl a).
Proof.
  intros Hin. destruct (put_ext bl) as [H1 H2 H3 H4 _]. split; try done. unfold logged. rewrite decide_True by done. lia.
Qed.
End put.
End file.
End FileSpec.
