(* ===== verification/InodeSpec.v ===== *)
(** * Mapping the blocks of a file: bmap

    bmap finds the block of a file, allocating it and the indirect block where
    they are not there yet; the content of the file stays the same. *)

From S2P Require Import Prelude State Spinlock CString Mem Sched FileLayer Proc PsList Console Bio BufCache Log FsLogic BufSpec LogSpec TxnSpec Fs BlockSpec FileSpec.

Module InodeSpec.
Import BufCache FsLogic BufSpec LogSpec TxnSpec BlockSpec FileSpec Log Fs.

(** Entry [ip] of the inode table is [x]. *)
Definition with_ip (O : outer_t) (ip : nat) (x : inode) : outer_t := (<[ip := x]> O.1.1, O.1.2, O.2).
Definition set_addrs (x : inode) (ad : list Z) : inode := upd i_addrs (fun _ => ad) x.
Lemma set_addrs_same x : set_addrs x (i_addrs x) = x.
Proof. by destruct x. Qed.
Lemma set_addrs_twice x ad ad' : set_addrs (set_addrs x ad) ad' = set_addrs x ad'.
Proof. by destruct x. Qed.
Lemma with_ip_twice O ip x y : with_ip (with_ip O ip x) ip y = with_ip O ip y.
Proof. unfold with_ip. cbn. by rewrite list_insert_insert_eq. Qed.
Lemma with_ip_same O ip x : O.1.1 !! ip = Some x -> with_ip O ip x = O.
Proof. destruct O as [[t sb] d]. unfold with_ip. cbn. intros H. by rewrite list_insert_id. Qed.
Lemma clean_with_ip O ip x L bl b : clean (with_ip O ip x) L bl b <-> clean O L bl b.
Proof. done. Qed.

(** ** Room in the log *)
Section room.
Context (size : Z).
(** The log and the cache have room for [n] blocks of this file. *)
Definition fits (ad bl : list Z) (n : Z) : Prop := cost ad bl + n < Z.min (size - 1) (NBUF - 2).
Lemma fits_room ad bl n : fits ad bl n -> room size bl (n + 1).
Proof. unfold fits, room, cost. pose proof (ipot_bound ad bl). lia. Qed.
Lemma room_le bl n m : room size bl n -> m <= n -> room size bl m.
Proof. unfold room. lia. Qed.
End room.
Lemma held_none sb data0 L : held_used sb data0 L [].
Proof. split; [apply Nat.le_0_l|]. intros b []%elem_of_nil. Qed.
Lemma logged_sub bl b : bl ⊆ logged bl b.
Proof. intros c Hc. apply elem_of_logged. by right. Qed.
Lemma ipot_mono ad bl bl' : bl ⊆ bl' -> ipot ad bl' <= ipot ad bl.
Proof. intros Hs. unfold ipot. destruct (decide (_ /\ _ ∈ bl)) as [[Hn Hi]|]; [rewrite decide_True; [lia|split; [done|by apply Hs]]|case_decide; lia]. Qed.
Lemma cost_logged ad bl b : cost ad (logged bl b) <= cost ad bl + 1.
Proof. unfold cost. pose proof (logged_length bl b). pose proof (ipot_mono ad bl (logged bl b) (logged_sub bl b)). lia. Qed.
Lemma ipot_insert ad k c bl : (k < 12)%nat -> ipot (<[k := c]> ad) bl = ipot ad bl.
Proof. intros Hk. unfold ipot. by rewrite list_lookup_insert_ne by lia. Qed.
(** [need ad]: whether the file still lacks its indirect block. *)
Definition need (ad : list Z) : nat := if default 0 (ad !! 12%nat) =? 0 then 1 else 0.
Lemma need_insert ad k c : (k < 12)%nat -> need (<[k := c]> ad) = need ad.
Proof. intros Hk. unfold need. by rewrite list_lookup_insert_ne by lia. Qed.


Section inode.
Context (E : env) (pid dev : Z) (Hdev : dev <> 0).
Context {fuel : Fuel} {disk : Disk} {law : DiskLaw E pid}.
Context (sb : superblock) (start size data0 : Z) (Hlay : layout sb start size data0).
Context (O : outer_t) (ip : nat) (Hsb : O.1.2 = sb) (Hip : (ip < length O.1.1)%nat).
Notation fwp := (fwp E pid).
Notation tx x := (tx pid dev start size (with_ip O ip x)).
Notation free := (free sb data0).
Notation file_ok := (file_ok sb data0).
Notation disk_ok := (disk_ok sb data0).
Notation avail := (avail sb data0).
Notation ext := (ext sb data0).
Notation fits := (fits size).

Lemma lookup_ip x : (with_ip O ip x).1.1 !! ip = Some x.
Proof. cbn. by apply list_lookup_insert_eq. Qed.

Lemma fwp_geti h x L held bl F (Q : inode -> list lockid -> fsys -> Prop) : tx x L held bl F -> Q x h F -> fwp (geti ip) h F Q.
Proof. intros Ht HQ. eapply tx_geti; [exact Ht|apply lookup_ip|done]. Qed.
Lemma fwp_seti h x f L held bl F (Q : unit -> list lockid -> fsys -> Prop) : tx x L held bl F -> (forall F', tx (f x) L held bl F' -> Q tt h F') ->
  fwp (seti ip f) h F Q.
Proof.
  intros Ht HQ. eapply tx_seti; [exact Ht|apply lookup_ip|]. intros F' H'. apply HQ.
  change (TxnSpec.tx pid dev start size (with_ip (with_ip O ip x) ip (f x)) L held bl F') in H'. by rewrite with_ip_twice in H'.
Qed.
Lemma fwp_get_addr x L held bl F k (Q : Z -> list lockid -> fsys -> Prop) : tx x L held bl F -> length (i_addrs x) = 13%nat -> 0 <= k <= NDIRECT ->
  Q (slot L (i_addrs x) k) [] F -> fwp (get_addr ip (Z.to_nat k)) [] F Q.
Proof.
  intros Ht Hlen Hk HQ. unfold get_addr. apply fwp_bind. eapply fwp_geti; [exact Ht|]. rewrite slot_direct in HQ by done.
  destruct (lookup_lt_is_Some_2 (i_addrs x) (Z.to_nat k)) as [a Ha]; [unfold NDIRECT in *; lia|]. rewrite Ha in HQ. by eapply fwp_deref.
Qed.
Lemma fwp_bmap_slot x L bl F k (Q : Z -> list lockid -> fsys -> Prop) :
  tx x L [] bl F -> i_dev x = dev -> disk_ok L -> file_ok L (i_addrs x) -> 0 <= k <= NDIRECT ->
  (slot L (i_addrs x) k = 0 -> room size bl 2 /\ avail L 1) ->
  (slot L (i_addrs x) k <> 0 -> Q (slot L (i_addrs x) k) [] F) ->
  (forall c F', slot L (i_addrs x) k = 0 -> free L c ->
     tx (set_addrs x (<[Z.to_nat k := c]> (i_addrs x))) (balloced sb L c) [] (logged (logged bl (BBLOCK c sb)) c) F' -> Q c [] F') ->
  fwp (bmap_slot ip (Z.to_nat k)) [] F Q.
Proof.
  intros Ht Hd [HL Hm] Hok Hk Hneed Hhit Hnew. unfold bmap_slot. apply fwp_bind. eapply fwp_get_addr; [exact Ht|apply Hok|done|].
  destruct (Z.eqb_spec (slot L (i_addrs x) k) 0) as [E0|Hne]; [|by apply fwp_ret, Hhit].
  apply fwp_bind. eapply fwp_geti; [exact Ht|]. rewrite Hd. destruct (Hneed E0) as [Hroom (fs & _ & Hlen & Hfs)]. apply fwp_bind.
  eapply fwp_balloc; [exact Hdev|exact law|exact Hlay|exact Ht|done|done|done|apply held_none|done| |].
  { destruct fs as [|c fs]; simpl in Hlen; [lia|]. exists c. apply Hfs. left. }
  intros c F1 Hc H1. rewrite (proj2 (Z.eqb_neq _ _) (free_nz _ _ _ _ Hlay _ _ Hc)). apply fwp_bind. unfold set_addr. eapply fwp_seti; [exact H1|].
  intros F2 H2. apply fwp_ret. apply Hnew; [done|done|]. exact H2.
Qed.

(** Block [bn] of the file has the address [a]; the content is as before. *)
Record mapped (bn : Z) (L : Z -> list Z) (ad bl : list Z) (a : Z) (L' : Z -> list Z) (ad' bl' : list Z) : Prop := {
  m_disk : disk_ok L';
  m_file : file_ok L' ad';
  m_addr : a <> 0 /\ slot L' ad' (place bn) = a;
  m_same : forall bn', 0 <= bn' < MAXFILE -> fblock L' ad' bn' = fblock L ad bn';
  m_ext : ext (if slot L ad (place bn) =? 0 then 2 else 0) L ad bl L' ad' bl';
  m_new : slot L ad (place bn) = 0 -> a ∈ bl';
  m_hit : slot L ad (place bn) <> 0 -> ad' = ad /\ L' = L /\ bl' = bl;
  m_avail : forall n, avail L (S (n + need ad)) -> avail L' (n + need ad') }.

Lemma mapped_hit bn L ad bl : disk_ok L -> file_ok L ad -> slot L ad (place bn) <> 0 -> mapped bn L ad bl (slot L ad (place bn)) L ad bl.
Proof.
  intros HL Hok Hne. split; try done.
  - rewrite (proj2 (Z.eqb_neq _ _) Hne). apply ext_refl.
  - intros n (fs & Hnd & Hlen & Hfs). exists fs. split_and!; [done|lia|done].
Qed.
Lemma disk_ok_grow L ad c k L' ad' : disk_ok L -> grows sb data0 L ad c k L' ad' -> sized sb L' -> disk_ok L'.
Proof.
  intros [HL Hm] Hg HL'. split; [done|]. intros b Hb. pose proof (lay_order _ _ _ _ Hlay). destruct (g_free _ _ _ _ _ _ _ _ Hg).
  rewrite (g_used _ _ _ _ _ _ _ _ Hg) by lia. case_decide; [done|]. by apply Hm.
Qed.
Lemma sized_free L c : disk_ok L -> free L c -> sized sb (balloced sb L c).
Proof. intros [HL _] [Hc _]. pose proof (lay_order _ _ _ _ Hlay). apply (sized_balloced _ _ _ _ Hlay); [done|lia]. Qed.
(** A direct block is allocated. *)
Lemma mapped_direct bn L ad bl c : disk_ok L -> file_ok L ad -> 0 <= bn < NDIRECT -> slot L ad bn = 0 -> free L c ->
  mapped bn L ad bl c (balloced sb L c) (<[Z.to_nat bn := c]> ad) (logged (logged bl (BBLOCK c sb)) c).
Proof.
  intros HL Hok Hbn H0 Hc. assert (HN : NDIRECT = 12) by done.
  assert (Hp : place bn = bn) by (unfold place; rewrite (proj2 (Z.ltb_lt _ _)); lia).
  pose proof (grows_slot _ _ _ _ Hlay L ad c bn HL Hok Hc ltac:(lia) H0) as Hg. split; rewrite ?Hp.
  - eapply disk_ok_grow; [done|exact Hg|]. by apply sized_free.
  - by eapply grow_ok.
  - split; [by eapply free_nz|]. rewrite (g_slot _ _ _ _ _ _ _ _ Hg) by apply Hg. by rewrite decide_True.
  - intros bn' Hb. by eapply grow_fblock.
  - rewrite H0. cbn [Z.eqb]. eapply grow_ext; [exact Hlay|exact Hg| |].
    + etrans; apply logged_sub.
    + unfold cost. rewrite ipot_insert by lia. fold (cost ad (logged (logged bl (BBLOCK c sb)) c)).
      pose proof (cost_logged ad (logged bl (BBLOCK c sb)) c). pose proof (cost_logged ad bl (BBLOCK c sb)). unfold cost in *. lia.
  - intros _. apply elem_of_logged. by left.
  - done.
  - intros n. rewrite need_insert by lia. apply (avail_alloc _ _ _ _ Hlay _ _ c); [done|apply Hg].
Qed.
(** An entry of the indirect block is allocated. *)
Lemma mapped_entry bn L ad bl c : disk_ok L -> file_ok L ad -> NDIRECT <= bn < MAXFILE -> slot L ad NDIRECT <> 0 -> slot L ad (place bn) = 0 -> free L c ->
  let ind := slot L ad NDIRECT in let B := balloced sb L c in
  mapped bn L ad bl c (upd_block B ind (put32 (B ind) (Z.to_nat (4 * (bn - NDIRECT))) c)) ad (logged (logged (logged bl (BBLOCK c sb)) c) ind).
Proof.
  intros HL Hok Hbn Hne H0 Hc ind B. assert (HN : NDIRECT = 12) by done. unfold MAXFILE in Hbn.
  assert (Hp : place bn = NDIRECT + 1 + (bn - NDIRECT)) by (unfold place; rewrite (proj2 (Z.ltb_ge _ _)); lia).
  rewrite Hp in H0. pose proof (grows_entry _ _ _ _ Hlay L ad c (bn - NDIRECT) HL Hok Hc ltac:(lia) Hne H0) as Hg. fold ind B in Hg. split; rewrite ?Hp.
  - eapply disk_ok_grow; [done|exact Hg|]. pose proof (sized_free L c HL Hc) as HB.
    destruct (f_data _ _ _ _ Hok NDIRECT ltac:(done) Hne) as [Hr _]. pose proof (lay_order _ _ _ _ Hlay). fold ind in Hr. fold B in HB.
    apply sized_upd; [done|]. rewrite put32_length; rewrite HB by lia; [done|]. change NINDIRECT with 256 in Hbn. lia.
  - by eapply grow_ok.
  - split; [by eapply free_nz|]. rewrite (g_slot _ _ _ _ _ _ _ _ Hg) by apply Hg. by rewrite decide_True.
  - intros bn' Hb. by eapply grow_fblock.
  - rewrite H0. cbn [Z.eqb]. eapply grow_ext; [exact Hlay|exact Hg| |].
    + etrans; [apply logged_sub|]. etrans; apply logged_sub.
    + set (bl2 := logged (logged bl _) c). pose proof (logged_length (logged bl (BBLOCK c sb)) c). pose proof (logged_length bl (BBLOCK c sb)). fold bl2 in H.
      unfold cost, ipot. change (default 0 (ad !! 12%nat)) with ind.
      rewrite (decide_True (P := ind <> 0 /\ ind ∈ logged bl2 ind)) by (split; [done|apply elem_of_logged; by left]). case_decide as Hd.
      * unfold logged at 1. rewrite decide_True; [lia|]. apply logged_sub, logged_sub, Hd.
      * pose proof (logged_length bl2 ind). lia.
  - intros _. apply logged_sub, elem_of_logged. by left.
  - done.
  - intros n. apply (avail_alloc _ _ _ _ Hlay _ _ c); [done|apply Hg].
Qed.
(** The indirect block is allocated, then an entry. *)
Lemma mapped_both bn L ad bl c1 a L' ad' bl' : disk_ok L -> file_ok L ad -> NDIRECT <= bn < MAXFILE -> slot L ad NDIRECT = 0 -> free L c1 ->
  let ad1 := <[12%nat := c1]> ad in let L1 := balloced sb L c1 in let bl1 := logged (logged bl (BBLOCK c1 sb)) c1 in
  disk_ok L1 /\ file_ok L1 ad1 /\ slot L1 ad1 NDIRECT = c1 /\ slot L1 ad1 (place bn) = 0 /\ cost ad1 bl1 <= cost ad bl /\
  (forall n, avail L (S n) -> avail L1 n) /\
  (mapped bn L1 ad1 bl1 a L' ad' bl' -> mapped bn L ad bl a L' ad' bl').
Proof.
  intros HL Hok Hbn H0 Hc ad1 L1 bl1. assert (HN : NDIRECT = 12) by done.
  pose proof (grows_slot _ _ _ _ Hlay L ad c1 NDIRECT HL Hok Hc ltac:(lia) H0) as Hg. change (grows sb data0 L ad c1 NDIRECT L1 ad1) in Hg.
  destruct (place_range bn) as [Hp Hp']; [lia|]. pose proof (free_nz _ _ _ _ Hlay _ _ Hc) as Hc0.
  assert (Hp0 : slot L ad (place bn) = 0).
  { rewrite slot_indirect by (unfold place; rewrite (proj2 (Z.ltb_ge _ _)); lia). by rewrite H0. }
  assert (Hs0 : slot L1 ad1 (place bn) = 0) by (rewrite (g_slot _ _ _ _ _ _ _ _ Hg) by done; by rewrite decide_False).
  assert (Had : default 0 (ad !! 12%nat) = 0) by (by rewrite slot_direct in H0 by done).
  assert (Had1 : default 0 (ad1 !! 12%nat) = c1) by (unfold ad1; rewrite list_lookup_insert_eq; [done|rewrite (f_len _ _ _ _ Hok); lia]).
  assert (Hcost : cost ad1 bl1 <= cost ad bl).
  { unfold cost, ipot. rewrite Had1, Had. rewrite decide_True by (split; [done|apply elem_of_logged; by left]). rewrite decide_False by (by intros []).
    pose proof (logged_length (logged bl (BBLOCK c1 sb)) c1). pose proof (logged_length bl (BBLOCK c1 sb)). unfold bl1. lia. }
  assert (Hav : forall n, avail L (S n) -> avail L1 n) by (intros n; apply (avail_alloc _ _ _ _ Hlay _ _ c1); [done|apply Hg]).
  split_and!; [eapply disk_ok_grow; [done|exact Hg|by apply sized_free]|by eapply grow_ok| |done|done|done|].
  { rewrite (g_slot _ _ _ _ _ _ _ _ Hg) by done. by rewrite decide_True. }
  intros []. split; try done.
  - intros bn' Hb. rewrite m_same0 by done. by eapply grow_fblock.
  - rewrite Hp0. rewrite Hs0 in m_ext0. apply (ext_trans _ _ _ _ Hlay 0 2 L ad bl L1 ad1 bl1); [|done]. eapply grow_ext; [exact Hlay|exact Hg|etrans; apply logged_sub|lia].
  - intros _. by apply m_new0.
  - intros n Hn. apply m_avail0. unfold need in *. rewrite Had in Hn. rewrite Had1, (proj2 (Z.eqb_neq _ _) Hc0). cbn [Z.eqb] in Hn. apply Hav. by rewrite Nat.add_0_r, <- Nat.add_1_r.
Qed.

(** bmap from the point where the indirect block is there. *)
Definition bmap_entry (bn addr : Z) : K Z :=
  let! x := geti ip in
  let! bp := bread (i_dev x) addr in
  let! b := getb bp in
  let addr := get32 (b_data b) (Z.to_nat (4 * bn)) in
  let! addr := (if addr =? 0 then
                  let! addr := balloc (i_dev x) in
                  when (negb (addr =? 0))
                    (setb bp (upd b_data (fun d => put32 d (Z.to_nat (4 * bn)) addr)) ;! log_write bp) ;!
                  ret addr
                else ret addr) in
  brelse bp ;!
  ret addr.
Definition mapped_post (bn : Z) (x : inode) (L : Z -> list Z) (bl : list Z) (Q : Z -> list lockid -> fsys -> Prop) : Prop :=
  forall a L' ad' bl' F', tx (set_addrs x ad') L' [] bl' F' -> mapped bn L (i_addrs x) bl a L' ad' bl' -> Q a [] F'.
Lemma fwp_bmap_entry x L bl F bn ind (Q : Z -> list lockid -> fsys -> Prop) :
  tx x L [] bl F -> i_dev x = dev -> disk_ok L -> file_ok L (i_addrs x) -> NDIRECT <= bn < MAXFILE -> slot L (i_addrs x) NDIRECT = ind -> ind <> 0 ->
  fits (i_addrs x) bl 0 -> (slot L (i_addrs x) (place bn) = 0 -> fits (i_addrs x) bl 2 /\ avail L 1) ->
  mapped_post bn x L bl Q -> fwp (bmap_entry (bn - NDIRECT) ind) [] F Q.
Proof.
  intros Ht Hd HL Hok Hbn Hind Hne Hfit Hneed HQ. rewrite <- Hind in *. clear Hind ind.
  pose proof (lay_order _ _ _ _ Hlay) as Hord. set (ind := slot L (i_addrs x) NDIRECT) in *.
  destruct (f_data _ _ _ _ Hok NDIRECT ltac:(done) Hne) as [Hr Hu]. fold ind in Hr, Hu.
  unfold bmap_entry. apply fwp_bind. eapply fwp_geti; [exact Ht|]. rewrite Hd.
  apply fwp_bind. eapply tx_bread; [exact Hdev|exact law|exact Ht|apply not_elem_of_nil| |lia|].
  { eapply room_buf; [by eapply fits_room|lia|apply (held_none sb data0 L)]. }
  intros bp F1 H1 Hcl. apply fwp_bind. eapply tx_getb; [exact H1|left|]. intros y ->.
  assert (Hslot : slot L (i_addrs x) (place bn) = get32 (L ind) (Z.to_nat (4 * (bn - NDIRECT)))).
  { assert (Hp : place bn = bn + 1) by (unfold place; rewrite (proj2 (Z.ltb_ge _ _)); lia). rewrite slot_indirect by lia. fold ind.
    rewrite (proj2 (Z.eqb_neq _ _) Hne), Hp. unfold entry. do 3 f_equal. lia. }
  rewrite <- Hslot. destruct (Z.eqb_spec (slot L (i_addrs x) (place bn)) 0) as [E0|Hn0].
  - destruct (Hneed E0) as [Hf2 (fs & _ & Hlen & Hfs)]. apply fits_room in Hf2 as Hroom. apply fwp_bind, fwp_bind.
    assert (Hheld : held_used sb data0 L [(bp, ind)]). { split; [simpl; lia|]. intros b Hb. apply list_elem_of_singleton in Hb as ->. done. }
    eapply fwp_balloc; [exact Hdev|exact law|exact Hlay|exact H1|done|apply HL|apply HL|exact Hheld|by eapply room_le| |].
    { destruct fs as [|c fs]; simpl in Hlen; [lia|]. exists c. apply Hfs. left. }
    intros c F2 Hc H2. rewrite (proj2 (Z.eqb_neq _ _) (free_nz _ _ _ _ Hlay _ _ Hc)). cbn [negb when]. apply fwp_bind, fwp_bind.
    eapply tx_put; [exact Hdev|exact H2|left|]. intros F3 H3.
    eapply tx_log_write; [exact Hdev|exact law|exact H3|left|apply (lay_outside _ _ _ _ Hlay); lia| |].
    { unfold room in Hroom. pose proof (logged_length (logged bl (BBLOCK c sb)) c). pose proof (logged_length bl (BBLOCK c sb)). lia. }
    intros F4 H4. apply fwp_ret. apply fwp_bind. eapply tx_brelse; [exact Hdev|exact H4|left; apply elem_of_logged; by left|].
    intros F5 H5. apply fwp_ret. eapply HQ; [rewrite set_addrs_same; exact H5|]. by apply mapped_entry.
  - apply fwp_bind, fwp_ret. apply fwp_bind. eapply tx_brelse; [exact Hdev|exact H1|exact Hcl|]. intros F2 H2. apply fwp_ret.
    eapply HQ; [rewrite set_addrs_same; exact H2|]. by apply mapped_hit.
Qed.
Lemma bmap_eq bn : NDIRECT <= bn < MAXFILE -> bmap ip bn = (let! addr := bmap_slot ip (Z.to_nat NDIRECT) in if addr =? 0 then ret 0 else bmap_entry (bn - NDIRECT) addr).
Proof. intros Hbn. unfold bmap. rewrite (proj2 (Z.ltb_ge _ _)) by lia. unfold MAXFILE in Hbn. rewrite (proj2 (Z.ltb_lt _ _)) by lia. done. Qed.
Lemma fwp_bmap x L bl F bn (Q : Z -> list lockid -> fsys -> Prop) :
  tx x L [] bl F -> i_dev x = dev -> disk_ok L -> file_ok L (i_addrs x) -> 0 <= bn < MAXFILE ->
  fits (i_addrs x) bl 0 -> (slot L (i_addrs x) (place bn) = 0 -> fits (i_addrs x) bl 2 /\ avail L (S (need (i_addrs x)))) ->
  mapped_post bn x L bl Q -> fwp (bmap ip bn) [] F Q.
Proof.
  intros Ht Hd HL Hok Hbn Hfit Hneed HQ. destruct (decide (bn < NDIRECT)) as [Hlt|Hge].
  - unfold bmap. rewrite (proj2 (Z.ltb_lt _ _)) by lia. assert (Hp : place bn = bn) by (unfold place; rewrite (proj2 (Z.ltb_lt _ _)); lia).
    eapply fwp_bmap_slot; [exact Ht|done|done|done|lia| | |].
    + rewrite Hp in Hneed. intros E0. destruct (Hneed E0) as [Hf (fs & Hnd & Hlen & Hfs)]. split; [eapply room_le; [by eapply fits_room|lia]|]. exists fs. split_and!; [done|lia|done].
    + intros Hne. eapply HQ; [rewrite set_addrs_same; exact Ht|]. rewrite <- Hp at 2. apply mapped_hit; [done|done|by rewrite Hp].
    + intros c F1 H0 Hc H1. eapply HQ; [exact H1|]. apply mapped_direct; [done|done|lia|done|done].
  - rewrite bmap_eq by lia. apply fwp_bind. assert (HN : NDIRECT = 12) by done. pose proof (slot_direct L (i_addrs x) NDIRECT ltac:(lia)) as Hsd. 
    assert (Hpz : slot L (i_addrs x) NDIRECT = 0 -> slot L (i_addrs x) (place bn) = 0).
    { intros H0. rewrite slot_indirect by (unfold place; rewrite (proj2 (Z.ltb_ge _ _)); lia). by rewrite H0. }
    eapply fwp_bmap_slot; [exact Ht|done|done|done|lia| | |].
    + intros E0. destruct (Hneed (Hpz E0)) as [Hf (fs & Hnd & Hlen & Hfs)]. split; [eapply room_le; [by eapply fits_room|lia]|]. exists fs. split_and!; [done|lia|done].
    + intros Hne. rewrite (proj2 (Z.eqb_neq _ _) Hne). eapply fwp_bmap_entry; [exact Ht|done|done|done|lia|done|done|done| |done].
      intros E0. destruct (Hneed E0) as [Hf (fs & Hnd & Hlen & Hfs)]. split; [done|]. exists fs. split_and!; [done|lia|done].
    + intros c F1 H0 Hc H1. rewrite (proj2 (Z.eqb_neq _ _) (free_nz _ _ _ _ Hlay _ _ Hc)). destruct (Hneed (Hpz H0)) as [Hf Hav].
      destruct (mapped_both bn L (i_addrs x) bl c 0 L (i_addrs x) bl HL Hok ltac:(lia) H0 Hc) as (HL1 & Hok1 & Hs1 & Hp1 & Hc1 & Hav1 & _).
      assert (Hn1 : need (i_addrs x) = 1%nat). { unfold need. change (default 0 (i_addrs x !! 12%nat)) with (default 0 (i_addrs x !! Z.to_nat NDIRECT)). by rewrite <- Hsd, H0. }
      rewrite Hn1 in Hav. unfold fits in Hf. eapply fwp_bmap_entry with (x := set_addrs x _); [exact H1|done|done|done|lia|exact Hs1|by eapply free_nz| | |].
      * unfold fits. change (i_addrs (set_addrs x ?a)) with a. change (Z.to_nat NDIRECT) with 12%nat. lia.
      * intros _. unfold fits. change (i_addrs (set_addrs x ?a)) with a. change (Z.to_nat NDIRECT) with 12%nat. split; [lia|]. by apply Hav1.
      * intros a L' ad' bl' F' Ht' Hm. rewrite set_addrs_twice in Ht'. eapply HQ; [exact Ht'|]. destruct (mapped_both bn L (i_addrs x) bl c a L' ad' bl' HL Hok ltac:(lia) H0 Hc) as (_ & _ & _ & _ & _ & _ & Hk). by apply Hk.
Qed.
End inode.
End InodeSpec.
