(* ===== verification/DinodeSpec.v ===== *)
(** * Inodes on the disk: iupdate, ilock and iunlock

    The 64 bytes of an inode in its block: what iupdate writes is what ilock
    reads, and the other inodes of the block stay as they are. *)

From S2P Require Import Prelude State Spinlock CString Mem Sched FileLayer Proc PsList Console Bio BufCache Log FsLogic BufSpec LogSpec TxnSpec Fs BlockSpec FileSpec InodeSpec.

Module DinodeSpec.
Import BufCache FsLogic BufSpec LogSpec TxnSpec BlockSpec FileSpec InodeSpec Log Fs.

(** ** The 64 bytes *)
Lemma blk_get_app_r a b o n : (length a <= o)%nat -> blk_get (a ++ b) o n = blk_get b (o - length a) n.
Proof. intros Ho. unfold blk_get. by rewrite drop_app_ge. Qed.
Lemma blk_get_app_l a b n : n = length a -> blk_get (a ++ b) 0 n = a.
Proof. intros ->. unfold blk_get. by rewrite drop_0, take_app_length. Qed.
Lemma blk_get_sub d off v o n : (off + length v <= length d)%nat -> (o + n <= length v)%nat -> blk_get (blk_put d off v) (off + o) n = blk_get v o n.
Proof.
  intros Hd Hn. unfold blk_put. rewrite blk_get_app_r by (rewrite length_take; lia). rewrite length_take, Nat.min_l by lia.
  replace (off + o - off)%nat with o by lia. unfold blk_get. rewrite drop_app_le by lia. by rewrite take_app_le by (rewrite length_drop; lia).
Qed.
Lemma get16_bytes v r : le_val (blk_get (le_bytes 2 (v mod 2 ^ 16) ++ r) 0 2) = v mod 2 ^ 16.
Proof. rewrite blk_get_app_l by done. rewrite le_val_bytes. by rewrite Zmod_mod. Qed.
Lemma get32_bytes v r : 0 <= v < 2 ^ 32 -> le_val (blk_get (le_bytes 4 (u32 v) ++ r) 0 4) = v.
Proof. intros Hv. rewrite blk_get_app_l by done. rewrite le_val_bytes, u32_small by done. by apply Z.mod_small. Qed.
Lemma i16_bytes v : - 2 ^ 15 <= v < 2 ^ 15 -> i16 (v mod 2 ^ 16) = v.
Proof.
  intros Hv. unfold i16. rewrite Zmod_mod. destruct (decide (0 <= v)).
  - rewrite Z.mod_small, (proj2 (Z.ltb_lt _ _)) by lia. done.
  - rewrite <- (Z.mod_add v 1), Z.mod_small, (proj2 (Z.ltb_ge _ _)) by lia. lia.
Qed.
Lemma addrs_bytes_length ad : length (ad ≫= fun a => le_bytes 4 (u32 a)) = (4 * length ad)%nat.
Proof. induction ad as [|a ad IH]; [done|]. cbn. cbn in IH. rewrite ?length_app, IH. lia. Qed.
Lemma addrs_bytes ad i a : ad !! i = Some a -> 0 <= a < 2 ^ 32 -> le_val (blk_get (ad ≫= fun a => le_bytes 4 (u32 a)) (4 * i) 4) = a.
Proof.
  revert i. induction ad as [|b ad IH]; intros [|i] Hi Ha; try done.
  - injection Hi as ->. rewrite Nat.mul_0_r. by apply get32_bytes.
  - rewrite bind_cons, blk_get_app_r by (rewrite le_bytes_length; lia). rewrite le_bytes_length.
    replace (4 * S i - 4)%nat with (4 * i)%nat by lia. by apply IH.
Qed.
Record dinode_ok (x : dinode) : Prop := {
  do_short : forall v, v ∈ [di_type x; di_major x; di_minor x; di_nlink x] -> - 2 ^ 15 <= v < 2 ^ 15;
  do_size : 0 <= di_size x < 2 ^ 32;
  do_len : length (di_addrs x) = 13%nat;
  do_addrs : forall a, a ∈ di_addrs x -> 0 <= a < 2 ^ 32 }.
Lemma dinode_bytes_length x : length (di_addrs x) = 13%nat -> length (dinode_bytes x) = 64%nat.
Proof. intros Hl. unfold dinode_bytes. rewrite !length_app, !le_bytes_length, addrs_bytes_length, Hl. done. Qed.
(** To the next field. *)
Ltac field := rewrite blk_get_app_r by (rewrite le_bytes_length; lia); rewrite le_bytes_length; cbn [Nat.sub].
Lemma get_dinode_bytes d off x : dinode_ok x -> (off + 64 <= length d)%nat -> get_dinode (blk_put d off (dinode_bytes x)) off = x.
Proof.
  intros [Hs Hz Hl Ha] Hd. pose proof (dinode_bytes_length x Hl) as Hlen. unfold get_dinode, get16, get32. rewrite <- (Nat.add_0_r off) at 2.
  rewrite !blk_get_sub by lia. unfold dinode_bytes in *. destruct x as [t ma mi nl sz ad]. cbn [di_type di_major di_minor di_nlink di_size di_addrs] in *.
  f_equal.
  - rewrite get16_bytes. apply i16_bytes, Hs. set_solver.
  - field. rewrite get16_bytes. apply i16_bytes, Hs. set_solver.
  - do 2 field. rewrite get16_bytes. apply i16_bytes, Hs. set_solver.
  - do 3 field. rewrite get16_bytes. apply i16_bytes, Hs. set_solver.
  - do 4 field. by apply get32_bytes.
  - apply list_eq. intros i. rewrite list_lookup_fmap. destruct (decide (i < 13)%nat) as [Hi|Hi].
    + rewrite lookup_seq_lt by done. cbn [fmap option_fmap option_map]. destruct (lookup_lt_is_Some_2 ad i) as [a Hai]; [lia|]. rewrite Hai. f_equal.
      rewrite <- Nat.add_assoc, blk_get_sub by lia.
      do 5 field.
      replace (12 + 4 * (0 + i) - 2 - 2 - 2 - 2 - 4)%nat with (4 * i)%nat by lia. apply addrs_bytes; [done|]. apply Ha. by eapply list_elem_of_lookup_2.
    + rewrite !lookup_ge_None_2; [done|lia|rewrite length_seq; lia].
Qed.

(** ** iupdate *)
Definition dinode_of (x : inode) : dinode := mkDinode (i_type x) (i_major x) (i_minor x) (i_nlink x) (i_size x) (i_addrs x).
(** Inode [inum] on the disk. *)
Definition on_disk (sb : superblock) (L : Z -> list Z) (inum : Z) : dinode := get_dinode (L (IBLOCK inum sb)) (dinode_off inum).
Definition iupdated (sb : superblock) (L : Z -> list Z) (x : inode) : Z -> list Z :=
  upd_block L (IBLOCK (i_inum x) sb) (blk_put (L (IBLOCK (i_inum x) sb)) (dinode_off (i_inum x)) (dinode_bytes (dinode_of x))).

Lemma dinode_off_bound i : (dinode_off i + 64 <= 1024)%nat.
Proof. unfold dinode_off. pose proof (Z.mod_pos_bound i IPB ltac:(done)). change IPB with 16 in *. unfold DINODE_SIZE. lia. Qed.
Lemma get_dinode_other d off off' v : length v = 64%nat -> (off + 64 <= length d)%nat -> (off' + 64 <= off \/ off + 64 <= off')%nat ->
  get_dinode (blk_put d off v) off' = get_dinode d off'.
Proof.
  intros Hv Hd Ho. unfold get_dinode, get16, get32. rewrite !blk_get_put_ne by lia. f_equal. apply list_fmap_ext. intros i j Hj.
  apply lookup_seq in Hj. by rewrite blk_get_put_ne by lia.
Qed.

Section iupdate.
Context (sb : superblock) (start size data0 : Z) (Hlay : layout sb start size data0).
Lemma IBLOCK_range i : 0 <= i < sb_ninodes sb -> IBLOCK i sb = i / IPB + sb_inodestart sb /\ sb_inodestart sb <= IBLOCK i sb < sb_bmapstart sb.
Proof.
  intros Hi. pose proof (lay_order _ _ _ _ Hlay). pose proof (lay_inode_blocks _ _ _ _ Hlay i Hi) as [H0 H1].
  unfold IBLOCK. rewrite u32_small by lia. lia.
Qed.
(** The inode on the disk is now the one in memory, the others are as they
    were. *)
Lemma iupdated_on_disk L x : sized sb L -> 0 <= i_inum x < sb_ninodes sb -> dinode_ok (dinode_of x) -> on_disk sb (iupdated sb L x) (i_inum x) = dinode_of x.
Proof.
  intros HL Hi Hx. unfold on_disk, iupdated. rewrite upd_block_eq. apply get_dinode_bytes; [done|]. rewrite HL by apply (IBLOCK_range _ Hi). apply dinode_off_bound.
Qed.
Lemma iupdated_other L x j : sized sb L -> length (i_addrs x) = 13%nat -> 0 <= i_inum x < sb_ninodes sb -> 0 <= j < sb_ninodes sb -> j <> i_inum x ->
  on_disk sb (iupdated sb L x) j = on_disk sb L j.
Proof.
  intros HL Hx Hi Hj Hne. unfold on_disk, iupdated. destruct (decide (IBLOCK j sb = IBLOCK (i_inum x) sb)) as [E|E]; [|by rewrite upd_block_ne].
  rewrite E, upd_block_eq. apply get_dinode_other; [by apply dinode_bytes_length|rewrite HL by apply (IBLOCK_range _ Hi); apply dinode_off_bound|].
  destruct (IBLOCK_range j Hj) as [Ej _]. destruct (IBLOCK_range _ Hi) as [Ei _]. unfold dinode_off. change IPB with 16 in *. unfold DINODE_SIZE.
  pose proof (Z.div_mod j 16 ltac:(lia)). pose proof (Z.div_mod (i_inum x) 16 ltac:(lia)). pose proof (Z.mod_pos_bound j 16). pose proof (Z.mod_pos_bound (i_inum x) 16).
  assert (j mod 16 <> i_inum x mod 16) by lia. lia.
Qed.
Lemma sized_iupdated L x : sized sb L -> 0 <= i_inum x < sb_ninodes sb -> length (i_addrs x) = 13%nat -> sized sb (iupdated sb L x).
Proof.
  intros HL Hi Hx. destruct (IBLOCK_range _ Hi) as [_ [Hb _]]. apply sized_upd; [done|]. rewrite blk_put_length; rewrite HL by done; [done|].
  rewrite dinode_bytes_length by done. apply dinode_off_bound.
Qed.
Lemma iupdated_ne L x b : b <> IBLOCK (i_inum x) sb -> iupdated sb L x b = L b.
Proof. apply upd_block_ne. Qed.

Context (E : env) (pid dev : Z) (Hdev : dev <> 0).
Context {fuel : Fuel} {disk : Disk} {law : DiskLaw E pid}.
Context (O : outer_t) (ip : nat) (Hsb : O.1.2 = sb) (Hip : (ip < length O.1.1)%nat).
Notation tx x := (tx pid dev start size (with_ip O ip x)).
Lemma fwp_iupdate x L bl F (Q : unit -> list lockid -> fsys -> Prop) : tx x L [] bl F -> i_dev x = dev -> 0 <= i_inum x < sb_ninodes sb ->
  room size bl 1 -> (forall F', tx x (iupdated sb L x) [] (logged bl (IBLOCK (i_inum x) sb)) F' -> Q tt [] F') -> fwp E pid (iupdate ip) [] F Q.
Proof.
  intros Ht Hd Hi Hroom HQ. pose proof (lay_order _ _ _ _ Hlay). destruct (IBLOCK_range _ Hi) as [_ Hb]. unfold iupdate.
  apply fwp_bind. eapply fwp_geti; [exact Hip|exact Ht|]. apply fwp_bind. eapply tx_sb; [exact Ht|]. change ((with_ip O ip x).1.2) with (O.1.2). rewrite Hsb, Hd.
  apply fwp_bind. eapply tx_bread; [exact Hdev|exact law|exact Ht|apply not_elem_of_nil| |lia|].
  { eapply room_buf; [exact Hroom|lia|apply (held_none sb data0 L)]. }
  intros bp F1 H1 _. apply fwp_bind. eapply fwp_geti; [exact Hip|exact H1|].
  eapply (tx_update E pid dev Hdev _ _ _ _ _ _ _ _ _ (fun d => blk_put d _ _)); [exact H1|left|apply (lay_outside _ _ _ _ Hlay); lia|unfold room in Hroom; lia|].
  intros F2 H2. eapply tx_brelse_logged; [exact Hdev|exact H2|]. done.
Qed.

(** ** ilock and iunlock *)
Definition with_lock (x : inode) (l : sleeplock) : inode := x <| i_lock := l |>.
Definition loaded (x : inode) (d : dinode) : inode := x <| i_type := di_type d |> <| i_major := di_major d |> <| i_minor := di_minor d |>
  <| i_nlink := di_nlink d |> <| i_size := di_size d |> <| i_addrs := di_addrs d |> <| i_valid := 1 |>.
(** The inode after ilock: read from the disk unless it is in memory. *)
Definition ilocked (L : Z -> list Z) (x : inode) : inode :=
  let x := with_lock x (mkSleeplock 1 pid) in if i_valid x =? 0 then loaded x (on_disk sb L (i_inum x)) else x.
Lemma fwp_acquiresleep_i h x L bl F (Q : unit -> list lockid -> fsys -> Prop) : tx x L [] bl F -> sl_locked (i_lock x) = 0 -> Lsleep (SLinode ip) ∉ h ->
  (forall F', tx (with_lock x (mkSleeplock 1 pid)) L [] bl F' -> Q tt h F') -> fwp E pid (acquiresleep (SLinode ip)) h F Q.
Proof.
  intros Ht Hl Hh HQ. unfold acquiresleep. apply fwp_bind, fwp_acquire; [done|]. apply fwp_bind.
  assert (Hloop : forall n h Q, Q tt h F -> fwp E pid (acquiresleep_loop n (SLinode ip)) h F Q).
  { intros n h' Q' HQ'. destruct n; cbn [acquiresleep_loop getsl]; apply fwp_bind, fwp_bind; (eapply fwp_geti; [exact Hip|exact Ht|]);
      apply fwp_ret; rewrite Hl; by apply fwp_ret. }
  apply Hloop. apply fwp_bind, fwp_mypid. apply fwp_bind. cbn [setsl]. eapply fwp_seti; [exact Hip|exact Ht|]. intros F1 H1.
  apply fwp_release; [done|]. by apply HQ.
Qed.
Lemma fwp_releasesleep_i x L bl F (Q : unit -> list lockid -> fsys -> Prop) : tx x L [] bl F ->
  (forall F', tx (with_lock x (mkSleeplock 0 0)) L [] bl F' -> Q tt [] F') -> fwp E pid (releasesleep (SLinode ip)) [] F Q.
Proof.
  intros Ht HQ. unfold releasesleep. apply fwp_bind, fwp_acquire; [apply not_elem_of_nil|]. apply fwp_bind. cbn [setsl].
  eapply fwp_seti; [exact Hip|exact Ht|]. intros F1 H1. apply fwp_bind, fwp_wakeup.
  - intros j. by rewrite list_elem_of_singleton.
  - by rewrite list_elem_of_singleton.
  - apply fwp_release; [apply not_elem_of_nil|]. by apply HQ.
Qed.
Lemma fwp_ilock x L bl F (Q : unit -> list lockid -> fsys -> Prop) : tx x L [] bl F -> i_dev x = dev -> 0 <= i_inum x < sb_ninodes sb -> 1 <= i_ref x ->
  sl_locked (i_lock x) = 0 -> di_type (on_disk sb L (i_inum x)) <> 0 -> room size bl 0 ->
  (forall F', tx (ilocked L x) L [] bl F' -> Q tt [] F') -> fwp E pid (ilock (Some ip)) [] F Q.
Proof.
  intros Ht Hd Hi Href Hl Hty Hroom HQ. pose proof (lay_order _ _ _ _ Hlay). destruct (IBLOCK_range _ Hi) as [_ Hb]. unfold ilock.
  apply fwp_bind. eapply fwp_geti; [exact Hip|exact Ht|]. rewrite (proj2 (Z.ltb_ge _ _)) by lia. apply fwp_bind.
  eapply fwp_acquiresleep_i; [exact Ht|done|apply not_elem_of_nil|]. intros F1 H1. unfold ilocked in HQ.
 apply fwp_bind. eapply fwp_geti; [exact Hip|exact H1|].
  destruct (i_valid (with_lock x _) =? 0); [|by apply fwp_ret, HQ].
  apply fwp_bind. eapply tx_sb; [exact H1|]. change ((with_ip O ip _).1.2) with (O.1.2). change (i_dev (with_lock x _)) with (i_dev x).
  change (i_inum (with_lock x _)) with (i_inum x) in *. rewrite Hsb, Hd. apply fwp_bind.
  eapply tx_bread; [exact Hdev|exact law|exact H1|apply not_elem_of_nil| |lia|].
  { eapply room_buf; [exact Hroom|lia|apply (held_none sb data0 L)]. }
  intros bp F2 H2 Hcl. apply fwp_bind. eapply tx_getb; [exact H2|left|]. intros b ->. fold (on_disk sb L (i_inum x)).
  apply fwp_bind. eapply fwp_seti; [exact Hip|exact H2|]. intros F3 H3. apply fwp_bind. eapply tx_brelse; [exact Hdev|exact H3|exact Hcl|].
  intros F4 H4. apply fwp_bind. eapply fwp_seti; [exact Hip|exact H4|]. intros F5 H5. apply fwp_bind. eapply fwp_geti; [exact Hip|exact H5|].
  match goal with |- fwp _ _ (if ?t =? 0 then _ else _) _ _ _ => change t with (di_type (on_disk sb L (i_inum x))) end.
  rewrite (proj2 (Z.eqb_neq _ _) Hty). apply fwp_ret, HQ, H5.
Qed.
Lemma fwp_iunlock x L bl F (Q : unit -> list lockid -> fsys -> Prop) : tx x L [] bl F -> 1 <= i_ref x -> i_lock x = mkSleeplock 1 pid ->
  (forall F', tx (with_lock x (mkSleeplock 0 0)) L [] bl F' -> Q tt [] F') -> fwp E pid (iunlock (Some ip)) [] F Q.
Proof.
  intros Ht Href Hl HQ. unfold iunlock. apply fwp_bind. unfold holdingsleep. apply fwp_bind, fwp_acquire; [apply not_elem_of_nil|]. cbn [getsl].
  apply fwp_bind, fwp_bind. eapply fwp_geti; [exact Hip|exact Ht|]. apply fwp_ret. rewrite Hl. cbn [sl_locked sl_pid Z.eqb negb].
  apply fwp_bind, fwp_bind, fwp_mypid. apply fwp_ret. apply fwp_bind, fwp_release; [apply not_elem_of_nil|]. apply fwp_ret. rewrite Z.eqb_refl. cbn [negb].
  apply fwp_bind. eapply fwp_geti; [exact Hip|exact Ht|]. rewrite (proj2 (Z.ltb_ge _ _)) by lia.
  by eapply fwp_releasesleep_i.
Qed.
End iupdate.
End DinodeSpec.
