(* ===== verification/RwSpec.v ===== *)
(** * Reading and writing files: readi, writei and iupdate

    readi returns the bytes of the file; writei puts bytes into it, extends it
    where needed and writes the inode back. *)

From S2P Require Import Prelude State Spinlock CString Mem Sched FileLayer Proc PsList Console Bio BufCache Log FsLogic BufSpec LogSpec TxnSpec Fs BlockSpec FileSpec InodeSpec DinodeSpec.

Module RwSpec.
Import BufCache FsLogic BufSpec LogSpec TxnSpec BlockSpec FileSpec InodeSpec DinodeSpec Log Fs.

(** ** Bytes of blocks and files *)
Lemma blk_put_lookup d o v i : (o <= length d)%nat ->
  blk_put d o v !! i = if decide (o <= i < o + length v)%nat then v !! (i - o)%nat else d !! i.
Proof.
  intros Hl. unfold blk_put. assert (Ht : length (take o d) = o) by (rewrite length_take; lia). case_decide as Hd.
  - rewrite lookup_app_r, Ht, lookup_app_l by lia. done.
  - destruct (decide (i < o)%nat).
    + rewrite lookup_app_l, lookup_take_lt by lia. done.
    + rewrite lookup_app_r, Ht, lookup_app_r, lookup_drop by lia. f_equal. lia.
Qed.
Definition fbytes (L : Z -> list Z) (ad : list Z) (off n : Z) : list Z := (fun i => fbyte L ad (off + Z.of_nat i)) <$> seq 0 (Z.to_nat n).
Lemma fbytes_lookup L ad n i : fbytes L ad 0 n !! i = if decide (i < Z.to_nat n)%nat then Some (fbyte L ad (Z.of_nat i)) else None.
Proof.
  unfold fbytes. rewrite list_lookup_fmap. case_decide; [by rewrite lookup_seq_lt|]. rewrite lookup_ge_None_2; [done|]. rewrite length_seq. lia.
Qed.
Lemma fbytes_app L ad off m n : 0 <= m -> 0 <= n -> fbytes L ad off (m + n) = fbytes L ad off m ++ fbytes L ad (off + m) n.
Proof.
  intros Hm Hn. unfold fbytes. rewrite Z2Nat.inj_add, seq_app, fmap_app by lia. f_equal.
  replace (0 + Z.to_nat m)%nat with (Z.to_nat m + 0)%nat by lia. rewrite <- fmap_add_seq, <- list_fmap_compose.
  apply list_fmap_ext. intros _ i _. simpl. f_equal. lia.
Qed.
Lemma div_in bn o : 0 <= o < BSIZE -> (bn * BSIZE + o) / BSIZE = bn /\ (bn * BSIZE + o) mod BSIZE = o.
Proof. intros Ho. rewrite Z.add_comm, Z.div_add, Z_mod_plus_full, Z.div_small, Z.mod_small by (done || lia). lia. Qed.
Lemma off_div off : off = off / BSIZE * BSIZE + off mod BSIZE /\ 0 <= off mod BSIZE < BSIZE.
Proof. pose proof (Z.div_mod off BSIZE ltac:(done)). pose proof (Z.mod_pos_bound off BSIZE ltac:(done)). lia. Qed.
(** The part of a block from [off] on. *)
Lemma chunk L ad off m : length (fblock L ad (off / BSIZE)) = 1024%nat -> 0 <= m <= BSIZE - off mod BSIZE ->
  blk_get (fblock L ad (off / BSIZE)) (Z.to_nat (off mod BSIZE)) (Z.to_nat m) = fbytes L ad off m.
Proof.
  intros Hlen Hm. destruct (off_div off) as [Eo Ho]. apply list_eq. intros i.
  unfold blk_get, fbytes. rewrite list_lookup_fmap. pose proof (div_in (off / BSIZE) (off mod BSIZE + Z.of_nat i)) as Hdiv. unfold BSIZE in *. destruct (decide (i < Z.to_nat m)%nat) as [Hi|Hi].
  - rewrite lookup_take_lt, lookup_drop, lookup_seq_lt by lia. cbn. unfold fbyte.
    replace (off + Z.of_nat i) with (off / 1024 * 1024 + (off mod 1024 + Z.of_nat i)) by lia. unfold BSIZE. destruct Hdiv as [-> ->]; [lia|].
    destruct (lookup_lt_is_Some_2 (fblock L ad (off / 1024)) (Z.to_nat (off mod 1024) + i)) as [y Hy]; [lia|].
    rewrite Hy. replace (Z.to_nat (off mod 1024 + Z.of_nat i)) with (Z.to_nat (off mod 1024) + i)%nat by lia. by rewrite Hy.
  - rewrite lookup_take_ge by lia. rewrite lookup_ge_None_2; [done|]. rewrite length_seq. lia.
Qed.

(** The blocks below byte [p] have been allocated. *)
Definition dense (L : Z -> list Z) (ad : list Z) (p : Z) : Prop := forall bn, 0 <= bn -> bn * BSIZE < p -> slot L ad (place bn) <> 0.
Lemma dense_at L ad p off : dense L ad p -> 0 <= off < p -> slot L ad (place (off / BSIZE)) <> 0.
Proof. intros Hd Ho. destruct (off_div off) as [Eo Hm]. apply Hd; [apply Z.div_pos; [lia|done]|lia]. Qed.
Lemma block_range off n : 0 <= off -> 0 < n -> off + n <= MAXFILE * BSIZE -> 0 <= off / BSIZE < MAXFILE.
Proof. intros Ho Hn Hm. split; [apply Z.div_pos; [lia|done]|]. apply Z.div_lt_upper_bound; [done|lia]. Qed.
(** [k] rounds are enough for [left] bytes from [off] on. *)
Definition rounds (k : nat) (off left : Z) : Prop := left = 0 \/ off mod BSIZE + left <= Z.of_nat k * BSIZE.
Definition step (off left : Z) : Z := Z.min left (BSIZE - off mod BSIZE).
Lemma rounds_start off n : 0 <= n -> rounds (Z.to_nat (n / BSIZE + 2)) off n.
Proof. intros Hn. right. destruct (off_div off), (off_div n). pose proof (Z.div_pos n BSIZE). unfold BSIZE in *. lia. Qed.
(** After a round, either all is done or a block begins. *)
Lemma step_next off left : 0 < left -> 0 < step off left <= left /\ (step off left = left \/ (off + step off left) mod BSIZE = 0).
Proof.
  intros Hl. destruct (off_div off) as [Eo Hm]. unfold step. split; [lia|]. destruct (decide (left <= BSIZE - off mod BSIZE)); [left; lia|right].
  rewrite Z.min_r by lia. replace (off + _) with ((off / BSIZE + 1) * BSIZE) by lia. by apply Z.mod_mul.
Qed.
Lemma rounds_step k off left : 0 < left -> rounds (S k) off left -> rounds k (off + step off left) (left - step off left).
Proof.
  intros Hl [|Hr]; [lia|]. destruct (step_next off left Hl) as [Hs [E|E]]; [left; lia|]. destruct (decide (step off left = left)) as [|Hn]; [left; lia|].
  right. rewrite E. unfold step in *. lia.
Qed.
Lemma rounds_zero off left : 0 < left -> ~ rounds 0 off left.
Proof. intros Hl [|Hr]; [lia|]. destruct (off_div off). lia. Qed.

(** What a write of [left] bytes at [off] may cost in the log: for a new block
    itself and its bitmap block. *)
Fixpoint budget (k : nat) (off left : Z) : Z :=
  if left <=? 0 then 0 else
  match k with
  | O => 0
  | S k => (if off mod BSIZE =? 0 then 2 else 1) + budget k (off + step off left) (left - step off left)
  end.
Lemma budget_nonneg k : forall off left, 0 <= budget k off left.
Proof. induction k as [|k IH]; intros off left; cbn [budget]; case_match; try lia. specialize (IH (off + step off left) (left - step off left)). case_match; lia. Qed.
(** A write of at most three blocks costs at most 7. *)
Lemma budget_aligned k : forall off left, off mod BSIZE = 0 -> 0 <= left -> budget k off left <= 2 * ((left + BSIZE - 1) / BSIZE).
Proof.
  induction k as [|k IH]; intros off left Hm Hl; cbn [budget]; destruct (Z.leb_spec left 0);
    try (pose proof (Z.div_pos (left + BSIZE - 1) BSIZE); unfold BSIZE in *; lia).
  rewrite Hm. cbn [Z.eqb]. assert (Es : step off left = Z.min left BSIZE) by (unfold step; rewrite Hm; lia). rewrite Es.
  destruct (decide (left <= BSIZE)).
  - rewrite Z.min_l, Z.sub_diag by done. assert (budget k (off + left) 0 = 0) as -> by (by destruct k). pose proof (Z.div_le_mono BSIZE (left + BSIZE - 1) BSIZE). change (BSIZE / BSIZE) with 1 in *. unfold BSIZE in *. lia.
  - rewrite Z.min_r by lia. specialize (IH (off + BSIZE) (left - BSIZE)). rewrite <- Zplus_mod_idemp_l, Hm in IH. specialize (IH eq_refl ltac:(lia)).
    replace (left + BSIZE - 1) with (left - BSIZE + BSIZE - 1 + 1 * BSIZE) by lia. rewrite Z.div_add by done. lia.
Qed.
Lemma budget_bound k off left : 0 <= left <= 3 * BSIZE -> budget k off left <= 7.
Proof.
  intros Hl. assert (Hdiv : forall n, 0 <= n <= 3 * BSIZE -> 2 * ((n + BSIZE - 1) / BSIZE) <= 6).
  { intros n Hn. pose proof (Z.div_le_mono (n + BSIZE - 1) (3 * BSIZE + BSIZE - 1) BSIZE). change ((3 * BSIZE + BSIZE - 1) / BSIZE) with 3 in *. unfold BSIZE in *. lia. }
  destruct (decide (off mod BSIZE = 0)) as [E|E].
  { pose proof (budget_aligned k off left E ltac:(lia)). specialize (Hdiv left Hl). lia. }
  destruct k as [|k]; cbn [budget]; destruct (Z.leb_spec left 0); try lia. rewrite (proj2 (Z.eqb_neq _ _) E). destruct (step_next off left) as [Hs [En|En]]; [lia| |].
  - rewrite En, Z.sub_diag. assert (budget k (off + left) 0 = 0) as -> by (by destruct k). lia.
  - pose proof (budget_aligned k _ (left - step off left) En ltac:(lia)). specialize (Hdiv (left - step off left)). lia.
Qed.

(** A block of which a part below [P] is written is there already. *)
Lemma new_block_aligned L ad P off : dense L ad P -> 0 <= off <= P -> slot L ad (place (off / BSIZE)) = 0 -> off mod BSIZE = 0.
Proof.
  intros Hd Ho E0. destruct (off_div off). destruct (decide (off mod BSIZE = 0)); [done|]. destruct (Hd (off / BSIZE)); [apply Z.div_pos; [lia|done]|lia|done].
Qed.

Section rw.
Context (E : env) (pid dev : Z) (Hdev : dev <> 0).
Context {fuel : Fuel} {disk : Disk} {law : DiskLaw E pid}.
Context (sb : superblock) (start size data0 : Z) (Hlay : layout sb start size data0).
Context (O : outer_t) (ip : nat) (Hsb : O.1.2 = sb) (Hip : (ip < length O.1.1)%nat).
Notation fwp := (fwp E pid).
Notation tx x := (tx pid dev start size (with_ip O ip x)).
Notation file_ok := (file_ok sb data0).
Notation disk_ok := (disk_ok sb data0).
Notation avail := (avail sb data0).
Notation ext := (ext sb data0).
Notation fits := (fits size).

Lemma file_sized L ad i : disk_ok L -> file_ok L ad -> 0 <= i < NSLOT -> slot L ad i <> 0 -> length (L (slot L ad i)) = 1024%nat.
Proof. intros [HL _] Hok Hi Hne. destruct (f_data _ _ _ _ Hok i Hi Hne) as [Hr _]. pose proof (lay_order _ _ _ _ Hlay). apply HL. lia. Qed.
Lemma fblock_length L ad bn : disk_ok L -> file_ok L ad -> 0 <= bn < MAXFILE -> length (fblock L ad bn) = 1024%nat.
Proof.
  intros HL Hok Hbn. unfold fblock. destruct (Z.eqb_spec (slot L ad (place bn)) 0); [done|]. apply file_sized; [done|done|by apply place_range|done].
Qed.
Lemma fwp_readi_loop k : forall off left tot acc x L bl F (Q : Z * list Z -> list lockid -> fsys -> Prop),
  tx x L [] bl F -> i_dev x = dev -> disk_ok L -> file_ok L (i_addrs x) -> fits (i_addrs x) bl 0 ->
  0 <= off -> 0 <= left -> off + left <= MAXFILE * BSIZE -> rounds k off left -> dense L (i_addrs x) (off + left) ->
  (forall F', tx x L [] bl F' -> Q (tot + left, acc ++ fbytes L (i_addrs x) off left) [] F') ->
  fwp (readi_loop k ip DLocal off left tot acc) [] F Q.
Proof.
  induction k as [|k IH]; intros off left tot acc x L bl F Q Ht Hd HL Hok Hfit Ho Hl Hmax Hr Hdense HQ; cbn [readi_loop];
    destruct (Z.leb_spec left 0) as [Hle|Hgt]; try (assert (left = 0) as -> by lia; apply fwp_ret; specialize (HQ F Ht); by rewrite Z.add_0_r, app_nil_r in HQ).
  { destruct (rounds_zero off left); done. }
  pose proof (block_range off left Ho Hgt Hmax) as Hbn. pose proof (dense_at _ _ _ off Hdense ltac:(lia)) as Hhit.
  apply fwp_bind. eapply fwp_bmap; [exact Hdev|exact law|exact Hlay|exact Hsb|exact Hip|exact Ht|done..|].
  intros a L' ad' bl' F1 H1 Hm. destruct (m_hit _ _ _ _ _ _ _ _ _ _ Hm Hhit) as (-> & -> & ->). rewrite set_addrs_same in H1.
  destruct (m_addr _ _ _ _ _ _ _ _ _ _ Hm) as [Ha Ea]. rewrite (proj2 (Z.eqb_neq _ _) Ha). clear Hm.
  destruct (f_data _ _ _ _ Hok (place (off / BSIZE)) ltac:(by apply place_range) Hhit) as [Hrng _]. pose proof (lay_order _ _ _ _ Hlay).
  apply fwp_bind. eapply fwp_geti; [exact Hip|exact H1|]. rewrite Hd. apply fwp_bind.
  eapply tx_bread; [exact Hdev|exact law|exact H1|apply not_elem_of_nil| |lia|].
  { eapply room_buf; [by eapply fits_room|lia|apply (held_none sb data0 L)]. }
  intros bp F2 H2 Hcl. apply fwp_bind. eapply tx_getb; [exact H2|left|]. intros y Ey.
  assert (Hfb : b_data y = fblock L (i_addrs x) (off / BSIZE)) by (rewrite Ey; unfold fblock; by rewrite (proj2 (Z.eqb_neq _ _) Hhit), Ea).
  rewrite Hfb. change (Z.min left (BSIZE - off mod BSIZE)) with (step off left). destruct (step_next off left Hgt) as [Hs _].
  rewrite chunk; [|by apply fblock_length|unfold step in *; lia]. apply fwp_bind. apply fwp_ret. cbn [Z.eqb]. apply fwp_bind.
  eapply tx_brelse; [exact Hdev|exact H2|exact Hcl|]. intros F3 H3.
  eapply IH; [exact H3|done|done|done|done|lia|lia|lia|by apply rounds_step|by replace (off + step off left + _) with (off + left) by lia|].
  intros F' H'. specialize (HQ F' H'). rewrite <- app_assoc, <- fbytes_app by lia. by replace (step off left + (left - step off left)) with left by lia; replace (tot + step off left + _) with (tot + left) by lia.
Qed.

(** ** writei *)
(** The bytes [bs] are in the file at [off], the others are as they were. *)
Record wrote (P off : Z) (bs : list Z) (n : Z) (L : Z -> list Z) (ad bl : list Z) (L' : Z -> list Z) (ad' bl' : list Z) : Prop := {
  w_disk : disk_ok L';
  w_file : file_ok L' ad';
  w_dense : dense L' ad' (Z.max P (off + Z.of_nat (length bs)));
  w_ext : ext n L ad bl L' ad' bl';
  w_byte : forall p, 0 <= p < MAXFILE * BSIZE -> fbyte L' ad' p =
    if decide (off <= p < off + Z.of_nat (length bs)) then default 0 (bs !! Z.to_nat (p - off)) else fbyte L ad p }.
Lemma wrote_nil P off L ad bl : disk_ok L -> file_ok L ad -> dense L ad P -> off <= P -> wrote P off [] 0 L ad bl L ad bl.
Proof.
  intros HL Hok Hd Ho. split; [done|done| |apply ext_refl|].
  - cbn. by rewrite Z.add_0_r, Z.max_l by lia.
  - intros p Hp. by rewrite decide_False by (cbn; lia).
Qed.
Lemma wrote_app P off c1 c2 n1 n2 L ad bl L1 ad1 bl1 L2 ad2 bl2 : 0 <= off -> let P1 := Z.max P (off + Z.of_nat (length c1)) in
  wrote P off c1 n1 L ad bl L1 ad1 bl1 -> wrote P1 (off + Z.of_nat (length c1)) c2 n2 L1 ad1 bl1 L2 ad2 bl2 -> wrote P off (c1 ++ c2) (n1 + n2) L ad bl L2 ad2 bl2.
Proof.
  intros Ho P1 [] []. split; [done|done| |by eapply ext_trans|].
  - rewrite length_app. unfold P1 in w_dense1. intros bn Hbn Hp. apply w_dense1; [done|lia].
  - intros p Hp. rewrite length_app, w_byte1, w_byte0 by done. repeat case_decide; try lia; try done.
    + rewrite lookup_app_r by lia. do 2 f_equal. lia.
    + by rewrite lookup_app_l by lia.
Qed.
Lemma dense_ext n L ad bl L' ad' bl' p : ext n L ad bl L' ad' bl' -> p <= MAXFILE * BSIZE -> dense L ad p -> dense L' ad' p.
Proof.
  intros He Hp Hd bn Hbn Hlt. specialize (Hd bn Hbn Hlt). destruct (place_range bn) as [Hr _]; [unfold BSIZE in *; lia|].
  by rewrite (ext_keep _ _ _ _ _ _ _ _ _ _ He Hr Hd).
Qed.
(** One round: the block of [off] is mapped, and [c] put into it. *)
Lemma wrote_round P off c L ad bl a L1 ad1 bl1 : 0 <= off <= P -> P <= MAXFILE * BSIZE -> (0 < length c)%nat -> off mod BSIZE + Z.of_nat (length c) <= BSIZE ->
  off + Z.of_nat (length c) <= MAXFILE * BSIZE -> dense L ad P -> mapped sb data0 (off / BSIZE) L ad bl a L1 ad1 bl1 ->
  wrote P off c (if off mod BSIZE =? 0 then 2 else 1) L ad bl (upd_block L1 a (blk_put (L1 a) (Z.to_nat (off mod BSIZE)) c)) ad1 (logged bl1 a).
Proof.
  intros Ho HP Hc Hfit Hmax Hd Hm. destruct (off_div off) as [Eo Hmod]. pose proof (block_range off (Z.of_nat (length c)) ltac:(lia) ltac:(lia) Hmax) as Hbn.
  destruct Hm as [HL1 Hok1 [Ha0 Ha] Hsame Hext Hnew Hhit _]. subst a. set (a := slot L1 ad1 _) in *.
  assert (Hlen : length (L1 a) = 1024%nat) by (apply file_sized; [done|done|by apply place_range|done]).
  assert (Hlp : length (blk_put (L1 a) (Z.to_nat (off mod BSIZE)) c) = 1024%nat) by (rewrite blk_put_length; unfold BSIZE in *; lia).
  assert (HE : ext (if off mod BSIZE =? 0 then 2 else 1) L ad bl (upd_block L1 a (blk_put (L1 a) (Z.to_nat (off mod BSIZE)) c)) ad1 (logged bl1 a)).
  { destruct (Z.eqb_spec (slot L ad (place (off / BSIZE))) 0) as [E0|Hne].
    - rewrite (new_block_aligned _ _ _ _ Hd Ho E0). eapply (ext_trans _ _ _ _ Hlay 2 0); [exact Hext|]. eapply put_ext_in; [exact Hlay|done..|by apply Hnew].
    - apply ext_weaken with 1; [|case_match; lia]. eapply (ext_trans _ _ _ _ Hlay 0 1); [exact Hext|]. by eapply put_ext. }
  split; [by eapply put_disk_ok|by eapply put_ok| |done|].
  - intros bn Hb Hlt. destruct (decide (bn * BSIZE < P)) as [Hp|Hp]; [by apply (dense_ext _ _ _ _ _ _ _ P HE)|].
    assert (bn = off / BSIZE) as -> by (unfold BSIZE in *; lia). unfold a. rewrite (put_slot sb data0) by (done || by apply place_range). done.
  - intros p Hp. destruct (off_div p) as [Ep Hpm]. unfold fbyte, a.
    rewrite (put_fblock sb data0); [fold a|done|done|done|split; [apply Z.div_pos; [lia|done]|apply Z.div_lt_upper_bound; [done|lia]]].
    destruct (decide (p / BSIZE = off / BSIZE)) as [Eb|Eb].
    + rewrite blk_put_lookup by (unfold BSIZE in *; lia). replace (L1 a) with (fblock L ad (p / BSIZE)).
      2: { rewrite Eb, <- Hsame by done. unfold fblock. fold a. by rewrite (proj2 (Z.eqb_neq _ _) Ha0). }
      rewrite Eb in Ep. repeat case_decide; try (unfold BSIZE in *; lia); try done. do 2 f_equal. lia.
    + rewrite Hsame by (split; [apply Z.div_pos; [lia|done]|apply Z.div_lt_upper_bound; [done|lia]]). rewrite decide_False; [done|].
      intros Hin. apply Eb. unfold BSIZE in *. lia.
Qed.
Lemma avail_same L L' n : (forall b, 0 <= b < sb_size sb -> used sb L' b = used sb L b) -> avail L n -> avail L' n.
Proof.
  intros Hu (fs & Hnd & Hlen & Hfs). exists fs. split_and!; [done|done|]. intros c Hc. destruct (Hfs c Hc) as [Hr Hf]. split; [done|].
  pose proof (lay_order _ _ _ _ Hlay). rewrite Hu by lia. done.
Qed.
Lemma fwp_writei_loop k : forall off tot bs x L bl F P (Q : Z * Z -> list lockid -> fsys -> Prop),
  let left := Z.of_nat (length bs) in let ad := i_addrs x in
  tx x L [] bl F -> i_dev x = dev -> disk_ok L -> file_ok L ad -> fits ad bl (budget k off left) -> avail L (k + need ad) ->
  0 <= off <= P -> P <= MAXFILE * BSIZE -> off + left <= MAXFILE * BSIZE -> rounds k off left -> dense L ad P ->
  (forall L' ad' bl' F', tx (set_addrs x ad') L' [] bl' F' -> wrote P off bs (budget k off left) L ad bl L' ad' bl' -> Q (tot + left, off + left) [] F') ->
  fwp (writei_loop k ip (SLocal bs) off left tot) [] F Q.
Proof.
  induction k as [|k IH]; intros off tot bs x L bl F P Q left ad Ht Hd HL Hok Hfit Hav Ho HP Hmax Hr Hdense HQ; cbn [writei_loop budget] in *;
    destruct (Z.leb_spec left 0) as [Hle|Hgt];
    try (destruct bs; [|unfold left in Hle; cbn [length] in Hle; lia]; apply fwp_ret; unfold left in *; cbn in HQ; rewrite !Z.add_0_r in HQ;
         eapply HQ; [rewrite set_addrs_same; exact Ht|apply wrote_nil; [done..|lia]]).
  { destruct (rounds_zero off left); done. }
  pose proof (block_range off left ltac:(lia) Hgt Hmax) as Hbn. set (n1 := if off mod BSIZE =? 0 then 2 else 1) in *.
  pose proof (budget_nonneg k (off + step off left) (left - step off left)) as Hbud. set (n2 := budget k _ _) in *.
  assert (Hn1 : 1 <= n1 <= 2) by (unfold n1; case_match; lia).
  apply fwp_bind. eapply fwp_bmap; [exact Hdev|exact law|exact Hlay|exact Hsb|exact Hip|exact Ht|done|done|done|done|..].
  { unfold InodeSpec.fits in *. fold ad. lia. }
  { intros E0. fold ad in E0 |- *. assert (n1 = 2) by (unfold n1; by rewrite (new_block_aligned _ _ _ _ Hdense Ho E0)).
    split; [unfold InodeSpec.fits in *; lia|]. destruct Hav as (fs & ? & ? & ?). exists fs. split_and!; [done|lia|done]. }
  intros a L1 ad1 bl1 F1 H1 Hm. destruct (m_addr _ _ _ _ _ _ _ _ _ _ Hm) as [Ha Ea]. rewrite (proj2 (Z.eqb_neq _ _) Ha).
  pose proof (m_file _ _ _ _ _ _ _ _ _ _ Hm) as Hok1. destruct (step_next off left Hgt) as [Hs _].
  destruct (put_data sb data0 L1 ad1 (off / BSIZE) Hok1 Hbn ltac:(congruence)) as [Hlo Hhi]. rewrite Ea in Hlo, Hhi. pose proof (lay_order _ _ _ _ Hlay).
  set (c := take (Z.to_nat (step off left)) bs). assert (Hc : Z.of_nat (length c) = step off left) by (unfold c; rewrite length_take; unfold left in *; lia).
  assert (Hdrop : Z.of_nat (length (drop (Z.to_nat (step off left)) bs)) = left - step off left) by (rewrite length_drop; unfold left in *; lia).
  assert (Hw : wrote P off c n1 L ad bl (upd_block L1 a (blk_put (L1 a) (Z.to_nat (off mod BSIZE)) c)) ad1 (logged bl1 a)).
  { apply wrote_round; [lia|done|lia|rewrite Hc; unfold step; lia|lia|done|done]. }
  pose proof (e_cost _ _ _ _ _ _ _ _ _ (m_ext _ _ _ _ _ _ _ _ _ _ Hm)) as Hcost1. pose proof (e_cost _ _ _ _ _ _ _ _ _ (w_ext _ _ _ _ _ _ _ _ _ _ Hw)) as Hcost2.
  pose proof (ipot_bound ad1 bl1) as Hip1. unfold InodeSpec.fits, NBUF, MAXOPBLOCKS in Hfit.
  assert (Hn2 : (if slot L ad (place (off / BSIZE)) =? 0 then 2 else 0) <= n1).
  { destruct (Z.eqb_spec (slot L ad (place (off / BSIZE))) 0) as [E0|]; [|lia]. unfold n1. by rewrite (new_block_aligned _ _ _ _ Hdense Ho E0). }
  apply fwp_bind. eapply fwp_geti; [exact Hip|exact H1|]. change (i_dev (set_addrs x ad1)) with (i_dev x). rewrite Hd. apply fwp_bind.
  eapply tx_bread; [exact Hdev|exact law|exact H1|apply not_elem_of_nil| |lia|].
  { unfold NBUF, MAXOPBLOCKS, cost in *. cbn [length]. fold ad in Hcost1. lia. }
  intros bp F2 H2 _. change (Z.min left (BSIZE - off mod BSIZE)) with (step off left). apply fwp_bind. cbn [copy_from]. apply fwp_ret. cbn [fst snd].
  apply fwp_bind. eapply tx_put; [exact Hdev|exact H2|left|]. fold c. intros F3 H3. cbn [Z.eqb]. apply fwp_bind.
  eapply tx_log_write; [exact Hdev|exact law|exact H3|left|apply (lay_outside _ _ _ _ Hlay); lia|unfold cost in *; fold ad in Hcost1; lia|].
  intros F4 H4. apply fwp_bind. eapply tx_brelse; [exact Hdev|exact H4|left; apply elem_of_logged; by left|].
  intros F5 H5. cbn [source_add]. rewrite <- Hdrop.
  eapply (IH (off + step off left) (tot + step off left) _ (set_addrs x ad1) _ _ _ (Z.max P (off + step off left))); [exact H5|done|apply Hw|apply Hw|..].
  - rewrite Hdrop. fold n2. unfold InodeSpec.fits, NBUF, MAXOPBLOCKS. change (i_addrs (set_addrs x ad1)) with ad1. lia.
  - apply (avail_same L1). { intros b Hb. subst a. rewrite (put_used sb start size data0) by done. done. }
    change (i_addrs (set_addrs x ad1)) with ad1. apply (m_avail _ _ _ _ _ _ _ _ _ _ Hm). by rewrite <- Nat.add_succ_l.
  - lia.
  - lia.
  - lia.
  - rewrite Hdrop. by apply rounds_step.
  - pose proof (w_dense _ _ _ _ _ _ _ _ _ _ Hw) as Hd'. by rewrite Hc in Hd'.
  - rewrite Hdrop. change (i_addrs (set_addrs x ad1)) with ad1. fold n2. intros L' ad' bl' F' H' Hw'. rewrite set_addrs_twice in H'.
    replace (tot + step off left + _) with (tot + left) by lia. replace (off + step off left + _) with (off + left) by lia. eapply HQ; [exact H'|].
    rewrite <- (take_drop (Z.to_nat (step off left)) bs). eapply wrote_app; [lia|exact Hw|]. fold c. by rewrite Hc.
Qed.

(** ** The operations *)
Lemma max_file : MAXFILE * BSIZE = 274432.
Proof. done. Qed.
(** readi returns the bytes from [off] on, up to the end of the file. *)
Lemma fwp_readi off n x L bl F (Q : Z * list Z -> list lockid -> fsys -> Prop) : let ad := i_addrs x in let m := Z.min n (i_size x - off) in
  tx x L [] bl F -> i_dev x = dev -> disk_ok L -> file_ok L ad -> fits ad bl 0 -> dense L ad (i_size x) -> i_size x <= MAXFILE * BSIZE ->
  0 <= off <= i_size x -> 0 <= n -> off + n < 2 ^ 32 ->
  (forall F', tx x L [] bl F' -> Q (m, fbytes L ad off m) [] F') -> fwp (readi ip DLocal off n) [] F Q.
Proof.
  intros ad m Ht Hd HL Hok Hfit Hdense Hmax Ho Hn Hw HQ. unfold readi. apply fwp_bind. eapply fwp_geti; [exact Hip|exact Ht|]. rewrite u32_small by lia.
  rewrite (proj2 (Z.ltb_ge _ _)), (proj2 (Z.ltb_ge (off + n) off)) by lia. cbn [orb].
  assert ((if i_size x <? off + n then i_size x - off else n) = m) as -> by (unfold m; destruct (Z.ltb_spec (i_size x) (off + n)); lia).
  assert (Hm : 0 <= m /\ off + m <= i_size x) by lia.
  eapply fwp_readi_loop; [exact Ht|done|done|done|done|lia|lia|lia|apply rounds_start; lia| |exact HQ].
  intros bn Hbn Hlt. apply Hdense; [done|lia].
Qed.
(** The inode after a write. *)
Definition grown (x : inode) (ad : list Z) (n : Z) : inode := (set_addrs x ad) <| i_size := Z.max (i_size x) n |>.
Lemma fwp_writei off bs x L bl F (Q : Z -> list lockid -> fsys -> Prop) : let n := Z.of_nat (length bs) in let ad := i_addrs x in
  let k := Z.to_nat (n / BSIZE + 2) in
  tx x L [] bl F -> i_dev x = dev -> 0 <= i_inum x < sb_ninodes sb -> disk_ok L -> file_ok L ad -> fits ad bl (budget k off n) -> avail L (k + need ad) ->
  0 <= off <= i_size x -> i_size x <= MAXFILE * BSIZE -> off + n <= MAXFILE * BSIZE -> dense L ad (i_size x) ->
  (forall L' ad' bl' F', let x' := grown x ad' (off + n) in tx x' (iupdated sb L' x') [] (logged bl' (IBLOCK (i_inum x) sb)) F' ->
     wrote (i_size x) off bs (budget k off n) L ad bl L' ad' bl' -> Q n [] F') ->
  fwp (writei ip (SLocal bs) off n) [] F Q.
Proof.
  intros n ad k Ht Hd Hi HL Hok Hfit Hav Ho Hsz Hmax Hdense HQ. pose proof max_file as Hmf. unfold writei. apply fwp_bind. eapply fwp_geti; [exact Hip|exact Ht|].
  rewrite u32_small by lia. rewrite (proj2 (Z.ltb_ge _ _)), (proj2 (Z.ltb_ge (off + n) off)), (proj2 (Z.ltb_ge (MAXFILE * BSIZE) _)) by lia. cbn [orb].
  apply fwp_bind. fold k. eapply (fwp_writei_loop k off 0 bs x L bl F (i_size x)); [exact Ht|done|done|done|done|done|lia|lia|done|apply rounds_start; lia|done|].
  intros L' ad' bl' F1 H1 Hw. fold n ad in Hw |- *. cbn [fst snd]. apply fwp_bind. eapply fwp_geti; [exact Hip|exact H1|]. change (i_size (set_addrs x ad')) with (i_size x).
  apply fwp_bind. apply (fwp_mono _ _ _ _ _ (fun _ h F' => h = [] /\ tx (grown x ad' (off + n)) L' [] bl' F')).
  { unfold grown. destruct (Z.ltb_spec (i_size x) (off + n)); cbn [when].
    - eapply fwp_seti; [exact Hip|exact H1|]. intros F2 H2. split; [done|]. rewrite Z.max_r by lia. exact H2.
    - apply fwp_ret. split; [done|]. rewrite Z.max_l by lia. by destruct x. }
  intros [] h F2 [-> H2]. apply fwp_bind. eapply (fwp_iupdate _ _ _ _ Hlay); [exact Hdev|exact law|exact Hsb|exact Hip|exact H2|done|done| |].
  { pose proof (e_cost _ _ _ _ _ _ _ _ _ (w_ext _ _ _ _ _ _ _ _ _ _ Hw)). pose proof (ipot_bound ad' bl'). unfold InodeSpec.fits, room, cost in *. lia. }
  intros F3 H3. apply fwp_ret. eapply HQ; [exact H3|exact Hw].
Qed.
End rw.
End RwSpec.
