(* ===== verification/FreeSpec.v ===== *)
(** * Giving the blocks of a file back: itrunc

    itrunc frees every block of a file and makes it empty. *)

From S2P Require Import Prelude State Spinlock CString Mem Sched FileLayer Proc PsList Console Bio BufCache Log FsLogic BufSpec LogSpec TxnSpec Fs BlockSpec FileSpec InodeSpec DinodeSpec RwSpec.

Module FreeSpec.
Import BufCache FsLogic BufSpec LogSpec TxnSpec BlockSpec FileSpec InodeSpec DinodeSpec RwSpec Log Fs.

(** ** The bitmap *)
Definition nbitmap (sb : superblock) : Z := (sb_size sb - 1) / BPB + 1.
Definition in_bitmap (sb : superblock) (b : Z) : Prop := sb_bmapstart sb <= b < sb_bmapstart sb + nbitmap sb.
(** Distinct blocks of the bitmap are no more than there are. *)
Lemma bitmap_length sb bl : 0 <= nbitmap sb -> NoDup bl -> (forall b, b ∈ bl -> in_bitmap sb b) -> Z.of_nat (length bl) <= nbitmap sb.
Proof.
  intros Hn Hnd Hin. assert (Hs : bl ⊆+ seqZ (sb_bmapstart sb) (nbitmap sb)).
  { apply NoDup_submseteq; [done|]. intros b Hb. apply elem_of_seqZ. by apply Hin. }
  apply submseteq_length in Hs. rewrite length_seqZ in Hs. lia.
Qed.

Section free.
Context (sb : superblock) (start size data0 : Z) (Hlay : layout sb start size data0).
Notation used := (used sb).
Notation file_ok := (file_ok sb data0).
Notation disk_ok := (disk_ok sb data0).
Lemma BBLOCK_bitmap b : 0 <= b < sb_size sb -> in_bitmap sb (BBLOCK b sb).
Proof. intros Hb. pose proof (BPB_div sb b Hb). red. rewrite (BBLOCK_eq _ _ _ _ Hlay) by done. unfold nbitmap. lia. Qed.
Lemma bitmap_range b : in_bitmap sb b -> sb_bmapstart sb <= b < data0.
Proof. intros Hb. red in Hb. destruct Hlay. unfold nbitmap in Hb. lia. Qed.

(** ** Freeing the slots of a file one by one *)
Section slots.
Context (L : Z -> list Z) (ad : list Z) (HL : disk_ok L) (Hok : file_ok L ad).
(** [L'] is [L] with the blocks in the slots [J] freed. *)
Record freed (J : list Z) (L' : Z -> list Z) : Prop := {
  fr_same : forall b, ~ in_bitmap sb b -> L' b = L b;
  fr_sized : sized sb L';
  fr_used : forall b, 0 <= b < sb_size sb -> used L' b = true <-> used L b = true /\ forall j, j ∈ J -> slot L ad j <> 0 -> slot L ad j <> b }.
Lemma freed_nil : freed [] L.
Proof. split; [done|apply HL|]. intros b Hb. split; [intros H; split; [done|intros j []%elem_of_nil]|by intros []]. Qed.
Lemma freed_skip J L' j : freed J L' -> slot L ad j = 0 -> freed (j :: J) L'.
Proof.
  intros [H1 H2 H3] Hj. split; [done|done|]. intros b Hb. rewrite H3 by done. split; intros [Hu Hn]; (split; [done|]); intros i Hi Hne; [|apply Hn; [by right|done]].
  apply elem_of_cons in Hi as [->|Hi]; [done|by apply Hn].
Qed.
Lemma freed_used J L' j : freed J L' -> 0 <= j < NSLOT -> (forall i, i ∈ J -> 0 <= i < NSLOT) -> j ∉ J -> slot L ad j <> 0 ->
  data0 <= slot L ad j < sb_size sb /\ used L' (slot L ad j) = true.
Proof.
  intros [H1 H2 H3] Hj HJ Hn Hne. destruct (f_data _ _ _ _ Hok j Hj Hne) as [Hr Hu]. split; [done|]. pose proof (lay_order _ _ _ _ Hlay).
  apply H3; [lia|]. split; [done|]. intros i Hi Hnei E. apply Hn. by rewrite <- (f_inj _ _ _ _ Hok i j (HJ i Hi) Hj Hnei E).
Qed.
Lemma freed_step J L' j : freed J L' -> 0 <= j < NSLOT -> slot L ad j <> 0 -> freed (j :: J) (bfreed sb L' (slot L ad j)).
Proof.
  intros [H1 H2 H3] Hj Hne. destruct (f_data _ _ _ _ Hok j Hj Hne) as [Hr Hu]. pose proof (lay_order _ _ _ _ Hlay). split.
  - intros b Hb. unfold bfreed. rewrite upd_block_ne; [by apply H1|]. intros ->. apply Hb, BBLOCK_bitmap. lia.
  - apply (sized_bfreed _ _ _ _ Hlay); [done|lia].
  - intros b Hb. rewrite (used_bfreed _ _ _ _ Hlay) by done. destruct (decide (b = slot L ad j)) as [->|Hnb].
    + split; [done|]. intros [_ Hn]. by destruct (Hn j (list_elem_of_here _ _) Hne).
    + rewrite H3 by done. split; intros [Hu' Hn]; (split; [done|]); intros i Hi Hnei; [|apply Hn; [by right|done]].
      apply elem_of_cons in Hi as [->|Hi]; [congruence|by apply Hn].
Qed.
(** The other blocks of the file, and what they hold, are still there. *)
Lemma freed_block J L' b : freed J L' -> data0 <= b -> L' b = L b.
Proof. intros [H1 _ _] Hb. apply H1. intros H%bitmap_range. lia. Qed.
End slots.
End free.

(** ** itrunc *)
Section ops.
Context (E : env) (pid dev : Z) (Hdev : dev <> 0).
Context {fuel : Fuel} {disk : Disk} {law : DiskLaw E pid}.
Context (sb : superblock) (start size data0 : Z) (Hlay : layout sb start size data0) (Hlog : nbitmap sb + 2 <= Z.min (size - 1) (NBUF - 2)).
Context (O : outer_t) (ip : nat) (Hsb : O.1.2 = sb) (Hip : (ip < length O.1.1)%nat).
Notation fwp := (fwp E pid).
Notation tx x := (tx pid dev start size (with_ip O ip x)).
Context (L : Z -> list Z) (ad : list Z) (HL : disk_ok sb data0 L) (Hok : file_ok sb data0 L ad).
Notation freed := (freed sb L ad).
(** An open transaction in which only the bitmap has changed. *)
Definition ftx (x : inode) (held : list (nat * Z)) (J : list Z) (L' : Z -> list Z) (bl : list Z) (F : fsys) : Prop :=
  tx x L' held bl F /\ i_dev x = dev /\ freed J L' /\ (forall b, b ∈ bl -> in_bitmap sb b) /\ forall j, j ∈ J -> 0 <= j < NSLOT.

Lemma ftx_room x held J L' bl F : ftx x held J L' bl F -> room size bl 2.
Proof.
  intros ([Ht _] & _ & _ & Hbl & _). pose proof (lay_order _ _ _ _ Hlay). pose proof (BPB_div sb (sb_size sb - 1)).
  pose proof (bitmap_length sb bl ltac:(unfold nbitmap; lia) (t_nodup _ _ _ _ _ _ _ _ Ht) Hbl). unfold room. lia.
Qed.
(** One block: freed if there is one. *)
Lemma ftx_bfree x held J L' bl F j (Q : unit -> list lockid -> fsys -> Prop) : ftx x held J L' bl F -> held_used sb data0 L' held -> 0 <= j < NSLOT -> j ∉ J ->
  slot L ad j <> 0 -> (forall L'' bl' F', ftx x held (j :: J) L'' bl' F' -> Q tt [] F') -> fwp (bfree dev (slot L ad j)) [] F Q.
Proof.
  intros Hf Hh Hj Hn Hne HQ. pose proof (ftx_room _ _ _ _ _ _ Hf) as Hroom. destruct Hf as (Ht & Hd & Hfr & Hbl & HJ). pose proof (lay_order _ _ _ _ Hlay).
  destruct (freed_used sb start size data0 Hlay L ad Hok J L' j Hfr Hj HJ Hn Hne) as [Hr Hu].
  eapply fwp_bfree; [exact Hdev|exact law|exact Hlay|exact Ht|done|done|unfold room in *; lia|done|done|]. intros F' H'. eapply HQ. split_and!.
  - exact H'.
  - done.
  - by eapply freed_step.
  - intros b [->|Hb]%elem_of_logged; [|by apply Hbl]. eapply BBLOCK_bitmap; [exact Hlay|lia].
  - intros i [->|Hi]%elem_of_cons; [done|by apply HJ].
Qed.
Lemma ftx_skip x held J L' bl F j : ftx x held J L' bl F -> 0 <= j < NSLOT -> slot L ad j = 0 -> ftx x held (j :: J) L' bl F.
Proof.
  intros (Ht & Hd & Hfr & Hbl & HJ) Hj H0. split_and!; [done|done|by apply freed_skip|done|]. intros i [->|Hi]%elem_of_cons; [done|by apply HJ].
Qed.
Lemma direct_slot i : (i < 12)%nat -> (replicate i 0 ++ drop i ad) !! i = Some (slot L ad (Z.of_nat i)).
Proof.
  intros Hi. pose proof (f_len _ _ _ _ Hok). rewrite lookup_app_r, length_replicate, Nat.sub_diag, lookup_drop, Nat.add_0_r by (rewrite length_replicate; lia).
  rewrite slot_direct by (unfold NDIRECT; lia). rewrite Nat2Z.id. destruct (lookup_lt_is_Some_2 ad i) as [a Ha]; [lia|]. by rewrite Ha.
Qed.
Lemma direct_next i : (i < 12)%nat -> <[i := 0]> (replicate i 0 ++ drop i ad) = replicate (S i) 0 ++ drop (S i) ad.
Proof.
  intros Hi. pose proof (f_len _ _ _ _ Hok). destruct (lookup_lt_is_Some_2 ad i) as [a Ha]; [lia|]. rewrite (drop_S _ _ _ Ha).
  rewrite insert_app_r_alt, length_replicate, Nat.sub_diag by (rewrite length_replicate; lia). cbn [insert list_insert].
  change (0 :: drop (S i) ad) with ([0] ++ drop (S i) ad). rewrite app_assoc. by rewrite <- replicate_S_end.
Qed.
(** The loop over the direct blocks. *)
Lemma fwp_free_direct m : forall i x J L' bl F (Q : unit -> list lockid -> fsys -> Prop), ftx x [] J L' bl F -> (i + m = 12)%nat ->
  i_addrs x = replicate i 0 ++ drop i ad -> (forall j, j ∈ J <-> 0 <= j < Z.of_nat i) ->
  (forall J' L'' bl' F', ftx (set_addrs x (replicate 12 0 ++ drop 12 ad)) [] J' L'' bl' F' -> (forall j, j ∈ J' <-> 0 <= j < 12) -> Q tt [] F') ->
  fwp (for_list (seq i m) (fun i =>
    let! a := get_addr ip i in
    when (negb (a =? 0)) (let! x := geti ip in bfree (i_dev x) a ;! set_addr ip i 0))) [] F Q.
Proof.
  induction m as [|m IH]; intros i x J L' bl F Q Hf Hi Had HJ HQ; cbn [seq for_list].
  - apply fwp_ret. assert (i = 12%nat) as -> by lia. eapply HQ; [|exact HJ]. by rewrite <- Had, set_addrs_same.
  - assert (Hlt : (i < 12)%nat) by lia. pose proof Hf as (Ht & Hd & _). pose proof (direct_slot i Hlt) as Hsl. apply fwp_bind, fwp_bind.
    unfold get_addr. apply fwp_bind. eapply fwp_geti; [exact Hip|exact Ht|]. rewrite Had, Hsl. apply fwp_deref with (a := slot L ad (Z.of_nat i)); [done|].
    assert (Hj : 0 <= Z.of_nat i < NSLOT) by (unfold NSLOT, NDIRECT; change NINDIRECT with 256; lia).
    assert (HJ' : forall j, j ∈ Z.of_nat i :: J <-> 0 <= j < Z.of_nat (S i)) by (intros j; rewrite elem_of_cons, HJ; lia).
    assert (Hn : Z.of_nat i ∉ J) by (rewrite HJ; lia).
    assert (Hnext : forall x' L'' bl' F', ftx x' [] (Z.of_nat i :: J) L'' bl' F' -> x' = set_addrs x (replicate (S i) 0 ++ drop (S i) ad) ->
      fwp (for_list (seq (S i) m) (fun i => let! a := get_addr ip i in
        when (negb (a =? 0)) (let! x := geti ip in bfree (i_dev x) a ;! set_addr ip i 0))) [] F' Q).
    { intros x' L'' bl' F' Hf' ->. eapply IH; [exact Hf'|lia|done|exact HJ'|]. rewrite set_addrs_twice. exact HQ. }
    destruct (Z.eqb_spec (slot L ad (Z.of_nat i)) 0) as [E0|Hne]; cbn [negb when].
    + apply fwp_ret. eapply Hnext; [by eapply ftx_skip|]. rewrite <- direct_next by done. rewrite list_insert_id by (by rewrite Hsl, E0). by rewrite <- Had, set_addrs_same.
    + apply fwp_bind. eapply fwp_geti; [exact Hip|exact Ht|]. rewrite Hd. apply fwp_bind.
      eapply ftx_bfree; [exact Hf|apply held_none|done|done|done|]. intros L'' bl' F' (Ht' & Hd' & Hrest). unfold set_addr. eapply fwp_seti; [exact Hip|exact Ht'|].
      intros F'' H''. eapply Hnext; [split; [exact H''|done]|]. rewrite <- direct_next, <- Had by done. done.
Qed.
(** The loop over the entries of the indirect block, which is held. *)
Lemma fwp_free_entries m bp : slot L ad NDIRECT <> 0 -> forall i x J L' bl F (Q : unit -> list lockid -> fsys -> Prop),
  ftx x [(bp, slot L ad NDIRECT)] J L' bl F -> (i + m = 256)%nat -> (forall j, j ∈ J <-> 0 <= j < 12 \/ 13 <= j < 13 + Z.of_nat i) ->
  (forall J' L'' bl' F', ftx x [(bp, slot L ad NDIRECT)] J' L'' bl' F' -> (forall j, j ∈ J' <-> 0 <= j < NSLOT /\ j <> NDIRECT) -> Q tt [] F') ->
  fwp (for_list (seq i m) (fun j =>
    let! b := getb bp in
    let a := get32 (b_data b) (4 * j) in
    when (negb (a =? 0)) (bfree dev a))) [] F Q.
Proof.
  intros Hind. destruct (f_data _ _ _ _ Hok NDIRECT ltac:(done) Hind) as [Hr _]. assert (HN : NDIRECT = 12) by done. assert (HNS : NSLOT = 269) by done.
  induction m as [|m IH]; intros i x J L' bl F Q Hf Hi HJ HQ; cbn [seq for_list].
  - apply fwp_ret. eapply HQ; [exact Hf|]. intros j. rewrite HJ. lia.
  - pose proof Hf as (Ht & Hd & Hfr & _ & HJr). apply fwp_bind, fwp_bind. eapply tx_getb; [exact Ht|left|]. intros b ->.
    rewrite (freed_block sb start size data0 Hlay L ad J L' _ Hfr) by lia. set (j0 := 13 + Z.of_nat i).
    assert (Hs : get32 (L (slot L ad NDIRECT)) (4 * i) = slot L ad j0).
    { rewrite (slot_indirect L ad j0) by lia. rewrite (proj2 (Z.eqb_neq _ _) Hind). unfold entry. f_equal. lia. }
    rewrite Hs. assert (Hj : 0 <= j0 < NSLOT) by lia. assert (Hn : j0 ∉ J) by (rewrite HJ; lia).
    assert (HJ' : forall j, j ∈ j0 :: J <-> 0 <= j < 12 \/ 13 <= j < 13 + Z.of_nat (S i)) by (intros j; rewrite elem_of_cons, HJ; lia).
    destruct (Z.eqb_spec (slot L ad j0) 0) as [E0|Hne]; cbn [negb when].
    + apply fwp_ret. eapply IH; [by eapply ftx_skip|lia|exact HJ'|exact HQ].
    + eapply ftx_bfree; [exact Hf| |done|done|done|].
      { split; [done|]. intros c Hc. apply list_elem_of_singleton in Hc as ->. eapply (freed_used sb start size data0 Hlay L ad Hok J L'); [done|done|done|rewrite HJ; lia|done]. }
      intros L'' bl' F' Hf'. eapply IH; [exact Hf'|lia|exact HJ'|exact HQ].
Qed.
Definition emptied (x : inode) : inode := (set_addrs x (replicate 13 0)) <| i_size := 0 |>.
Lemma ftx_more x held J J' L' bl F : ftx x held J L' bl F -> (forall j, j ∈ J' -> 0 <= j < NSLOT /\ (j ∈ J \/ slot L ad j = 0)) -> (forall j, j ∈ J -> j ∈ J') ->
  ftx x held J' L' bl F.
Proof.
  intros (Ht & Hd & [H1 H2 H3] & Hbl & HJ) HJ' Hsub. split_and!; [done|done| |done|intros j Hj; by apply HJ']. split; [done|done|]. intros b Hb. rewrite H3 by done.
  split; intros [Hu Hn]; (split; [done|]); intros j Hj Hne; [|by apply Hn; [apply Hsub|]]. destruct (HJ' j Hj) as [_ [|]]; [by apply Hn|done].
Qed.
Lemma last_addr x1 : i_addrs x1 = replicate 12 0 ++ drop 12 ad -> i_addrs x1 !! 12%nat = Some (slot L ad NDIRECT).
Proof.
  intros ->. pose proof (f_len _ _ _ _ Hok). rewrite lookup_app_r by done. rewrite length_replicate, lookup_drop. rewrite slot_direct by done.
  change (Z.to_nat NDIRECT) with 12%nat. destruct (lookup_lt_is_Some_2 ad 12) as [a Ha]; [lia|]. by rewrite Ha.
Qed.
Lemma last_next : <[12%nat := 0]> (replicate 12 0 ++ drop 12 ad) = replicate 13 0.
Proof.
  pose proof (f_len _ _ _ _ Hok). rewrite insert_app_r_alt by done. rewrite length_replicate, Nat.sub_diag. destruct (lookup_lt_is_Some_2 ad 12) as [a Ha]; [lia|].
  rewrite (drop_S _ _ _ Ha), (drop_ge ad) by lia. done.
Qed.
(** The indirect block, if there is one. *)
Lemma fwp_free_indirect x J L' bl F (Q : unit -> list lockid -> fsys -> Prop) : ftx x [] J L' bl F -> (forall j, j ∈ J <-> 0 <= j < 12) ->
  i_addrs x = replicate 12 0 ++ drop 12 ad ->
  (forall J' L'' bl' F', ftx (set_addrs x (replicate 13 0)) [] J' L'' bl' F' -> (forall j, j ∈ J' <-> 0 <= j < NSLOT) -> Q tt [] F') ->
  fwp (when (negb (slot L ad NDIRECT =? 0))
    (let! x := geti ip in
     let! bp := bread (i_dev x) (slot L ad NDIRECT) in
     for_list (seq 0 256) (fun j =>
       let! b := getb bp in
       let a := get32 (b_data b) (4 * j) in
       when (negb (a =? 0)) (bfree (i_dev x) a)) ;!
     brelse bp ;!
     bfree (i_dev x) (slot L ad NDIRECT) ;!
     set_addr ip 12 0)) [] F Q.
Proof.
  intros Hf HJ Had HQ. assert (HN : NDIRECT = 12) by done. assert (HNS : NSLOT = 269) by done. pose proof (ftx_room _ _ _ _ _ _ Hf) as Hroom.
  destruct (Z.eqb_spec (slot L ad NDIRECT) 0) as [E0|Hne]; cbn [negb when].
  - apply fwp_ret. eapply (HQ (seqZ 0 269)); [|intros j; rewrite elem_of_seqZ; lia].
    rewrite <- last_next, list_insert_id by (rewrite <- Had; by rewrite (last_addr x Had), E0). rewrite <- Had, set_addrs_same.
    eapply ftx_more; [exact Hf| |intros j; rewrite HJ, elem_of_seqZ; lia]. intros j. rewrite elem_of_seqZ, HJ, HNS. intros Hj. split; [lia|].
    destruct (decide (j < 12)); [left; lia|right]. destruct (decide (j = 12)) as [->|]; [done|]. rewrite slot_indirect by lia. by rewrite E0.
  - pose proof Hf as (Ht & Hd & Hfr & Hbl & HJr). destruct (f_data _ _ _ _ Hok NDIRECT ltac:(done) Hne) as [Hr _]. pose proof (lay_order _ _ _ _ Hlay).
    apply fwp_bind. eapply fwp_geti; [exact Hip|exact Ht|]. rewrite Hd. apply fwp_bind.
    eapply tx_bread; [exact Hdev|exact law|exact Ht|apply not_elem_of_nil|eapply room_buf; [exact Hroom|lia|apply (held_none sb data0 L)]|lia|].
    intros bp F1 H1 Hcl. apply fwp_bind. eapply (fwp_free_entries 256 bp Hne 0 x); [split; [exact H1|done]|done|intros j; rewrite HJ; lia|].
    intros J2 L2 bl2 F2 Hf2 HJ2. pose proof Hf2 as (Ht2 & _ & Hfr2 & Hbl2 & _). apply fwp_bind. eapply tx_brelse; [exact Hdev|exact Ht2| |].
    { destruct Hcl as [Hin|Hcl]; [apply Hbl in Hin; apply (bitmap_range sb start size data0 Hlay) in Hin; lia|]. right. rewrite <- Hcl.
      rewrite (freed_block sb start size data0 Hlay L ad J2 L2 _ Hfr2), (freed_block sb start size data0 Hlay L ad J L' _ Hfr) by lia. done. }
    intros F3 H3. apply fwp_bind. assert (Hf3 : ftx x [] J2 L2 bl2 F3) by (split; [exact H3|apply Hf2]).
    eapply ftx_bfree; [exact Hf3|apply held_none|lia|rewrite HJ2; lia|done|]. intros L4 bl4 F4 (Ht4 & Hd4 & Hrest). unfold set_addr.
    eapply fwp_seti; [exact Hip|exact Ht4|]. intros F5 H5. eapply HQ.
    + split; [|done]. rewrite <- last_next, <- Had. exact H5.
    + intros j. rewrite elem_of_cons, HJ2. lia.
Qed.
(** itrunc frees the blocks in all slots and writes the empty inode. *)
Lemma fwp_itrunc x F (Q : unit -> list lockid -> fsys -> Prop) : tx x L [] [] F -> i_dev x = dev -> i_addrs x = ad -> 0 <= i_inum x < sb_ninodes sb ->
  (forall J L' bl F', freed J L' -> (forall j, j ∈ J <-> 0 <= j < NSLOT) -> tx (emptied x) (iupdated sb L' (emptied x)) [] bl F' ->
     Z.of_nat (length bl) <= nbitmap sb + 1 -> Q tt [] F') ->
  fwp (itrunc ip) [] F Q.
Proof.
  intros Ht Hd Had Hi HQ. unfold itrunc. apply fwp_bind. change (Z.to_nat NDIRECT) with 12%nat. change (Z.to_nat NINDIRECT) with 256%nat.
  eapply (fwp_free_direct 12 0 x [] L []); [|done|by rewrite drop_0|intros j; rewrite elem_of_nil; lia|].
  { split_and!; [done|done|by eapply freed_nil|intros b []%elem_of_nil|intros b []%elem_of_nil]. }
  intros J1 L1 bl1 F1 Hf1 HJ1. set (x1 := set_addrs x _) in *. pose proof Hf1 as (Ht1 & _).
  apply fwp_bind. unfold get_addr. apply fwp_bind. eapply fwp_geti; [exact Hip|exact Ht1|]. eapply fwp_deref; [by apply last_addr|].
  apply fwp_bind. eapply fwp_free_indirect; [exact Hf1|exact HJ1|done|]. unfold x1. rewrite set_addrs_twice.
  intros J L' bl F2 Hf HJ. pose proof (ftx_room _ _ _ _ _ _ Hf) as Hroom. destruct Hf as (Ht2 & Hd2 & Hfr & Hbl & _).
  apply fwp_bind. eapply fwp_seti; [exact Hip|exact Ht2|]. intros F3 H3.
  eapply (fwp_iupdate _ _ _ _ Hlay E pid dev Hdev O ip Hsb Hip (emptied x)); [exact H3|done|done|unfold room in *; lia|]. intros F4 H4.
  eapply HQ; [exact Hfr|exact HJ|exact H4|]. destruct Ht2 as [Ht2 _]. pose proof (logged_length bl (IBLOCK (i_inum x) sb)) as Hll. pose proof (lay_order _ _ _ _ Hlay).
  pose proof (BPB_div sb (sb_size sb - 1)). pose proof (bitmap_length sb bl ltac:(unfold nbitmap; lia) (t_nodup _ _ _ _ _ _ _ _ Ht2) Hbl).
  change (i_inum (emptied x)) with (i_inum x). lia.
Qed.
End ops.
End FreeSpec.
