(* ===== verification/Pipe.v ===== *)
(** * pipe.c: the bounded byte queue

    A pipe is a record kept for the page kalloc gave it.  pipealloc is in
    [File], since it allocates files and closes them on failure. *)

From S2P Require Import Prelude State Spinlock CString Mem Kalloc Vm Sched FileLayer Proc Console.

Module Pipe.

Definition PIPESIZE : Z := 512.

Definition getpi (pi : Z) : K pipe := fun s =>
  match k_pipes s !! pi with Some x => Done x s | None => Fault "pipe" s end.
Definition setpi (pi : Z) (f : pipe -> pipe) : K unit := fun s =>
  match k_pipes s !! pi with
  | Some x => Done tt (s <| k_pipes := <[pi := f x]> (k_pipes s) |>)
  | None => Fault "pipe" s
  end.

(** What pipealloc makes of a fresh page, which kalloc filled with 5s. *)
Definition pipe_new (pi : Z) : K unit :=
  modify (upd k_pipes (fun m => <[pi := mkPipe (replicate (Z.to_nat PIPESIZE) 5) 0 0 1 1]> m)).
Definition pipe_forget (pi : Z) : K unit := modify (upd k_pipes (fun m => delete pi m)).

(** [pi->data[pi->nwrite++ % PIPESIZE] = ch] and
    [ch = pi->data[pi->nread++ % PIPESIZE]] *)
Definition pipe_put (ch : Z) (x : pipe) : pipe :=
  x <| pi_data := <[Z.to_nat (pi_nwrite x mod PIPESIZE) := ch]> (pi_data x) |>
    <| pi_nwrite := u32 (pi_nwrite x + 1) |>.
Definition pipe_head (x : pipe) : option Z := pi_data x !! Z.to_nat (pi_nread x mod PIPESIZE).
Definition pipe_drop (x : pipe) : pipe := x <| pi_nread := u32 (pi_nread x + 1) |>.

Section pipe.
Context {img : Image} {fuel : Fuel}.

Definition pipeclose (pi : Z) (writable : bool) : K unit :=
  acquire (Lpipe pi) ;!
  (if writable then
     setpi pi (upd pi_writeopen (fun _ => 0)) ;! wakeup (Some (Cpipe_nread pi))
   else
     setpi pi (upd pi_readopen (fun _ => 0)) ;! wakeup (Some (Cpipe_nwrite pi))) ;!
  let! x := getpi pi in
  if (pi_readopen x =? 0) && (pi_writeopen x =? 0) then
    release (Lpipe pi) ;!
    pipe_forget pi ;!
    kfree pi
  else release (Lpipe pi).

(** One round of the loop of pipewrite either copies a byte or sleeps, so
    [n] rounds and one for each sleep are enough. [None] is [return -1]. *)
Fixpoint pipewrite_loop (k : nat) (pr : nat) (pi addr i n : Z) : K (option Z) :=
  if n <=? i then ret (Some i) else
  match k with
  | O => nofuel
  | S k =>
      let! x := getpi pi in
      let! dead := (if pi_readopen x =? 0 then ret 1 else killed pr) in
      if negb (dead =? 0) then release (Lpipe pi) ;! ret None else
      if pi_nwrite x =? u32 (pi_nread x + PIPESIZE) then
        wakeup (Some (Cpipe_nread pi)) ;!
        sleep (Cpipe_nwrite pi) (Lpipe pi) ;!
        pipewrite_loop k pr pi addr i n
      else
        let! p := getp pr in
        let! r := copyin (p_pagetable p) (u64 (addr + i)) 1 in
        if r.1 =? -1 then ret (Some i) else
        let! ch := deref "ch" (r.2 !! 0%nat) in
        setpi pi (pipe_put ch) ;!
        pipewrite_loop k pr pi addr (i + 1) n
  end.
Definition pipewrite (pi addr n : Z) : K Z :=
  let! pr := me in
  acquire (Lpipe pi) ;!
  let! r := pipewrite_loop (Z.to_nat n + sleep_fuel) pr pi addr 0 n in
  match r with
  | None => ret (-1)
  | Some i =>
      wakeup (Some (Cpipe_nread pi)) ;!
      release (Lpipe pi) ;!
      ret i
  end.

(** The loop of piperead that waits for data; [false] is [return -1]. *)
Fixpoint piperead_wait (k : nat) (pr : nat) (pi : Z) : K bool :=
  let! x := getpi pi in
  if (pi_nread x =? pi_nwrite x) && negb (pi_writeopen x =? 0) then
    let! k' := killed pr in
    if negb (k' =? 0) then release (Lpipe pi) ;! ret false else
    match k with
    | O => nofuel
    | S k => sleep (Cpipe_nread pi) (Lpipe pi) ;! piperead_wait k pr pi
    end
  else ret true.
(** The loop that copies, with [k] bytes still wanted. *)
Fixpoint piperead_loop (k : nat) (pr : nat) (pi addr i : Z) : K Z :=
  match k with
  | O => ret i
  | S k =>
      let! x := getpi pi in
      if pi_nread x =? pi_nwrite x then ret i else
      let! ch := deref "data" (pipe_head x) in
      setpi pi pipe_drop ;!
      let! p := getp pr in
      let! r := copyout (p_pagetable p) (u64 (addr + i)) [ch] 1 in
      if r =? -1 then ret i else piperead_loop k pr pi addr (i + 1)
  end.
Definition piperead (pi addr n : Z) : K Z :=
  let! pr := me in
  acquire (Lpipe pi) ;!
  let! ok := piperead_wait sleep_fuel pr pi in
  if negb ok then ret (-1) else
  let! i := piperead_loop (Z.to_nat n) pr pi addr 0 in
  wakeup (Some (Cpipe_nwrite pi)) ;!
  release (Lpipe pi) ;!
  ret i.

End pipe.
End Pipe.
Export Pipe.

(** ** Frames *)

Lemma view_getpi pi : frame proc_view (getpi pi).
Proof. intros s. unfold getpi. by destruct (_ !! _). Qed.
Lemma view_setpi pi f : frame proc_view (setpi pi f).
Proof. intros s. unfold setpi. by destruct (_ !! _). Qed.
Lemma view_pipe_forget pi : frame proc_view (pipe_forget pi).
Proof. apply segs_modify. intros s. reflexivity. Qed.
#[export] Hint Resolve view_getpi view_setpi view_pipe_forget : segs.
Lemma view_pipeclose {img : Image} pi w : frame proc_view (pipeclose pi w).
Proof. unfold pipeclose. segs_tac. Qed.
#[export] Hint Resolve view_pipeclose : segs.
