(* ===== verification/File.v ===== *)
(** * file.c and pipealloc: the open-file table *)

From S2P Require Import Prelude State Spinlock CString Mem Kalloc Vm Sched FileLayer Proc Console Bio Log Fs Pipe.

Module File.
Import Fs.

Definition filealloc : K (option nat) :=
  acquire Lftable ;!
  let! r := find_list all_files (fun i =>
    let! f := getf i in
    if f_ref f =? 0 then setf i (upd f_ref (fun _ => 1)) ;! ret (Some i) else ret None) in
  release Lftable ;!
  ret r.

Definition filedup (f : nat) : K nat :=
  acquire Lftable ;!
  let! x := getf f in
  if f_ref x <? 1 then panic "filedup" else
  setf f (upd f_ref (fun r => r + 1)) ;!
  release Lftable ;!
  ret f.

Section file.
Context {img : Image} {fuel : Fuel} {disk : Disk}.

Definition fileclose (f : nat) : K unit :=
  acquire Lftable ;!
  let! x := getf f in
  if f_ref x <? 1 then panic "fileclose" else
  setf f (upd f_ref (fun r => r - 1)) ;!
  let! ff := getf f in
  if 0 <? f_ref ff then release Lftable else
  setf f (fun x => x <| f_ref := 0 |> <| f_type := FD_NONE |>) ;!
  release Lftable ;!
  match f_type ff with
  | FD_PIPE => pipeclose (f_pipe ff) (negb (f_writable ff =? 0))
  | FD_INODE | FD_DEVICE =>
      Log.begin_op ;!
      let! ip := deref "ip" (f_ip ff) in
      Fs.iput ip ;!
      Log.end_op
  | FD_NONE => ret tt
  end.

(** struct stat as the compiler lays it out, with four bytes of padding. *)
Definition stat_bytes (st : stat) : list Z :=
  le_bytes 4 (u32 (st_dev st)) ++ le_bytes 4 (u32 (st_ino st)) ++ le_bytes 2 (st_type st mod 2 ^ 16) ++
  le_bytes 2 (st_nlink st mod 2 ^ 16) ++ take 4 sym_stack ++ le_bytes 8 (st_size st).

Definition filestat (f : nat) (addr : Z) : K Z :=
  let! p := me in
  let! x := getf f in
  match f_type x with
  | FD_INODE | FD_DEVICE =>
      ilock (f_ip x) ;!
      let! ip := deref "ip" (f_ip x) in
      let! st := stati ip in
      iunlock (f_ip x) ;!
      let! y := getp p in
      let! r := copyout (p_pagetable y) addr (stat_bytes st) 24 in
      if r <? 0 then ret (-1) else ret 0
  | _ => ret (-1)
  end.

(** [f->major < 0 || f->major >= NDEV || !devsw[f->major].read] *)
Definition dev_ok (major : Z) : K bool :=
  let! l := getd devsw_on in
  ret (negb ((major <? 0) || (NDEV <=? major)) && default false (l !! Z.to_nat major)).

Definition fileread (f : nat) (addr n : Z) : K Z :=
  let! x := getf f in
  if f_readable x =? 0 then ret (-1) else
  match f_type x with
  | FD_PIPE => piperead (f_pipe x) addr n
  | FD_DEVICE =>
      let! ok := dev_ok (f_major x) in
      if negb ok then ret (-1) else consoleread true addr n
  | FD_INODE =>
      ilock (f_ip x) ;!
      let! ip := deref "ip" (f_ip x) in
      let! x := getf f in
      let! r := readi ip (DUser addr) (f_off x) n in
      when (0 <? r.1) (setf f (upd f_off (fun o => u32 (o + r.1)))) ;!
      iunlock (f_ip x) ;!
      ret r.1
  | FD_NONE => panic "fileread"
  end.

(** [((MAXOPBLOCKS-1-1-2) / 2) * BSIZE] *)
Definition WRITE_MAX : Z := (MAXOPBLOCKS - 1 - 1 - 2) / 2 * BSIZE.

(** The loop of filewrite over transactions of at most WRITE_MAX bytes; the
    result is the final [i]. *)
Fixpoint filewrite_loop (k : nat) (f ip : nat) (addr i n : Z) : K Z :=
  if n <=? i then ret i else
  match k with
  | O => nofuel
  | S k =>
      let n1 := Z.min (n - i) WRITE_MAX in
      Log.begin_op ;!
      ilock (Some ip) ;!
      let! x := getf f in
      let! r := writei ip (SUser (u64 (addr + i))) (f_off x) n1 in
      when (0 <? r) (setf f (upd f_off (fun o => u32 (o + r)))) ;!
      iunlock (Some ip) ;!
      Log.end_op ;!
      if negb (r =? n1) then ret i else filewrite_loop k f ip addr (i + r) n
  end.
Definition filewrite (f : nat) (addr n : Z) : K Z :=
  let! x := getf f in
  if f_writable x =? 0 then ret (-1) else
  match f_type x with
  | FD_PIPE => pipewrite (f_pipe x) addr n
  | FD_DEVICE =>
      let! ok := dev_ok (f_major x) in
      if negb ok then ret (-1) else consolewrite true addr n
  | FD_INODE =>
      let! ip := deref "ip" (f_ip x) in
      let! i := filewrite_loop (Z.to_nat (n / WRITE_MAX + 1)) f ip addr 0 n in
      ret (if i =? n then n else -1)
  | FD_NONE => panic "filewrite"
  end.

(** pipe.c: pipealloc.  [bad] closes what was allocated. *)
Definition pipealloc_bad (f0 f1 : option nat) : K (option (nat * nat)) :=
  match f0 with Some f => fileclose f | None => ret tt end ;!
  match f1 with Some f => fileclose f | None => ret tt end ;!
  ret None.
Definition pipealloc : K (option (nat * nat)) :=
  let! f0 := filealloc in
  match f0 with
  | None => pipealloc_bad None None
  | Some a =>
      let! f1 := filealloc in
      match f1 with
      | None => pipealloc_bad f0 None
      | Some b =>
          let! pi := kalloc in
          if pi =? 0 then pipealloc_bad f0 f1 else
          pipe_new pi ;!
          setf a (fun x => x <| f_type := FD_PIPE |> <| f_readable := 1 |> <| f_writable := 0 |> <| f_pipe := pi |>) ;!
          setf b (fun x => x <| f_type := FD_PIPE |> <| f_readable := 0 |> <| f_writable := 1 |> <| f_pipe := pi |>) ;!
          ret (Some (a, b))
      end
  end.

End file.
End File.

(** ** The file layer of proc.c *)

Section layer.
Context {img : Image} {fuel : Fuel} {disk : Disk}.

Lemma view_filedup f : frame proc_view (File.filedup f).
Proof. unfold File.filedup. segs_tac. Qed.
Lemma view_fileclose f : frame proc_view (File.fileclose f).
Proof. unfold File.fileclose. segs_tac. Qed.

(** What fork, clone, exit and userinit call. *)
#[export, program] Instance xv6_files : FileLayer := {|
  FileLayer.filedup := File.filedup;
  FileLayer.fileclose := File.fileclose;
  FileLayer.idup ip := let! i := deref "idup" ip in let! j := Fs.idup i in ret (Some j);
  FileLayer.iput ip := let! i := deref "iput" ip in Fs.iput i;
  FileLayer.begin_op := Log.begin_op;
  FileLayer.end_op := Log.end_op;
  FileLayer.namei path := Fs.namei (CString.cstr path);
|}.
Next Obligation. apply view_filedup. Qed.
Next Obligation. apply view_fileclose. Qed.
Next Obligation. intros. cbv beta. segs_tac. Qed.
Next Obligation. intros. cbv beta. segs_tac. Qed.
Next Obligation. apply view_begin_op. Qed.
Next Obligation. apply view_end_op. Qed.
Next Obligation. intros. cbv beta. unfold Fs.namei. segs_tac. Qed.
End layer.
