(* ===== verification/FsSpec.v ===== *)
(** * The files of a file system

    The file system as a set of files: each inode in use on the disk is a file
    with its bytes, no two files share a block, and every block of a file is
    marked in the bitmap.  What writei does to it, and the transaction that
    filewrite runs for each part of a write. *)

From S2P Require Import Prelude State Spinlock CString Mem Sched FileLayer Proc PsList Console Bio BufCache Virtio Log FsLogic BufSpec LogSpec VirtioSpec Crash Fs TxnSpec BlockSpec FileSpec InodeSpec DinodeSpec RwSpec File.

Module FsSpec.
Import BufCache FsLogic BufSpec LogSpec VirtioSpec Virtio Crash TxnSpec BlockSpec FileSpec InodeSpec DinodeSpec RwSpec Log Fs.

(** ** Files *)
Section files.
Context (sb : superblock) (start size data0 : Z).
Notation addrs L j := (di_addrs (on_disk sb L j)).
Notation isize L j := (di_size (on_disk sb L j)).
Notation file_ok := (file_ok sb data0).
Notation disk_ok := (disk_ok sb data0).
Notation used := (used sb).

Definition live (L : Z -> list Z) (j : Z) : Prop := 0 <= j < sb_ninodes sb /\ di_type (on_disk sb L j) <> 0.
Definition content (L : Z -> list Z) (j : Z) : list Z := fbytes L (addrs L j) 0 (isize L j).
Record inode_ok (L : Z -> list Z) (j : Z) : Prop := {
  io_dinode : dinode_ok (on_disk sb L j);
  io_file : file_ok L (addrs L j);
  io_dense : dense L (addrs L j) (isize L j);
  io_size : isize L j <= MAXFILE * BSIZE }.
Record fs_ok (L : Z -> list Z) : Prop := {
  fo_disk : disk_ok L;
  fo_inode : forall j, live L j -> inode_ok L j;
  fo_apart : forall i j c, live L i -> live L j -> owns L (addrs L i) c -> owns L (addrs L j) c -> i = j }.
(** The files are the same; or the same but for [bs] at [off] in file [inum]. *)
Definition unchanged (L L' : Z -> list Z) : Prop := fs_ok L' /\ forall j, live L j -> live L' j /\ content L' j = content L j.
Definition written (inum off : Z) (bs : list Z) (L L' : Z -> list Z) : Prop :=
  fs_ok L' /\ content L' inum = blk_put (content L inum) (Z.to_nat off) bs /\
  forall j, live L j -> live L' j /\ (j <> inum -> content L' j = content L j).

Context (Hlay : layout sb start size data0).

(** *** A file whose blocks keep their content *)
Section keep.
Context (L L' : Z -> list Z) (ad : list Z) (Hok : file_ok L ad) (Hkeep : forall c, owns L ad c -> L' c = L c).
Lemma keep_slot i : 0 <= i < NSLOT -> slot L' ad i = slot L ad i.
Proof.
  intros Hi. destruct (decide (i <= NDIRECT)); [by rewrite !slot_direct by lia|]. rewrite !(slot_indirect _ _ i) by lia.
  rewrite (slot_direct L'), <- (slot_direct L) by done. destruct (Z.eqb_spec (slot L ad NDIRECT) 0) as [|Hne]; [done|]. rewrite Hkeep; [done|]. by exists NDIRECT.
Qed.
Lemma keep_owns c : owns L' ad c <-> owns L ad c.
Proof. unfold owns. split; intros (i & Hi & Hne & E); exists i; rewrite keep_slot in * by done; done. Qed.
Lemma keep_file : (forall c, owns L ad c -> used L' c = true) -> file_ok L' ad.
Proof.
  intros Hu. split; [apply Hok|..].
  - intros i Hi. rewrite keep_slot by done. intros Hne. split; [by apply Hok|]. apply Hu. by exists i.
  - intros i j Hi Hj. rewrite !keep_slot by done. by apply Hok.
Qed.
Lemma keep_byte p : 0 <= p < MAXFILE * BSIZE -> fbyte L' ad p = fbyte L ad p.
Proof.
  intros Hp. unfold fbyte, fblock. destruct (place_range (p / BSIZE)) as [Hpl _]; [split; [apply Z.div_pos; [lia|done]|apply Z.div_lt_upper_bound; [done|lia]]|].
  rewrite keep_slot by done. destruct (Z.eqb_spec (slot L ad (place (p / BSIZE))) 0) as [|Hne]; [done|]. rewrite Hkeep; [done|]. by exists (place (p / BSIZE)).
Qed.
Lemma keep_bytes n : 0 <= n <= MAXFILE * BSIZE -> fbytes L' ad 0 n = fbytes L ad 0 n.
Proof.
  intros Hn. unfold fbytes. apply list_fmap_ext. intros i j Hj. apply lookup_seq in Hj as [-> Hj]. apply keep_byte. lia.
Qed.
Lemma keep_dense n : n <= MAXFILE * BSIZE -> dense L ad n -> dense L' ad n.
Proof.
  intros Hn Hd bn Hbn Hlt. destruct (place_range bn) as [Hp _]; [unfold BSIZE in *; lia|]. rewrite keep_slot by done. by apply Hd.
Qed.
End keep.
Lemma keep_inode L L' j : live L j -> inode_ok L j -> on_disk sb L' j = on_disk sb L j ->
  (forall c, owns L (addrs L j) c -> L' c = L c /\ used L' c = true) -> live L' j /\ inode_ok L' j /\ content L' j = content L j.
Proof.
  intros [Hj Hty] [Hd Hf Hde Hsz] E Hc. assert (Hk : forall c, owns L (addrs L j) c -> L' c = L c) by (intros c Ho; by apply Hc).
  pose proof (do_size _ Hd). split_and!.
  - split; [done|by rewrite E].
  - split; rewrite E; [done| |by eapply keep_dense|done]. apply (keep_file L); [done|done|]. intros c Ho. by apply Hc.
  - unfold content. rewrite E. apply keep_bytes; [done|lia].
Qed.
Lemma owns_data L ad c : file_ok L ad -> owns L ad c -> data0 <= c < sb_size sb /\ used L c = true.
Proof. intros Hok (i & Hi & Hne & <-). by apply Hok. Qed.
(** Only the blocks from the inodes on matter. *)
Lemma agree_unchanged L L' : (forall b, sb_inodestart sb <= b -> L' b = L b) -> fs_ok L -> unchanged L L'.
Proof.
  intros Ha [[HL Hm] Hi Hap]. pose proof (lay_order _ _ _ _ Hlay) as Hord.
  assert (Hu : forall b, 0 <= b < sb_size sb -> used L' b = used L b).
  { intros b Hb. unfold BlockSpec.used. pose proof (BBLOCK_range _ _ _ _ Hlay b Hb). by rewrite Ha by lia. }
  assert (Hd : forall j, 0 <= j < sb_ninodes sb -> on_disk sb L' j = on_disk sb L j).
  { intros j Hj. unfold on_disk. by rewrite Ha by apply (IBLOCK_range _ _ _ _ Hlay j Hj). }
  assert (Hlive : forall j, live L' j -> live L j) by (intros j [Hj Hty]; split; [done|by rewrite Hd in Hty]).
  assert (Hc : forall j c, live L j -> owns L (addrs L j) c -> L' c = L c /\ used L' c = true).
  { intros j c Hj Ho. destruct (owns_data _ _ _ (io_file _ _ (Hi j Hj)) Ho). rewrite Ha, Hu by lia. done. }
  assert (Hk : forall j, live L j -> live L' j /\ inode_ok L' j /\ content L' j = content L j).
  { intros j Hj. apply keep_inode; [done|by apply Hi|apply Hd, Hj|]. intros c. by apply Hc. }
  split; [split|].
  - split; [intros b Hb; rewrite Ha by done; by apply HL|]. intros b Hb. rewrite Hu by lia. by apply Hm.
  - intros j Hj%Hlive. by apply Hk.
  - intros i j c Hli%Hlive Hlj%Hlive. rewrite (Hd i), (Hd j) by (apply Hli || apply Hlj). 
    rewrite (keep_owns L L' (addrs L i)) by (intros c' Ho; apply (Hc i c' Hli Ho)).
    rewrite (keep_owns L L' (addrs L j)) by (intros c' Ho; apply (Hc j c' Hlj Ho)). by apply Hap.
  - intros j Hj. split; by apply Hk.
Qed.
Lemma agree_written inum off bs L L1 L2 : (forall b, sb_inodestart sb <= b -> L2 b = L1 b) -> live L inum -> written inum off bs L L1 -> written inum off bs L L2.
Proof.
  intros Ha Hl (Hok & Hnew & Hold). destruct (agree_unchanged L1 L2 Ha Hok) as [Hok2 Hsame]. split; [done|]. destruct (Hold inum Hl) as [Hl1 _]. split.
  - by rewrite (proj2 (Hsame inum Hl1)).
  - intros j Hj. destruct (Hold j Hj) as [H1 H2]. destruct (Hsame j H1) as [H3 H4]. split; [done|]. intros Hne. rewrite H4. by apply H2.
Qed.

(** *** writei *)
Section write.
Context (L : Z -> list Z) (x : inode) (off : Z) (bs : list Z) (n : Z) (bl : list Z) (L' : Z -> list Z) (ad' bl' : list Z).
Notation inum := (i_inum x).
Notation len := (Z.of_nat (length bs)).
Context (Hfs : fs_ok L) (Hl : live L inum) (Hx : dinode_of x = on_disk sb L inum).
Context (Hoff : 0 <= off <= i_size x) (Hmax : off + len <= MAXFILE * BSIZE).
Context (Hw : wrote sb data0 (i_size x) off bs n L (i_addrs x) bl L' ad' bl').
Notation x' := (grown x ad' (off + len)).
Notation L2 := (iupdated sb L' x').

Lemma wr_addrs : addrs L inum = i_addrs x.
Proof. by rewrite <- Hx. Qed.
Lemma wr_size : isize L inum = i_size x /\ 0 <= i_size x <= MAXFILE * BSIZE.
Proof. pose proof (fo_inode _ Hfs _ Hl) as [[_ Hs _ _] _ _ Hm]. rewrite <- Hx in *. cbn in *. lia. Qed.
Lemma wr_dinode : dinode_ok (dinode_of x').
Proof.
  pose proof (fo_inode _ Hfs _ Hl) as [[Hsh _ _ _] _ _ _]. rewrite <- Hx in Hsh. pose proof wr_size. pose proof max_file. pose proof (lay_order _ _ _ _ Hlay).
  pose proof (w_file _ _ _ _ _ _ _ _ _ _ _ _ Hw) as Hok.
  split; [exact Hsh|change (0 <= Z.max (i_size x) (off + len) < 2 ^ 32); lia|apply Hok|].
  change (di_addrs (dinode_of x')) with ad'. intros a [i Hi]%list_elem_of_lookup. pose proof (lookup_lt_Some _ _ _ Hi) as Hlt. rewrite (f_len _ _ _ _ Hok) in Hlt.
  assert (Es : slot L' ad' (Z.of_nat i) = a) by (rewrite slot_direct by (unfold NDIRECT; lia); by rewrite Nat2Z.id, Hi).
  destruct (decide (a = 0)) as [|Hne]; [lia|]. destruct (f_data _ _ _ _ Hok (Z.of_nat i)); [unfold NSLOT, NDIRECT; change NINDIRECT with 256; lia|congruence|]. lia.
Qed.
Lemma wr_sized : sized sb L'.
Proof. apply (w_disk _ _ _ _ _ _ _ _ _ _ _ _ Hw). Qed.
Lemma wr_len : length (i_addrs x') = 13%nat.
Proof. apply (w_file _ _ _ _ _ _ _ _ _ _ _ _ Hw). Qed.
Lemma wr_block c : sb_bmapstart sb <= c -> L2 c = L' c.
Proof. intros Hc. apply iupdated_ne. pose proof (IBLOCK_range _ _ _ _ Hlay inum (proj1 Hl)). change (i_inum x') with inum. lia. Qed.
Lemma wr_used b : 0 <= b < sb_size sb -> used L2 b = used L' b.
Proof. intros Hb. unfold BlockSpec.used. rewrite wr_block; [done|]. apply (BBLOCK_range _ _ _ _ Hlay b Hb). Qed.
Lemma wr_self : on_disk sb L2 inum = dinode_of x'.
Proof. change inum with (i_inum x'). apply (iupdated_on_disk _ _ _ _ Hlay); [apply wr_sized|apply Hl|apply wr_dinode]. Qed.
Lemma wr_other j : 0 <= j < sb_ninodes sb -> j <> inum -> on_disk sb L2 j = on_disk sb L j.
Proof.
  intros Hj Hne. rewrite (iupdated_other _ _ _ _ Hlay); [|apply wr_sized|apply wr_len|apply Hl|done|done]. unfold on_disk.
  destruct (IBLOCK_range _ _ _ _ Hlay j Hj) as [_ Hr]. pose proof (lay_order _ _ _ _ Hlay).
  rewrite (e_frame _ _ _ _ _ _ _ _ _ (w_ext _ _ _ _ _ _ _ _ _ _ _ _ Hw)); [done|lia|intros [? _]; lia|].
  rewrite <- wr_addrs. intros Ho. destruct (owns_data _ _ _ (io_file _ _ (fo_inode _ Hfs _ Hl)) Ho). lia.
Qed.
Lemma wr_owned j c : live L j -> j <> inum -> owns L (addrs L j) c -> L2 c = L c /\ used L2 c = true.
Proof.
  intros Hj Hne Ho. destruct (owns_data _ _ _ (io_file _ _ (fo_inode _ Hfs _ Hj)) Ho) as [Hr Hu]. pose proof (lay_order _ _ _ _ Hlay).
  pose proof (w_ext _ _ _ _ _ _ _ _ _ _ _ _ Hw) as He. rewrite wr_block, wr_used by lia. split; [|by apply He].
  apply He; [lia|intros [_ Hf]; congruence|]. rewrite <- wr_addrs. intros Ho'. destruct Hne. by eapply (fo_apart _ Hfs).
Qed.
Lemma wr_keep c : owns L' ad' c -> L2 c = L' c.
Proof. intros Ho. destruct (owns_data _ _ _ (w_file _ _ _ _ _ _ _ _ _ _ _ _ Hw) Ho). pose proof (lay_order _ _ _ _ Hlay). apply wr_block. lia. Qed.
Lemma wr_content : content L2 inum = blk_put (content L inum) (Z.to_nat off) bs.
Proof.
  destruct wr_size as [Es Hs]. unfold content. rewrite wr_self, wr_addrs, Es.
  change (di_addrs (dinode_of x')) with ad'. change (di_size (dinode_of x')) with (Z.max (i_size x) (off + len)).
  rewrite (keep_bytes L') by (apply wr_keep || lia). apply list_eq. intros i. rewrite blk_put_lookup by (unfold fbytes; rewrite length_fmap, length_seq; lia).
  rewrite !fbytes_lookup. destruct (decide (i < Z.to_nat (Z.max (i_size x) (off + len)))%nat) as [Hi|Hi].
  - rewrite (w_byte _ _ _ _ _ _ _ _ _ _ _ _ Hw) by lia. case_decide as Hd.
    + rewrite decide_True by lia. replace (Z.to_nat (Z.of_nat i - off)) with (i - Z.to_nat off)%nat by lia.
      destruct (lookup_lt_is_Some_2 bs (i - Z.to_nat off)) as [y Hy]; [lia|]. by rewrite Hy.
    + rewrite decide_False, decide_True by lia. done.
  - rewrite !decide_False by lia. done.
Qed.
Lemma wr_live j : live L2 j <-> live L j.
Proof.
  unfold live. destruct (decide (j = inum)) as [->|Hne].
  - rewrite wr_self. change (di_type (dinode_of x')) with (di_type (dinode_of x)). by rewrite Hx.
  - split; intros [Hj Ht]; (split; [done|]); rewrite wr_other in *; done.
Qed.
Lemma wr_inode j : live L j -> inode_ok L2 j /\ (j <> inum -> content L2 j = content L j).
Proof.
  intros Hj. destruct (decide (j = inum)) as [->|Hne].
  - split; [|done]. destruct wr_size as [_ Hs]. split; rewrite wr_self; change (di_addrs (dinode_of x')) with ad'; change (di_size (dinode_of x')) with (Z.max (i_size x) (off + len)); [apply wr_dinode| | |lia].
    + apply (keep_file L'); [apply Hw|apply wr_keep|]. intros c Ho. destruct (owns_data _ _ _ (w_file _ _ _ _ _ _ _ _ _ _ _ _ Hw) Ho). pose proof (lay_order _ _ _ _ Hlay).
      rewrite wr_used by lia. done.
    + apply (keep_dense L'); [apply wr_keep|lia|apply Hw].
  - destruct (keep_inode L L2 j Hj (fo_inode _ Hfs _ Hj)) as (_ & ? & ?); [by apply wr_other; [apply Hj|]|intros c; by apply wr_owned|done].
Qed.
Lemma wr_owns j c : live L j -> j <> inum -> owns L2 (addrs L2 j) c <-> owns L (addrs L j) c.
Proof. intros Hj Hne. rewrite wr_other by (apply Hj || done). apply keep_owns. intros c' Ho. by apply (wr_owned j). Qed.
Lemma wr_apart j c : live L j -> j <> inum -> owns L2 (addrs L2 inum) c -> owns L2 (addrs L2 j) c -> False.
Proof.
  intros Hj Hne. rewrite (wr_owns j c Hj Hne), wr_self. change (di_addrs (dinode_of x')) with ad'. rewrite (keep_owns L') by apply wr_keep. intros Ho Hoj.
  destruct (owns_data _ _ _ (io_file _ _ (fo_inode _ Hfs _ Hj)) Hoj) as [_ Hu].
  destruct (ext_owns _ _ _ _ _ _ _ _ _ _ (w_ext _ _ _ _ _ _ _ _ _ _ _ _ Hw) Ho) as [H|[_ H]]; [|congruence].
  rewrite <- wr_addrs in H. apply Hne. by eapply (fo_apart _ Hfs).
Qed.
Lemma wrote_written : written inum off bs L L2.
Proof.
  split; [split|split; [apply wr_content|]].
  - destruct (w_disk _ _ _ _ _ _ _ _ _ _ _ _ Hw) as [_ Hm]. split; [apply (sized_iupdated _ _ _ _ Hlay); [apply wr_sized|apply Hl|apply wr_len]|].
    intros b Hb. pose proof (lay_order _ _ _ _ Hlay). rewrite wr_used by lia. by apply Hm.
  - intros j Hj%wr_live. by apply wr_inode.
  - intros i j c Hi%wr_live Hj%wr_live Hoi Hoj. destruct (decide (i = inum)) as [->|Hni], (decide (j = inum)) as [->|Hnj]; [done| | |].
    + destruct (wr_apart j c); done.
    + destruct (wr_apart i c); done.
    + rewrite wr_owns in Hoi, Hoj by done. by eapply (fo_apart _ Hfs).
  - intros j Hj. split; [by apply wr_live|]. by apply wr_inode.
Qed.
End write.
End files.

(** ** The operations *)
(** Entry [x] of the inode table is a reference to inode [inum], unlocked,
    and agrees with the disk if it is valid. *)
Record cached (sb : superblock) (dev inum : Z) (L : Z -> list Z) (x : inode) : Prop := {
  c_dev : i_dev x = dev;
  c_inum : i_inum x = inum;
  c_ref : 1 <= i_ref x;
  c_unlocked : sl_locked (i_lock x) = 0;
  c_agrees : i_valid x <> 0 -> dinode_of x = on_disk sb L inum }.
(** Six blocks cover a write of three blocks: four that it touches, one more
    round and the indirect block. *)
Definition spare : nat := 6.
(** One transaction of filewrite, from a buffer of the kernel. *)
Definition write_part {fuel : Fuel} {disk : Disk} (ip : nat) (bs : list Z) (off : Z) : K Z :=
  begin_op ;!
  ilock (Some ip) ;!
  let! r := writei ip (SLocal bs) off (Z.of_nat (length bs)) in
  iunlock (Some ip) ;!
  end_op ;!
  ret r.

Section ops.
Context (E : env) (pid dev : Z) (Hdev : dev <> 0).
Context {fuel : Fuel} {disk : Disk} {law : DiskLaw E pid}.
Context (sb : superblock) (start size data0 : Z) (Hlay : layout sb start size data0) (Hlog : MAXOPBLOCKS < size - 1).
Context (O : outer_t) (ip : nat) (Hsb : O.1.2 = sb) (Hip : (ip < length O.1.1)%nat).
Notation fwp := (fwp E pid).
Notation tx x := (tx pid dev start size (with_ip O ip x)).
Notation fs_ok := (fs_ok sb data0).
Notation live := (live sb).
Notation content := (content sb).
Notation avail := (avail sb data0).

(** A write of at most WRITE_MAX bytes: the file has the new bytes, the other
    files are as they were, and at most MAXOPBLOCKS blocks are in the log. *)
Lemma fwp_writei_file x L F off bs (Q : Z -> list lockid -> fsys -> Prop) : let len := Z.of_nat (length bs) in
  tx x L [] [] F -> i_dev x = dev -> fs_ok L -> live L (i_inum x) -> dinode_of x = on_disk sb L (i_inum x) ->
  0 <= off <= i_size x -> len <= File.WRITE_MAX -> off + len <= MAXFILE * BSIZE -> avail L spare ->
  (forall ad' L2 bl F', let x2 := grown x ad' (off + len) in tx x2 L2 [] bl F' -> Z.of_nat (length bl) <= MAXOPBLOCKS -> fits size ad' bl 0 ->
     on_disk sb L2 (i_inum x) = dinode_of x2 -> written sb data0 (i_inum x) off bs L L2 -> Q len [] F') ->
  fwp (writei ip (SLocal bs) off len) [] F Q.
Proof.
  intros len Ht Hd Hfs Hl Hx Ho Hlen Hmax Hav HQ. pose proof (fo_inode _ _ _ Hfs _ Hl) as [Hdi Hf Hde Hsz]. rewrite <- Hx in Hdi, Hf, Hde, Hsz.
  change (di_addrs (dinode_of x)) with (i_addrs x) in *. change (di_size (dinode_of x)) with (i_size x) in *. change File.WRITE_MAX with (3 * BSIZE) in Hlen.
  set (k := Z.to_nat (len / BSIZE + 2)). pose proof (budget_bound k off len ltac:(lia)) as Hbud.
  assert (Hc0 : cost (i_addrs x) [] = 2). { unfold cost, ipot. rewrite decide_False; [done|]. intros [_ []%elem_of_nil]. }
  assert (Hk : (k <= 5)%nat). { pose proof (Z.div_le_mono len (3 * BSIZE) BSIZE ltac:(done) Hlen). change (3 * BSIZE / BSIZE) with 3 in *. unfold k. lia. }
  eapply (fwp_writei E pid dev Hdev sb start size data0 Hlay O ip Hsb Hip off bs x L []);
    [exact Ht|done|apply Hl|apply Hfs|done| | |lia|lia|done|done|].
  - fold len k. unfold fits, NBUF. unfold MAXOPBLOCKS in *. lia.
  - fold len k. destruct Hav as (fs & Hnd & Hfl & Hfr). exists fs. split_and!; [done| |done]. unfold need, spare in *. case_match; lia.
  - intros L' ad' bl' F' x2 H2 Hw. fold len k in H2, Hw, x2. pose proof (e_cost _ _ _ _ _ _ _ _ _ (w_ext _ _ _ _ _ _ _ _ _ _ _ _ Hw)) as Hcost.
    pose proof (cost_logged ad' bl' (IBLOCK (i_inum x) sb)) as Hcl. pose proof (ipot_bound ad' (logged bl' (IBLOCK (i_inum x) sb))) as Hpot.
    eapply HQ; [exact H2| | | |].
    + unfold cost, MAXOPBLOCKS in *. lia.
    + unfold fits, NBUF, MAXOPBLOCKS in *. lia.
    + by eapply (wr_self sb start size data0 Hlay L x off bs).
    + by eapply (wrote_written sb start size data0 Hlay L x off bs).
Qed.
(** readi then returns the file as it is on the disk. *)
Lemma fwp_readi_file x L bl F (Q : Z * list Z -> list lockid -> fsys -> Prop) : tx x L [] bl F -> i_dev x = dev -> fs_ok L -> live L (i_inum x) ->
  dinode_of x = on_disk sb L (i_inum x) -> fits size (i_addrs x) bl 0 ->
  (forall F', tx x L [] bl F' -> Q (Z.of_nat (length (content L (i_inum x))), content L (i_inum x)) [] F') -> fwp (readi ip DLocal 0 (MAXFILE * BSIZE)) [] F Q.
Proof.
  intros Ht Hd Hfs Hl Hx Hfit HQ. pose proof (fo_inode _ _ _ Hfs _ Hl) as [Hdi Hf Hde Hsz]. unfold FsSpec.content in HQ. rewrite <- Hx in Hdi, Hf, Hde, Hsz, HQ.
  change (di_addrs (dinode_of x)) with (i_addrs x) in *. change (di_size (dinode_of x)) with (i_size x) in *. pose proof (do_size _ Hdi) as Hs0. change (di_size (dinode_of x)) with (i_size x) in Hs0.
  eapply (fwp_readi E pid dev Hdev sb start size data0 Hlay O ip Hsb Hip 0); [exact Ht|done|apply Hfs|done|done|done|done|lia|by vm_compute|by vm_compute|].
  rewrite Z.sub_0_r, Z.min_r by done. intros F' H'. specialize (HQ F' H'). unfold fbytes in *. rewrite length_fmap, length_seq, Z2Nat.id in HQ by lia. done.
Qed.
End ops.

(** An inode in the table after ilock is that on the disk. *)
Lemma ilocked_agrees pid sb dev inum L x : cached sb dev inum L x -> let y := ilocked sb pid L x in
  dinode_of y = on_disk sb L inum /\ i_inum y = inum /\ i_dev y = dev /\ i_ref y = i_ref x /\ i_lock y = mkSleeplock 1 pid.
Proof.
  intros [Hd <- _ _ Ha] y. unfold y, ilocked. change (i_valid (with_lock x _)) with (i_valid x). change (i_inum (with_lock x _)) with (i_inum x).
  destruct (Z.eqb_spec (i_valid x) 0) as [E0|Hne]; split_and!; try done. by rewrite <- Ha.
Qed.

Section part.
Context (E : env) (pid dev : Z) (Hdev : dev <> 0).
Context {fuel : Fuel} {disk : Disk} {law : DiskLaw E pid}.
Context (sb : superblock) (start size data0 : Z) (Hlay : layout sb start size data0) (Hlog : MAXOPBLOCKS < size - 1).
(** The start of a transaction on a file: the inode is locked and read. *)
Lemma fwp_open_part {A} ip x inum F (m : K A) (Q : A -> list lockid -> fsys -> Prop) : let d := fs_disk F in
  quiet pid dev start size F -> fs_sb F = sb -> fs_itable F !! ip = Some x -> cached sb dev inum (block d) x -> live sb (block d) inum ->
  (forall y F', tx pid dev start size (with_ip (outer F) ip y) (block d) [] [] F' -> i_dev y = dev -> i_inum y = inum -> dinode_of y = on_disk sb (block d) inum ->
     1 <= i_ref y -> i_lock y = mkSleeplock 1 pid -> fwp E pid m [] F' Q) ->
  fwp E pid (begin_op ;! ilock (Some ip) ;! m) [] F Q.
Proof.
  intros d Hq Hsb Hx Hc Hl HQ. apply fwp_bind. eapply fwp_begin_op; [exact Hq|]. intros F1 EO Ht1.
  pose proof (conj Ht1 EO : tx pid dev start size (outer F) (block d) [] [] F1) as H1. rewrite <- (with_ip_same (outer F) ip x Hx) in H1.
  assert (Hip : (ip < length (outer F).1.1)%nat) by (by eapply lookup_lt_Some). destruct (ilocked_agrees pid _ _ _ _ _ Hc) as (Hy & Hyi & Hyd & Hyr & Hyl).
  apply fwp_bind. eapply (fwp_ilock _ _ _ _ Hlay E pid dev Hdev (outer F) ip Hsb Hip); [exact H1|apply Hc| |apply Hc|apply Hc| | |].
  { rewrite (c_inum _ _ _ _ _ Hc). apply Hl. }
  { rewrite (c_inum _ _ _ _ _ Hc). apply Hl. }
  { unfold room, NBUF, MAXOPBLOCKS in *. cbn [length]. lia. }
  intros F2 H2. eapply HQ; [exact H2|done|done|done| |done]. rewrite Hyr. apply Hc.
Qed.
Lemma fwp_write_part ip x inum F off bs : let d := fs_disk F in let len := Z.of_nat (length bs) in
  quiet pid dev start size F -> fs_sb F = sb -> fs_itable F !! ip = Some x -> cached sb dev inum (block d) x ->
  fs_ok sb data0 (block d) -> live sb (block d) inum ->
  0 <= off <= di_size (on_disk sb (block d) inum) -> len <= File.WRITE_MAX -> off + len <= MAXFILE * BSIZE -> avail sb data0 (block d) spare ->
  fwp E pid (write_part ip bs off) [] F (fun r h F' => r = len /\ h = [] /\ quiet pid dev start size F' /\
    exists L', written sb data0 inum off bs (block d) L' /\ commits E pid dev start (Z.to_nat (size - 1)) d L' F').
Proof.
  intros d len Hq Hsb Hx Hc Hfs Hl Ho Hlen Hmax Hav. assert (Hip : (ip < length (outer F).1.1)%nat) by (by eapply lookup_lt_Some).
  eapply fwp_open_part; [done..|]. intros y F2 H2 Hyd Hyi Hy Hyr Hyl. apply fwp_bind.
  eapply (fwp_writei_file E pid dev Hdev sb start size data0 Hlay Hlog (outer F) ip Hsb Hip); [exact H2|done|done|by rewrite Hyi|by rewrite Hyi| |done|done|done|].
  { change (i_size y) with (di_size (dinode_of y)). by rewrite Hy. }
  intros ad' L2 bl F3 y2 H3 _ _ _ Hwr. rewrite Hyi in Hwr. apply fwp_bind.
  eapply fwp_iunlock; [exact Hip|exact H3|done|done|].
  intros F4 [Ht4 EO4]. apply fwp_bind. eapply fwp_last_end_op; [exact Hdev|exact law|exact Hq|exact Ht4|by injection EO4|].
  intros F5 Hq5 Hcm. apply fwp_ret. split_and!; [done|done|done|]. by exists L2.
Qed.
(** A write, and the whole file read back in the same transaction. *)
Definition write_read (ip : nat) (bs : list Z) (off : Z) : K (Z * (Z * list Z)) :=
  begin_op ;!
  ilock (Some ip) ;!
  let! w := writei ip (SLocal bs) off (Z.of_nat (length bs)) in
  let! r := readi ip DLocal 0 (MAXFILE * BSIZE) in
  ret (w, r).
Lemma fwp_write_read ip x inum F off bs : let d := fs_disk F in let len := Z.of_nat (length bs) in
  quiet pid dev start size F -> fs_sb F = sb -> fs_itable F !! ip = Some x -> cached sb dev inum (block d) x ->
  fs_ok sb data0 (block d) -> live sb (block d) inum ->
  0 <= off <= di_size (on_disk sb (block d) inum) -> len <= File.WRITE_MAX -> off + len <= MAXFILE * BSIZE -> avail sb data0 (block d) spare ->
  fwp E pid (write_read ip bs off) [] F (fun r h F' => lg_n (fs_log F') <= MAXOPBLOCKS /\
    let c := blk_put (content sb (block d) inum) (Z.to_nat off) bs in r = (len, (Z.of_nat (length c), c))).
Proof.
  intros d len Hq Hsb Hx Hc Hfs Hl Ho Hlen Hmax Hav. assert (Hip : (ip < length (outer F).1.1)%nat) by (by eapply lookup_lt_Some).
  eapply fwp_open_part; [done..|]. intros y F2 H2 Hyd Hyi Hy Hyr Hyl. apply fwp_bind.
  eapply (fwp_writei_file E pid dev Hdev sb start size data0 Hlay Hlog (outer F) ip Hsb Hip); [exact H2|done|done|by rewrite Hyi|by rewrite Hyi| |done|done|done|].
  { change (i_size y) with (di_size (dinode_of y)). by rewrite Hy. }
  intros ad' L2 bl F3 y2 H3 Hbl Hfit Hon (Hfs2 & Hnew & Hlive). rewrite Hyi in *. apply fwp_bind.
  eapply (fwp_readi_file E pid dev Hdev sb start size data0 Hlay (outer F) ip Hsb Hip y2); [exact H3|done|done| | |done|].
  { change (i_inum y2) with (i_inum y). rewrite Hyi. by apply Hlive. }
  { change (i_inum y2) with (i_inum y). by rewrite Hyi. }
  change (i_inum y2) with (i_inum y). rewrite Hyi, Hnew. intros F4 [Ht4 _]. apply fwp_ret. split; [|done]. by rewrite (t_n _ _ _ _ _ _ _ _ Ht4).
Qed.
End part.

(** ** With the virtio disk *)
(** The file system is mounted and at rest; entry [ip] of the inode table is a
    reference to file [inum]. *)
Record ready (pid dev data0 : Z) (F : fsys) (ip : nat) (inum : Z) : Prop := {
  r_layout : layout (fs_sb F) (sb_logstart (fs_sb F)) (sb_nlog (fs_sb F)) data0;
  r_room : MAXOPBLOCKS < sb_nlog (fs_sb F) - 1;
  r_quiet : quiet pid dev (sb_logstart (fs_sb F)) (sb_nlog (fs_sb F)) F;
  r_fs : fs_ok (fs_sb F) data0 (block (fs_disk F));
  r_live : live (fs_sb F) (block (fs_disk F)) inum;
  r_ip : exists x, fs_itable F !! ip = Some x /\ cached (fs_sb F) dev inum (block (fs_disk F)) x }.

Section virtio.
Context {fuel : Fuel} (Hfuel : (0 < sleep_fuel)%nat) (mmio : vdisk -> Z -> Z) (pid dev : Z) (Hdev : dev <> 0).

(** C1. Writing to a file is atomic and keeps the file system consistent: a
    process that writes [bs] at offset [off] of a file the way filewrite does
    for each part of a write (begin_op, ilock, writei, iunlock, end_op; at most
    WRITE_MAX bytes, blocks allocated as needed) gets the number of bytes and
    the disk then has a consistent file system (every block of a file marked
    in the bitmap, no block in two files, every inode within its bounds) in
    which the file has [bs] at [off] and is otherwise what it was, and every
    other file is what it was; and if the machine crashes at any moment in
    between, initlog at the next boot leaves a consistent file system in which
    the files are as before or as after the write. *)
Theorem file_write_atomic data0 F ip inum off bs : ready pid dev data0 F ip inum ->
  let sb := fs_sb F in let L := block (fs_disk F) in let len := Z.of_nat (length bs) in
  0 <= off <= di_size (on_disk sb L inum) -> len <= File.WRITE_MAX -> off + len <= MAXFILE * BSIZE -> avail sb data0 L spare ->
  fwp (device mmio) pid (write_part ip bs off) [] F (fun r h F' => r = len /\ h = [] /\
    written sb data0 inum off bs L (block (fs_disk F')) /\
    forall d', crash (fs_disk F) (fs_disk F') d' -> forall G, rebooted pid dev d' G ->
      fwp (device mmio) pid (initlog dev sb) [] G (fun _ _ G' =>
        unchanged sb data0 L (block (fs_disk G')) \/ written sb data0 inum off bs L (block (fs_disk G')))).
Proof.
  intros [Hlay Hroom Hq Hfs Hl (x & Hx & Hc)] sb L len Ho Hlen Hmax Hav. pose proof (virtio_law mmio pid Hfuel).
  assert (Hagree : forall G M, (forall b, user (sb_logstart sb) (Z.to_nat (sb_nlog sb - 1)) b -> block (fs_disk G) b = M b) ->
    forall b, sb_inodestart sb <= b -> block (fs_disk G) b = M b).
  { intros G M HM b Hb. apply HM. pose proof (lay_order _ _ _ _ Hlay). fold sb in H0. unfold user. lia. }
  eapply fwp_mono; [by eapply (fwp_write_part _ _ _ Hdev _ _ _ _ Hlay Hroom)|]. intros r h F' (-> & -> & _ & L' & Hw & Hnew & Hcrash).
  split_and!; [done|done| |].
  - eapply agree_written; [exact Hlay|by apply Hagree|done|done].
  - intros d' Hd' G HG. eapply fwp_mono; [by eapply Hcrash|]. intros [] h G' [Hold|Hn]; [left|right].
    + eapply agree_unchanged; [exact Hlay|by apply Hagree|done].
    + eapply agree_written; [exact Hlay|by apply Hagree|done|done].
Qed.
(** C13. What writei has written is what readi reads, and a write of at most
    WRITE_MAX bytes, which is what filewrite does in one transaction, never
    logs more than the MAXOPBLOCKS blocks that begin_op has set aside. *)
Theorem write_then_read data0 F ip inum off bs : ready pid dev data0 F ip inum ->
  let sb := fs_sb F in let L := block (fs_disk F) in let len := Z.of_nat (length bs) in
  0 <= off <= di_size (on_disk sb L inum) -> len <= File.WRITE_MAX -> off + len <= MAXFILE * BSIZE -> avail sb data0 L spare ->
  fwp (device mmio) pid (write_read ip bs off) [] F (fun r h F' => lg_n (fs_log F') <= MAXOPBLOCKS /\
    let c := blk_put (content sb L inum) (Z.to_nat off) bs in r = (len, (Z.of_nat (length c), c))).
Proof.
  intros [Hlay Hroom Hq Hfs Hl (x & Hx & Hc)] sb L len Ho Hlen Hmax Hav. pose proof (virtio_law mmio pid Hfuel). by eapply (fwp_write_read _ _ _ Hdev _ _ _ _ Hlay Hroom).
Qed.
End virtio.

(** ** A file system *)
(** A disk of 60 blocks with one file, inode 1, in block 34. *)
Definition sample_fs_sb : superblock := mkSuperblock FSMAGIC 60 26 16 30 2 32 33.
Definition one_file (x : dinode) (data : list Z) : list (Z * list Z) :=
  [(32, blk_put zero_block 64 (dinode_bytes x)); (33, blk_put zero_block 0 (replicate 4 255 ++ [7])); (34, data)].
Lemma sample_layout : layout sample_fs_sb 2 30 34.
Proof. split; vm_compute; intuition congruence. Qed.
Lemma all_below (n : nat) (P : Z -> bool) : forallb (fun i => P (Z.of_nat i)) (seq 0 n) = true -> forall k, 0 <= k < Z.of_nat n -> P k = true.
Proof. intros H k Hk. rewrite forallb_forall in H. specialize (H (Z.to_nat k)). rewrite Z2Nat.id in H by lia. apply H, in_seq. lia. Qed.
Section one_file.
Context (x : dinode) (data : list Z) (Hx : dinode_ok x) (Had : di_addrs x = 34 :: replicate 12 0) (Hsz : di_size x <= BSIZE) (Hdata : length data = 1024%nat).
Notation L := (block (one_file x data)).
Lemma one_inodes i : 0 <= i < 16 -> L (IBLOCK i sample_fs_sb) = blk_put zero_block 64 (dinode_bytes x).
Proof. intros Hi. unfold IBLOCK. change IPB with 16. rewrite Z.div_small by lia. reflexivity. Qed.
Lemma one_self : on_disk sample_fs_sb L 1 = x.
Proof. unfold on_disk. rewrite one_inodes by lia. change (dinode_off 1) with 64%nat. apply get_dinode_bytes; [done|]. unfold zero_block. rewrite length_replicate. lia. Qed.
Lemma one_live j : live sample_fs_sb L j -> j = 1.
Proof.
  intros [Hj Ht]. change (sb_ninodes sample_fs_sb) with 16 in Hj. destruct (decide (j = 1)) as [|Hne]; [done|]. destruct Ht. unfold on_disk. rewrite one_inodes by lia.
  unfold dinode_off. change IPB with 16. rewrite Z.mod_small by lia. unfold DINODE_SIZE.
  rewrite get_dinode_other; [|by apply dinode_bytes_length, Hx|unfold zero_block; rewrite length_replicate; lia|lia].
  apply Z.eqb_eq. revert j Hj Hne. intros j Hj _. apply (all_below 16 (fun j => di_type (get_dinode zero_block (Z.to_nat (j * 64))) =? 0)); [vm_compute; reflexivity|exact Hj].
Qed.
Lemma one_slot i : 0 <= i < NSLOT -> slot L (di_addrs x) i = if i =? 0 then 34 else 0.
Proof.
  intros Hi. rewrite Had. destruct (decide (i <= NDIRECT)) as [Hle|Hgt].
  - rewrite slot_direct by lia. apply Z.eqb_eq.
    apply (all_below 13 (fun i => default 0 ((34 :: replicate 12 0) !! Z.to_nat i) =? (if i =? 0 then 34 else 0))); [vm_compute; reflexivity|unfold NDIRECT in Hle; lia].
  - rewrite slot_indirect by lia. rewrite (proj2 (Z.eqb_neq i 0)) by (unfold NDIRECT in Hgt; lia). done.
Qed.
Lemma one_sized : sized sample_fs_sb L.
Proof.
  intros b _. unfold block, one_file. repeat case_match; [|reflexivity|done|reflexivity].
  rewrite blk_put_length; [reflexivity|]. rewrite dinode_bytes_length by apply Hx. unfold zero_block. rewrite length_replicate. lia.
Qed.
Lemma one_file_ok : fs_ok sample_fs_sb 34 L.
Proof.
  split.
  - split; [exact one_sized|]. intros b Hb. unfold used. assert (BBLOCK b sample_fs_sb = 33) as ->.
    { unfold BBLOCK, BPB, BSIZE. rewrite Z.div_small by lia. reflexivity. }
    apply (all_below 34 (fun b => bit_test (blk_put zero_block 0 (replicate 4 255 ++ [7])) (b mod BPB))); [vm_compute; reflexivity|exact Hb].
  - intros j ->%one_live. split; rewrite one_self; [done| | |unfold BSIZE in Hsz; rewrite max_file; lia].
    + split; [apply Hx|..].
      * intros i Hi. rewrite one_slot by done. destruct (i =? 0); [|done]. intros _. vm_compute. intuition congruence.
      * intros i j Hi Hj. rewrite !one_slot by done. destruct (Z.eqb_spec i 0), (Z.eqb_spec j 0); lia.
    + intros bn Hbn Hlt. assert (bn = 0) as -> by (unfold BSIZE in *; lia). change (place 0) with 0. rewrite one_slot by (split; [lia|done]). done.
  - intros i j c ->%one_live ->%one_live _ _. done.
Qed.
Lemma one_avail : avail sample_fs_sb 34 L spare.
Proof.
  exists [35; 36; 37; 38; 39; 40]. split; [repeat constructor; set_solver|]. split; [done|]. intros c Hc. unfold BlockSpec.free, used.
  rewrite !elem_of_cons in Hc. destruct Hc as [->|[->|[->|[->|[->|[->|[]%elem_of_nil]]]]]]; vm_compute; intuition congruence.
Qed.
(** Mounted, with entry 0 of the inode table in use. *)
Definition mounted (ip : inode) : fsys :=
  (sample_files (one_file x data)) <| fs_sb := sample_fs_sb |> <| fs_itable := ip :: replicate 49 zero_inode |>.
Lemma mounted_ready ip : cached sample_fs_sb 1 1 L ip -> di_type x <> 0 -> ready 1 1 34 (mounted ip) 0 1.
Proof.
  intros Hip Hty. split; [exact sample_layout|vm_compute; reflexivity|..].
  - change (quiet 1 1 2 30 (mounted ip)). split; [apply cold_cst; [lia|exact cold_bufs_cold]|reflexivity..|lia|lia|unfold LOGSIZE, MAXOPBLOCKS; lia|reflexivity|].
    change (head_blocks zero_block = []). vm_compute. reflexivity.
  - exact one_file_ok.
  - split; [vm_compute; intuition congruence|]. change (di_type (on_disk sample_fs_sb L 1) <> 0). by rewrite one_self.
  - exists ip. split; [reflexivity|exact Hip].
Qed.
End one_file.
(** A file of 1000 bytes; it is open and has no name any more. *)
Definition sample_dinode : dinode := mkDinode T_FILE 0 0 0 1000 (34 :: replicate 12 0).
Definition sample_blocks : list (Z * list Z) := one_file sample_dinode (replicate 1024 7).
Definition sample_ip : inode := zero_inode <| i_dev := 1 |> <| i_inum := 1 |> <| i_ref := 1 |>.
Definition sample_with (ip : inode) : fsys := mounted sample_dinode (replicate 1024 7) ip.
Definition sample_mounted : fsys := sample_with sample_ip.
Lemma sample_dinode_ok : dinode_ok sample_dinode.
Proof.
  split; [|done|done|].
  - intros v. cbn [sample_dinode di_type di_major di_minor di_nlink]. rewrite !elem_of_cons, elem_of_nil. unfold T_FILE. lia.
  - intros a [->|[-> _]%elem_of_replicate]%elem_of_cons; lia.
Qed.
Lemma sample_ip_cached L : cached sample_fs_sb 1 1 L sample_ip.
Proof. split; try reflexivity; try done. Qed.
Lemma sample_ready ip : cached sample_fs_sb 1 1 (block sample_blocks) ip -> ready 1 1 34 (sample_with ip) 0 1.
Proof. intros H. apply mounted_ready; [exact sample_dinode_ok|done|done|done|exact H|done]. Qed.
Lemma sample_mounted_ready : ready 1 1 34 sample_mounted 0 1.
Proof. apply sample_ready, sample_ip_cached. Qed.
Lemma sample_avail : avail sample_fs_sb 34 (block sample_blocks) spare.
Proof. apply one_avail; [exact sample_dinode_ok|done..]. Qed.
#[local] Instance one_sleep : Fuel := 1%nat.
(** 1500 bytes at offset 900: the file grows by a block. *)
Definition sample_bytes : list Z := replicate 1500 9.
Lemma file_write_atomic_witness : ready 1 1 34 sample_mounted 0 1 /\
  rwp (resumed (fun _ _ => 0)) (write_part 0 sample_bytes 900) (sample_machine sample_mounted)
    (fun r s' => r = 1500 /\ content sample_fs_sb (block (fs_disk (k_fs s'))) 1 = replicate 900 7 ++ replicate 1500 9).
Proof.
  split; [exact sample_mounted_ready|].
  pose proof (file_write_atomic (fuel := one_sleep) (le_n 1) (fun _ _ => 0) 1 1 ltac:(lia) 34 sample_mounted 0 1 900 sample_bytes sample_mounted_ready
    ltac:(vm_compute; intuition congruence) ltac:(vm_compute; congruence) ltac:(vm_compute; congruence) sample_avail
    (sample_machine sample_mounted) (sample_calm _ _) eq_refl) as H.
  eapply rwp_mono; [exact H|]. clear H. intros r s' (h & _ & -> & _ & (_ & Hc & _) & _). split; [reflexivity|].
  change (fs_sb sample_mounted) with sample_fs_sb in Hc. rewrite Hc. vm_compute. reflexivity.
Defined.
Lemma write_then_read_witness : ready 1 1 34 sample_mounted 0 1 /\
  rwp (resumed (fun _ _ => 0)) (write_read 0 sample_bytes 900) (sample_machine sample_mounted)
    (fun r s' => r = (1500, (2400, replicate 900 7 ++ replicate 1500 9)) /\ lg_n (fs_log (k_fs s')) <= 10).
Proof.
  split; [exact sample_mounted_ready|].
  pose proof (write_then_read (fuel := one_sleep) (le_n 1) (fun _ _ => 0) 1 1 ltac:(lia) 34 sample_mounted 0 1 900 sample_bytes sample_mounted_ready
    ltac:(vm_compute; intuition congruence) ltac:(vm_compute; congruence) ltac:(vm_compute; congruence) sample_avail
    (sample_machine sample_mounted) (sample_calm _ _) eq_refl) as H.
  eapply rwp_mono; [exact H|]. clear H. intros r s' (h & _ & Hn & ->). split; [|exact Hn]. vm_compute. reflexivity.
Defined.
End FsSpec.
