(* ===== verification/DeleteSpec.v ===== *)
(** * Deleting a file: iput of the last reference

    When the last reference to a file without a name goes, iput frees its
    blocks and its inode. *)

From S2P Require Import Prelude State Spinlock CString Mem Sched FileLayer Proc PsList Console Bio BufCache Virtio Log FsLogic BufSpec LogSpec VirtioSpec Crash Fs TxnSpec BlockSpec FileSpec InodeSpec DinodeSpec RwSpec FreeSpec File FsSpec.

Module DeleteSpec.
Import BufCache FsLogic BufSpec LogSpec VirtioSpec Virtio Crash TxnSpec BlockSpec FileSpec InodeSpec DinodeSpec RwSpec FreeSpec FsSpec Log Fs.

Section files.
Context (sb : superblock) (start size data0 : Z) (Hlay : layout sb start size data0).
Notation addrs L j := (di_addrs (on_disk sb L j)).
Notation used := (used sb).
Notation fs_ok := (fs_ok sb data0).
Notation live := (live sb).
Notation content := (content sb).
(** File [inum] is gone, its blocks are free, and the other files are what
    they were. *)
Definition deleted (inum : Z) (L L' : Z -> list Z) : Prop :=
  fs_ok L' /\ ~ live L' inum /\ (forall c, owns L (addrs L inum) c -> used L' c = false) /\
  forall j, live L j -> j <> inum -> live L' j /\ content L' j = content L j.

Section delete.
Context (L : Z -> list Z) (inum : Z) (J : list Z) (L' L2 : Z -> list Z).
Context (Hfs : fs_ok L) (Hl : live L inum) (Hfr : freed sb L (addrs L inum) J L') (HJ : forall j, j ∈ J <-> 0 <= j < NSLOT).
Context (Hblk : forall c, sb_bmapstart sb <= c -> L2 c = L' c) (Hty : di_type (on_disk sb L2 inum) = 0).
Context (Hoth : forall j, 0 <= j < sb_ninodes sb -> j <> inum -> on_disk sb L2 j = on_disk sb L j) (Hsz : sized sb L2).
Lemma del_used b : 0 <= b < sb_size sb -> used L2 b = true <-> used L b = true /\ ~ owns L (addrs L inum) b.
Proof.
  intros Hb. assert (used L2 b = used L' b) as ->.
  { unfold BlockSpec.used. rewrite Hblk; [done|]. apply (BBLOCK_range _ _ _ _ Hlay b Hb). }
  rewrite (fr_used _ _ _ _ _ Hfr b Hb). split; intros [Hu Hn]; (split; [done|]).
  - intros (j & Hj & Hne & E). by apply (Hn j); [apply HJ| |].
  - intros j Hj Hne E. apply Hn. exists j. split; [by apply HJ|done].
Qed.
Lemma del_owned j c : live L j -> j <> inum -> owns L (addrs L j) c -> L2 c = L c /\ used L2 c = true.
Proof.
  intros Hj Hne Ho. destruct (owns_data _ _ _ _ _ (io_file _ _ _ _ (fo_inode _ _ _ Hfs _ Hj)) Ho) as [Hr Hu]. pose proof (lay_order _ _ _ _ Hlay).
  rewrite Hblk by lia. rewrite (freed_block sb start size data0 Hlay _ _ _ _ _ Hfr) by lia. split; [done|]. apply del_used; [lia|]. split; [done|].
  intros Ho'. apply Hne. by eapply (fo_apart _ _ _ Hfs).
Qed.
Lemma del_live j : live L2 j <-> live L j /\ j <> inum.
Proof.
  unfold FsSpec.live. destruct (decide (j = inum)) as [->|Hne]; [rewrite Hty; tauto|].
  split; [intros [Hj Ht]; rewrite Hoth in Ht; done|intros [[Hj Ht] _]; rewrite Hoth; done].
Qed.
Lemma del_inode j : live L j -> j <> inum -> live L2 j /\ inode_ok sb data0 L2 j /\ content L2 j = content L j.
Proof.
  intros Hj Hne. eapply keep_inode; [done|by apply (fo_inode _ _ _ Hfs)|apply Hoth; [apply Hj|done]|]. intros c. by apply del_owned.
Qed.
Lemma freed_deleted : deleted inum L L2.
Proof.
  pose proof (lay_order _ _ _ _ Hlay) as Hord. pose proof (io_file _ _ _ _ (fo_inode _ _ _ Hfs _ Hl)) as Hf. split_and!; [split|..].
  - split; [done|]. intros b Hb. apply del_used; [lia|]. split; [apply (fo_disk _ _ _ Hfs); lia|]. intros Ho. destruct (owns_data _ _ _ _ _ Hf Ho). lia.
  - intros j [Hj Hne]%del_live. by apply del_inode.
  - intros i j c [Hi Hni]%del_live [Hj Hnj]%del_live. rewrite (Hoth i), (Hoth j) by (apply Hi || apply Hj || done).
    rewrite (keep_owns L L2 (addrs L i)) by (intros c' Ho; apply (del_owned i c' Hi Hni Ho)).
    rewrite (keep_owns L L2 (addrs L j)) by (intros c' Ho; apply (del_owned j c' Hj Hnj Ho)). by apply (fo_apart _ _ _ Hfs).
  - intros [_ Hn]%del_live. done.
  - intros c Ho. destruct (owns_data _ _ _ _ _ Hf Ho). destruct (used L2 c) eqn:Eu; [|done]. apply del_used in Eu as [_ Hn]; [done|lia].
  - intros j Hj Hne. destruct (del_inode j Hj Hne) as (? & _ & ?). done.
Qed.
End delete.
Lemma agree_deleted inum L L1 L2 : (forall b, sb_inodestart sb <= b -> L2 b = L1 b) -> fs_ok L -> live L inum -> deleted inum L L1 -> deleted inum L L2.
Proof.
  intros Ha Hfs Hl (Hok & Hgone & Hfree & Hold). destruct (agree_unchanged sb start size data0 Hlay L1 L2 Ha Hok) as [Hok2 Hsame]. pose proof (lay_order _ _ _ _ Hlay). split_and!.
  - done.
  - intros [Hi Ht]. apply Hgone. split; [done|]. unfold on_disk in *. by rewrite Ha in Ht by apply (IBLOCK_range _ _ _ _ Hlay inum Hi).
  - intros c Ho. destruct (owns_data _ _ _ _ _ (io_file _ _ _ _ (fo_inode _ _ _ Hfs _ Hl)) Ho). pose proof (BBLOCK_range _ _ _ _ Hlay c).
    unfold BlockSpec.used. rewrite Ha by lia. by apply Hfree.
  - intros j Hj Hne. destruct (Hold j Hj Hne) as [H1 H2]. destruct (Hsame j H1) as [H3 H4]. split; [done|congruence].
Qed.
End files.

(** ** iput *)
(** Entry [x] of the inode table is the last reference to an inode without a
    name. *)
Record last (x : inode) : Prop := {
  l_ref : i_ref x = 1;
  l_valid : i_valid x <> 0;
  l_nlink : i_nlink x = 0 }.
Section ops.
Context (E : env) (pid dev : Z) (Hdev : dev <> 0).
Context {fuel : Fuel} {disk : Disk} {law : DiskLaw E pid}.
Context (sb : superblock) (start size data0 : Z) (Hlay : layout sb start size data0) (Hlog : nbitmap sb + 2 <= Z.min (size - 1) (NBUF - 2)).
Context (O : outer_t) (ip : nat) (Hsb : O.1.2 = sb) (Hip : (ip < length O.1.1)%nat).
Notation fwp := (fwp E pid).
Notation tx x := (tx pid dev start size (with_ip O ip x)).
Definition typeless (y : inode) : inode := (emptied y) <| i_type := 0 |>.

(** The disk after itrunc and after the type has been cleared. *)
Lemma cleared_disk x inum L J L' : cached sb dev inum L x -> i_valid x <> 0 -> fs_ok sb data0 L -> live sb L inum ->
  freed sb L (i_addrs x) J L' -> (forall j, j ∈ J <-> 0 <= j < NSLOT) ->
  let y := with_lock x (mkSleeplock 1 pid) in deleted sb data0 inum L (iupdated sb (iupdated sb L' (emptied y)) (typeless y)).
Proof.
  intros [_ Hi _ _ Hag] Hv Hfs Hl Hfr HJ y. specialize (Hag Hv). pose proof (io_dinode _ _ _ _ (fo_inode _ _ _ Hfs _ Hl)) as Hdi. rewrite <- Hag in Hdi.
  pose proof (lay_order _ _ _ _ Hlay) as Hord. pose proof (fr_sized _ _ _ _ _ Hfr) as Hs0. destruct Hl as [Hr Hty].
  assert (Hs1 : sized sb (iupdated sb L' (emptied y))) by (apply (sized_iupdated _ _ _ _ Hlay); [done|by change (i_inum (emptied y)) with (i_inum x); rewrite Hi|done]).
  eapply (freed_deleted sb start size data0 Hlay L inum J L'); [done|done| |done| | | |].
  - rewrite <- Hag. exact Hfr.
  - intros c Hc. pose proof (IBLOCK_range _ _ _ _ Hlay inum Hr).
    rewrite !iupdated_ne; [done|change (i_inum (emptied y)) with (i_inum x)|change (i_inum (typeless y)) with (i_inum x)]; rewrite Hi; lia.
  - rewrite <- Hi. change (i_inum x) with (i_inum (typeless y)). rewrite (iupdated_on_disk _ _ _ _ Hlay); [done|done|by change (i_inum (typeless y)) with (i_inum x); rewrite Hi|].
    destruct Hdi as [Hsh _ _ _]. split; [|done|done|].
    + intros v. change (di_type (dinode_of (typeless y))) with 0. intros [->|Hin]%elem_of_cons; [lia|]. apply Hsh. by right.
    + intros a. change (di_addrs (dinode_of (typeless y))) with (replicate 13 0). intros [-> _]%elem_of_replicate. lia.
  - intros j Hj Hne. rewrite (iupdated_other _ _ _ _ Hlay); [|done|done|by change (i_inum (typeless y)) with (i_inum x); rewrite Hi|done|by change (i_inum (typeless y)) with (i_inum x); rewrite Hi].
    rewrite (iupdated_other _ _ _ _ Hlay); [|done|done|by change (i_inum (emptied y)) with (i_inum x); rewrite Hi|done|by change (i_inum (emptied y)) with (i_inum x); rewrite Hi].
    unfold on_disk. rewrite (fr_same _ _ _ _ _ Hfr); [done|]. intros Hb%(bitmap_range sb start size data0 Hlay). pose proof (IBLOCK_range _ _ _ _ Hlay j Hj). lia.
  - apply (sized_iupdated _ _ _ _ Hlay); [done|by change (i_inum (typeless y)) with (i_inum x); rewrite Hi|done].
Qed.
Lemma fwp_iput_last x inum L F (Q : unit -> list lockid -> fsys -> Prop) : tx x L [] [] F -> cached sb dev inum L x -> last x -> fs_ok sb data0 L -> live sb L inum ->
  (forall x' L2 bl F', tx x' L2 [] bl F' -> deleted sb data0 inum L L2 -> Q tt [] F') -> fwp (iput ip) [] F Q.
Proof.
  intros Ht Hc [Hr Hv Hn] Hfs Hl HQ. pose proof Hc as [Hd Hi _ Hul Hag]. specialize (Hag Hv).
  unfold iput. apply fwp_bind, fwp_acquire; [apply not_elem_of_nil|]. apply fwp_bind. eapply fwp_geti; [exact Hip|exact Ht|].
  rewrite Hr, Hn, (proj2 (Z.eqb_neq _ _) Hv). cbn [Z.eqb Pos.eqb andb negb]. apply fwp_bind, fwp_bind.
  eapply fwp_acquiresleep_i; [exact Hip|exact Ht|done|by rewrite list_elem_of_singleton|]. set (y := with_lock x _). intros F1 H1.
  apply fwp_bind, fwp_release; [apply not_elem_of_nil|]. apply fwp_bind.
  eapply (fwp_itrunc E pid dev Hdev sb start size data0 Hlay Hlog O ip Hsb Hip L (i_addrs x)); [apply Hfs| |exact H1|done|done| |].
  { change (i_addrs x) with (di_addrs (dinode_of x)). rewrite Hag. by apply (fo_inode _ _ _ Hfs). }
  { change (i_inum y) with (i_inum x). rewrite Hi. apply Hl. }
  intros J L' bl F2 Hfr HJ H2 Hbl. apply fwp_bind. eapply fwp_seti; [exact Hip|exact H2|]. intros F3 H3. apply fwp_bind.
  eapply (fwp_iupdate sb start size data0 Hlay E pid dev Hdev O ip Hsb Hip (typeless y)); [exact H3|done|change (i_inum (typeless y)) with (i_inum x); rewrite Hi; apply Hl|unfold room; lia|].
  intros F4 H4. apply fwp_bind. eapply fwp_seti; [exact Hip|exact H4|]. intros F5 H5. apply fwp_bind.
  eapply fwp_releasesleep_i; [exact Hip|exact H5|]. intros F6 H6. apply fwp_acquire; [apply not_elem_of_nil|].
  apply fwp_bind. eapply fwp_seti; [exact Hip|exact H6|]. intros F7 H7. apply fwp_release; [apply not_elem_of_nil|].
  eapply HQ; [exact H7|]. by eapply cleared_disk.
Qed.
End ops.

(** The transaction in which fileclose, exit and chdir give up an inode. *)
Definition drop_inode {fuel : Fuel} {disk : Disk} (ip : nat) : K unit :=
  begin_op ;!
  iput ip ;!
  end_op.
Section virtio.
Context {fuel : Fuel} (Hfuel : (0 < sleep_fuel)%nat) (mmio : vdisk -> Z -> Z) (pid dev : Z) (Hdev : dev <> 0).

(** C9. Deleting a file is atomic and keeps the file system consistent: when a
    process gives up the last reference to a file that has no name any more
    (begin_op, iput, end_op, as fileclose does), the inode and all blocks of
    the file, the indirect block and those it names included, are free
    afterwards, the other files are what they were, and the file system is
    consistent; and if the machine crashes at any moment in between, initlog
    at the next boot leaves a consistent file system in which the file is
    there as before or is deleted.  The bitmap must fit into a transaction. *)
Theorem delete_atomic data0 F ip inum : ready pid dev data0 F ip inum -> (forall x, fs_itable F !! ip = Some x -> last x) ->
  let sb := fs_sb F in let L := block (fs_disk F) in nbitmap sb + 2 <= MAXOPBLOCKS ->
  fwp (device mmio) pid (drop_inode ip) [] F (fun _ h F' => h = [] /\
    deleted sb data0 inum L (block (fs_disk F')) /\
    forall d', crash (fs_disk F) (fs_disk F') d' -> forall G, rebooted pid dev d' G ->
      fwp (device mmio) pid (initlog dev sb) [] G (fun _ _ G' =>
        unchanged sb data0 L (block (fs_disk G')) \/ deleted sb data0 inum L (block (fs_disk G')))).
Proof.
  intros [Hlay Hroom Hq Hfs Hl (x & Hx & Hc)] Hlast sb L Hnb. pose proof (virtio_law mmio pid Hfuel).
  assert (Hagree : forall G M, (forall b, user (sb_logstart sb) (Z.to_nat (sb_nlog sb - 1)) b -> block (fs_disk G) b = M b) ->
    forall b, sb_inodestart sb <= b -> block (fs_disk G) b = M b).
  { intros G M HM b Hb. apply HM. pose proof (lay_order _ _ _ _ Hlay). fold sb in H0. unfold user. lia. }
  assert (Hip : (ip < length (outer F).1.1)%nat) by (by eapply lookup_lt_Some).
  unfold drop_inode. apply fwp_bind. eapply fwp_begin_op; [exact Hq|]. intros F1 EO Ht1.
  pose proof (conj Ht1 EO : tx pid dev _ _ (outer F) L [] [] F1) as H1. rewrite <- (with_ip_same (outer F) ip x Hx) in H1.
  apply fwp_bind. eapply (fwp_iput_last _ pid dev Hdev sb (sb_logstart sb) (sb_nlog sb) data0 Hlay) with (O := outer F); [unfold NBUF, MAXOPBLOCKS in *; fold sb in Hroom; lia|done|done|exact H1|exact Hc|by apply Hlast|done|done|].
  intros x' L2 bl F2 [Ht2 EO2] Hdel. eapply fwp_last_end_op; [exact Hdev|done|exact Hq|exact Ht2|by injection EO2|].
  intros F3 _ [Hnew Hcrash]. split; [done|]. split.
  - eapply agree_deleted; [exact Hlay|by apply Hagree|done|done|done].
  - intros d' Hd' G HG. eapply fwp_mono; [by eapply Hcrash|]. intros [] h G' [Hold|Hn]; [left|right].
    + eapply agree_unchanged; [exact Hlay|by apply Hagree|done].
    + eapply agree_deleted; [exact Hlay|by apply Hagree|done|done|done].
Qed.
End virtio.

#[local] Instance one_wakeup : Fuel := 1%nat.
Definition sample_last : inode := loaded sample_ip sample_dinode.
Lemma sample_last_ready : ready 1 1 34 (sample_with sample_last) 0 1.
Proof. apply sample_ready. split; try done. Qed.
Lemma delete_atomic_witness : ready 1 1 34 (sample_with sample_last) 0 1 /\ used sample_fs_sb (block sample_blocks) 34 = true /\
  rwp (resumed (fun _ _ => 0)) (drop_inode 0) (sample_machine (sample_with sample_last))
    (fun _ s' => used sample_fs_sb (block (fs_disk (k_fs s'))) 34 = false /\ ~ live sample_fs_sb (block (fs_disk (k_fs s'))) 1).
Proof.
  split; [exact sample_last_ready|]. split; [vm_compute; reflexivity|].
  assert (Hlast : forall x, fs_itable (sample_with sample_last) !! 0%nat = Some x -> last x) by (intros x [= <-]; split; [done|done|done]).
  pose proof (delete_atomic (fuel := one_wakeup) (le_n 1) (fun _ _ => 0) 1 1 ltac:(lia) 34 (sample_with sample_last) 0 1 sample_last_ready Hlast
    ltac:(vm_compute; congruence) (sample_machine (sample_with sample_last)) (sample_calm _ _) eq_refl) as H.
  eapply rwp_mono; [exact H|]. clear H. intros [] s' (h & _ & _ & (_ & Hgone & Hfree & _) & _). split; [|exact Hgone].
  apply Hfree. exists 0. vm_compute. intuition congruence.
Defined.
End DeleteSpec.
