(* ===== verification/DirSpec.v ===== *)
(** * Directories: dirlookup and dirlink

    A directory is a file of 16-byte entries; it stands for a map from names
    to inode numbers.  dirlookup finds a name in the map, dirlink adds one. *)

From S2P Require Import Prelude State Spinlock CString Mem Sched FileLayer Proc PsList Console Bio BufCache Virtio Log FsLogic BufSpec LogSpec VirtioSpec Crash Fs TxnSpec BlockSpec FileSpec InodeSpec DinodeSpec RwSpec File FsSpec.

Module DirSpec.
Import CString BufCache FsLogic BufSpec LogSpec VirtioSpec Virtio Crash TxnSpec BlockSpec FileSpec InodeSpec DinodeSpec RwSpec FsSpec Log Fs.

(** ** The map *)
(** A name as the kernel passes it: 14 bytes, or fewer and a NUL. *)
Definition name_ok (name : list Z) : Prop := Forall (fun b => 0 <= b < 256) name /\ (0 ∈ name \/ (14 <= length name)%nat).
(** The string it stands for. *)
Definition key (name : list Z) : list Z := cstr (take 14 name).
Definition dent (c : list Z) (k : nat) : list Z := blk_get c (16 * k) 16.
Definition named (name de : list Z) : bool := negb (de_inum de =? 0) && bool_decide (strncmp name (de_name de) 14 = Some 0).
(** The first entry in use with the name, among the [m] entries from [k] on. *)
Fixpoint dfind (m k : nat) (name c : list Z) : option nat :=
  match m with
  | O => None
  | S m => if named name (dent c k) then Some k else dfind m (S k) name c
  end.
(** The inode number of a name in the directory [c]. *)
Definition dmap (c : list Z) (name : list Z) : option Z :=
  (fun k => de_inum (dent c k)) <$> dfind (length c / 16) 0 name c.

Lemma cstr_app0 p q : 0 ∈ p -> cstr (p ++ q) = cstr p.
Proof. induction p as [|a p IH]; intros H; [by apply elem_of_nil in H|]. cbn. destruct (Z.eqb_spec a 0); [done|]. f_equal. apply IH. set_solver. Qed.
(** Bytes after the NUL do not matter. *)
Lemma strncmp_pad p q n k : 0 ∈ p -> strncmp (p ++ replicate k 0) q n = strncmp p q n.
Proof.
  revert q n. induction p as [|a p IH]; intros q n H; [by apply elem_of_nil in H|]. destruct n as [|n]; [done|]. destruct q as [|b q]; [done|]. cbn [app strncmp].
  destruct (Z.eqb_spec a 0) as [->|]; [done|]. cbn [negb andb]. destruct (a =? b); [|done]. apply IH. set_solver.
Qed.
Lemma strncmp_name name q : name_ok name -> Forall (fun b => 0 <= b < 256) q -> (14 <= length q)%nat ->
  exists r, strncmp name q 14 = Some r /\ (r = 0 <-> key name = key q).
Proof.
  intros [Hb Hn] Hq Hl. unfold key. destruct Hn as [H0|Hn]; [|by apply strncmp_zero].
  rewrite <- (strncmp_pad name q 14 14 H0). assert (Hp : Forall (fun b => 0 <= b < 256) (name ++ replicate 14 0)) by (apply Forall_app; split; [done|apply Forall_replicate; lia]).
  destruct (strncmp_zero (name ++ replicate 14 0) q 14 Hp Hq) as (r & Hr & Hr0); [rewrite length_app, length_replicate; lia|done|]. exists r. split; [done|]. rewrite Hr0.
  assert (cstr (take 14 (name ++ replicate 14 0)) = cstr (take 14 name)) as ->; [|done]. rewrite take_app, take_replicate.
  destruct (decide (14 <= length name)%nat); [replace (14 - length name)%nat with 0%nat by lia; cbn [Nat.min replicate]; by rewrite app_nil_r|].
  rewrite (take_ge name) by lia. by apply cstr_app0.
Qed.
(** strncmp stays within a name and an entry. *)
Lemma strncmp_some name q : 0 ∈ name \/ (14 <= length name)%nat -> (14 <= length q)%nat -> exists r, strncmp name q 14 = Some r.
Proof.
  generalize 14%nat. intros n. revert name q. induction n as [|n IH]; intros p q Hp Hq; [by exists 0|]. destruct q as [|b q]; cbn in Hq; [lia|].
  destruct p as [|a p]; [destruct Hp as [[]%elem_of_nil|Hp]; cbn in Hp; lia|]. cbn [strncmp]. destruct (Z.eqb_spec a 0) as [->|]; [by eexists|]. cbn [negb andb].
  destruct (a =? b); [|by eexists]. apply IH; [|lia]. destruct Hp as [Hp|Hp]; [left; set_solver|right; cbn in Hp; lia].
Qed.
(** Only the string of the name matters. *)
Lemma strncmp_cstr n : forall p p' q, 0 ∈ p \/ (n <= length p)%nat -> 0 ∈ p' \/ (n <= length p')%nat -> cstr (take n p) = cstr (take n p') -> strncmp p q n = strncmp p' q n.
Proof.
  induction n as [|n IH]; intros p p' q Hp Hp' E; [done|].
  destruct p as [|a p]; [destruct Hp as [[]%elem_of_nil|Hp]; cbn in Hp; lia|]. destruct p' as [|a' p']; [destruct Hp' as [[]%elem_of_nil|Hp']; cbn in Hp'; lia|].
  cbn in E. destruct q as [|b q]; [done|]. cbn [strncmp]. destruct (Z.eqb_spec a 0) as [->|Ha], (Z.eqb_spec a' 0) as [->|Ha']; [done|done|done|]. injection E as <- E.
  cbn [negb andb]. destruct (a =? b); [|done]. apply IH; [| |done].
  - destruct Hp as [Hp|Hp]; [left; set_solver|right; cbn in Hp; lia].
  - destruct Hp' as [Hp'|Hp']; [left; set_solver|right; cbn in Hp'; lia].
Qed.
Lemma named_key name name' de : name_ok name -> name_ok name' -> key name = key name' -> named name de = named name' de.
Proof. intros [_ H1] [_ H2] E. unfold named. by rewrite (strncmp_cstr 14 name name'). Qed.

Lemma dfind_some name c m : forall k j, dfind m k name c = Some j -> (k <= j < k + m)%nat /\ named name (dent c j) = true /\ forall i, (k <= i < j)%nat -> named name (dent c i) = false.
Proof.
  induction m as [|m IH]; intros k j; cbn [dfind]; [done|]. destruct (named name (dent c k)) eqn:E.
  - intros [= <-]. split; [lia|]. split; [done|lia].
  - intros (H1 & H2 & H3)%IH. split; [lia|]. split; [done|]. intros i Hi. destruct (decide (i = k)) as [->|]; [done|]. apply H3. lia.
Qed.
Lemma dfind_none name c m : forall k, dfind m k name c = None -> forall i, (k <= i < k + m)%nat -> named name (dent c i) = false.
Proof.
  induction m as [|m IH]; intros k; cbn [dfind]; [lia|]. destruct (named name (dent c k)) eqn:E; [done|]. intros H i Hi.
  destruct (decide (i = k)) as [->|]; [done|]. apply (IH (S k)); [done|lia].
Qed.
Lemma dfind_first name c m j : forall k, (k <= j < k + m)%nat -> named name (dent c j) = true -> (forall i, (k <= i < j)%nat -> named name (dent c i) = false) -> dfind m k name c = Some j.
Proof.
  induction m as [|m IH]; intros k Hj Hn Hb; [lia|]. cbn [dfind]. destruct (decide (j = k)) as [->|]; [by rewrite Hn|]. rewrite Hb by lia. apply IH; [lia|done|].
  intros i Hi. apply Hb. lia.
Qed.
Lemma dfind_absent name c m : forall k, (forall i, (k <= i < k + m)%nat -> named name (dent c i) = false) -> dfind m k name c = None.
Proof. induction m as [|m IH]; intros k H; [done|]. cbn [dfind]. rewrite H by lia. apply IH. intros i Hi. apply H. lia. Qed.

(** ** Adding a name *)
Lemma cstr_length s : (length (cstr s) <= length s)%nat.
Proof. induction s as [|a s IH]; cbn; [lia|]. case_match; cbn; lia. Qed.
Lemma key_length n : (length (key n) <= 14)%nat.
Proof. unfold key. pose proof (cstr_length (take 14 n)). rewrite length_take in *. lia. Qed.
Lemma cstr_nul s n : 0 ∉ s -> cstr (s ++ replicate n 0) = s.
Proof. induction s as [|a s IH]; intros H; cbn; [by destruct n|]. destruct (Z.eqb_spec a 0) as [->|]; [set_solver|]. f_equal. apply IH. set_solver. Qed.
Lemma cstr_no_nul s : 0 ∉ cstr s.
Proof. induction s as [|a s IH]; cbn; [apply not_elem_of_nil|]. destruct (Z.eqb_spec a 0); [apply not_elem_of_nil|]. apply not_elem_of_cons. done. Qed.
Lemma cstr_bytes s : Forall (fun b => 0 <= b < 256) s -> Forall (fun b => 0 <= b < 256) (cstr s).
Proof. induction 1 as [|a s Ha Hs IH]; cbn; [done|]. case_match; [done|]. by constructor. Qed.
(** The name as strncpy puts it into an entry. *)
Definition padded (name : list Z) : list Z := key name ++ replicate (14 - length (key name)) 0.
Definition new_entry (inum : Z) (name : list Z) : list Z := le_bytes 2 (inum mod 2 ^ 16) ++ padded name.
Lemma nm_length name : length (padded name) = 14%nat.
Proof. unfold padded. rewrite length_app, length_replicate. pose proof (key_length name). lia. Qed.
Lemma new_entry_length inum name : length (new_entry inum name) = 16%nat.
Proof. unfold new_entry. rewrite length_app, le_bytes_length, nm_length. done. Qed.
Lemma new_inum inum name : 0 < inum < 2 ^ 16 -> de_inum (new_entry inum name) = inum.
Proof.
  intros Hinum. unfold de_inum, get16, new_entry, blk_get. rewrite drop_0, take_app_length' by done. rewrite le_val_bytes, Z.mod_mod by done.
  change (256 ^ Z.of_nat 2) with (2 ^ 16). rewrite !Z.mod_small by lia. done.
Qed.
Lemma new_name inum name : de_name (new_entry inum name) = padded name.
Proof. unfold de_name, new_entry, blk_get. rewrite drop_app_length' by done. apply take_ge. by rewrite nm_length. Qed.
Lemma new_key name : key (padded name) = key name.
Proof. unfold key at 1. rewrite take_ge by (by rewrite nm_length). apply cstr_nul. apply cstr_no_nul. Qed.
Lemma nm_bytes name : name_ok name -> Forall (fun b => 0 <= b < 256) (padded name).
Proof. intros [Hb _]. apply Forall_app. split; [apply cstr_bytes, Forall_take, Hb|apply Forall_replicate; lia]. Qed.
Lemma new_named inum name n : 0 < inum < 2 ^ 16 -> name_ok name -> name_ok n -> named n (new_entry inum name) = bool_decide (key n = key name).
Proof.
  intros Hinum Hname Hn. unfold named. rewrite new_inum, new_name, (proj2 (Z.eqb_neq _ _)) by lia. cbn [negb andb].
  destruct (strncmp_name n (padded name) Hn (nm_bytes name Hname)) as (r & -> & Hr); [by rewrite nm_length|]. rewrite new_key in Hr. apply bool_decide_ext. rewrite <- Hr. split; [by intros [=]|by intros ->].
Qed.
Section link.
Context (c : list Z) (N k : nat) (name : list Z) (inum : Z).
Context (Hc : length c = (16 * N)%nat) (Hk : (k <= N)%nat) (Hempty : (k < N)%nat -> de_inum (dent c k) = 0).
Context (Hname : name_ok name) (Hinum : 0 < inum < 2 ^ 16) (Hnew : dmap c name = None).
Notation new_entry := (new_entry inum name).
Notation c' := (blk_put c (16 * k) new_entry).
Lemma link_length : length c' = (16 * Nat.max N (S k))%nat.
Proof. unfold blk_put. rewrite !length_app, length_take, length_drop, new_entry_length. lia. Qed.
Lemma link_dent j : dent c' j = if decide (j = k) then new_entry else if decide (j < N)%nat then dent c j else [].
Proof.
  pose proof (new_entry_length inum name) as Hl. unfold dent, blk_get. apply list_eq. intros i. case_decide as Hj.
  - subst j. destruct (decide (i < 16)%nat) as [Hi|Hi].
    + rewrite lookup_take_lt, lookup_drop, blk_put_lookup by lia. rewrite decide_True by lia. f_equal. lia.
    + rewrite lookup_take_ge by lia. rewrite lookup_ge_None_2; [done|lia].
  - case_decide as HjN.
    + destruct (decide (i < 16)%nat) as [Hi|Hi]; [|by rewrite !lookup_take_ge by lia]. rewrite !lookup_take_lt, !lookup_drop, blk_put_lookup by lia. by rewrite decide_False by lia.
    + rewrite lookup_nil. apply lookup_ge_None_2. rewrite length_take, length_drop, link_length. lia.
Qed.
(** The map has the name and is otherwise what it was. *)
Lemma link_map n : name_ok n -> dmap c' n = if decide (key n = key name) then Some inum else dmap c n.
Proof.
  intros Hn. assert (Hnone : dfind N 0 name c = None).
  { pose proof Hnew as H. unfold dmap in H. rewrite Hc, Nat.mul_comm, Nat.div_mul in H by done. by destruct (dfind N 0 name c). }
  unfold dmap. assert (Hdiv : forall m, (16 * m / 16)%nat = m) by (intros m; rewrite Nat.mul_comm; by apply Nat.div_mul). rewrite link_length, Hc, !Hdiv.
  assert (Hold : forall j, j <> k -> (j < N)%nat -> dent c' j = dent c j) by (intros j H1 H2; by rewrite link_dent, decide_False, decide_True).
  assert (Hk0 : dent c' k = new_entry) by (by rewrite link_dent, decide_True).
  assert (Hcases : forall j, (j < Nat.max N (S k))%nat -> j = k \/ j <> k /\ (j < N)%nat) by lia.
  case_decide as Hkey.
  - rewrite (dfind_first n c' _ k 0); [cbn [fmap option_fmap option_map]; by rewrite Hk0, new_inum|lia|rewrite Hk0, new_named by done; by apply bool_decide_eq_true|].
    intros i Hi. rewrite Hold by lia. rewrite (named_key n name) by done. by eapply (dfind_none name c N 0); [|lia].
  - assert (Hfk : named n (dent c' k) = false) by (rewrite Hk0, new_named by done; by apply bool_decide_eq_false).
    destruct (dfind N 0 n c) as [j|] eqn:Ed; cbn [fmap option_fmap option_map].
    + apply dfind_some in Ed as (Hj & Hnj & Hb). assert (Hjk : j <> k) by (intros ->; unfold named in Hnj; rewrite Hempty in Hnj by lia; done).
      rewrite (dfind_first n c' _ j 0); [cbn [fmap option_fmap option_map]; by rewrite Hold by lia|lia|by rewrite Hold by lia|]. intros i Hi.
      destruct (decide (i = k)) as [->|]; [done|]. rewrite Hold by lia. by apply Hb.
    + rewrite dfind_absent; [done|]. intros i Hi. destruct (Hcases i) as [->|[H1 H2]]; [lia|done|]. rewrite Hold by done. by eapply (dfind_none n c N 0); [|lia].
Qed.
End link.

(** ** The operations *)
Lemma fbytes_length L ad off n : length (fbytes L ad off n) = Z.to_nat n.
Proof. unfold fbytes. by rewrite length_fmap, length_seq. Qed.
Lemma fbytes_sub L ad off n sz : 0 <= off -> 0 <= n -> off + n <= sz -> fbytes L ad off n = blk_get (fbytes L ad 0 sz) (Z.to_nat off) (Z.to_nat n).
Proof.
  intros Ho Hn Hs. apply list_eq. intros i. unfold blk_get. destruct (decide (i < Z.to_nat n)%nat) as [Hi|Hi].
  - rewrite lookup_take_lt, lookup_drop, fbytes_lookup by lia. rewrite decide_True by lia. unfold fbytes. rewrite list_lookup_fmap, lookup_seq_lt by lia.
    cbn [fmap option_fmap option_map]. do 2 f_equal. lia.
  - rewrite lookup_take_ge by lia. apply lookup_ge_None_2. rewrite fbytes_length. lia.
Qed.
Lemma take_cstr n s : take n (cstr s) = cstr (take n s).
Proof. revert n. induction s as [|a s IH]; intros [|n]; try done. cbn. destruct (a =? 0); [done|]. cbn. by rewrite IH. Qed.

Section ops.
Context (E : env) (pid dev : Z) (Hdev : dev <> 0).
Context {fuel : Fuel} {disk : Disk} {law : DiskLaw E pid}.
Context (sb : superblock) (start size data0 : Z) (Hlay : layout sb start size data0) (Hlog : MAXOPBLOCKS < size - 1).
Notation fwp := (fwp E pid).
(** *** iget *)
Section iget.
Context (O : outer_t) (inum : Z).
Notation tx := (tx pid dev start size).
(** The entry that iget returns: one that is in use, with one more reference,
    or one that was not. *)
Definition got (O' : outer_t) (i : nat) : Prop := exists y z, O.1.1 !! i = Some y /\ O' = with_ip O i z /\ i_dev z = dev /\ i_inum z = inum /\
  (1 <= i_ref y /\ z = upd i_ref (fun r => r + 1) y \/ i_ref y = 0 /\ i_ref z = 1 /\ i_valid z = 0).
Lemma fwp_iget_scan l : forall empty h L held bl F (Q : nat + option nat -> list lockid -> fsys -> Prop), tx O L held bl F ->
  (forall i, i ∈ l -> is_Some (O.1.1 !! i)) ->
  (forall i O' F', tx O' L held bl F' -> got O' i -> Q (inl i) h F') ->
  (forall e, e = empty \/ (exists i y, e = Some i /\ O.1.1 !! i = Some y /\ i_ref y = 0) ->
     (empty = None -> (exists i y, i ∈ l /\ O.1.1 !! i = Some y /\ i_ref y = 0) -> e <> None) -> (empty <> None -> e = empty) -> Q (inr e) h F) ->
  fwp (iget_scan l empty dev inum) h F Q.
Proof.
  induction l as [|i l IH]; intros empty h L held bl F Q Ht Hsome Hhit Hmiss; cbn [iget_scan].
  - apply fwp_ret, Hmiss; [by left|intros _ (i & y & []%elem_of_nil & _)|done].
  - destruct (Hsome i (list_elem_of_here _ _)) as [y Hy]. apply fwp_bind. eapply tx_geti; [exact Ht|exact Hy|].
    destruct ((0 <? i_ref y) && (i_dev y =? dev) && (i_inum y =? inum)) eqn:Em.
    + apply andb_true_iff in Em as [[H1%Z.ltb_lt H2%Z.eqb_eq]%andb_true_iff H3%Z.eqb_eq]. apply fwp_bind. eapply tx_seti; [exact Ht|exact Hy|]. intros F' H'.
      apply fwp_ret. eapply Hhit; [exact H'|]. exists y, (upd i_ref (fun r => r + 1) y). split_and!; [done|done|done|done|]. left. split; [lia|done].
    + set (e1 := if bool_decide (empty = None) && (i_ref y =? 0) then Some i else empty).
      eapply (IH e1); [exact Ht|intros j Hj; apply Hsome; by right|exact Hhit|]. intros e He Hne Heq.
      unfold e1 in *. destruct (decide (empty = None)) as [En|En].
      * rewrite bool_decide_true in * by done. cbn [andb] in *. destruct (Z.eqb_spec (i_ref y) 0) as [Er|Er].
        -- rewrite (Heq ltac:(done)). apply Hmiss; [right; by exists i, y|done|done].
        -- apply Hmiss; [by destruct He; [left|right]| |done]. intros _ (j & z & [->|Hj]%elem_of_cons & Hz & Hr); [congruence|]. apply Hne; [done|]. by exists j, z.
      * rewrite bool_decide_false in * by done. cbn [andb] in *. apply Hmiss; [by left; apply Heq|done|done].
Qed.
Lemma fwp_iget L held bl F (Q : nat -> list lockid -> fsys -> Prop) : tx O L held bl F -> length O.1.1 = Z.to_nat NINODE ->
  (exists i y, O.1.1 !! i = Some y /\ i_ref y = 0) ->
  (forall i O' F', tx O' L held bl F' -> got O' i -> Q i [] F') -> fwp (iget dev inum) [] F Q.
Proof.
  intros Ht Hlen (i0 & y0 & Hi0 & Hr0) HQ. unfold iget. apply fwp_bind, fwp_acquire; [apply not_elem_of_nil|]. apply fwp_bind.
  eapply fwp_iget_scan; [exact Ht|intros i Hi; apply lookup_lt_is_Some_2; rewrite Hlen; unfold all_inodes in Hi; apply elem_of_seq in Hi; lia| |].
  - intros i O' F' H' Hg. apply fwp_bind, fwp_release; [apply not_elem_of_nil|]. apply fwp_ret. by eapply HQ.
  - intros e [->|(i & y & -> & Hi & Hr)] Hne _.
    + destruct Hne; [done| |done]. exists i0, y0. split; [|done]. apply elem_of_seq. apply lookup_lt_Some in Hi0. lia.
    + apply fwp_bind. eapply tx_seti; [exact Ht|exact Hi|]. intros F' H'. apply fwp_bind, fwp_release; [apply not_elem_of_nil|]. apply fwp_ret. eapply HQ; [exact H'|].
      eexists y, _. split_and!; [done|done|done|done|]. by right.
Qed.
(** iput of such an entry only takes the reference back. *)
Definition put_back (O2 : outer_t) : Prop := exists i y z, O.1.1 !! i = Some y /\ O2 = with_ip O i z /\ (1 <= i_ref y /\ z = y \/ i_ref y = 0).
Lemma fwp_iput_got O' i L bl F (Q : unit -> list lockid -> fsys -> Prop) : tx O' L [] bl F -> got O' i ->
  (forall O2 F', tx O2 L [] bl F' -> put_back O2 -> Q tt [] F') -> fwp (iput i) [] F Q.
Proof.
  intros Ht (y & z & Hy & -> & Hzd & Hzi & Hz) HQ. assert (Hi : (i < length O.1.1)%nat) by (by eapply lookup_lt_Some).
  unfold iput. apply fwp_bind, fwp_acquire; [apply not_elem_of_nil|]. apply fwp_bind. eapply fwp_geti; [exact Hi|exact Ht|].
  assert (((i_ref z =? 1) && negb (i_valid z =? 0) && (i_nlink z =? 0)) = false) as ->.
  { destruct Hz as [[H1 ->]|(_ & _ & ->)]; [|cbn; by rewrite andb_false_r]. change (i_ref (upd i_ref (fun r => r + 1) y)) with (i_ref y + 1).
    by rewrite (proj2 (Z.eqb_neq _ _)) by lia. }
  apply fwp_bind, fwp_ret. apply fwp_bind. eapply fwp_seti; [exact Hi|exact Ht|]. intros F' H'. apply fwp_release; [apply not_elem_of_nil|]. eapply HQ; [exact H'|].
  exists i, y, (upd i_ref (fun r => r - 1) z). split_and!; [done|done|]. destruct Hz as [[H1 ->]|(H1 & _)]; [left|by right]. split; [done|].
  destruct y. unfold upd, upd_i_ref. cbn. f_equal. lia.
Qed.
(** An entry in use is what it was. *)
Lemma put_back_keep O2 j x : put_back O2 -> O.1.1 !! j = Some x -> 1 <= i_ref x ->
  O2.1.1 !! j = Some x /\ O2.1.2 = O.1.2 /\ O2.2 = O.2.
Proof.
  intros (i & y & z & Hy & -> & Hz) Hx Hr. split; [|done]. cbn. destruct (decide (i = j)) as [->|Hne]; [|by rewrite list_lookup_insert_ne].
  destruct Hz as [[_ ->]|Hz]; simplify_eq; [|lia]. apply list_lookup_insert_eq. by eapply lookup_lt_Some.
Qed.
End iget.

(** *** A directory *)
Section dir.
Context (O : outer_t) (dp : nat) (Hsb : O.1.2 = sb) (Hip : (dp < length O.1.1)%nat).
Notation tx x := (tx pid dev start size (with_ip O dp x)).
(** [x] is the inode of a directory with [N] entries. *)
Record dir_ok (x : inode) (L : Z -> list Z) (N : nat) : Prop := {
  d_dev : i_dev x = dev;
  d_fs : fs_ok sb data0 L;
  d_live : live sb L (i_inum x);
  d_disk : dinode_of x = on_disk sb L (i_inum x);
  d_type : i_type x = T_DIR;
  d_size : i_size x = 16 * Z.of_nat N }.
Section in_dir.
Context (x : inode) (L : Z -> list Z) (N : nat) (bl : list Z) (Hd : dir_ok x L N) (Hfit : fits size (i_addrs x) bl 0).
Notation c := (content sb L (i_inum x)).
Lemma dir_content : c = fbytes L (i_addrs x) 0 (i_size x).
Proof. unfold content. by rewrite <- (d_disk _ _ _ Hd). Qed.
Lemma dir_length : length c = (16 * N)%nat.
Proof. rewrite dir_content, fbytes_length, (d_size _ _ _ Hd). lia. Qed.
Lemma fwp_read_dent F i (Q : Z * list Z -> list lockid -> fsys -> Prop) : tx x L [] bl F -> (i < N)%nat ->
  (forall F', tx x L [] bl F' -> Q (16, dent c i) [] F') -> fwp (readi dp DLocal (16 * Z.of_nat i) DIRENT_SIZE) [] F Q.
Proof.
  intros Ht Hi HQ. destruct Hd as [Hdv Hfs Hl Hx _ Hs]. pose proof (fo_inode _ _ _ Hfs _ Hl) as [_ Hf Hde Hsz]. rewrite <- Hx in Hf, Hde, Hsz.
  change (di_addrs (dinode_of x)) with (i_addrs x) in *. change (di_size (dinode_of x)) with (i_size x) in *. pose proof max_file.
  eapply (fwp_readi E pid dev Hdev sb start size data0 Hlay O dp Hsb Hip); [exact Ht|done|apply Hfs|done|done|done|done|lia|done|unfold DIRENT_SIZE; lia|].
  unfold DIRENT_SIZE. rewrite Z.min_l by lia. intros F' H'. specialize (HQ F' H'). unfold dent in HQ. rewrite dir_content in HQ.
  rewrite (fbytes_sub L (i_addrs x) (16 * Z.of_nat i) 16 (i_size x)) by lia. by replace (Z.to_nat (16 * Z.of_nat i)) with (16 * i)%nat by lia.
Qed.
Lemma fwp_dirlookup_loop name k : name_ok name -> forall i F (Q : option (nat * Z) -> list lockid -> fsys -> Prop), tx x L [] bl F -> (i <= N)%nat -> (N <= i + k)%nat ->
  (forall F', tx x L [] bl F' -> dfind (N - i) i name c = None -> Q None [] F') ->
  (forall j F', tx x L [] bl F' -> dfind (N - i) i name c = Some j -> fwp (let! ip := iget dev (de_inum (dent c j)) in ret (Some (ip, 16 * Z.of_nat j))) [] F' Q) ->
  fwp (dirlookup_loop k dp name (16 * Z.of_nat i)) [] F Q.
Proof.
  intros Hname. pose proof (d_size _ _ _ Hd) as Hs.
  induction k as [|k IH]; intros i F Q Ht Hi Hk Hnone Hsome; cbn [dirlookup_loop]; apply fwp_bind; (eapply fwp_geti; [exact Hip|exact Ht|]);
    destruct (Z.leb_spec (i_size x) (16 * Z.of_nat i)) as [Hle|Hgt]; try lia;
    try (assert (i = N) as -> by lia; apply fwp_ret, Hnone; [done|by rewrite Nat.sub_diag]).
  apply fwp_bind. eapply fwp_read_dent; [exact Ht|lia|]. intros F1 H1. cbn [fst snd]. unfold DIRENT_SIZE at 1. cbn [Z.eqb Pos.eqb negb].
  replace (N - i)%nat with (S (N - S i)) in Hnone, Hsome by lia. cbn [dfind] in Hnone, Hsome. unfold named in Hnone, Hsome.
  replace (16 * Z.of_nat i + DIRENT_SIZE) with (16 * Z.of_nat (S i)) by (unfold DIRENT_SIZE; lia).
  destruct (de_inum (dent c i) =? 0) eqn:Ei; cbn [negb andb] in Hnone, Hsome; [by eapply IH; [exact H1|lia|lia|..]|].
  destruct (strncmp_some name (de_name (dent c i))) as [r Hr]; [apply Hname|unfold de_name, dent, blk_get; rewrite length_take, length_drop, length_take, length_drop, dir_length; lia|].
  apply fwp_bind. unfold namecmp. change (Z.to_nat DIRSIZ) with 14%nat. eapply fwp_deref; [exact Hr|]. rewrite Hr in Hnone, Hsome.
  destruct (Z.eqb_spec r 0) as [->|Hne].
  - rewrite bool_decide_true in Hsome by done. apply fwp_bind. eapply fwp_geti; [exact Hip|exact H1|]. rewrite (d_dev _ _ _ Hd). by apply Hsome.
  - rewrite bool_decide_false in Hnone, Hsome by congruence. by eapply IH; [exact H1|lia|lia|..].
Qed.
(** dirlookup decides the map. *)
Lemma fwp_dirlookup name F (Q : option (nat * Z) -> list lockid -> fsys -> Prop) : name_ok name -> tx x L [] bl F ->
  (forall F', tx x L [] bl F' -> dmap c name = None -> Q None [] F') ->
  (forall j F', tx x L [] bl F' -> dmap c name = Some (de_inum (dent c j)) -> fwp (let! ip := iget dev (de_inum (dent c j)) in ret (Some (ip, 16 * Z.of_nat j))) [] F' Q) ->
  fwp (dirlookup dp name) [] F Q.
Proof.
  intros Hname Ht Hnone Hsome. pose proof (d_size _ _ _ Hd) as Hs. unfold dmap in *. rewrite dir_length, Nat.mul_comm, Nat.div_mul in Hnone, Hsome by done.
  unfold dirlookup. apply fwp_bind. eapply fwp_geti; [exact Hip|exact Ht|]. rewrite (d_type _ _ _ Hd). cbn [T_DIR Z.eqb Pos.eqb negb].
  eapply (fwp_dirlookup_loop name _ Hname 0); [exact Ht|lia| | |].
  - rewrite Hs. unfold DIRENT_SIZE. rewrite Z.mul_comm, Z.div_mul by lia. lia.
  - rewrite Nat.sub_0_r. intros F' H' Hf. apply Hnone; [done|]. by rewrite Hf.
  - rewrite Nat.sub_0_r. intros j F' H' Hf. apply Hsome; [done|]. by rewrite Hf.
Qed.
(** The first empty entry, or the end. *)
Lemma fwp_dirlink_slot k : forall i F (Q : Z -> list lockid -> fsys -> Prop), tx x L [] bl F -> (i <= N)%nat -> (N <= i + k)%nat ->
  (forall j F', tx x L [] bl F' -> (j <= N)%nat -> ((j < N)%nat -> de_inum (dent c j) = 0) -> Q (16 * Z.of_nat j) [] F') ->
  fwp (dirlink_slot k dp (16 * Z.of_nat i)) [] F Q.
Proof.
  pose proof (d_size _ _ _ Hd) as Hs.
  induction k as [|k IH]; intros i F Q Ht Hi Hk HQ; cbn [dirlink_slot]; apply fwp_bind; (eapply fwp_geti; [exact Hip|exact Ht|]);
    destruct (Z.leb_spec (i_size x) (16 * Z.of_nat i)) as [Hle|Hgt]; try lia; try (apply fwp_ret, HQ; [done|done|lia]).
  apply fwp_bind. eapply fwp_read_dent; [exact Ht|lia|]. intros F1 H1. cbn [fst snd]. unfold DIRENT_SIZE at 1. cbn [Z.eqb Pos.eqb negb].
  destruct (Z.eqb_spec (de_inum (dent c i)) 0); [by apply fwp_ret, HQ; [|lia|]|].
  replace (16 * Z.of_nat i + DIRENT_SIZE) with (16 * Z.of_nat (S i)) by (unfold DIRENT_SIZE; lia). by eapply IH; [exact H1|lia|lia|].
Qed.
End in_dir.
(** What dirlink makes of the map. *)
Definition linked (name : list Z) (inum : Z) (c c' : list Z) : Prop :=
  forall n, name_ok n -> dmap c' n = if decide (key n = key name) then Some inum else dmap c n.
Lemma fwp_dirlink x L N name inum F (Q : Z -> list lockid -> fsys -> Prop) : dir_ok x L N -> tx x L [] [] F -> name_ok name -> 0 < inum < 2 ^ 16 ->
  16 * Z.of_nat N + 16 <= MAXFILE * BSIZE -> avail sb data0 L spare -> dmap (content sb L (i_inum x)) name = None ->
  (forall x' L' N' bl F', tx x' L' [] bl F' -> i_inum x' = i_inum x -> i_ref x' = i_ref x -> i_lock x' = i_lock x -> dir_ok x' L' N' -> fits size (i_addrs x') bl 0 ->
     linked name inum (content sb L (i_inum x)) (content sb L' (i_inum x)) ->
     (forall j, live sb L j -> live sb L' j /\ (j <> i_inum x -> content sb L' j = content sb L j)) -> Q 0 [] F') ->
  fwp (dirlink dp name inum) [] F Q.
Proof.
  intros Hd Ht Hname Hinum Hmax Hav Hnew HQ. pose proof Hd as [Hdv Hfs Hl Hx Hty Hs]. unfold MAXOPBLOCKS in Hlog.
  assert (Hfit : fits size (i_addrs x) [] 0). { unfold fits, cost, NBUF, MAXOPBLOCKS. pose proof (ipot_bound (i_addrs x) []). cbn [length]. lia. }
  unfold dirlink. apply fwp_bind. eapply (fwp_dirlookup x L N [] Hd Hfit name); [done|exact Ht| |intros; congruence]. intros F1 H1 _. apply fwp_bind.
  eapply fwp_geti; [exact Hip|exact H1|]. apply fwp_bind. change 0 with (16 * Z.of_nat 0) at 1.
  eapply (fwp_dirlink_slot x L N [] Hd Hfit); [exact H1|lia|rewrite Hs; unfold DIRENT_SIZE; rewrite Z.mul_comm, Z.div_mul; lia|].
  intros k F2 H2 Hk Hempty. apply fwp_bind. pose proof (dir_length x L N Hd) as Hlen.
  eapply fwp_deref; [apply strncpy_spec; [done|apply Hname]|]. cbv zeta. change (Z.to_nat DIRSIZ) with 14%nat. rewrite take_cstr, drop_ge, app_nil_r by done.
  fold (key name). fold (padded name). fold (new_entry inum name). pose proof (new_entry_length inum name) as Hel. apply fwp_bind.
  replace DIRENT_SIZE with (Z.of_nat (length (new_entry inum name))) by (by rewrite Hel).
  eapply (fwp_writei_file E pid dev Hdev sb start size data0 Hlay Hlog O dp Hsb Hip); [exact H2|done|done|done|done|lia|rewrite Hel; by vm_compute|rewrite Hel; lia|done|].
  intros ad' L2 bl F3 x2 H3 _ Hfit2 Hon (Hfs2 & Hcont & Hold). rewrite Hel. change (Z.of_nat 16 =? DIRENT_SIZE) with true. cbn [negb]. apply fwp_ret.
  eapply HQ; [exact H3|done|done|done| |exact Hfit2| |exact Hold].
  - split; [done|done|by apply Hold|done|done|]. change (i_size x2) with (Z.max (i_size x) (16 * Z.of_nat k + Z.of_nat (length (new_entry inum name)))).
    rewrite Hel. instantiate (1 := Nat.max N (S k)). lia.
  - rewrite Hcont. replace (Z.to_nat (16 * Z.of_nat k)) with (16 * k)%nat by lia. intros n Hn. by apply (link_map _ N).
Qed.
(** dirlink of a name that is there. *)
Lemma fwp_dirlink_exists x L N name inum bl F (Q : Z -> list lockid -> fsys -> Prop) : dir_ok x L N -> tx x L [] bl F -> fits size (i_addrs x) bl 0 -> name_ok name ->
  length O.1.1 = Z.to_nat NINODE -> (exists i y, (with_ip O dp x).1.1 !! i = Some y /\ i_ref y = 0) -> dmap (content sb L (i_inum x)) name <> None ->
  (forall O2 F', TxnSpec.tx pid dev start size O2 L [] bl F' -> put_back (with_ip O dp x) O2 -> Q (-1) [] F') ->
  fwp (dirlink dp name inum) [] F Q.
Proof.
  intros Hd Ht Hfit Hname Hlen Hfree Hex HQ. unfold dirlink. apply fwp_bind. eapply (fwp_dirlookup x L N bl Hd Hfit name); [done|exact Ht|by intros|].
  intros j F1 H1 _. apply fwp_bind. eapply fwp_iget; [exact H1|by rewrite <- Hlen; apply length_insert|exact Hfree|].
  intros i O' F2 H2 Hg. apply fwp_ret. apply fwp_bind. eapply fwp_iput_got; [exact H2|exact Hg|]. intros O2 F3 H3 Hpb. apply fwp_ret. by eapply HQ.
Qed.
End dir.
End ops.

(** ** With the virtio disk *)
(** The transaction of sys_link on the directory; sys_link and create call
    dirlink with the directory locked. *)
Definition link_part {fuel : Fuel} {disk : Disk} (dp : nat) (name : list Z) (inum : Z) : K Z :=
  begin_op ;!
  ilock (Some dp) ;!
  let! r := dirlink dp name inum in
  iunlock (Some dp) ;!
  end_op ;!
  ret r.
(** The directory [d] has the name, and nothing else has changed. *)
Definition name_added (sb : superblock) (data0 d : Z) (name : list Z) (inum : Z) (L L' : Z -> list Z) : Prop :=
  fs_ok sb data0 L' /\ linked name inum (content sb L d) (content sb L' d) /\ forall j, live sb L j -> live sb L' j /\ (j <> d -> content sb L' j = content sb L j).
Lemma agree_added sb start size data0 (Hlay : layout sb start size data0) d name inum L L1 L2 :
  (forall b, sb_inodestart sb <= b -> L2 b = L1 b) -> live sb L d -> name_added sb data0 d name inum L L1 -> name_added sb data0 d name inum L L2.
Proof.
  intros Ha Hl (Hok & Hmap & Hold). destruct (agree_unchanged sb start size data0 Hlay L1 L2 Ha Hok) as [Hok2 Hsame]. destruct (Hold d Hl) as [Hl1 _].
  split; [done|]. split; [by rewrite (proj2 (Hsame d Hl1))|]. intros j Hj. destruct (Hold j Hj) as [H1 H2]. destruct (Hsame j H1) as [H3 H4].
  split; [done|]. intros Hne. rewrite H4. by apply H2.
Qed.
(** A directory of [N] entries that can take one more. *)
Record dir_ready (data0 : Z) (F : fsys) (d : Z) (N : nat) : Prop := {
  dr_type : di_type (on_disk (fs_sb F) (block (fs_disk F)) d) = T_DIR;
  dr_size : di_size (on_disk (fs_sb F) (block (fs_disk F)) d) = 16 * Z.of_nat N;
  dr_max : 16 * Z.of_nat N + 16 <= MAXFILE * BSIZE;
  dr_spare : avail (fs_sb F) data0 (block (fs_disk F)) spare;
  dr_table : length (fs_itable F) = Z.to_nat NINODE;
  dr_entry : exists i y, fs_itable F !! i = Some y /\ i_ref y = 0 }.

Section part.
Context (E : env) (pid dev : Z) (Hdev : dev <> 0).
Context {fuel : Fuel} {disk : Disk} {law : DiskLaw E pid}.
Lemma fwp_link_part data0 F dp d N name inum : let sb := fs_sb F in let L := block (fs_disk F) in let c := content sb L d in
  ready pid dev data0 F dp d -> dir_ready data0 F d N -> name_ok name -> 0 < inum < 2 ^ 16 ->
  fwp E pid (link_part dp name inum) [] F (fun r h F' => h = [] /\ exists L',
    commits E pid dev (sb_logstart sb) (Z.to_nat (sb_nlog sb - 1)) (fs_disk F) L' F' /\
    (dmap c name = None /\ r = 0 /\ name_added sb data0 d name inum L L' \/ dmap c name <> None /\ r = -1 /\ forall b, L' b = L b)).
Proof.
  intros sb L c [Hlay Hroom Hq Hfs Hl (x & Hx & Hc)] [Hty Hsz Hmax Hav Htab (i0 & y0 & Hi0 & Hr0)] Hname Hinum.
  assert (Hip : (dp < length (outer F).1.1)%nat) by (by eapply lookup_lt_Some). unfold link_part.
  eapply (fwp_open_part E pid dev Hdev sb _ _ data0 Hlay Hroom); [exact Hq|done|exact Hx|exact Hc|done|]. intros y F1 H1 Hyd Hyi Hy Hyr Hyl. fold L in H1, Hy.
  assert (Hd : dir_ok dev sb data0 y L N).
  { split; [done|done|by rewrite Hyi|by rewrite Hyi|..].
    - change (i_type y) with (di_type (dinode_of y)). by rewrite Hy.
    - change (i_size y) with (di_size (dinode_of y)). by rewrite Hy. }
  assert (Hend : forall O2 z L' bl r F2, (dp < length O2.1.1)%nat -> TxnSpec.tx pid dev (sb_logstart sb) (sb_nlog sb) (with_ip O2 dp z) L' [] bl F2 -> 1 <= i_ref z -> i_lock z = mkSleeplock 1 pid -> O2.2 = fs_disk F ->
    (dmap c name = None /\ r = 0 /\ name_added sb data0 d name inum L L' \/ dmap c name <> None /\ r = -1 /\ forall b, L' b = L b) ->
    fwp E pid (iunlock (Some dp) ;! end_op ;! ret r) [] F2 (fun r h F' => h = [] /\ exists L',
      commits E pid dev (sb_logstart sb) (Z.to_nat (sb_nlog sb - 1)) (fs_disk F) L' F' /\
      (dmap c name = None /\ r = 0 /\ name_added sb data0 d name inum L L' \/ dmap c name <> None /\ r = -1 /\ forall b, L' b = L b))).
  { intros O2 z L' bl r F2 Hip2 H2 Hzr Hzl HO2 Hpost. apply fwp_bind. eapply fwp_iunlock; [exact Hip2|exact H2|done|done|]. intros F3 [Ht3 EO3]. apply fwp_bind.
    eapply fwp_last_end_op; [exact Hdev|exact law|exact Hq|exact Ht3|injection EO3; congruence|]. intros F4 _ Hcm. apply fwp_ret. split; [done|]. by exists L'. }
  apply fwp_bind. destruct (dmap c name) as [v|] eqn:Em.
  - assert (Hfit : fits (sb_nlog sb) (i_addrs y) [] 0).
    { unfold fits, cost, NBUF, MAXOPBLOCKS in *. pose proof (ipot_bound (i_addrs y) []). cbn [length]. fold sb in Hroom. lia. }
    eapply (fwp_dirlink_exists E pid dev Hdev sb _ _ data0 Hlay) with (O := outer F); [done|done|exact Hd|exact H1|done|done|done| | |].
    + exists i0, y0. split; [|done]. cbn. rewrite list_lookup_insert_ne; [done|]. intros ->. rewrite Hx in Hi0. injection Hi0 as ->. pose proof (c_ref _ _ _ _ _ Hc). lia.
    + rewrite Hyi. fold c. by rewrite Em.
    + intros O2 F2 H2 Hpb. destruct (put_back_keep _ O2 dp y Hpb (lookup_ip (outer F) dp Hip y) Hyr) as (Hdp & _ & HO2).
      eapply (Hend O2 y L []); [by eapply lookup_lt_Some|by rewrite with_ip_same|done|done|done|right; done].
  - eapply (fwp_dirlink E pid dev Hdev sb _ _ data0 Hlay Hroom) with (O := outer F); [done|done|exact Hd|exact H1|done|done|done|done|by rewrite Hyi|].
    rewrite Hyi. intros x' L' N' bl F2 H2 Hxi Hxr Hxl Hd' Hfit' Hlk Hold.
    eapply (Hend (outer F) x' L' bl); [done|exact H2|by rewrite Hxr|by rewrite Hxl|done|]. left. split_and!; [done|done|]. split; [apply Hd'|]. done.
Qed.
End part.

Section virtio.
Context {fuel : Fuel} (Hfuel : (0 < sleep_fuel)%nat) (mmio : vdisk -> Z -> Z) (pid dev : Z) (Hdev : dev <> 0).

(** C10. A directory is a map from names to inode numbers and dirlink adds a
    name to it atomically: if the name is not in the map, dirlink returns 0 and
    afterwards the map on the disk has the name and is otherwise what it was;
    if the name is there, dirlink returns -1 and the files are as they were.
    All other files stay the same and the file system stays consistent, also
    if the machine crashes at any moment in between and initlog runs at the
    next boot: then the map is the old one or the new one. *)
Theorem dirlink_atomic data0 F dp d N name inum : ready pid dev data0 F dp d -> dir_ready data0 F d N -> name_ok name -> 0 < inum < 2 ^ 16 ->
  let sb := fs_sb F in let L := block (fs_disk F) in
  let result (r : Z) (L' : Z -> list Z) := match dmap (content sb L d) name with
    | None => r = 0 /\ name_added sb data0 d name inum L L'
    | Some _ => r = -1 /\ unchanged sb data0 L L'
    end in
  fwp (device mmio) pid (link_part dp name inum) [] F (fun r h F' => h = [] /\ result r (block (fs_disk F')) /\
    forall d', crash (fs_disk F) (fs_disk F') d' -> forall G, rebooted pid dev d' G ->
      fwp (device mmio) pid (initlog dev sb) [] G (fun _ _ G' =>
        unchanged sb data0 L (block (fs_disk G')) \/ result r (block (fs_disk G')))).
Proof.
  intros Hr Hdr Hname Hinum sb L result. pose proof (virtio_law mmio pid Hfuel). pose proof (r_layout _ _ _ _ _ _ Hr) as Hlay.
  pose proof (r_fs _ _ _ _ _ _ Hr) as Hfs. pose proof (r_live _ _ _ _ _ _ Hr) as Hl.
  assert (Hagree : forall G M, (forall b, user (sb_logstart sb) (Z.to_nat (sb_nlog sb - 1)) b -> block (fs_disk G) b = M b) ->
    forall b, sb_inodestart sb <= b -> block (fs_disk G) b = M b).
  { intros G M HM b Hb. apply HM. pose proof (lay_order _ _ _ _ Hlay). fold sb in H0. unfold user. lia. }
  eapply fwp_mono; [by eapply (fwp_link_part _ pid dev Hdev data0 F dp d N name inum)|]. intros r h F' (-> & L' & [Hnew Hcrash] & Hpost).
  assert (Hres : forall G, (forall b, sb_inodestart sb <= b -> block (fs_disk G) b = L' b) -> result r (block (fs_disk G))).
  { intros G HG. unfold result. destruct Hpost as [(Em & -> & Ha)|(Em & -> & HL')]; fold sb L in Em.
    - rewrite Em. split; [done|]. by eapply agree_added.
    - destruct (dmap (content sb L d) name); [|done]. split; [done|]. eapply agree_unchanged; [exact Hlay| |done]. intros b Hb. rewrite <- HL'. by apply HG. }
  split; [done|]. split; [by apply Hres, Hagree|]. intros d' Hd' G HG. eapply fwp_mono; [by eapply Hcrash|]. intros [] h G' [Hold|Hn]; [left|right].
  - eapply agree_unchanged; [exact Hlay|by apply Hagree|done].
  - by apply Hres, Hagree.
Qed.
End virtio.

(** A directory with the entry "." and 16 bytes in all. *)
#[local] Instance one_wait : Fuel := 1%nat.
Definition dot : list Z := [46; 0].
Definition sample_dir : dinode := mkDinode T_DIR 0 0 1 16 (34 :: replicate 12 0).
Definition sample_entries : list Z := blk_put zero_block 0 (new_entry 1 dot).
Definition sample_root : fsys := mounted sample_dir sample_entries sample_ip.
Lemma sample_dir_ok : dinode_ok sample_dir.
Proof.
  split; [|done|done|].
  - intros v. cbn [sample_dir di_type di_major di_minor di_nlink]. rewrite !elem_of_cons, elem_of_nil. unfold T_DIR. lia.
  - intros a [->|[-> _]%elem_of_replicate]%elem_of_cons; lia.
Qed.
Lemma sample_root_ready : ready 1 1 34 sample_root 0 1.
Proof. apply mounted_ready; [exact sample_dir_ok|done|done|done|apply sample_ip_cached|done]. Qed.
Lemma sample_root_dir : dir_ready 34 sample_root 1 1.
Proof.
  split; [vm_compute; reflexivity|vm_compute; reflexivity|vm_compute; congruence|apply one_avail; [exact sample_dir_ok|done..]|reflexivity|].
  exists 1%nat, zero_inode. done.
Qed.
Definition ab : list Z := [97; 98; 0].
Lemma ab_ok : name_ok ab.
Proof. split; [repeat constructor; lia|left; set_solver]. Qed.
Lemma dot_ok : name_ok dot.
Proof. split; [repeat constructor; lia|left; set_solver]. Qed.
Lemma dirlink_atomic_witness : ready 1 1 34 sample_root 0 1 /\ dir_ready 34 sample_root 1 1 /\
  rwp (resumed (fun _ _ => 0)) (link_part 0 ab 5) (sample_machine sample_root)
    (fun r s' => r = 0 /\ dmap (content sample_fs_sb (block (fs_disk (k_fs s'))) 1) ab = Some 5 /\ dmap (content sample_fs_sb (block (fs_disk (k_fs s'))) 1) dot = Some 1).
Proof.
  split; [exact sample_root_ready|]. split; [exact sample_root_dir|].
  pose proof (dirlink_atomic (fuel := one_wait) (le_n 1) (fun _ _ => 0) 1 1 ltac:(lia) 34 sample_root 0 1 1 ab 5 sample_root_ready sample_root_dir ab_ok
    ltac:(lia) (sample_machine sample_root) (sample_calm _ _) eq_refl) as H.
  assert (Hnone : dmap (content (fs_sb sample_root) (block (fs_disk sample_root)) 1) ab = None) by (vm_compute; reflexivity).
  assert (Hdot : dmap (content (fs_sb sample_root) (block (fs_disk sample_root)) 1) dot = Some 1) by (vm_compute; reflexivity).
  eapply rwp_mono; [exact H|]. clear H. intros r s' (h & _ & _ & Hres & _). cbv zeta in Hres. rewrite Hnone in Hres. destruct Hres as [-> (_ & Hlk & _)].
  split; [done|]. split; [exact (Hlk ab ab_ok)|]. pose proof (Hlk dot dot_ok) as Hd. rewrite Hdot in Hd. exact Hd.
Defined.
End DirSpec.
