(* ===== verification/Syscall.v ===== *)
(** * syscall.c, sysproc.c, sysfile.c and exec.c

    Fetching arguments, the handlers of all system calls, and their
    dispatch. *)

From S2P Require Import Prelude State Spinlock CString Mem Kalloc Vm Sched FileLayer Proc Console Bio Log Fs Pipe File.

Module Arg.

(** Offsets in struct trapframe. *)
Definition TF_kernel_satp : Z := 0.
Definition TF_kernel_sp : Z := 8.
Definition TF_kernel_trap : Z := 16.
Definition TF_kernel_hartid : Z := 32.
Definition TF_a1 : Z := 120.
Definition TF_a7 : Z := 168.

Definition fetchaddr (addr : Z) : K (option Z) :=
  let! i := me in
  let! p := getp i in
  if (p_sz p <=? addr) || (p_sz p <? u64 (addr + 8)) then ret None else
  let! r := copyin (p_pagetable p) addr 8 in
  if negb (r.1 =? 0) then ret None else ret (Some (le_val r.2)).

(** The bytes before the NUL; the result of the C function is their number. *)
Definition fetchstr (addr max : Z) : K (option (list Z)) :=
  let! i := me in
  let! p := getp i in
  let! r := copyinstr (p_pagetable p) addr max in
  if r.1 <? 0 then ret None else
  let! _ := deref "strlen" (strlen r.2) in
  ret (Some (CString.cstr r.2)).

Definition argraw (n : Z) : K Z :=
  let! i := me in
  let! p := getp i in
  if (0 <=? n) && (n <=? 5) then ld64 (p_trapframe p + TF_a0 + 8 * n) else panic "argraw".
Definition argint (n : Z) : K Z := let! v := argraw n in ret (i32 v).
Definition argaddr (n : Z) : K Z := argraw n.
Definition argstr (n max : Z) : K (option (list Z)) :=
  let! addr := argaddr n in fetchstr addr max.

(** [argfd(n, &fd, &f)] *)
Definition argfd (n : Z) : K (option (Z * nat)) :=
  let! fd := argint n in
  if (fd <? 0) || (NOFILE <=? fd) then ret None else
  let! i := me in
  let! p := getp i in
  match mjoin (p_ofile p !! Z.to_nat fd) with
  | None => ret None
  | Some f => ret (Some (fd, f))
  end.

Definition fdalloc (f : nat) : K Z :=
  let! i := me in
  let! r := find_list (seq 0 (Z.to_nat NOFILE)) (fun fd =>
    let! p := getp i in
    match mjoin (p_ofile p !! fd) with
    | None => setp i (upd p_ofile (fun l => <[fd := Some f]> l)) ;! ret (Some (Z.of_nat fd))
    | Some _ => ret None
    end) in
  ret (default (-1) r).

End Arg.
Export Arg.

Module Exec.
Import Fs.

Definition ELF_MAGIC : Z := 0x464C457F.
Definition ELF_PROG_LOAD : Z := 1.
Definition ELFHDR_SIZE : Z := 64.
Definition PROGHDR_SIZE : Z := 56.

(** The fields exec reads of struct elfhdr and struct proghdr. *)
Record elfhdr := mkElfhdr { e_magic : Z; e_entry : Z; e_phoff : Z; e_phnum : Z }.
Definition get_elfhdr (d : list Z) : elfhdr :=
  mkElfhdr (get32 d 0) (le_val (blk_get d 24 8)) (le_val (blk_get d 32 8)) (get16 d 56).
Record proghdr := mkProghdr {
  ph_type : Z; ph_flags : Z; ph_off : Z; ph_vaddr : Z; ph_filesz : Z; ph_memsz : Z }.
Definition get_proghdr (d : list Z) : proghdr :=
  mkProghdr (get32 d 0) (get32 d 4) (le_val (blk_get d 8 8)) (le_val (blk_get d 16 8))
    (le_val (blk_get d 32 8)) (le_val (blk_get d 40 8)).

Definition flags2perm (flags : Z) : Z :=
  let perm := if negb (Z.land flags 1 =? 0) then PTE_X else 0 in
  if negb (Z.land flags 2 =? 0) then Z.lor perm PTE_W else perm.

Section exec.
Context {img : Image} {fuel : Fuel} {disk : Disk}.

(** loadseg from page [i] on; each round loads a page. *)
Fixpoint loadseg_loop (k : nat) (pagetable va : Z) (ip : nat) (offset sz i : Z) : K Z :=
  if sz <=? i then ret 0 else
  match k with
  | O => nofuel
  | S k =>
      let! pa := walkaddr pagetable (u64 (va + i)) in
      if pa =? 0 then panic "loadseg: address should exist" else
      let n := if sz - i <? PGSIZE then sz - i else PGSIZE in
      let! r := readi ip (DKern pa) (u32 (offset + i)) n in
      if negb (r.1 =? n) then ret (-1) else loadseg_loop k pagetable va ip offset sz (u32 (i + PGSIZE))
  end.
Definition loadseg (pagetable va : Z) (ip : nat) (offset sz : Z) : K Z :=
  loadseg_loop (Z.to_nat (u32 sz / PGSIZE + 1)) pagetable va ip (u32 offset) (u32 sz) 0.

(** The loop over the program headers: [inl sz] is [goto bad] with what was
    allocated so far, [inr sz] the end of the loop. *)
Fixpoint load_loop (k : nat) (pagetable : Z) (ip : nat) (off sz : Z) : K (Z + Z) :=
  match k with
  | O => ret (inr sz)
  | S k =>
      let! r := readi ip DLocal (u32 off) PROGHDR_SIZE in
      if negb (r.1 =? PROGHDR_SIZE) then ret (inl sz) else
      let ph := get_proghdr r.2 in
      if negb (ph_type ph =? ELF_PROG_LOAD) then load_loop k pagetable ip (i32 (off + PROGHDR_SIZE)) sz else
      if ph_memsz ph <? ph_filesz ph then ret (inl sz) else
      if u64 (ph_vaddr ph + ph_memsz ph) <? ph_vaddr ph then ret (inl sz) else
      if negb (ph_vaddr ph mod PGSIZE =? 0) then ret (inl sz) else
      let! sz1 := uvmalloc pagetable sz (u64 (ph_vaddr ph + ph_memsz ph)) (flags2perm (ph_flags ph)) in
      if sz1 =? 0 then ret (inl sz) else
      let! r := loadseg pagetable (ph_vaddr ph) ip (ph_off ph) (ph_filesz ph) in
      if r <? 0 then ret (inl sz1) else load_loop k pagetable ip (i32 (off + PROGHDR_SIZE)) sz1
  end.

(** Pushing the argument strings: [None] is [goto bad], else the final stack
    pointer and the addresses of the strings. *)
Fixpoint push_args (argv : list (list Z)) (pagetable sp stackbase : Z) (ustack : list Z) : K (option (Z * list Z)) :=
  match argv with
  | [] => ret (Some (sp, ustack))
  | s :: argv =>
      if MAXARG <=? Z.of_nat (length ustack) then ret None else
      let sp := u64 (sp - (Z.of_nat (length s) + 1)) in
      let sp := sp - sp mod 16 in
      if sp <? stackbase then ret None else
      let! r := copyout pagetable sp (s ++ [0]) (Z.of_nat (length s) + 1) in
      if r <? 0 then ret None else push_args argv pagetable sp stackbase (ustack ++ [sp])
  end.

(** The arguments on the stack below [sz]: [None] is [goto bad], else the
    final stack pointer and argc.  [ustack[argc] = 0] is out of bounds when
    the loop has taken MAXARG arguments. *)
Definition exec_stack (argv : list (list Z)) (pagetable sz stackbase : Z) : K (option (Z * Z)) :=
  let! r := push_args argv pagetable sz stackbase [] in
  match r with
  | None => ret None
  | Some (sp, ustack) =>
      let argc := Z.of_nat (length ustack) in
      if MAXARG <=? argc then fault "ustack" else
      let sp := u64 (sp - (argc + 1) * 8) in
      let sp := sp - sp mod 16 in
      if sp <? stackbase then ret None else
      let! r := copyout pagetable sp ((ustack ++ [0]) ≫= bytes_of_u64) ((argc + 1) * 8) in
      if r <? 0 then ret None else ret (Some (sp, argc))
  end.

(** The last element of a path. *)
Fixpoint base_name (s last : list Z) : list Z :=
  match s with
  | [] => last
  | c :: s => base_name s (if c =? 47 then s else last)
  end.

(** [bad:] with the page table and whether the inode is still held. *)
Definition exec_bad (pagetable sz : Z) (ip : option nat) : K Z :=
  when (negb (pagetable =? 0)) (proc_freepagetable pagetable sz) ;!
  match ip with
  | Some ip => iunlockput ip ;! Log.end_op
  | None => ret tt
  end ;!
  ret (-1).

(** The second half of exec, with the program loaded up to [sz]. *)
Definition exec_image (path : list Z) (argv : list (list Z)) (elf : elfhdr) (pagetable sz : Z) : K Z :=
  let! i := me in
  let! p := getp i in
  let oldsz := p_sz p in
  let sz := PGROUNDUP sz in
  let! sz1 := uvmalloc pagetable sz (u64 (sz + 2 * PGSIZE)) PTE_W in
  if sz1 =? 0 then exec_bad pagetable sz None else
  let sz := sz1 in
  uvmclear pagetable (sz - 2 * PGSIZE) ;!
  let stackbase := sz - PGSIZE in
  let! r := exec_stack argv pagetable sz stackbase in
  match r with
  | None => exec_bad pagetable sz None
  | Some (sp, argc) =>
      let! p := getp i in
      st64 (p_trapframe p + TF_a1) sp ;!
      set_name i (base_name path path ++ [0]) ;!
      let! p := getp i in
      let oldpagetable := p_pagetable p in
      setp i (fun p => p <| p_pagetable := pagetable |> <| p_sz := sz |>) ;!
      st64 (p_trapframe p + TF_epc) (e_entry elf) ;!
      st64 (p_trapframe p + TF_sp) sp ;!
      proc_freepagetable oldpagetable oldsz ;!
      ret argc
  end.

Definition exec (path : list Z) (argv : list (list Z)) : K Z :=
  let! i := me in
  Log.begin_op ;!
  let! ip := Fs.namei path in
  match ip with
  | None => Log.end_op ;! ret (-1)
  | Some ip =>
      ilock (Some ip) ;!
      let! r := readi ip DLocal 0 ELFHDR_SIZE in
      if negb (r.1 =? ELFHDR_SIZE) then exec_bad 0 0 (Some ip) else
      let elf := get_elfhdr r.2 in
      if negb (e_magic elf =? ELF_MAGIC) then exec_bad 0 0 (Some ip) else
      let! pagetable := proc_pagetable i in
      if pagetable =? 0 then exec_bad 0 0 (Some ip) else
      let! r := load_loop (Z.to_nat (e_phnum elf)) pagetable ip (i32 (e_phoff elf)) 0 in
      match r with
      | inl sz => exec_bad pagetable sz (Some ip)
      | inr sz =>
          iunlockput ip ;!
          Log.end_op ;!
          exec_image path argv elf pagetable sz
      end
  end.

End exec.
End Exec.

Module Sysproc.
Section sysproc.
Context {img : Image} {fuel : Fuel} {disk : Disk}.

Definition sys_exit : K Z := let! n := argint 0 in exit n ;! ret 0.
Definition sys_getpid : K Z :=
  let! i := me in
  let! p := getp i in
  let! n := deref "p->ns" (p_ns p) in
  let! ns := getns n in
  getpid_at i (ns_depth ns).
Definition sys_getppid : K Z :=
  let! i := me in
  let! p := getp i in
  let! pa := deref "p->parent" (p_parent p) in
  let! q := getp pa in
  if bool_decide (p_ns p = p_ns q) then
    let! n := deref "p->ns" (p_ns p) in
    let! ns := getns n in
    getpid_at pa (ns_depth ns)
  else ret 0.
Definition sys_clone : K Z := clone.
Definition sys_fork : K Z := fork.
Definition sys_wait : K Z := let! p := argaddr 0 in wait sleep_fuel p.
Definition sys_sbrk : K Z :=
  let! n := argint 0 in
  let! i := me in
  let! p := getp i in
  let! r := growproc n in
  if r <? 0 then ret (-1) else ret (p_sz p).
(** sys_sleep after its argument is [Sched.sys_sleep]. *)
Definition sys_sleep : K Z := let! n := argint 0 in Sched.sys_sleep sleep_fuel n.
Definition sys_kill : K Z := let! pid := argint 0 in kill pid.

End sysproc.
End Sysproc.

Module Sysfile.
Import Fs File Exec.

Definition O_RDONLY : Z := 0x000.
Definition O_WRONLY : Z := 0x001.
Definition O_RDWR : Z := 0x002.
Definition O_CREATE : Z := 0x200.
Definition O_TRUNC : Z := 0x400.

Section sysfile.
Context {img : Image} {fuel : Fuel} {disk : Disk}.

Definition sys_dup : K Z :=
  let! a := argfd 0 in
  match a with
  | None => ret (-1)
  | Some (_, f) =>
      let! fd := fdalloc f in
      if fd <? 0 then ret (-1) else
      let! _ := File.filedup f in
      ret fd
  end.

Definition sys_ps_list : K Z :=
  let! limit := argint 0 in
  let! pids := argaddr 1 in
  ps_list limit pids 0.
Definition sys_ps_list_global : K Z :=
  let! limit := argint 0 in
  let! pids := argaddr 1 in
  ps_list limit pids 1.
Definition sys_ps_info : K Z :=
  let! pid := argint 0 in
  let! psinfo := argaddr 1 in
  ps_info pid psinfo.

(** The transferred bytes are charged to the process: [bytes] is the int
    result as a uint64, added to a uint. *)
Definition sys_read : K Z :=
  let! p := argaddr 1 in
  let! n := argint 2 in
  let! a := argfd 0 in
  match a with
  | None => ret (-1)
  | Some (_, f) =>
      let! bytes := fileread f p n in
      let! i := me in
      acquire (Lproc i) ;!
      setp i (upd p_read_b (fun b => u32 (b + bytes))) ;!
      release (Lproc i) ;!
      ret bytes
  end.
Definition sys_write : K Z :=
  let! p := argaddr 1 in
  let! n := argint 2 in
  let! a := argfd 0 in
  match a with
  | None => ret (-1)
  | Some (_, f) =>
      let! bytes := filewrite f p n in
      let! i := me in
      acquire (Lproc i) ;!
      setp i (upd p_write_b (fun b => u32 (b + bytes))) ;!
      release (Lproc i) ;!
      ret bytes
  end.

Definition sys_close : K Z :=
  let! a := argfd 0 in
  match a with
  | None => ret (-1)
  | Some (fd, f) =>
      let! i := me in
      setp i (upd p_ofile (fun l => <[Z.to_nat fd := None]> l)) ;!
      File.fileclose f ;!
      ret 0
  end.

Definition sys_fstat : K Z :=
  let! st := argaddr 1 in
  let! a := argfd 0 in
  match a with
  | None => ret (-1)
  | Some (_, f) => filestat f st
  end.

Definition sys_link : K Z :=
  let! old := argstr 0 MAXPATH in
  match old with
  | None => ret (-1)
  | Some old =>
  let! new := argstr 1 MAXPATH in
  match new with
  | None => ret (-1)
  | Some new =>
  Log.begin_op ;!
  let! r := Fs.namei old in
  match r with
  | None => Log.end_op ;! ret (-1)
  | Some ip =>
      ilock (Some ip) ;!
      let! x := geti ip in
      if i_type x =? T_DIR then iunlockput ip ;! Log.end_op ;! ret (-1) else
      seti ip (upd i_nlink (fun n => i16 (n + 1))) ;!
      iupdate ip ;!
      iunlock (Some ip) ;!
      let bad :=
        ilock (Some ip) ;!
        seti ip (upd i_nlink (fun n => i16 (n - 1))) ;!
        iupdate ip ;!
        iunlockput ip ;!
        Log.end_op ;!
        ret (-1) in
      let! d := nameiparent new in
      match d.1 with
      | None => bad
      | Some dp =>
          ilock (Some dp) ;!
          let! y := geti dp in
          let! x := geti ip in
          let! r := (if negb (i_dev y =? i_dev x) then ret (-1) else dirlink dp d.2 (i_inum x)) in
          if r <? 0 then iunlockput dp ;! bad else
          iunlockput dp ;!
          Fs.iput ip ;!
          Log.end_op ;!
          ret 0
      end
  end end end.

(** Entries from the third on; each round reads one. *)
Fixpoint isdirempty_loop (k : nat) (dp : nat) (off : Z) : K bool :=
  let! x := geti dp in
  if i_size x <=? off then ret true else
  match k with
  | O => nofuel
  | S k =>
      let! r := readi dp DLocal off DIRENT_SIZE in
      if negb (r.1 =? DIRENT_SIZE) then panic "isdirempty: readi" else
      if negb (de_inum r.2 =? 0) then ret false else isdirempty_loop k dp (off + DIRENT_SIZE)
  end.
Definition isdirempty (dp : nat) : K bool :=
  let! x := geti dp in
  isdirempty_loop (Z.to_nat (i_size x / DIRENT_SIZE + 1)) dp (2 * DIRENT_SIZE).

Definition sys_unlink : K Z :=
  let! path := argstr 0 MAXPATH in
  match path with
  | None => ret (-1)
  | Some path =>
  Log.begin_op ;!
  let! d := nameiparent path in
  match d.1 with
  | None => Log.end_op ;! ret (-1)
  | Some dp =>
      let name := d.2 in
      ilock (Some dp) ;!
      let bad := iunlockput dp ;! Log.end_op ;! ret (-1) in
      let! c1 := namecmp name [46; 0] in
      let! c2 := namecmp name [46; 46; 0] in
      if (c1 =? 0) || (c2 =? 0) then bad else
      let! r := dirlookup dp name in
      match r with
      | None => bad
      | Some (ip, off) =>
          ilock (Some ip) ;!
          let! x := geti ip in
          if i_nlink x <? 1 then panic "unlink: nlink < 1" else
          let! nonempty := (if i_type x =? T_DIR then let! e := isdirempty ip in ret (negb e) else ret false) in
          if nonempty then iunlockput ip ;! bad else
          let! r := writei dp (SLocal (replicate 16 0)) off DIRENT_SIZE in
          if negb (r =? DIRENT_SIZE) then panic "unlink: writei" else
          let! x := geti ip in
          when (i_type x =? T_DIR)
            (seti dp (upd i_nlink (fun n => i16 (n - 1))) ;! iupdate dp) ;!
          iunlockput dp ;!
          seti ip (upd i_nlink (fun n => i16 (n - 1))) ;!
          iupdate ip ;!
          iunlockput ip ;!
          Log.end_op ;!
          ret 0
      end
  end end.

(** create returns with the inode locked. *)
Definition create (path : list Z) (type major minor : Z) : K (option nat) :=
  let! d := nameiparent path in
  match d.1 with
  | None => ret None
  | Some dp =>
      let name := d.2 in
      ilock (Some dp) ;!
      let! r := dirlookup dp name in
      match r with
      | Some (ip, _) =>
          iunlockput dp ;!
          ilock (Some ip) ;!
          let! x := geti ip in
          if (type =? T_FILE) && ((i_type x =? T_FILE) || (i_type x =? T_DEVICE)) then ret (Some ip)
          else iunlockput ip ;! ret None
      | None =>
          let! y := geti dp in
          let! a := ialloc (i_dev y) type in
          match a with
          | None => iunlockput dp ;! ret None
          | Some ip =>
              ilock (Some ip) ;!
              seti ip (fun x => x <| i_major := i16 major |> <| i_minor := i16 minor |> <| i_nlink := 1 |>) ;!
              iupdate ip ;!
              let! x := geti ip in
              let! y := geti dp in
              let fail :=
                seti ip (upd i_nlink (fun _ => 0)) ;!
                iupdate ip ;!
                iunlockput ip ;!
                iunlockput dp ;!
                ret None in
              let! bad := (if type =? T_DIR then
                             let! r := dirlink ip [46; 0] (i_inum x) in
                             if r <? 0 then ret true else
                             let! r := dirlink ip [46; 46; 0] (i_inum y) in
                             ret (r <? 0)
                           else ret false) in
              if bad : bool then fail else
              let! r := dirlink dp name (i_inum x) in
              if r <? 0 then fail else
              when (type =? T_DIR)
                (seti dp (upd i_nlink (fun n => i16 (n + 1))) ;! iupdate dp) ;!
              iunlockput dp ;!
              ret (Some ip)
          end
      end
  end.

(** sys_open from the device check on, with [ip] locked. *)
Definition open_file (ip : nat) (omode : Z) : K Z :=
  let! x := geti ip in
  let fail := iunlockput ip ;! Log.end_op ;! ret (-1) in
  if (i_type x =? T_DEVICE) && ((i_major x <? 0) || (NDEV <=? i_major x)) then fail else
  let! f := filealloc in
  match f with
  | None => fail
  | Some f =>
      let! fd := fdalloc f in
      if fd <? 0 then File.fileclose f ;! fail else
      (if i_type x =? T_DEVICE
       then setf f (fun y => y <| f_type := FD_DEVICE |> <| f_major := i_major x |>)
       else setf f (fun y => y <| f_type := FD_INODE |> <| f_off := 0 |>)) ;!
      let bit b := negb (Z.land omode b =? 0) in
      setf f (fun y => y <| f_ip := Some ip |> <| f_readable := if bit O_WRONLY then 0 else 1 |>
        <| f_writable := if bit O_WRONLY || bit O_RDWR then 1 else 0 |>) ;!
      when (bit O_TRUNC && (i_type x =? T_FILE)) (itrunc ip) ;!
      iunlock (Some ip) ;!
      Log.end_op ;!
      ret fd
  end.
Definition sys_open : K Z :=
  let! omode := argint 1 in
  let! path := argstr 0 MAXPATH in
  match path with
  | None => ret (-1)
  | Some path =>
      Log.begin_op ;!
      if negb (Z.land omode O_CREATE =? 0) then
        let! r := create path T_FILE 0 0 in
        match r with
        | None => Log.end_op ;! ret (-1)
        | Some ip => open_file ip omode
        end
      else
        let! r := Fs.namei path in
        match r with
        | None => Log.end_op ;! ret (-1)
        | Some ip =>
            ilock (Some ip) ;!
            let! x := geti ip in
            if (i_type x =? T_DIR) && negb (omode =? O_RDONLY) then iunlockput ip ;! Log.end_op ;! ret (-1)
            else open_file ip omode
        end
  end.

(** What sys_mkdir and sys_mknod share. *)
Definition make_node (path : option (list Z)) (type major minor : Z) : K Z :=
  let! r := (match path with None => ret None | Some path => create path type major minor end) in
  match r with
  | None => Log.end_op ;! ret (-1)
  | Some ip => iunlockput ip ;! Log.end_op ;! ret 0
  end.
Definition sys_mkdir : K Z :=
  Log.begin_op ;!
  let! path := argstr 0 MAXPATH in
  make_node path T_DIR 0 0.
Definition sys_mknod : K Z :=
  Log.begin_op ;!
  let! major := argint 1 in
  let! minor := argint 2 in
  let! path := argstr 0 MAXPATH in
  make_node path T_DEVICE major minor.

Definition sys_chdir : K Z :=
  let! i := me in
  Log.begin_op ;!
  let! path := argstr 0 MAXPATH in
  let! r := (match path with None => ret None | Some path => Fs.namei path end) in
  match r with
  | None => Log.end_op ;! ret (-1)
  | Some ip =>
      ilock (Some ip) ;!
      let! x := geti ip in
      if negb (i_type x =? T_DIR) then iunlockput ip ;! Log.end_op ;! ret (-1) else
      iunlock (Some ip) ;!
      let! p := getp i in
      let! cwd := deref "cwd" (p_cwd p) in
      Fs.iput cwd ;!
      Log.end_op ;!
      setp i (upd p_cwd (fun _ => Some ip)) ;!
      ret 0
  end.

(** The argument strings of exec: the pages they are in and, unless
    something went wrong, the strings. [k] more may follow. *)
Fixpoint exec_args (k : nat) (uargv i : Z) (pages : list Z) (argv : list (list Z)) : K (list Z * option (list (list Z))) :=
  match k with
  | O => ret (pages, None)
  | S k =>
      let! a := fetchaddr (u64 (uargv + 8 * i)) in
      match a with
      | None => ret (pages, None)
      | Some uarg =>
          if uarg =? 0 then ret (pages, Some argv) else
          let! page := kalloc in
          if page =? 0 then ret (pages, None) else
          let! s := fetchstr uarg PGSIZE in
          match s with
          | None => ret (pages ++ [page], None)
          | Some s =>
              memmove_out page (s ++ [0]) (Z.of_nat (length s) + 1) ;!
              exec_args k uargv (i + 1) (pages ++ [page]) (argv ++ [s])
          end
      end
  end.
Definition sys_exec : K Z :=
  let! uargv := argaddr 1 in
  let! path := argstr 0 MAXPATH in
  match path with
  | None => ret (-1)
  | Some path =>
      let! r := exec_args (Z.to_nat MAXARG) uargv 0 [] [] in
      let! v := (match r.2 with None => ret (-1) | Some argv => exec path argv end) in
      for_list r.1 kfree ;!
      ret v
  end.

Definition sys_pipe : K Z :=
  let! i := me in
  let! fdarray := argaddr 0 in
  let! r := pipealloc in
  match r with
  | None => ret (-1)
  | Some (rf, wf) =>
      let clear fd := setp i (upd p_ofile (fun l => <[Z.to_nat fd := None]> l)) in
      let fail := File.fileclose rf ;! File.fileclose wf ;! ret (-1) in
      let! fd0 := fdalloc rf in
      if fd0 <? 0 then fail else
      let! fd1 := fdalloc wf in
      if fd1 <? 0 then clear fd0 ;! fail else
      let! p := getp i in
      let! r0 := copyout (p_pagetable p) fdarray (bytes_of_int fd0) 4 in
      let! r1 := (if r0 <? 0 then ret r0 else copyout (p_pagetable p) (u64 (fdarray + 4)) (bytes_of_int fd1) 4) in
      if r1 <? 0 then clear fd0 ;! clear fd1 ;! fail else ret 0
  end.

End sysfile.
End Sysfile.

Module Syscall.
Section syscall.
Context {img : Image} {fuel : Fuel} {disk : Disk}.

Definition SYS_fork : Z := 1.
Definition SYS_getppid : Z := 26.

Definition sys_poweroff : K Z :=
  printf (lit "Powering off..." ++ [10]) [] ;!
  modify (upd k_hw (upd hw_mmio (cons (QEMU_POWER, 0x5555)))) ;!
  panic "poweroff".

(** The table [syscalls[]], indexed by the numbers of syscall.h. *)
Definition syscalls : list (option (K Z)) := [
  None; Some Sysproc.sys_fork; Some Sysproc.sys_exit; Some Sysproc.sys_wait; Some Sysfile.sys_pipe;
  Some Sysfile.sys_read; Some Sysproc.sys_kill; Some Sysfile.sys_exec; Some Sysfile.sys_fstat;
  Some Sysfile.sys_chdir; Some Sysfile.sys_dup; Some Sysproc.sys_getpid; Some Sysproc.sys_sbrk;
  Some Sysproc.sys_sleep; Some sys_uptime; Some Sysfile.sys_open; Some Sysfile.sys_write;
  Some Sysfile.sys_mknod; Some Sysfile.sys_unlink; Some Sysfile.sys_link; Some Sysfile.sys_mkdir;
  Some Sysfile.sys_close; Some sys_poweroff; Some Sysfile.sys_ps_list; Some Sysfile.sys_ps_info;
  Some Sysproc.sys_clone; None; Some Sysfile.sys_ps_list_global ].

Definition syscall : K unit :=
  let! i := me in
  let! p := getp i in
  let! a7 := ld64 (p_trapframe p + TF_a7) in
  let num := i32 a7 in
  match (if 0 <? num then mjoin (syscalls !! Z.to_nat num) else None) with
  | Some f =>
      let! r := f in
      let! p := getp i in
      st64 (p_trapframe p + TF_a0) (u64 r)
  | None =>
      printf (lit "%d %s: unknown sys call %d" ++ [10]) [AInt (p_pid p); AStr (Some (p_name p)); AInt num] ;!
      st64 (p_trapframe p + TF_a0) (u64 (-1))
  end.

End syscall.
End Syscall.
