(* ===== verification/ExecSpec.v ===== *)
(** * The arguments of a new program: the stack that exec prepares

    [exec_stack] copies the strings and the array of their addresses to the
    stack page of the new address space.  It succeeds exactly when they fit
    and are not too many, and then main finds them. *)

From S2P Require Import Prelude State Spinlock CString Mem Kalloc Vm PageTable Sched FileLayer Proc Console Bio Log Fs Pipe File Syscall.

Module ExecSpec.
Import Exec.

(** ** Where things go *)

Definition align16 (a : Z) : Z := a - a mod 16.
(** The stack pointer after a string. *)
Definition below (sp : Z) (str : list Z) : Z := align16 (sp - (Z.of_nat (length str) + 1)).
(** The addresses of the strings, and the pointer after all of them. *)
Fixpoint places (sp : Z) (argv : list (list Z)) : list Z :=
  match argv with [] => [] | str :: argv => below sp str :: places (below sp str) argv end.
Definition after_strings (sp : Z) (argv : list (list Z)) : Z := foldl below sp argv.
Definition final_sp (sp : Z) (argv : list (list Z)) : Z :=
  align16 (after_strings sp argv - (Z.of_nat (length argv) + 1) * 8).

Lemma align16_spec a : align16 a mod 16 = 0 /\ a - 16 < align16 a <= a.
Proof. unfold align16. pose proof (Z.mod_pos_bound a 16). split; [|lia]. rewrite Zminus_mod_idemp_r. by rewrite Z.sub_diag. Qed.
Lemma below_le sp str : below sp str + Z.of_nat (length str) + 1 <= sp.
Proof. unfold below. pose proof (align16_spec (sp - (Z.of_nat (length str) + 1))) as [_ ?]. lia. Qed.
Lemma after_le sp argv : after_strings sp argv <= sp.
Proof.
  revert sp. induction argv as [|str argv IH]; intros sp; cbn; [lia|]. pose proof (below_le sp str). pose proof (IH (below sp str)).
  unfold after_strings in *. lia.
Qed.
Lemma places_length sp argv : length (places sp argv) = length argv.
Proof. revert sp. induction argv as [|str argv IH]; intros sp; cbn; auto. Qed.
Lemma places_range sp argv k a str : places sp argv !! k = Some a -> argv !! k = Some str ->
  after_strings sp argv <= a /\ a + Z.of_nat (length str) + 1 <= sp.
Proof.
  revert sp k. induction argv as [|t argv IH]; intros sp [|k]; cbn; try done.
  - intros [= <-] [= <-]. pose proof (below_le sp t). pose proof (after_le (below sp t) argv). unfold after_strings in *. lia.
  - intros Ha Hs. destruct (IH _ _ Ha Hs) as [H1 H2]. pose proof (below_le sp t). unfold after_strings in *. cbn. lia.
Qed.

Section exec.
Context {img : Image}.
Context (root base top : Z) (T : gmap (list Z) Z).
Hypothesis Himg : 0 < sym_end.
Hypothesis Hbase : PGSIZE <= base /\ top = base + PGSIZE /\ top <= MAXVA.

(** [m] is [m0] with changes in the stack page only. *)
Record stack_of (m0 m : gmap Z Z) : Prop := {
  so_pte a : pte_of m T a = pte_of m0 T a;
  so_pt : pt m root T;
  so_byte a : 0 <= a -> user_pa m0 T a <> 0 -> ~ base <= a < top -> ubyte m T a = ubyte m0 T a;
  so_frame x : (forall a, base <= a < top -> x <> user_pa m0 T a + a mod PGSIZE) -> rd m x = rd m0 x;
}.
Lemma stack_refl m : pt m root T -> stack_of m m.
Proof. by split. Qed.
Lemma stack_write m0 m m' va bs : stack_of m0 m -> uwrite m m' root T va bs ->
  base <= va -> va + Z.of_nat (length bs) <= top -> stack_of m0 m'.
Proof.
  intros [P1 W1 B1 F1] [P2 W2 B2 F2] H1 H2. pose proof (user_pa_pte _ _ _ P1) as Hu. split; auto.
  - intros a. by rewrite P2, P1.
  - intros a Ha Hua Hout. rewrite B2, B1 by (rewrite ?Hu; done).
    destruct (Z.leb_spec va a), (Z.ltb_spec a (va + Z.of_nat (length bs))); cbn; (done || lia).
  - intros x Hx. rewrite F2; [by apply F1|]. intros a Ha. rewrite Hu. apply Hx. lia.
Qed.

Lemma ubytes_written m m' va bs : uwrite m m' root T va bs -> 0 <= va ->
  range_ok m T va (Z.of_nat (length bs)) -> ubytes m' T va (Z.of_nat (length bs)) = bs.
Proof.
  intros Hw Hva Hr. apply list_eq. intros k. unfold ubytes. rewrite list_lookup_fmap.
  destruct (decide (k < length bs)%nat) as [Hk|Hk].
  - rewrite lookup_seqZ_lt by lia. cbn [fmap option_fmap option_map]. rewrite (uw_byte _ _ _ _ _ _ Hw) by (lia || apply Hr; lia).
    rewrite (proj2 (Z.leb_le _ _)), (proj2 (Z.ltb_lt _ _)) by lia. cbn [andb].
    replace (Z.to_nat (va + Z.of_nat k - va)) with k by lia. by destruct (lookup_lt_is_Some_2 bs k Hk) as [b ->].
  - rewrite lookup_seqZ_ge by lia. cbn. by rewrite lookup_ge_None_2 by lia.
Qed.
Lemma ubytes_same m m' a n : (forall x, a <= x < a + n -> ubyte m' T x = ubyte m T x) -> ubytes m' T a n = ubytes m T a n.
Proof. intros H. apply map_ext_in. intros x Hx%list_elem_of_In%elem_of_seqZ. by apply H. Qed.

(** The state while the stack is built on top of the memory [m0]. *)
Record ready (m0 : gmap Z Z) (s : kstate) : Prop := {
  rd_stack : stack_of m0 (k_mem s);
  rd_frames : frames_ok (k_mem s) T;
  rd_user a : base <= a < top -> user_pa (k_mem s) T a <> 0;
}.
(** A copyout into the stack page. *)
Lemma copy_stack s m0 va src : ready m0 s -> base <= va -> va + Z.of_nat (length src) <= top ->
  exists s', copyout root va src (Z.of_nat (length src)) s = Done 0 s' /\ s' = s <| k_mem := k_mem s' |> /\ ready m0 s' /\
    ubytes (k_mem s') T va (Z.of_nat (length src)) = src /\
    (forall a, base <= a < top -> ~ va <= a < va + Z.of_nat (length src) -> ubyte (k_mem s') T a = ubyte (k_mem s) T a).
Proof.
  intros [Hs Hf Hu] H1 H2. assert (0 < PGSIZE) by done. pose proof (so_pt _ _ Hs) as Hp.
  destruct (copyout_eq s root T va src (Z.of_nat (length src))) as (s' & Es & [(Hr & E & Hw)|(n & Hn & _ & H0 & _)]); try done; try lia.
  2: { destruct (Hu (va + n)); [lia|done]. }
  rewrite Nat2Z.id, take_ge in Hw by lia. exists s'. split; [done|]. split; [done|].
  split.
  { split; [by eapply stack_write|by eapply frames_ok_pte; [apply (uw_pte _ _ _ _ _ _ Hw)|]|].
    intros a Ha. rewrite (user_pa_pte _ _ _ (uw_pte _ _ _ _ _ _ Hw)). by apply Hu. }
  split; [apply (ubytes_written (k_mem s)); (done || lia)|]. intros a Ha Hout.
  rewrite (uw_byte _ _ _ _ _ _ Hw) by (lia || by apply Hu).
  destruct (Z.leb_spec va a), (Z.ltb_spec a (va + Z.of_nat (length src))); cbn; (done || lia).
Qed.

(** The strings of [argv] are at [us]. *)
Definition strings_at (m : gmap Z Z) (us : list Z) (argv : list (list Z)) : Prop :=
  forall k a str, us !! k = Some a -> argv !! k = Some str -> ubytes m T a (Z.of_nat (length str) + 1) = str ++ [0].

Lemma push_args_run m0 argv : forall s sp us, ready m0 s -> base <= sp <= top -> Z.of_nat (length us) <= MAXARG ->
  Forall (fun str => Z.of_nat (length str) < PGSIZE) argv ->
  exists s', s' = s <| k_mem := k_mem s' |> /\ ready m0 s' /\
    (forall a, sp <= a < top -> ubyte (k_mem s') T a = ubyte (k_mem s) T a) /\
    if decide (Z.of_nat (length us + length argv) <= MAXARG /\ base <= after_strings sp argv)
    then push_args argv root sp base us s = Done (Some (after_strings sp argv, us ++ places sp argv)) s' /\
      strings_at (k_mem s') (places sp argv) argv
    else push_args argv root sp base us s = Done None s'.
Proof.
  assert (HM : MAXVA < 2 ^ 64) by done.
  induction argv as [|str argv IH]; intros s sp us Hr Hsp Hus Hlen; cbn [push_args].
  { exists s. split; [by destruct s|]. split; [done|]. split; [done|]. cbn [length places]. rewrite Nat.add_0_r, app_nil_r.
    rewrite decide_True by (split; [done|cbn; lia]). by split. }
  apply Forall_cons in Hlen as [Hstr Hlen].
  assert (Hfail : Z.of_nat (length us + length (str :: argv)) > MAXARG \/ after_strings sp (str :: argv) < base ->
    forall o, o = Done None s -> exists s', s' = s <| k_mem := k_mem s' |> /\ ready m0 s' /\
    (forall a, sp <= a < top -> ubyte (k_mem s') T a = ubyte (k_mem s) T a) /\
    if decide (Z.of_nat (length us + length (str :: argv)) <= MAXARG /\ base <= after_strings sp (str :: argv))
    then o = Done (Some (after_strings sp (str :: argv), us ++ places sp (str :: argv))) s' /\
      strings_at (k_mem s') (places sp (str :: argv)) (str :: argv)
    else o = Done None s').
  { intros Hf o Ho. exists s. split; [by destruct s|]. split; [done|]. split; [done|]. by rewrite decide_False by lia. }
  destruct (Z.leb_spec MAXARG (Z.of_nat (length us))); [apply Hfail; [cbn [length]; lia|done]|].
  rewrite u64_small by lia. fold (align16 (sp - (Z.of_nat (length str) + 1))). fold (below sp str).
  pose proof (below_le sp str) as Hb. pose proof (after_le (below sp str) argv) as Hle.
  change (after_strings (below sp str) argv) with (after_strings sp (str :: argv)) in Hle.
  destruct (Z.ltb_spec (below sp str) base); [apply Hfail; [lia|done]|]. clear Hfail.
  assert (El : Z.of_nat (length str) + 1 = Z.of_nat (length (str ++ [0]))) by (rewrite length_app; cbn; lia).
  destruct (copy_stack s m0 (below sp str) (str ++ [0])) as (s1 & E1 & Es1 & Hr1 & Hw & Ho); [done|done|lia|].
  rewrite El, (bind_done _ _ _ _ _ E1). cbn [Z.ltb Z.compare].
  destruct (IH s1 (below sp str) (us ++ [below sp str]) Hr1) as (s2 & Es2 & Hr2 & Hk & Hc); [lia|rewrite length_app; cbn; lia|done|].
  exists s2. split; [rewrite Es2, Es1; by destruct s|]. split; [done|].
  split; [intros x Hx; rewrite Hk, Ho by lia; done|].
  rewrite length_app, <- Nat.add_assoc in Hc. change (length [below sp str] + length argv)%nat with (length (str :: argv)) in Hc.
  change (after_strings (below sp str) argv) with (after_strings sp (str :: argv)) in Hc.
  destruct (decide _) as [Hd|]; [|done]. destruct Hc as [-> Hs]. rewrite <- app_assoc. split; [done|].
  intros [|k] x t Hx Ht; cbn in Hx, Ht; [|by apply (Hs k)]. injection Hx as <-. injection Ht as <-.
  rewrite (ubytes_same (k_mem s1)), El; [done|]. intros y Hy. apply Hk. lia.
Qed.

Lemma vector_length (us : list Z) : Z.of_nat (length ((us ++ [0]) ≫= bytes_of_u64)) = (Z.of_nat (length us) + 1) * 8.
Proof.
  assert (H : forall l : list Z, length (l ≫= bytes_of_u64) = (8 * length l)%nat).
  { intros l. induction l as [|a l IH]; [done|]. rewrite bind_cons, length_app, IH. cbn. lia. }
  rewrite H, length_app. cbn. lia.
Qed.

(** What exec leaves on the stack. *)
Record started (m : gmap Z Z) (sp : Z) (argv : list (list Z)) (us : list Z) : Prop := {
  st_aligned : sp mod 16 = 0;
  st_base : base <= sp;
  st_count : length us = length argv;
  st_vector : ubytes m T sp ((Z.of_nat (length argv) + 1) * 8) = (us ++ [0]) ≫= bytes_of_u64;
  st_strings : strings_at m us argv;
  st_apart k a str : us !! k = Some a -> argv !! k = Some str ->
    sp + (Z.of_nat (length argv) + 1) * 8 <= a /\ a + Z.of_nat (length str) + 1 <= top;
}.

(** C12. exec gives main its arguments.  Take a stack page [base, top) that
    the user may access.  With fewer than MAXARG arguments exec_stack always
    returns, and succeeds exactly when the strings and the array of their
    addresses, each rounded to 16 bytes, fit into the page.  Then the stack
    pointer is a multiple of 16 and points to the array of the addresses of the
    strings, followed by 0; each string is at its address with its NUL, above
    the array and within the page; argc is their number.  More than MAXARG
    arguments are refused; with exactly MAXARG whose strings fit, the
    terminating 0 is stored past the end of ustack.  In each case nothing but
    the stack page is written, and no mapping changes. *)
Theorem exec_stack_spec s argv :
  pt (k_mem s) root T -> frames_ok (k_mem s) T -> (forall a, base <= a < top -> user_pa (k_mem s) T a <> 0) ->
  Forall (fun str => Z.of_nat (length str) < PGSIZE) argv ->
  exists s', s' = s <| k_mem := k_mem s' |> /\ stack_of (k_mem s) (k_mem s') /\
    if decide (Z.of_nat (length argv) < MAXARG /\ base <= final_sp top argv)
    then exec_stack argv root top base s = Done (Some (final_sp top argv, Z.of_nat (length argv))) s' /\
      exists us, started (k_mem s') (final_sp top argv) argv us
    else if decide (Z.of_nat (length argv) = MAXARG /\ base <= after_strings top argv)
    then exec_stack argv root top base s = Fault "ustack" s'
    else exec_stack argv root top base s = Done None s'.
Proof.
  intros Hp Hf Hu Hlen. assert (HM : MAXVA < 2 ^ 64) by done. assert (HP : PGSIZE = 4096) by done.
  destruct (push_args_run (k_mem s) argv s top []) as (s1 & Es1 & Hr1 & _ & Hc); [|lia|done|done|].
  { split; [by apply stack_refl|done|done]. }
  unfold exec_stack. rewrite Nat.add_0_l in Hc. pose proof (after_le top argv) as Hle.
  pose proof (align16_spec (after_strings top argv - (Z.of_nat (length argv) + 1) * 8)) as [Hal Hsp]. fold (final_sp top argv) in Hal, Hsp.
  destruct (decide (Z.of_nat (length argv) <= MAXARG /\ base <= after_strings top argv)) as [Hd|Hd].
  2: { exists s1. split; [done|]. split; [apply Hr1|]. rewrite !decide_False by lia. by rewrite (bind_done _ _ _ _ _ Hc). }
  destruct Hc as [E1 Hs]. rewrite (bind_done _ _ _ _ _ E1). cbn [app]. rewrite places_length.
  assert (MAXARG = 32) as HA by done. destruct (Z.leb_spec MAXARG (Z.of_nat (length argv))).
  { exists s1. split; [done|]. split; [apply Hr1|]. by rewrite decide_False, decide_True by lia. }
  rewrite u64_small by lia.
  fold (align16 (after_strings top argv - (Z.of_nat (length argv) + 1) * 8)). fold (final_sp top argv).
  destruct (Z.ltb_spec (final_sp top argv) base).
  { exists s1. split; [done|]. split; [apply Hr1|]. by rewrite !decide_False by lia. }
  pose proof (vector_length (places top argv)) as Hv. rewrite places_length in Hv.
  destruct (copy_stack s1 (k_mem s) (final_sp top argv) ((places top argv ++ [0]) ≫= bytes_of_u64)) as (s2 & E2 & Es2 & Hr2 & Hw & Ho);
    [done|done|lia|].
  exists s2. split; [rewrite Es2, Es1; by destruct s|]. split; [apply Hr2|]. rewrite decide_True by lia.
  rewrite <- Hv, (bind_done _ _ _ _ _ E2). split; [done|].
  exists (places top argv). split; auto; [by rewrite places_length|by rewrite <- Hv| |].
  - intros k a str Ha Hk. destruct (places_range _ _ _ _ _ Ha Hk). rewrite (ubytes_same (k_mem s1)); [by apply (Hs k)|].
    intros x Hx. apply Ho; lia.
  - intros k a str Ha Hk. destruct (places_range _ _ _ _ _ Ha Hk). lia.
Qed.

End exec.

(** sys_exec never passes MAXARG arguments: its own vector has MAXARG elements
    and ends with a null. *)
Lemma exec_args_length {img : Image} k : forall uargv i pages argv s s' pages' l,
  Sysfile.exec_args k uargv i pages argv s = Done (pages', Some l) s' -> (length l < length argv + k)%nat.
Proof.
  induction k as [|k IH]; intros uargv i pages argv s s' pages' l; cbn [Sysfile.exec_args]; [done|].
  intros ([uarg|] & s1 & _ & H)%bind_done_inv; [|done].
  destruct (uarg =? 0); [injection H as _ <- _; lia|].
  apply bind_done_inv in H as (page & s2 & _ & H). destruct (page =? 0); [done|].
  apply bind_done_inv in H as ([str|] & s3 & _ & H); [|done].
  apply bind_done_inv in H as (? & s4 & _ & H). apply IH in H. rewrite length_app in H. cbn in H. lia.
Qed.

(** ** Example: a stack page at 0x1000 *)

Section sample.
Local Existing Instance sample_image.

Definition ex_stack : gmap Z Z := store64 ex_m2 (pte_addr ex_t0 1) (Z.lor (PA2PTE ex_frame) 23).
Lemma ex_stack_pt : pt ex_stack ex_root ex_T.
Proof. eapply pt_store_leaf; [apply ex_pt2|apply ex_T00|lia]. Qed.
Lemma ex_stack_pte va : 0 <= va < MAXVA ->
  pte_of ex_stack ex_T va = if PGSIZE =? PGROUNDDOWN va then Z.lor (PA2PTE ex_frame) 23 else 0.
Proof.
  intros Hva. pose proof MAXVA_VAEND. unfold ex_stack.
  assert (walk_at ex_T PGSIZE = pte_addr ex_t0 1) as <-.
  { unfold walk_at. change (PX 2 PGSIZE) with 0. change (PX 1 PGSIZE) with 0. by rewrite ex_T00. }
  rewrite (pte_of_store_leaf _ ex_root _ PGSIZE _ va (proj1 ex_pt2)); [|done|lia|by eexists; apply ex_T00|].
  - by rewrite (proj2 ex_pt2), PGROUNDDOWN_aligned.
  - apply mk_pte_range; [|lia]. split; vm_compute; auto; split; congruence.
Qed.
Lemma ex_stack_user va : 0 <= va -> user_pa ex_stack ex_T va = if PGSIZE =? PGROUNDDOWN va then ex_frame else 0.
Proof.
  intros Hva. unfold user_pa. destruct (Z.leb_spec MAXVA va).
  - rewrite (proj2 (Z.eqb_neq _ _)); [done|]. pose proof (PGROUNDDOWN_spec va). assert (2 * PGSIZE < MAXVA) by done. lia.
  - rewrite ex_stack_pte by lia. by destruct (PGSIZE =? PGROUNDDOWN va).
Qed.
Lemma ex_stack_frames : frames_ok ex_stack ex_T.
Proof.
  split.
  - intros va π t Hva. rewrite ex_stack_user by done. destruct (PGSIZE =? PGROUNDDOWN va); [|done]. intros _ Ht.
    apply ex_tables in Ht as [-> | [-> | ->]]; vm_compute; congruence.
  - intros va va' Hva Hva'. rewrite !ex_stack_user by done.
    destruct (Z.eqb_spec PGSIZE (PGROUNDDOWN va)), (Z.eqb_spec PGSIZE (PGROUNDDOWN va')); intros; (done || congruence).
Qed.
Definition ex_exec : kstate := bss <| k_mem := ex_stack |>.
Lemma exec_stack_spec_witness : exists s',
  exec_stack [lit "echo"; lit "hi"] ex_root 0x2000 0x1000 ex_exec = Done (Some (0x1fc0, 2)) s'.
Proof.
  destruct (exec_stack_spec ex_root 0x1000 0x2000 ex_T ltac:(done) ltac:(repeat split; vm_compute; congruence)
    ex_exec [lit "echo"; lit "hi"] ex_stack_pt ex_stack_frames) as (s' & _ & _ & H).
  - intros a Ha. change (user_pa ex_stack ex_T a <> 0). rewrite ex_stack_user by lia.
    rewrite <- (rounddown_add PGSIZE (a - PGSIZE)) at 1 by (done || unfold PGSIZE; lia).
    replace (PGSIZE + (a - PGSIZE)) with a by lia. rewrite Z.eqb_refl. done.
  - by repeat constructor.
  - exists s'. change (final_sp 0x2000 [lit "echo"; lit "hi"]) with 0x1fc0 in H.
    rewrite decide_True in H by (split; vm_compute; congruence). apply H.
Defined.
End sample.

End ExecSpec.
