(* ===== verification/Trap.v ===== *)
(** * trap.c, plic.c, main.c and forkret: traps and boot

    The trap registers, the PLIC and the flags [first] and [started] are the
    record [hardware] of the state.  usertrapret's jump to the trampoline ends
    the kernel's part of a trap: its result is the satp it passes to userret. *)

From S2P Require Import Prelude State Spinlock CString Mem Kalloc Vm Sched FileLayer Proc Console Bio Virtio Log Fs File Syscall.

Module Plic.

Definition PLIC_SENABLE (hart : Z) : Z := PLIC + 0x2080 + hart * 0x100.
Definition PLIC_SPRIORITY (hart : Z) : Z := PLIC + 0x201000 + hart * 0x2000.
Definition PLIC_SCLAIM (hart : Z) : Z := PLIC + 0x201004 + hart * 0x2000.

Definition geth {A} (f : hardware -> A) : K A := gets (fun s => f (k_hw s)).
Definition seth (f : hardware -> hardware) : K unit := modify (upd k_hw f).
Definition mmio32 (addr v : Z) : K unit := seth (upd hw_mmio (cons (addr, v))).
Definition cpuid : K Z := geth hw_hartid.

Definition plicinit : K unit :=
  mmio32 (PLIC + UART0_IRQ * 4) 1 ;!
  mmio32 (PLIC + VIRTIO0_IRQ * 4) 1.
Definition plicinithart : K unit :=
  let! hart := cpuid in
  mmio32 (PLIC_SENABLE hart) (Z.lor (Z.shiftl 1 UART0_IRQ) (Z.shiftl 1 VIRTIO0_IRQ)) ;!
  mmio32 (PLIC_SPRIORITY hart) 0.
(** The PLIC hands out the pending interrupts of [hw_claim] one by one, and
    0 when there is none. *)
Definition plic_claim : K Z :=
  let! l := geth hw_claim in
  match l with
  | [] => ret 0
  | irq :: l => seth (upd hw_claim (fun _ => l)) ;! ret (i32 irq)
  end.
Definition plic_complete (irq : Z) : K unit :=
  let! hart := cpuid in
  mmio32 (PLIC_SCLAIM hart) irq.

End Plic.
Export Plic.

Module Trap.

Section trap.
Context {img : Image} {fuel : Fuel} {disk : Disk} (mmio : vdisk -> Z -> Z).

Definition trapinithart : K unit := seth (upd hw_stvec (fun _ => sym_kernelvec)).

(** 2 for a timer interrupt, 1 for another device, 0 if not recognized. *)
Definition devintr : K Z :=
  let! scause := geth hw_scause in
  if negb (Z.land scause 0x8000000000000000 =? 0) && (Z.land scause 0xff =? 9) then
    let! irq := plic_claim in
    (if irq =? UART0_IRQ then uartintr
     else if irq =? VIRTIO0_IRQ then Virtio.virtio_disk_intr mmio
     else when (negb (irq =? 0)) (printf (lit "unexpected interrupt irq=%d" ++ [10]) [AInt irq])) ;!
    when (negb (irq =? 0)) (plic_complete irq) ;!
    ret 1
  else if scause =? 0x8000000000000001 then
    let! hart := cpuid in
    when (hart =? 0) clockintr ;!
    seth (upd hw_sip (fun sip => Z.land sip (Z.lnot 2))) ;!
    ret 2
  else ret 0.

Definition usertrapret : K Z :=
  let! i := me in
  let! p := getp i in
  intr_off ;!
  seth (upd hw_stvec (fun _ => u64 (TRAMPOLINE + (sym_uservec - sym_trampoline)))) ;!
  let! satp := gets (fun s => c_satp (k_cpu s)) in
  st64 (p_trapframe p + TF_kernel_satp) satp ;!
  st64 (p_trapframe p + TF_kernel_sp) (u64 (p_kstack p + PGSIZE)) ;!
  st64 (p_trapframe p + TF_kernel_trap) sym_usertrap ;!
  let! tp := cpuid in
  st64 (p_trapframe p + TF_kernel_hartid) tp ;!
  seth (fun h => h <| hw_spp := false |> <| hw_spie := true |>) ;!
  let! epc := ld64 (p_trapframe p + TF_epc) in
  seth (upd hw_sepc (fun _ => epc)) ;!
  ret (MAKE_SATP (p_pagetable p)).

(** What usertrap does with the cause of the trap; the result is
    [which_dev]. *)
Definition usertrap_cause (i : nat) : K Z :=
  let! scause := geth hw_scause in
  if scause =? 8 then
    let! k := killed i in
    when (negb (k =? 0)) (exit (-1)) ;!
    let! p := getp i in
    let! epc := ld64 (p_trapframe p + TF_epc) in
    st64 (p_trapframe p + TF_epc) (u64 (epc + 4)) ;!
    intr_on ;!
    Syscall.syscall ;!
    ret 0
  else
    let! which_dev := devintr in
    when (which_dev =? 0)
      (let! p := getp i in
       let! scause := geth hw_scause in
       printf (lit "usertrap(): unexpected scause %p pid=%d" ++ [10]) [APtr scause; AInt (p_pid p)] ;!
       let! sepc := geth hw_sepc in
       let! stval := geth hw_stval in
       printf (lit "            sepc=%p stval=%p" ++ [10]) [APtr sepc; APtr stval] ;!
       setkilled i) ;!
    ret which_dev.
Definition usertrap : K Z :=
  let! spp := geth hw_spp in
  if spp : bool then panic "usertrap: not from user mode" else
  trapinithart ;!
  let! i := me in
  setp i (upd p_is_kernel (fun _ => 1)) ;!
  let! t := sys_uptime in
  setp i (upd p_last_kernel_time (fun _ => u32 t)) ;!
  let! sepc := geth hw_sepc in
  let! p := getp i in
  st64 (p_trapframe p + TF_epc) sepc ;!
  let! which_dev := usertrap_cause i in
  let! k := killed i in
  when (negb (k =? 0)) (exit (-1)) ;!
  when (which_dev =? 2) yield ;!
  setp i (upd p_is_kernel (fun _ => 0)) ;!
  let! t := sys_uptime in
  setp i (fun p => p <| p_kernel_time := u32 (p_kernel_time p + (t - p_last_kernel_time p)) |>) ;!
  usertrapret.

Definition kerneltrap : K unit :=
  let! sepc := geth hw_sepc in
  let! spp := geth hw_spp in
  let! spie := geth hw_spie in
  let! scause := geth hw_scause in
  if negb spp then panic "kerneltrap: not from supervisor mode" else
  let! sie := intr_get in
  if sie : bool then panic "kerneltrap: interrupts enabled" else
  let! which_dev := devintr in
  if which_dev =? 0 then
    printf (lit "scause %p" ++ [10]) [APtr scause] ;!
    let! sepc := geth hw_sepc in
    let! stval := geth hw_stval in
    printf (lit "sepc=%p stval=%p" ++ [10]) [APtr sepc; APtr stval] ;!
    panic "kerneltrap"
  else
    let! p := myproc in
    let! running := (match p with
                     | Some i => let! x := getp i in ret (bool_decide (p_state x = RUNNING))
                     | None => ret false
                     end) in
    when ((which_dev =? 2) && running) yield ;!
    seth (fun h => h <| hw_sepc := sepc |> <| hw_spp := spp |> <| hw_spie := spie |>) ;!
    modify (upd k_cpu (upd c_sie (fun _ => sie))).

(** proc.c: forkret *)
Definition forkret : K Z :=
  let! i := me in
  release (Lproc i) ;!
  let! first := geth hw_first in
  when (negb (first =? 0))
    (seth (upd hw_first (fun _ => 0)) ;!
     Fs.fsinit ROOTDEV) ;!
  usertrapret.

(** main up to the call of scheduler(), on hart 0 (before and from binit on)
    and on the others, which spin until hart 0 has set [started]. *)
Definition boot_early : K unit :=
  consoleinit ;!
  printfinit ;!
  printf [10] [] ;!
  printf (lit "xv6 kernel is booting" ++ [10]) [] ;!
  printf [10] [] ;!
  kinit ;!
  kvminit ;!
  kvminithart ;!
  namespaceinit ;!
  procinit ;!
  trapinithart ;!
  plicinit ;!
  plicinithart.
Definition boot : K unit :=
  boot_early ;!
  binit ;!
  Fs.iinit ;!
  Virtio.virtio_disk_init mmio ;!
  userinit ;!
  seth (upd hw_started (fun _ => 1)).
Definition boot_other : K unit :=
  let! started := geth hw_started in
  if started =? 0 then nofuel else
  let! hart := cpuid in
  printf (lit "hart %d starting" ++ [10]) [AInt hart] ;!
  kvminithart ;!
  trapinithart ;!
  plicinithart.
Definition main (rounds : nat) : K unit :=
  let! hart := cpuid in
  (if hart =? 0 then boot else boot_other) ;!
  scheduler rounds.

End trap.
End Trap.
