(* ===== verification/Invariant.v ===== *)
(** * An invariant of the whole kernel

    [kinv]: the buffer cache is a well-formed list without duplicates, the
    ring buffers of the console, the UART and the pipes never hold more than
    they have room for, and no open file has a negative reference count.
    Every trap handler keeps it, whatever runs at its context switches. *)

From S2P Require Import Prelude State Spinlock CString Mem Kalloc Vm Sched FileLayer Proc Ring Console Bio BufCache Virtio Log Fs Pipe File Syscall Trap.

Module Invariant.
Import BufCache Ring.

(** ** The invariant *)

(** console.c: [cons.r], [cons.w] and [cons.e] lie in this order, at most
    INPUT_BUF_SIZE apart. *)
Record cons_ok (d : devices) : Prop := {
  cons_length : length (cons_buf d) = Z.to_nat INPUT_BUF_SIZE;
  cons_r_range : 0 <= cons_r d < 2 ^ 32;
  cons_w_range : 0 <= cons_w d < 2 ^ 32;
  cons_e_range : 0 <= cons_e d < 2 ^ 32;
  cons_order : count 32 (cons_r d) (cons_w d) <= count 32 (cons_r d) (cons_e d) <= INPUT_BUF_SIZE;
}.
Definition uart_ok (d : devices) : Prop :=
  ring_ok UART_TX_BUF_SIZE 64 (uart_tx_buf d) (uart_tx_r d) (uart_tx_w d).
Definition pipe_ok (x : pipe) : Prop := ring_ok PIPESIZE 32 (pi_data x) (pi_nread x) (pi_nwrite x).

Record kinv (s : kstate) : Prop := {
  k_cache : cache_ok (fs_bufs (k_fs s));
  k_cons : cons_ok (k_dev s);
  k_uart : uart_ok (k_dev s);
  k_pipe : forall pi x, k_pipes s !! pi = Some x -> pipe_ok x;
  k_files : forall i f, k_ftable s !! i = Some f -> 0 <= f_ref f;
  k_types : types_ok s;
}.
Definition keepk (s s' : kstate) : Prop := kinv s -> kinv s'.
#[export] Instance keepk_preorder : PreOrder keepk.
Proof. split; [intros s H; exact H|intros s1 s2 s3; unfold keepk; auto]. Qed.
#[export] Hint Extern 1 (Blind keepk _) => (intros ? ? [? ? ? ? ? ?]; split; assumption) : typeclass_instances.

Lemma pres_keep {A} (m : K A) : segs keepk m -> pres kinv m.
Proof. apply pres_segs. Qed.
#[export] Hint Extern 6 (pres kinv _) => (apply pres_keep; solve [eauto with segs typeclass_instances]) : pres.

(** The state but for the parts the invariant is about. *)
Definition kview (s : kstate) := (fs_bufs (k_fs s), k_dev s, k_pipes s, k_ftable s, k_procs s, k_ticks s).
Lemma kinv_view s s' : kview s' = kview s -> kinv s -> kinv s'.
Proof.
  unfold kview. intros [= E1 E2 E3 E4 E5 E6] [H1 H2 H3 H4 H5 H6].
  split; rewrite ?E1, ?E2, ?E3, ?E4; [assumption..|]. unfold types_ok. rewrite E5, E6. assumption.
Qed.

(** *** Primitive accesses *)
Lemma keep_setf i f : (forall x, 0 <= f_ref x -> 0 <= f_ref (f x)) -> segs keepk (setf i f).
Proof.
  intros Hf s. unfold setf. destruct (k_ftable s !! i) as [x|] eqn:E; [|done]. intros [H1 H2 H3 H4 H5 H6].
  split; try assumption. intros j y Hj. ksimp. apply list_lookup_insert_Some in Hj as [(-> & <- & _)|[_ Hj]]; eauto.
Qed.
Lemma keep_setp i f : (forall p, proc_typed p -> proc_typed (f p)) -> segs keepk (setp i f).
Proof.
  intros Hf s. pose proof (typed_setp i f Hf s) as Ht. unfold setp in *. destruct (k_procs s !! i) as [p|] eqn:E; [|done].
  intros [H1 H2 H3 H4 H5 H6]. split; try assumption. by apply Ht.
Qed.
#[export] Instance keep_sched_blind : SchedBlind keepk.
Proof. intros i f _. apply keep_setp. Qed.
#[export] Hint Extern 2 (segs keepk (setp _ _)) => (apply keep_setp; proc_typed_tac) : segs.
Lemma keep_ticks n : segs keepk (modify (upd k_ticks (fun t => u32 (t + n)))).
Proof.
  apply segs_modify. intros s [H1 H2 H3 H4 H5 (H6 & H7 & H8)]. split; try assumption.
  split; [exact H6|]. split; [exact H7|]. ksimp. apply is_u32_u32.
Qed.
#[export] Hint Resolve keep_ticks : segs.
Lemma keep_setfs f : (forall x, fs_bufs (f x) = fs_bufs x) -> segs keepk (setfs f).
Proof. intros Hf. apply segs_modify. intros s. red. apply kinv_view. unfold kview. ksimp. by rewrite Hf. Qed.
Lemma keep_setb i f :
  (forall x, b_next (f x) = b_next x /\ b_prev (f x) = b_prev x /\ b_dev (f x) = b_dev x /\
     b_blockno (f x) = b_blockno x /\ (i = HEAD -> sl_locked (b_lock x) = 0 -> sl_locked (b_lock (f x)) = 0)) ->
  segs keepk (setb i f).
Proof.
  intros Hf s. destruct (fs_bufs (k_fs s) !! i) as [x|] eqn:E.
  - rewrite (setb_done _ _ _ _ E). intros [H1 H2 H3 H4 H5 H6]. split; try assumption. destruct (Hf x) as (?&?&?&?&Hl).
    eapply cache_update; try eassumption. intros ->. apply Hl; [done|]. by apply (co_head _ H1).
  - unfold setb, getb, getfs, bind, gets. simpl. by rewrite E.
Qed.
Lemma keep_setd f : (forall d, cons_ok d -> cons_ok (f d)) -> (forall d, uart_ok d -> uart_ok (f d)) -> segs keepk (setd f).
Proof. intros Hc Hu. apply segs_modify. intros s [H1 H2 H3 H4 H5 H6]. split; ksimp; auto. Qed.
Lemma keep_getb i : segs keepk (getb i).
Proof. unfold getb, getfs. segs_tac. Qed.
Lemma keep_getfs {A} (f : fsys -> A) : segs keepk (getfs f).
Proof. unfold getfs. segs_tac. Qed.
Lemma keep_getd {A} (f : devices -> A) : segs keepk (getd f).
Proof. unfold getd. segs_tac. Qed.
#[export] Hint Resolve keep_getb keep_getfs keep_getd : segs.
Lemma keep_geti i : segs keepk (geti i).
Proof. unfold geti. segs_tac. Qed.
#[export] Hint Resolve keep_geti : segs.
Lemma keep_seti i f : segs keepk (seti i f).
Proof. unfold seti. segs_tac. by apply keep_setfs. Qed.
#[export] Hint Resolve keep_seti : segs.
#[export] Hint Extern 2 (segs keepk (setfs _)) => (apply keep_setfs; reflexivity) : segs.
#[export] Hint Extern 2 (segs keepk (setb _ _)) => (apply keep_setb; intros ?; split_and!; solve [reflexivity|auto]) : segs.
#[export] Hint Extern 2 (segs keepk (setf _ _)) => (apply keep_setf; intros ?; ksimp; solve [done|lia]) : segs.
#[export] Hint Extern 2 (segs keepk (setd _)) =>
  (apply keep_setd; [intros ? []; constructor; assumption|intros ? ?; assumption]) : segs.

(** *** Sleep locks and the buffer cache *)
Lemma keep_getsl sl : segs keepk (getsl sl).
Proof. unfold getsl. segs_tac. Qed.
#[export] Hint Resolve keep_getsl : segs.
Lemma keep_setsl sl l : (forall i, sl = SLbuf i -> i <> HEAD \/ sl_locked l = 0) -> segs keepk (setsl sl l).
Proof.
  intros Hl. destruct sl as [i|i]; [|unfold setsl; segs_tac]. apply keep_setb. intros x. split_and!; [done..|].
  intros -> _. by destruct (Hl HEAD eq_refl).
Qed.
Lemma keep_acquiresleep {fuel : Fuel} sl : sl <> SLbuf HEAD -> segs keepk (acquiresleep sl).
Proof.
  intros Hne. unfold acquiresleep, mypid.
  assert (segs keepk (acquiresleep_loop sleep_fuel sl)) by (induction sleep_fuel; cbn [acquiresleep_loop]; segs_tac).
  segs_tac. apply keep_setsl. intros i ->. left. by intros ->.
Qed.
Lemma keep_releasesleep sl : segs keepk (releasesleep sl).
Proof. unfold releasesleep. segs_tac. apply keep_setsl. auto. Qed.
Lemma keep_holdingsleep sl : segs keepk (holdingsleep sl).
Proof. unfold holdingsleep, mypid. segs_tac. Qed.
Lemma keep_initsleeplock sl : segs keepk (initsleeplock sl).
Proof. apply keep_setsl. auto. Qed.
#[export] Hint Resolve keep_releasesleep keep_holdingsleep keep_initsleeplock : segs.

Lemma kinv_bufs s bs : kinv s -> cache_ok bs -> kinv (setbufs s bs).
Proof. intros [H1 H2 H3 H4 H5 H6] H. split; assumption. Qed.
Lemma nosw_getfs {A} (f : fsys -> A) : noswitch (getfs f).
Proof. unfold getfs. nosw_tac. Qed.
#[export] Hint Resolve nosw_getfs : nosw.
Lemma pres_bget {fuel : Fuel} dev blockno : pres kinv (bget dev blockno).
Proof.
  intros s Hs. unfold bget. apply inv_pres_bind; [pres_tac|done|]. clear s Hs. intros _ s Hs.
  destruct (co_ring _ (k_cache _ Hs)) as (l & Hl & Hr).
  destruct (bget_find_run s l dev blockno (k_cache _ Hs) Hl Hr) as (r & Hres & E).
  apply inv_bind. unfold inv at 1. rewrite E. simpl. destruct r as [[i y]|]; [|done]. simpl.
  destruct (lookup_result_cache _ _ _ _ _ _ (k_cache _ Hs) Hl Hres) as (Hi & _ & Hc).
  pose proof (keep_acquiresleep (SLbuf i)) as Ha. apply inv_pres; [|by apply kinv_bufs|done].
  apply pres_bind; [pres_tac|]. intros _. apply pres_bind; [|intros; pres_tac]. apply pres_keep, Ha. congruence.
Qed.
#[export] Hint Resolve pres_bget : pres.

Lemma kinv_bystanders s s' : bystanders s' = bystanders s -> typed s s' -> kinv s -> kinv s'.
Proof.
  unfold bystanders. intros [= E1 E2 E3 E4] Ht [H1 H2 H3 H4 H5 H6].
  split; rewrite ?E2, ?E3, ?E4; try assumption; [|by apply Ht]. apply (cache_same_ids (fs_bufs (k_fs s))); [| |done].
  - unfold same_ids. apply (f_equal (fmap (fun m : Z * Z * Z * sleeplock * Z * nat * nat =>
      let '(_, d, b, _, _, p, n) := m in (n, p, d, b)))) in E1. by rewrite <- !list_fmap_compose in E1.
  - intros h Hh. apply (f_equal (fun l => l !! HEAD)) in E1. rewrite !list_lookup_fmap, Hh in E1.
    destruct (fs_bufs (k_fs s) !! HEAD) as [h0|] eqn:E; [|done]. apply Some_inj in E1. unfold buf_meta in E1.
    rewrite <- (co_head _ H1 _ E). congruence.
Qed.

(** Only a buffer other than the head can be locked. *)
Lemma holdingsleep_head s r s' : cache_ok (bufs s) -> holdingsleep (SLbuf HEAD) s = Done r s' -> r = false.
Proof.
  intros Hc H. unfold holdingsleep in H. apply bind_done_inv in H as (u & s1 & E1 & H).
  assert (Ef : k_fs s1 = k_fs s) by (eapply (segs_done (same k_fs)); [|exact E1]; segs_tac).
  apply bind_done_inv in H as (l & s2 & E2 & H). unfold getsl in E2. apply bind_done_inv in E2 as (x & s3 & E3 & E2).
  apply getb_inv in E3 as [-> Hx]. injection E2 as <- <-. rewrite Ef in Hx. rewrite (co_head _ Hc _ Hx) in H. simpl in H.
  apply bind_done_inv in H as (r' & s4 & E4 & H). injection E4 as <- <-.
  apply bind_done_inv in H as (u5 & s5 & _ & H). by injection H as <-.
Qed.
Lemma nosw_holdingsleep sl : noswitch (holdingsleep sl).
Proof. unfold holdingsleep, getsl, mypid, geti, getfs. nosw_tac. Qed.
Lemma pres_brelse b : pres kinv (brelse b).
Proof.
  intros s Hs. unfold brelse. apply inv_step; [apply nosw_holdingsleep|]. intros h s1 E.
  assert (Hs1 : kinv s1) by (eapply (segs_done keepk); [apply keep_holdingsleep|exact E|done]).
  destruct h; simpl; [|done].
  assert (Hb : b <> HEAD) by (intros ->; by apply holdingsleep_head in E; [|apply Hs]).
  apply inv_pres; [|done|done]. apply pres_bind; [pres_tac|intros _]. apply pres_bind; [pres_tac|intros _].
  apply pres_bind; [pres_tac|intros _]. apply pres_bind; [pres_tac|intros x].
  apply pres_bind; [|intros; pres_tac]. unfold when. destruct (_ =? _); [|pres_tac]. clear s s1 E Hs Hs1.
  intros s Hs. destruct (fs_bufs (k_fs s) !! b) as [y|] eqn:Hy; cycle 1.
  { unfold inv, buf_unlink, getb, getfs, bind, gets. simpl. by rewrite Hy. }
  destruct (co_ring _ (k_cache _ Hs)) as (l & Hl & Hr).
  assert (Hin : b ∈ l).
  { rewrite Hl, all_bufs_lt. apply lookup_lt_Some in Hy. rewrite (co_length _ (k_cache _ Hs)) in Hy. unfold HEAD in *. lia. }
  apply list_elem_of_split in Hin as (l1 & l2 & ->).
  assert (Hw : wp (buf_unlink b ;! buf_push b) s (fun _ => kinv)).
  { apply (wp_move _ l1 b l2); [apply Hs|done|done|]. intros bs' _ _ Hc. by apply kinv_bufs. }
  apply wp_done in Hw as (? & s' & E & Hk). unfold inv. by rewrite E.
Qed.
#[export] Hint Resolve pres_brelse : pres.

(** *** Console and UART *)
Lemma ring128 : 0 < INPUT_BUF_SIZE < 2 ^ 32 /\ 2 ^ 32 mod INPUT_BUF_SIZE = 0.
Proof. done. Qed.
Lemma ring32 : 0 < UART_TX_BUF_SIZE < 2 ^ 64 /\ 2 ^ 64 mod UART_TX_BUF_SIZE = 0.
Proof. done. Qed.
Lemma ring512 : 0 < PIPESIZE < 2 ^ 32 /\ 2 ^ 32 mod PIPESIZE = 0.
Proof. done. Qed.

Lemma cons_ok_back d : cons_ok d -> cons_e d <> cons_w d -> cons_ok (upd cons_e (fun e => u32 (e - 1)) d).
Proof.
  intros [Hl Hr Hw He Ho] Hne. pose proof (count_range INPUT_BUF_SIZE 32 (proj1 ring128) (cons_r d) (cons_w d)).
  assert (count 32 (cons_r d) (cons_w d) <> count 32 (cons_r d) (cons_e d)).
  { intros E. apply Hne. symmetry. by apply (count_inj 32 (cons_r d)). }
  split; ksimp; try assumption; [apply u32_range|]. rewrite u32_eq, (count_decr_w INPUT_BUF_SIZE) by (done || lia). lia.
Qed.
Lemma cons_ok_put d c : cons_ok d -> u32 (cons_e d - cons_r d) < INPUT_BUF_SIZE ->
  cons_ok (upd cons_e (fun e => u32 (e + 1)) (upd cons_buf (fun b => <[Z.to_nat (cons_e d mod INPUT_BUF_SIZE) := c]> b) d)).
Proof.
  intros [Hl Hr Hw He Ho] Hlt. rewrite u32_eq in Hlt. change (_ mod 2 ^ 32) with (count 32 (cons_r d) (cons_e d)) in Hlt.
  unfold INPUT_BUF_SIZE in *. split; ksimp; try assumption; [by rewrite length_insert|apply u32_range|].
  rewrite u32_eq, (count_incr_w 128) by (done || lia). unfold INPUT_BUF_SIZE. lia.
Qed.
Lemma cons_ok_commit d : cons_ok d -> cons_ok (upd cons_w (fun _ => cons_e d) d).
Proof. intros [Hl Hr Hw He Ho]. split; ksimp; try assumption. lia. Qed.
Lemma cons_ok_take d : cons_ok d -> cons_r d <> cons_w d -> cons_ok (upd cons_r (fun r => u32 (r + 1)) d).
Proof.
  intros [Hl Hr Hw He Ho] Hne. pose proof (count_range INPUT_BUF_SIZE 32 (proj1 ring128) (cons_r d) (cons_w d)).
  assert (count 32 (cons_r d) (cons_w d) <> 0).
  { intros E. by apply Hne, (count_zero 32). }
  split; ksimp; try assumption; [apply u32_range|]. rewrite u32_eq, !(count_incr_r INPUT_BUF_SIZE) by (done || lia). lia.
Qed.
Lemma cons_ok_untake d : cons_ok d -> cons_ok (upd cons_r (fun r => u32 (r - 1)) (upd cons_r (fun r => u32 (r + 1)) d)).
Proof.
  intros [Hl Hr Hw He Ho]. assert (E : u32 (u32 (cons_r d + 1) - 1) = cons_r d).
  { rewrite !u32_eq, Zminus_mod_idemp_l, Z.add_simpl_r. by apply Z.mod_small. }
  split; ksimp; rewrite ?E; assumption.
Qed.
Lemma uart_ok_put d c : uart_ok d -> uart_tx_w d <> u64 (uart_tx_r d + UART_TX_BUF_SIZE) ->
  uart_ok (upd uart_tx_w (fun w => u64 (w + 1))
    (upd uart_tx_buf (fun b => <[Z.to_nat (uart_tx_w d mod UART_TX_BUF_SIZE) := c]> b) d)).
Proof.
  intros Hu Hne. unfold uart_ok. ksimp. rewrite u64_eq. pose proof Hu as (_ & Hr & Hw & Hc).
  apply (ring_ok_put UART_TX_BUF_SIZE 64 (proj1 ring32)); [done|].
  enough (count 64 (uart_tx_r d) (uart_tx_w d) <> UART_TX_BUF_SIZE) by lia. intros E. apply Hne. rewrite u64_eq.
  by apply (count_full UART_TX_BUF_SIZE 64 (proj1 ring32) (proj2 ring32)).
Qed.
Lemma uart_ok_drop d : uart_ok d -> uart_tx_w d <> uart_tx_r d -> uart_ok (upd uart_tx_r (fun r => u64 (r + 1)) d).
Proof.
  intros Hu Hne. unfold uart_ok. ksimp. rewrite u64_eq. pose proof Hu as (_ & Hr & Hw & Hc).
  apply (ring_ok_drop UART_TX_BUF_SIZE 64 (proj1 ring32)); [done|].
  pose proof (count_range UART_TX_BUF_SIZE 64 (proj1 ring32) (uart_tx_r d) (uart_tx_w d)).
  enough (count 64 (uart_tx_r d) (uart_tx_w d) <> 0) by lia. intros E. apply Hne. symmetry.
  by apply (count_zero 64).
Qed.

Lemma kinv_dev s d : kinv s -> cons_ok d -> uart_ok d -> kinv (s <| k_dev := d |>).
Proof. intros [H1 H2 H3 H4 H5 H6] Hc Hu. split; assumption. Qed.
(** What the console's indices are in; output does not touch them. *)
Definition cons_view (s : kstate) := (cons_buf (k_dev s), cons_r (k_dev s), cons_w (k_dev s), cons_e (k_dev s)).
Section output.
Context (P : kstate -> kstate -> Prop) `{!PreOrder P, !Blind P k_cpu, !Blind P k_held}
  (Hidle : forall g s, P s (upd k_dev (upd uart_idle g) s)) (Hin : forall g s, P s (upd k_dev (upd uart_in g) s))
  (Hout : forall g s, P s (upd k_dev (upd uart_out g) s)).
Lemma out_ReadLSR : segs P ReadLSR.
Proof.
  intros s. unfold ReadLSR. destruct (uart_idle (k_dev s)) eqn:E; simpl; [reflexivity|]. exact (Hidle (fun _ => l) s).
Qed.
Lemma out_ReadRHR : segs P ReadRHR.
Proof.
  intros s. unfold ReadRHR. destruct (uart_in (k_dev s)) eqn:E; simpl; [reflexivity|]. exact (Hin (fun _ => l) s).
Qed.
Lemma out_WriteTHR c : segs P (WriteTHR c).
Proof. apply segs_modify. intros s. apply Hout. Qed.
Hint Resolve out_ReadLSR out_ReadRHR out_WriteTHR : segs.
Lemma out_consputc c : segs P (consputc c).
Proof.
  unfold consputc, uartputc_sync, stop_if_panicked, getd.
  assert (forall l, segs P (spin_idle l)) by (intros l; induction l; cbn [spin_idle]; segs_tac). segs_tac.
Qed.
Hint Resolve out_consputc : segs.
Lemma out_printf fmt ap : segs P (printf fmt ap).
Proof.
  unfold printf, getd.
  assert (forall n fmt ap, (length fmt <= n)%nat -> segs P (printf_loop fmt ap)).
  { intros n. induction n as [|n IH]; intros [|c f] a Hn; simpl in Hn; try lia; try apply segs_ret, _.
    cbn [printf_loop]. unfold printint, printptr. destruct f as [|c' f]; [segs_tac; apply (IH []); simpl; lia|].
    simpl in Hn. assert (forall a, segs P (printf_loop f a)) by (intros; apply IH; lia).
    assert (forall a, segs P (printf_loop (c' :: f) a)) by (intros; apply IH; simpl; lia). segs_tac. }
  segs_tac.
Qed.
Lemma out_uartgetc : segs P uartgetc.
Proof. unfold uartgetc. segs_tac. Qed.
End output.

Lemma keep_dev (f : devices -> devices) s :
  (cons_ok (k_dev s) -> cons_ok (f (k_dev s))) -> (uart_ok (k_dev s) -> uart_ok (f (k_dev s))) ->
  keepk s (upd k_dev f s).
Proof. intros Hc Hu [H1 H2 H3 H4 H5 H6]. split; try assumption; ksimp; auto. Qed.
#[export] Hint Extern 2 (forall g s, keepk s (upd k_dev (upd _ g) s)) =>
  (intros ? ?; apply keep_dev; [intros []; constructor; assumption|exact id]) : out.
Lemma keep_consputc c : segs keepk (consputc c).
Proof. apply out_consputc; auto with typeclass_instances out. Qed.
Lemma keep_printf fmt ap : segs keepk (printf fmt ap).
Proof. apply out_printf; auto with typeclass_instances out. Qed.
Lemma keep_uartgetc : segs keepk uartgetc.
Proof. apply out_uartgetc; auto with typeclass_instances out. Qed.
Lemma keep_ReadLSR : segs keepk ReadLSR.
Proof. apply out_ReadLSR; auto with typeclass_instances out. Qed.
Lemma keep_WriteTHR c : segs keepk (WriteTHR c).
Proof. apply out_WriteTHR; auto with out. Qed.
#[export] Hint Resolve keep_consputc keep_printf keep_uartgetc keep_ReadLSR keep_WriteTHR : segs.
Lemma view_cons_consputc c : frame cons_view (consputc c).
Proof. apply out_consputc; first [apply _|reflexivity]. Qed.

Lemma nosw_ReadLSR : noswitch ReadLSR.
Proof. intros s. unfold ReadLSR. by destruct (uart_idle (k_dev s)). Qed.
#[export] Hint Resolve nosw_ReadLSR : nosw.
Lemma nosw_consputc c : noswitch (consputc c).
Proof.
  unfold consputc, uartputc_sync, stop_if_panicked, getd, WriteTHR, setd, push_off, pop_off, intr_get, intr_on, intr_off, mycpu.
  assert (forall l, noswitch (spin_idle l)) by (intros l; induction l; cbn [spin_idle]; nosw_tac). nosw_tac.
Qed.
Lemma nosw_printf fmt ap : noswitch (printf fmt ap).
Proof.
  unfold printf, getd. pose proof nosw_consputc.
  assert (forall n fmt ap, (length fmt <= n)%nat -> noswitch (printf_loop fmt ap)); [|nosw_tac; eauto].
  intros n. induction n as [|n IH]; intros [|c f] a Hn; simpl in Hn; try lia; try apply nosw_ret.
  cbn [printf_loop]. unfold printint, printptr. destruct f as [|c' f]; [nosw_tac; apply (IH []); simpl; lia|].
  simpl in Hn. assert (forall a, noswitch (printf_loop f a)) by (intros; apply IH; lia).
  assert (forall a, noswitch (printf_loop (c' :: f) a)) by (intros; apply IH; simpl; lia). nosw_tac.
Qed.
(** After output, the state is a good one with the console as it was. *)
Lemma inv_consputc {B} c (f : unit -> K B) s Q : kinv s ->
  (forall s', kinv s' -> cons_view s' = cons_view s -> inv kinv (f tt) s' Q) -> inv kinv (bind (consputc c) f) s Q.
Proof.
  intros Hs Hf. apply inv_step; [apply nosw_consputc|]. intros [] s' E. apply Hf.
  - by apply (segs_done keepk _ _ _ _ (keep_consputc c) E).
  - by apply (segs_done (same cons_view) _ _ _ _ (view_cons_consputc c) E).
Qed.
Lemma cons_view_eq s s' : cons_view s' = cons_view s ->
  cons_buf (k_dev s') = cons_buf (k_dev s) /\ cons_r (k_dev s') = cons_r (k_dev s) /\
  cons_w (k_dev s') = cons_w (k_dev s) /\ cons_e (k_dev s') = cons_e (k_dev s).
Proof. by intros [=]. Qed.

Lemma inv_cons_at {B} i (f : Z -> K B) s Q : (forall c, inv kinv (f c) s Q) -> inv kinv (bind (cons_at i) f) s Q.
Proof.
  intros Hf. unfold cons_at, inv, bind, getd, gets. simpl.
  destruct (cons_buf (k_dev s) !! _); simpl; [apply Hf|done].
Qed.
Lemma pres_kill_line fuel : pres kinv (kill_line fuel).
Proof.
  induction fuel as [|fuel IH]; intros s Hs; cbn [kill_line]; apply inv_gets, inv_gets;
    (destruct (Z.eqb_spec (cons_e (k_dev s)) (cons_w (k_dev s))) as [|Hne]; [exact Hs|]);
    apply inv_cons_at; intros c; (destruct (c =? 10); [exact Hs|]); [done|].
  unfold setd. apply inv_modify. apply inv_consputc.
  - apply kinv_dev; [done|apply cons_ok_back; [apply Hs|done]|apply Hs].
  - intros s' Hs' _. by apply IH.
Qed.

Lemma pres_cons_store c : pres kinv (cons_store c).
Proof.
  intros s Hs. unfold cons_store. apply inv_gets, inv_gets. destruct (_ && _) eqn:E; [|exact Hs].
  apply andb_true_iff in E as [_ Hlt%Z.ltb_lt]. apply inv_consputc; [done|]. intros s' Hs' (Eb & Er & Ew & Ee)%cons_view_eq.
  unfold setd. apply inv_modify, inv_modify, inv_gets.
  assert (Hk : kinv (upd k_dev (upd cons_e (fun e => u32 (e + 1))) (upd k_dev (upd cons_buf
    (fun b => <[Z.to_nat (cons_e (k_dev s) mod INPUT_BUF_SIZE) := u8 (if c =? 13 then 10 else c)]> b)) s'))).
  { apply (kinv_dev s'); [done| |apply Hs']. rewrite <- Ee. apply cons_ok_put; [apply Hs'|by rewrite Ee, Er]. }
  clear Hs Hs' Hlt. unfold when. destruct (_ || _); [|exact Hk].
  apply inv_modify. eapply inv_pres; [pres_tac| |done].
  apply kinv_dev; [exact Hk|apply cons_ok_commit, Hk|apply Hk].
Qed.
Lemma keep_procdump : segs keepk procdump.
Proof. unfold procdump. segs_tac. Qed.
#[export] Hint Resolve keep_procdump : segs.
#[export] Hint Resolve pres_kill_line pres_cons_store : pres.
Lemma pres_consoleintr c : pres kinv (consoleintr c).
Proof.
  unfold consoleintr. apply pres_bind; [pres_tac|intros _]. apply pres_bind; [|intros _; pres_tac].
  destruct (c =? C 80); [pres_tac|]. destruct (c =? C 85); [pres_tac|]. destruct (_ || _); [|pres_tac].
  unfold getd, setd. intros s Hs. apply inv_gets, inv_gets.
  destruct (Z.eqb_spec (cons_e (k_dev s)) (cons_w (k_dev s))) as [|Hne]; simpl; [exact Hs|].
  apply inv_modify. apply inv_pres; [pres_tac| |done].
  apply kinv_dev; [done|apply cons_ok_back; [apply Hs|done]|apply Hs].
Qed.
#[export] Hint Resolve pres_consoleintr : pres.

Lemma pres_uartstart : pres kinv uartstart.
Proof.
  unfold uartstart. generalize (Z.to_nat UART_TX_BUF_SIZE + 1)%nat as n. intros n.
  induction n as [|n IH]; cbn [uartstart_loop]; [pres_tac|]. intros s Hs. apply inv_gets, inv_gets.
  destruct (Z.eqb_spec (uart_tx_w (k_dev s)) (uart_tx_r (k_dev s))) as [|Hne]; [exact Hs|].
  apply inv_step; [nosw_tac|]. intros lsr s1 E.
  assert (Hs1 : kinv s1) by by apply (segs_done keepk _ _ _ _ keep_ReadLSR E).
  assert (Hu : uart_tx_w (k_dev s1) = uart_tx_w (k_dev s) /\ uart_tx_r (k_dev s1) = uart_tx_r (k_dev s)).
  { unfold ReadLSR in E. destruct (uart_idle (k_dev s)); by injection E as _ <-. }
  destruct (_ =? 0); [exact Hs1|]. unfold getd, setd. apply inv_gets. apply inv_step; [nosw_tac|].
  intros c s2 [-> _]%deref_inv. apply inv_modify. eapply inv_pres; [pres_tac| |done].
  apply kinv_dev; [done| |apply uart_ok_drop; [apply Hs1|by destruct Hu as [-> ->]]].
  destruct (k_cons _ Hs1); constructor; assumption.
Qed.
#[export] Hint Resolve pres_uartstart : pres.
Lemma pres_uartintr : pres kinv uartintr.
Proof.
  unfold uartintr.
  assert (forall n, pres kinv (uartintr_loop n)) by (intros n; induction n; cbn [uartintr_loop]; pres_tac). pres_tac.
Qed.

Section kernel.
Context {img : Image} {fuel : Fuel} {disk : Disk}.

Lemma keep_virtio_disk_rw b w : segs keepk (virtio_disk_rw b w).
Proof.
  eapply segs_mono; [|apply (segs_and _ _ _ (virtio_disk_rw_bystanders b w) (virtio_disk_rw_typed b w))].
  intros s s' [E Ht]. red. by apply kinv_bystanders.
Qed.
Hint Resolve keep_virtio_disk_rw : segs.
Lemma pres_bread dev blockno : pres kinv (bread dev blockno).
Proof. unfold bread. pres_tac. Qed.
Lemma keep_bwrite b : segs keepk (bwrite b).
Proof. unfold bwrite. segs_tac. Qed.
Lemma keep_bpin b : segs keepk (bpin b).
Proof. unfold bpin. segs_tac. Qed.
Lemma keep_bunpin b : segs keepk (bunpin b).
Proof. unfold bunpin. segs_tac. Qed.
Hint Resolve keep_bwrite keep_bpin keep_bunpin : segs.
Hint Resolve pres_bread : pres.

Lemma pres_uartputc c : pres kinv (uartputc c).
Proof.
  unfold uartputc, stop_if_panicked. apply pres_bind; [pres_tac|intros _]. apply pres_bind; [pres_tac|intros _].
  intros s Hs. apply inv_bind.
  assert (Hroom : forall n s, kinv s -> inv kinv (uart_room n) s (fun _ s' =>
    kinv s' /\ uart_tx_w (k_dev s') <> u64 (uart_tx_r (k_dev s') + UART_TX_BUF_SIZE))).
  { clear s Hs. intros n. induction n as [|n IH]; intros s Hs; cbn [uart_room]; apply inv_gets, inv_gets;
      (destruct (Z.eqb_spec (uart_tx_w (k_dev s)) (u64 (uart_tx_r (k_dev s) + UART_TX_BUF_SIZE))); [|by split]); [done|].
    simpl. apply inv_pres_bind; [pres_tac|done|]. intros _ s' Hs'. by apply IH. }
  eapply inv_mono; [by apply Hroom|]. clear s Hs. intros _ s [Hs Hne]. unfold getd, setd.
  apply inv_gets, inv_modify, inv_modify. eapply inv_pres; [pres_tac| |done].
  apply (kinv_dev s); [done| |apply uart_ok_put; [apply Hs|done]]. destruct (k_cons _ Hs); constructor; assumption.
Qed.
Hint Resolve pres_uartputc : pres.
Lemma pres_consolewrite u src n : pres kinv (consolewrite u src n).
Proof.
  unfold consolewrite. generalize 0. generalize (Z.to_nat n). intros k. induction k; intros; cbn [consolewrite_loop]; pres_tac.
Qed.
Lemma inv_cons_wait n s : kinv s -> inv kinv (cons_wait n) s (fun ok s' =>
  kinv s' /\ (ok = true -> cons_r (k_dev s') <> cons_w (k_dev s'))).
Proof.
  revert s. induction n as [|n IH]; intros s Hs; cbn [cons_wait]; apply inv_gets, inv_gets;
    (destruct (Z.eqb_spec (cons_r (k_dev s)) (cons_w (k_dev s))); simpl; [|by split]);
    (apply inv_pres_bind; [pres_tac|done|]; intros p s1 Hs1); (apply inv_pres_bind; [pres_tac|done|]; intros k s2 Hs2);
    (destruct (negb _); [eapply inv_pres_bind; [pres_tac|done|]; intros _ s3 Hs3; by split|]); [done|].
  apply inv_pres_bind; [pres_tac|done|]. intros _ s' Hs'. by apply IH.
Qed.
Lemma pres_consoleread u dst n : pres kinv (consoleread u dst n).
Proof.
  unfold consoleread. apply pres_bind; [pres_tac|intros _]. generalize (Z.max n 0) as target. intros target.
  revert dst. generalize (Z.to_nat n) as k. intros k. induction k as [|k IH]; intros dst; cbn [consoleread_loop]; [pres_tac|].
  intros s Hs. apply inv_bind. eapply inv_mono; [by apply inv_cons_wait|]. clear s Hs. intros ok s [Hs Hne].
  destruct ok; simpl; [|exact Hs]. specialize (Hne eq_refl). unfold getd, setd. apply inv_gets, inv_cons_at. intros c.
  apply inv_modify. assert (Hk : kinv (upd k_dev (upd cons_r (fun r => u32 (r + 1))) s)).
  { apply (kinv_dev s); [done|apply cons_ok_take; [apply Hs|done]|apply Hs]. }
  destruct (c =? C 68); [|eapply inv_pres; [pres_tac|exact Hk|done]].
  unfold when. destruct (_ <? _); [|eapply inv_pres; [pres_tac|exact Hk|done]].
  apply inv_modify. eapply inv_pres; [pres_tac| |done]. apply (kinv_dev s); [done|apply cons_ok_untake, Hs|apply Hs].
Qed.
Hint Resolve pres_consolewrite pres_consoleread : pres.

(** *** Pipes *)
Lemma keep_getpi pi : segs keepk (getpi pi).
Proof. intros s. unfold getpi. destruct (k_pipes s !! pi); simpl; [reflexivity|done]. Qed.
Hint Resolve keep_getpi : segs.
Lemma keep_setpi_with pi f s : (forall x, k_pipes s !! pi = Some x -> pipe_ok x -> pipe_ok (f x)) ->
  oseg keepk s (setpi pi f s).
Proof.
  intros Hf. unfold setpi. destruct (k_pipes s !! pi) as [x|] eqn:E; [|done]. intros [H1 H2 H3 H4 H5 H6].
  split; try assumption. intros pi' y Hy. ksimp. apply lookup_insert_Some in Hy as [[<- <-]|[_ Hy]]; eauto.
Qed.
Lemma keep_setpi pi f : (forall x, pipe_ok x -> pipe_ok (f x)) -> segs keepk (setpi pi f).
Proof. intros Hf s. apply keep_setpi_with. auto. Qed.
Hint Extern 2 (segs keepk (setpi _ _)) => (apply keep_setpi; intros ? ?; assumption) : segs.
Lemma keep_pipe_forget pi : segs keepk (pipe_forget pi).
Proof.
  apply segs_modify. intros s [H1 H2 H3 H4 H5 H6]. split; try assumption. ksimp.
  intros pi' x [_ ?]%lookup_delete_Some. eauto.
Qed.
Lemma keep_pipe_new pi : segs keepk (pipe_new pi).
Proof.
  apply segs_modify. intros s [H1 H2 H3 H4 H5 H6]. split; try assumption. ksimp.
  intros pi' x [[_ <-]|[_ ?]]%lookup_insert_Some; [|eauto]. by split_and!.
Qed.
Hint Resolve keep_pipe_forget keep_pipe_new : segs.
Lemma keep_pipeclose pi w : segs keepk (pipeclose pi w).
Proof. unfold pipeclose. segs_tac. Qed.
Hint Resolve keep_pipeclose : segs.
Lemma pipe_ok_put x ch : pipe_ok x -> pi_nwrite x <> u32 (pi_nread x + PIPESIZE) -> pipe_ok (pipe_put ch x).
Proof.
  intros Hx Hne. unfold pipe_ok, pipe_put. ksimp. rewrite u32_eq. pose proof Hx as (_ & Hr & Hw & Hc).
  apply (ring_ok_put PIPESIZE 32 (proj1 ring512)); [done|].
  enough (count 32 (pi_nread x) (pi_nwrite x) <> PIPESIZE) by lia. intros E. apply Hne. rewrite u32_eq.
  by apply (count_full PIPESIZE 32 (proj1 ring512) (proj2 ring512)).
Qed.
Lemma pipe_ok_drop x : pipe_ok x -> pi_nread x <> pi_nwrite x -> pipe_ok (pipe_drop x).
Proof.
  intros Hx Hne. unfold pipe_ok, pipe_drop. ksimp. rewrite u32_eq. pose proof Hx as (_ & Hr & Hw & Hc).
  apply (ring_ok_drop PIPESIZE 32 (proj1 ring512)); [done|].
  pose proof (count_range PIPESIZE 32 (proj1 ring512) (pi_nread x) (pi_nwrite x)).
  enough (count 32 (pi_nread x) (pi_nwrite x) <> 0) by lia. intros E. by apply Hne, (count_zero 32).
Qed.
Lemma getpi_inv pi s x s' : getpi pi s = Done x s' -> s' = s /\ k_pipes s !! pi = Some x.
Proof. unfold getpi. destruct (k_pipes s !! pi); [|done]. by intros [= -> ->]. Qed.
Lemma nosw_getpi pi : noswitch (getpi pi).
Proof. intros s. unfold getpi. by destruct (_ !! _). Qed.
Lemma nosw_setpi pi f : noswitch (setpi pi f).
Proof. intros s. unfold setpi. by destruct (_ !! _). Qed.
Hint Resolve nosw_getpi nosw_setpi : nosw.
Lemma nosw_killed i : noswitch (killed i).
Proof. unfold killed. nosw_tac. Qed.
Hint Resolve nosw_killed : nosw.

(** A call between the test of the pipe's indices and its update. *)
Lemma inv_pipes_stay {A B} (m : K A) (f : A -> K B) s Q :
  noswitch m -> segs keepk m -> frame k_pipes m -> kinv s ->
  (forall a s', kinv s' -> k_pipes s' = k_pipes s -> inv kinv (f a) s' Q) -> inv kinv (bind m f) s Q.
Proof.
  intros Hn Hk Hp Hs Hf. apply inv_step; [done|]. intros a s' E. apply Hf.
  - by apply (segs_done keepk _ _ _ _ Hk E).
  - by apply (segs_done (same k_pipes) _ _ _ _ Hp E).
Qed.
Lemma pres_pipewrite_loop k pr pi addr i n : pres kinv (pipewrite_loop k pr pi addr i n).
Proof.
  revert i. induction k as [|k IH]; intros i; cbn [pipewrite_loop]; (destruct (n <=? i); [pres_tac|]); [pres_tac|].
  intros s Hs. apply inv_step; [nosw_tac|]. intros x s' [-> Hx]%getpi_inv.
  apply inv_pipes_stay; [nosw_tac|segs_tac|segs_tac|done|]. intros dead s1 Hs1 E1.
  destruct (negb _); [eapply inv_pres; [pres_tac|done|done]|].
  destruct (Z.eqb_spec (pi_nwrite x) (u32 (pi_nread x + PIPESIZE))) as [|Hne]; [eapply inv_pres; [pres_tac|done|done]|].
  apply inv_pipes_stay; [nosw_tac|segs_tac|segs_tac|done|]. intros p s2 Hs2 E2.
  apply inv_pipes_stay; [nosw_tac|segs_tac|segs_tac|done|]. intros r s3 Hs3 E3.
  destruct (_ =? -1); [exact Hs3|].
  apply inv_pipes_stay; [nosw_tac|segs_tac|segs_tac|done|]. intros ch s4 Hs4 E4.
  apply inv_step; [nosw_tac|]. intros [] s5 E. apply IH.
  pose proof (keep_setpi_with pi (pipe_put ch) s4) as Hp. rewrite E in Hp. apply Hp; [|done].
  intros y Hy. rewrite E4, E3, E2, E1, Hx in Hy. injection Hy as <-. intros Hok. by apply pipe_ok_put.
Qed.
Lemma pres_piperead_loop k pr pi addr i : pres kinv (piperead_loop k pr pi addr i).
Proof.
  revert i. induction k as [|k IH]; intros i; cbn [piperead_loop]; [pres_tac|].
  intros s Hs. apply inv_step; [nosw_tac|]. intros x s' [-> Hx]%getpi_inv.
  destruct (Z.eqb_spec (pi_nread x) (pi_nwrite x)) as [|Hne]; [exact Hs|].
  apply inv_step; [nosw_tac|]. intros ch s' [-> _]%deref_inv. apply inv_step; [nosw_tac|]. intros [] s1 E.
  eapply inv_pres; [pres_tac| |done].
  pose proof (keep_setpi_with pi pipe_drop s) as Hp. rewrite E in Hp. apply Hp; [|done].
  intros y Hy Hok. rewrite Hx in Hy. injection Hy as <-. by apply pipe_ok_drop.
Qed.
Hint Resolve pres_pipewrite_loop pres_piperead_loop : pres.
Lemma pres_pipewrite pi addr n : pres kinv (pipewrite pi addr n).
Proof. unfold pipewrite. pres_tac. Qed.
Lemma pres_piperead pi addr n : pres kinv (piperead pi addr n).
Proof.
  unfold piperead.
  assert (forall k pr, pres kinv (piperead_wait k pr pi)) by (intros k pr; induction k; cbn [piperead_wait]; pres_tac).
  pres_tac.
Qed.
Hint Resolve pres_pipewrite pres_piperead : pres.

End kernel.
#[export] Hint Resolve keep_virtio_disk_rw keep_bwrite keep_bpin keep_bunpin keep_getpi keep_pipe_forget keep_pipe_new keep_pipeclose : segs.
#[export] Hint Resolve pres_bread pres_uartputc pres_consolewrite pres_consoleread pres_pipewrite_loop pres_piperead_loop pres_pipewrite pres_piperead : pres.
#[export] Hint Resolve nosw_getpi nosw_setpi nosw_killed : nosw.
#[export] Hint Extern 2 (segs keepk (setpi _ _)) => (apply keep_setpi; intros ? ?; assumption) : segs.
End Invariant.
