(* ===== verification/KernelInv.v ===== *)
(** * Every trap keeps the kernel's invariant

    The pass over the file system, the system calls and the trap handlers. *)

From S2P Require Import Prelude State Spinlock CString Mem Kalloc Vm Sched FileLayer Proc Ring Console Bio BufCache Virtio Log Fs Pipe File Syscall Trap Invariant.

Module KernelInv.
Import Ring BufCache Invariant.

Section kernel.
Context {img : Image} {fuel : Fuel} {disk : Disk}.

(** ** Log and file system *)
Section log.
Import Log.
Lemma keep_setl f : segs keepk (setl f).
Proof. unfold setl. segs_tac. Qed.
Lemma keep_getl {A} (f : log -> A) : segs keepk (getl f).
Proof. unfold getl. segs_tac. Qed.
Hint Resolve keep_setl keep_getl : segs.
Lemma keep_lh_block i : segs keepk (lh_block i).
Proof. unfold lh_block. segs_tac. Qed.
Lemma keep_set_lh_block i v : segs keepk (set_lh_block i v).
Proof. unfold set_lh_block. segs_tac. Qed.
Lemma keep_buf_copy i j : segs keepk (buf_copy i j).
Proof. unfold buf_copy. segs_tac. Qed.
Hint Resolve keep_lh_block keep_set_lh_block keep_buf_copy : segs.
Lemma pres_install_trans r : pres kinv (install_trans r).
Proof.
  unfold install_trans. apply pres_bind; [pres_tac|]. intros n. generalize 0%nat as t. intros t.
  revert t. induction (Z.to_nat n); intros; cbn [install_trans_loop]; pres_tac.
Qed.
Lemma pres_read_head : pres kinv read_head.
Proof. unfold read_head. pres_tac. Qed.
Lemma pres_write_head : pres kinv write_head.
Proof. unfold write_head. pres_tac. Qed.
Lemma pres_write_log : pres kinv write_log.
Proof.
  unfold write_log. apply pres_bind; [pres_tac|]. intros n. generalize 0%nat as t. intros t.
  revert t. induction (Z.to_nat n); intros; cbn [write_log_loop]; pres_tac.
Qed.
Hint Resolve pres_install_trans pres_read_head pres_write_head pres_write_log : pres.
Lemma pres_initlog dev sb : pres kinv (initlog dev sb).
Proof. unfold initlog, recover_from_log. pres_tac. Qed.
Lemma keep_begin_op : segs keepk begin_op.
Proof. unfold begin_op. segs_tac. induction sleep_fuel; cbn [begin_op_loop]; segs_tac. Qed.
Lemma pres_end_op : pres kinv end_op.
Proof. unfold end_op, commit. pres_tac. Qed.
Lemma keep_log_write b : segs keepk (log_write b).
Proof. unfold log_write. segs_tac. Qed.
End log.
Hint Resolve keep_setl keep_getl keep_begin_op keep_log_write : segs.
Hint Resolve pres_initlog pres_end_op : pres.

Section fs.
Import Fs.
Lemma pres_bzero dev b : pres kinv (bzero dev b).
Proof. unfold bzero. pres_tac. Qed.
Hint Resolve pres_bzero : pres.
Lemma pres_balloc dev : pres kinv (balloc dev).
Proof.
  unfold balloc. apply pres_bind; [pres_tac|]. intros sb. generalize (Z.to_nat ((sb_size sb + BPB - 1) / BPB)) as k.
  generalize 0 as b. intros b k. revert b.
  induction k; intros; cbn [balloc_loop]; pres_tac.
Qed.
Lemma pres_bfree dev b : pres kinv (bfree dev b).
Proof. unfold bfree. pres_tac. Qed.
Hint Resolve pres_balloc pres_bfree : pres.
Lemma keep_iget dev inum : segs keepk (iget dev inum).
Proof.
  unfold iget.
  assert (forall l e, segs keepk (iget_scan l e dev inum)) by (intros l; induction l; intros; cbn [iget_scan]; segs_tac).
  segs_tac.
Qed.
Hint Resolve keep_iget : segs.
Lemma pres_ialloc dev type : pres kinv (ialloc dev type).
Proof.
  unfold ialloc. apply pres_bind; [pres_tac|]. intros sb. generalize (Z.to_nat (sb_ninodes sb - 1)) as k.
  generalize 1 as i. intros i k. revert i. induction k; intros; cbn [ialloc_loop]; pres_tac.
Qed.
Lemma pres_iupdate ip : pres kinv (iupdate ip).
Proof. unfold iupdate. pres_tac. Qed.
Lemma keep_idup ip : segs keepk (idup ip).
Proof. unfold idup. segs_tac. Qed.
Lemma keep_lock_inode i : segs keepk (acquiresleep (SLinode i)).
Proof. by apply keep_acquiresleep. Qed.
Hint Resolve keep_idup keep_lock_inode : segs.
Hint Resolve pres_ialloc pres_iupdate : pres.
Lemma pres_ilock ip : pres kinv (ilock ip).
Proof. unfold ilock. pres_tac. Qed.
Lemma keep_iunlock ip : segs keepk (iunlock ip).
Proof. unfold iunlock. segs_tac. Qed.
Lemma keep_get_addr ip k : segs keepk (get_addr ip k).
Proof. unfold get_addr. segs_tac. Qed.
Lemma keep_set_addr ip k v : segs keepk (set_addr ip k v).
Proof. unfold set_addr. segs_tac. Qed.
Hint Resolve keep_iunlock keep_get_addr keep_set_addr : segs.
Hint Resolve pres_ilock : pres.
Lemma pres_bmap ip bn : pres kinv (bmap ip bn).
Proof. unfold bmap, bmap_slot. pres_tac. Qed.
Lemma pres_itrunc ip : pres kinv (itrunc ip).
Proof. unfold itrunc. pres_tac. Qed.
Hint Resolve pres_bmap pres_itrunc : pres.
Lemma pres_iput ip : pres kinv (iput ip).
Proof. unfold iput. pres_tac. Qed.
Hint Resolve pres_iput : pres.
Lemma pres_iunlockput ip : pres kinv (iunlockput ip).
Proof. unfold iunlockput. pres_tac. Qed.
Lemma keep_copy_to d bs : segs keepk (copy_to d bs).
Proof. unfold copy_to. segs_tac. Qed.
Lemma keep_copy_from d n : segs keepk (copy_from d n).
Proof. unfold copy_from. segs_tac. Qed.
Hint Resolve keep_copy_to keep_copy_from : segs.
Hint Resolve pres_iunlockput : pres.
Lemma pres_readi ip dst off n : pres kinv (readi ip dst off n).
Proof.
  unfold readi.
  assert (forall k dst off left tot acc, pres kinv (readi_loop k ip dst off left tot acc))
    by (intros k; induction k; intros; cbn [readi_loop]; pres_tac).
  pres_tac.
Qed.
Lemma pres_writei ip src off n : pres kinv (writei ip src off n).
Proof.
  unfold writei.
  assert (forall k src off left tot, pres kinv (writei_loop k ip src off left tot))
    by (intros k; induction k; intros; cbn [writei_loop]; pres_tac).
  pres_tac.
Qed.
Hint Resolve pres_readi pres_writei : pres.
Lemma keep_namecmp a b : segs keepk (namecmp a b).
Proof. unfold namecmp. segs_tac. Qed.
Hint Resolve keep_namecmp : segs.
Lemma pres_dirlookup dp name : pres kinv (dirlookup dp name).
Proof.
  unfold dirlookup.
  assert (forall k off, pres kinv (dirlookup_loop k dp name off)) by (intros k; induction k; intros; cbn [dirlookup_loop]; pres_tac).
  pres_tac.
Qed.
Hint Resolve pres_dirlookup : pres.
Lemma pres_dirlink dp name inum : pres kinv (dirlink dp name inum).
Proof.
  unfold dirlink.
  assert (forall k off, pres kinv (dirlink_slot k dp off)) by (intros k; induction k; intros; cbn [dirlink_slot]; pres_tac).
  pres_tac.
Qed.
Lemma pres_namex path par : pres kinv (namex path par).
Proof.
  unfold namex. apply pres_bind; [pres_tac|]. intros ip. generalize (@nil Z) as name. intros name.
  generalize (S (length path)) as k. intros k. revert ip path name. induction k; intros; cbn [namex_loop]; pres_tac.
Qed.
Hint Resolve pres_dirlink pres_namex : pres.
Lemma pres_namei path : pres kinv (namei path).
Proof. unfold namei. pres_tac. Qed.
Lemma pres_nameiparent path : pres kinv (nameiparent path).
Proof. unfold nameiparent. pres_tac. Qed.
Lemma pres_fsinit dev : pres kinv (fsinit dev).
Proof. unfold fsinit, readsb. pres_tac. Qed.
End fs.
Hint Resolve keep_iget keep_idup keep_lock_inode keep_iunlock keep_namecmp : segs.
Hint Resolve pres_ialloc pres_iupdate pres_ilock pres_itrunc pres_iput pres_iunlockput pres_readi pres_writei
  pres_dirlookup pres_dirlink pres_namei pres_nameiparent pres_fsinit : pres.

(** ** Open files *)
Section file.
Import File.
Lemma keep_filealloc : segs keepk filealloc.
Proof. unfold filealloc. segs_tac. Qed.
Lemma inv_getf {B} i (f : file -> K B) s Q :
  (forall x, k_ftable s !! i = Some x -> inv kinv (f x) s Q) -> inv kinv (bind (getf i) f) s Q.
Proof. intros Hf. unfold inv, bind, getf. destruct (k_ftable s !! i) eqn:E; simpl; [by apply Hf|done]. Qed.
Lemma pres_filedup f : pres kinv (filedup f).
Proof.
  unfold filedup. apply pres_bind; [pres_tac|intros _]. apply pres_bind; [pres_tac|intros x].
  destruct (f_ref x <? 1); pres_tac.
Qed.
Lemma inv_setf {B} i g (f : unit -> K B) s Q : kinv s ->
  (forall x, k_ftable s !! i = Some x -> 0 <= f_ref (g x)) ->
  (forall s', kinv s' -> inv kinv (f tt) s' Q) -> inv kinv (bind (setf i g) f) s Q.
Proof.
  intros [H1 H2 H3 H4 H5] Hg Hf. unfold inv, bind, setf. destruct (k_ftable s !! i) eqn:E; simpl; [|done].
  apply Hf. split; try assumption. ksimp. intros j y Hy.
  apply list_lookup_insert_Some in Hy as [(-> & <- & _)|[_ Hy]]; eauto.
Qed.
Lemma pres_fileclose f : pres kinv (fileclose f).
Proof.
  unfold fileclose. apply pres_bind; [pres_tac|intros _]. intros s Hs. apply inv_getf. intros x Hx.
  destruct (Z.ltb_spec (f_ref x) 1); [done|]. apply inv_setf; [done|intros y Hy; ksimp; simplify_eq; lia|].
  intros s1 Hs1. apply inv_pres; [pres_tac|done|done].
Qed.
Hint Resolve keep_filealloc : segs.
Hint Resolve pres_filedup pres_fileclose : pres.
Lemma pres_filestat f addr : pres kinv (filestat f addr).
Proof. unfold filestat, Fs.stati. pres_tac. Qed.
Lemma keep_dev_ok m : segs keepk (dev_ok m).
Proof. unfold dev_ok. segs_tac. Qed.
Hint Resolve keep_dev_ok : segs.
Lemma pres_fileread f addr n : pres kinv (fileread f addr n).
Proof. unfold fileread. pres_tac. Qed.
Lemma pres_filewrite f addr n : pres kinv (filewrite f addr n).
Proof.
  unfold filewrite.
  assert (forall k ip i, pres kinv (filewrite_loop k f ip addr i n)) by (intros k; induction k; intros; cbn [filewrite_loop]; pres_tac).
  pres_tac.
Qed.
Lemma pres_pipealloc : pres kinv pipealloc.
Proof. unfold pipealloc, pipealloc_bad. pres_tac. Qed.
End file.
Hint Resolve keep_filealloc : segs.
Hint Resolve pres_filedup pres_fileclose pres_filestat pres_fileread pres_filewrite pres_pipealloc : pres.

(** ** Processes *)
Section proc.
Lemma layer_filedup f : pres kinv (FileLayer.filedup f).
Proof. apply pres_filedup. Qed.
Lemma layer_fileclose f : pres kinv (FileLayer.fileclose f).
Proof. apply pres_fileclose. Qed.
Lemma layer_idup ip : pres kinv (FileLayer.idup ip).
Proof. change (pres kinv (let! i := deref "idup" ip in let! j := Fs.idup i in ret (Some j))). pres_tac. Qed.
Lemma layer_iput ip : pres kinv (FileLayer.iput ip).
Proof. change (pres kinv (let! i := deref "iput" ip in Fs.iput i)). pres_tac. Qed.
Lemma layer_begin_op : pres kinv FileLayer.begin_op.
Proof. apply pres_keep, keep_begin_op. Qed.
Lemma layer_end_op : pres kinv FileLayer.end_op.
Proof. apply pres_end_op. Qed.
Lemma layer_namei path : pres kinv (FileLayer.namei path).
Proof. apply pres_namei. Qed.
Hint Resolve layer_filedup layer_fileclose layer_idup layer_iput layer_begin_op layer_end_op layer_namei : pres.

Lemma keep_freeproc i : segs keepk (freeproc i).
Proof. unfold freeproc. segs_tac. Qed.
Lemma keep_init_proc i ns : segs keepk (init_proc i ns).
Proof.
  unfold init_proc, allocpid.
  assert (forall k n, segs keepk (assign_pids i k n)) by (intros k; induction k; intros; cbn [assign_pids]; unfold setpid; segs_tac).
  segs_tac.
Qed.
Hint Resolve keep_freeproc keep_init_proc : segs.
Lemma keep_allocproc ns : segs keepk (allocproc ns).
Proof. unfold allocproc. segs_tac. Qed.
Lemma keep_allocnamespace : segs keepk allocnamespace.
Proof. unfold allocnamespace, allocnamespaceid. segs_tac. Qed.
Lemma keep_set_name i n : segs keepk (set_name i n).
Proof. unfold set_name. segs_tac. Qed.
Hint Resolve keep_allocproc keep_allocnamespace keep_set_name : segs.
Lemma pres_fork_child p np : pres kinv (fork_child p np).
Proof. unfold fork_child, dup_files. pres_tac. Qed.
Hint Resolve pres_fork_child : pres.
Lemma pres_fork : pres kinv fork.
Proof. unfold fork. pres_tac. Qed.
Lemma pres_clone : pres kinv clone.
Proof. unfold clone. pres_tac. Qed.
Lemma keep_exit_enter p st : segs keepk (exit_enter p st).
Proof. unfold exit_enter, reparent. segs_tac. Qed.
Hint Resolve keep_exit_enter : segs.
Lemma pres_exit st : pres kinv (exit st).
Proof. unfold exit, close_files. pres_tac. Qed.
Lemma keep_wait n addr : segs keepk (wait n addr).
Proof.
  unfold wait.
  assert (forall p l k, segs keepk (wait_scan p addr l k))
    by (intros p l; induction l; intros; cbn [wait_scan]; unfold wait_one; segs_tac).
  assert (forall p, segs keepk (wait_loop n p addr)) by (intros p; induction n; cbn [wait_loop]; segs_tac). segs_tac.
Qed.
Lemma keep_growproc n : segs keepk (growproc n).
Proof. unfold growproc. segs_tac. Qed.
Lemma keep_kill pid : segs keepk (kill pid).
Proof. unfold kill, kill_one. segs_tac. Qed.
Lemma keep_setkilled i : segs keepk (setkilled i).
Proof. unfold setkilled. segs_tac. Qed.
Lemma keep_ps_list limit pids global : segs keepk (ps_list limit pids global).
Proof.
  unfold ps_list.
  assert (forall i, segs keepk (ps_visible i)) by (intros; unfold ps_visible; segs_tac).
  assert (forall l c, segs keepk (ps_count l c)) by (intros l; induction l; intros; cbn [ps_count]; segs_tac).
  assert (forall l k lim, segs keepk (ps_copy l k lim pids global)) by (intros l; induction l; intros; cbn [ps_copy]; segs_tac).
  segs_tac.
Qed.
Lemma keep_ps_put cp ptr bs len k : segs keepk k -> segs keepk (ps_put cp ptr bs len k).
Proof. intros. unfold ps_put. segs_tac. Qed.
Lemma keep_ps_info pid a : segs keepk (ps_info pid a).
Proof.
  unfold ps_info.
  assert (forall l c, segs keepk (ps_find pid l c)) by (intros l; induction l; intros; cbn [ps_find]; segs_tac).
  assert (forall c, segs keepk (ps_parent_pid c)) by (intros; unfold ps_parent_pid; segs_tac).
  segs_tac; repeat (apply keep_ps_put; segs_tac).
Qed.
End proc.
Hint Resolve keep_wait keep_growproc keep_kill keep_setkilled keep_ps_list keep_ps_info keep_set_name keep_allocproc
  keep_allocnamespace : segs.
Hint Resolve pres_fork pres_clone pres_exit : pres.

(** ** System calls *)
Lemma keep_argraw n : segs keepk (argraw n).
Proof. unfold argraw. segs_tac. Qed.
Hint Resolve keep_argraw : segs.
Lemma keep_argint n : segs keepk (argint n).
Proof. unfold argint. segs_tac. Qed.
Lemma keep_argaddr n : segs keepk (argaddr n).
Proof. unfold argaddr. segs_tac. Qed.
Lemma keep_fetchaddr a : segs keepk (fetchaddr a).
Proof. unfold fetchaddr. segs_tac. Qed.
Lemma keep_fetchstr a max : segs keepk (fetchstr a max).
Proof. unfold fetchstr. segs_tac. Qed.
Hint Resolve keep_argint keep_argaddr keep_fetchaddr keep_fetchstr : segs.
Lemma keep_argstr n max : segs keepk (argstr n max).
Proof. unfold argstr. segs_tac. Qed.
Lemma keep_argfd n : segs keepk (argfd n).
Proof. unfold argfd. segs_tac. Qed.
Lemma keep_fdalloc f : segs keepk (fdalloc f).
Proof. unfold fdalloc. segs_tac. Qed.
Hint Resolve keep_argstr keep_argfd keep_fdalloc : segs.

Section exec.
Import Exec.
Lemma pres_loadseg pt va ip off sz : pres kinv (loadseg pt va ip off sz).
Proof.
  unfold loadseg. generalize (Z.to_nat (u32 sz / PGSIZE + 1)) as k. generalize 0 as i. intros i k. revert i.
  induction k; intros; cbn [loadseg_loop]; pres_tac.
Qed.
Hint Resolve pres_loadseg : pres.
Lemma pres_exec_bad pt sz ip : pres kinv (exec_bad pt sz ip).
Proof. unfold exec_bad. pres_tac. Qed.
Hint Resolve pres_exec_bad : pres.
Lemma pres_exec path argv : pres kinv (exec path argv).
Proof.
  unfold exec, exec_image, exec_stack.
  assert (forall k pt ip off sz, pres kinv (load_loop k pt ip off sz)) by (intros k; induction k; intros; cbn [load_loop]; pres_tac).
  assert (forall pt a sp sb u, segs keepk (push_args a pt sp sb u)) by (intros pt a; induction a; intros; cbn [push_args]; segs_tac).
  pres_tac.
Qed.
End exec.
Hint Resolve pres_exec : pres.

Section sysfile.
Import Sysfile.
Lemma pres_isdirempty dp : pres kinv (isdirempty dp).
Proof.
  unfold isdirempty. apply pres_bind; [pres_tac|]. intros x. generalize (Z.to_nat (i_size x / Fs.DIRENT_SIZE + 1)) as k.
  generalize (2 * Fs.DIRENT_SIZE) as off. intros off k. revert off. induction k; intros; cbn [isdirempty_loop]; pres_tac.
Qed.
Lemma pres_create path t ma mi : pres kinv (create path t ma mi).
Proof. unfold create. pres_tac. Qed.
Lemma pres_open_file ip mode : pres kinv (open_file ip mode).
Proof. unfold open_file. pres_tac. Qed.
Hint Resolve pres_isdirempty pres_create pres_open_file : pres.
Lemma pres_sys_link : pres kinv sys_link.
Proof. unfold sys_link. pres_tac. Qed.
Lemma pres_sys_unlink : pres kinv sys_unlink.
Proof. unfold sys_unlink. pres_tac. Qed.
Lemma pres_sys_open : pres kinv sys_open.
Proof. unfold sys_open. pres_tac. Qed.
Lemma pres_sys_exec : pres kinv sys_exec.
Proof.
  unfold sys_exec.
  assert (forall k u i pg a, segs keepk (exec_args k u i pg a)) by (intros k; induction k; intros; cbn [exec_args]; segs_tac).
  pres_tac.
Qed.
Lemma pres_sys_pipe : pres kinv sys_pipe.
Proof. unfold sys_pipe. pres_tac. Qed.
End sysfile.
Hint Resolve pres_sys_link pres_sys_unlink pres_sys_open pres_sys_exec pres_sys_pipe pres_create : pres.

Lemma pres_sys_poweroff : pres kinv Syscall.sys_poweroff.
Proof. unfold Syscall.sys_poweroff. pres_tac. Qed.
(** Every handler in the table. *)
Lemma pres_handlers : Forall (fun h => forall f, h = Some f -> pres kinv f) Syscall.syscalls.
Proof.
  unfold Syscall.syscalls, Sysproc.sys_fork, Sysproc.sys_exit, Sysproc.sys_wait, Sysfile.sys_read, Sysproc.sys_kill,
    Sysfile.sys_fstat, Sysfile.sys_chdir, Sysfile.sys_dup, Sysproc.sys_getpid, Sysproc.sys_sbrk, Sysproc.sys_sleep,
    Sched.sys_sleep, Sysfile.sys_write, Sysfile.sys_mknod, Sysfile.sys_mkdir, Sysfile.make_node, Sysfile.sys_close, Sysfile.sys_ps_list,
    Sysfile.sys_ps_info, Sysproc.sys_clone, Sysfile.sys_ps_list_global.
  pose proof pres_sys_poweroff.
  assert (forall k t n, segs keepk (sys_sleep_loop k t n)) by (intros k; induction k; intros; cbn [sys_sleep_loop]; segs_tac).
  repeat constructor; intros ? [= <-]; pres_tac.
Qed.
Lemma pres_syscall : pres kinv Syscall.syscall.
Proof.
  unfold Syscall.syscall. apply pres_bind; [pres_tac|intros i]. apply pres_bind; [pres_tac|intros p].
  apply pres_bind; [pres_tac|intros a7]. cbv zeta.
  destruct (if 0 <? i32 a7 then _ else _) as [f|] eqn:E; [|pres_tac].
  assert (pres kinv f); [|pres_tac]. destruct (0 <? i32 a7); [|done].
  destruct (Syscall.syscalls !! Z.to_nat (i32 a7)) as [h|] eqn:Eh; [|done]. simpl in E. subst h.
  by eapply (Forall_lookup_1 _ _ _ _ pres_handlers Eh).
Qed.

(** ** Traps *)
Section trap.
Import Trap.
Context (mmio : vdisk -> Z -> Z).
Hint Resolve pres_syscall : pres.
Lemma keep_setv f : segs keepk (Virtio.setv f).
Proof. unfold Virtio.setv. segs_tac. Qed.
Lemma keep_getv {A} (f : vdisk -> A) : segs keepk (Virtio.getv f).
Proof. unfold Virtio.getv. segs_tac. Qed.
Hint Resolve keep_setv keep_getv : segs.
Lemma keep_virtio_disk_intr : segs keepk (Virtio.virtio_disk_intr mmio).
Proof.
  unfold Virtio.virtio_disk_intr, Virtio.W, Virtio.R.
  assert (forall k, segs keepk (Virtio.intr_loop k)) by (intros k; induction k; cbn [Virtio.intr_loop]; segs_tac).
  segs_tac.
Qed.
Lemma keep_geth {A} (f : hardware -> A) : segs keepk (geth f).
Proof. unfold geth. segs_tac. Qed.
Lemma keep_seth f : segs keepk (seth f).
Proof. unfold seth. segs_tac. Qed.
Hint Resolve keep_geth keep_seth keep_virtio_disk_intr : segs.
Lemma pres_devintr : pres kinv (devintr mmio).
Proof. unfold devintr, plic_claim, plic_complete, mmio32, cpuid, clockintr. pose proof pres_uartintr. pres_tac. Qed.
Lemma keep_usertrapret : segs keepk usertrapret.
Proof. unfold usertrapret, intr_off, cpuid. segs_tac. Qed.
Hint Resolve pres_devintr : pres.
Hint Resolve keep_usertrapret : segs.
Lemma pres_usertrap : pres kinv (usertrap mmio).
Proof. unfold usertrap, usertrap_cause, trapinithart, intr_on. pres_tac. Qed.
Lemma pres_kerneltrap : pres kinv (kerneltrap mmio).
Proof. unfold kerneltrap, intr_get. pres_tac. Qed.
Lemma pres_forkret : pres kinv forkret.
Proof. unfold forkret. pres_tac. Qed.
Lemma pres_scheduler n : pres kinv (scheduler n).
Proof.
  unfold scheduler.
  assert (forall i, segs keepk (schedule_one i)) by (intros i; unfold schedule_one; segs_tac).
  assert (segs keepk (scheduler_loop n)) by (induction n; cbn [scheduler_loop]; unfold intr_on; segs_tac). pres_tac.
Qed.

(** ** Boot *)
(** The invariant but for the buffer cache, which binit sets up. *)
Record krest (s : kstate) : Prop := {
  r_cons : cons_ok (k_dev s);
  r_uart : uart_ok (k_dev s);
  r_pipe : forall pi x, k_pipes s !! pi = Some x -> pipe_ok x;
  r_files : forall i f, k_ftable s !! i = Some f -> 0 <= f_ref f;
  r_types : types_ok s;
}.
Definition early (s s' : kstate) : Prop := k_fs s' = k_fs s /\ (krest s -> krest s').
#[local] Instance early_preorder : PreOrder early.
Proof. split; [by split|]. intros s1 s2 s3 [E1 H1] [E2 H2]. split; [congruence|auto]. Qed.
#[local] Hint Extern 1 (Blind early _) => (intros ? ?; split; [reflexivity|intros [? ? ? ? ?]; split; assumption]) : typeclass_instances.
Lemma early_dev (f : devices -> devices) s :
  (cons_ok (k_dev s) -> cons_ok (f (k_dev s))) -> (uart_ok (k_dev s) -> uart_ok (f (k_dev s))) ->
  early s (upd k_dev f s).
Proof. intros Hc Hu. split; [done|]. intros [H1 H2 H3 H4 H5]. split; try assumption; ksimp; auto. Qed.
Lemma early_setp i f : (forall p, proc_typed p -> proc_typed (f p)) -> segs early (setp i f).
Proof.
  intros Hf s. pose proof (typed_setp i f Hf s) as Ht. unfold setp in *. destruct (k_procs s !! i) as [p|] eqn:E; [|done].
  split; [done|]. intros [H1 H2 H3 H4 H5]. split; try assumption. by apply Ht.
Qed.
Hint Extern 2 (segs early (setp _ _)) => (apply early_setp; proc_typed_tac) : segs.
Hint Extern 2 (early _ (upd k_dev _ _)) => (apply early_dev; [intros []; constructor; assumption|exact id]) : early.
Lemma early_setd g : (forall s, early s (upd k_dev g s)) -> segs early (setd g).
Proof. intros H. by apply segs_modify. Qed.
Lemma early_printf fmt ap : segs early (printf fmt ap).
Proof. apply out_printf; auto with typeclass_instances; intros ? ?; auto with early. Qed.
Hint Resolve early_printf : segs.
Lemma early_boot : segs early boot_early.
Proof.
  unfold boot_early, consoleinit, uartinit, WriteReg, printfinit, kinit, freerange, kvminit, kvmmake, proc_mapstacks, kvminithart,
    namespaceinit, procinit, trapinithart, plicinit, plicinithart, mmio32, seth, cpuid, geth.
  assert (forall k p e, segs early (freerange_loop k p e)) by (intros k; induction k; intros; cbn [freerange_loop]; segs_tac).
  assert (forall i f, segs early (setns i f)) by (intros; segs_tac).
  segs_tac; apply early_setd; auto with early.
Qed.
Lemma nosw_boot : noswitch boot_early.
Proof.
  unfold boot_early, consoleinit, uartinit, WriteReg, printfinit, setd, kinit, freerange, kvminit, kvmmake, kvmmap, proc_mapstacks, kvminithart,
    namespaceinit, procinit, trapinithart, plicinit, plicinithart, mmio32, seth, cpuid, geth.
  assert (forall k p e, noswitch (freerange_loop k p e)) by (intros k; induction k; intros; cbn [freerange_loop]; nosw_tac).
  pose proof nosw_printf.
  assert (forall t va pa sz pm, noswitch (kvmmap t va pa sz pm)) by (intros; unfold kvmmap; nosw_tac). nosw_tac.
Qed.

(** The memory image when hart 0 enters main(): the bss is zero; memory, disk
    and devices are in any state. *)
Record at_reset (s : kstate) : Prop := {
  reset_bufs : fs_bufs (k_fs s) = replicate 31 zero_buf;
  reset_cons : cons_view s = (replicate 128 0, 0, 0, 0);
  reset_uart : (uart_tx_buf (k_dev s), uart_tx_r (k_dev s), uart_tx_w (k_dev s)) = (replicate 32 0, 0, 0);
  reset_pipes : k_pipes s = ∅;
  reset_files : k_ftable s = replicate 100 zero_file;
  reset_procs : k_procs s = replicate 64 zero_proc;
  reset_ticks : k_ticks s = 0;
}.
Lemma zero_proc_typed : proc_typed zero_proc.
Proof. split; [by repeat constructor|done..]. Qed.
Lemma reset_rest s : at_reset s -> krest s.
Proof.
  intros [_ Hc Hu Hp Hf Hpr Ht]. unfold cons_view in Hc. injection Hc as E1 E2 E3 E4. injection Hu as E5 E6 E7. split.
  - split; rewrite ?E1, ?E2, ?E3, ?E4; done.
  - unfold uart_ok. rewrite E5, E6, E7. done.
  - intros pi x. by rewrite Hp, lookup_empty.
  - intros i f. rewrite Hf. by intros [-> _]%lookup_replicate.
  - unfold types_ok. rewrite Hpr, Ht. split; [done|]. split; [|done]. by apply Forall_replicate, zero_proc_typed.
Qed.
Lemma pres_boot_late : pres kinv (Fs.iinit ;! Virtio.virtio_disk_init mmio ;! userinit ;! seth (upd hw_started (fun _ => 1))).
Proof.
  unfold Fs.iinit, Virtio.virtio_disk_init, Virtio.W, Virtio.R, userinit. pose proof layer_namei. pres_tac.
Qed.
Lemma inv_boot s : at_reset s -> inv kinv (boot mmio) s (fun _ => kinv).
Proof.
  intros Hs. unfold boot. apply inv_step; [apply nosw_boot|]. intros [] s1 E.
  destruct (segs_done early _ _ _ _ early_boot E) as [Ef Hr]. specialize (Hr (reset_rest _ Hs)).
  assert (Eb : fs_bufs (k_fs s1) = replicate 31 zero_buf) by (rewrite Ef; apply Hs).
  apply inv_wp, wp_binit; [by rewrite Eb|rewrite Eb..|].
  - by intros i x [-> _]%lookup_replicate.
  - by intros h [-> _]%lookup_replicate.
  - intros bs Hc. apply pres_boot_late. destruct Hr. by split.
Qed.

(** ** All threads, interleaved *)

(** Where a thread enters the kernel: a trap from user space, a trap from
    the kernel, the first run of a new process, the scheduler. *)
Inductive entry : Type := FromUser | FromKernel | NewProcess | Scheduler (rounds : nat).
Definition enter (e : entry) : K unit :=
  match e with
  | FromUser => usertrap mmio ;! ret tt
  | FromKernel => kerneltrap mmio
  | NewProcess => forkret ;! ret tt
  | Scheduler n => scheduler n
  end.
Lemma pres_enter e : pres kinv (enter e).
Proof.
  destruct e; simpl; [apply pres_bind; [apply pres_usertrap|pres_tac]|apply pres_kerneltrap| |apply pres_scheduler].
  apply pres_bind; [apply pres_forkret|pres_tac].
Qed.

Definition thread : Type := kstate -> outcome kstate unit.
Inductive stretch : outcome kstate unit -> kstate -> list thread -> Prop :=
| stretch_done a s : stretch (Done a s) s []
| stretch_switch s k : stretch (Switch s k) s [k].
(** What happens outside the kernel: user code runs, bytes arrive, devices
    read and write buffers. *)
Definition outside (s s' : kstate) : Prop :=
  buf_meta <$> fs_bufs (k_fs s') = buf_meta <$> fs_bufs (k_fs s) /\ cons_view s' = cons_view s /\
  (uart_tx_buf (k_dev s'), uart_tx_r (k_dev s'), uart_tx_w (k_dev s')) =
    (uart_tx_buf (k_dev s), uart_tx_r (k_dev s), uart_tx_w (k_dev s)) /\
  k_pipes s' = k_pipes s /\ k_ftable s' = k_ftable s /\ k_procs s' = k_procs s /\ k_ticks s' = k_ticks s.
(** From [s0] on, threads enter the kernel in any order, run to their next
    context switch and are resumed in any order. *)
Inductive reachable (s0 : kstate) : kstate -> list thread -> Prop :=
| reach_init : reachable s0 s0 []
| reach_enter s ts e s' t : reachable s0 s ts -> stretch (enter e s) s' t -> reachable s0 s' (t ++ ts)
| reach_resume s ts1 k ts2 s' t : reachable s0 s (ts1 ++ k :: ts2) -> stretch (k s) s' t ->
    reachable s0 s' (ts1 ++ t ++ ts2)
| reach_outside s ts s' : reachable s0 s ts -> outside s s' -> reachable s0 s' ts.

Definition thread_ok (k : thread) : Prop := forall s, kinv s -> oinv kinv (fun _ => kinv) (k s).
Lemma kstretch_ok o s' t : oinv kinv (fun _ => kinv) o -> stretch o s' t -> kinv s' /\ Forall thread_ok t.
Proof.
  intros Ho Hs. destruct Hs as [a s|s k]; simpl in Ho; [by split|]. destruct Ho as [H1 H2].
  split; [done|]. by repeat constructor.
Qed.
Lemma outside_ok s s' : outside s s' -> kinv s -> kinv s'.
Proof.
  intros (Eb & Ec & Eu & Ep & Ef & Epr & Et) [H1 H2 H3 H4 H5 H6]. unfold cons_view in Ec. injection Ec as E1 E2 E3 E4. injection Eu as E5 E6 E7.
  assert (Hk : kinv (s <| k_fs := k_fs s' |>)).
  { apply (kinv_bystanders s); [|exact (fun H => H)|by split]. unfold bystanders. ksimp. by rewrite Eb. }
  split; [exact (k_cache _ Hk)| |unfold uart_ok; by rewrite E5, E6, E7|by rewrite Ep|by rewrite Ef|unfold types_ok; by rewrite Epr, Et].
  destruct H2. split; rewrite ?E1, ?E2, ?E3, ?E4; done.
Qed.
Lemma enter_ok e s s' t : kinv s -> stretch (enter e s) s' t -> kinv s' /\ Forall thread_ok t.
Proof. intros Hs. apply kstretch_ok. rewrite <- inv_eq. by apply pres_enter. Qed.
Lemma reachable_kinv s0 s ts : kinv s0 -> reachable s0 s ts -> kinv s /\ Forall thread_ok ts.
Proof.
  intros H0. induction 1 as [|s ts e s' t Hr [Hk Hts] Ht|s ts1 k ts2 s' t Hr [Hk Hts] Ht|s ts s' Hr [Hk Hts] Ho].
  - by split.
  - destruct (enter_ok _ _ _ _ Hk Ht) as [? ?]. split; [done|]. by apply Forall_app.
  - apply Forall_app in Hts as [H1 [H2 H3]%Forall_cons]. destruct (kstretch_ok _ _ _ (H2 s Hk) Ht) as [? ?].
    split; [done|]. apply Forall_app. split; [done|]. by apply Forall_app.
  - split; [|done]. by eapply outside_ok.
Qed.




End trap.

End kernel.

(** A process calls uptime() on a machine whose buffer cache was just set
    up. *)
Definition sample_trapframe : Z := 0x87000000.
Definition sample_state : kstate :=
  match binit bss with
  | Done _ s => s <| k_cpu := mkCpu (Some 0%nat) 0 true false 0 |>
      <| k_procs := (zero_proc <| p_state := RUNNING |> <| p_trapframe := sample_trapframe |>) :: replicate 63 zero_proc |>
      <| k_mem := {[ sample_trapframe + TF_a7 := 14 ]} |>
      <| k_hw := zero_hardware <| hw_scause := 8 |> <| hw_sepc := 0x100 |> |>
  | _ => bss
  end.
#[local] Instance sample_fuel : Fuel := 1%nat.
Definition sample_after : kstate :=
  match enter (img := sample_image) (disk := Virtio.virtio_disk) (fun _ _ => 0) FromUser sample_state with Done _ s => s | _ => bss end.
Lemma kinv_start s c ps m h : kinv s -> length ps = Z.to_nat NPROC -> Forall proc_typed ps ->
  kinv (s <| k_cpu := c |> <| k_procs := ps |> <| k_mem := m |> <| k_hw := h |>).
Proof. intros [H1 H2 H3 H4 H5 (_ & _ & H6)] Hl Hp. split; try assumption. split; [exact Hl|]. split; [exact Hp|exact H6]. Qed.
Lemma sample_kinv : kinv sample_state.
Proof.
  assert (Hw : wp binit bss (fun _ s => kinv s)).
  { apply wp_binit; [done| | |].
    - by intros i x [-> _]%lookup_replicate.
    - by intros h [-> _]%lookup_replicate.
    - intros bs Hc. split; [done|done|done| | |].
      + intros pi x Hx. assert (E : (∅ : gmap Z pipe) !! pi = Some x) by exact Hx. by rewrite lookup_empty in E.
      + by intros i f [-> _]%lookup_replicate.
      + split; [done|]. split; [|done]. exact (Forall_replicate _ 64 _ zero_proc_typed). }
  destruct (proj1 (wp_done binit bss _) Hw) as (a & s & E & Hs). unfold sample_state. rewrite E.
  apply kinv_start; [exact Hs|reflexivity|]. apply Forall_cons. split; [split; [by repeat constructor|done..]|].
  exact (Forall_replicate _ 63 _ zero_proc_typed).
Qed.

End KernelInv.
