(* ===== verification/LockWord.v ===== *)
(** * spinlock.c: the lock word under interleaving

    One lock and any number of harts.  A step of the relation is one memory
    access of [acquire] or [release]; the spin loop is [step_swap_busy].  The
    lock is held by at most one hart, and [holding] answers for the asking
    hart, which is what the one-hart view of Spinlock.v relies on. *)

From S2P Require Import Prelude State.

Module Harts.

Inductive phase : Set :=
| Outside                 (* not in acquire/release *)
| Spinning                (* holding() was false; in the test-and-set loop *)
| Acquired                (* the swap returned 0; lk->cpu not set yet *)
| Critical                (* lk->cpu = mycpu() done: acquire has returned *)
| Releasing               (* lk->cpu = 0 done; lk->locked still 1 *)
| Panicked.               (* acquire() or release() called panic *)

Record lockword := mkLock { lk_locked : Z; lk_cpu : option nat; lk_phase : nat -> phase }.

Definition holding_hart (l : lockword) (h : nat) : bool :=
  (lk_locked l =? 1) && bool_decide (lk_cpu l = Some h).

Definition set_phase (l : lockword) (h : nat) (ph : phase) : nat -> phase :=
  fun h' => if decide (h = h') then ph else lk_phase l h'.

Inductive step (l : lockword) : lockword -> Prop :=
| step_acquire h :
    (lk_phase l h = Outside \/ lk_phase l h = Critical) -> holding_hart l h = false ->
    step l (mkLock (lk_locked l) (lk_cpu l) (set_phase l h Spinning))
| step_acquire_panic h :
    (lk_phase l h = Outside \/ lk_phase l h = Critical) -> holding_hart l h = true ->
    step l (mkLock (lk_locked l) (lk_cpu l) (set_phase l h Panicked))
| step_swap_busy h :
    lk_phase l h = Spinning -> lk_locked l <> 0 ->
    step l (mkLock 1 (lk_cpu l) (lk_phase l))
| step_swap_free h :
    lk_phase l h = Spinning -> lk_locked l = 0 ->
    step l (mkLock 1 (lk_cpu l) (set_phase l h Acquired))
| step_set_cpu h :
    lk_phase l h = Acquired ->
    step l (mkLock (lk_locked l) (Some h) (set_phase l h Critical))
| step_release h :
    (lk_phase l h = Outside \/ lk_phase l h = Critical) -> holding_hart l h = true ->
    step l (mkLock (lk_locked l) None (set_phase l h Releasing))
| step_release_panic h :
    (lk_phase l h = Outside \/ lk_phase l h = Critical) -> holding_hart l h = false ->
    step l (mkLock (lk_locked l) (lk_cpu l) (set_phase l h Panicked))
| step_unlock h :
    lk_phase l h = Releasing ->
    step l (mkLock 0 (lk_cpu l) (set_phase l h Outside)).

(** initlock *)
Definition initlock : lockword := mkLock 0 None (fun _ => Outside).

Inductive reachable : lockword -> Prop :=
| reach_init : reachable initlock
| reach_step l l' : reachable l -> step l l' -> reachable l'.

(** A hart owns the lock from the winning swap to the final store (or
    for good, when it panics in between). *)
Definition owns (l : lockword) (h : nat) : Prop :=
  lk_phase l h = Acquired \/ lk_phase l h = Releasing \/ lk_cpu l = Some h.

Definition lock_inv (l : lockword) : Prop :=
  (lk_locked l = 0 \/ lk_locked l = 1) /\
  (forall h, owns l h -> lk_locked l = 1) /\
  (forall h h', owns l h -> owns l h' -> h = h') /\
  (forall h, lk_phase l h = Critical -> lk_cpu l = Some h) /\
  (forall h, lk_cpu l = Some h -> lk_phase l h = Critical \/ lk_phase l h = Panicked).

Lemma lock_inv_init : lock_inv initlock.
Proof. repeat split; unfold owns; simpl; naive_solver. Qed.

Lemma lock_inv_step l l' : lock_inv l -> step l l' -> lock_inv l'.
Proof.
  intros (H01 & Hlk & Huniq & Hcrit & Hcpu) Hs.
  unfold lock_inv, owns in *.
  destruct Hs as [h Hp Hh|h Hp Hh|h Hp Hh|h Hp Hh|h Hp|h Hp Hh|h Hp Hh|h Hp];
    simpl in *; unfold set_phase, holding_hart in *; simpl in *.
  all: try (apply andb_prop in Hh as [Hh1%Z.eqb_eq Hh2%bool_decide_eq_true]).
  all: try (apply andb_false_iff in Hh as [Hh%Z.eqb_neq|Hh%bool_decide_eq_false]).
  all: repeat split; intros; repeat case_decide; subst; try done.
  all: try solve [naive_solver (congruence || lia)].
Qed.

Lemma reachable_inv l : reachable l -> lock_inv l.
Proof. induction 1; [apply lock_inv_init|by eapply lock_inv_step]. Qed.

(** C23. Mutual exclusion: in every reachable state of the lock word under any
    interleaving of any number of harts, at most one hart is past
    acquire() and not yet in release(); holding() is true for that hart and
    for no other running hart, so acquire() and release() panic exactly on
    misuse. *)
Theorem lock_mutual_exclusion l h1 h2 :
  reachable l -> lk_phase l h1 = Critical ->
  (lk_phase l h2 = Critical -> h1 = h2) /\
  holding_hart l h1 = true /\
  (holding_hart l h2 = true -> h1 = h2).
Proof.
  intros Hr H1. apply reachable_inv in Hr as (H01 & Hlk & Huniq & Hcrit & Hcpu).
  pose proof (Hcrit h1 H1) as C1. unfold holding_hart.
  rewrite (Hlk h1) by (right; by right). rewrite C1. simpl.
  split; [intros H2; pose proof (Hcrit h2 H2); congruence|].
  split; [by apply bool_decide_eq_true_2|].
  intros H2%bool_decide_eq_true. congruence.
Qed.

Lemma lock_mutual_exclusion_witness :
  exists l, reachable l /\ lk_phase l 1%nat = Critical /\
    (lk_phase l 0%nat = Critical -> 1%nat = 0%nat) /\ holding_hart l 1%nat = true /\
    (holding_hart l 0%nat = true -> 1%nat = 0%nat).
Proof.
  assert (Hr : reachable (mkLock 1 (Some 1%nat)
    (set_phase (mkLock 1 None (set_phase (mkLock 0 None (set_phase initlock 1%nat Spinning)) 1%nat Acquired))
       1%nat Critical))).
  { eapply reach_step; [eapply reach_step; [eapply reach_step; [apply reach_init|]|]|].
    - apply (step_acquire initlock 1%nat); [left|]; reflexivity.
    - apply (step_swap_free (mkLock 0 None (set_phase initlock 1%nat Spinning)) 1%nat); reflexivity.
    - apply (step_set_cpu (mkLock 1 None
        (set_phase (mkLock 0 None (set_phase initlock 1%nat Spinning)) 1%nat Acquired)) 1%nat); reflexivity. }
  eexists. split; [exact Hr|]. split; [reflexivity|].
  apply (lock_mutual_exclusion _ 1%nat 0%nat Hr). reflexivity.
Defined.

End Harts.
