(* ===== verification/Asm.v ===== *)
(** * The assembly code, entry.S, swtch.S, trampoline.S, kernelvec.S, and start.c

    A hart with its registers, its CSRs and memory in doublewords, and the
    instructions the kernel's assembly files use.  Loads and stores go
    through the address translation [tr], which is what the MMU makes of the
    page table that satp names.  The instruction sequences are those of the
    source, label by label. *)

From S2P Require Import Prelude State Proc Syscall.

Module Asm.

Inductive reg :=
| zero | ra | sp | gp | tp | t0 | t1 | t2 | s0 | s1
| a0 | a1 | a2 | a3 | a4 | a5 | a6 | a7
| s2 | s3 | s4 | s5 | s6 | s7 | s8 | s9 | s10 | s11 | t3 | t4 | t5 | t6.
#[export] Instance reg_eq_dec : EqDecision reg.
Proof. solve_decision. Defined.
Inductive csr :=
| sscratch | satp | sip | sie | mscratch | mhartid | mstatus | mepc | medeleg | mideleg | pmpaddr0 | pmpcfg0 | mtvec | mie.
#[export] Instance csr_eq_dec : EqDecision csr.
Proof. solve_decision. Defined.

Inductive instr :=
| Sd (rs : reg) (off : Z) (base : reg)
| Ld (rd : reg) (off : Z) (base : reg)
| Li (rd : reg) (v : Z)
| Addi (rd rs : reg) (imm : Z)
| Add (rd r1 r2 : reg)
| Mul (rd r1 r2 : reg)
| Csrw (c : csr) (rs : reg)
| Csrr (rd : reg) (c : csr)
| Csrrw (rd : reg) (c : csr) (rs : reg)
| Sfence
| Jr (rs : reg)
| Call (target : Z)
| Sret
| Mret.

(** Where the code goes on: the next instruction, an address, or what the
    trap came from. *)
Inductive control := Next | Goto (pc : Z) | Trapret.

Record hart := mkHart {
  h_reg : reg -> Z;
  h_csr : csr -> Z;
  h_mem : gmap Z Z;
  h_go : control;
}.
Definition eta_hart h := mkHart (h_reg h) (h_csr h) (h_mem h) (h_go h).
#[export] Instance upd_h_reg : Upd h_reg := ltac:(mk_upd h_reg eta_hart).
#[export] Instance upd_h_csr : Upd h_csr := ltac:(mk_upd h_csr eta_hart).
#[export] Instance upd_h_mem : Upd h_mem := ltac:(mk_upd h_mem eta_hart).
#[export] Instance upd_h_go : Upd h_go := ltac:(mk_upd h_go eta_hart).

Definition fset {A} `{EqDecision A} (f : A -> Z) (a : A) (v : Z) : A -> Z := fun b => if decide (a = b) then v else f b.
(** The register [zero] stays 0. *)
Definition set_reg (rd : reg) (v : Z) (h : hart) : hart :=
  if decide (rd = zero) then h else h <| h_reg ::= fun f => fset f rd v |>.
Definition set_csr (c : csr) (v : Z) (h : hart) : hart := h <| h_csr ::= fun f => fset f c v |>.

Section exec.
(** The physical address of a virtual one under a value of satp; none: a page
    fault. *)
Context (tr : Z -> Z -> option Z).

(** A doubleword access: aligned and mapped. *)
Definition addr (h : hart) (base : reg) (off : Z) : option Z :=
  let va := u64 (h_reg h base + off) in
  if va mod 8 =? 0 then tr (h_csr h satp) va else None.

Definition step (i : instr) (h : hart) : option hart :=
  match i with
  | Sd rs off base => pa ← addr h base off; Some (h <| h_mem ::= <[pa := h_reg h rs]> |>)
  | Ld rd off base => pa ← addr h base off; v ← h_mem h !! pa; Some (set_reg rd v h)
  | Li rd v => Some (set_reg rd (u64 v) h)
  | Addi rd rs imm => Some (set_reg rd (u64 (h_reg h rs + imm)) h)
  | Add rd r1 r2 => Some (set_reg rd (u64 (h_reg h r1 + h_reg h r2)) h)
  | Mul rd r1 r2 => Some (set_reg rd (u64 (h_reg h r1 * h_reg h r2)) h)
  | Csrw c rs => Some (set_csr c (h_reg h rs) h)
  | Csrr rd c => Some (set_reg rd (h_csr h c) h)
  | Csrrw rd c rs => Some (set_reg rd (h_csr h c) (set_csr c (h_reg h rs) h))
  | Sfence => Some h
  | Jr rs => Some (h <| h_go := Goto (h_reg h rs) |>)
  | Call target => Some (h <| h_go := Goto target |>)
  | Sret | Mret => Some (h <| h_go := Trapret |>)
  end.
Fixpoint run (l : list instr) (h : hart) : option hart :=
  match l with
  | [] => Some h
  | i :: l => h ← step i h; run l h
  end.
End exec.

(** ** swtch.S *)

(** struct context: the registers in the order of its fields. *)
Definition context_regs : list reg := [ra; sp; s0; s1; s2; s3; s4; s5; s6; s7; s8; s9; s10; s11].
(** Field [k] of a structure of doublewords, for each register of the list. *)
Fixpoint layout (off : Z) (l : list reg) : list (reg * Z) :=
  match l with
  | [] => []
  | r :: l => (r, off) :: layout (off + 8) l
  end.
Definition saves (base : reg) (l : list (reg * Z)) : list instr := map (fun x => Sd x.1 x.2 base) l.
Definition loads (base : reg) (l : list (reg * Z)) : list instr := map (fun x => Ld x.1 x.2 base) l.
Definition swtch : list instr :=
  saves a0 (layout 0 context_regs) ++ loads a1 (layout 0 context_regs) ++ [Jr ra].

(** ** trampoline.S *)

Definition trap_regs : list (reg * Z) :=
  layout 40 [ra; sp; gp; tp; t0; t1; t2; s0; s1] ++
  layout 120 [a1; a2; a3; a4; a5; a6; a7; s2; s3; s4; s5; s6; s7; s8; s9; s10; s11; t3; t4; t5; t6].
Definition uservec : list instr :=
  [Csrw sscratch a0; Li a0 TRAPFRAME] ++
  saves a0 trap_regs ++
  [Csrr t0 sscratch; Sd t0 TF_a0 a0;
   Ld sp TF_kernel_sp a0; Ld tp TF_kernel_hartid a0; Ld t0 TF_kernel_trap a0; Ld t1 TF_kernel_satp a0;
   Sfence; Csrw satp t1; Sfence; Jr t0].
Definition userret : list instr :=
  [Sfence; Csrw satp a0; Sfence; Li a0 TRAPFRAME] ++
  loads a0 trap_regs ++
  [Ld a0 TF_a0 a0; Sret].

(** ** kernelvec.S *)

Definition kernel_regs : list reg :=
  [ra; sp; gp; tp; t0; t1; t2; s0; s1; a0; a1; a2; a3; a4; a5; a6; a7;
   s2; s3; s4; s5; s6; s7; s8; s9; s10; s11; t3; t4; t5; t6].
Definition kernelvec_enter (kerneltrap : Z) : list instr :=
  [Addi sp sp (-256)] ++ saves sp (layout 0 kernel_regs) ++ [Call kerneltrap].
Definition kernelvec_leave : list instr :=
  loads sp (List.filter (fun x => negb (bool_decide (x.1 = tp))) (layout 0 kernel_regs)) ++
  [Addi sp sp 256; Sret].
Definition timervec : list instr :=
  [Csrrw a0 mscratch a0; Sd a1 0 a0; Sd a2 8 a0; Sd a3 16 a0;
   Ld a1 24 a0; Ld a2 32 a0; Ld a3 0 a1; Add a3 a3 a2; Sd a3 0 a1;
   Li a1 2; Csrw sip a1;
   Ld a3 16 a0; Ld a2 8 a0; Ld a1 0 a0; Csrrw a0 mscratch a0; Mret].

(** ** entry.S *)

Definition entry (stack0 start : Z) : list instr :=
  [Li sp stack0; Li a0 (1024 * 4); Csrr a1 mhartid; Addi a1 a1 1; Mul a0 a0 a1; Add sp sp a0; Call start].

(** ** start.c *)

Definition MSTATUS_MPP_MASK : Z := Z.shiftl 3 11.
Definition MSTATUS_MPP_S : Z := Z.shiftl 1 11.
Definition MSTATUS_MIE : Z := Z.shiftl 1 3.
Definition SIE_SEIE : Z := Z.shiftl 1 9.
Definition SIE_STIE : Z := Z.shiftl 1 5.
Definition SIE_SSIE : Z := Z.shiftl 1 1.
Definition MIE_MTIE : Z := Z.shiftl 1 7.
Definition CLINT : Z := 0x2000000.
Definition CLINT_MTIMECMP (hartid : Z) : Z := CLINT + 0x4000 + 8 * hartid.
Definition CLINT_MTIME : Z := CLINT + 0xBFF8.

Section start.
(** The addresses of main, timervec and timer_scratch. *)
Context (main timervec_addr timer_scratch : Z).
Definition interval : Z := 1000000.
Definition scratch_of (id : Z) : Z := timer_scratch + 40 * id.

(** Machine mode runs without translation. *)
Definition timerinit (h : hart) : option hart :=
  let id := i32 (h_csr h mhartid) in
  now ← h_mem h !! CLINT_MTIME;
  let h := h <| h_mem ::= <[CLINT_MTIMECMP id := u64 (now + interval)]> |> in
  let h := h <| h_mem ::= <[scratch_of id + 24 := CLINT_MTIMECMP id]> |> in
  let h := h <| h_mem ::= <[scratch_of id + 32 := interval]> |> in
  let h := set_csr mscratch (scratch_of id) h in
  let h := set_csr mtvec timervec_addr h in
  let h := set_csr mstatus (Z.lor (h_csr h mstatus) MSTATUS_MIE) h in
  Some (set_csr mie (Z.lor (h_csr h mie) MIE_MTIE) h).
Definition start (h : hart) : option hart :=
  let x := h_csr h mstatus in
  let x := Z.land x (Z.lnot MSTATUS_MPP_MASK) in
  let x := Z.lor x MSTATUS_MPP_S in
  let h := set_csr mstatus x h in
  let h := set_csr mepc main h in
  let h := set_csr satp 0 h in
  let h := set_csr medeleg 0xffff h in
  let h := set_csr mideleg 0xffff h in
  let h := set_csr sie (Z.lor (Z.lor (Z.lor (h_csr h sie) SIE_SEIE) SIE_STIE) SIE_SSIE) h in
  let h := set_csr pmpaddr0 0x3fffffffffffff h in
  let h := set_csr pmpcfg0 0xf h in
  h ← timerinit h;
  let id := i32 (h_csr h mhartid) in
  let h := set_reg tp (u64 id) h in
  Some (h <| h_go := Trapret |>).
End start.

(** ** Sequences of stores and loads *)

Lemma fset_eq {A} `{EqDecision A} (f : A -> Z) a v : fset f a v a = v.
Proof. unfold fset. by rewrite decide_True. Qed.
Lemma fset_ne {A} `{EqDecision A} (f : A -> Z) a b v : a <> b -> fset f a v b = f b.
Proof. intros. unfold fset. by rewrite decide_False. Qed.

(** Memory with the registers of the list stored from [pa] on, and registers
    with the values loaded from there. *)
Definition stored (pa : Z) (f : reg -> Z) (l : list (reg * Z)) (m : gmap Z Z) : gmap Z Z :=
  foldl (fun m x => <[pa + x.2 := f x.1]> m) m l.
Definition loaded (pa : Z) (m : gmap Z Z) (l : list (reg * Z)) (f : reg -> Z) : reg -> Z :=
  foldl (fun f x => fset f x.1 (m !!! (pa + x.2))) f l.

Lemma stored_ne pa f l m a : (forall x, x ∈ l -> a <> pa + x.2) -> stored pa f l m !! a = m !! a.
Proof.
  revert m. induction l as [|x l IH]; intros m Hn; [done|]. simpl. rewrite IH by set_solver.
  apply lookup_insert_ne. intros E. by apply (Hn x); [left|].
Qed.
Lemma stored_in pa f l m r off : NoDup l.*2 -> (r, off) ∈ l -> stored pa f l m !! (pa + off) = Some (f r).
Proof.
  revert m. induction l as [|x l IH]; intros m Hnd Hin; [by apply elem_of_nil in Hin|].
  cbn [fmap list_fmap] in Hnd. apply NoDup_cons in Hnd as [Hx Hnd]. apply elem_of_cons in Hin as [<-|Hin]; [|by apply IH].
  simpl. fold (stored pa f l (<[pa + off := f r]> m)). rewrite stored_ne; [by rewrite lookup_insert_eq|].
  intros [r' off'] Hin. simpl in *. assert (off <> off'); [|lia]. intros <-. apply Hx. apply list_elem_of_fmap. by exists (r', off).
Qed.
Lemma loaded_ne pa m l f r : r ∉ l.*1 -> loaded pa m l f r = f r.
Proof.
  revert f. induction l as [|x l IH]; intros f Hr; [done|]. simpl in *. rewrite IH by set_solver. apply fset_ne. set_solver.
Qed.
Lemma loaded_in pa m l f r off : NoDup l.*1 -> (r, off) ∈ l -> loaded pa m l f r = m !!! (pa + off).
Proof.
  revert f. induction l as [|x l IH]; intros f Hnd Hin; [by apply elem_of_nil in Hin|].
  cbn [fmap list_fmap] in Hnd. apply NoDup_cons in Hnd as [Hx Hnd]. apply elem_of_cons in Hin as [<-|Hin]; [|by apply IH].
  simpl in *. fold (loaded pa m l (fset f r (m !!! (pa + off)))). rewrite loaded_ne by done. apply fset_eq.
Qed.

Section lemmas.
Context (tr : Z -> Z -> option Z).

(** The [n] bytes from [va] on are at [pa] under [sa], both aligned. *)
Record window (sa va pa n : Z) : Prop := {
  w_aligned : va mod 8 = 0;
  w_range : 0 <= va /\ va + n < 2 ^ 64;
  w_tr k : 0 <= k < n -> tr sa (va + k) = Some (pa + k);
}.
Lemma window_addr h base va pa n off : h_reg h base = va -> window (h_csr h satp) va pa n -> 0 <= off < n -> off mod 8 = 0 ->
  addr tr h base off = Some (pa + off).
Proof.
  intros <- [Ha Hr Ht] Hoff H8. unfold addr. rewrite u64_small by lia.
  rewrite (proj2 (Z.eqb_eq _ 0)); [by apply Ht|]. rewrite Zplus_mod, Ha, H8. done.
Qed.
Definition fits (n : Z) (l : list (reg * Z)) : bool := forallb (fun x => (0 <=? x.2) && (x.2 <? n) && (x.2 mod 8 =? 0)) l.
Lemma fits_cons n x l : fits n (x :: l) = true -> (0 <= x.2 < n /\ x.2 mod 8 = 0) /\ fits n l = true.
Proof. simpl. rewrite !andb_true_iff. intros [[[? ?] ?] ?]. split; [lia|done]. Qed.

Lemma run_saves base va pa n l rest h : h_reg h base = va -> window (h_csr h satp) va pa n -> fits n l = true ->
  run tr (saves base l ++ rest) h = run tr rest (h <| h_mem := stored pa (h_reg h) l (h_mem h) |>).
Proof.
  revert h. induction l as [|x l IH]; intros h Hb Hw Hf.
  - simpl. f_equal. by destruct h.
  - apply fits_cons in Hf as [[H1 H2] Hf]. cbn [saves map app run]. unfold step. rewrite (window_addr h base va pa n) by done.
    cbn [mbind option_bind]. fold (saves base l). rewrite IH by done. done.
Qed.
(** Loading the base register itself must give what it has. *)
Lemma run_loads base va pa n l rest h : h_reg h base = va -> window (h_csr h satp) va pa n -> fits n l = true ->
  zero ∉ l.*1 -> (forall x, x ∈ l -> is_Some (h_mem h !! (pa + x.2)) /\ (x.1 = base -> h_mem h !! (pa + x.2) = Some va)) ->
  run tr (loads base l ++ rest) h = run tr rest (h <| h_reg := loaded pa (h_mem h) l (h_reg h) |>).
Proof.
  revert h. induction l as [|x l IH]; intros h Hb Hw Hf Hz Hm.
  - simpl. f_equal. by destruct h.
  - apply fits_cons in Hf as [[H1 H2] Hf]. cbn [fmap list_fmap] in Hz. apply not_elem_of_cons in Hz as [Hz0 Hz].
    cbn [loads map app run]. unfold step. rewrite (window_addr h base va pa n) by done.
    cbn [mbind option_bind]. destruct (Hm x ltac:(left)) as [[v Hv] Hbase]. rewrite Hv. cbn [mbind option_bind].
    fold (loads base l). unfold set_reg. rewrite decide_False by done. rewrite IH; ksimp.
    + simpl. rewrite lookup_total_alt, Hv. done.
    + destruct (decide (x.1 = base)) as [E|E]; [|by rewrite fset_ne]. rewrite E, fset_eq. rewrite Hbase in Hv by done. congruence.
    + done.
    + done.
    + done.
    + intros y Hy. apply Hm. by right.
Qed.
Lemma run_cons i l h h' : step tr i h = Some h' -> run tr (i :: l) h = run tr l h'.
Proof. intros E. cbn [run]. by rewrite E. Qed.
Lemma step_sd rs off base h va pa n : h_reg h base = va -> window (h_csr h satp) va pa n -> 0 <= off < n -> off mod 8 = 0 ->
  step tr (Sd rs off base) h = Some (h <| h_mem ::= <[pa + off := h_reg h rs]> |>).
Proof. intros Hb Hw H1 H2. unfold step. by rewrite (window_addr h base va pa n). Qed.
Lemma step_ld rd off base h va pa n v : h_reg h base = va -> window (h_csr h satp) va pa n -> 0 <= off < n -> off mod 8 = 0 ->
  h_mem h !! (pa + off) = Some v -> step tr (Ld rd off base) h = Some (set_reg rd v h).
Proof. intros Hb Hw H1 H2 Hv. unfold step. rewrite (window_addr h base va pa n) by done. cbn [mbind option_bind]. by rewrite Hv. Qed.

Lemma reg_set_eq rd v h : rd <> zero -> h_reg (set_reg rd v h) rd = v.
Proof. intros. unfold set_reg. rewrite decide_False by done. ksimp. apply fset_eq. Qed.
Lemma reg_set_ne rd r v h : rd <> r -> h_reg (set_reg rd v h) r = h_reg h r.
Proof. intros. unfold set_reg. case_decide; [done|]. ksimp. by apply fset_ne. Qed.
Lemma csr_set_reg rd v h : h_csr (set_reg rd v h) = h_csr h.
Proof. unfold set_reg. by case_decide. Qed.
Lemma mem_set_reg rd v h : h_mem (set_reg rd v h) = h_mem h.
Proof. unfold set_reg. by case_decide. Qed.
Lemma go_set_reg rd v h : h_go (set_reg rd v h) = h_go h.
Proof. unfold set_reg. by case_decide. Qed.
Lemma csr_set_eq c v h : h_csr (set_csr c v h) c = v.
Proof. apply fset_eq. Qed.
Lemma csr_set_ne c c' v h : c <> c' -> h_csr (set_csr c v h) c' = h_csr h c'.
Proof. apply fset_ne. Qed.
Lemma reg_set_csr c v h : h_reg (set_csr c v h) = h_reg h.
Proof. done. Qed.
Lemma mem_set_csr c v h : h_mem (set_csr c v h) = h_mem h.
Proof. done. Qed.
End lemmas.
#[export] Hint Rewrite reg_set_eq reg_set_ne csr_set_eq csr_set_ne using done : hart.
#[export] Hint Rewrite csr_set_reg mem_set_reg go_set_reg reg_set_csr mem_set_csr : hart.
Ltac hsimp := repeat (progress (ksimp; autorewrite with hart)).

Lemma trap_regs_fits : fits 288 trap_regs = true /\ NoDup trap_regs.*1 /\ NoDup trap_regs.*2.
Proof. split_and!; [reflexivity|refine (bool_decide_unpack _ _); vm_compute; exact I..]. Qed.
Lemma trap_regs_all r : r ∈ trap_regs.*1 <-> r <> zero /\ r <> a0.
Proof.
  assert (E : bool_decide (r ∈ trap_regs.*1) = bool_decide (r <> zero /\ r <> a0)) by by destruct r.
  by rewrite <- (bool_decide_eq_true (r ∈ _)), E, bool_decide_eq_true.
Qed.

Section trampoline.
Context (tr : Z -> Z -> option Z) (usatp tf : Z) (Hw : window tr usatp TRAPFRAME tf 288).

(** The kernel's half of the trapframe, as usertrapret leaves it. *)
Record kernel_part (m : gmap Z Z) (ksatp ksp ktrap khart : Z) : Prop := {
  kp_satp : m !! (tf + TF_kernel_satp) = Some ksatp;
  kp_sp : m !! (tf + TF_kernel_sp) = Some ksp;
  kp_trap : m !! (tf + TF_kernel_trap) = Some ktrap;
  kp_hart : m !! (tf + TF_kernel_hartid) = Some khart;
}.
Lemma trapframe_va : u64 TRAPFRAME = TRAPFRAME.
Proof. reflexivity. Qed.
(** Registers that are not saved as the user's are overwritten. *)
Lemma run_uservec h ksatp ksp ktrap khart : h_csr h satp = usatp -> kernel_part (h_mem h) ksatp ksp ktrap khart ->
  exists h', run tr uservec h = Some h' /\ h_go h' = Goto ktrap /\ h_csr h' satp = ksatp /\
    h_reg h' sp = ksp /\ h_reg h' tp = khart /\
    h_mem h' = <[tf + TF_a0 := h_reg h a0]> (stored tf (h_reg h) trap_regs (h_mem h)).
Proof.
  intros Hs [K1 K2 K3 K4]. destruct trap_regs_fits as (Hf & _ & _). unfold uservec. cbn [app].
  erewrite run_cons by reflexivity. erewrite run_cons by reflexivity. rewrite trapframe_va.
  set (h2 := set_reg a0 TRAPFRAME (set_csr sscratch (h_reg h a0) h)).
  assert (Hb2 : h_reg h2 a0 = TRAPFRAME) by (unfold h2; by hsimp).
  assert (Hw2 : window tr (h_csr h2 satp) TRAPFRAME tf 288) by (unfold h2; hsimp; by rewrite Hs).
  rewrite (run_saves tr a0 TRAPFRAME tf 288) by done.
  assert (Est : stored tf (h_reg h2) trap_regs (h_mem h2) = stored tf (h_reg h) trap_regs (h_mem h)).
  { unfold stored. reflexivity. }
  rewrite Est. set (m := stored tf (h_reg h) trap_regs (h_mem h)).
  assert (Hk : forall k, k ∈ [0; 8; 16; 32] -> m !! (tf + k) = h_mem h !! (tf + k)).
  { intros k Hk. apply stored_ne. intros x Hx. assert (k ∉ trap_regs.*2) as Hnk.
    { repeat (apply elem_of_cons in Hk as [->|Hk]; [refine (bool_decide_unpack _ _); vm_compute; exact I|]). by apply elem_of_nil in Hk. }
    intros E. apply Hnk. apply list_elem_of_fmap. exists x. split; [lia|done]. }
  erewrite run_cons by reflexivity. hsimp.
  erewrite run_cons by (apply (step_sd tr _ TF_a0 a0 _ TRAPFRAME tf 288); hsimp; done). hsimp.
  assert (Hl : forall k, k ∈ [0; 8; 16; 32] -> <[tf + TF_a0 := h_reg h a0]> m !! (tf + k) = h_mem h !! (tf + k)).
  { intros k Hin. rewrite lookup_insert_ne; [by apply Hk|]. unfold TF_a0. intros E. assert (k = 112) as -> by lia. set_solver by lia. }
  change (h_csr h2 sscratch) with (h_reg h a0).
  set (h5 := _ <| h_mem ::= _ |>). set (kregs := [(sp, TF_kernel_sp); (tp, TF_kernel_hartid); (t0, TF_kernel_trap); (t1, TF_kernel_satp)]).
  change (run tr _ h5) with (run tr (loads a0 kregs ++ [Sfence; Csrw satp t1; Sfence; Jr t0]) h5).
  assert (Hm5 : h_mem h5 = <[tf + TF_a0 := h_reg h a0]> m) by done.
  assert (M1 : h_mem h5 !! (tf + TF_kernel_satp) = Some ksatp) by (rewrite Hm5, Hl; [done|set_solver]).
  assert (M2 : h_mem h5 !! (tf + TF_kernel_sp) = Some ksp) by (rewrite Hm5, Hl; [done|set_solver]).
  assert (M3 : h_mem h5 !! (tf + TF_kernel_trap) = Some ktrap) by (rewrite Hm5, Hl; [done|set_solver]).
  assert (M4 : h_mem h5 !! (tf + TF_kernel_hartid) = Some khart) by (rewrite Hm5, Hl; [done|set_solver]).
  rewrite (run_loads tr a0 TRAPFRAME tf 288); [|unfold h5; by hsimp|unfold h5; by hsimp|done|refine (bool_decide_unpack _ _); vm_compute; exact I|].
  - eexists. split; [reflexivity|]. hsimp. unfold kregs, loaded. cbn [foldl fst snd].
    rewrite (lookup_total_correct _ _ _ M1), (lookup_total_correct _ _ _ M2), (lookup_total_correct _ _ _ M3), (lookup_total_correct _ _ _ M4).
    split_and!; [done|done|done|done|exact Hm5].
  - intros x Hx. unfold kregs in Hx. rewrite !elem_of_cons in Hx. destruct Hx as [->|[->|[->|[->|Hx]]]]; [..|by apply elem_of_nil in Hx];
      cbn [fst snd]; (split; [by eexists|done]).
Qed.

Lemma run_userret h : h_reg h a0 = usatp -> (forall r off, (r, off) ∈ trap_regs -> is_Some (h_mem h !! (tf + off))) ->
  forall v, h_mem h !! (tf + TF_a0) = Some v ->
  exists h', run tr userret h = Some h' /\ h_go h' = Trapret /\ h_csr h' satp = usatp /\ h_mem h' = h_mem h /\
    h_reg h' a0 = v /\ forall r off, (r, off) ∈ trap_regs -> h_reg h' r = h_mem h !!! (tf + off).
Proof.
  intros Ha Hm v Hv. destruct trap_regs_fits as (Hf & Hn1 & _). unfold userret. cbn [app].
  do 4 (erewrite run_cons by reflexivity). rewrite trapframe_va. set (h1 := set_reg a0 TRAPFRAME _).
  assert (Hb1 : h_reg h1 a0 = TRAPFRAME) by (unfold h1; by hsimp).
  assert (Hw1 : window tr (h_csr h1 satp) TRAPFRAME tf 288) by (unfold h1; hsimp; by rewrite Ha).
  assert (Hna : a0 ∉ trap_regs.*1) by (rewrite trap_regs_all; intros [_ ?]; done).
  assert (Hnz : zero ∉ trap_regs.*1) by (rewrite trap_regs_all; intros [? _]; done).
  rewrite (run_loads tr a0 TRAPFRAME tf 288); [|done|done|done|done|].
  - set (h2 := _ <| h_reg := _ |>). assert (Hb2 : h_reg h2 a0 = TRAPFRAME) by (unfold h2; ksimp; by rewrite loaded_ne).
    erewrite run_cons by (apply (step_ld tr a0 TF_a0 a0 h2 TRAPFRAME tf 288 v); [done|done|done|done|exact Hv]).
    erewrite run_cons by reflexivity. eexists. split; [reflexivity|]. hsimp. split_and!; [done| |done|done|].
    + change (h_csr h2 satp) with (h_csr h1 satp). unfold h1. by hsimp.
    + intros r off Hin. assert (r <> a0). { intros ->. apply Hna. apply list_elem_of_fmap. by exists (a0, off). }
      rewrite reg_set_ne by done. unfold h2. ksimp. rewrite (loaded_in _ _ _ _ _ off) by done. done.
  - intros [r off] Hin. split; [by eapply Hm|]. cbn [fst]. intros ->. destruct Hna. apply list_elem_of_fmap. by exists (a0, off).
Qed.
End trampoline.

(** C29. A trap from user space and the return to it leave the user's
    registers alone.  uservec saves all of them in the trapframe and goes to
    the address, stack, hart id and page table that the kernel put there;
    whatever the kernel then does, if it leaves the saved registers in the
    trapframe but for a0, userret with the same page table returns with every
    register as it was, and a0 as the kernel set it. *)
Theorem trap_roundtrip tr usatp tf h ksatp ksp ktrap khart :
  window tr usatp TRAPFRAME tf 288 -> h_csr h satp = usatp -> kernel_part tf (h_mem h) ksatp ksp ktrap khart ->
  exists h1, run tr uservec h = Some h1 /\
    h_go h1 = Goto ktrap /\ h_csr h1 satp = ksatp /\ h_reg h1 sp = ksp /\ h_reg h1 tp = khart /\
    h_mem h1 !! (tf + TF_a0) = Some (h_reg h a0) /\
    (forall a, ~ (tf + 40 <= a < tf + 288) -> h_mem h1 !! a = h_mem h !! a) /\
    forall h2 v, h_reg h2 a0 = usatp ->
      (forall off, 40 <= off < 288 -> off <> TF_a0 -> h_mem h2 !! (tf + off) = h_mem h1 !! (tf + off)) ->
      h_mem h2 !! (tf + TF_a0) = Some v ->
      exists h3, run tr userret h2 = Some h3 /\ h_go h3 = Trapret /\ h_csr h3 satp = usatp /\ h_mem h3 = h_mem h2 /\
        forall r, r <> zero -> h_reg h3 r = if decide (r = a0) then v else h_reg h r.
Proof.
  intros Hw Hs Hk. destruct (run_uservec tr usatp tf Hw h _ _ _ _ Hs Hk) as (h1 & E1 & H1 & H2 & H3 & H4 & Hm1).
  destruct trap_regs_fits as (Hf & Hn1 & Hn2).
  assert (Hr : forall x, x ∈ trap_regs -> 40 <= x.2 < 288 /\ x.2 <> TF_a0).
  { assert (Hall : forallb (fun x => (40 <=? x.2) && (x.2 <? 288) && negb (x.2 =? TF_a0)) trap_regs = true) by reflexivity.
    rewrite forallb_forall in Hall. intros x Hx. apply list_elem_of_In, Hall in Hx. lia. }
  assert (Hsaved : forall r off, (r, off) ∈ trap_regs -> h_mem h1 !! (tf + off) = Some (h_reg h r)).
  { intros r off Hin. destruct (Hr _ Hin) as [Hr1 Hr2]. cbn [snd] in Hr1, Hr2. rewrite Hm1, lookup_insert_ne by lia. by apply stored_in. }
  exists h1. split_and!; try done.
  - rewrite Hm1. apply lookup_insert_eq.
  - intros a Ha. rewrite Hm1, lookup_insert_ne by (unfold TF_a0; lia). apply stored_ne. intros x Hx. destruct (Hr x Hx). lia.
  - intros h2 v Ha Hsame Hv.
    assert (Hsaved2 : forall r off, (r, off) ∈ trap_regs -> h_mem h2 !! (tf + off) = Some (h_reg h r)).
    { intros r off Hin. destruct (Hr _ Hin) as [Hr1 Hr2]. cbn [snd] in Hr1, Hr2. rewrite Hsame by done. by apply Hsaved. }
    destruct (run_userret tr usatp tf Hw h2 Ha) with (v := v) as (h3 & E3 & ? & ? & ? & Ha0 & Hregs); [|done|].
    + intros r off Hin. rewrite (Hsaved2 r off Hin). eauto.
    + exists h3. split_and!; try done. intros r Hz. case_decide as Hra; [by subst|].
      assert (r ∈ trap_regs.*1) as ([r' off] & -> & Hin)%list_elem_of_fmap by by apply trap_regs_all.
      cbn [fst]. rewrite (Hregs r' off Hin). by apply lookup_total_correct, Hsaved2.
Qed.

(** ** Switching *)

#[local] Notation context := (layout 0 context_regs).
Lemma context_ok : fits 112 context = true /\ NoDup context.*1 /\ NoDup context.*2 /\ zero ∉ context.*1 /\ a1 ∉ context.*1.
Proof. split_and!; [reflexivity|refine (bool_decide_unpack _ _); vm_compute; exact I..]. Qed.
Lemma fits_range n l x : fits n l = true -> x ∈ l -> 0 <= x.2 < n.
Proof. unfold fits. rewrite forallb_forall. intros Hall Hx. apply list_elem_of_In, Hall in Hx. lia. Qed.

Lemma run_swtch tr h old new po pn : h_reg h a0 = old -> h_reg h a1 = new ->
  window tr (h_csr h satp) old po 112 -> window tr (h_csr h satp) new pn 112 -> po + 112 <= pn \/ pn + 112 <= po ->
  (forall r off, (r, off) ∈ context -> is_Some (h_mem h !! (pn + off))) ->
  exists h', run tr swtch h = Some h' /\ h_mem h' = stored po (h_reg h) context (h_mem h) /\ h_csr h' = h_csr h /\
    h_go h' = Goto (h_reg h' ra) /\ (forall r off, (r, off) ∈ context -> h_reg h' r = h_mem h !!! (pn + off)) /\
    (forall r, r ∉ context_regs -> h_reg h' r = h_reg h r).
Proof.
  intros H0 H1 Hw0 Hw1 Hd Hm. destruct context_ok as (Hf & Hn1 & Hn2 & Hz & Ha1). unfold swtch.
  rewrite (run_saves tr a0 old po 112) by done. set (h1 := h <| h_mem := _ |>).
  assert (Hold : forall x, x ∈ context -> h_mem h1 !! (pn + x.2) = h_mem h !! (pn + x.2)).
  { intros x Hx. apply stored_ne. intros y Hy. pose proof (fits_range _ _ _ Hf Hx). pose proof (fits_range _ _ _ Hf Hy). lia. }
  rewrite (run_loads tr a1 new pn 112); [|done|done|done|done|].
  - erewrite run_cons by reflexivity. eexists. split; [reflexivity|]. ksimp. split_and!; [done|done|done| |].
    + intros r off Hin. rewrite (loaded_in _ _ _ _ r off) by done. pose proof (Hold (r, off) Hin) as E. cbn [snd] in E. by rewrite !lookup_total_alt, E.
    + intros r Hr. by rewrite loaded_ne.
  - intros x Hx. rewrite Hold by done. destruct x as [r off]. split; [by eapply Hm|]. cbn [fst]. intros ->. destruct Ha1.
    apply list_elem_of_fmap. by exists (a1, off).
Qed.

(** swtch(old, new) stores the callee-saved registers in [*old] and goes
    on with those of [*new]; when later a swtch loads [*old], with the
    context untouched, it returns to the first caller with exactly the
    registers that caller had. *)
Theorem swtch_roundtrip tr h old new po pn : h_reg h a0 = old -> h_reg h a1 = new ->
  window tr (h_csr h satp) old po 112 -> window tr (h_csr h satp) new pn 112 -> po + 112 <= pn \/ pn + 112 <= po ->
  (forall r off, (r, off) ∈ layout 0 context_regs -> is_Some (h_mem h !! (pn + off))) ->
  exists h1, run tr swtch h = Some h1 /\ h_go h1 = Goto (h_reg h1 ra) /\
    (forall r off, (r, off) ∈ layout 0 context_regs -> h_reg h1 r = h_mem h !!! (pn + off)) /\
    (forall r, r ∉ context_regs -> h_reg h1 r = h_reg h r) /\
    (forall a, ~ (po <= a < po + 112) -> h_mem h1 !! a = h_mem h !! a) /\
    forall h2 other pother, h_reg h2 a0 = other -> h_reg h2 a1 = old -> h_csr h2 satp = h_csr h satp ->
      window tr (h_csr h satp) other pother 112 -> po + 112 <= pother \/ pother + 112 <= po ->
      (forall a, po <= a < po + 112 -> h_mem h2 !! a = h_mem h1 !! a) ->
      exists h3, run tr swtch h2 = Some h3 /\ h_go h3 = Goto (h_reg h ra) /\
        forall r, r ∈ context_regs -> h_reg h3 r = h_reg h r.
Proof.
  intros H0 H1 Hw0 Hw1 Hd Hm. destruct (run_swtch tr h old new po pn H0 H1 Hw0 Hw1 Hd Hm) as (h1 & E1 & M1 & C1 & G1 & R1 & N1).
  destruct context_ok as (Hf & Hn1 & Hn2 & _ & _). exists h1. split_and!; try done.
  - intros a Ha. rewrite M1. apply stored_ne. intros x Hx. pose proof (fits_range _ _ _ Hf Hx). lia.
  - intros h2 other pother A0 A1 Hs Hwo Hdo Hsame.
    assert (Hsaved : forall r off, (r, off) ∈ context -> h_mem h2 !! (po + off) = Some (h_reg h r)).
    { intros r off Hin. pose proof (fits_range _ _ _ Hf Hin) as Hr. cbn [snd] in Hr. rewrite Hsame, M1 by lia. by apply stored_in. }
    destruct (run_swtch tr h2 other old pother po) as (h3 & E3 & _ & _ & G3 & R3 & _); try done; [by rewrite Hs|by rewrite Hs|lia| |].
    { intros r off Hin. rewrite (Hsaved r off Hin). eauto. }
    assert (HR : forall r, r ∈ context_regs -> h_reg h3 r = h_reg h r).
    { intros r Hr. change context_regs with (context.*1) in Hr. apply list_elem_of_fmap in Hr as ([r' off] & -> & Hin). cbn [fst].
      rewrite (R3 r' off Hin). apply lookup_total_correct. by apply Hsaved. }
    exists h3. split_and!; [done| |done]. rewrite G3. f_equal. apply HR. left.
Qed.

(** ** Traps inside the kernel *)

#[local] Notation frame := (layout 0 kernel_regs).
#[local] Notation frame_but_tp := (List.filter (fun x => negb (bool_decide (x.1 = tp))) frame).
Lemma frame_ok : fits 256 frame = true /\ fits 256 frame_but_tp = true /\ NoDup frame.*2 /\ NoDup frame_but_tp.*1 /\
  zero ∉ frame_but_tp.*1 /\ tp ∉ frame_but_tp.*1 /\ (sp, 8) ∈ frame_but_tp.
Proof. split_and!; [reflexivity|reflexivity|refine (bool_decide_unpack _ _); vm_compute; exact I..]. Qed.
Lemma frame_all r : r <> zero -> r <> tp -> r ∈ frame_but_tp.*1.
Proof.
  intros Hz Ht. assert (E : bool_decide (r ∈ frame_but_tp.*1) = bool_decide (r <> zero /\ r <> tp)) by by destruct r.
  rewrite <- (bool_decide_eq_true (r ∈ _)), E, bool_decide_eq_true. done.
Qed.
Lemma frame_sub x : x ∈ frame_but_tp -> x ∈ frame.
Proof. rewrite !list_elem_of_In, filter_In. by intros [? _]. Qed.

(** C40. An interrupt in the kernel is transparent: kernelvec pushes the
    registers on the kernel stack and calls kerneltrap; when that returns with
    the stack pointer and the frame on the stack as they were, every register
    but tp, which the scheduler may have changed with the hart, gets back the
    value it had, and memory is untouched below. *)
Theorem kernelvec_transparent tr h top pa kerneltrap : u64 (h_reg h sp - 256) = top ->
  h_reg h sp = u64 (top + 256) -> window tr (h_csr h satp) top pa 256 ->
  exists h1, run tr (kernelvec_enter kerneltrap) h = Some h1 /\ h_go h1 = Goto kerneltrap /\ h_reg h1 sp = top /\
    (forall a, ~ (pa <= a < pa + 256) -> h_mem h1 !! a = h_mem h !! a) /\
    forall h2, h_reg h2 sp = top -> h_csr h2 satp = h_csr h satp ->
      (forall a, pa <= a < pa + 256 -> h_mem h2 !! a = h_mem h1 !! a) ->
      exists h3, run tr kernelvec_leave h2 = Some h3 /\ h_go h3 = Trapret /\ h_mem h3 = h_mem h2 /\
        (forall r, r <> zero -> r <> tp -> h_reg h3 r = h_reg h r) /\ h_reg h3 tp = h_reg h2 tp.
Proof.
  intros Htop Hsp Hw. destruct frame_ok as (Hf & Hf' & Hn2 & Hn1 & Hz & Htp & Hsp8).
  unfold kernelvec_enter. cbn [app]. erewrite run_cons by reflexivity.
  replace (h_reg h sp + -256) with (h_reg h sp - 256) by lia. rewrite Htop. set (h0 := set_reg sp top h).
  rewrite (run_saves tr sp top pa 256); [|by apply reg_set_eq|done|done]. erewrite run_cons by reflexivity.
  eexists. split; [reflexivity|]. ksimp. split_and!; [done|by apply reg_set_eq| |].
  { intros a Ha. rewrite stored_ne; [unfold h0; by hsimp|]. intros x Hx. pose proof (fits_range _ _ _ Hf Hx). lia. }
  intros h2 Hsp2 Hs2 Hm2.
  assert (Hsaved : forall r off, (r, off) ∈ frame_but_tp -> h_mem h2 !! (pa + off) = Some (h_reg h0 r)).
  { intros r off Hin. pose proof (fits_range _ _ _ Hf' Hin) as Hr. cbn [snd] in Hr. rewrite Hm2 by lia. apply stored_in; [done|by apply frame_sub]. }
  unfold kernelvec_leave. rewrite (run_loads tr sp top pa 256); [|done|by rewrite Hs2|done|done|].
  2: { intros [r off] Hin. cbn [fst snd]. rewrite (Hsaved r off Hin). split; [eauto|]. intros ->. done. }
  do 2 (erewrite run_cons by reflexivity). eexists. split; [reflexivity|]. hsimp. split_and!; [done|done| |by rewrite loaded_ne].
  assert (Hl : forall r, r <> zero -> r <> tp -> loaded pa (h_mem h2) frame_but_tp (h_reg h2) r = h_reg h0 r).
  { intros r Hr1 Hr2. pose proof (frame_all r Hr1 Hr2) as Hin. apply list_elem_of_fmap in Hin as ([r' off] & -> & Hin). cbn [fst].
    rewrite (loaded_in _ _ _ _ r' off) by done. by apply lookup_total_correct, Hsaved. }
  intros r Hr1 Hr2. destruct (decide (r = sp)) as [->|Hr3].
  - rewrite reg_set_eq by done. rewrite Hl by done. unfold h0. rewrite reg_set_eq by done. done.
  - rewrite reg_set_ne by done. ksimp. rewrite Hl by done. by apply reg_set_ne.
Qed.

(** ** Timer interrupts *)

(** Machine mode has no translation. *)
Definition phys : Z -> Z -> option Z := fun _ va => Some va.
Lemma phys_window sa va n : va mod 8 = 0 -> 0 <= va -> va + n < 2 ^ 64 -> window phys sa va va n.
Proof. by split. Qed.

(** What timervec finds in mscratch: the scratch area of hart [id]. *)
Record timer_area (sc id : Z) (h : hart) : Prop := {
  ta_id : 0 <= id < NCPU;
  ta_scratch : h_csr h mscratch = sc;
  ta_cmp : h_mem h !! (sc + 24) = Some (CLINT_MTIMECMP id);
  ta_interval : h_mem h !! (sc + 32) = Some interval;
  ta_aligned : sc mod 8 = 0;
  ta_range : 0 <= sc /\ sc + 40 < 2 ^ 64;
  ta_apart : CLINT_MTIMECMP id + 8 <= sc \/ sc + 40 <= CLINT_MTIMECMP id;
}.
Lemma run_timervec sc id h v : timer_area sc id h -> h_mem h !! CLINT_MTIMECMP id = Some v ->
  exists h', run phys timervec h = Some h' /\ h_go h' = Trapret /\
    (forall r, r <> zero -> h_reg h' r = h_reg h r) /\ h_csr h' mscratch = sc /\ h_csr h' sip = 2 /\
    h_mem h' !! CLINT_MTIMECMP id = Some (u64 (v + interval)) /\
    forall a, a <> CLINT_MTIMECMP id -> ~ (sc <= a < sc + 24) -> h_mem h' !! a = h_mem h !! a.
Proof.
  intros [Hid Hsc Hcmp Hint Hal Hr Hap] Hv. unfold CLINT_MTIMECMP in *. set (cmp := CLINT + 0x4000 + 8 * id) in *.
  assert (Hc0 : cmp mod 8 = 0) by (apply Z.mod_divide; [lia|]; exists (0x400000 + 0x800 + id); unfold cmp, CLINT; lia).
  assert (Hcr : 0 <= cmp /\ cmp + 8 < 2 ^ 64) by (unfold cmp, CLINT, NCPU in *; lia).
  assert (Hw : forall sa, window phys sa sc sc 40) by (intros; apply phys_window; lia).
  assert (Hwc : forall sa, window phys sa cmp cmp 8) by (intros; apply phys_window; lia).
  unfold timervec. erewrite run_cons by reflexivity. rewrite Hsc.
  set (h1 := set_reg a0 sc (set_csr mscratch (h_reg h a0) h)).
  assert (Hb1 : h_reg h1 a0 = sc) by (unfold h1; by hsimp).
  assert (R1 : forall r, r <> a0 -> h_reg h1 r = h_reg h r) by (intros r Hr'; unfold h1; by rewrite reg_set_ne).
  erewrite run_cons by (apply (step_sd phys a1 0 a0 h1 sc sc 40); [done|apply Hw|lia|done]).
  erewrite run_cons by (apply (step_sd phys a2 8 a0 _ sc sc 40); [done|apply Hw|lia|done]).
  erewrite run_cons by (apply (step_sd phys a3 16 a0 _ sc sc 40); [done|apply Hw|lia|done]). ksimp.
  set (m := <[sc + 16 := h_reg h1 a3]> (<[sc + 8 := h_reg h1 a2]> (<[sc + 0 := h_reg h1 a1]> (h_mem h1)))).
  set (h4 := _ <| h_mem ::= <[sc + 16 := _]> |>). assert (M4 : h_mem h4 = m) by done.
  assert (R4 : h_reg h4 = h_reg h1) by done. assert (C4 : h_csr h4 = h_csr h1) by done. clearbody h4.
  assert (Hm : forall a, ~ (sc <= a < sc + 24) -> m !! a = h_mem h !! a).
  { intros a Ha. unfold m. rewrite !lookup_insert_ne by lia. unfold h1. by hsimp. }
  assert (Hm0 : m !! (sc + 0) = Some (h_reg h a1)) by (unfold m; rewrite !lookup_insert_ne by lia; by rewrite lookup_insert_eq, R1).
  assert (Hm8 : m !! (sc + 8) = Some (h_reg h a2)) by (unfold m; rewrite lookup_insert_ne by lia; by rewrite lookup_insert_eq, R1).
  assert (Hm16 : m !! (sc + 16) = Some (h_reg h a3)) by (unfold m; by rewrite lookup_insert_eq, R1).
  erewrite run_cons by (apply (step_ld phys a1 24 a0 h4 sc sc 40 cmp); [by rewrite R4|apply Hw|lia|done|rewrite M4, Hm; [done|lia]]).
  erewrite run_cons by (apply (step_ld phys a2 32 a0 _ sc sc 40 interval); [hsimp; by rewrite R4|apply Hw|lia|done|hsimp; rewrite M4, Hm; [done|lia]]).
  erewrite run_cons by (apply (step_ld phys a3 0 a1 _ cmp cmp 8 v); [by hsimp|apply Hwc|lia|done|hsimp; rewrite M4, Z.add_0_r, Hm; [done|lia]]).
  erewrite run_cons by reflexivity. hsimp.
  erewrite run_cons by (apply (step_sd phys a3 0 a1 _ cmp cmp 8); [by hsimp|apply Hwc|lia|done]). hsimp.
  do 2 (erewrite run_cons by reflexivity). hsimp. change (u64 2) with 2.
  set (h9 := set_csr sip _ _). 
  assert (M9 : h_mem h9 = <[cmp := u64 (v + interval)]> m) by (unfold h9; hsimp; by rewrite M4, Z.add_0_r).
  assert (R9 : h_reg h9 a0 = sc) by (unfold h9; hsimp; by rewrite R4).
  assert (C9 : h_csr h9 mscratch = h_reg h a0 /\ h_csr h9 sip = 2) by (unfold h9; hsimp; rewrite C4; unfold h1; by hsimp).
  assert (N9 : forall r, r <> a0 -> r <> a1 -> r <> a2 -> r <> a3 -> h_reg h9 r = h_reg h r).
  { intros r ? ? ? ?. unfold h9. hsimp. by rewrite R4, R1. }
  clearbody h9. destruct C9 as [C9 S9].
  erewrite run_cons by (apply (step_ld phys a3 16 a0 h9 sc sc 40); [done|apply Hw|lia|done|rewrite M9, lookup_insert_ne by lia; exact Hm16]).
  erewrite run_cons by (apply (step_ld phys a2 8 a0 _ sc sc 40); [by hsimp|apply Hw|lia|done|hsimp; rewrite M9, lookup_insert_ne by lia; exact Hm8]).
  erewrite run_cons by (apply (step_ld phys a1 0 a0 _ sc sc 40); [by hsimp|apply Hw|lia|done|hsimp; rewrite M9, lookup_insert_ne by lia; exact Hm0]).
  do 2 (erewrite run_cons by reflexivity). eexists. split; [reflexivity|]. hsimp. split_and!; try done.
  - intros r Hz. destruct (decide (r = a0)) as [->|]; [by hsimp|]. rewrite reg_set_ne by done. hsimp.
    destruct (decide (r = a1)) as [->|]; [by hsimp|]. rewrite reg_set_ne by done.
    destruct (decide (r = a2)) as [->|]; [by hsimp|]. rewrite reg_set_ne by done.
    destruct (decide (r = a3)) as [->|]; [by hsimp|]. rewrite reg_set_ne by done. by apply N9.
  - rewrite M9. apply lookup_insert_eq.
  - intros a Ha1 Ha2. rewrite M9, lookup_insert_ne by done. by apply Hm.
Qed.

(** start() hands the hart to main in supervisor mode with its id in tp,
    paging off, interrupts delegated and the timer armed, and leaves hart
    [id]'s scratch area so that from then on, as long as nobody touches the
    area, every timer interrupt runs timervec to its end: it preserves all
    registers, re-arms the timer one interval later, raises a supervisor
    software interrupt and changes no other memory than the area. *)
Theorem start_timer main timervec_addr timer_scratch h id now :
  h_csr h mhartid = id -> 0 <= id < NCPU -> h_mem h !! CLINT_MTIME = Some now ->
  timer_scratch mod 8 = 0 -> CLINT + 0x10000 <= timer_scratch -> timer_scratch + 40 * NCPU < 2 ^ 64 ->
  let sc := timer_scratch + 40 * id in
  exists h1, start main timervec_addr timer_scratch h = Some h1 /\
    h_go h1 = Trapret /\ h_csr h1 mepc = main /\ Z.land (h_csr h1 mstatus) MSTATUS_MPP_MASK = MSTATUS_MPP_S /\
    h_reg h1 tp = id /\ h_csr h1 satp = 0 /\ h_csr h1 mtvec = timervec_addr /\
    h_mem h1 !! CLINT_MTIMECMP id = Some (u64 (now + interval)) /\
    forall h2 v, h_csr h2 mscratch = h_csr h1 mscratch ->
      (forall a, sc + 24 <= a < sc + 40 -> h_mem h2 !! a = h_mem h1 !! a) ->
      h_mem h2 !! CLINT_MTIMECMP id = Some v ->
      exists h3, run phys timervec h2 = Some h3 /\ h_go h3 = Trapret /\
        (forall r, r <> zero -> h_reg h3 r = h_reg h2 r) /\ h_csr h3 mscratch = h_csr h2 mscratch /\
        h_csr h3 sip = 2 /\ h_mem h3 !! CLINT_MTIMECMP id = Some (u64 (v + interval)) /\
        forall a, a <> CLINT_MTIMECMP id -> ~ (sc <= a < sc + 24) -> h_mem h3 !! a = h_mem h2 !! a.
Proof.
  intros Hid Hr Hnow Hal Hlo Hhi sc. unfold NCPU in *.
  assert (Hi : i32 id = id) by (apply i32_small; lia).
  unfold start, timerinit. hsimp. rewrite Hnow. cbn [mbind option_bind]. hsimp. rewrite Hid, Hi. unfold scratch_of. fold sc.
  assert (Hcmp : CLINT_MTIMECMP id + 8 <= sc /\ 0 <= sc /\ sc + 40 < 2 ^ 64) by (unfold sc, CLINT_MTIMECMP, CLINT in *; lia).
  eexists. split; [reflexivity|]. hsimp. split_and!; try done.
  - unfold MSTATUS_MPP_MASK, MSTATUS_MPP_S, MSTATUS_MIE. rewrite !Z.land_lor_distr_l, <- Z.land_assoc. cbn.
    by rewrite Z.land_0_r.
  - apply u64_small. lia.
  - rewrite !lookup_insert_ne by lia. apply lookup_insert_eq.
  - intros h2 v Hsc Hm Hv. rewrite Hsc. apply run_timervec; [|done]. split; [done|done| | | |lia|lia].
    + rewrite Hm by lia. rewrite lookup_insert_ne by lia. apply lookup_insert_eq.
    + rewrite Hm by lia. apply lookup_insert_eq.
    + unfold sc. rewrite Zplus_mod, Hal, Z.mul_comm. change 40 with (5 * 8). rewrite Z.mul_assoc, Z_mod_mult. done.
Qed.

(** ** A hart *)

(** Doublewords 0 to [n] - 1 from [a] on. *)
Definition words (a : Z) (n : nat) : gmap Z Z := list_to_map (map (fun k => (a + 8 * Z.of_nat k, Z.of_nat k)) (seq 0 n)).
Definition sample_regs : reg -> Z := fun r => match r with sp => 0x8000 | a0 => 0x4000 | a1 => 0x5000 | t3 => 77 | s4 => 44 | _ => 1 end.
Definition sample_hart : hart := mkHart sample_regs (fun _ => 9) (words 0x4000 512 ∪ words 0x5000 14 ∪ words CLINT_MTIME 1) Next.
(** The trapframe is at 0x4000. *)
Definition sample_tr : Z -> Z -> option Z := fun _ va => Some (va - TRAPFRAME + 0x4000).
Lemma sample_window : window sample_tr 9 TRAPFRAME 0x4000 288.
Proof. split; [done|done|]. intros k Hk. unfold sample_tr. f_equal. lia. Qed.
Lemma trap_roundtrip_witness : exists h1 h3, run sample_tr uservec sample_hart = Some h1 /\
  run sample_tr userret (h1 <| h_reg := fset (h_reg h1) a0 9 |> <| h_mem := <[0x4000 + TF_a0 := 5]> (h_mem h1) |>) = Some h3 /\
  h_reg h3 a0 = 5 /\ h_reg h3 t3 = 77.
Proof.
  destruct (trap_roundtrip sample_tr 9 0x4000 sample_hart 0 1 2 4 sample_window eq_refl) as (h1 & E1 & _ & _ & _ & _ & _ & _ & Hret).
  { split; vm_compute; reflexivity. }
  destruct (Hret (h1 <| h_reg := fset (h_reg h1) a0 9 |> <| h_mem := <[0x4000 + TF_a0 := 5]> (h_mem h1) |>) 5) as (h3 & E3 & _ & _ & _ & Hr).
  { reflexivity. }
  { intros off Hoff Hne. ksimp. rewrite lookup_insert_ne by lia. reflexivity. }
  { ksimp. apply lookup_insert_eq. }
  exists h1, h3. split_and!; [exact E1|exact E3|rewrite Hr; [reflexivity|congruence]..].
Defined.
Lemma swtch_roundtrip_witness : exists h1, run phys swtch sample_hart = Some h1 /\ h_go h1 = Goto 0 /\
  exists h3, run phys swtch (h1 <| h_reg := fset (fset (h_reg h1) a0 0x5000) a1 0x4000 |>) = Some h3 /\ h_reg h3 s4 = 44.
Proof.
  assert (Hw : forall a, a mod 8 = 0 -> 0 <= a < 0x10000 -> window phys 9 a a 112) by (intros; apply phys_window; lia).
  destruct (swtch_roundtrip phys sample_hart 0x4000 0x5000 0x4000 0x5000) as (h1 & E1 & G1 & R1 & _ & _ & Hb);
    [done|done|by apply Hw|by apply Hw|lia| |].
  { intros r off Hin. assert (Hall : forallb (fun x => bool_decide (is_Some (h_mem sample_hart !! (0x5000 + x.2)))) (layout 0 context_regs) = true)
      by (vm_compute; reflexivity).
    rewrite forallb_forall in Hall. apply list_elem_of_In, Hall in Hin. by apply bool_decide_eq_true in Hin. }
  assert (C1 : h_csr h1 satp = 9) by (assert (E : (fun h => h_csr h satp) <$> run phys swtch sample_hart = Some 9) by (vm_compute; reflexivity);
    rewrite E1 in E; by injection E).
  exists h1. split; [exact E1|]. split; [rewrite G1; rewrite (R1 ra 0) by left; by vm_compute|].
  destruct (Hb (h1 <| h_reg := fset (fset (h_reg h1) a0 0x5000) a1 0x4000 |>) 0x5000 0x5000) as (h3 & E3 & _ & R3);
    [reflexivity|reflexivity|exact C1|apply Hw; [reflexivity|lia]|lia|intros; reflexivity|].
  exists h3. split; [exact E3|]. rewrite R3; [reflexivity|]. refine (bool_decide_unpack _ _). vm_compute. exact I.
Defined.
Lemma kernelvec_transparent_witness : exists h1 h3, run phys (kernelvec_enter 0x100) sample_hart = Some h1 /\
  run phys kernelvec_leave h1 = Some h3 /\ h_reg h3 sp = 0x8000 /\ h_reg h3 t3 = 77.
Proof.
  destruct (kernelvec_transparent phys sample_hart 0x7f00 0x7f00 0x100) as (h1 & E1 & _ & Hsp & _ & Hb); [done|done|by apply phys_window|].
  assert (C1 : h_csr h1 satp = 9) by (assert (E : (fun h => h_csr h satp) <$> run phys (kernelvec_enter 0x100) sample_hart = Some 9) by (vm_compute; reflexivity);
    rewrite E1 in E; by injection E).
  destruct (Hb h1 Hsp C1 (fun _ _ => eq_refl)) as (h3 & E3 & _ & _ & R3 & _). exists h1, h3. split_and!; [exact E1|exact E3|rewrite R3; [reflexivity|congruence|congruence]..].
Defined.
Lemma start_timer_witness : exists h1 h3,
  start 0x80000100 0x80000200 0x80010000 (set_csr mhartid 3 sample_hart) = Some h1 /\ h_reg h1 tp = 3 /\
  run phys timervec h1 = Some h3 /\ h_mem h3 !! CLINT_MTIMECMP 3 = Some (2 * interval).
Proof.
  destruct (start_timer 0x80000100 0x80000200 0x80010000 (set_csr mhartid 3 sample_hart) 3 0) as (h1 & E1 & _ & _ & _ & Htp & _ & _ & Hc & Hb);
    [done|done|vm_compute; reflexivity|done|done|done|].
  destruct (Hb h1 (u64 (0 + interval)) eq_refl (fun _ _ => eq_refl) Hc) as (h3 & E3 & _ & _ & _ & _ & Hc3 & _).
  exists h1, h3. split_and!; [exact E1|exact Htp|exact E3|]. rewrite Hc3. reflexivity.
Defined.
End Asm.
