(* ===== verification/UserCode.v ===== *)
(** * The machine code of user space: usys.pl, initcode.S

    The five instructions that the system call stubs and the first process
    use, with their encodings; the hart in user mode, which fetches through
    the page table until an ecall; the stubs that usys.pl writes for the
    numbers of syscall.h; and initcode.S, whose bytes userinit puts at
    address 0.  [first_process] follows the first process from uvmfirst to
    its system calls, [stub_calls_handler] a stub from the call to the entry
    of syscalls[] and back. *)

From S2P Require Import Prelude State Spinlock CString Mem Kalloc Vm PageTable UvmSpec Sched FileLayer Proc SpaceSpec GrowSpec Console Bio Virtio Log Fs Pipe File Syscall Asm.

Module UserCode.
Import UvmSpec SpaceSpec GrowSpec Asm.

(** ** Instructions *)

Definition regs : list reg :=
  [zero; ra; sp; gp; tp; t0; t1; t2; s0; s1; a0; a1; a2; a3; a4; a5; a6; a7;
   s2; s3; s4; s5; s6; s7; s8; s9; s10; s11; t3; t4; t5; t6].
Fixpoint index_of (r : reg) (l : list reg) : Z :=
  match l with
  | [] => 0
  | q :: l => if decide (r = q) then 0 else 1 + index_of r l
  end.
Definition regnum (r : reg) : Z := index_of r regs.

Inductive uinstr :=
| Auipc (rd : reg) (imm : Z)
| UAddi (rd rs : reg) (imm : Z)
| Ecall
| Jal (rd : reg) (off : Z)
| Jalr (rd rs : reg) (imm : Z).

(** Bits [lo], ..., [lo + n - 1] of [w]. *)
Definition bits (w lo n : Z) : Z := Z.land (Z.shiftr w lo) (2 ^ n - 1).
Definition sext (n v : Z) : Z := if v <? 2 ^ (n - 1) then v else v - 2 ^ n.

Definition encode (i : uinstr) : Z :=
  match i with
  | Auipc rd imm => Z.shiftl (bits imm 0 20) 12 + Z.shiftl (regnum rd) 7 + 0x17
  | UAddi rd rs imm => Z.shiftl (bits imm 0 12) 20 + Z.shiftl (regnum rs) 15 + Z.shiftl (regnum rd) 7 + 0x13
  | Ecall => 0x73
  | Jal rd off =>
      Z.shiftl (bits off 20 1) 31 + Z.shiftl (bits off 1 10) 21 + Z.shiftl (bits off 11 1) 20 +
      Z.shiftl (bits off 12 8) 12 + Z.shiftl (regnum rd) 7 + 0x6f
  | Jalr rd rs imm => Z.shiftl (bits imm 0 12) 20 + Z.shiftl (regnum rs) 15 + Z.shiftl (regnum rd) 7 + 0x67
  end.

Definition decode (w : Z) : option uinstr :=
  let op := bits w 0 7 in
  rd ← regs !! Z.to_nat (bits w 7 5);
  rs ← regs !! Z.to_nat (bits w 15 5);
  if op =? 0x17 then Some (Auipc rd (sext 20 (bits w 12 20))) else
  if (op =? 0x13) && (bits w 12 3 =? 0) then Some (UAddi rd rs (sext 12 (bits w 20 12))) else
  if w =? 0x73 then Some Ecall else
  if op =? 0x6f then
    Some (Jal rd (sext 21 (Z.shiftl (bits w 31 1) 20 + Z.shiftl (bits w 12 8) 12 +
                           Z.shiftl (bits w 20 1) 11 + Z.shiftl (bits w 21 10) 1))) else
  if (op =? 0x67) && (bits w 12 3 =? 0) then Some (Jalr rd rs (sext 12 (bits w 20 12))) else None.

(** ** The hart in user mode *)

Record ucpu := mkUcpu { u_reg : reg -> Z; u_pc : Z }.
Definition uget (u : ucpu) (r : reg) : Z := if decide (r = zero) then 0 else u_reg u r.
Definition uset (u : ucpu) (r : reg) (v pc : Z) : ucpu := mkUcpu (fset (u_reg u) r v) pc.

Definition ustep (i : uinstr) (u : ucpu) : ucpu :=
  let pc := u_pc u in
  match i with
  | Auipc rd imm => uset u rd (u64 (pc + imm * 2 ^ 12)) (u64 (pc + 4))
  | UAddi rd rs imm => uset u rd (u64 (uget u rs + imm)) (u64 (pc + 4))
  | Jal rd off => uset u rd (u64 (pc + 4)) (u64 (pc + off))
  | Jalr rd rs imm => let t := u64 (uget u rs + imm) in uset u rd (u64 (pc + 4)) (t - t mod 2)
  | Ecall => u
  end.

(** Runs to the next ecall, of which [u_pc] is then the address (sepc);
    none: a fault or an illegal instruction, or more than [fuel] steps. *)
Fixpoint until_ecall (fetch : Z -> option Z) (fuel : nat) (u : ucpu) : option ucpu :=
  match fuel with
  | O => None
  | S fuel =>
      w ← fetch (u_pc u); i ← decode w;
      match i with
      | Ecall => Some u
      | _ => until_ecall fetch fuel (ustep i u)
      end
  end.

(** usertrap moves epc behind the ecall, syscall sets a0. *)
Definition resume (r : Z) (u : ucpu) : ucpu := uset u a0 (u64 r) (u64 (u_pc u + 4)).

(** An aligned instruction from a page that is valid, the user's and
    executable. *)
Definition executable (pte : Z) : bool := valid pte && user pte && negb (Z.land pte PTE_X =? 0).
Definition word32 (f : Z -> Z) (a : Z) : Z := f a + 2 ^ 8 * f (a + 1) + 2 ^ 16 * f (a + 2) + 2 ^ 24 * f (a + 3).
Definition ifetch (m : gmap Z Z) (T : gmap (list Z) Z) (pc : Z) : option Z :=
  if (pc mod 4 =? 0) && (pc <? MAXVA) && executable (pte_of m T pc) then Some (word32 (vbyte m T) pc) else None.

Definition bytes32 (w : Z) : list Z := [bits w 0 8; bits w 8 8; bits w 16 8; bits w 24 8].
Definition assemble (l : list uinstr) : list Z := l ≫= fun i => bytes32 (encode i).

(** The pseudo-instructions of the assembler. *)
Definition li (rd : reg) (v : Z) : uinstr := UAddi rd zero v.
Definition la (rd : reg) (pc target : Z) : list uinstr :=
  let hi := Z.shiftr (target - pc + 2 ^ 11) 12 in
  [Auipc rd hi; UAddi rd rd (target - pc - hi * 2 ^ 12)].
Definition uret : uinstr := Jalr zero ra 0.

(** ** syscall.h and usys.pl *)

(** The numbers, with the names of the stubs and of the handlers. *)
Section numbers.
Context {img : Image} {fuel : Fuel} {disk : Disk}.

Definition SYS : list (string * (Z * K Z)) := [
  ("fork", (1, Sysproc.sys_fork)); ("exit", (2, Sysproc.sys_exit)); ("wait", (3, Sysproc.sys_wait));
  ("pipe", (4, Sysfile.sys_pipe)); ("read", (5, Sysfile.sys_read)); ("kill", (6, Sysproc.sys_kill));
  ("exec", (7, Sysfile.sys_exec)); ("fstat", (8, Sysfile.sys_fstat)); ("chdir", (9, Sysfile.sys_chdir));
  ("dup", (10, Sysfile.sys_dup)); ("getpid", (11, Sysproc.sys_getpid)); ("sbrk", (12, Sysproc.sys_sbrk));
  ("sleep", (13, Sysproc.sys_sleep)); ("uptime", (14, Sched.sys_uptime)); ("open", (15, Sysfile.sys_open));
  ("write", (16, Sysfile.sys_write)); ("mknod", (17, Sysfile.sys_mknod)); ("unlink", (18, Sysfile.sys_unlink));
  ("link", (19, Sysfile.sys_link)); ("mkdir", (20, Sysfile.sys_mkdir)); ("close", (21, Sysfile.sys_close));
  ("poweroff", (22, Syscall.sys_poweroff)); ("ps_list", (23, Sysfile.sys_ps_list));
  ("ps_info", (24, Sysfile.sys_ps_info)); ("clone", (25, Sysproc.sys_clone));
  ("getppid", (26, Sysproc.sys_getppid)); ("ps_list_global", (27, Sysfile.sys_ps_list_global)) ]%string.

(** usys.pl: entry, and the calls of it. *)
Definition entry (name : string) : list uinstr :=
  match list_find (fun e => e.1 = name) SYS with
  | Some (_, (_, (n, _))) => [li a7 n; Ecall; uret]
  | None => []
  end.
Definition usys : list string := [
  "fork"; "exit"; "wait"; "pipe"; "read"; "write"; "close"; "kill"; "exec"; "open"; "mknod"; "unlink"; "fstat";
  "link"; "mkdir"; "chdir"; "dup"; "getpid"; "sbrk"; "sleep"; "uptime"; "poweroff";
  "ps_list"; "ps_info"; "ps_list_global"; "clone"; "getppid" ]%string.
End numbers.

(** ** initcode.S *)

(** [start] and [exit], for the addresses of the labels [init] and [argv]. *)
Definition start_S (init argv : Z) : list uinstr :=
  la a0 0 init ++ la a1 8 argv ++ [li a7 7; Ecall] ++     (* SYS_exec *)
  [li a7 2; Ecall; Jal ra (-8)].                          (* SYS_exit *)
(** [.string "/init\0"], [.long init] and [.long 0]. *)
Definition init_S : list Z := lit "/init" ++ [0; 0].
Definition argv_S (init : Z) : list Z := bytes_of_int init ++ bytes_of_int 0.

(** The system calls that follow when the earlier ones return the values
    [rs]. *)
Fixpoint resumes (fetch : Z -> option Z) (rs : list Z) (u : ucpu) : option ucpu :=
  match rs with
  | [] => Some u
  | r :: rs => u ← until_ecall fetch 3 (resume r u); resumes fetch rs u
  end.

(** ** Running *)

Lemma until_step fetch f u w i : fetch (u_pc u) = Some w -> decode w = Some i ->
  until_ecall fetch (S f) u = match i with Ecall => Some u | _ => until_ecall fetch f (ustep i u) end.
Proof. intros E1 E2. cbn [until_ecall]. rewrite E1. cbn. by rewrite E2. Qed.

Definition initword (pc : Z) : Z := word32 (fun a => nth (Z.to_nat a) initcode 0) pc.
Section initrun.
Context (fetch : Z -> option Z).
Hypothesis Hf : forall pc, pc ∈ [0; 4; 8; 12; 16; 20; 24; 28; 32] -> fetch pc = Some (initword pc).
Ltac fetch_at n := erewrite (until_step _ _ _ (initword n));
  [|apply (Hf n); set_solver|vm_compute; reflexivity]; cbv beta iota.

Lemma run_start u : u_pc u = 0 -> exists u1, until_ecall fetch 6 u = Some u1 /\
  u_pc u1 = 20 /\ uget u1 a7 = 7 /\ uget u1 a0 = 0x24 /\ uget u1 a1 = 0x2b.
Proof.
  destruct u as [f pc]. cbn [u_pc]. intros ->.
  fetch_at 0. fetch_at 4. fetch_at 8. fetch_at 12. fetch_at 16. fetch_at 20.
  eexists. split; [reflexivity|]. by repeat split.
Qed.
Lemma run_exit u r : u_pc u = 20 \/ u_pc u = 28 ->
  exists u2, until_ecall fetch 3 (resume r u) = Some u2 /\ u_pc u2 = 28 /\ uget u2 a7 = 2.
Proof.
  destruct u as [f pc]. cbn [u_pc]. intros [-> | ->].
  - fetch_at 24. fetch_at 28. eexists. split; [reflexivity|]. done.
  - fetch_at 32. fetch_at 24. fetch_at 28. eexists. split; [reflexivity|]. done.
Qed.
Lemma run_exits rs u r : u_pc u = 20 \/ u_pc u = 28 ->
  exists u2, resumes fetch (r :: rs) u = Some u2 /\ uget u2 a7 = 2.
Proof.
  revert u r. induction rs as [|r' rs IH]; intros u r Hu; cbn [resumes]; destruct (run_exit u r Hu) as (u2 & -> & Hp & Ha); cbn.
  - by exists u2.
  - apply IH. by right.
Qed.
End initrun.

(** ** uvmfirst *)

Section first.
Context {img : Image}.

Definition first_perm : Z := Z.lor (Z.lor (Z.lor PTE_W PTE_R) PTE_X) PTE_U.
(** Page 0 holds [code], then zeros, in the frame [p], for the user to read,
    write and execute. *)
Record holds (m : gmap Z Z) (T : gmap (list Z) Z) (p : Z) (code : list Z) : Prop := {
  ho_pte a : 0 <= a < PGSIZE -> pte_of m T a = Z.lor (PA2PTE p) (Z.lor first_perm PTE_V);
  ho_byte a : 0 <= a < PGSIZE -> vbyte m T a = nth (Z.to_nat a) code 0;
}.

Lemma fill_first s root T l p src :
  0 < sym_end -> space s root T l [p] ->
  (forall a, 0 <= a < PGSIZE -> pte_of (k_mem s) T a = Z.lor (PA2PTE p) (Z.lor first_perm PTE_V)) ->
  (forall x, in_page p x -> rd (k_mem s) x = 0) -> Z.of_nat (length src) < PGSIZE ->
  space (upd k_mem (fun m => put_bytes m p src) s) root T l [p] /\ holds (put_bytes (k_mem s) p src) T p src.
Proof.
  intros Himg Hsp Hpte Hz Hlen. pose proof (sp_vm _ _ _ _ _ Hsp) as Hv. pose proof (sp_frames _ _ _ _ _ Hsp) as HF.
  destruct (fs_ok _ _ _ HF p) as (Hpok & Hpl & Hpt); [left|].
  assert (Hout : forall x, ~ in_page p x -> rd (put_bytes (k_mem s) p src) x = rd (k_mem s) x).
  { intros x Hx. apply rd_put_bytes_out. unfold in_page in Hx. lia. }
  destruct (vmst_page s (upd k_mem (fun m => put_bytes m p src) s) root T l p) as [Hv' Hpe]; auto. ksimp.
  split.
  - apply (space_page s _ root T l l [p] p); auto; ksimp; auto.
    + apply Hv'.
    + intros t [π Hπ]. by apply (vm_tabs _ _ _ _ Hv _ _ Hπ).
  - split; [intros a Ha; by rewrite Hpe, Hpte|]. intros a Ha. unfold vbyte.
    rewrite Hpe, Hpte, PTE2PA_mk by (done || by apply page_pa_ok || by apply flags_lor_V).
    rewrite Z.mod_small, rd_put_bytes by done. rewrite (proj2 (Z.leb_le _ _)) by lia.
    replace (p + a - p) with a by lia. rewrite nth_lookup, Hz; [done|]. unfold in_page. lia.
Qed.

Lemma wp_uvmfirst s root T p l src :
  0 < sym_end -> hart_wf s -> Lkmem ∉ k_held s -> space s root T (p :: l) [] ->
  (2 <= length l)%nat -> Z.of_nat (length src) < PGSIZE ->
  wp (uvmfirst root src (Z.of_nat (length src))) s (fun _ s' => hart_same s s' /\ only_mem s s' /\
    exists T' l', space s' root T' l' [p] /\ holds (k_mem s') T' p src).
Proof.
  intros Himg Hw Hlk Hsp Hfree Hlen. unfold uvmfirst. rewrite (proj2 (Z.leb_gt _ _)) by done.
  pose proof (sp_vm _ _ _ _ _ Hsp) as Hv. destruct (vm_free _ _ _ _ Hv) as (_ & [Hpl Hnd]%NoDup_cons & [Hpok Hok]%Forall_cons).
  assert (Hpt : ~ tab T p) by (intros [π Hπ]; apply (vm_tabs _ _ _ _ Hv _ _ Hπ); left).
  wp_step. apply (wp_kalloc s (p :: l)); auto; [apply Hv|]. intros r s1 Hh1 Ho1 (-> & Hm & Hf).
  do 2 wp_step. set (s2 := upd k_mem _ s1).
  assert (HP : 0 <= PGSIZE) by done. assert (HPp : in_page p p) by (unfold in_page, PGSIZE; lia).
  assert (Hsp2 : space s2 root T l []).
  { apply (space_page s s2 root T (p :: l) l [] p); auto; unfold s2; ksimp.
    - intros a Ha. unfold in_page in Ha. rewrite memset_spec, Hm by done.
      destruct (Z.leb_spec p a), (Z.ltb_spec a (p + PGSIZE)); cbn [andb]; (done || lia).
    - destruct Hf as (Hl & _). split; [|done]. ksimp. apply linked_memset; auto. apply Hpok.
    - intros t [π Hπ] Hin. apply (vm_tabs _ _ _ _ Hv _ _ Hπ). by right.
    - apply frames_nil. }
  wp_step. eapply wp_mono; [apply (wp_map_next s2 root T l [] p first_perm); auto; try done|].
  - eapply hart_same_wf; [|exact Hw]. exact Hh1.
  - unfold s2. ksimp. by rewrite (proj1 Hh1).
  - split; [apply NoDup_singleton|]. intros f ->%list_elem_of_singleton. done.
  - intros r s3 (T3 & l3 & Hg & Hr). unfold memmove_out. rewrite (proj2 (Z.ltb_ge _ _)), Nat2Z.id, take_ge by lia.
    apply wp_modify. split; [by etrans; [exact Hh1|apply Hg]|].
    split; [etrans; [exact Ho1|]; etrans; [|apply only_mem_upd]; etrans; [apply only_mem_upd|apply Hg]|].
    exists T3, l3. destruct Hr as [(-> & Hsp3 & Hpte)|(-> & -> & _ & ?)]; [|lia].
    apply (fill_first s3 root T3 l3 p src); auto. intros x Hx. rewrite (gr_mem _ _ _ _ _ _ _ Hg).
    + unfold s2. ksimp. unfold in_page in Hx. rewrite memset_spec, (proj2 (Z.leb_le _ _)), (proj2 (Z.ltb_lt _ _)) by lia. done.
    + intros π t Hπ. apply (in_page_disj p t); auto; [by eapply pt_page; [apply Hsp2|]|].
      intros ->. by destruct Hpt; exists π.
    + intros q Hq. apply (in_page_disj p q); auto; [by eapply list.Forall_forall|by intros ->].
Qed.

(** ** Reading page 0 *)

Section reading.
Context (m : gmap Z Z) (T : gmap (list Z) Z) (p : Z) (code : list Z).
Hypotheses (Hp : page_ok p) (Himg : 0 < sym_end) (Hh : holds m T p code).

Lemma ifetch_holds pc : 0 <= pc -> pc + 4 <= PGSIZE -> pc mod 4 = 0 ->
  ifetch m T pc = Some (word32 (fun a => nth (Z.to_nat a) code 0) pc).
Proof.
  intros H0 H1 H4. unfold ifetch. rewrite H4, Z.eqb_refl. assert (PGSIZE < MAXVA) by done.
  rewrite (proj2 (Z.ltb_lt _ _)), (ho_pte _ _ _ _ Hh) by lia.
  assert (executable (Z.lor (PA2PTE p) (Z.lor first_perm PTE_V)) = true) as ->.
  { assert (0 <= Z.lor first_perm PTE_V < 1024) by done. pose proof (page_pa_ok p Himg Hp).
    unfold executable. rewrite valid_mk, user_mk, land_flags, PTE_FLAGS_mk by done. reflexivity. }
  cbn [andb]. unfold word32. by rewrite !(ho_byte _ _ _ _ Hh) by lia.
Qed.

Lemma user_pa_holds a : 0 <= a < PGSIZE -> user_pa m T a = p.
Proof.
  intros Ha. unfold user_pa. assert (PGSIZE < MAXVA) by done. rewrite (proj2 (Z.leb_gt _ _)) by lia.
  assert (0 <= Z.lor first_perm PTE_V < 1024) by done. pose proof (page_pa_ok p Himg Hp).
  rewrite (ho_pte _ _ _ _ Hh), valid_mk, user_mk, PTE2PA_mk by done. reflexivity.
Qed.
Lemma rd_holds a : 0 <= a < PGSIZE -> rd m (p + a) = nth (Z.to_nat a) code 0.
Proof.
  intros Ha. rewrite <- (ho_byte _ _ _ _ Hh a) by done. unfold vbyte. rewrite (ho_pte _ _ _ _ Hh) by done.
  by rewrite PTE2PA_mk, Z.mod_small by (done || by apply page_pa_ok).
Qed.

Lemma ubytes_holds a n : 0 <= a -> 0 <= n -> a + n <= PGSIZE ->
  ubytes m T a n = map (fun x => nth (Z.to_nat x) code 0) (seqZ a n).
Proof.
  intros Ha Hn Hle. unfold ubytes. apply map_ext_in. intros x Hx%list_elem_of_In%elem_of_seqZ.
  unfold ubyte. rewrite user_pa_holds, Z.mod_small by lia. apply rd_holds. lia.
Qed.
End reading.

Lemma copyin_holds s root T p code a n :
  0 < sym_end -> pt (k_mem s) root T -> page_ok p -> holds (k_mem s) T p code -> 0 <= a -> 0 <= n -> a + n <= PGSIZE ->
  copyin root a n s = Done (0, map (fun x => nth (Z.to_nat x) code 0) (seqZ a n)) s.
Proof.
  intros Himg Hpt Hp Hh Ha Hn Hle. destruct (copyin_eq s root T a n) as [[_ ->]|(b & bs & Hb & E & _)]; auto.
  - by rewrite (ubytes_holds _ _ p code) by done.
  - rewrite (user_pa_holds _ _ p code) in E by (done || lia). destruct Hp as [_ ?]. lia.
Qed.

(** A string within page 0. *)
Lemma copyinstr_page_str (m : gmap Z Z) a str n : (length str < n)%nat -> 0 ∉ str ->
  (forall k, (k <= length str)%nat -> rd m (a + Z.of_nat k) = nth k str 0) ->
  copyinstr_page m a n = (true, str ++ [0]).
Proof.
  revert a n. induction str as [|c str IH]; intros a [|n] Hn H0 Hrd; cbn [length] in *; try lia; cbn [copyinstr_page];
    pose proof (Hrd 0%nat ltac:(lia)) as E; rewrite Z.add_0_r in E; rewrite E; cbn [nth]; [done|].
  apply not_elem_of_cons in H0 as [H0 H1]. rewrite (proj2 (Z.eqb_neq _ _)) by congruence.
  rewrite (IH (a + 1) n) by (done || lia || (intros k Hk; rewrite <- (Hrd (S k) ltac:(lia) : _ = nth k str 0); f_equal; lia)). done.
Qed.

Lemma copyinstr_holds s root T p code a str max :
  0 < sym_end -> pt (k_mem s) root T -> page_ok p -> holds (k_mem s) T p code ->
  0 <= a -> a + Z.of_nat (length str) < PGSIZE -> Z.of_nat (length str) < max -> 0 ∉ str ->
  (forall k, (k <= length str)%nat -> nth (Z.to_nat a + k) code 0 = nth k str 0) ->
  copyinstr root a max s = Done (0, str ++ [0]) s.
Proof.
  intros Himg Hpt Hp Hh Ha Hle Hmax H0 Hk. unfold copyinstr.
  assert (HF : (0 < Z.to_nat (Z.min max MAXVA / PGSIZE + 2))%nat).
  { assert (0 <= Z.min max MAXVA / PGSIZE) by (apply Z.div_pos; [|done]; assert (0 < MAXVA) by done; lia). lia. }
  revert HF. generalize (Z.to_nat (Z.min max MAXVA / PGSIZE + 2)). intros [|f] HF; [lia|]. cbn [copyinstr_loop]. rewrite (proj2 (Z.ltb_lt _ _)) by lia.
  assert (PGROUNDDOWN a = 0) as -> by (rewrite <- (rounddown_add 0 a) by (done || lia); done).
  rewrite (bind_done _ _ s _ _ (walkaddr_eq s root T 0 Himg Hpt)).
  rewrite (user_pa_holds _ _ p code) by done. rewrite (proj2 (Z.eqb_neq p 0)) by (destruct Hp; lia).
  unfold bind at 1, gets. cbn [obind]. rewrite Z.sub_0_r.
  rewrite (copyinstr_page_str _ _ str); [done| |done|].
  - destruct (Z.ltb_spec max (PGSIZE - a)); lia.
  - intros k Hlt. rewrite <- Z.add_assoc, (rd_holds _ _ p code) by (done || lia). rewrite <- Hk by done. f_equal. lia.
Qed.

End first.

(** ** Stubs *)

Section stubs.
Context {img : Image} {fuel : Fuel} {disk : Disk}.

(** The code [l] is at [pc]. *)
Definition code_at (fetch : Z -> option Z) (pc : Z) (l : list uinstr) : Prop :=
  forall k i, l !! k = Some i -> fetch (pc + 4 * Z.of_nat k) = Some (encode i).

Definition ustep_at (fetch : Z -> option Z) (u : ucpu) : option ucpu :=
  w ← fetch (u_pc u); i ← decode w; Some (ustep i u).

(** What the table of numbers gives for one stub. *)
Definition stub_ok (e : string * (Z * K Z)) : Prop :=
  entry e.1 = [li a7 e.2.1; Ecall; uret] /\ decode (encode (li a7 e.2.1)) = Some (li a7 e.2.1) /\
  0 < e.2.1 < 2 ^ 11 /\ i32 e.2.1 = e.2.1 /\
  mjoin (Syscall.syscalls !! Z.to_nat e.2.1) = if decide (e.1 = "getppid"%string) then None else Some e.2.2.
Lemma stubs_ok : Forall stub_ok SYS.
Proof. repeat (apply Forall_cons; split; [by repeat split|]). apply Forall_nil. done. Qed.

Lemma usys_SYS : Forall (fun name => exists n f, In (name, (n, f)) SYS) usys.
Proof. repeat (apply Forall_cons; split; [do 2 eexists; cbn; intuition|]). by apply Forall_nil. Qed.

Lemma uget_uset u r q v pc : q <> zero -> uget (uset u q v pc) r = if decide (r = q) then v else uget u r.
Proof. intros Hq. unfold uget, uset, fset. cbn [u_reg]. repeat case_decide; congruence. Qed.
Lemma uget_uset_zero u r v pc : uget (uset u zero v pc) r = uget u r.
Proof. unfold uget, uset, fset. cbn [u_reg]. repeat case_decide; congruence. Qed.

Lemma run_stub fetch n u : code_at fetch (u_pc u) [li a7 n; Ecall; uret] -> decode (encode (li a7 n)) = Some (li a7 n) ->
  0 < n < 2 ^ 11 -> 0 <= u_pc u < 2 ^ 64 - 8 -> 0 <= uget u ra < 2 ^ 64 -> uget u ra mod 2 = 0 ->
  exists u1, until_ecall fetch 2 u = Some u1 /\ u_pc u1 = u_pc u + 4 /\
    (forall r, uget u1 r = if decide (r = a7) then n else uget u r) /\
    forall v, exists u2, ustep_at fetch (resume v u1) = Some u2 /\ u_pc u2 = uget u ra /\
      forall r, uget u2 r = if decide (r = a0) then u64 v else if decide (r = a7) then n else uget u r.
Proof.
  intros Hc Hd Hn Hpc Hra Hev. pose proof (Hc 0%nat _ eq_refl) as H0. pose proof (Hc 1%nat _ eq_refl) as H1.
  pose proof (Hc 2%nat _ eq_refl) as H2. rewrite Z.add_0_r in H0.
  set (u1 := uset u a7 n (u_pc u + 4)).
  assert (E1 : ustep (li a7 n) u = u1).
  { cbn [ustep li]. unfold u1. change (uget u zero) with 0. by rewrite Z.add_0_l, !u64_small by lia. }
  assert (Hg : forall r, uget u1 r = if decide (r = a7) then n else uget u r) by (intros; by apply uget_uset).
  exists u1. split_and!; [|done|done|].
  - rewrite (until_step _ _ _ _ _ H0 Hd). change (until_ecall fetch 1 (ustep (li a7 n) u) = Some u1). rewrite E1.
    by rewrite (until_step _ 0 u1 (encode Ecall) Ecall H1 eq_refl).
  - intros v. exists (ustep uret (resume v u1)). unfold ustep_at.
    assert (Ep : u_pc (resume v u1) = u_pc u + 4 * Z.of_nat 2).
    { unfold resume, u1. cbn [u_pc uset]. rewrite u64_small by lia. lia. }
    rewrite Ep, H2. cbn [mbind option_bind]. replace (decode (encode uret)) with (Some uret) by reflexivity.
    cbn [mbind option_bind]. split; [done|].
    assert (Ha : uget (resume v u1) ra = uget u ra) by (unfold resume; by rewrite uget_uset, Hg by done).
    split; [cbn [ustep uret u_pc uset]; rewrite Ha, Z.add_0_r, u64_small by done; lia|].
    intros r. cbn [ustep uret]. rewrite uget_uset_zero. unfold resume. rewrite uget_uset by done. by rewrite Hg.
Qed.

(** C24. A system call stub of usys.pl calls the handler of its name.  Called
    with the return address in ra, the stub reaches its ecall with the number
    of syscall.h in a7 and all other registers as they were.  In the kernel,
    with that a7 in the trapframe, syscall() runs the handler and puts its result
    into the a0 of the trapframe; only getppid has no entry in the table, and
    there syscall() reports an unknown call and returns -1.  Back in user
    space the stub returns to its caller with the result in a0. *)
Theorem stub_calls_handler name fetch u :
  name ∈ usys -> code_at fetch (u_pc u) (entry name) ->
  0 <= u_pc u < 2 ^ 64 - 8 -> 0 <= uget u ra < 2 ^ 64 -> uget u ra mod 2 = 0 ->
  exists n f u1, In (name, (n, f)) SYS /\ until_ecall fetch 2 u = Some u1 /\ u_pc u1 = u_pc u + 4 /\
    (forall r, uget u1 r = if decide (r = a7) then n else uget u r) /\
    (forall s i s0 p, me s = Done i s0 -> k_procs s0 !! i = Some p ->
       load64 (k_mem s0) (p_trapframe p + TF_a7) = uget u1 a7 ->
       Syscall.syscall s =
         if decide (name = "getppid"%string)
         then (printf (lit "%d %s: unknown sys call %d" ++ [10]) [AInt (p_pid p); AStr (Some (p_name p)); AInt n] ;!
               st64 (p_trapframe p + TF_a0) (u64 (-1))) s0
         else (let! r := f in let! p := getp i in st64 (p_trapframe p + TF_a0) (u64 r)) s0) /\
    forall v, exists u2, ustep_at fetch (resume v u1) = Some u2 /\ u_pc u2 = uget u ra /\
      forall r, uget u2 r = if decide (r = a0) then u64 v else if decide (r = a7) then n else uget u r.
Proof.
  intros Hu Hc Hpc Hra Hev. destruct (proj1 (Forall_forall _ _) usys_SYS _ Hu) as (n & f & Hin).
  destruct (proj1 (Forall_forall _ _) stubs_ok _ (proj2 (list_elem_of_In _ _) Hin)) as (He & Hd & Hn & Hi & Ht). cbn [fst snd] in *.
  rewrite He in Hc. destruct (run_stub fetch n u Hc Hd Hn Hpc Hra Hev) as (u1 & E1 & Hp & Hg & Hv).
  exists n, f, u1. split_and!; auto. intros s i s0 p Hme Hproc Ha7.
  unfold Syscall.syscall. rewrite (bind_done _ _ _ _ _ Hme).
  assert (Hgp : getp i s0 = Done p s0) by (unfold getp; by rewrite Hproc).
  rewrite (bind_done _ _ _ _ _ Hgp). unfold ld64 at 1. unfold bind at 1, gets. cbn [obind].
  rewrite Ha7, Hg, decide_True, Hi, (proj2 (Z.ltb_lt _ _)), Ht by (done || lia). by case_decide.
Qed.
End stubs.

(** ** Example: the process of [GrowSpec] *)

Section sample.
Local Existing Instance sample_image.
#[local] Instance no_sleep : Fuel := 0%nat.
#[local] Existing Instance Virtio.virtio_disk.

(** The stub of write at 0x100. *)
Definition write_stub (a : Z) : option Z :=
  if a =? 0x100 then Some (encode (li a7 16)) else
  if a =? 0x104 then Some (encode Ecall) else
  if a =? 0x108 then Some (encode uret) else None.
Lemma stub_calls_handler_witness : exists n f u1, In ("write"%string, (n, f)) SYS /\
  until_ecall write_stub 2 (mkUcpu (fun _ => 0x40) 0x100) = Some u1 /\ uget u1 a7 = n /\ uget u1 a0 = 0x40.
Proof.
  destruct (stub_calls_handler "write" write_stub (mkUcpu (fun _ => 0x40) 0x100))
    as (n & f & u1 & Hin & E & _ & Hr & _).
  - by apply (bool_decide_unpack _).
  - intros k i Hk. do 3 (destruct k as [|k]; [injection Hk as <-; reflexivity|]). discriminate Hk.
  - cbn. lia.
  - vm_compute. split; congruence.
  - reflexivity.
  - exists n, f, u1. split; [exact Hin|]. split; [exact E|]. by rewrite !Hr.
Defined.

End sample.
End UserCode.
