(* ===== verification/UserLib.v ===== *)
(** * ulib.c, printf.c and the system calls as a user program sees them

    A user program runs against a [world]: the files, the open descriptors
    with what is left to read from them, and what has been written.  A read
    may return less than was asked for, as reads of pipes and the console do:
    [w_sizes] decides how much.  Arrays are lists of bytes; running past the
    end of one is a [Fault].  exit() ends the run with [Panic "exit"] and its
    status in [w_exit]. *)

From S2P Require Import Prelude State CString Console.

Record world := mkWorld {
  w_files : list (list Z * list Z);
  w_fds : gmap Z (list Z);
  w_sizes : list nat;
  w_out : list (Z * list Z);
  w_exit : option Z;
}.
Definition eta_world w := mkWorld (w_files w) (w_fds w) (w_sizes w) (w_out w) (w_exit w).
#[export] Instance upd_w_files : Upd w_files := ltac:(mk_upd w_files eta_world).
#[export] Instance upd_w_fds : Upd w_fds := ltac:(mk_upd w_fds eta_world).
#[export] Instance upd_w_sizes : Upd w_sizes := ltac:(mk_upd w_sizes eta_world).
#[export] Instance upd_w_out : Upd w_out := ltac:(mk_upd w_out eta_world).
#[export] Instance upd_w_exit : Upd w_exit := ltac:(mk_upd w_exit eta_world).
Notation U := (M world).

(** ** System calls *)

Module Sys.

(** At least one byte and at most [n], when there are any left. *)
Definition read_size (n : Z) (more : list Z) (sizes : list nat) : nat :=
  let most := Nat.min (Z.to_nat n) (length more) in
  match sizes with
  | [] => most
  | k :: _ => Nat.min most (Nat.max 1 k)
  end.
(** The bytes read; [None] is a result of -1. *)
Definition read (fd n : Z) : U (option (list Z)) := fun w =>
  match w_fds w !! fd with
  | None => Done None w
  | Some more =>
      let k := read_size n more (w_sizes w) in
      Done (Some (take k more)) (w <| w_fds := <[fd := drop k more]> (w_fds w) |> <| w_sizes ::= tail |>)
  end.
Definition write (fd : Z) (bytes : list Z) : U Z :=
  modify (upd w_out (fun l => l ++ [(fd, bytes)])) ;!
  ret (Z.of_nat (length bytes)).
Definition exit {A} (n : Z) : U A :=
  modify (upd w_exit (fun _ => Some n)) ;!
  panic "exit".
(** The lowest descriptor that is not open. *)
Fixpoint free_fd (k : nat) (fd : Z) (fds : gmap Z (list Z)) : Z :=
  match k with
  | O => fd
  | S k => if fds !! fd is Some _ then free_fd k (fd + 1) fds else fd
  end.
(** open for reading *)
Definition open (name : list Z) : U Z := fun w =>
  match List.find (fun f => bool_decide (f.1 = name)) (w_files w) with
  | None => Done (-1) w
  | Some f =>
      let fd := free_fd (Z.to_nat NOFILE) 0 (w_fds w) in
      if fd <? NOFILE then Done fd (w <| w_fds ::= <[fd := f.2]> |>) else Done (-1) w
  end.
Definition close (fd : Z) : U unit := modify (upd w_fds (delete fd)).

End Sys.

(** ** ulib.c *)

Module Ulib.
Import Sys.

(** Both arrays from the pointers on; the loop copies the NUL too. *)
Fixpoint strcpy (s t : list Z) : option (list Z) :=
  match s, t with
  | _ :: s, b :: t => if b =? 0 then Some (0 :: s) else cons b <$> strcpy s t
  | _, _ => None
  end.
Fixpoint strcmp (p q : list Z) : option Z :=
  match p, q with
  | a :: p, b :: q => if negb (a =? 0) && (a =? b) then strcmp p q else Some (u8 a - u8 b)
  | _, _ => None
  end.
(** Where [c] is in the string, or [Some None] if the string ends first. *)
Fixpoint strchr (s : list Z) (c : Z) : option (option nat) :=
  match s with
  | [] => None
  | a :: s => if a =? 0 then Some None else if a =? c then Some (Some 0%nat) else option_map S <$> strchr s c
  end.
(** fgets of at most [k] characters after the [got] ones already read. *)
Fixpoint fgets_loop (k : nat) (fd : Z) (got : list Z) : U (list Z) :=
  match k with
  | O => ret got
  | S k =>
      let! r := read fd 1 in
      match r with
      | Some (c :: _) =>
          if (c =? 10) || (c =? 13) then ret (got ++ [c]) else fgets_loop k fd (got ++ [c])
      | _ => ret got
      end
  end.
(** The contents of the buffer of [max] characters up to the NUL. *)
Definition fgets (fd max : Z) : U (list Z) :=
  let! got := fgets_loop (Z.to_nat (max - 1)) fd [] in
  ret (got ++ [0]).
Definition gets (max : Z) : U (list Z) := fgets 0 max.

(** Signed overflow is undefined: [None]. *)
Definition in_int (n : Z) : bool := (- 2 ^ 31 <=? n) && (n <? 2 ^ 31).
Fixpoint atoi_loop (s : list Z) (n : Z) : option Z :=
  match s with
  | [] => None
  | c :: s =>
      if (48 <=? c) && (c <=? 57) then
        let n := n * 10 + c - 48 in
        if in_int n then atoi_loop s n else None
      else Some n
  end.
Definition atoi (s : list Z) : option Z := atoi_loop s 0.

(** The same loops as in the kernel. *)
Definition memset (m : gmap Z Z) (dst c n : Z) : gmap Z Z := CString.memset m dst c n.
Definition strlen (s : list Z) : option Z := CString.strlen s.
Definition memcmp (s1 s2 : list Z) (n : nat) : option Z := CString.memcmp s1 s2 n.
(** In memory, unlike the kernel's: forward exactly when the source is above. *)
Definition memmove (m : gmap Z Z) (vdst vsrc n : Z) : gmap Z Z :=
  if vdst <? vsrc then copy_fwd m vdst vsrc (Z.to_nat n)
  else copy_bwd m (vdst + n) (vsrc + n) (Z.to_nat n).
Definition memcpy (m : gmap Z Z) (dst src n : Z) : gmap Z Z := memmove m dst src n.

End Ulib.

(** ** printf.c *)

Module Uprintf.
Import Sys.

Definition udigits : list Z := lit "0123456789ABCDEF".
Definition putc (fd c : Z) : U unit := let! _ := write fd [u8 c] in ret tt.
(** The do-while loop, the last digit first; a 32-bit number has at most 10
    digits in base 10 and 8 in base 16. *)
Fixpoint uint_digits (k : nat) (base x : Z) : list Z :=
  match k with
  | O => []
  | S k =>
      default 0 (udigits !! Z.to_nat (x mod base)) ::
      (if x / base =? 0 then [] else uint_digits k base (x / base))
  end.
Definition uint_text (xx base : Z) (sgn : bool) : list Z :=
  let neg := sgn && (xx <? 0) in
  let x := if neg then u32 (- xx) else u32 xx in
  rev (uint_digits 16 base x ++ (if neg then [45] else [])).
Definition uprintint (fd xx base : Z) (sgn : bool) : U unit := for_list (uint_text xx base sgn) (putc fd).
Definition uptr_text (x : Z) : list Z :=
  (fun i => default 0 (udigits !! Z.to_nat (Z.shiftr x (60 - 4 * Z.of_nat i) mod 16))) <$> seq 0 16.
Definition uprintptr (fd x : Z) : U unit :=
  putc fd 48 ;! putc fd 120 ;! for_list (uptr_text x) (putc fd).

Fixpoint vprintf (fd : Z) (fmt : list Z) (ap : list parg) : U unit :=
  match fmt with
  | [] => ret tt
  | c :: fmt =>
      if negb (c =? 37) then putc fd c ;! vprintf fd fmt ap else
      match fmt with
      | [] => ret tt
      | c :: fmt =>
          if c =? 100 then
            match ap with
            | AInt x :: ap => uprintint fd x 10 true ;! vprintf fd fmt ap
            | _ => fault "va_arg"
            end
          else if c =? 108 then
            match ap with
            | APtr x :: ap => uprintint fd (i32 x) 10 false ;! vprintf fd fmt ap
            | _ => fault "va_arg"
            end
          else if c =? 120 then
            match ap with
            | AInt x :: ap => uprintint fd x 16 false ;! vprintf fd fmt ap
            | _ => fault "va_arg"
            end
          else if c =? 112 then
            match ap with
            | APtr x :: ap => uprintptr fd x ;! vprintf fd fmt ap
            | _ => fault "va_arg"
            end
          else if c =? 115 then
            match ap with
            | AStr s :: ap => for_list (CString.cstr (default (lit "(null)") s)) (putc fd) ;! vprintf fd fmt ap
            | _ => fault "va_arg"
            end
          else if c =? 99 then
            match ap with
            | AInt x :: ap => putc fd x ;! vprintf fd fmt ap
            | _ => fault "va_arg"
            end
          else if c =? 37 then putc fd 37 ;! vprintf fd fmt ap
          else putc fd 37 ;! putc fd c ;! vprintf fd fmt ap
      end
  end.
Definition fprintf (fd : Z) (fmt : list Z) (ap : list parg) : U unit := vprintf fd fmt ap.
Definition uprintf (fmt : list Z) (ap : list parg) : U unit := vprintf 1 fmt ap.

End Uprintf.
