(* ===== verification/Programs.v ===== *)
(** * User programs: grep, wc, cat, echo

    grep.c with its regular-expression matcher, wc.c, cat.c and echo.c.  The
    static buffer is a list of bytes that the loops update by index. *)

From S2P Require Import Prelude State CString Console UserLib.

(** ** Arrays *)

Definition arr_put (bs : list Z) (off : nat) (v : list Z) : list Z := take off bs ++ v ++ drop (off + length v) bs.
(** Storing [v] from [off] on, and memmove inside an array. *)
Definition store (bs : list Z) (off : nat) (v : list Z) : U (list Z) :=
  if decide (off + length v <= length bs)%nat then ret (arr_put bs off v) else fault "store".
Definition arr_move (bs : list Z) (dst src n : nat) : U (list Z) :=
  if decide (src + n <= length bs /\ dst + n <= length bs)%nat then ret (arr_put bs dst (take n (drop src bs))) else fault "memmove".

Module Grep.
Import Sys Ulib Uprintf.

(** The characters of the pattern language. *)
Definition STAR : Z := 42.
Definition DOT : Z := 46.
Definition CARET : Z := 94.
Definition DOLLAR : Z := 36.

(** [matchstar m c text]: the loop with [m] for matchhere of the rest of the
    pattern.  Strings are given without their NUL. *)
Fixpoint matchstar (m : list Z -> bool) (c : Z) (text : list Z) : bool :=
  if m text then true else
  match text with
  | [] => false
  | t :: text => if (t =? c) || (c =? DOT) then matchstar m c text else false
  end.
Fixpoint matchhere (re text : list Z) {struct re} : bool :=
  match re with
  | [] => true
  | c :: re1 =>
      let rest :=
        if (c =? DOLLAR) && bool_decide (re1 = []) then bool_decide (text = [])
        else match text with
             | t :: text => if (c =? DOT) || (c =? t) then matchhere re1 text else false
             | [] => false
             end in
      match re1 with
      | d :: re2 => if d =? STAR then matchstar (matchhere re2) c text else rest
      | [] => rest
      end
  end.
(** The do-while loop of match. *)
Fixpoint match_loop (re text : list Z) {struct text} : bool :=
  if matchhere re text then true else
  match text with
  | [] => false
  | _ :: text => match_loop re text
  end.
Definition match_ (re text : list Z) : bool :=
  match re with
  | c :: re1 => if c =? CARET then matchhere re1 text else match_loop re text
  | [] => match_loop re text
  end.

Definition BUFSIZE : nat := 1024.
(** The inner loop: one round per newline in the buffer. *)
Fixpoint grep_lines (k : nat) (pattern buf : list Z) (p : nat) : U (list Z * nat) :=
  match strchr (drop p buf) 10 with
  | None => fault "strchr"
  | Some None => ret (buf, p)
  | Some (Some i) =>
      match k with
      | O => nofuel
      | S k =>
          let q := (p + i)%nat in
          let buf := <[q := 0]> buf in
          if match_ pattern (cstr (drop p buf)) then
            let buf := <[q := 10]> buf in
            let! _ := write 1 (take (q + 1 - p) (drop p buf)) in
            grep_lines k pattern buf (q + 1)
          else grep_lines k pattern buf (q + 1)
      end
  end.
Fixpoint grep_loop (k : nat) (pattern : list Z) (fd : Z) (buf : list Z) (m : nat) : U (list Z) :=
  let! r := read fd (Z.of_nat BUFSIZE - Z.of_nat m - 1) in
  match r with
  | None | Some [] => ret buf
  | Some bytes =>
      match k with
      | O => nofuel
      | S k =>
          let! buf := store buf m bytes in
          let m := (m + length bytes)%nat in
          let! buf := store buf m [0] in
          let! bp := grep_lines BUFSIZE pattern buf 0 in
          let '(buf, p) := bp in
          if (0 <? m)%nat then
            let m := (m - p)%nat in
            let! buf := arr_move buf 0 p m in
            grep_loop k pattern fd buf m
          else grep_loop k pattern fd buf m
      end
  end.
(** The loop ends with the input; [k] is more than its length.  The static
    buffer keeps what the call leaves in it. *)
Definition grep (k : nat) (pattern : list Z) (fd : Z) (buf : list Z) : U (list Z) := grep_loop k pattern fd buf 0.

(** main with the arguments after argv[0]. *)
Fixpoint grep_files (k : nat) (pattern : list Z) (files : list (list Z)) (buf : list Z) : U unit :=
  match files with
  | [] => ret tt
  | name :: files =>
      let! fd := open name in
      if fd <? 0 then uprintf (lit "grep: cannot open %s" ++ [10]) [AStr (Some name)] ;! exit 1 else
      let! buf := grep k pattern fd buf in
      close fd ;!
      grep_files k pattern files buf
  end.
Definition grep_main (k : nat) (args : list (list Z)) : U unit :=
  let buf := replicate BUFSIZE 0 in
  match args with
  | [] => fprintf 2 (lit "usage: grep pattern [file ...]" ++ [10]) [] ;! exit 1
  | [pattern] => let! _ := grep k pattern 0 buf in exit 0
  | pattern :: files => grep_files k pattern files buf ;! exit 0
  end.

End Grep.

Module Wc.
Import Sys Ulib Uprintf.

Definition blanks : list Z := [32; 13; 9; 10; 11; 0].
(** One character: lines, words, characters, inword. *)
Definition wc_char (st : Z * Z * Z * bool) (b : Z) : Z * Z * Z * bool :=
  let '(l, w, c, inword) := st in
  let c := c + 1 in
  let l := if b =? 10 then l + 1 else l in
  if strchr blanks b is Some (Some _) then (l, w, c, false)
  else if negb inword then (l, w + 1, c, true) else (l, w, c, inword).
Fixpoint wc_loop (k : nat) (fd : Z) (st : Z * Z * Z * bool) : U (option (Z * Z * Z * bool)) :=
  let! r := read fd 512 in
  match r with
  | None => ret None
  | Some [] => ret (Some st)
  | Some bytes => match k with O => nofuel | S k => wc_loop k fd (foldl wc_char st bytes) end
  end.
Definition wc (k : nat) (fd : Z) (name : list Z) : U unit :=
  let! r := wc_loop k fd (0, 0, 0, false) in
  match r with
  | None => uprintf (lit "wc: read error" ++ [10]) [] ;! exit 1
  | Some (l, w, c, _) => uprintf (lit "%d %d %d %s" ++ [10]) [AInt l; AInt w; AInt c; AStr (Some name)]
  end.
Definition wc_main (k : nat) (args : list (list Z)) : U unit :=
  match args with
  | [] => wc k 0 [] ;! exit 0
  | _ =>
      for_list args (fun name =>
        let! fd := open name in
        if fd <? 0 then uprintf (lit "wc: cannot open %s" ++ [10]) [AStr (Some name)] ;! exit 1 else
        wc k fd name ;!
        close fd) ;!
      exit 0
  end.

End Wc.

Module Cat.
Import Sys Uprintf.

Fixpoint cat (k : nat) (fd : Z) : U unit :=
  let! r := read fd 512 in
  match r with
  | None => fprintf 2 (lit "cat: read error" ++ [10]) [] ;! exit 1
  | Some [] => ret tt
  | Some bytes =>
      match k with
      | O => nofuel
      | S k =>
          let! n := write 1 bytes in
          if negb (n =? Z.of_nat (length bytes)) then fprintf 2 (lit "cat: write error" ++ [10]) [] ;! exit 1 else
          cat k fd
      end
  end.
Definition cat_main (k : nat) (args : list (list Z)) : U unit :=
  match args with
  | [] => cat k 0 ;! exit 0
  | _ =>
      for_list args (fun name =>
        let! fd := open name in
        if fd <? 0 then fprintf 2 (lit "cat: cannot open %s" ++ [10]) [AStr (Some name)] ;! exit 1 else
        cat k fd ;!
        close fd) ;!
      exit 0
  end.

(** echo.c *)
Fixpoint echo_loop (args : list (list Z)) : U unit :=
  match args with
  | [] => ret tt
  | a :: args =>
      let! _ := write 1 a in
      let! _ := (if decide (args = []) then write 1 [10] else write 1 [32]) in
      echo_loop args
  end.
Definition echo_main (args : list (list Z)) : U unit := echo_loop args ;! exit 0.

End Cat.
