(* ===== verification/GrepSpec.v ===== *)
(** * What grep, wc and cat compute

    The matcher against a declarative semantics of the pattern language, and
    the programs' output as a function of the input alone, however the reads
    cut it into pieces. *)

From S2P Require Import Prelude State CString Console UserLib Programs.

Module Regex.
Import Grep.

(** ** The pattern language *)

(** A character of a pattern: itself, or any character. *)
Definition atom_ok (c t : Z) : Prop := c = DOT \/ c = t.
Inductive item := One (c : Z) | Star (c : Z) | End.
Fixpoint parse (re : list Z) : list item :=
  match re with
  | [] => []
  | c :: re1 =>
      match re1 with
      | d :: re2 => if d =? STAR then Star c :: parse re2 else One c :: parse re1
      | [] => if c =? DOLLAR then [End] else [One c]
      end
  end.
(** [p] matches a beginning of the text. *)
Inductive matches : list item -> list Z -> Prop :=
| matches_nil t : matches [] t
| matches_end : matches [End] []
| matches_one c p t u : atom_ok c t -> matches p u -> matches (One c :: p) (t :: u)
| matches_star c p u v : Forall (atom_ok c) u -> matches p v -> matches (Star c :: p) (u ++ v).
(** The pattern matches somewhere, or at the beginning when it starts with ^. *)
Definition matches_in (re text : list Z) : Prop :=
  match re with
  | c :: re1 => if c =? CARET then matches (parse re1) text else exists u v, text = u ++ v /\ matches (parse re) v
  | [] => True
  end.

Lemma atom_ok_dec c t : (c =? DOT) || (c =? t) = true <-> atom_ok c t.
Proof. unfold atom_ok. lia. Qed.
Lemma matchstar_spec m (P : list Z -> Prop) c text : (forall t, m t = true <-> P t) ->
  matchstar m c text = true <-> exists u v, text = u ++ v /\ Forall (atom_ok c) u /\ P v.
Proof.
  intros Hm. induction text as [|t text IH]; cbn [matchstar].
  - destruct (m []) eqn:E.
    + split; [|done]. intros _. exists [], []. split_and!; [done|done|by apply Hm].
    + split; [done|]. intros (u & v & Huv & _ & Hv). symmetry in Huv. apply app_nil in Huv as [-> ->]. apply Hm in Hv. congruence.
  - destruct (m (t :: text)) eqn:E.
    + split; [|done]. intros _. exists [], (t :: text). split_and!; [done|done|by apply Hm].
    + destruct ((t =? c) || (c =? DOT)) eqn:Et.
      * rewrite IH. split.
        -- intros (u & v & -> & Hu & Hv). exists (t :: u), v. split_and!; [done| |done]. constructor; [|done]. unfold atom_ok. lia.
        -- intros (u & v & Huv & Hu & Hv). destruct u as [|a u].
           { simpl in Huv. subst v. apply Hm in Hv. congruence. }
           injection Huv as <- ->. inversion Hu; subst. by exists u, v.
      * split; [done|]. intros (u & v & Huv & Hu & Hv). destruct u as [|a u].
        { simpl in Huv. subst v. apply Hm in Hv. congruence. }
        injection Huv as <- ->. inversion Hu as [|? ? Ha]; subst. unfold atom_ok in Ha. lia.
Qed.
Lemma matches_one_inv c p text : matches (One c :: p) text <-> exists t u, text = t :: u /\ atom_ok c t /\ matches p u.
Proof.
  split; [intros H; inversion H; subst; eauto|]. intros (t & u & -> & ? & ?). by constructor.
Qed.
Lemma matches_star_inv c p text : matches (Star c :: p) text <-> exists u v, text = u ++ v /\ Forall (atom_ok c) u /\ matches p v.
Proof.
  split; [intros H; inversion H; subst; eauto|]. intros (u & v & -> & ? & ?). by constructor.
Qed.
Lemma matches_end_inv text : matches [End] text <-> text = [].
Proof. split; [intros H; by inversion H|intros ->; constructor]. Qed.
Lemma matches_nil_iff text : matches [] text <-> True.
Proof. split; [done|constructor]. Qed.

Lemma matchhere_spec re : forall text, matchhere re text = true <-> matches (parse re) text.
Proof.
  remember (length re) as n eqn:Hn. revert re Hn. induction (lt_wf n) as [n _ IH]. intros re -> text.
  destruct re as [|c re1]; [cbn; by rewrite matches_nil_iff|].
  assert (Hone : (match text with t :: text => if (c =? DOT) || (c =? t) then matchhere re1 text else false | [] => false end) = true <->
    matches (One c :: parse re1) text).
  { rewrite matches_one_inv. destruct text as [|t text]; [split; [done|intros (? & ? & ? & _); done]|].
    destruct ((c =? DOT) || (c =? t)) eqn:E.
    - rewrite (IH (length re1)); [|simpl; lia|done]. split.
      + intros H. exists t, text. split_and!; [done|by apply atom_ok_dec|done].
      + intros (? & ? & [= <- <-] & _ & H). done.
    - split; [done|]. intros (? & ? & [= <- <-] & H & _). apply atom_ok_dec in H. congruence. }
  destruct re1 as [|d re2].
  - cbn [matchhere parse]. rewrite bool_decide_true, andb_true_r by done. destruct (c =? DOLLAR).
    + rewrite bool_decide_eq_true, matches_end_inv. done.
    + exact Hone.
  - cbn [parse]. cbn [matchhere]. destruct (d =? STAR).
    + rewrite (matchstar_spec _ (matches (parse re2))), matches_star_inv; [done|]. intros t. apply (IH (length re2)); [simpl; lia|done].
    + rewrite (bool_decide_false (d :: re2 = [])), andb_false_r by done. exact Hone.
Qed.
Lemma match_loop_spec re text : match_loop re text = true <-> exists u v, text = u ++ v /\ matches (parse re) v.
Proof.
  induction text as [|t text IH]; cbn [match_loop]; destruct (matchhere re _) eqn:E.
  - split; [|done]. intros _. exists [], []. split; [done|]. by apply matchhere_spec.
  - split; [done|]. intros (u & v & Huv & H). symmetry in Huv. apply app_nil in Huv as [-> ->]. apply matchhere_spec in H. congruence.
  - split; [|done]. intros _. exists [], (t :: text). split; [done|]. by apply matchhere_spec.
  - rewrite IH. split.
    + intros (u & v & -> & H). by exists (t :: u), v.
    + intros (u & v & Huv & H). destruct u as [|a u]; [simpl in Huv; subst v; apply matchhere_spec in H; congruence|].
      injection Huv as <- ->. by exists u, v.
Qed.

(** C18. grep's matcher decides the pattern language: with ^ at the front the
    rest of the pattern must match at the beginning of the line, otherwise
    anywhere in it, where c* is any number of c, . any character, $ at the
    end the end of the line, and every other character itself. *)
Theorem match_decides re text : match_ re text = true <-> matches_in re text.
Proof.
  unfold match_, matches_in. destruct re as [|c re1].
  - rewrite match_loop_spec. split; [done|]. intros _. exists [], text. split; [done|constructor].
  - destruct (c =? CARET); [apply matchhere_spec|apply match_loop_spec].
Qed.
End Regex.

Module GrepSpec.
Import Sys Ulib Grep.

(** ** Lines *)

(** The lines that end in a newline, and what is left. *)
Fixpoint lines (s : list Z) : list (list Z) * list Z :=
  match s with
  | [] => ([], [])
  | c :: s =>
      let '(ls, r) := lines s in
      if c =? 10 then ([] :: ls, r)
      else match ls with [] => ([], c :: r) | l :: ls => ((c :: l) :: ls, r) end
  end.
Lemma lines_app s t : lines (s ++ t) = ((lines s).1 ++ (lines ((lines s).2 ++ t)).1, (lines ((lines s).2 ++ t)).2).
Proof.
  induction s as [|c s IH]; cbn [app lines].
  - cbn [fst snd app]. by destruct (lines t).
  - rewrite IH. destruct (lines s) as [ls r]. cbn [fst snd]. destruct (c =? 10) eqn:Ec; [done|].
    destruct ls as [|l ls]; cbn [fst snd app]; [|done]. cbn [lines]. rewrite Ec. by destruct (lines (r ++ t)) as [[|l ls] q].
Qed.
Lemma lines_rest s : 10 ∉ (lines s).2.
Proof.
  induction s as [|c s IH]; cbn [lines]; [apply not_elem_of_nil|]. destruct (lines s) as [ls r]. cbn [snd] in *.
  destruct (Z.eqb_spec c 10) as [|Hc]; [done|]. destruct ls; cbn [snd]; [|done]. apply not_elem_of_cons. split; [congruence|done].
Qed.
Lemma lines_concat s : concat (map (fun l => l ++ [10]) (lines s).1) ++ (lines s).2 = s.
Proof.
  induction s as [|c s IH]; cbn [lines]; [done|]. destruct (lines s) as [ls r]. cbn [fst snd] in *.
  destruct (Z.eqb_spec c 10) as [->|Hc]; cbn [fst snd map concat app].
  - by rewrite IH.
  - destruct ls as [|l ls]; cbn [fst snd map concat app] in *; by rewrite IH.
Qed.
Lemma lines_none s : 10 ∉ s -> lines s = ([], s).
Proof.
  induction s as [|c s IH]; intros H; [done|]. apply not_elem_of_cons in H as [Hc H]. cbn [lines]. rewrite IH by done.
  by rewrite (proj2 (Z.eqb_neq c 10)) by congruence.
Qed.
Lemma lines_line l s : 10 ∉ l -> lines (l ++ 10 :: s) = (l :: (lines s).1, (lines s).2).
Proof.
  intros H. rewrite lines_app, (lines_none l) by done. cbn [fst snd app].
  induction l as [|c l IH]; cbn [app lines].
  - rewrite Z.eqb_refl. by destruct (lines s).
  - apply not_elem_of_cons in H as [Hc H]. specialize (IH H). destruct (lines (l ++ 10 :: s)) as [ls r]. cbn [fst snd] in *.
    rewrite (proj2 (Z.eqb_neq c 10)) by congruence. injection IH as -> ->. done.
Qed.
Lemma line_split s : 10 ∈ s -> exists l t, s = l ++ 10 :: t /\ 10 ∉ l.
Proof.
  induction s as [|c s IH]; intros H; [by apply elem_of_nil in H|]. destruct (decide (c = 10)) as [->|Hc].
  - exists [], s. split; [done|apply not_elem_of_nil].
  - destruct IH as (l & t & -> & Hl); [apply elem_of_cons in H as [?|?]; [congruence|done]|].
    exists (c :: l), t. split; [done|]. apply not_elem_of_cons. split; [congruence|done].
Qed.

(** ** Strings in the buffer *)
Lemma strchr_found l t c : c ∉ l -> 0 ∉ l -> c <> 0 -> strchr (l ++ c :: t) c = Some (Some (length l)).
Proof.
  induction l as [|a l IH]; intros Hc H0 Hn; cbn [app strchr length].
  - by rewrite (proj2 (Z.eqb_neq c 0)), Z.eqb_refl.
  - apply not_elem_of_cons in Hc as [Hca Hc]. apply not_elem_of_cons in H0 as [H0a H0].
    rewrite (proj2 (Z.eqb_neq a 0)), (proj2 (Z.eqb_neq a c)) by congruence. by rewrite IH.
Qed.
Lemma strchr_none l t c : c ∉ l -> 0 ∉ l -> strchr (l ++ 0 :: t) c = Some None.
Proof.
  induction l as [|a l IH]; intros Hc H0; cbn [app strchr]; [done|].
  apply not_elem_of_cons in Hc as [Hca Hc]. apply not_elem_of_cons in H0 as [H0a H0].
  rewrite (proj2 (Z.eqb_neq a 0)), (proj2 (Z.eqb_neq a c)) by congruence. by rewrite IH.
Qed.
Lemma cstr_line l t : 0 ∉ l -> cstr (l ++ 0 :: t) = l.
Proof.
  induction l as [|a l IH]; intros H0; cbn [app cstr]; [done|]. apply not_elem_of_cons in H0 as [H0a H0].
  rewrite (proj2 (Z.eqb_neq a 0)) by congruence. by rewrite IH.
Qed.
Lemma insert_middle (a b : list Z) (x y : Z) : <[length a := y]> (a ++ x :: b) = a ++ y :: b.
Proof. rewrite insert_app_r_alt by lia. by rewrite Nat.sub_diag. Qed.

(** The world after some more output. *)
Definition emit (out : list (Z * list Z)) (w : world) : world := w <| w_out ::= fun o => o ++ out |>.
Lemma emit_nil w : emit [] w = w.
Proof. destruct w. unfold emit, upd, upd_w_out. cbn. by rewrite app_nil_r. Qed.
Lemma emit_emit a b w : emit b (emit a w) = emit (a ++ b) w.
Proof. destruct w. unfold emit, upd, upd_w_out. cbn. by rewrite app_assoc. Qed.
(** What grep prints for the lines [ls]. *)
Definition printed (pattern : list Z) (ls : list (list Z)) : list (Z * list Z) :=
  map (fun l => (1, l ++ [10])) (List.filter (match_ pattern) ls).
Lemma grep_lines_step k pattern pre l t post w : 10 ∉ l -> 0 ∉ l ->
  exists line, length line = S (length l) /\
  grep_lines (S k) pattern (pre ++ (l ++ 10 :: t) ++ 0 :: post) (length pre) w =
  grep_lines k pattern ((pre ++ line) ++ t ++ 0 :: post) (length (pre ++ line)) (emit (printed pattern [l]) w).
Proof.
  intros Hl H0. cbn [grep_lines]. rewrite drop_app_length, <- app_assoc. cbn [app]. rewrite strchr_found by done. cbv zeta.
  rewrite (app_assoc pre), <- (length_app pre l), insert_middle, <- app_assoc, drop_app_length, cstr_line by done.
  unfold printed. cbn [List.filter]. destruct (match_ pattern l); cbn [map].
  - exists (l ++ [10]). split; [rewrite length_app; simpl; lia|].
    rewrite (app_assoc pre), insert_middle, <- app_assoc. unfold bind at 1, Sys.write, bind at 1, modify. cbn [obind ret].
    rewrite drop_app_length. replace (length (pre ++ l) + 1 - length pre)%nat with (length (l ++ [10])) by (rewrite !length_app; simpl; lia).
    rewrite (cons_middle 10 l), (app_assoc l), take_app_length.
    rewrite (app_assoc pre (l ++ [10])), !length_app. by rewrite Nat.add_assoc.
  - exists (l ++ [0]). split; [rewrite length_app; simpl; lia|]. rewrite !length_app. simpl.
    rewrite emit_nil, Nat.add_assoc. f_equal. by rewrite <- !app_assoc.
Qed.
Lemma grep_lines_spec k pattern s : forall pre post w, 0 ∉ s -> (length s <= k)%nat ->
  exists pre', length pre' = (length pre + length s - length (lines s).2)%nat /\
  grep_lines k pattern (pre ++ s ++ 0 :: post) (length pre) w =
  Done (pre' ++ (lines s).2 ++ 0 :: post, length pre') (emit (printed pattern (lines s).1) w).
Proof.
  remember (length s) as n eqn:Hn. revert k s Hn. induction (lt_wf n) as [n _ IH]. intros k s -> pre post w H0 Hk.
  destruct (decide (10 ∈ s)) as [Hin|Hin].
  - destruct (line_split s Hin) as (l & t & -> & Hl). rewrite length_app in *. cbn [length] in *.
    destruct k as [|k]; [lia|]. assert (0 ∉ l /\ 0 ∉ t) as [Hl0 Ht0] by set_solver.
    destruct (grep_lines_step k pattern pre l t post w Hl Hl0) as (line & Hlen & ->).
    destruct (IH (length t) ltac:(lia) k t eq_refl (pre ++ line) post (emit (printed pattern [l]) w) Ht0 ltac:(lia))
      as (pre' & Hp & E).
    exists pre'. rewrite lines_line by done. cbn [fst snd]. rewrite E. split; [rewrite Hp, length_app; lia|]. f_equal.
    rewrite emit_emit. f_equal. unfold printed. cbn [List.filter]. by destruct (match_ pattern l).
  - exists pre. rewrite lines_none by done. cbn [fst snd]. split; [lia|]. destruct k; cbn [grep_lines];
      rewrite drop_app_length, strchr_none by done; by rewrite emit_nil.
Qed.

(** ** The reads *)
Lemma first_line_length p t l ls : 10 ∉ p -> (lines (p ++ t)).1 = l :: ls -> (length p <= length l)%nat.
Proof.
  intros Hp. destruct (decide (10 ∈ t)) as [Ht|Ht].
  - destruct (line_split t Ht) as (a & b & -> & Ha). rewrite app_assoc, lines_line by set_solver. cbn [fst].
    intros [= <- _]. rewrite length_app. lia.
  - rewrite lines_none by set_solver. done.
Qed.
Lemma read_size_le n more sizes : (read_size n more sizes <= Z.to_nat n)%nat /\ (read_size n more sizes <= length more)%nat.
Proof. unfold read_size. destruct sizes; lia. Qed.
Lemma read_size_zero n more sizes : read_size n more sizes = 0%nat -> n <= 0 \/ more = [].
Proof. unfold read_size. destruct more; [by right|]. destruct sizes; cbn [length]; lia. Qed.
(** Reading [bytes] behind the partial line and closing the string. *)
Lemma store_line buf m bytes w : length buf = BUFSIZE -> (m + length bytes < BUFSIZE)%nat -> exists b1 post,
  store buf m bytes w = Done b1 w /\ store b1 (m + length bytes) [0] w = Done ((take m buf ++ bytes) ++ 0 :: post) w /\
  length (take m buf ++ bytes) = (m + length bytes)%nat /\ length ((take m buf ++ bytes) ++ 0 :: post) = BUFSIZE.
Proof.
  intros Hl Hm. assert (Hs : length (take m buf ++ bytes) = (m + length bytes)%nat) by (rewrite length_app, length_take; lia).
  unfold store, arr_put. rewrite decide_True by lia. eexists. exists (drop (m + length bytes + 1) (take m buf ++ bytes ++ drop (m + length bytes) buf)).
  split_and!; [reflexivity| |done|].
  - rewrite decide_True by (rewrite !length_app, length_take, length_drop; simpl; lia). unfold ret. do 2 f_equal. rewrite app_assoc. rewrite <- Hs at 1. by rewrite take_app_length.
  - rewrite length_app, Hs. cbn [length]. rewrite length_drop, !length_app, length_take, length_drop. unfold BUFSIZE in *. lia.
Qed.
Lemma arr_move_line pre r t w : exists t', arr_move (pre ++ r ++ t) 0 (length pre) (length r) w = Done (r ++ t') w /\
  length (r ++ t') = length (pre ++ r ++ t).
Proof.
  unfold arr_move. rewrite decide_True by (rewrite !length_app; lia). unfold arr_put. cbn [take app].
  rewrite drop_app_length, take_app_length. exists (drop (0 + length r) (pre ++ r ++ t)). split; [done|].
  rewrite !length_app, length_drop, !length_app. lia.
Qed.
Lemma grep_loop_spec k pattern fd : forall buf m w more,
  length buf = BUFSIZE -> (m < BUFSIZE)%nat -> 10 ∉ take m buf -> 0 ∉ take m buf -> w_fds w !! fd = Some more -> 0 ∉ more ->
  (length more < k)%nat -> (forall l, l ∈ (lines (take m buf ++ more)).1 -> (length l < BUFSIZE - 1)%nat) ->
  exists buf' w', grep_loop k pattern fd buf m w = Done buf' w' /\ length buf' = BUFSIZE /\ w_files w' = w_files w /\
    w_out w' = w_out w ++ printed pattern (lines (take m buf ++ more)).1.
Proof.
  induction k as [|k IH]; intros buf m w more Hl Hm H10 H0 Hfd Hn0 Hk Hlines; [lia|].
  cbn [grep_loop]. unfold bind at 1, read. rewrite Hfd. cbv zeta. set (n := read_size _ _ _). cbn [obind].
  pose proof (read_size_le (Z.of_nat BUFSIZE - Z.of_nat m - 1) more (w_sizes w)) as [Hn1 Hn2]. fold n in Hn1, Hn2.
  assert (Hlt : length (take n more) = n) by (rewrite length_take; lia).
  destruct (take n more) as [|b0 bs0] eqn:Eb.
  - exists buf. eexists. split; [reflexivity|]. split; [done|]. split; [done|]. ksimp.
    assert (Hnil : (lines (take m buf ++ more)).1 = []).
    { destruct (read_size_zero _ _ _ (eq_sym Hlt)) as [Hz| ->]; [|by rewrite app_nil_r, lines_none].
      destruct (lines (take m buf ++ more)).1 as [|l ls] eqn:El; [done|]. pose proof (first_line_length _ _ _ _ H10 El) as Hfl.
      rewrite length_take in Hfl. specialize (Hlines l ltac:(left)). lia. }
    rewrite Hnil. unfold printed. simpl. by rewrite app_nil_r.
  - rewrite <- Eb in *. set (bytes := take n more) in *.
    set (w1 := (w <| w_fds := <[fd := drop n more]> (w_fds w) |>) <| w_sizes ::= tail |>).
    destruct (store_line buf m bytes w1) as (b1 & post & E1 & E2 & Hs & Hl2); [done|unfold BUFSIZE in *; lia|].
    set (s := take m buf ++ bytes) in *.
    assert (Hsp : take m buf ++ more = s ++ drop n more) by (unfold s, bytes; by rewrite <- app_assoc, take_drop).
    assert (0 ∉ s /\ 0 ∉ drop n more) as [Hs0 Hd0].
    { apply not_elem_of_app. rewrite <- Hsp. by apply not_elem_of_app. }
    rewrite (bind_done _ _ _ _ _ E1), (bind_done _ _ _ _ _ E2).
    destruct (grep_lines_spec BUFSIZE pattern s [] post w1) as (pre & Hpre & E3).
    { done. }
    { rewrite length_app in Hl2. lia. }
    cbn [app length] in E3, Hpre. rewrite (bind_done _ _ _ _ _ E3). set (r := (lines s).2) in *.
    assert ((length r <= length s)%nat /\ 0 ∉ r) as [Hr Hr0].
    { pose proof (lines_concat s) as Hc. fold r in Hc. split; [rewrite <- Hc, length_app; lia|].
      rewrite <- Hc in Hs0. by apply not_elem_of_app in Hs0 as [_ ?]. }
    rewrite (proj2 (Nat.ltb_lt 0 _)) by (rewrite Eb; simpl; lia).
    replace (m + length bytes - length pre)%nat with (length r) by lia.
    destruct (arr_move_line pre r (0 :: post) (emit (printed pattern (lines s).1) w1)) as (t' & E4 & Hl4).
    rewrite (bind_done _ _ _ _ _ E4).
    assert (Htake : take (length r) (r ++ t') = r) by apply take_app_length.
    rewrite Hsp, lines_app in Hlines |- *. fold r in Hlines |- *. cbn [fst] in Hlines |- *.
    destruct (IH (r ++ t') (length r) (emit (printed pattern (lines s).1) w1) (drop n more)) as (buf' & w' & E5 & H5 & H6 & H7);
      rewrite ?Htake; try done.
    + rewrite Hl4. rewrite length_app in Hl2 |- *. rewrite length_app. cbn [length] in *. lia.
    + unfold BUFSIZE in *. lia.
    + apply lines_rest.
    + apply lookup_insert_eq.
    + rewrite length_drop. assert (0 < n)%nat by (rewrite <- Hlt, Eb; simpl; lia). lia.
    + intros l Hin. apply Hlines, elem_of_app. by right.
    + exists buf', w'. split_and!; [exact E5|done|by rewrite H6|]. rewrite H7, Htake.
      change (w_out (emit (printed pattern (lines s).1) w1)) with (w_out w ++ printed pattern (lines s).1).
      unfold printed. by rewrite List.filter_app, map_app, app_assoc.
Qed.

(** C25. grep prints, in order and each once, exactly the lines of its input
    that the pattern matches, however the input arrives in pieces: for every
    input without NUL bytes whose lines are shorter than the buffer, it reads
    the input to its end and returns, and its output is those lines with
    their newlines.  A last line without a newline is not printed. *)
Theorem grep_prints_matches k pattern fd buf w input : length buf = BUFSIZE -> w_fds w !! fd = Some input -> 0 ∉ input ->
  (length input < k)%nat -> (forall l, l ∈ (lines input).1 -> (length l < BUFSIZE - 1)%nat) ->
  exists buf' w', grep k pattern fd buf w = Done buf' w' /\ length buf' = BUFSIZE /\ w_files w' = w_files w /\
    w_out w' = w_out w ++ map (fun l => (1, l ++ [10])) (List.filter (match_ pattern) (lines input).1).
Proof.
  intros Hl Hfd H0 Hk Hlines. unfold grep. apply (grep_loop_spec k pattern fd buf 0 w input); try done; [unfold BUFSIZE; lia|apply not_elem_of_nil..].
Qed.
(** Input that arrives in pieces of 3 and 1 bytes. *)
Definition sample_world : world := mkWorld [] {[ 0 := lit "ab" ++ [10] ++ lit "cab" ++ [10] ++ lit "xay" ++ [10] ++ lit "ab" ]} [3; 1; 3; 1; 1]%nat [] None.
Lemma grep_prints_matches_witness : exists buf' w', grep 20 (lit "a.*") 0 (replicate BUFSIZE 0) sample_world = Done buf' w' /\
  w_out w' = [(1, lit "ab" ++ [10]); (1, lit "cab" ++ [10]); (1, lit "xay" ++ [10])].
Proof.
  destruct (grep_prints_matches 20 (lit "a.*") 0 (replicate BUFSIZE 0) sample_world
    (lit "ab" ++ [10] ++ lit "cab" ++ [10] ++ lit "xay" ++ [10] ++ lit "ab")) as (buf' & w' & E & _ & _ & Ho).
  - reflexivity.
  - reflexivity.
  - refine (bool_decide_unpack _ _). vm_compute. exact I.
  - vm_compute. lia.
  - intros l Hl. assert (Hall : forallb (fun l => length l <? BUFSIZE - 1)%nat (lines (lit "ab" ++ [10] ++ lit "cab" ++ [10] ++ lit "xay" ++ [10] ++ lit "ab")).1 = true)
      by (vm_compute; reflexivity).
    rewrite forallb_forall in Hall. apply list_elem_of_In, Hall, Nat.ltb_lt in Hl. done.
  - exists buf', w'. split; [exact E|]. rewrite Ho. vm_compute. reflexivity.
Defined.

(** ** wc and cat *)
Lemma wc_loop_spec k fd : forall st w more, w_fds w !! fd = Some more -> (length more < k)%nat ->
  exists w', Wc.wc_loop k fd st w = Done (Some (foldl Wc.wc_char st more)) w' /\ w_out w' = w_out w /\ w_fds w' !! fd = Some [].
Proof.
  induction k as [|k IH]; intros st w more Hfd Hk; [lia|]. cbn [Wc.wc_loop]. unfold bind at 1, read. rewrite Hfd. cbv zeta.
  set (n := read_size _ _ _). cbn [obind]. pose proof (read_size_le 512 more (w_sizes w)) as [_ Hn]. fold n in Hn.
  assert (Hlt : length (take n more) = n) by (rewrite length_take; lia).
  destruct (take n more) as [|b0 bs0] eqn:Eb.
  - destruct (read_size_zero _ _ _ (eq_sym Hlt)) as [?| ->]; [lia|]. eexists. split; [reflexivity|]. split; [done|].
    ksimp. rewrite drop_nil. apply lookup_insert_eq.
  - rewrite <- Eb in *. assert (0 < n)%nat by (rewrite <- Hlt, Eb; simpl; lia).
    destruct (IH (foldl Wc.wc_char st (take n more)) ((w <| w_fds := <[fd := drop n more]> (w_fds w) |>) <| w_sizes ::= tail |>) (drop n more))
      as (w' & E & H1 & H2); [apply lookup_insert_eq|rewrite length_drop; lia|].
    exists w'. rewrite <- foldl_app, take_drop in E. done.
Qed.
Lemma cat_spec k fd : forall w more, w_fds w !! fd = Some more -> (length more < k)%nat ->
  exists w', Cat.cat k fd w = Done tt w' /\ concat (w_out w').*2 = concat (w_out w).*2 ++ more.
Proof.
  induction k as [|k IH]; intros w more Hfd Hk; [lia|]. cbn [Cat.cat]. unfold bind at 1, read. rewrite Hfd. cbv zeta.
  set (n := read_size _ _ _). cbn [obind]. pose proof (read_size_le 512 more (w_sizes w)) as [_ Hn]. fold n in Hn.
  assert (Hlt : length (take n more) = n) by (rewrite length_take; lia).
  destruct (take n more) as [|b0 bs0] eqn:Eb.
  - destruct (read_size_zero _ _ _ (eq_sym Hlt)) as [?| ->]; [lia|]. eexists. split; [reflexivity|]. ksimp. by rewrite app_nil_r.
  - rewrite <- Eb in *. assert (0 < n)%nat by (rewrite <- Hlt, Eb; simpl; lia).
    unfold bind, Sys.write, modify. cbn [obind bind ret]. rewrite Z.eqb_refl. cbn [negb].
    set (w1 := _ <| w_out ::= _ |>). destruct (IH w1 (drop n more)) as (w' & E & H1); [apply lookup_insert_eq|rewrite length_drop; lia|].
    exists w'. split; [exact E|]. rewrite H1. unfold w1. ksimp. rewrite fmap_app, concat_app. cbn [fmap list_fmap snd concat].
    by rewrite app_nil_r, <- app_assoc, take_drop.
Qed.
End GrepSpec.
