(* ===== verification/Umalloc.v ===== *)
(** * umalloc.c: malloc and free

    The headers of the blocks by address; a header is 16 bytes, the unit of
    sizes.  sbrk gives out addresses from the break on, up to a limit.  The
    free list is circular, through the static header [base], and in the order
    of the addresses. *)

From S2P Require Import Prelude State.

Record header := mkHeader { s_ptr : Z; s_size : Z }.
Definition eta_header h := mkHeader (s_ptr h) (s_size h).
#[export] Instance upd_s_ptr : Upd s_ptr := ltac:(mk_upd s_ptr eta_header).
#[export] Instance upd_s_size : Upd s_size := ltac:(mk_upd s_size eta_header).
Record heap := mkHeap {
  hp_mem : gmap Z header;
  hp_freep : Z;
  hp_brk : Z;
  hp_limit : Z;
}.
Definition eta_heap h := mkHeap (hp_mem h) (hp_freep h) (hp_brk h) (hp_limit h).
#[export] Instance upd_hp_mem : Upd hp_mem := ltac:(mk_upd hp_mem eta_heap).
#[export] Instance upd_hp_freep : Upd hp_freep := ltac:(mk_upd hp_freep eta_heap).
#[export] Instance upd_hp_brk : Upd hp_brk := ltac:(mk_upd hp_brk eta_heap).
Notation H := (M heap).

Module Umalloc.

(** sizeof(Header) *)
Definition UNIT : Z := 16.

Section malloc.
(** The address of the static header. *)
Context (base : Z).

(** A header is read where one was written, and written below the break. *)
Definition hdr (a : Z) : H header := 
  let! m := gets hp_mem in
  match m !! a with Some x => ret x | None => fault "header" end.
Definition set_hdr (a : Z) (f : header -> header) : H unit :=
  let! h := gets id in
  if (a =? base) || (a + UNIT <=? hp_brk h)
  then modify (upd hp_mem (fun m => <[a := f (default (mkHeader 0 0) (m !! a))]> m))
  else fault "header".
(** sbrk takes an int; it returns the old break, or -1. *)
Definition sbrk (n : Z) : H Z :=
  let! h := gets id in
  let brk := hp_brk h + i32 n in
  if hp_limit h <? brk then ret (-1) else
  modify (upd hp_brk (fun _ => brk)) ;!
  ret (hp_brk h).

(** The for loop of free: the free block after which [bp] belongs. *)
Fixpoint free_find (k : nat) (bp p : Z) : H Z :=
  let! x := hdr p in
  if (p <? bp) && (bp <? s_ptr x) then ret p else
  if (s_ptr x <=? p) && ((p <? bp) || (bp <? s_ptr x)) then ret p else
  match k with
  | O => nofuel
  | S k => free_find k bp (s_ptr x)
  end.
Definition free (k : nat) (ap : Z) : H unit :=
  let bp := ap - UNIT in
  let! freep := gets hp_freep in
  let! p := free_find k bp freep in
  let! b := hdr bp in
  let! x := hdr p in
  (if bp + UNIT * s_size b =? s_ptr x then
     let! nx := hdr (s_ptr x) in
     set_hdr bp (upd s_size (fun n => u32 (n + s_size nx))) ;!
     set_hdr bp (upd s_ptr (fun _ => s_ptr nx))
   else set_hdr bp (upd s_ptr (fun _ => s_ptr x))) ;!
  let! b := hdr bp in
  let! x := hdr p in
  (if p + UNIT * s_size x =? bp then
     set_hdr p (upd s_size (fun n => u32 (n + s_size b))) ;!
     set_hdr p (upd s_ptr (fun _ => s_ptr b))
   else set_hdr p (upd s_ptr (fun _ => bp))) ;!
  modify (upd hp_freep (fun _ => p)).

Definition morecore (k : nat) (nu : Z) : H Z :=
  let nu := if nu <? 4096 then 4096 else nu in
  let! p := sbrk (nu * UNIT) in
  if p =? -1 then ret 0 else
  set_hdr p (upd s_size (fun _ => nu)) ;!
  free k (p + UNIT) ;!
  gets hp_freep.

Fixpoint malloc_loop (k : nat) (nunits prevp p : Z) : H Z :=
  let! x := hdr p in
  if nunits <=? s_size x then
    (if s_size x =? nunits then
       set_hdr prevp (upd s_ptr (fun _ => s_ptr x)) ;!
       modify (upd hp_freep (fun _ => prevp)) ;!
       ret (p + UNIT)
     else
       set_hdr p (upd s_size (fun n => n - nunits)) ;!
       let p := p + UNIT * (s_size x - nunits) in
       set_hdr p (upd s_size (fun _ => nunits)) ;!
       modify (upd hp_freep (fun _ => prevp)) ;!
       ret (p + UNIT))
  else
    let! freep := gets hp_freep in
    let next q :=
      match k with
      | O => nofuel
      | S k => let! x := hdr q in malloc_loop k nunits q (s_ptr x)
      end in
    if p =? freep then
      let! q := morecore k nunits in
      if q =? 0 then ret 0 else next q
    else next p.
Definition units (nbytes : Z) : Z := (nbytes + UNIT - 1) / UNIT + 1.
Definition malloc (k : nat) (nbytes : Z) : H Z :=
  let nunits := u32 (units nbytes) in
  let! freep := gets hp_freep in
  let! prevp := (if freep =? 0 then
      set_hdr base (upd s_ptr (fun _ => base)) ;!
      modify (upd hp_freep (fun _ => base)) ;!
      set_hdr base (upd s_size (fun _ => 0)) ;!
      ret base
    else ret freep) in
  let! x := hdr prevp in
  malloc_loop k nunits prevp (s_ptr x).
End malloc.
End Umalloc.
