(* ===== verification/MallocSpec.v ===== *)
(** * malloc and free keep the heap in order

    The heap between its start and the break is tiled by blocks; each is
    free, and then on the free list, or allocated.  The free list is circular
    and in the order of the addresses, and no two free blocks touch. *)

From Stdlib Require Import Sorted.
From S2P Require Import Prelude State Umalloc.

Module MallocSpec.
Import Umalloc.

(** ** Blocks *)

(** Address and size in units; the address behind the block. *)
Notation blk := (Z * Z)%type.
Definition fin (x : blk) : Z := x.1 + UNIT * x.2.
(** Blocks that follow each other from [s] to [e]. *)
Fixpoint tiles (s : Z) (l : list blk) (e : Z) : Prop :=
  match l with
  | [] => s = e
  | x :: l => x.1 = s /\ 1 <= x.2 /\ tiles (fin x) l e
  end.
(** Blocks in ascending order with gaps between them. *)
Fixpoint spaced (lo : Z) (l : list blk) : Prop :=
  match l with
  | [] => True
  | x :: l => lo < x.1 /\ 1 <= x.2 /\ spaced (fin x) l
  end.
(** The headers of the blocks of the list link each to the next, the last one
    to [e]. *)
Definition head_or (l : list blk) (e : Z) : Z := match l with [] => e | x :: _ => x.1 end.
Fixpoint links (m : gmap Z header) (l : list blk) (e : Z) : Prop :=
  match l with
  | [] => True
  | x :: l => m !! x.1 = Some (mkHeader (head_or l e) x.2) /\ links m l e
  end.

Lemma tiles_app s l1 l2 e : tiles s (l1 ++ l2) e <-> exists t, tiles s l1 t /\ tiles t l2 e.
Proof.
  revert s. induction l1 as [|x l1 IH]; intros s; cbn [app tiles].
  - split; [intros H; by exists s|intros (t & -> & H); done].
  - rewrite IH. naive_solver.
Qed.
Lemma tiles_le s l e : tiles s l e -> s <= e.
Proof.
  revert s. induction l as [|x l IH]; intros s; cbn [tiles]; [lia|]. intros (H1 & H2 & H3%IH). unfold fin, UNIT in H3. lia.
Qed.
Lemma tiles_in s l e x : tiles s l e -> x ∈ l -> s <= x.1 /\ fin x <= e /\ 1 <= x.2.
Proof.
  intros Ht (l1 & l2 & ->)%list_elem_of_split. apply tiles_app in Ht as (t & H1 & H2). cbn [tiles] in H2. destruct H2 as (Hx & H2 & H3).
  apply tiles_le in H1, H3. lia.
Qed.
(** Two tiles do not overlap, unless they are the same. *)
Lemma tiles_apart s l e l1 x l2 y : tiles s l e -> l = l1 ++ x :: l2 -> y ∈ l1 ++ l2 -> fin y <= x.1 \/ fin x <= y.1.
Proof.
  intros Ht -> Hy. apply tiles_app in Ht as (t & H1 & H2). cbn [tiles] in H2. destruct H2 as (Hx & H2 & H3).
  apply elem_of_app in Hy as [Hy|Hy].
  - left. apply (tiles_in _ _ _ _ H1) in Hy. lia.
  - right. by apply (tiles_in _ _ _ _ H3) in Hy as [? _].
Qed.
(** Tiles that touch are neighbours. *)
Lemma tiles_touch s l e x y : tiles s l e -> x ∈ l -> y ∈ l -> fin x = y.1 -> exists l1 l2, l = l1 ++ x :: y :: l2.
Proof.
  intros Ht (l1 & l2 & ->)%list_elem_of_split Hy E. exists l1. pose proof Ht as Ht'.
  apply tiles_app in Ht as (t & H1 & H2). cbn [tiles] in H2. destruct H2 as (Hx & H2 & H3).
  assert (Hyy : y ∈ l2).
  { apply elem_of_app in Hy as [Hy|Hy].
    - apply (tiles_in _ _ _ _ H1) in Hy. unfold fin, UNIT in *. lia.
    - apply elem_of_cons in Hy as [->|Hy]; [|done]. unfold fin, UNIT in E. lia. }
  destruct l2 as [|z l2]; [by apply elem_of_nil in Hyy|]. exists l2. cbn [tiles] in H3. destruct H3 as (Hz & H4 & H5).
  apply elem_of_cons in Hyy as [->|Hyy]; [done|]. apply (tiles_in _ _ _ _ H5) in Hyy. unfold fin, UNIT in *. lia.
Qed.

Lemma head_or_app l1 l2 e : head_or (l1 ++ l2) e = head_or l1 (head_or l2 e).
Proof. by destruct l1. Qed.
Lemma links_app m l1 l2 e : links m (l1 ++ l2) e <-> links m l1 (head_or l2 e) /\ links m l2 e.
Proof.
  induction l1 as [|x l1 IH]; cbn [app links]; [tauto|]. rewrite IH, head_or_app. tauto.
Qed.
Lemma links_insert m l e a h : a ∉ l.*1 -> links (<[a := h]> m) l e <-> links m l e.
Proof.
  induction l as [|x l IH]; intros Ha; cbn [links]; [done|]. cbn [fmap list_fmap] in Ha. apply not_elem_of_cons in Ha as [Hx Ha].
  rewrite IH, lookup_insert_ne by done. done.
Qed.
Lemma spaced_app lo l1 l2 : spaced lo (l1 ++ l2) <-> spaced lo l1 /\ spaced (default lo (fin <$> last l1)) l2.
Proof.
  revert lo. induction l1 as [|x l1 IH]; intros lo; cbn [app spaced]; [cbn; tauto|]. rewrite IH.
  assert (Hl : default (fin x) (fin <$> last l1) = default lo (fin <$> last (x :: l1))).
  { destruct l1 as [|y l1]; [done|]. rewrite last_cons_cons. by destruct (last (y :: l1)) eqn:E; [|apply last_None in E]. }
  rewrite Hl. tauto.
Qed.
Lemma spaced_in lo l x : spaced lo l -> x ∈ l -> lo < x.1 /\ 1 <= x.2.
Proof.
  revert lo. induction l as [|y l IH]; intros lo Hs Hx; [by apply elem_of_nil in Hx|]. cbn [spaced] in Hs. destruct Hs as (H1 & H2 & H3).
  apply elem_of_cons in Hx as [->|Hx]; [done|]. destruct (IH _ H3 Hx). unfold fin, UNIT in *. split; [lia|done].
Qed.

(** ** The heap *)
Section heap.
Context (base heap0 : Z).
Context (Hbase : 0 < base) (Hheap : base + UNIT <= heap0).

Definition tiled (brk : Z) (l : list blk) : Prop := exists t, t ≡ₚ l /\ tiles heap0 t brk.
Record heap_ok (h : heap) (fl al : list blk) : Prop := {
  ok_links : links (hp_mem h) ((base, 0) :: fl) base;
  ok_freep : hp_freep h ∈ ((base, 0) :: fl).*1;
  ok_spaced : spaced base fl;
  ok_alloc x : x ∈ al -> exists p, hp_mem h !! x.1 = Some (mkHeader p x.2);
  ok_tiles : tiled (hp_brk h) (fl ++ al);
  ok_limit : hp_brk h <= hp_limit h /\ hp_limit h < heap0 + 2 ^ 36;
}.

Definition wm (h : heap) (m : gmap Z header) : heap := mkHeap m (hp_freep h) (hp_brk h) (hp_limit h).
Lemma wp_hdr a x h (Q : header -> heap -> Prop) : hp_mem h !! a = Some x -> Q x h -> wp (hdr a) h Q.
Proof. intros E HQ. unfold hdr. wp_step. wp_step. rewrite E. by wp_step. Qed.
Lemma wp_set a f h (Q : unit -> heap -> Prop) :
  a = base \/ a + UNIT <= hp_brk h ->
  Q tt (wm h (<[a := f (default (mkHeader 0 0) (hp_mem h !! a))]> (hp_mem h))) -> wp (set_hdr base a f) h Q.
Proof.
  intros Ha HQ. unfold set_hdr. wp_step. wp_step. unfold id.
  replace ((a =? base) || (a + UNIT <=? hp_brk h)) with true by (destruct Ha; lia). by wp_step.
Qed.
Lemma wp_set_some a x f h (Q : unit -> heap -> Prop) :
  hp_mem h !! a = Some x -> a = base \/ a + UNIT <= hp_brk h ->
  Q tt (wm h (<[a := f x]> (hp_mem h))) -> wp (set_hdr base a f) h Q.
Proof. intros E Ha HQ. apply wp_set; [done|]. by rewrite E. Qed.

(** *** What the tiling says of the blocks *)
Lemma tiles_NoDup s l e : tiles s l e -> NoDup (l.*1).
Proof.
  revert s. induction l as [|x l IH]; intros s; cbn [tiles fmap list_fmap]; [intros _; constructor|]. intros (H1 & H2 & H3).
  constructor; [|eauto]. intros (y & Hy & Hin)%list_elem_of_fmap. apply (tiles_in _ _ _ _ H3) in Hin. unfold fin, UNIT in *. lia.
Qed.
Lemma tiled_perm brk l l' : l ≡ₚ l' -> tiled brk l -> tiled brk l'.
Proof. intros Hp (t & Ht & H). exists t. split; [by rewrite Ht|done]. Qed.
Lemma tiled_in brk l x : tiled brk l -> x ∈ l -> heap0 <= x.1 /\ fin x <= brk /\ 1 <= x.2.
Proof. intros (t & Hp & Ht) Hx. apply (tiles_in _ _ _ _ Ht). by rewrite Hp. Qed.
Lemma tiled_apart brk x y r : tiled brk (x :: y :: r) -> fin y <= x.1 \/ fin x <= y.1.
Proof.
  intros (t & Hp & Ht). apply Permutation_cons_inv_r in Hp as (l1 & l2 & -> & Hp). eapply tiles_apart; [exact Ht|done|]. rewrite <- Hp. left.
Qed.
Lemma tiled_join brk x y r : tiled brk (x :: y :: r) -> fin x = y.1 -> tiled brk ((x.1, x.2 + y.2) :: r).
Proof.
  intros (t & Hp & Ht) E. assert (Hx : x ∈ t) by (rewrite Hp; left). assert (Hy : y ∈ t) by (rewrite Hp; right; left).
  destruct (tiles_touch _ _ _ _ _ Ht Hx Hy E) as (l1 & l2 & ->). exists (l1 ++ (x.1, x.2 + y.2) :: l2). split.
  - rewrite <- Permutation_middle. constructor. rewrite <- !Permutation_middle in Hp. by do 2 apply Permutation_cons_inv in Hp.
  - apply tiles_app in Ht as (t & H1 & H2). apply tiles_app. exists t. split; [done|]. cbn [tiles] in *.
    destruct H2 as (? & ? & _ & ? & H2). replace (fin (x.1, x.2 + y.2)) with (fin y) by (unfold fin, UNIT in *; cbn in *; lia). cbn in *. naive_solver lia.
Qed.
Lemma tiled_split brk x n r : tiled brk (x :: r) -> 1 <= n < x.2 -> tiled brk ((x.1, x.2 - n) :: (x.1 + UNIT * (x.2 - n), n) :: r).
Proof.
  intros (t & Hp & Ht) Hn. apply Permutation_cons_inv_r in Hp as (l1 & l2 & -> & Hp).
  exists (l1 ++ (x.1, x.2 - n) :: (x.1 + UNIT * (x.2 - n), n) :: l2). split.
  - rewrite <- !Permutation_middle. by rewrite Hp.
  - apply tiles_app in Ht as (t & H1 & H2). apply tiles_app. exists t. split; [done|]. cbn [tiles fst snd] in *. unfold fin in *. cbn [fst snd] in *.
    destruct H2 as (? & ? & H2). replace (x.1 + UNIT * (x.2 - n) + UNIT * n) with (x.1 + UNIT * x.2) by lia. naive_solver lia.
Qed.
Lemma tiled_size brk x y r : tiled brk (x :: y :: r) -> fin x = y.1 -> brk < heap0 + 2 ^ 36 -> 0 <= x.2 + y.2 < 2 ^ 32.
Proof.
  intros Ht E Hb. assert (Hx : x ∈ x :: y :: r) by left. assert (Hy : y ∈ x :: y :: r) by (right; left).
  apply (tiled_in _ _ _ Ht) in Hx, Hy. unfold fin, UNIT in *. lia.
Qed.
Lemma tiled_NoDup brk l : tiled brk l -> NoDup l.*1.
Proof. intros (t & Hp & Ht). rewrite <- Hp. by eapply tiles_NoDup. Qed.
(** The headers of all blocks are different, and none of them is [base]. *)
Lemma block_NoDup h fl al : heap_ok h fl al -> NoDup (base :: (fl ++ al).*1).
Proof.
  intros Ok. constructor.
  - intros (x & Hx & Hin)%list_elem_of_fmap. apply (tiled_in _ _ _ (ok_tiles _ _ _ Ok)) in Hin. unfold UNIT in *. lia.
  - apply (tiled_NoDup (hp_brk h)), Ok.
Qed.

(** *** free: finding the place *)
Definition asc : list blk -> Prop := StronglySorted (fun x y => x.1 < y.1).
Lemma spaced_asc lo l : spaced lo l -> asc l.
Proof.
  revert lo. induction l as [|x l IH]; intros lo; cbn [spaced]; [intros _; constructor|]. intros (H1 & H2 & H3).
  constructor; [by eapply IH|]. apply Forall_forall. intros y Hy. destruct (spaced_in _ _ _ H3 Hy). unfold fin, UNIT in *. lia.
Qed.
Lemma asc_app_r l1 l2 : asc (l1 ++ l2) -> asc l2.
Proof. induction l1 as [|x l1 IH]; [done|]. intros Hs. apply IH. by inversion Hs. Qed.
Lemma ring_asc fl : spaced base fl -> asc ((base, 0) :: fl).
Proof.
  intros Hs. constructor; [by eapply spaced_asc|]. apply Forall_forall. intros y Hy. by destruct (spaced_in _ _ _ Hs Hy).
Qed.
Lemma asc_split l a : asc l -> a ∉ l.*1 ->
  exists l1 l2, l = l1 ++ l2 /\ (forall x, x ∈ l1 -> x.1 < a) /\ (forall x, x ∈ l2 -> a < x.1).
Proof.
  induction l as [|x l IH]; intros Hs Ha.
  - exists [], []. repeat split; intros y Hy; by apply elem_of_nil in Hy.
  - inversion Hs as [|? ? Hl Hx]; subst. cbn [fmap list_fmap] in Ha. apply not_elem_of_cons in Ha as [Hne Ha].
    destruct (Z_lt_ge_dec x.1 a) as [Hlt|Hge].
    + destruct (IH Hl Ha) as (l1 & l2 & -> & H1 & H2). exists (x :: l1), l2. repeat split; [|done].
      intros y [->|Hy]%elem_of_cons; eauto.
    + exists [], (x :: l). rewrite Forall_forall in Hx. repeat split; intros y Hy; [by apply elem_of_nil in Hy|].
      apply elem_of_cons in Hy as [->|Hy]; [lia|]. specialize (Hx y Hy). lia.
Qed.
(** From a block below [bp], the walk stops at the last such block. *)
Lemma find_low bp p f2 h (Q : Z -> heap -> Prop) l : forall k,
  links (hp_mem h) (l ++ p :: f2) base -> asc (l ++ p :: f2) -> base < bp ->
  (forall x, x ∈ l ++ [p] -> x.1 < bp) -> (forall x, x ∈ f2 -> bp < x.1) -> base <= p.1 -> (length l <= k)%nat ->
  Q p.1 h -> wp (free_find k bp (head_or (l ++ [p]) base)) h Q.
Proof.
  induction l as [|x l IH]; intros k Hl Hs Hb H1 H2 Hp Hk HQ; cbn [app head_or links] in *.
  - destruct Hl as [Hh Hl]. assert (Hlt : p.1 < bp) by (apply H1; left).
    destruct k; cbn [free_find]; wp_step; (eapply wp_hdr; [exact Hh|]); cbn [s_ptr]; destruct f2 as [|y f2]; cbn [head_or].
    1,3: replace ((p.1 <? bp) && (bp <? base)) with false by lia;
      replace ((base <=? p.1) && ((p.1 <? bp) || (bp <? base))) with true by lia; by wp_step.
    all: assert (bp < y.1) by (apply H2; left); replace ((p.1 <? bp) && (bp <? y.1)) with true by lia; by wp_step.
  - destruct Hl as [Hh Hl]. inversion Hs as [|? ? Hs' Hx]; subst. rewrite Forall_forall in Hx.
    assert (Hn : head_or (l ++ p :: f2) base = head_or (l ++ [p]) base) by (by destruct l).
    assert (Hin : exists y, y ∈ l ++ [p] /\ head_or (l ++ [p]) base = y.1).
    { destruct l as [|y l]; [exists p|exists y]; (split; [left|done]). }
    destruct Hin as (y & Hy & Ey). assert (y.1 < bp) by (apply H1; by right).
    assert (x.1 < y.1). { apply Hx. apply elem_of_app in Hy as [Hy|Hy%list_elem_of_singleton]; [set_solver|subst; set_solver]. }
    cbn [length] in Hk. destruct k as [|k]; [lia|]. cbn [free_find]. wp_step. eapply wp_hdr; [exact Hh|]. cbn [s_ptr]. rewrite Hn, Ey.
    replace ((x.1 <? bp) && (bp <? y.1)) with false by lia.
    replace ((y.1 <=? x.1) && ((x.1 <? bp) || (bp <? y.1))) with false by lia. rewrite <- Ey.
    apply IH; try done; [|lia]. intros z Hz. apply H1. by right.
Qed.
(** From a block above [bp], it goes on to [base]. *)
Lemma find_high bp h (Q : Z -> heap -> Prop) l : forall k,
  links (hp_mem h) l base -> asc l -> base < bp -> (forall x, x ∈ l -> bp < x.1) -> (length l <= k)%nat ->
  wp (free_find (k - length l) bp base) h Q -> wp (free_find k bp (head_or l base)) h Q.
Proof.
  induction l as [|x l IH]; intros k Hl Hs Hb H1 Hk HQ; cbn [head_or links length] in *; [by rewrite Nat.sub_0_r in HQ|].
  destruct Hl as [Hh Hl]. inversion Hs as [|? ? Hs' Hx]; subst. rewrite Forall_forall in Hx.
  assert (bp < x.1) by (apply H1; left). destruct k as [|k]; [lia|]. cbn [free_find]. wp_step. eapply wp_hdr; [exact Hh|]. cbn [s_ptr].
  replace ((x.1 <? bp) && (bp <? head_or l base)) with false by lia.
  assert (Hn : (head_or l base <=? x.1) && ((x.1 <? bp) || (bp <? head_or l base)) = false).
  { destruct l as [|y l]; cbn [head_or]; [lia|]. assert (x.1 < y.1) by (apply Hx; left). lia. }
  rewrite Hn. apply IH; [done..| |lia|done]. intros y Hy. apply H1. by right.
Qed.
Lemma find_place h fl al a k :
  heap_ok h fl al -> base < a -> a ∉ fl.*1 -> (length fl <= k)%nat ->
  exists w p f2, (base, 0) :: fl = w ++ p :: f2 /\
    (forall x, x ∈ w ++ [p] -> x.1 < a) /\ (forall x, x ∈ f2 -> a < x.1) /\
    forall Q : Z -> heap -> Prop, Q p.1 h -> wp (free_find k a (hp_freep h)) h Q.
Proof.
  intros Ok Ha Hn Hk. pose proof (ring_asc _ (ok_spaced _ _ _ Ok)) as Hs. pose proof (ok_links _ _ _ Ok) as Hl.
  destruct (asc_split ((base, 0) :: fl) a Hs) as (l1 & f2 & E & H1 & H2). { cbn. apply not_elem_of_cons. split; [lia|done]. }
  destruct l1 as [|b l1]. { cbn in E. subst f2. specialize (H2 (base, 0) ltac:(left)). cbn in H2. lia. }
  assert (b = (base, 0)) as -> by (by injection E).
  destruct (exists_last (l := (base, 0) :: l1)) as (w & p & E1); [done|]. rewrite E1 in *. rewrite <- app_assoc in E. cbn [app] in E.
  exists w, p, f2. split; [done|]. split; [done|]. split; [done|]. intros Q HQ.
  assert (Hb : head_or (w ++ [p]) base = base) by (by rewrite <- E1).
  assert (Hp : base <= p.1).
  { assert (Hin : p ∈ (base, 0) :: fl) by (rewrite E; set_solver). apply elem_of_cons in Hin as [->|Hin]; [done|].
    destruct (spaced_in _ _ _ (ok_spaced _ _ _ Ok) Hin). lia. }
  rewrite E in Hs, Hl. pose proof (f_equal length E) as Hlen. rewrite length_app in Hlen. cbn [length] in Hlen.
  pose proof (ok_freep _ _ _ Ok) as Hf. rewrite E, cons_middle, app_assoc, fmap_app in Hf. apply elem_of_app in Hf as [Hf|Hf];
    apply list_elem_of_fmap in Hf as (y & -> & (u & v & Ey)%list_elem_of_split).
  - destruct (exists_last (l := y :: v)) as (l & p' & Ev); [done|]. rewrite Ev, app_assoc in Ey. apply app_inj_tail in Ey as [-> <-].
    replace y.1 with (head_or (l ++ [p]) base) by (by rewrite <- Ev). rewrite <- app_assoc in Hl, Hs.
    rewrite length_app in Hlen. apply (find_low _ _ f2); [by apply links_app in Hl as [_ ?]|by apply asc_app_r in Hs|
      done| |done..|lia|done]. intros x Hx. apply H1. set_solver.
  - change y.1 with (head_or (y :: v) base). subst f2. rewrite length_app in Hlen. cbn [length] in Hlen.
    change (w ++ p :: u ++ y :: v) with (w ++ (p :: u) ++ y :: v) in Hl, Hs. rewrite app_assoc in Hl, Hs.
    apply find_high; [by apply links_app in Hl as [_ ?]|by apply asc_app_r in Hs|done| |cbn; lia|].
    { intros x Hx. apply H2. set_solver. }
    rewrite <- app_assoc in Hl, Hs. rewrite <- Hb. apply (find_low _ _ (u ++ y :: v)); try done. cbn; lia.
Qed.

(** *** free: joining the neighbours *)
Definition join_up (b : blk) (f2 : list blk) : blk * list blk :=
  match f2 with
  | y :: f2' => if fin b =? y.1 then ((b.1, b.2 + y.2), f2') else (b, f2)
  | [] => (b, [])
  end.
Lemma up_step h a n q f2 (Q : unit -> heap -> Prop) :
  hp_mem h !! a = Some (mkHeader q n) -> links (hp_mem h) f2 base -> a ∉ f2.*1 -> a + UNIT <= hp_brk h -> fin (a, n) <> base ->
  (forall y, y ∈ f2 -> fin (a, n) = y.1 -> 0 <= n + y.2 < 2 ^ 32) ->
  (let r := join_up (a, n) f2 in Q tt (wm h (<[a := mkHeader (head_or r.2 base) r.1.2]> (hp_mem h)))) ->
  wp (if a + UNIT * n =? head_or f2 base
      then let! nx := hdr (head_or f2 base) in
        set_hdr base a (upd s_size (fun n => u32 (n + s_size nx))) ;! set_hdr base a (upd s_ptr (fun _ => s_ptr nx))
      else set_hdr base a (upd s_ptr (fun _ => head_or f2 base))) h Q.
Proof.
  intros Ea Hl Hn Hb Hne Hsz HQ. unfold join_up, fin in *. cbn [fst snd] in *. destruct f2 as [|y f2]; cbn [head_or] in *.
  - rewrite (proj2 (Z.eqb_neq _ _) Hne). eapply wp_set_some; [exact Ea|by right|exact HQ].
  - destruct Z.eqb eqn:E; cbn [fst snd] in HQ; [|eapply wp_set_some; [exact Ea|by right|exact HQ]].
    cbn [links] in Hl. wp_step. eapply wp_hdr; [apply Hl|]. wp_step. eapply wp_set_some; [exact Ea|by right|]. cbn [s_size s_ptr].
    eapply wp_set_some; [apply lookup_insert_eq|by right|]. unfold wm; cbn [hp_mem hp_freep hp_brk hp_limit]. rewrite insert_insert_eq.
    unfold upd, upd_s_ptr, upd_s_size. cbn [s_ptr s_size]. rewrite u32_small; [exact HQ|]. apply Hsz; [left|lia].
Qed.
Definition join_down (p b : blk) : list blk := if fin p =? b.1 then [(p.1, p.2 + b.2)] else [p; b].
Lemma down_step h p q b e (Q : unit -> heap -> Prop) :
  hp_mem h !! p.1 = Some (mkHeader q p.2) -> hp_mem h !! b.1 = Some (mkHeader e b.2) -> p.1 <> b.1 ->
  p.1 = base \/ p.1 + UNIT <= hp_brk h -> (fin p = b.1 -> 0 <= p.2 + b.2 < 2 ^ 32) ->
  (forall m, links m (join_down p b) e -> (forall c, c <> p.1 -> m !! c = hp_mem h !! c) -> Q tt (wm h m)) ->
  wp (if p.1 + UNIT * p.2 =? b.1
      then set_hdr base p.1 (upd s_size (fun n => u32 (n + b.2))) ;! set_hdr base p.1 (upd s_ptr (fun _ => e))
      else set_hdr base p.1 (upd s_ptr (fun _ => b.1))) h Q.
Proof.
  intros Ep Eb Hne Hp Hsz HQ. unfold join_down, fin in *. destruct Z.eqb eqn:E; cbn [links head_or fst snd] in HQ.
  - wp_step. eapply wp_set_some; [exact Ep|done|]. eapply wp_set_some; [apply lookup_insert_eq|done|].
    unfold wm; cbn [hp_mem hp_freep hp_brk hp_limit]. rewrite insert_insert_eq.
    apply HQ; [|intros c Hc; by rewrite lookup_insert_ne].
    unfold upd, upd_s_ptr, upd_s_size. cbn [s_ptr s_size]. rewrite lookup_insert_eq, u32_small by (apply Hsz; lia). done.
  - eapply wp_set_some; [exact Ep|done|]. apply HQ; [|intros c Hc; by rewrite lookup_insert_ne].
    by rewrite lookup_insert_eq, lookup_insert_ne by done.
Qed.
Lemma join_up_ok brk b r f2 lo :
  tiled brk (b :: f2 ++ r) -> spaced lo f2 -> (forall x, x ∈ f2 -> b.1 < x.1) ->
  let '(b', f2') := join_up b f2 in
  tiled brk (b' :: f2' ++ r) /\ b'.1 = b.1 /\ b.2 <= b'.2 /\ spaced (fin b') f2' /\ f2' `suffix_of` f2.
Proof.
  intros Ht Hs Hlt. destruct f2 as [|y f2]; cbn [join_up]; [done|]. cbn [spaced] in Hs. destruct Hs as (H1 & H2 & H3).
  assert (b.1 < y.1) by (apply Hlt; left). destruct (Z.eqb_spec (fin b) y.1) as [E|E].
  - cbn [fst snd]. split_and!; [by apply (tiled_join _ b y) in Ht|done|lia| |by exists [y]].
    replace (fin (b.1, b.2 + y.2)) with (fin y) by (unfold fin, UNIT in *; cbn; lia). done.
  - split_and!; [done|done|lia| |done]. cbn [spaced]. split_and!; [|done|done].
    destruct (tiled_apart _ b y _ Ht) as [Ha|Ha]; [|lia]. unfold fin, UNIT in Ha. lia.
Qed.
Lemma join_down_ok brk f1 f2 w p b r :
  (base, 0) :: f1 = w ++ [p] -> tiled brk (b :: f1 ++ f2 ++ r) -> spaced base f1 -> spaced (fin b) f2 ->
  (forall x, x ∈ w ++ [p] -> x.1 < b.1) ->
  exists fl', (base, 0) :: fl' = w ++ join_down p b ++ f2 /\ tiled brk (fl' ++ r) /\ spaced base fl' /\
    (length fl' <= S (length (f1 ++ f2)))%nat /\ exists x, x ∈ fl' /\ b.2 <= x.2.
Proof.
  intros E Ht Hs1 Hs2 Hlt. assert (Hb : b ∈ b :: f1 ++ f2 ++ r) by left. apply (tiled_in _ _ _ Ht) in Hb.
  unfold join_down. destruct w as [|x w]; injection E; intros.
  - subst f1 p. replace (fin (base, 0) =? b.1) with false by (unfold fin, UNIT in *; cbn; lia).
    exists (b :: f2). cbn in *. split_and!; [done|done|unfold UNIT in *; lia|lia|done|lia|]. exists b. split; [left|done].
  - subst x f1. apply spaced_app in Hs1 as [Hw Hp]. cbn [spaced] in Hp. destruct Hp as (H1 & H2 & _).
    rewrite length_app, length_app. cbn [length]. destruct (Z.eqb_spec (fin p) b.1) as [Ep|Ep].
    + exists (w ++ (p.1, p.2 + b.2) :: f2). split_and!; [done| | |rewrite length_app; cbn; lia|].
      * eapply tiled_perm; [|apply (tiled_join _ p b (w ++ f2 ++ r)); [eapply tiled_perm; [|exact Ht]; solve_Permutation|done]].
        solve_Permutation.
      * apply spaced_app. split; [done|]. cbn [spaced fst snd]. split_and!; [done|lia|].
        replace (fin (p.1, p.2 + b.2)) with (fin b) by (unfold fin, UNIT in *; cbn; lia). done.
      * eexists. split; [apply elem_of_app; right; left|]. cbn. lia.
    + exists (w ++ p :: b :: f2). split_and!; [done| | |rewrite length_app; cbn; lia|].
      * eapply tiled_perm; [|exact Ht]. solve_Permutation.
      * apply spaced_app. split; [done|]. cbn [spaced]. split_and!; [done|done| |lia|done].
        destruct (tiled_apart brk p b (w ++ f2 ++ r)) as [Ha|Ha]; [eapply tiled_perm; [|exact Ht]; solve_Permutation| |lia].
        assert (p.1 < b.1) by (apply Hlt; set_solver). unfold fin, UNIT in Ha. lia.
      * exists b. split; [set_solver|done].
Qed.

(** The ring after [free], from what [up_step] and [down_step] leave. *)
Lemma ring_links m m' w p b f2 f2' :
  links m (w ++ p :: f2) base -> f2' `suffix_of` f2 -> NoDup (w ++ p :: f2).*1 -> b.1 ∉ (w ++ p :: f2).*1 ->
  links m' (join_down p b) (head_or f2' base) -> (forall c, c <> p.1 -> c <> b.1 -> m' !! c = m !! c) ->
  links m' (w ++ join_down p b ++ f2') base.
Proof.
  intros Hl Hsuf Hnd Hb Hj Hm.
  assert (Hh : head_or (join_down p b ++ f2') base = head_or (p :: f2) base) by (unfold join_down; by destruct Z.eqb).
  assert (Hext : forall l e, (forall x, x ∈ l -> x.1 <> p.1 /\ x.1 <> b.1) -> links m l e -> links m' l e).
  { intros l e. induction l as [|x l IH]; intros Hx; cbn [links]; [done|]. intros [H1 H2].
    destruct (Hx x) as [? ?]; [left|]. rewrite Hm by done. split; [done|]. apply IH; [|done]. intros y Hy. apply Hx. by right. }
  rewrite fmap_app in Hnd, Hb. apply NoDup_app in Hnd as (_ & Hwp & Hnd). rewrite fmap_cons in Hnd, Hwp, Hb.
  apply NoDup_cons in Hnd as [Hp _]. apply not_elem_of_app in Hb as [Hbw [_ Hbf]%not_elem_of_cons]. apply links_app in Hl as [Hw [_ Hf]]. apply links_app. rewrite Hh. split.
  - apply Hext; [|done]. intros x Hx. apply (list_elem_of_fmap_2 fst) in Hx. split; [|congruence].
    intros E. apply (Hwp x.1 Hx). rewrite E. left.
  - destruct Hsuf as (g & ->). apply links_app in Hf as [_ Hf]. apply links_app. split; [done|]. apply Hext; [|done].
    intros x Hx. apply (list_elem_of_fmap_2 fst) in Hx. rewrite fmap_app in Hp, Hbf.
    apply not_elem_of_app in Hp as [_ Hp], Hbf as [_ Hbf]. split; congruence.
Qed.
Lemma blk_unique (al al' : list blk) b x : al ≡ₚ b :: al' -> NoDup al.*1 -> x ∈ al' -> x.1 <> b.1.
Proof.
  intros Hp Hnd Hx E. rewrite Hp in Hnd. cbn in Hnd. apply NoDup_cons in Hnd as [Hn _]. apply Hn. rewrite <- E.
  by apply list_elem_of_fmap_2.
Qed.

(** Where an allocated block goes: behind [p], before the blocks [f2]. *)
Lemma free_place h fl al a n al' k :
  heap_ok h fl al -> al ≡ₚ (a, n) :: al' -> (length fl <= k)%nat ->
  exists f1 f2 w p q, fl = f1 ++ f2 /\ (base, 0) :: f1 = w ++ [p] /\
    (forall x, x ∈ w ++ [p] -> x.1 < a) /\ (forall x, x ∈ f2 -> a < x.1) /\
    (forall Q : Z -> heap -> Prop, Q p.1 h -> wp (free_find k a (hp_freep h)) h Q) /\
    hp_mem h !! a = Some (mkHeader q n) /\ links (hp_mem h) (w ++ p :: f2) base /\
    tiled (hp_brk h) ((a, n) :: f2 ++ f1 ++ al') /\ NoDup (w ++ p :: f2).*1 /\ a ∉ (w ++ p :: f2).*1 /\
    (p = (base, 0) \/ p ∈ f1) /\ (forall x, x ∈ al' -> x.1 <> p.1 /\ x.1 <> a).
Proof.
  intros Ok Hal Hk. pose proof (block_NoDup _ _ _ Ok) as Hnd. pose proof (ok_tiles _ _ _ Ok) as Ht.
  assert (Ha : (a, n) ∈ al) by (rewrite Hal; left). destruct (ok_alloc _ _ _ Ok _ Ha) as (q & Ea).
  assert (Hin : (a, n) ∈ fl ++ al) by (apply elem_of_app; by right). pose proof (tiled_in _ _ _ Ht Hin) as (Ha0 & _).
  cbn [fst snd] in *. rewrite fmap_app in Hnd. change (base :: fl.*1 ++ al.*1) with (((base, 0) :: fl).*1 ++ al.*1) in Hnd.
  apply NoDup_app in Hnd as (Hndf & Hdis & Hnda).
  assert (Hfa : a ∉ ((base, 0) :: fl).*1). { intros Hf. apply (Hdis a Hf). by apply (list_elem_of_fmap_2 fst) in Ha. }
  pose proof Hfa as [_ Hfa']%not_elem_of_cons.
  destruct (find_place h fl al a k Ok) as (w & p & f2 & E & Hlt & Hgt & Hfind); [unfold UNIT in *; lia|done|done|].
  assert (Hsplit : exists f1, (base, 0) :: f1 = w ++ [p] /\ fl = f1 ++ f2).
  { destruct w as [|x w]; injection E as -> ->; [by exists []|]. exists (w ++ [p]). by rewrite <- app_assoc. }
  destruct Hsplit as (f1 & E1 & ->). pose proof (ok_links _ _ _ Ok) as Hl. rewrite E in Hl, Hndf, Hfa.
  exists f1, f2, w, p, q. split_and!; try done.
  - eapply tiled_perm; [|exact Ht]. rewrite Hal. solve_Permutation.
  - apply elem_of_cons. rewrite E1. apply elem_of_app. right. left.
  - intros x Hx. split; [|by eapply (blk_unique al al' (a, n))].
    assert (Hx' : x ∈ al) by (rewrite Hal; by right). intros Ex. apply (Hdis p.1).
    + rewrite E, fmap_app. apply elem_of_app. right. left.
    + rewrite <- Ex. by apply list_elem_of_fmap_2.
Qed.
Lemma free_spec h fl al a n al' k :
  heap_ok h fl al -> al ≡ₚ (a, n) :: al' -> (length fl <= k)%nat ->
  wp (free base k (a + UNIT)) h (fun _ h' => exists fl', heap_ok h' fl' al' /\ (length fl' <= S (length fl))%nat /\
    (exists x, x ∈ fl' /\ n <= x.2) /\ hp_brk h' = hp_brk h /\ hp_limit h' = hp_limit h).
Proof.
  intros Ok Hal Hk. destruct (free_place h fl al a n al' k) as (f1 & f2 & w & p & q & -> & E1 & Hlt & Hgt & Hfind & Ea & Hl & Htb & Hnd & Hna & Hp & Hal'); [done..|].
  pose proof (ok_spaced _ _ _ Ok) as [Hs1 Hs2]%spaced_app. pose proof Hl as [_ [Ep Hf2]]%links_app. pose proof (ok_limit _ _ _ Ok) as Hlim.
  destruct (tiled_in _ _ (a, n) Htb) as (Ha0 & Hab & Hn); [left|]. unfold fin in Hab. cbn [fst snd] in *.
  pose proof Hna as Hf2a. rewrite fmap_app in Hf2a. apply not_elem_of_app in Hf2a as [_ [Hap Hf2a]%not_elem_of_cons].
  unfold free. replace (a + UNIT - UNIT) with a by lia. wp_step. wp_step. wp_step. apply Hfind.
  wp_step. eapply wp_hdr; [exact Ea|]. wp_step. eapply wp_hdr; [exact Ep|]. cbn [s_ptr s_size].
  wp_step. apply (up_step h a n q f2); [done..|unfold UNIT in *; lia|unfold fin, UNIT in *; cbn; lia| |].
  { intros y (u & v & ->)%list_elem_of_split Ey. eapply (tiled_size (hp_brk h) (a, n) y (u ++ v ++ f1 ++ al')); [|done|lia].
    eapply tiled_perm; [|exact Htb]. solve_Permutation. }
  pose proof (join_up_ok _ _ _ _ _ Htb Hs2) as Hup. destruct (join_up (a, n) f2) as [b f2'] eqn:Ej. cbn [fst snd] in *.
  destruct (Hup Hgt) as (Htu & Hb1 & Hb2 & Hsu & Hsuf). clear Hup Hfind. subst a.
  destruct (join_down_ok (hp_brk h) f1 f2' w p b al') as (fl' & Efl & Htd & Hsd & Hlen & x & Hx & Hxn);
    [done|eapply tiled_perm; [|exact Htu]; solve_Permutation|done..|].
  wp_step. eapply wp_hdr; [apply lookup_insert_eq|]. wp_step. eapply wp_hdr; [cbn; by rewrite lookup_insert_ne by congruence|]. cbn [s_ptr s_size].
  wp_step. apply (down_step _ p (head_or f2 base) b (head_or f2' base)).
  - cbn. by rewrite lookup_insert_ne by congruence.
  - apply lookup_insert_eq.
  - congruence.
  - destruct Hp as [->|Hp]; [by left|right]. destruct (tiled_in _ _ p Htu) as (_ & ? & ?); [set_solver|]. unfold fin, UNIT in *. cbn. lia.
  - intros Hpb. destruct Hp as [->|(u & v & ->)%list_elem_of_split]; [unfold fin, UNIT in *; cbn in *; lia|].
    eapply (tiled_size (hp_brk h) p b (f2' ++ u ++ v ++ al')); [|done|lia]. eapply tiled_perm; [|exact Htu]. solve_Permutation.
  - intros m Hj Hm. wp_step. exists fl'. split_and!; [|rewrite length_app in *; destruct Hsuf as (g & ->); rewrite ?length_app in *; lia|exists x; split; [done|lia]|done|done].
    assert (Hm' : forall c, c <> p.1 -> c <> b.1 -> m !! c = hp_mem h !! c).
    { intros c Hc1 Hc2. rewrite (Hm c Hc1). cbn. by rewrite lookup_insert_ne. }
    unfold upd, upd_hp_freep, wm. constructor; cbn [hp_mem hp_freep hp_brk hp_limit]; [| |done| |done|done].
    + rewrite Efl. by eapply ring_links.
    + rewrite Efl, !fmap_app. apply elem_of_app. right. apply elem_of_app. left.
      unfold join_down. destruct Z.eqb; left.
    + intros y Hy. destruct (Hal' y Hy). rewrite Hm' by done. apply (ok_alloc _ _ _ Ok). rewrite Hal. by right.
Qed.

(** *** morecore *)
Lemma grow h fl al nu q :
  heap_ok h fl al -> 1 <= nu -> hp_brk h + UNIT * nu <= hp_limit h ->
  heap_ok (mkHeap (<[hp_brk h := mkHeader q nu]> (hp_mem h)) (hp_freep h) (hp_brk h + UNIT * nu) (hp_limit h)) fl ((hp_brk h, nu) :: al).
Proof.
  intros Ok Hnu Hlim. pose proof (ok_tiles _ _ _ Ok) as Ht.
  assert (Hne : forall x, x ∈ fl ++ al -> x.1 <> hp_brk h). { intros x Hx. apply (tiled_in _ _ _ Ht) in Hx. unfold fin, UNIT in *. lia. }
  assert (Hb : base < hp_brk h). { destruct Ht as (t & _ & Ht). apply tiles_le in Ht. unfold UNIT in *. lia. }
  constructor; cbn [hp_mem hp_freep hp_brk hp_limit].
  - apply links_insert; [|apply Ok]. intros [E|(x & E & Hx)%list_elem_of_fmap]%elem_of_cons; [cbn in E; lia|]. apply (Hne x); [|done]. set_solver.
  - apply Ok.
  - apply Ok.
  - intros x [->|Hx]%elem_of_cons; [exists q; apply lookup_insert_eq|]. rewrite lookup_insert_ne; [by apply (ok_alloc _ _ _ Ok)|].
    intros E. apply (Hne x); [set_solver|done].
  - destruct Ht as (t & Hp & Ht). exists (t ++ [(hp_brk h, nu)]). split; [rewrite Hp; solve_Permutation|].
    apply tiles_app. exists (hp_brk h). cbn. unfold fin. done.
  - pose proof (ok_limit _ _ _ Ok). lia.
Qed.
Lemma freep_pos h fl al : heap_ok h fl al -> hp_freep h <> 0.
Proof.
  intros Ok. pose proof (ok_freep _ _ _ Ok) as [->|(x & -> & Hx)%list_elem_of_fmap]%elem_of_cons; cbn; [lia|].
  apply (spaced_in _ _ _ (ok_spaced _ _ _ Ok)) in Hx. lia.
Qed.
Definition room (nu : Z) : Z := if nu <? 4096 then 4096 else nu.
Lemma morecore_spec h fl al nu k :
  heap_ok h fl al -> 1 <= nu < 2 ^ 27 -> (length fl <= k)%nat ->
  wp (morecore base k nu) h (fun r h' =>
    (r = 0 /\ h' = h /\ hp_limit h < hp_brk h + UNIT * room nu) \/
    (r = hp_freep h' /\ r <> 0 /\ exists fl', heap_ok h' fl' al /\ (length fl' <= S (length fl))%nat /\ exists x, x ∈ fl' /\ nu <= x.2)).
Proof.
  intros Ok Hnu Hk. unfold morecore, sbrk. fold (room nu). assert (Hr : nu <= room nu /\ 1 <= room nu < 2 ^ 27) by (unfold room; destruct Z.ltb eqn:E; lia).
  assert (Hb : 0 < hp_brk h). { destruct (ok_tiles _ _ _ Ok) as (t & _ & Ht). apply tiles_le in Ht. unfold UNIT in *. lia. }
  wp_step. wp_step. wp_step. unfold id. rewrite i32_small by (unfold UNIT; lia). destruct (Z.ltb_spec (hp_limit h) (hp_brk h + room nu * UNIT)) as [Hl|Hl].
  - wp_step. cbn. wp_step. left. split_and!; [done|done|lia].
  - wp_step. wp_step. wp_step. replace (hp_brk h =? -1) with false by lia. wp_step. apply wp_set; [right; unfold upd, upd_hp_brk, UNIT; cbn; lia|].
    wp_step. cbn [hp_mem hp_freep hp_brk hp_limit upd upd_hp_brk]. pose proof (grow h fl al (room nu)) as Hg.
    eapply wp_mono; [eapply (free_spec _ fl ((hp_brk h, room nu) :: al)); [|reflexivity|done]|].
    + unfold wm. cbn [hp_mem hp_freep hp_brk hp_limit]. rewrite (Z.mul_comm (room nu)). unfold upd, upd_s_size. apply Hg; [done|lia|lia].
    + intros _ h' (fl' & Ok' & Hlen & (x & Hx & Hxn) & _). wp_step. right. split_and!; [done|by eapply freep_pos|].
      exists fl'. split_and!; [done|done|]. exists x. split; [done|lia].
Qed.

(** *** malloc: taking a block *)
Lemma links_put m w q f2 e :
  links m w q.1 -> links m f2 e -> NoDup (w ++ q :: f2).*1 ->
  links (<[q.1 := mkHeader (head_or f2 e) q.2]> m) (w ++ q :: f2) e.
Proof.
  intros Hl Hf Hnd. rewrite fmap_app, fmap_cons in Hnd. apply NoDup_app in Hnd as (_ & Hw & [Hq _]%NoDup_cons).
  apply links_app. cbn [links head_or]. rewrite lookup_insert_eq. split_and!; [|done|].
  - apply links_insert; [|done]. intros Hin. apply (Hw _ Hin). left.
  - by apply links_insert.
Qed.
(** The exact fit is unlinked. *)
Lemma take_all h fl al w q x f2 :
  heap_ok h fl al -> (base, 0) :: fl = w ++ q :: x :: f2 ->
  exists fl', heap_ok (mkHeap (<[q.1 := mkHeader (head_or f2 base) q.2]> (hp_mem h)) q.1 (hp_brk h) (hp_limit h)) fl' (x :: al) /\
    (length fl' <= length fl)%nat.
Proof.
  intros Ok E. pose proof (block_NoDup _ _ _ Ok) as Hnd. rewrite fmap_app in Hnd.
  change (base :: fl.*1 ++ al.*1) with (((base, 0) :: fl).*1 ++ al.*1) in Hnd. rewrite E in Hnd.
  apply NoDup_app in Hnd as (Hndf & Hdis & Hnda). pose proof (ok_links _ _ _ Ok) as Hl. rewrite E in Hl.
  change (q :: x :: f2) with ([q] ++ x :: f2) in Hl. rewrite app_assoc in Hl. apply links_app in Hl as [Hl1 [Hx Hl2]].
  assert (Hsp : exists f1, (base, 0) :: f1 = w ++ [q] /\ fl = f1 ++ x :: f2).
  { destruct w as [|y w]; injection E as -> ->; [by exists []|]. exists (w ++ [q]). by rewrite <- app_assoc. }
  destruct Hsp as (f1 & E1 & ->). assert (E2 : (base, 0) :: f1 ++ f2 = w ++ q :: f2) by (rewrite app_comm_cons, E1, <- app_assoc; done).
  assert (Hnd2 : NoDup (w ++ q :: f2).*1).
  { eapply sublist_NoDup; [exact Hndf|]. rewrite !fmap_app, !fmap_cons. apply sublist_app; [done|]. apply sublist_skip, sublist_cons. done. }
  assert (Hqx : q.1 <> x.1). { rewrite fmap_app, !fmap_cons in Hndf. apply NoDup_app in Hndf as (_ & _ & [Hn _]%NoDup_cons). set_solver. }
  exists (f1 ++ f2). split; [|rewrite !length_app; cbn; lia]. constructor; cbn [hp_mem hp_freep hp_brk hp_limit].
  - rewrite E2. apply links_put; [by apply links_app in Hl1 as [? _]|done|done].
  - rewrite E2, fmap_app. apply elem_of_app. right. left.
  - pose proof (ok_spaced _ _ _ Ok) as [H1 H2]%spaced_app. apply spaced_app. split; [done|]. cbn [spaced] in H2. destruct H2 as (? & ? & H2).
    destruct f2 as [|y f2]; [done|]. cbn [spaced] in *. unfold fin, UNIT in *. naive_solver lia.
  - intros y [->|Hy]%elem_of_cons; [exists (head_or f2 base); by rewrite lookup_insert_ne|].
    rewrite lookup_insert_ne; [by apply (ok_alloc _ _ _ Ok)|]. intros Eq. apply (Hdis q.1).
    + rewrite fmap_app. apply elem_of_app. right. left.
    + rewrite Eq. by apply list_elem_of_fmap_2.
  - eapply tiled_perm; [|apply (ok_tiles _ _ _ Ok)]. solve_Permutation.
  - apply Ok.
Qed.
(** A larger block gives its tail. *)
Lemma take_tail h fl al f1 x f2 nu q qq e :
  heap_ok h fl al -> fl = f1 ++ x :: f2 -> 1 <= nu < x.2 -> q ∈ ((base, 0) :: fl).*1 -> e = head_or f2 base ->
  let a := x.1 + UNIT * (x.2 - nu) in
  exists fl', heap_ok (mkHeap (<[a := mkHeader qq nu]> (<[x.1 := mkHeader e (x.2 - nu)]> (hp_mem h))) q (hp_brk h) (hp_limit h))
    fl' ((a, nu) :: al) /\ (length fl' <= length fl)%nat.
Proof.
  intros Ok -> Hnu Hq -> a. pose proof (ok_tiles _ _ _ Ok) as Ht.
  assert (Ht' : tiled (hp_brk h) ((x.1, x.2 - nu) :: (a, nu) :: (f1 ++ f2 ++ al))).
  { apply tiled_split; [|lia]. eapply tiled_perm; [|exact Ht]. solve_Permutation. }
  pose proof (tiled_NoDup _ _ Ht') as Hnd. assert (Ha : heap0 <= a) by (by apply (tiled_in _ _ (a, nu) Ht'); right; left).
  rewrite !fmap_cons, !fmap_app in Hnd. cbn [fst] in Hnd. apply NoDup_cons in Hnd as [Hx [Hna _]%NoDup_cons].
  rewrite elem_of_cons, !elem_of_app in Hx. rewrite !elem_of_app in Hna.
  pose proof (block_NoDup _ _ _ Ok) as Hnd'. rewrite fmap_app in Hnd'.
  pose proof (ok_links _ _ _ Ok) as Hl. rewrite app_comm_cons in Hl. apply links_app in Hl as [Hl1 [_ Hl2]].
  set (x' := (x.1, x.2 - nu)) in *. exists (f1 ++ x' :: f2). split; [|rewrite !length_app; done].
  assert (Hr : ((base, 0) :: f1 ++ x' :: f2).*1 = ((base, 0) :: f1 ++ x :: f2).*1) by (by rewrite !fmap_cons, !fmap_app, !fmap_cons).
  constructor; cbn [hp_mem hp_freep hp_brk hp_limit].
  - rewrite app_comm_cons. apply links_insert; [|apply (links_put _ _ x'); [done..|]].
    + rewrite <- app_comm_cons, Hr, fmap_cons, fmap_app, fmap_cons, elem_of_cons, elem_of_app, elem_of_cons. cbn [fst]. unfold UNIT in *. naive_solver lia.
    + rewrite <- app_comm_cons, Hr. rewrite app_comm_cons in Hnd'. by apply NoDup_app in Hnd' as [? _].
  - by rewrite Hr.
  - pose proof (ok_spaced _ _ _ Ok) as [H1 H2]%spaced_app. apply spaced_app. split; [done|]. cbn [spaced] in H2 |- *. destruct H2 as (? & ? & H2).
    split_and!; [done|cbn; lia|]. destruct f2 as [|y f2]; [done|]. cbn [spaced] in *. subst x'. unfold fin, UNIT in *. cbn. naive_solver lia.
  - intros y [->|Hy]%elem_of_cons; [exists qq; apply lookup_insert_eq|]. apply (list_elem_of_fmap_2 fst) in Hy as Hy1.
    rewrite !lookup_insert_ne by (intros Ey; rewrite Ey in *; naive_solver). by apply (ok_alloc _ _ _ Ok).
  - eapply tiled_perm; [|exact Ht']. solve_Permutation.
  - apply Ok.
Qed.

(** One turn of the loop. *)
Definition continue (k : nat) (nu q : Z) : H Z :=
  match k with O => nofuel | S k => let! x := hdr q in malloc_loop base k nu q (s_ptr x) end.
Definition refill (k : nat) (nu : Z) : H Z :=
  let! q := morecore base k nu in if q =? 0 then ret 0 else continue k nu q.
Lemma loop_small h p n e k nu q (Q : Z -> heap -> Prop) :
  hp_mem h !! p = Some (mkHeader e n) -> n < nu ->
  wp (if p =? hp_freep h then refill k nu else continue k nu p) h Q -> wp (malloc_loop base k nu q p) h Q.
Proof.
  intros Ep Hn HQ. destruct k as [|k]; cbn [malloc_loop]; wp_step; (eapply wp_hdr; [exact Ep|]); cbn [s_size];
    (replace (nu <=? n) with false by lia); wp_step; wp_step; exact HQ.
Qed.
Definition got (al : list blk) (nu : Z) (n : nat) (r : Z) (h : heap) : Prop :=
  exists a fl', r = a + UNIT /\ heap_ok h fl' ((a, nu) :: al) /\ (length fl' <= n)%nat.
Lemma loop_fit h p n e k nu q (Q : Z -> heap -> Prop) :
  hp_mem h !! p = Some (mkHeader e n) -> nu <= n ->
  wp (if n =? nu
      then set_hdr base q (upd s_ptr (fun _ => e)) ;! modify (upd hp_freep (fun _ => q)) ;! ret (p + UNIT)
      else set_hdr base p (upd s_size (fun n => n - nu)) ;!
        set_hdr base (p + UNIT * (n - nu)) (upd s_size (fun _ => nu)) ;!
        modify (upd hp_freep (fun _ => q)) ;! ret (p + UNIT * (n - nu) + UNIT)) h Q ->
  wp (malloc_loop base k nu q p) h Q.
Proof.
  intros Ep Hn HQ. destruct k as [|k]; cbn [malloc_loop]; wp_step; (eapply wp_hdr; [exact Ep|]); cbn [s_size s_ptr];
    (replace (nu <=? n) with true by lia); exact HQ.
Qed.
Lemma loop_take h fl al w q x f2 nu k :
  heap_ok h fl al -> (base, 0) :: fl = w ++ q :: x :: f2 -> 1 <= nu <= x.2 ->
  wp (malloc_loop base k nu q.1 x.1) h (got al nu (length fl)).
Proof.
  intros Ok E Hnu. pose proof (ok_links _ _ _ Ok) as Hl. rewrite E in Hl. apply links_app in Hl as (_ & Hq & Hx & _).
  assert (Hsp : exists f1, fl = f1 ++ x :: f2).
  { destruct w as [|y w]; injection E as _ ->; [by exists []|]. exists (w ++ [q]). by rewrite <- app_assoc. }
  destruct Hsp as (f1 & Efl). assert (Hxf : x ∈ fl) by (rewrite Efl; apply elem_of_app; right; left).
  assert (Hqf : q.1 ∈ ((base, 0) :: fl).*1). { rewrite E, fmap_app. apply elem_of_app. right. left. }
  pose proof (tiled_in _ _ x (ok_tiles _ _ _ Ok) ltac:(apply elem_of_app; by left)) as (_ & Hxb & Hx1). unfold fin in Hxb.
  eapply loop_fit; [exact Hx|lia|]. destruct (Z.eqb_spec x.2 nu) as [En|En].
  - wp_step. eapply wp_set_some; [exact Hq| |].
    { apply elem_of_cons in Hqf as [->|(y & -> & Hy)%list_elem_of_fmap]; [by left|right].
      pose proof (tiled_in _ _ y (ok_tiles _ _ _ Ok) ltac:(apply elem_of_app; by left)). unfold fin, UNIT in *. lia. }
    wp_step. wp_step. wp_step. destruct (take_all h fl al w q x f2 Ok E) as (fl' & Ok' & Hlen). exists x.1, fl'.
    split_and!; [done| |done]. subst nu. by destruct x.
  - wp_step. eapply wp_set_some; [exact Hx|right; unfold UNIT in *; lia|]. wp_step. eapply wp_set; [right; cbn; unfold UNIT in *; lia|].
    wp_step. wp_step. wp_step. edestruct (take_tail h fl al f1 x f2 nu q.1) as (fl' & Ok' & Hlen); [done|done|lia|done|done|].
    eexists _, fl'. split; [done|]. split; [exact Ok'|done].
Qed.

(** *** malloc: the walk *)
Lemma last_default {A} (x d : A) l : default d (last (x :: l)) = default x (last l).
Proof. destruct l as [|y l]; [done|]. rewrite last_cons_cons. by destruct (last (y :: l)) eqn:E; [|apply last_None in E]. Qed.
Lemma scan h fl al nu v e : forall u q k (Q : Z -> heap -> Prop),
  heap_ok h fl al -> 1 <= nu -> (exists w, (base, 0) :: fl = u ++ q :: v ++ w) -> links (hp_mem h) v e ->
  hp_freep h ∉ v.*1 -> (length v <= k)%nat ->
  (forall r h', got al nu (length fl) r h' -> Q r h') ->
  (Forall (fun x => x.2 < nu) v -> wp (malloc_loop base (k - length v) nu (default q (last v)).1 e) h Q) ->
  wp (malloc_loop base k nu q.1 (head_or v e)) h Q.
Proof.
  induction v as [|x v IH]; intros u q k Q Ok Hnu (w & E) Hl Hf Hk HQ Hend; cbn [head_or length] in *.
  - rewrite Nat.sub_0_r in Hend. by apply Hend.
  - destruct (Z_lt_ge_dec x.2 nu) as [Hx|Hx].
    + cbn [links] in Hl. destruct Hl as [Ex Hl]. rewrite fmap_cons in Hf. apply not_elem_of_cons in Hf as [Hfx Hf].
      eapply loop_small; [exact Ex|done|]. replace (x.1 =? hp_freep h) with false by lia. destruct k as [|k]; [lia|]. unfold continue.
      wp_step. eapply wp_hdr; [exact Ex|]. cbn [s_ptr]. apply (IH (u ++ [q]) x); [done|done|exists w; by rewrite <- app_assoc|done|done|lia|done|].
      intros Hv. rewrite last_default in Hend. apply Hend. by constructor.
    + eapply wp_mono; [eapply (loop_take h fl al u q x (v ++ w)); [done|done|lia]|exact HQ].
Qed.
(** Back at [freep], every other block is too small. *)
Lemma at_freep h fl al nu c1 f c2 d k (Q : Z -> heap -> Prop) :
  heap_ok h fl al -> 1 <= nu -> (base, 0) :: fl = c1 ++ f :: c2 -> hp_freep h = f.1 ->
  (forall r h', got al nu (length fl) r h' -> Q r h') ->
  Forall (fun x => x.2 < nu) c1 -> Forall (fun x => x.2 < nu) c2 ->
  (Forall (fun x => x.2 < nu) fl -> wp (refill k nu) h Q) ->
  wp (malloc_loop base k nu (default d (last c1)).1 f.1) h Q.
Proof.
  intros Ok Hnu E Ef HQ H1 H2 Hend. pose proof (ok_links _ _ _ Ok) as Hl. rewrite E in Hl. apply links_app in Hl as (_ & Hf & _).
  destruct (Z_lt_ge_dec f.2 nu) as [Hx|Hx].
  - eapply loop_small; [exact Hf|done|]. replace (f.1 =? hp_freep h) with true by lia. apply Hend.
    assert (Ha : Forall (fun x => x.2 < nu) ((base, 0) :: fl)) by (rewrite E; apply Forall_app; split; [done|by constructor]).
    by inversion Ha.
  - destruct (exists_last (l := c1)) as (w & q & ->). { intros ->. injection E as <- _. cbn in Hx. lia. }
    rewrite <- app_assoc in E. rewrite last_snoc. eapply wp_mono; [eapply (loop_take h fl al w q f c2); [done|done|lia]|exact HQ].
Qed.
(** From [freep] the walk visits every block, and asks for more memory when
    none of them fits. *)
Lemma walk h fl al nu q k (Q : Z -> heap -> Prop) e n :
  heap_ok h fl al -> 1 <= nu -> q = hp_freep h -> hp_mem h !! q = Some (mkHeader e n) -> (length fl <= k)%nat ->
  (forall r h', got al nu (length fl) r h' -> Q r h') ->
  (Forall (fun x => x.2 < nu) fl -> forall k', (k <= k' + length fl)%nat -> wp (refill k' nu) h Q) ->
  wp (malloc_loop base k nu q e) h Q.
Proof.
  intros Ok Hnu -> Hq Hk HQ Hend. pose proof (ok_freep _ _ _ Ok) as (f & Ef & (c1 & c2 & E)%list_elem_of_split)%list_elem_of_fmap.
  pose proof (ok_links _ _ _ Ok) as Hl. rewrite E in Hl. apply links_app in Hl as (Hl1 & Hf & Hl2). rewrite Ef in *.
  assert (e = head_or c2 base) as -> by congruence.
  pose proof (block_NoDup _ _ _ Ok) as Hnd. rewrite fmap_app in Hnd. change (base :: fl.*1 ++ al.*1) with (((base, 0) :: fl).*1 ++ al.*1) in Hnd.
  apply NoDup_app in Hnd as [Hnd _]. rewrite E, fmap_app, fmap_cons in Hnd. apply NoDup_app in Hnd as (_ & Hd1 & [Hd2 _]%NoDup_cons).
  assert (Hlen : length fl = (length c1 + length c2)%nat).
  { pose proof (f_equal length E) as He. rewrite length_app in He. cbn in He. lia. }
  eapply (scan h fl al nu c2 base c1 f); [done|done|exists []; by rewrite app_nil_r|done|by rewrite Ef|lia|done|]. intros Hc2.
  destruct c1 as [|b c1].
  - injection E as <- E. apply (at_freep h fl al nu [] (base, 0) c2 (default (base, 0) (last c2))); try done; [by rewrite E|].
    intros Hs. apply Hend; [done|lia].
  - injection E as <- E. cbn [links fst snd] in Hl1. destruct Hl1 as [Hb Hl1]. eapply loop_small; [exact Hb|cbn; lia|].
    assert (base <> f.1). { intros Eb. apply (Hd1 f.1); [rewrite <- Eb|]; left. }
    replace (base =? hp_freep h) with false by lia. cbn [length] in Hlen. destruct (k - length c2)%nat as [|k'] eqn:Ek; [lia|].
    unfold continue. wp_step. eapply wp_hdr; [exact Hb|]. cbn [s_ptr]. eapply (scan h fl al nu c1 f.1 [] (base, 0)); [done|done|exists (f :: c2); by rewrite E|done| |lia|done|].
    + rewrite Ef. intros Hin. apply (Hd1 f.1); [by right|left].
    + intros Hc1. rewrite <- (last_default _ (base, 0)). apply (at_freep h fl al nu ((base, 0) :: c1) f c2); try done;
        [by rewrite E|constructor; [cbn; lia|done]|].
      intros Hs. apply Hend; [done|lia].
Qed.

(** *** malloc *)
Lemma walk_fit h fl al nu q k e n x :
  heap_ok h fl al -> 1 <= nu -> q = hp_freep h -> hp_mem h !! q = Some (mkHeader e n) -> (length fl <= k)%nat ->
  x ∈ fl -> nu <= x.2 -> wp (malloc_loop base k nu q e) h (got al nu (length fl)).
Proof.
  intros Ok Hnu Hq Hh Hk Hx Hn. eapply (walk h fl al); try done. rewrite Forall_forall. intros Hs. specialize (Hs x Hx). lia.
Qed.
Lemma freep_hdr h fl al : heap_ok h fl al -> exists e n, hp_mem h !! hp_freep h = Some (mkHeader e n).
Proof.
  intros Ok. pose proof (ok_freep _ _ _ Ok) as (f & -> & (c1 & c2 & E)%list_elem_of_split)%list_elem_of_fmap.
  pose proof (ok_links _ _ _ Ok) as Hl. rewrite E in Hl. apply links_app in Hl as (_ & Hf & _). eauto.
Qed.
(** malloc answers 0 only if no block is large enough and the break cannot be
    moved, and leaves the heap alone then. *)
Definition refused (h : heap) (fl : list blk) (nu : Z) (r : Z) (h' : heap) : Prop :=
  r = 0 /\ h' = h /\ Forall (fun x => x.2 < nu) fl /\ hp_limit h < hp_brk h + UNIT * room nu.
Lemma loop_spec h fl al nu k e n :
  heap_ok h fl al -> 1 <= nu < 2 ^ 27 -> hp_mem h !! hp_freep h = Some (mkHeader e n) -> (2 * length fl + 2 <= k)%nat ->
  wp (malloc_loop base k nu (hp_freep h) e) h (fun r h' => refused h fl nu r h' \/ got al nu (S (length fl)) r h').
Proof.
  intros Ok Hnu Hh Hk. eapply (walk h fl al); [done|lia|done|done|lia| |].
  - intros r h' (a & fl' & -> & Ok' & Hl). right. exists a, fl'. split_and!; [done|done|lia].
  - intros Hs k' Hk'. unfold refill. wp_step. eapply wp_mono; [apply (morecore_spec h fl al); [done|done|lia]|].
    intros r h' [(-> & -> & Hlim)|(-> & Hr & fl' & Ok' & Hlen & x & Hx & Hxn)].
    + cbn. wp_step. left. done.
    + rewrite (proj2 (Z.eqb_neq _ _) Hr). destruct k' as [|k']; [lia|]. cbn [continue]. destruct (freep_hdr _ _ _ Ok') as (e' & n' & Eh).
      wp_step. eapply wp_hdr; [exact Eh|]. cbn [s_ptr]. eapply wp_mono; [eapply (walk_fit h' fl' al); [done|lia|done|done|lia|done|done]|].
      intros r h'' (a & fl'' & -> & Ok'' & Hl). right. exists a, fl''. split_and!; [done|done|lia].
Qed.
(** Before the first call, and between the calls. *)
Definition heap_at (h : heap) (fl al : list blk) : Prop :=
  heap_ok h fl al \/
  (hp_freep h = 0 /\ hp_brk h = heap0 /\ fl = [] /\ al = [] /\ hp_brk h <= hp_limit h /\ hp_limit h < heap0 + 2 ^ 36).
Lemma units_range nbytes : 0 <= nbytes <= 2 ^ 31 - 32 -> 1 <= units nbytes < 2 ^ 27 /\ nbytes + UNIT <= UNIT * units nbytes.
Proof. unfold units, UNIT. intros Hn. pose proof (Z.div_mod (nbytes + 16 - 1) 16). pose proof (Z.mod_pos_bound (nbytes + 16 - 1) 16). lia. Qed.
Lemma malloc_spec h fl al nbytes k :
  heap_at h fl al -> 0 <= nbytes <= 2 ^ 31 - 32 -> (2 * length fl + 2 <= k)%nat ->
  wp (malloc base k nbytes) h (fun r h' =>
    (r = 0 /\ heap_at h' fl al /\ Forall (fun x => x.2 < units nbytes) fl /\ hp_limit h < hp_brk h + UNIT * room (units nbytes)) \/
    got al (units nbytes) (S (length fl)) r h').
Proof.
  intros Hat Hn Hk. pose proof (units_range _ Hn) as [Hu _]. unfold malloc. rewrite u32_small by lia. wp_step. wp_step. wp_step.
  destruct Hat as [Ok|(Hf & Hb & -> & -> & Hlim1 & Hlim2)].
  - rewrite (proj2 (Z.eqb_neq _ _) (freep_pos _ _ _ Ok)). wp_step. destruct (freep_hdr _ _ _ Ok) as (e & n & Eh).
    wp_step. eapply wp_hdr; [exact Eh|]. cbn [s_ptr]. eapply wp_mono; [eapply (loop_spec h fl al); [done|done|done|lia]|].
    intros r h' [(-> & -> & Hs & Hr)|Hg]; [left|by right]. split_and!; try done. by left.
  - rewrite (proj2 (Z.eqb_eq _ _) Hf). wp_step. apply wp_set; [by left|]. wp_step. wp_step. wp_step.
    eapply wp_set_some; [apply lookup_insert_eq|by left|]. wp_step. wp_step. eapply wp_hdr; [apply lookup_insert_eq|].
    unfold wm, upd, upd_hp_freep, upd_s_ptr, upd_s_size. cbn [s_ptr s_size hp_mem hp_freep hp_brk hp_limit]. rewrite insert_insert_eq.
    set (h1 := mkHeap _ _ _ _). assert (Ok : heap_ok h1 [] []).
    { constructor; cbn; [by rewrite lookup_insert_eq|by left|done|by intros x Hx%elem_of_nil|exists []; done|lia]. }
    eapply wp_mono; [eapply (loop_spec h1 [] []); [done|done|apply lookup_insert_eq|done]|].
    intros r h' [(-> & -> & Hs & Hr)|Hg]; [left|by right]. split_and!; try done. by left.
Qed.

(** *** When everything is free again *)
Lemma spaced_touch lo l x y : spaced lo l -> x ∈ l -> y ∈ l -> fin x <> y.1.
Proof.
  revert lo. induction l as [|z l IH]; intros lo Hs Hx Hy; [by apply elem_of_nil in Hx|]. cbn [spaced] in Hs. destruct Hs as (H1 & H2 & H3).
  apply elem_of_cons in Hx as [->|Hx], Hy as [->|Hy]; [unfold fin, UNIT; lia| | |by eapply IH].
  - destruct (spaced_in _ _ _ H3 Hy). lia.
  - destruct (spaced_in _ _ _ H3 Hx). unfold fin, UNIT in *. lia.
Qed.
Lemma all_free h fl : heap_ok h fl [] -> (fl = [] /\ hp_brk h = heap0) \/ exists n, fl = [(heap0, n)] /\ hp_brk h = heap0 + UNIT * n.
Proof.
  intros Ok. destruct (ok_tiles _ _ _ Ok) as (t & Hp & Ht). rewrite app_nil_r in Hp. destruct t as [|x [|y t]]; cbn [tiles] in Ht.
  - left. apply Permutation_nil_l in Hp. by subst.
  - right. destruct Ht as (<- & _ & Ht). exists x.2. apply Permutation_singleton_l in Hp. subst fl. by destruct x.
  - exfalso. destruct Ht as (_ & _ & Hy & _). apply (spaced_touch _ _ x y (ok_spaced _ _ _ Ok)); [rewrite <- Hp; left|rewrite <- Hp; right; left|done].
Qed.
End heap.

(** ** A client

    Any sequence of calls; the client keeps what malloc gave it with the size
    it asked for, and frees by position. *)
Inductive call := Alloc (nbytes : Z) | Free (i : nat).
Fixpoint session (base : Z) (k : nat) (calls : list call) (live : list (Z * Z)) : H (list (Z * Z)) :=
  match calls with
  | [] => ret live
  | Alloc nbytes :: calls =>
    let! r := malloc base k nbytes in
    session base k calls (if r =? 0 then live else (r, nbytes) :: live)
  | Free i :: calls =>
    match live !! i with
    | Some x => free base k x.1 ;! session base k calls (delete i live)
    | None => session base k calls live
    end
  end.
Definition fresh (heap0 limit : Z) : heap := mkHeap ∅ 0 heap0 limit.
Definition request_ok (c : call) : Prop := match c with Alloc n => 0 <= n <= 2 ^ 31 - 32 | Free _ => True end.
Definition owned (live : list (Z * Z)) : list blk := (fun x => (x.1 - UNIT, units x.2)) <$> live.

Section client.
Context (base heap0 : Z) (Hbase : 0 < base) (Hheap : base + UNIT <= heap0).
Lemma owned_delete live i x : live !! i = Some x -> owned live ≡ₚ (x.1 - UNIT, units x.2) :: owned (delete i live).
Proof. intros E. unfold owned. rewrite (delete_Permutation live i x E) at 1. done. Qed.
Definition client_ok (h : heap) (live : list (Z * Z)) : Prop :=
  exists fl, heap_at base heap0 h fl (owned live) /\ Forall (fun z => 0 <= z.2 <= 2 ^ 31 - 32) live.
Lemma session_ok k calls : forall live h fl,
  heap_at base heap0 h fl (owned live) -> Forall (fun z => 0 <= z.2 <= 2 ^ 31 - 32) live ->
  Forall request_ok calls -> (2 * (length fl + length calls) + 2 <= k)%nat ->
  wp (session base k calls live) h (fun live' h' => client_ok h' live').
Proof.
  induction calls as [|[nbytes|i] calls IH]; intros live h fl Hat Hlv Hc Hk; cbn [session length] in *.
  - wp_step. by exists fl.
  - inversion Hc as [|? ? Hn Hc']; subst. wp_step. eapply wp_mono; [eapply malloc_spec; [done|done|exact Hat|done|lia]|].
    intros r h' [(-> & Hat' & _)|(a & fl' & -> & Ok & Hlen)]; [eapply IH; [exact Hat'|done|done|lia]|].
    assert (Ha : heap0 <= a) by (apply (tiled_in heap0 _ _ (a, units nbytes) (ok_tiles _ _ _ _ _ Ok)); apply elem_of_app; right; left).
    replace (a + UNIT =? 0) with false by (unfold UNIT in *; lia). eapply (IH _ _ fl'); [|by constructor|done|lia]. left.
    unfold owned. rewrite fmap_cons. cbn [fst snd]. by replace (a + UNIT - UNIT) with a by lia.
  - inversion Hc as [|? ? _ Hc']; subst. destruct (live !! i) as [x|] eqn:Ei; [|eapply IH; [exact Hat|done|done|lia]].
    pose proof (owned_delete _ _ _ Ei) as Hp. destruct Hat as [Ok|(_ & _ & _ & El & _)]; [|by rewrite El in Hp; apply Permutation_nil_cons in Hp].
    wp_step. replace x.1 with (x.1 - UNIT + UNIT) by lia.
    eapply wp_mono; [eapply (free_spec base heap0 Hbase Hheap _ fl); [exact Ok|exact Hp|lia]|].
    intros _ h' (fl' & Ok' & Hlen & _). eapply (IH _ _ fl'); [by left|by apply Forall_delete|done|lia].
Qed.
Lemma client_tiled h live x : client_ok h live -> x ∈ live ->
  exists fl, heap_ok base heap0 h fl (owned live) /\ x.1 + x.2 <= fin (x.1 - UNIT, units x.2).
Proof.
  intros (fl & Hat & Hl) Hx. rewrite Forall_forall in Hl. exists fl. split.
  - destruct Hat as [Ok|(_ & _ & _ & El & _)]; [done|]. apply (list_elem_of_fmap_2 (fun x => (x.1 - UNIT, units x.2))) in Hx. fold (owned live) in Hx.
    rewrite El in Hx. by apply elem_of_nil in Hx.
  - destruct (units_range x.2); [by apply Hl|]. unfold fin. cbn [fst snd]. lia.
Qed.
Lemma live_apart h live i j x y :
  client_ok h live -> i <> j -> live !! i = Some x -> live !! j = Some y -> x.1 + x.2 <= y.1 \/ y.1 + y.2 <= x.1.
Proof.
  intros Hc Hij Hi Hj. destruct (client_tiled h live x Hc) as (fl & Ok & Hx); [by eapply list_elem_of_lookup_2|].
  destruct (client_tiled h live y Hc) as (_ & _ & Hy); [by eapply list_elem_of_lookup_2|].
  assert (Hd : exists j', delete i live !! j' = Some y).
  { destruct (decide (j < i)%nat); [exists j; by rewrite list_lookup_delete_lt|]. exists (j - 1)%nat. rewrite list_lookup_delete_ge by lia. by replace (S (j - 1)) with j by lia. }
  destruct Hd as (j' & Hd). pose proof (ok_tiles _ _ _ _ _ Ok) as Ht.
  apply (tiled_perm _ _ _ ((x.1 - UNIT, units x.2) :: (y.1 - UNIT, units y.2) :: fl ++ owned (delete j' (delete i live)))) in Ht.
  - apply tiled_apart in Ht. cbn [fst snd] in Ht. unfold UNIT in *. lia.
  - rewrite (owned_delete _ _ _ Hi), (owned_delete _ _ _ Hd). solve_Permutation.
Qed.
End client.

(** C7. malloc and free work for every client.  Take any sequence of requests
    of at most 2^31 - 32 bytes and of frees of what was given out, from the
    first call on, on a heap the break may grow in up to [limit].  The calls
    return (the loops run at most twice around the free list), no header is
    read or written that is not one, and at the end every block the client
    holds lies between the start of the heap and the break, with the bytes it
    asked for, apart from all others.  When the client holds none, the memory
    is one free block again, behind the static header: nothing is lost and
    nothing stays in pieces. *)
Theorem malloc_free_session base heap0 limit calls k :
  0 < base -> base + UNIT <= heap0 -> heap0 <= limit < heap0 + 2 ^ 36 -> Forall request_ok calls -> (2 * length calls + 2 <= k)%nat ->
  wp (session base k calls []) (fresh heap0 limit) (fun live h =>
    (forall x, x ∈ live -> heap0 <= x.1 - UNIT /\ x.1 + x.2 <= hp_brk h /\ hp_brk h <= hp_limit h) /\
    (forall i j x y, i <> j -> live !! i = Some x -> live !! j = Some y -> x.1 + x.2 <= y.1 \/ y.1 + y.2 <= x.1) /\
    (live = [] -> hp_brk h = heap0 \/
      exists n, hp_brk h = heap0 + UNIT * n /\
        hp_mem h !! base = Some (mkHeader heap0 0) /\ hp_mem h !! heap0 = Some (mkHeader base n))).
Proof.
  intros Hb Hh Hlim Hc Hk. eapply wp_mono.
  - apply (session_ok base heap0 Hb Hh k calls [] _ []); [|done|done|cbn; lia]. right. cbn. split_and!; try done; lia.
  - intros live h Ok. split_and!.
    + intros x Hx. destruct (client_tiled _ _ h live x Ok Hx) as (fl & Ok' & Hn). pose proof (ok_limit _ _ _ _ _ Ok').
      destruct (tiled_in heap0 _ _ (x.1 - UNIT, units x.2) (ok_tiles _ _ _ _ _ Ok')) as (? & ? & _);
        [apply elem_of_app; right; by apply (list_elem_of_fmap_2 (fun x => (x.1 - UNIT, units x.2)))|]. cbn [fst] in *. lia.
    + intros i j x y. by apply (live_apart base heap0 h).
    + intros ->. destruct Ok as (fl & [Ok|(_ & ? & _)] & _); [|by left]. destruct (all_free _ _ Hh _ _ Ok) as [[_ ?]|(n & -> & Hn)]; [by left|].
      right. exists n. pose proof (ok_links _ _ _ _ _ Ok) as (H1 & H2 & _). done.
Qed.
(** Three blocks from a heap of two pages at 0x4000, one of them returned and
    given out again. *)
Lemma malloc_free_session_witness :
  wp (session 4096 20 [Alloc 100; Alloc 200; Free 1; Alloc 40; Alloc 3000] []) (fresh 16384 (16384 + 65536)) (fun live h =>
    (forall x, x ∈ live -> 16384 <= x.1 - UNIT /\ x.1 + x.2 <= hp_brk h /\ hp_brk h <= hp_limit h) /\
    (forall i j x y, i <> j -> live !! i = Some x -> live !! j = Some y -> x.1 + x.2 <= y.1 \/ y.1 + y.2 <= x.1) /\
    (live = [] -> hp_brk h = 16384 \/
      exists n, hp_brk h = 16384 + UNIT * n /\
        hp_mem h !! 4096 = Some (mkHeader 16384 0) /\ hp_mem h !! 16384 = Some (mkHeader 4096 n))).
Proof.
  apply (malloc_free_session 4096 16384 (16384 + 65536)); [lia|unfold UNIT; lia|lia| |cbn; lia].
  repeat (constructor; [cbn; lia || exact I|]). constructor.
Defined.
End MallocSpec.
