(* ===== verification/Sh.v ===== *)
(** * sh.c: the shell

    The parser works on the line buffer with positions for pointers: a string
    of a command is the pair of [argv[i]] and [eargv[i]].  Command nodes are
    trees: every node comes from malloc and is reached from its parent only. *)

From S2P Require Import Prelude State CString Console Syscall UserLib.

(** Commands with strings of type [str]. *)
Inductive command (str : Type) :=
| EXEC (argv : list str)
| REDIR (c : command str) (file : str) (mode fd : Z)
| PIPE (left right : command str)
| LIST (left right : command str)
| BACK (c : command str).
Arguments EXEC {str} _.
Arguments REDIR {str} _ _ _ _.
Arguments PIPE {str} _ _.
Arguments LIST {str} _ _.
Arguments BACK {str} _.
Notation cmd := (command (nat * nat)).

Module Sh.
Import Sys Ulib Uprintf.

Definition MAXARGS : Z := 10.
Definition whitespace : list Z := [32; 9; 13; 10; 11; 0].
Definition symbols : list Z := lit "<|>&;()" ++ [0].
Definition shpanic {A} (s : list Z) : U A :=
  fprintf 2 (lit "%s" ++ [10]) [AStr (Some s)] ;!
  exit 1.
Definition found (s : list Z) (c : Z) : bool := if strchr s c is Some (Some _) then true else false.

(** Constructors; malloc's result is not checked, and memory is not short. *)
Definition execcmd : cmd := EXEC [].
Definition redircmd (subcmd : cmd) (file efile : nat) (mode fd : Z) : cmd := REDIR subcmd (file, efile) mode fd.
Definition pipecmd (left right : cmd) : cmd := PIPE left right.
Definition listcmd (left right : cmd) : cmd := LIST left right.
Definition backcmd (subcmd : cmd) : cmd := BACK subcmd.

Section parse.
(** The buffer, and the position of its first NUL. *)
Context (buf : list Z) (es : nat).

Definition char (s : nat) : U Z := match buf !! s with Some c => ret c | None => fault "line buffer" end.
(** while(s < es && p( *s )) s++; [k] is es - s. *)
Fixpoint skip (p : Z -> bool) (k s : nat) : U nat :=
  match k with
  | O => ret s
  | S k => let! c := char s in if p c then skip p k (S s) else ret s
  end.
Definition skip_blank (s : nat) : U nat := skip (found whitespace) (es - s) s.
(** The token, where its text begins and ends, and where to go on. *)
Definition gettoken (s : nat) : U (Z * nat * nat * nat) :=
  let! s := skip_blank s in
  let q := s in
  let! c := char s in
  let! r :=
    (if c =? 0 then ret (c, s)
     else if found (lit "|();&<" ++ [0]) c then ret (c, S s)
     else if c =? 62 then
       let! d := char (S s) in
       if d =? 62 then ret (43, S (S s)) else ret (c, S s)
     else
       let! s := skip (fun c => negb (found whitespace c) && negb (found symbols c)) (es - s) s in
       ret (97, s)) in
  let '(tok, eq) := r in
  let! s := skip_blank eq in
  ret (tok, q, eq, s).
Definition peek (toks : list Z) (s : nat) : U (bool * nat) :=
  let! s := skip_blank s in
  let! c := char s in
  ret (negb (c =? 0) && found (toks ++ [0]) c, s).

Fixpoint parseredirs (k : nat) (c : cmd) (s : nat) : U (cmd * nat) :=
  let! r := peek (lit "<>") s in
  let '(more, s) := r in
  if negb more then ret (c, s) else
  match k with
  | O => nofuel
  | S k =>
      let! r := gettoken s in
      let '(tok, _, _, s) := r in
      let! r := gettoken s in
      let '(tok2, q, eq, s) := r in
      if negb (tok2 =? 97) then shpanic (lit "missing file for redirection") else
      let c :=
        if tok =? 60 then redircmd c q eq Sysfile.O_RDONLY 0
        else if tok =? 62 then redircmd c q eq (Z.lor (Z.lor Sysfile.O_WRONLY Sysfile.O_CREATE) Sysfile.O_TRUNC) 1
        else if tok =? 43 then redircmd c q eq (Z.lor Sysfile.O_WRONLY Sysfile.O_CREATE) 1
        else c in
      parseredirs k c s
  end.

(** parseexec keeps a pointer to the execcmd that [c] wraps in redirections. *)
Fixpoint add_arg {str} (c : command str) (a : str) : command str :=
  match c with
  | EXEC argv => EXEC (argv ++ [a])
  | REDIR c file mode fd => REDIR (add_arg c a) file mode fd
  | _ => c
  end.
Fixpoint parseargs (k : nat) (argc : Z) (c : cmd) (s : nat) : U (cmd * nat) :=
  let! r := peek (lit "|)&;") s in
  let '(stop, s) := r in
  if stop : bool then ret (c, s) else
  let! r := gettoken s in
  let '(tok, q, eq, s) := r in
  if tok =? 0 then ret (c, s) else
  if negb (tok =? 97) then shpanic (lit "syntax") else
  let c := add_arg c (q, eq) in
  let argc := argc + 1 in
  if MAXARGS <=? argc then shpanic (lit "too many args") else
  match k with
  | O => nofuel
  | S k =>
      let! r := parseredirs (S es) c s in
      let '(c, s) := r in
      parseargs k argc c s
  end.

(** The loop of parseline. *)
Fixpoint parseback (k : nat) (c : cmd) (s : nat) : U (cmd * nat) :=
  let! r := peek (lit "&") s in
  let '(more, s) := r in
  if negb more then ret (c, s) else
  match k with
  | O => nofuel
  | S k => let! r := gettoken s in parseback k (backcmd c) r.2
  end.

Fixpoint parseline (k : nat) (s : nat) : U (cmd * nat) :=
  match k with
  | O => nofuel
  | S k =>
      let! r := parsepipe k s in
      let '(c, s) := r in
      let! r := parseback (S es) c s in
      let '(c, s) := r in
      let! r := peek (lit ";") s in
      let '(more, s) := r in
      if more : bool then
        let! r := gettoken s in
        let! r := parseline k r.2 in
        let '(rest, s) := r in
        ret (listcmd c rest, s)
      else ret (c, s)
  end
with parsepipe (k : nat) (s : nat) : U (cmd * nat) :=
  match k with
  | O => nofuel
  | S k =>
      let! r := parseexec k s in
      let '(c, s) := r in
      let! r := peek (lit "|") s in
      let '(more, s) := r in
      if more : bool then
        let! r := gettoken s in
        let! r := parsepipe k r.2 in
        let '(rest, s) := r in
        ret (pipecmd c rest, s)
      else ret (c, s)
  end
with parseexec (k : nat) (s : nat) : U (cmd * nat) :=
  match k with
  | O => nofuel
  | S k =>
      let! r := peek (lit "(") s in
      let '(block, s) := r in
      if block : bool then parseblock k s else
      let! r := parseredirs (S es) execcmd s in
      let '(c, s) := r in
      parseargs (S es) 0 c s
  end
with parseblock (k : nat) (s : nat) : U (cmd * nat) :=
  match k with
  | O => nofuel
  | S k =>
      let! r := peek (lit "(") s in
      let '(more, s) := r in
      if negb more then shpanic (lit "parseblock") else
      let! r := gettoken s in
      let! r := parseline k r.2 in
      let '(c, s) := r in
      let! r := peek (lit ")") s in
      let '(more, s) := r in
      if negb more then shpanic (lit "syntax - missing )") else
      let! r := gettoken s in
      parseredirs (S es) c r.2
  end.
End parse.

(** *eargv[i] = 0 *)
Definition cut (buf : list Z) (eq : nat) : U (list Z) :=
  if decide (eq < length buf)%nat then ret (<[eq := 0]> buf) else fault "line buffer".
Fixpoint cut_all (args : list (nat * nat)) (buf : list Z) : U (list Z) :=
  match args with
  | [] => ret buf
  | a :: args => let! buf := cut buf a.2 in cut_all args buf
  end.
Fixpoint nulterminate (c : cmd) (buf : list Z) : U (list Z) :=
  match c with
  | EXEC argv => cut_all argv buf
  | REDIR c file _ _ => let! buf := nulterminate c buf in cut buf file.2
  | PIPE l r | LIST l r => let! buf := nulterminate l buf in nulterminate r buf
  | BACK c => nulterminate c buf
  end.
(** The command, and the buffer its strings are in. *)
Definition parsecmd (k : nat) (buf : list Z) : U (cmd * list Z) :=
  match strlen buf with
  | None => fault "strlen"
  | Some n =>
      let es := Z.to_nat n in
      let! r := parseline buf es k 0 in
      let '(c, s) := r in
      let! r := peek buf es [] s in
      let s := r.2 in
      if negb (bool_decide (s = es)) then
        fprintf 2 (lit "leftovers: %s" ++ [10]) [AStr (Some (drop s buf))] ;!
        shpanic (lit "syntax")
      else
        let! buf := nulterminate c buf in
        ret (c, buf)
  end.

End Sh.

(** ** Running commands

    A process of the shell: what its descriptors are, and what the system
    answers.  A fork runs the child until it is replaced by a program or exits
    and goes on with the parent: the two share no memory, and the descriptor
    tables are separate, so only the order of [sh_log] depends on it.  What
    the programs do is not modelled; [sh_runs] has their exit status. *)
Inductive desc := DFile (name : list Z) (mode : Z) | DPipeR (n : nat) | DPipeW (n : nat).
Record shell := mkShell {
  sh_world : world;
  sh_fds : gmap Z desc;
  sh_npipes : nat;
  sh_opens : list Z -> Z -> bool;
  sh_runs : list (list Z) -> option Z;
  sh_chdirs : list Z -> bool;
  sh_forks : list bool;
  sh_kids : list Z;
  sh_log : list (list (list Z) * gmap Z desc);
}.
Definition eta_shell s := mkShell (sh_world s) (sh_fds s) (sh_npipes s) (sh_opens s) (sh_runs s) (sh_chdirs s) (sh_forks s) (sh_kids s) (sh_log s).
#[export] Instance upd_sh_world : Upd sh_world := ltac:(mk_upd sh_world eta_shell).
#[export] Instance upd_sh_fds : Upd sh_fds := ltac:(mk_upd sh_fds eta_shell).
#[export] Instance upd_sh_npipes : Upd sh_npipes := ltac:(mk_upd sh_npipes eta_shell).
#[export] Instance upd_sh_forks : Upd sh_forks := ltac:(mk_upd sh_forks eta_shell).
#[export] Instance upd_sh_kids : Upd sh_kids := ltac:(mk_upd sh_kids eta_shell).
#[export] Instance upd_sh_log : Upd sh_log := ltac:(mk_upd sh_log eta_shell).
Notation R := (M shell).

Module Run.
Import Uprintf Sh.

Definition lift {A} (m : U A) : R A := fun s =>
  match m (sh_world s) with
  | Done a w => Done a (s <| sh_world := w |>)
  | Panic msg w => Panic msg (s <| sh_world := w |>)
  | Fault msg w => Fault msg (s <| sh_world := w |>)
  | NoFuel => NoFuel
  | Switch _ _ => NoFuel
  end.
Definition exit {A} (n : Z) : R A := lift (Sys.exit n).

(** The descriptors; [w_fds] has what can be read from them. *)
Fixpoint fdalloc (k : nat) (fd : Z) (fds : gmap Z desc) : Z :=
  match k with
  | O => -1
  | S k => if fds !! fd is Some _ then fdalloc k (fd + 1) fds else fd
  end.
Definition new_fd (d : desc) (input : list Z) : R Z :=
  let! fds := gets sh_fds in
  let fd := fdalloc (Z.to_nat NOFILE) 0 fds in
  if fd <? 0 then ret (-1) else
  modify (upd sh_fds (insert fd d)) ;!
  modify (upd sh_world (upd w_fds (insert fd input))) ;!
  ret fd.
Definition close (fd : Z) : R unit :=
  modify (upd sh_fds (delete fd)) ;!
  modify (upd sh_world (upd w_fds (delete fd))).
Definition open (name : list Z) (mode : Z) : R Z :=
  let! s := gets id in
  if sh_opens s name mode then
    new_fd (DFile name mode)
      (if List.find (fun f => bool_decide (f.1 = name)) (w_files (sh_world s)) is Some f then f.2 else [])
  else ret (-1).
Definition dup (fd : Z) : R Z :=
  let! s := gets id in
  match sh_fds s !! fd with
  | Some d => new_fd d (default [] (w_fds (sh_world s) !! fd))
  | None => ret (-1)
  end.
(** Both descriptors, or [None] for -1. *)
Definition pipe : R (option (Z * Z)) :=
  let! n := gets sh_npipes in
  modify (upd sh_npipes S) ;!
  let! r := new_fd (DPipeR n) [] in
  if r <? 0 then ret None else
  let! w := new_fd (DPipeW n) [] in
  if w <? 0 then close r ;! ret None else ret (Some (r, w)).

(** exec returns only if it fails. *)
Definition exec (argv : list (list Z)) : R unit :=
  let! s := gets id in
  match sh_runs s argv with
  | None => ret tt
  | Some status =>
      modify (upd sh_log (fun l => l ++ [(argv, sh_fds s)])) ;!
      exit status
  end.
(** fork: the child runs [child], which does not return. *)
Definition fork (child : R unit) : R Z := fun s =>
  match sh_forks s with
  | false :: l => Done (-1) (s <| sh_forks := l |>)
  | _ =>
      match child (s <| sh_forks ::= tail |> <| sh_kids := [] |>) with
      | Panic _ s' =>
          Done 1 (s' <| sh_fds := sh_fds s |>
            <| sh_world ::= fun w => w <| w_fds := w_fds (sh_world s) |> <| w_exit := w_exit (sh_world s) |> |>
            <| sh_kids := sh_kids s ++ [default 0 (w_exit (sh_world s'))] |>)
      | Done _ s' => Fault "fork" s'
      | Fault msg s' => Fault msg s'
      | NoFuel => NoFuel
      | Switch _ _ => NoFuel
      end
  end.
(** The status of the child that has exited, in the order of the forks; -1
    without children leaves *status alone. *)
Definition wait : R (option Z) :=
  let! kids := gets sh_kids in
  modify (upd sh_kids tail) ;!
  ret (head kids).

(** if(fork1() == 0) child *)
Definition fork1 (child : R unit) : R unit :=
  let! pid := fork child in
  if pid =? -1 then lift (shpanic (lit "fork")) else ret tt.

(** A string of a command, in the buffer nulterminate left. *)
Definition text (buf : list Z) (a : nat * nat) : list Z := cstr (drop a.1 buf).
Fixpoint runcmd (buf : list Z) (c : cmd) : R unit :=
  match c with
  | EXEC argv =>
      match argv with
      | [] => exit 1
      | a :: _ =>
          exec (text buf <$> argv) ;!
          lift (fprintf 2 (lit "exec %s failed" ++ [10]) [AStr (Some (text buf a))]) ;!
          exit 0
      end
  | REDIR c file mode fd =>
      close fd ;!
      let! r := open (text buf file) mode in
      if r <? 0 then
        lift (fprintf 2 (lit "open %s failed" ++ [10]) [AStr (Some (text buf file))]) ;!
        exit 1
      else runcmd buf c
  | LIST l r =>
      fork1 (runcmd buf l) ;!
      let! _ := wait in
      runcmd buf r
  | PIPE l r =>
      let! p := pipe in
      match p with
      | None => lift (shpanic (lit "pipe"))
      | Some (p0, p1) =>
          fork1 (close 1 ;! let! _ := dup p1 in close p0 ;! close p1 ;! runcmd buf l) ;!
          fork1 (close 0 ;! let! _ := dup p0 in close p0 ;! close p1 ;! runcmd buf r) ;!
          close p0 ;!
          close p1 ;!
          let! _ := wait in
          let! _ := wait in
          exit 0
      end
  | BACK c =>
      fork1 (runcmd buf c) ;!
      exit 0
  end.
(** runcmd(parsecmd(buf)); a line has fewer than [k] / 4 characters. *)
Definition run_line (k : nat) (buf : list Z) : R unit :=
  let! r := lift (parsecmd k buf) in
  runcmd r.2 r.1.

(** ** The main loop *)

Definition LINEBUF : nat := 100.
(** The buffer of [LINEBUF] characters after a memset and fgets; [None] is a
    result of -1. *)
Definition filled (line : list Z) : option (list Z) :=
  let buf := line ++ replicate (LINEBUF - length line) 0 in
  if bool_decide (head buf = Some 0) then None else Some buf.
Definition getcmd : R (option (list Z)) :=
  let! _ := lift (Sys.write 2 (lit "$ ")) in
  let! line := lift (Ulib.gets (Z.of_nat LINEBUF)) in
  ret (filled line).
Definition readcmd (fd : Z) : R (option (list Z)) :=
  let! line := lift (Ulib.fgets fd (Z.of_nat LINEBUF)) in
  ret (filled line).
Definition chdir (path : list Z) : R Z :=
  let! s := gets id in ret (if sh_chdirs s path then 0 else -1).

Fixpoint open_console (k : nat) : R unit :=
  let! fd := open (lit "console") Sysfile.O_RDWR in
  if fd <? 0 then ret tt else
  if 3 <=? fd then close fd else
  match k with O => nofuel | S k => open_console k end.
Fixpoint profile_loop (k : nat) (fd : Z) : R unit :=
  let! r := readcmd fd in
  match r with
  | None => ret tt
  | Some buf =>
      match k with
      | O => nofuel
      | S k =>
          fork1 (run_line 404 buf) ;!
          let! status := wait in
          if negb (default 0 status =? 0) then ret tt else profile_loop k fd
      end
  end.
Fixpoint main_loop (k : nat) : R unit :=
  let! r := getcmd in
  match r with
  | None => ret tt
  | Some buf =>
      match k with
      | O => nofuel
      | S k =>
          if bool_decide (take 3 buf = lit "cd ") then
            let buf := <[(length (cstr buf) - 1)%nat := 0]> buf in
            let! r := chdir (cstr (drop 3 buf)) in
            (if r <? 0 then lift (fprintf 2 (lit "cannot cd %s" ++ [10]) [AStr (Some (drop 3 buf))]) else ret tt) ;!
            main_loop k
          else
            fork1 (run_line 404 buf) ;!
            let! _ := wait in
            main_loop k
      end
  end.
Definition sh_main (k : nat) : R unit :=
  open_console (Z.to_nat NOFILE) ;!
  let! fd := open (lit ".profile") Sysfile.O_RDWR in
  (if 0 <=? fd then profile_loop k fd ;! close fd else ret tt) ;!
  main_loop k ;!
  exit 0.

End Run.
