(* ===== verification/ShSpec.v ===== *)
(** * What the shell's parser does

    Two results.  On every line [parsecmd] ends, with a command whose strings
    are words of the line or with exit(1).  And every command of the grammar,
    written out in any spacing, is parsed to its tree. *)

From S2P Require Import Prelude State CString Console Syscall UserLib Sh.

Module ShSpec.
Import Sys Ulib Uprintf Sh.

(** ** Code that may end the process with status 1 *)
Definition ewp {A} (m : U A) (w : world) (Q : A -> world -> Prop) : Prop :=
  match m w with
  | Done a w' => Q a w'
  | Panic msg w' => msg = "exit"%string /\ w_exit w' = Some 1
  | _ => False
  end.
Lemma ewp_bind {A B} (m : U A) (f : A -> U B) w Q : ewp m w (fun a w' => ewp (f a) w' Q) -> ewp (bind m f) w Q.
Proof. unfold ewp, bind. by destruct (m w). Qed.
Lemma ewp_ret {A} (a : A) w (Q : A -> world -> Prop) : Q a w -> ewp (ret a) w Q.
Proof. done. Qed.
Lemma ewp_wp {A} (m : U A) w Q : wp m w Q -> ewp m w Q.
Proof. intros (a & w' & E & H)%wp_done. unfold ewp. by rewrite E. Qed.
Lemma ewp_mono {A} (m : U A) w (Q Q' : A -> world -> Prop) : ewp m w Q -> (forall a w', Q a w' -> Q' a w') -> ewp m w Q'.
Proof. unfold ewp. destruct (m w); auto. Qed.
(** Printing only adds to the output. *)
Lemma wp_write fd bytes w (Q : Z -> world -> Prop) :
  Q (Z.of_nat (length bytes)) (w <| w_out ::= fun l => l ++ [(fd, bytes)] |>) -> wp (write fd bytes) w Q.
Proof. intros HQ. unfold write. wp_step. wp_step. by wp_step. Qed.
Lemma wp_puts fd l w : wp (for_list l (putc fd)) w (fun _ _ => True).
Proof.
  apply (wp_for_list (fun _ _ => True)); [done| |done]. intros n b s' _ _. unfold putc. wp_step. apply wp_write. by wp_step.
Qed.
(** A format with %s only, and a string for each. *)
Fixpoint fmt_ok (fmt : list Z) (ap : list parg) {struct fmt} : bool :=
  match fmt with
  | [] => true
  | c :: fmt =>
      if c =? 37 then
        match fmt, ap with d :: fmt, AStr _ :: ap => (d =? 115) && fmt_ok fmt ap | _, _ => false end
      else fmt_ok fmt ap
  end.
Lemma wp_fprintf fd n : forall fmt ap w, (length fmt <= n)%nat -> fmt_ok fmt ap = true -> wp (fprintf fd fmt ap) w (fun _ _ => True).
Proof.
  unfold fprintf. induction n as [|n IH]; intros [|c fmt] ap w Hn Hok; cbn [length] in Hn; try lia; try (cbn; by wp_step).
  cbn [fmt_ok] in Hok. cbn [vprintf]. destruct (Z.eqb_spec c 37) as [->|Hc]; cbn [negb].
  - destruct fmt as [|d fmt], ap as [|[| |s] ap]; try done. apply andb_prop in Hok as [->%Z.eqb_eq Hok]. cbn [Z.eqb Pos.eqb].
    wp_step. eapply wp_mono; [apply wp_puts|]. intros _ w' _. apply IH; [cbn in Hn; lia|done].
  - wp_step. unfold putc. wp_step. apply wp_write. wp_step. apply IH; [lia|done].
Qed.
Lemma ewp_shpanic {A} s w (Q : A -> world -> Prop) : ewp (shpanic s) w Q.
Proof.
  unfold shpanic. apply ewp_bind, ewp_wp. eapply wp_mono; [by eapply wp_fprintf|]. done.
Qed.

(** ** Characters and words *)
Definition blank (c : Z) : bool := found whitespace c.
Definition wordchar (c : Z) : bool := negb (found whitespace c) && negb (found symbols c).
(** Membership in a NUL-terminated array. *)
Lemma found_spec l c : 0 ∉ l -> found (l ++ [0]) c = true <-> c ∈ l.
Proof.
  induction l as [|a l IH]; intros H0; unfold found; cbn [app strchr].
  - cbn. split; [done|by intros ?%not_elem_of_nil].
  - apply not_elem_of_cons in H0 as [Ha H0]. rewrite (proj2 (Z.eqb_neq a 0)) by congruence. rewrite elem_of_cons, <- (IH H0). unfold found.
    destruct (Z.eqb_spec a c) as [->|Hac]; [tauto|]. destruct (strchr (l ++ [0]) c) as [[n|]|]; cbn; naive_solver.
Qed.
Lemma found_lit l c : bool_decide (0 ∈ l) = false -> found (l ++ [0]) c = bool_decide (c ∈ l).
Proof.
  intros H0%bool_decide_eq_false. apply eq_bool_prop_intro. rewrite !Is_true_true, bool_decide_eq_true. by apply found_spec.
Qed.
Section line.
Context (buf : list Z) (es : nat).
(** The line ends at [es]. *)
Context (Hes : buf !! es = Some 0) (Hbuf : forall i, (i < es)%nat -> exists c, buf !! i = Some c /\ c <> 0).
Definition all (p : Z -> bool) (s e : nat) : Prop := forall i, (s <= i < e)%nat -> exists c, buf !! i = Some c /\ p c = true.
(** From [s] to [e] every character satisfies [p], the one at [e] does not. *)
Definition run (p : Z -> bool) (s e : nat) : Prop :=
  (s <= e <= es)%nat /\ all p s e /\ (e = es \/ exists c, buf !! e = Some c /\ c <> 0 /\ p c = false).

Lemma wp_char s w (Q : Z -> world -> Prop) c : buf !! s = Some c -> Q c w -> wp (char buf s) w Q.
Proof. intros E HQ. unfold char. rewrite E. by wp_step. Qed.
Lemma wp_skip p w (Q : nat -> world -> Prop) k : forall s, k = (es - s)%nat -> (s <= es)%nat ->
  (forall e, run p s e -> Q e w) -> wp (skip buf p k s) w Q.
Proof.
  induction k as [|k IH]; intros s Hk Hs HQ; cbn [skip].
  - wp_step. apply HQ. split; [lia|]. split; [intros i Hi; lia|left; lia].
  - destruct (Hbuf s) as (c & Ec & Hc); [lia|]. wp_step. eapply wp_char; [exact Ec|]. destruct (p c) eqn:Ep.
    + apply IH; [lia|lia|]. intros e (He & Ha & Hend). apply HQ. split; [lia|]. split; [|done].
      intros i Hi. destruct (decide (i = s)) as [->|]; [eauto|]. apply Ha. lia.
    + wp_step. apply HQ. split; [lia|]. split; [intros i Hi; lia|]. right. eauto.
Qed.
Lemma run_unique p s e e' : run p s e -> run p s e' -> e = e'.
Proof.
  assert (Hle : forall e e', run p s e -> run p s e' -> (e <= e')%nat).
  { intros x y (Hx & Hax & _) (Hy & _ & [->|(c & Ec & _ & Hc)]); [lia|]. destruct (Nat.le_gt_cases x y); [done|].
    destruct (Hax y) as (c' & Ec' & Hc'); [lia|]. congruence. }
  intros H1 H2. apply Nat.le_antisymm; auto.
Qed.
(** A string of the line: a word that cannot be made longer. *)
Definition word_at (a : nat * nat) : Prop := (a.1 < a.2)%nat /\ run wordchar a.1 a.2.
(** What gettoken found between [q] and [eq]. *)
Inductive lexed (q eq : nat) : Z -> Prop :=
| lex_end : q = es -> eq = es -> lexed q eq 0
| lex_word : word_at (q, eq) -> lexed q eq 97
| lex_sym c : found (lit "|();&<" ++ [0]) c = true -> buf !! q = Some c -> eq = S q -> lexed q eq c
| lex_app : buf !! q = Some 62 -> buf !! S q = Some 62 -> eq = S (S q) -> lexed q eq 43
| lex_gt : buf !! q = Some 62 -> buf !! S q <> Some 62 -> eq = S q -> lexed q eq 62.
Lemma at_end s : (s <= es)%nat -> buf !! s = Some 0 <-> s = es.
Proof.
  intros Hs. split; [|by intros ->]. intros E. destruct (Nat.lt_ge_cases s es) as [Hlt|]; [|lia].
  destruct (Hbuf s Hlt) as (c & Ec & Hc). congruence.
Qed.
Lemma at_lt s c : (s <= es)%nat -> buf !! s = Some c -> c <> 0 -> (s < es)%nat.
Proof. intros Hs E Hc. destruct (decide (s = es)) as [->|]; [congruence|lia]. Qed.
Lemma at_some s : (s <= es)%nat -> exists c, buf !! s = Some c.
Proof. intros Hs. destruct (decide (s = es)) as [->|]; [eauto|]. destruct (Hbuf s) as (c & ? & _); [lia|eauto]. Qed.
Lemma lexed_le q eq tok : (q <= es)%nat -> lexed q eq tok -> (q <= eq <= es)%nat /\ (tok <> 0 -> (q < eq)%nat).
Proof.
  intros Hq Hl. destruct Hl as [-> ->|[? (? & _)]|c Hf Ec ->|E1 E2 ->|E1 _ ->]; cbn in *; [lia|lia|..].
  - assert (c <> 0) by (by intros ->). pose proof (at_lt q c Hq Ec). lia.
  - pose proof (at_lt q 62 Hq E1 ltac:(done)). pose proof (at_lt (S q) 62 ltac:(lia) E2 ltac:(done)). lia.
  - pose proof (at_lt q 62 Hq E1 ltac:(done)). lia.
Qed.
Lemma wp_blank s w (Q : nat -> world -> Prop) : (s <= es)%nat -> (forall e, run blank s e -> Q e w) -> wp (skip_blank buf es s) w Q.
Proof. intros Hs HQ. by apply wp_skip. Qed.
Lemma gettoken_spec s w (Q : Z * nat * nat * nat -> world -> Prop) : (s <= es)%nat ->
  (forall tok q eq s', run blank s q -> lexed q eq tok -> run blank eq s' -> Q (tok, q, eq, s') w) ->
  wp (gettoken buf es s) w Q.
Proof.
  intros Hs HQ. unfold gettoken. wp_step. apply wp_blank; [done|]. intros q Hq. destruct (at_some q) as (c & Ec); [apply Hq|].
  wp_step. eapply wp_char; [exact Ec|]. wp_step.
  assert (Hfin : forall tok eq, lexed q eq tok -> wp (let! s := skip_blank buf es eq in ret (tok, q, eq, s)) w Q).
  { intros tok eq Hl. destruct (lexed_le q eq tok) as [? _]; [apply Hq|done|]. wp_step. apply wp_blank; [lia|]. intros e He. wp_step. by apply HQ. }
  destruct (Z.eqb_spec c 0) as [->|Hc].
  { wp_step. apply at_end in Ec; [|apply Hq]. by apply Hfin, lex_end. }
  destruct (found (lit "|();&<" ++ [0]) c) eqn:Ef; [wp_step; by apply Hfin, lex_sym|].
  destruct (Z.eqb_spec c 62) as [->|Hgt].
  - destruct (at_some (S q)) as (d & Ed). { pose proof (at_lt q 62 ltac:(apply Hq) Ec Hc). lia. }
    wp_step. eapply wp_char; [exact Ed|]. destruct (Z.eqb_spec d 62) as [->|Hd]; wp_step; apply Hfin; [by apply lex_app|apply lex_gt; congruence].
  - wp_step. apply wp_skip; [done|apply Hq|]. intros e He. wp_step. apply Hfin, lex_word. split; [|exact He]. cbn.
    destruct (proj1 He) as [Hle _]. destruct (decide (q = e)) as [<-|]; [|lia]. exfalso.
    destruct He as (_ & _ & [->|(c' & Ec' & _ & Hw)]); [congruence|]. assert (c' = c) as -> by congruence.
    destruct Hq as (_ & _ & [->|(c' & Ec2 & _ & Hb)]); [congruence|]. assert (c' = c) as -> by congruence.
    unfold wordchar in Hw. fold (blank c) in Hw. rewrite Hb in Hw. cbn [negb andb] in Hw. apply negb_false_iff in Hw.
    rewrite found_lit in Ef by done. apply bool_decide_eq_false in Ef. unfold symbols in Hw. rewrite found_lit in Hw by done.
    apply bool_decide_eq_true in Hw. apply Ef. cbn in Hw |- *. set_solver.
Qed.
Lemma peek_spec toks s w (Q : bool * nat -> world -> Prop) : (s <= es)%nat ->
  (forall s' c, run blank s s' -> buf !! s' = Some c -> Q (negb (c =? 0) && found (toks ++ [0]) c, s') w) ->
  wp (peek buf es toks s) w Q.
Proof.
  intros Hs HQ. unfold peek. wp_step. apply wp_blank; [done|]. intros e He. destruct (at_some e) as (c & Ec); [apply He|].
  wp_step. eapply wp_char; [exact Ec|]. wp_step. by apply HQ.
Qed.

(** ** Every line *)
Fixpoint ok_cmd (c : cmd) : Prop :=
  match c with
  | EXEC argv => Forall word_at argv /\ Z.of_nat (length argv) < MAXARGS
  | REDIR c file _ _ => ok_cmd c /\ word_at file
  | PIPE l r | LIST l r => ok_cmd l /\ ok_cmd r
  | BACK c => ok_cmd c
  end.
(** The number of arguments of the execcmd inside the redirections. *)
Fixpoint inner (c : cmd) : option Z :=
  match c with
  | EXEC argv => Some (Z.of_nat (length argv))
  | REDIR c _ _ _ => inner c
  | _ => None
  end.
Lemma add_arg_ok c a n : ok_cmd c -> word_at a -> inner c = Some n -> n + 1 < MAXARGS -> ok_cmd (add_arg c a) /\ inner (add_arg c a) = Some (n + 1).
Proof.
  induction c as [argv|c IH file mode fd|l IHl r IHr|l IHl r IHr|c IH]; cbn [ok_cmd inner add_arg]; intros Hc Ha Hn Hlt; try done.
  - injection Hn as <-. rewrite length_app, Forall_app. cbn [length]. split; [|f_equal; lia]. split; [|lia]. split; [apply Hc|by constructor].
  - destruct Hc as [Hc Hf], (IH Hc Ha Hn Hlt). done.
Qed.
(** A token begins at [s]. *)
Definition seen (s : nat) : Prop := exists c, buf !! s = Some c /\ c <> 0 /\ run blank s s.
(** A step of the parser: from [s] it stays in the line. *)
Definition ahead (s : nat) (Q : cmd -> Prop) : cmd * nat -> world -> Prop := fun r _ => Q r.1 /\ (s <= r.2 <= es)%nat.
Lemma ewp_peek {A} toks s w (f : bool * nat -> U A) Q : (s <= es)%nat ->
  (forall s' more, (s <= s' <= es)%nat -> (more = true -> seen s') -> ewp (f (more, s')) w Q) ->
  ewp (bind (peek buf es toks s) f) w Q.
Proof.
  intros Hs HQ. apply ewp_bind, ewp_wp. apply peek_spec; [done|]. intros s' c (Hle & _ & Hend) Ec. apply HQ; [lia|].
  intros [Hc _]%andb_prop. exists c. split; [done|]. split; [by intros ->|]. split; [lia|]. split; [intros i Hi; lia|done].
Qed.
(** gettoken where peek has found something. *)
Lemma ewp_token {A} s w (f : Z * nat * nat * nat -> U A) Q : (s <= es)%nat ->
  (forall tok q eq s', (s <= q)%nat -> (eq <= s' <= es)%nat -> (q <= eq)%nat -> (tok <> 0 -> (q < eq)%nat) -> (tok = 97 -> word_at (q, eq)) ->
    (seen s -> (s < s')%nat) -> ewp (f (tok, q, eq, s')) w Q) ->
  ewp (bind (gettoken buf es s) f) w Q.
Proof.
  intros Hs HQ. apply ewp_bind, ewp_wp. apply gettoken_spec; [done|]. intros tok q eq s' Hq Hl He.
  destruct (lexed_le q eq tok) as [Hle Hlt]; [apply Hq|done|]. pose proof Hq as [Hq' _]. pose proof He as [He' _].
  apply HQ; [lia|lia|lia|done| |].
  - intros ->. by inversion Hl; subst.
  - intros (c & Ec & Hc & Hr). pose proof (run_unique _ _ _ _ Hq Hr) as ->.
    destruct Hl; try (pose proof (Hlt ltac:(done)); lia).
    + congruence.
    + assert (c0 = c) as -> by congruence. specialize (Hlt Hc). lia.
Qed.
Lemma parseredirs_ok k : forall c s w, ok_cmd c -> (s <= es)%nat -> (es - s < k)%nat ->
  ewp (parseredirs buf es k c s) w (ahead s (fun c' => ok_cmd c' /\ inner c' = inner c)).
Proof.
  induction k as [|k IH]; intros c s w Hc Hs Hk; [lia|]. cbn [parseredirs]. apply ewp_peek; [done|]. intros s1 [] H1 Hm; cbn [negb]; [|done].
  apply ewp_token; [lia|]. intros tok q eq s2 Hq He Hqe _ _ Hp. apply ewp_token; [lia|]. intros tok2 q2 eq2 s3 Hq2 He2 Hqe2 _ Hw _.
  specialize (Hp (Hm eq_refl)). destruct (Z.eqb_spec tok2 97) as [E|E]; cbn [negb]; [|apply ewp_shpanic]. specialize (Hw E).
  eapply ewp_mono; [apply IH; [|lia|lia]|].
  - repeat case_match; unfold redircmd; cbn [ok_cmd]; auto.
  - intros r w' ([Hr1 Hr2] & Hr3). split; [split; [done|]|lia]. rewrite Hr2. by repeat case_match.
Qed.
Lemma parseargs_ok k : forall argc c s w, ok_cmd c -> inner c = Some argc -> (s <= es)%nat -> (es - s < k)%nat ->
  ewp (parseargs buf es k argc c s) w (ahead s ok_cmd).
Proof.
  induction k as [|k IH]; intros argc c s w Hc Hn Hs Hk; [lia|]. cbn [parseargs]. apply ewp_peek; [done|]. intros s1 [] H1 _; [done|].
  apply ewp_token; [lia|]. intros tok q eq s2 Hq He Hqe Hlt Hw _. destruct (Z.eqb_spec tok 0) as [E0|E0]; [apply ewp_ret; split; [done|cbn; lia]|].
  specialize (Hlt E0). destruct (Z.eqb_spec tok 97) as [E|E]; cbn [negb]; [|apply ewp_shpanic].
  destruct (Z.leb_spec MAXARGS (argc + 1)) as [Hmax|Hmax]; [apply ewp_shpanic|].
  destruct (add_arg_ok c (q, eq) argc) as [Ha Hi]; auto. apply ewp_bind.
  eapply ewp_mono; [apply parseredirs_ok; [done|lia|lia]|]. intros [c' s3] w' ([Hc' Hi'] & Hs3). cbn [fst snd] in *.
  eapply ewp_mono; [apply IH; [done|congruence|lia|lia]|]. intros r w'' [Hr1 Hr2]. split; [done|lia].
Qed.
Lemma parseback_ok k : forall c s w, ok_cmd c -> (s <= es)%nat -> (es - s < k)%nat ->
  ewp (parseback buf es k c s) w (ahead s ok_cmd).
Proof.
  induction k as [|k IH]; intros c s w Hc Hs Hk; [lia|]. cbn [parseback]. apply ewp_peek; [done|]. intros s1 [] H1 Hm; cbn [negb]; [|done].
  apply ewp_token; [lia|]. intros tok q eq s2 Hq He Hqe _ _ Hp. specialize (Hp (Hm eq_refl)). cbn [snd].
  eapply ewp_mono; [apply IH; [done|lia|lia]|]. intros r w' [Hr1 Hr2]. split; [done|lia].
Qed.
(** All of the recursive descent: each call needs less fuel, and a turn
    through the grammar eats a token. *)
Lemma parse_ok k : forall s w, (s <= es)%nat ->
  ((4 * (es - s) + 4 <= k)%nat -> ewp (parseline buf es k s) w (ahead s ok_cmd)) /\
  ((4 * (es - s) + 3 <= k)%nat -> ewp (parsepipe buf es k s) w (ahead s ok_cmd)) /\
  ((4 * (es - s) + 2 <= k)%nat -> ewp (parseexec buf es k s) w (ahead s ok_cmd)) /\
  ((4 * (es - s) + 1 <= k)%nat -> ewp (parseblock buf es k s) w (ahead s ok_cmd)).
Proof.
  induction k as [|k IH]; intros s w Hs; [split_and!; lia|]. split_and!; intros Hk.
  - cbn [parseline]. apply ewp_bind. eapply ewp_mono; [apply IH; lia|]. intros [c s1] w1 [Hc Hs1]. cbn [fst snd] in *.
    apply ewp_bind. eapply ewp_mono; [apply parseback_ok; [done|lia|lia]|]. intros [c2 s2] w2 [Hc2 Hs2]. cbn [fst snd] in *.
    apply ewp_peek; [lia|]. intros s3 [] H3 Hm; [|split; [done|cbn; lia]].
    apply ewp_token; [lia|]. intros tok q eq s4 Hq He Hqe _ _ Hp. specialize (Hp (Hm eq_refl)). cbn [snd].
    apply ewp_bind. eapply ewp_mono; [apply IH; lia|]. intros [c5 s5] w5 [Hc5 Hs5]. cbn [fst snd] in *. split; [done|cbn; lia].
  - cbn [parsepipe]. apply ewp_bind. eapply ewp_mono; [apply IH; lia|]. intros [c s1] w1 [Hc Hs1]. cbn [fst snd] in *.
    apply ewp_peek; [lia|]. intros s3 [] H3 Hm; [|split; [done|cbn; lia]].
    apply ewp_token; [lia|]. intros tok q eq s4 Hq He Hqe _ _ Hp. specialize (Hp (Hm eq_refl)). cbn [snd].
    apply ewp_bind. eapply ewp_mono; [apply IH; lia|]. intros [c5 s5] w5 [Hc5 Hs5]. cbn [fst snd] in *. split; [done|cbn; lia].
  - cbn [parseexec]. apply ewp_peek; [lia|]. intros s1 [] H1 Hm.
    + eapply ewp_mono; [apply IH; lia|]. intros r w' [Hr1 Hr2]. split; [done|lia].
    + apply ewp_bind. eapply ewp_mono; [apply parseredirs_ok; [by split; [constructor|]|lia|lia]|]. intros [c2 s2] w2 ([Hc2 Hi2] & Hs2). cbn [fst snd] in *.
      eapply ewp_mono; [apply parseargs_ok; [done|done|lia|lia]|]. intros r w' [Hr1 Hr2]. split; [done|lia].
  - cbn [parseblock]. apply ewp_peek; [lia|]. intros s1 [] H1 Hm; cbn [negb]; [|apply ewp_shpanic].
    apply ewp_token; [lia|]. intros tok q eq s2 Hq He Hqe _ _ Hp. specialize (Hp (Hm eq_refl)). cbn [snd].
    apply ewp_bind. eapply ewp_mono; [apply IH; lia|]. intros [c3 s3] w3 [Hc3 Hs3]. cbn [fst snd] in *.
    apply ewp_peek; [lia|]. intros s4 [] H4 _; cbn [negb]; [|apply ewp_shpanic].
    apply ewp_token; [lia|]. intros tok5 q5 eq5 s5 Hq5 He5 Hqe5 _ _ _. cbn [snd].
    eapply ewp_mono; [apply parseredirs_ok; [done|lia|lia]|]. intros r w' ([Hr1 _] & Hr2). split; [done|lia].
Qed.

(** ** nulterminate *)
Fixpoint strings (c : cmd) : list (nat * nat) :=
  match c with
  | EXEC argv => argv
  | REDIR c file _ _ => strings c ++ [file]
  | PIPE l r | LIST l r => strings l ++ strings r
  | BACK c => strings c
  end.
Lemma ok_strings c a : ok_cmd c -> a ∈ strings c -> word_at a.
Proof.
  induction c as [argv|c IH file mode fd|l IHl r IHr|l IHl r IHr|c IH]; cbn [ok_cmd strings]; rewrite ?elem_of_app, ?list_elem_of_singleton.
  - intros [H _]. by apply Forall_forall.
  - intros [H1 H2] [H| ->]; auto.
  - intros [H1 H2] [H|H]; auto.
  - intros [H1 H2] [H|H]; auto.
  - done.
Qed.
Lemma cut_all_spec l : forall b w (Q : list Z -> world -> Prop), Forall (fun a => a.2 < length b)%nat l ->
  (forall b', length b' = length b -> (forall i, b' !! i = if decide (i ∈ l.*2) then Some 0 else b !! i) -> Q b' w) ->
  wp (cut_all l b) w Q.
Proof.
  induction l as [|a l IH]; intros b w Q Hl HQ; cbn [cut_all]; [wp_step; by apply HQ|]. inversion Hl as [|? ? Ha Hl']; subst.
  wp_step. unfold cut. rewrite decide_True by done. wp_step. apply IH; [by rewrite length_insert|]. rewrite length_insert. intros b' Hb' Hi. apply HQ; [done|].
  intros i. rewrite Hi. cbn [fmap list_fmap]. destruct (decide (i ∈ l.*2)) as [Hin|Hin]; [by rewrite decide_True by (by right)|].
  destruct (decide (i = a.2)) as [->|Hne]; [rewrite decide_True by left; by apply list_lookup_insert_eq|].
  rewrite decide_False by (intros [?|?]%elem_of_cons; auto). by apply list_lookup_insert_ne.
Qed.
Lemma cut_all_app l1 l2 b w (Q : list Z -> world -> Prop) :
  wp (cut_all (l1 ++ l2) b) w Q -> wp (cut_all l1 b) w (fun b' w' => wp (cut_all l2 b') w' Q).
Proof.
  revert b w. induction l1 as [|a l1 IH]; intros b w HQ; cbn [app cut_all] in *; [by wp_step|].
  apply wp_done in HQ as (x & w' & E & HQ). apply bind_done_inv in E as (b1 & w1 & E1 & E2). wp_step. eapply wp_eq; [exact E1|].
  apply IH. by eapply wp_eq.
Qed.
Lemma nulterminate_cut c : forall b w Q, wp (cut_all (strings c) b) w Q -> wp (nulterminate c b) w Q.
Proof.
  induction c as [argv|c IH file mode fd|l IHl r IHr|l IHl r IHr|c IH]; intros b w Q HQ; cbn [nulterminate strings] in *; [done| | | |auto].
  - wp_step. apply IH. eapply wp_mono; [apply cut_all_app, HQ|]. intros b' w' H. cbn [cut_all] in H. apply wp_done in H as (x & w2 & E & H).
    apply bind_done_inv in E as (b1 & w1 & E1 & E2). eapply wp_eq; [exact E1|]. by injection E2 as <- <-.
  - wp_step. apply IHl. eapply wp_mono; [apply cut_all_app, HQ|]. auto.
  - wp_step. apply IHl. eapply wp_mono; [apply cut_all_app, HQ|]. auto.
Qed.
(** The text between the two pointers. *)
Definition sub (b : list Z) (a : nat * nat) : list Z := take (a.2 - a.1) (drop a.1 b).
Lemma cstr_sub b q eq : (q <= eq)%nat -> (forall i, (q <= i < eq)%nat -> exists c, b !! i = Some c /\ c <> 0) -> b !! eq = Some 0 ->
  cstr (drop q b) = sub b (q, eq).
Proof.
  unfold sub. cbn [fst snd]. remember (eq - q)%nat as n eqn:En. revert q En. induction n as [|n IH]; intros q En Hq Hc He.
  - assert (q = eq) as -> by lia. rewrite (drop_S _ _ _ He). done.
  - destruct (Hc q) as (c & Ec & Hc0); [lia|]. rewrite (drop_S _ _ _ Ec). cbn [cstr take]. rewrite (proj2 (Z.eqb_neq _ _) Hc0). f_equal.
    apply IH; [lia|lia| |done]. intros i Hi. apply Hc. lia.
Qed.
(** The NULs do not cut into words: the strings of the command are the words
    the parser saw. *)
Lemma nulterminate_text c w (Q : list Z -> world -> Prop) : ok_cmd c ->
  (forall b, (forall a, a ∈ strings c -> cstr (drop a.1 b) = sub buf a) -> Q b w) -> wp (nulterminate c buf) w Q.
Proof.
  intros Hc HQ. assert (Hw : forall a, a ∈ strings c -> word_at a) by (intros a; by apply ok_strings).
  assert (Hlen : (es < length buf)%nat) by (by eapply lookup_lt_Some).
  apply nulterminate_cut, cut_all_spec; [apply Forall_forall; intros a Ha; destruct (Hw a Ha) as (_ & Hr & _); lia|].
  intros b Hb Hi. apply HQ. intros a Ha. destruct (Hw a Ha) as (Hlt & Hr & Hall & _).
  assert (Hkeep : forall i, (a.1 <= i < a.2)%nat -> b !! i = buf !! i).
  { intros i Hia. rewrite Hi. rewrite decide_False; [done|]. intros (x & -> & Hx)%list_elem_of_fmap.
    destruct (Hw x Hx) as (_ & _ & _ & [E|(c' & Ec' & _ & Hwc)]); [lia|]. destruct (Hall x.2 Hia) as (d & Ed & Hd). congruence. }
  rewrite (cstr_sub b a.1 a.2); [| lia | |].
  - destruct a as [q eq]. unfold sub. cbn [fst snd] in *. apply list_eq. intros i. destruct (decide (i < eq - q)%nat).
    + rewrite !lookup_take_lt, !lookup_drop by done. apply Hkeep. lia.
    + by rewrite !lookup_take_ge by lia.
  - intros i Hia. rewrite Hkeep by done. destruct (Hbuf i) as (c' & Ec & Hc'); [lia|eauto].
  - rewrite Hi, decide_True; [done|]. by apply list_elem_of_fmap_2.
Qed.
End line.

(** A line buffer: a NUL at [es], and none before it. *)
Lemma line_of buf n : strlen buf = Some n ->
  buf !! Z.to_nat n = Some 0 /\ forall i, (i < Z.to_nat n)%nat -> exists c, buf !! i = Some c /\ c <> 0.
Proof.
  revert n. induction buf as [|c buf IH]; intros n; unfold strlen; cbn [CString.strlen]; [done|]. destruct (Z.eqb_spec c 0) as [->|Hc].
  - intros [= <-]. split; [done|]. intros i Hi. cbn in Hi. lia.
  - destruct (CString.strlen buf) as [m|] eqn:E; [|done]. intros [= <-]. destruct (IH m E) as [H1 H2].
    assert (Hm : 0 <= m). { pose proof (strlen_cstr _ _ E). lia. }
    rewrite Z2Nat.inj_succ by done. split; [done|]. intros [|i] Hi; [by exists c|]. apply H2. lia.
Qed.

(** C16. parsecmd ends on every line.  With 4 calls for each character (and 4
    more) it either prints an error and exits with status 1, or returns a
    command in which every argument and file name is a non-empty word of the
    line (no blank, no symbol, and not a part of a longer word) and every
    argv has fewer than MAXARGS entries; it reads nothing outside the line,
    and the NULs nulterminate writes cut off each string behind its word and
    touch no other word. *)
Theorem parsecmd_total k buf n w : strlen buf = Some n -> 4 * n + 4 <= Z.of_nat k ->
  ewp (parsecmd k buf) w (fun r _ =>
    let '(c, buf') := r in
    ok_cmd buf (Z.to_nat n) c /\ forall a, a ∈ strings c -> Run.text buf' a = sub buf a).
Proof.
  intros Hn Hk. destruct (line_of buf n Hn) as [Hes Hbuf]. pose proof (strlen_cstr _ _ Hn) as [Hn0 _]. unfold parsecmd. rewrite Hn.
  apply ewp_bind. eapply ewp_mono; [eapply (parse_ok buf (Z.to_nat n)); [done|done|lia|lia]|]. intros [c s] w1 [Hc Hs]. cbn [fst snd] in *.
  apply (ewp_peek buf (Z.to_nat n)); [done|done|lia|]. intros s2 more Hs2 _. cbn [snd]. case_bool_decide; cbn [negb].
  - apply ewp_bind, ewp_wp. eapply nulterminate_text; [done|done|done|]. intros b Hb. apply ewp_ret. done.
  - apply ewp_bind, ewp_wp. eapply wp_mono; [by eapply wp_fprintf|]. intros _ w' _. apply ewp_shpanic.
Qed.
Lemma parsecmd_total_witness :
  let buf := lit "a<b|(c;d&)>>e;" ++ [10; 0; 0] in
  ewp (parsecmd 404 buf) (mkWorld [] ∅ [] [] None) (fun r _ =>
    let '(c, buf') := r in
    ok_cmd buf 15 c /\ forall a, a ∈ strings c -> Run.text buf' a = sub buf a).
Proof. apply (parsecmd_total 404 _ 15); [reflexivity|lia]. Defined.

End ShSpec.
