(* ===== verification/ShGrammar.v ===== *)
(** * The grammar of the shell, and printing it back

    Commands as the grammar has them, the tokens they are written with, and
    the trees the shell runs.  A command written out in any spacing is parsed
    to its tree. *)

From S2P Require Import Prelude State CString Console Syscall UserLib Sh ShSpec.

(** ** The grammar *)
Inductive kind := KIn | KOut | KAppend.
Notation redir := (kind * list Z)%type.
Inductive line :=
| Last (p : pipeline) (amps : nat)
| Seq (p : pipeline) (amps : nat) (l : line)
with pipeline :=
| One (e : element)
| Piped (e : element) (p : pipeline)
with element :=
| Simple (first : list redir) (args : list (list Z * list redir))
| Block (l : line) (after : list redir).

Scheme line_ind' := Induction for line Sort Prop
with pipeline_ind' := Induction for pipeline Sort Prop
with element_ind' := Induction for element Sort Prop.
Combined Scheme grammar_ind from line_ind', pipeline_ind', element_ind'.

Inductive token := TWord (w : list Z) | TSym (c : Z) | TGt | TApp.

Module ShGrammar.
Import Sys Ulib Uprintf Sh ShSpec.

(** *** Tokens *)
Definition redir_tokens (r : redir) : list token :=
  [match r.1 with KIn => TSym 60 | KOut => TGt | KAppend => TApp end; TWord r.2].
Definition redirs_tokens (rs : list redir) : list token := rs ≫= redir_tokens.
Definition args_tokens (args : list (list Z * list redir)) : list token :=
  args ≫= fun a => TWord a.1 :: redirs_tokens a.2.
Fixpoint line_tokens (l : line) : list token :=
  match l with
  | Last p n => pipe_tokens p ++ replicate n (TSym 38)
  | Seq p n l => pipe_tokens p ++ replicate n (TSym 38) ++ TSym 59 :: line_tokens l
  end
with pipe_tokens (p : pipeline) : list token :=
  match p with
  | One e => element_tokens e
  | Piped e p => element_tokens e ++ TSym 124 :: pipe_tokens p
  end
with element_tokens (e : element) : list token :=
  match e with
  | Simple rs args => redirs_tokens rs ++ args_tokens args
  | Block l rs => TSym 40 :: line_tokens l ++ TSym 41 :: redirs_tokens rs
  end.

(** *** Trees: a later redirection is outside an earlier one *)
Definition redirect (c : command (list Z)) (r : redir) : command (list Z) :=
  match r.1 with
  | KIn => REDIR c r.2 Sysfile.O_RDONLY 0
  | KOut => REDIR c r.2 (Z.lor (Z.lor Sysfile.O_WRONLY Sysfile.O_CREATE) Sysfile.O_TRUNC) 1
  | KAppend => REDIR c r.2 (Z.lor Sysfile.O_WRONLY Sysfile.O_CREATE) 1
  end.
Definition background (n : nat) (c : command (list Z)) : command (list Z) := Nat.iter n BACK c.
Fixpoint line_tree (l : line) : command (list Z) :=
  match l with
  | Last p n => background n (pipe_tree p)
  | Seq p n l => LIST (background n (pipe_tree p)) (line_tree l)
  end
with pipe_tree (p : pipeline) : command (list Z) :=
  match p with
  | One e => element_tree e
  | Piped e p => PIPE (element_tree e) (pipe_tree p)
  end
with element_tree (e : element) : command (list Z) :=
  match e with
  | Simple rs args => foldl redirect (EXEC args.*1) (rs ++ (args ≫= snd))
  | Block l rs => foldl redirect (line_tree l) rs
  end.

(** *** Well-formed commands: words, and not too many *)
Definition good_word (w : list Z) : Prop := w <> [] /\ Forall (fun c => c <> 0 /\ wordchar c = true) w.
Definition good_redirs (rs : list redir) : Prop := Forall (fun r => good_word r.2) rs.
Fixpoint good_line (l : line) : Prop :=
  match l with Last p _ => good_pipe p | Seq p _ l => good_pipe p /\ good_line l end
with good_pipe (p : pipeline) : Prop :=
  match p with One e => good_element e | Piped e p => good_element e /\ good_pipe p end
with good_element (e : element) : Prop :=
  match e with
  | Simple rs args =>
      good_redirs rs /\ Forall (fun a => good_word a.1 /\ good_redirs a.2) args /\ Z.of_nat (length args) < MAXARGS
  | Block l rs => good_line l /\ good_redirs rs
  end.

(** *** Text: blanks before each token and at the end *)
Definition spell (t : token) : list Z :=
  match t with TWord w => w | TSym c => [c] | TGt => [62] | TApp => [62; 62] end.
(** What may follow the token without becoming part of it. *)
Definition may_follow (t : token) (text : list Z) : Prop :=
  match t, text with
  | TWord _, c :: _ => wordchar c = false
  | TGt, c :: _ => c <> 62
  | _, _ => True
  end.
Inductive written : list token -> list Z -> Prop :=
| written_end b : Forall (fun c => blank c = true) b -> written [] b
| written_token b t ts text :
    Forall (fun c => blank c = true) b -> may_follow t text -> written ts text ->
    written (t :: ts) (b ++ spell t ++ text).

(** ** Tokens in the line buffer *)
Section line.
Context (buf : list Z) (es : nat).
Context (Hes : buf !! es = Some 0) (Hbuf : forall i, (i < es)%nat -> exists c, buf !! i = Some c /\ c <> 0).
Notation word_at := (word_at buf es).
Notation run := (run buf es).
Inductive token_at (q eq : nat) : token -> Prop :=
| at_word w : word_at (q, eq) -> sub buf (q, eq) = w -> token_at q eq (TWord w)
| at_sym c : found (lit "|();&<" ++ [0]) c = true -> buf !! q = Some c -> eq = S q -> token_at q eq (TSym c)
| at_gt : buf !! q = Some 62 -> buf !! S q <> Some 62 -> eq = S q -> token_at q eq TGt
| at_app : buf !! q = Some 62 -> buf !! S q = Some 62 -> eq = S (S q) -> token_at q eq TApp.
Fixpoint spells (s : nat) (ts : list token) : Prop :=
  match ts with
  | [] => run blank s es
  | t :: ts => exists q eq, run blank s q /\ token_at q eq t /\ spells eq ts
  end.
Definition code (t : token) : Z := match t with TWord _ => 97 | TSym c => c | TGt => 62 | TApp => 43 end.

Lemma word_head q eq : word_at (q, eq) -> exists c, buf !! q = Some c /\ wordchar c = true /\ c <> 0.
Proof.
  intros (Hlt & Hr & Ha & _). cbn in *. destruct (Ha q) as (c & Ec & Hc); [lia|]. destruct (Hbuf q) as (c' & Ec' & Hc'); [lia|].
  exists c. split; [done|]. split; [done|]. congruence.
Qed.
Lemma sym_plain c : found (lit "|();&<" ++ [0]) c = true -> wordchar c = false /\ blank c = false /\ c <> 0 /\ c <> 62.
Proof. rewrite found_lit by done. intros H%bool_decide_eq_true. cbn in H. rewrite !elem_of_cons in H. destruct H as [->|[->|[->|[->|[->|[->|[]%not_elem_of_nil]]]]]]; done. Qed.
Lemma token_lexed q eq t eq' tok : token_at q eq t -> lexed buf es q eq' tok -> eq' = eq /\ tok = code t.
Proof.
  intros Ht Hl. destruct Ht as [w Hw _|c Hc Ec ->|E1 E2 ->|E1 E2 ->].
  - destruct (word_head _ _ Hw) as (c & Ec & Hwc & Hc0). destruct Hl as [-> _|Hw'|c' Hc' Ec' _|E1 _ _|E1 _ _].
    + congruence.
    + split; [|done]. eapply run_unique; [exact (proj2 Hw')|exact (proj2 Hw)].
    + assert (c' = c) as -> by congruence. destruct (sym_plain _ Hc') as (? & _). congruence.
    + assert (c = 62) as -> by congruence. done.
    + assert (c = 62) as -> by congruence. done.
  - destruct (sym_plain _ Hc) as (Hwc & _ & Hc0 & Hc62). destruct Hl as [-> _|Hw'|c' Hc' Ec' ->|E1 _ _|E1 _ _].
    + congruence.
    + destruct (word_head _ _ Hw') as (d & Ed & Hd & _). assert (d = c) as -> by congruence. congruence.
    + split; [done|cbn; congruence].
    + congruence.
    + congruence.
  - destruct Hl as [-> _|Hw'|c' Hc' Ec' ->|_ E3 _|_ _ ->]; [congruence| | |congruence|done].
    + destruct (word_head _ _ Hw') as (d & Ed & Hd & _). assert (d = 62) as -> by congruence. done.
    + destruct (sym_plain _ Hc') as (_ & _ & _ & ?). congruence.
  - destruct Hl as [-> _|Hw'|c' Hc' Ec' ->|_ _ ->|_ E3 _]; [congruence| | |done|congruence].
    + destruct (word_head _ _ Hw') as (d & Ed & Hd & _). assert (d = 62) as -> by congruence. done.
    + destruct (sym_plain _ Hc') as (_ & _ & _ & ?). congruence.
Qed.
Lemma token_len q eq t : (q <= es)%nat -> token_at q eq t -> (q < eq <= es)%nat.
Proof.
  intros Hq Ht. assert (exists tok, lexed buf es q eq tok /\ tok <> 0) as (tok & Hl & H0).
  { destruct Ht as [w Hw _|c Hc Ec ->|E1 E2 ->|E1 E2 ->]; eexists; (split; [by econstructor|]); [done|by apply sym_plain|done|done]. }
  destruct (lexed_le buf es Hes q eq tok Hq Hl) as [? Hlt]. specialize (Hlt H0). lia.
Qed.
Lemma spells_le s ts : spells s ts -> (s + length ts <= es)%nat.
Proof.
  revert s. induction ts as [|t ts IH]; intros s; cbn [spells length]; [intros [? _]; lia|].
  intros (q & eq & [Hq _] & Ht & Hs). apply token_len in Ht; [|lia]. specialize (IH _ Hs). lia.
Qed.
Lemma spells_skip s s' ts : run blank s s' -> spells s ts -> spells s' ts.
Proof.
  intros Hr. destruct ts as [|t ts]; cbn [spells].
  - intros H. pose proof (run_unique _ _ _ _ _ _ Hr H) as ->. split; [lia|]. split; [intros i Hi; lia|by left].
  - intros (q & eq & Hq & H). pose proof (run_unique _ _ _ _ _ _ Hr Hq) as ->. exists q, eq. split; [|done].
    destruct Hq as (Hle & _ & He). split; [lia|]. split; [intros i Hi; lia|done].
Qed.
Lemma gettoken_spells s t ts w (Q : Z * nat * nat * nat -> world -> Prop) : spells s (t :: ts) ->
  (forall q eq s', token_at q eq t -> spells s' ts -> (s < s')%nat -> Q (code t, q, eq, s') w) -> wp (gettoken buf es s) w Q.
Proof.
  intros Hs HQ. pose proof (spells_le _ _ Hs) as Hle. cbn [spells] in Hs. destruct Hs as (q & eq & Hq & Ht & Hs).
  apply (gettoken_spec buf es Hes Hbuf); [lia|]. intros tok q' eq' s' Hq' Hl He. pose proof (run_unique _ _ _ _ _ _ Hq' Hq) as ->.
  destruct (token_lexed _ _ _ _ _ Ht Hl) as [-> ->]. pose proof (proj1 Hq). pose proof (proj1 He). apply token_len in Ht as Hlen; [|lia].
  apply HQ; [done|by eapply spells_skip|lia].
Qed.
Lemma gettoken_end s w (Q : Z * nat * nat * nat -> world -> Prop) : spells s [] -> Q (0, es, es, es) w -> wp (gettoken buf es s) w Q.
Proof.
  cbn [spells]. intros Hs HQ. apply (gettoken_spec buf es Hes Hbuf); [apply Hs|]. intros tok q eq s' Hq Hl He.
  pose proof (run_unique _ _ _ _ _ _ Hq Hs) as ->. assert (lexed buf es es es 0) as Hl0 by by constructor.
  inversion Hl as [? ? E|Hw|c Hc Ec|E1|E1]; subst; try congruence.
  - pose proof (proj1 He). by replace s' with es in * by lia.
  - destruct (word_head _ _ Hw) as (d & Ed & _ & Hd). congruence.
  - destruct (sym_plain _ Hc) as (_ & _ & ? & _). congruence.
Qed.
(** Whether peek sees one of the characters. *)
Definition starts (toks : list Z) (ts : list token) : bool :=
  match ts with
  | TSym c :: _ => bool_decide (c ∈ toks)
  | (TGt | TApp) :: _ => bool_decide (62 ∈ toks)
  | _ => false
  end.
Lemma peek_spells toks s ts w (Q : bool * nat -> world -> Prop) : forallb (fun c => negb (wordchar c)) toks = true -> bool_decide (0 ∈ toks) = false ->
  spells s ts -> (forall s', spells s' ts -> (s <= s')%nat -> Q (starts toks ts, s') w) -> wp (peek buf es toks s) w Q.
Proof.
  intros Hw H0 Hs HQ. pose proof (spells_le _ _ Hs) as Hle. apply (peek_spec buf es Hes Hbuf); [lia|]. intros s' c Hr Ec.
  replace (negb (c =? 0) && found (toks ++ [0]) c) with (starts toks ts); [apply HQ; [by eapply spells_skip|apply Hr]|].
  rewrite found_lit by done. destruct ts as [|t ts]; cbn [spells] in Hs.
  - pose proof (run_unique _ _ _ _ _ _ Hr Hs) as ->. assert (c = 0) as -> by congruence. done.
  - destruct Hs as (q & eq & Hq & Ht & _). pose proof (run_unique _ _ _ _ _ _ Hr Hq) as ->. destruct Ht as [x Hx _|d Hd Ed _|E _ _|E _ _]; cbn [starts].
    + destruct (word_head _ _ Hx) as (d & Ed & Hwd & Hd). assert (d = c) as -> by congruence. symmetry. apply andb_false_intro2.
      apply bool_decide_eq_false. intros Hin. rewrite forallb_forall in Hw. apply list_elem_of_In in Hin. specialize (Hw c Hin). by rewrite Hwd in Hw.
    + assert (d = c) as -> by congruence. destruct (sym_plain _ Hd) as (_ & _ & Hc & _). by rewrite (proj2 (Z.eqb_neq _ _) Hc).
    + by assert (c = 62) as -> by congruence.
    + by assert (c = 62) as -> by congruence.
Qed.

(** ** The parser on printed commands *)
Fixpoint cmap {A B} (f : A -> B) (c : command A) : command B :=
  match c with
  | EXEC argv => EXEC (f <$> argv)
  | REDIR c file mode fd => REDIR (cmap f c) (f file) mode fd
  | PIPE l r => PIPE (cmap f l) (cmap f r)
  | LIST l r => LIST (cmap f l) (cmap f r)
  | BACK c => BACK (cmap f c)
  end.
(** [c] is the tree [t] with its strings in the line. *)
Definition means (c : cmd) (t : command (list Z)) : Prop := ok_cmd buf es c /\ cmap (sub buf) c = t.
Lemma add_arg_cmap {A B} (f : A -> B) c a : cmap f (add_arg c a) = add_arg (cmap f c) (f a).
Proof. induction c as [argv|c IH file mode fd|l IHl r IHr|l IHl r IHr|c IH]; cbn [cmap add_arg]; [by rewrite fmap_app|by rewrite IH|done|done|done]. Qed.
Lemma add_arg_redirs rs : forall t a, add_arg (foldl redirect t rs) a = foldl redirect (add_arg t a) rs.
Proof. induction rs as [|[[] f] rs IH]; intros t a; cbn [foldl]; [done|..]; by rewrite IH. Qed.

Definition after (s : nat) (ts : list token) (t : command (list Z)) (w : world) (Q : cmd * nat -> world -> Prop) : Prop :=
  forall c s', means c t -> spells s' ts -> (s <= s')%nat -> Q (c, s') w.
Lemma parseredirs_spells rs : forall k c t s ts w (Q : cmd * nat -> world -> Prop),
  means c t -> spells s (redirs_tokens rs ++ ts) -> starts (lit "<>") ts = false -> (length rs <= k)%nat ->
  (forall c' s', means c' (foldl redirect t rs) -> inner c' = inner c -> spells s' ts -> (s <= s')%nat -> Q (c', s') w) ->
  wp (parseredirs buf es k c s) w Q.
Proof.
  induction rs as [|[kd file] rs IH]; intros k c t s ts w Q Hc Hs Hts Hk HQ.
  - destruct k as [|k]; cbn [parseredirs]; wp_step; (eapply peek_spells; [done|done|exact Hs|]); intros s1 H1 Hle; cbn [redirs_tokens mbind list_bind app];
      rewrite Hts; cbn [negb]; wp_step; by apply HQ.
  - destruct k as [|k]; [cbn in Hk; lia|]. cbn [parseredirs]. wp_step. eapply peek_spells; [done|done|exact Hs|]. intros s1 H1 Hle1.
    replace (starts _ _) with true by (by destruct kd). cbn [negb]. unfold redirs_tokens in H1. cbn [mbind list_bind redir_tokens fst snd app] in H1.
    wp_step. eapply gettoken_spells; [exact H1|]. intros q eq s2 Ht2 H2 Hle2. wp_step. eapply gettoken_spells; [exact H2|].
    intros q3 eq3 s3 Ht3 H3 Hle3. cbn [code]. rewrite Z.eqb_refl. cbn [negb]. inversion Ht3 as [x Hw Hx| | |]; subst.
    destruct Hc as [Hc <-]. eapply (IH _ _ (redirect (cmap (sub buf) c) (kd, sub buf (q3, eq3)))); [|exact H3|done|cbn in Hk; lia|].
    + destruct kd; by split.
    + intros c' s' Hc' Hi Hs' Hle'. apply HQ; [done| |done|lia]. rewrite Hi. by destruct kd.
Qed.
Lemma redirs_len rs : (length rs <= length (redirs_tokens rs))%nat.
Proof. unfold redirs_tokens. induction rs as [|r rs IH]; cbn [mbind list_bind length]; [done|]. rewrite length_app. cbn. lia. Qed.
Lemma args_len args : (length args <= length (args_tokens args))%nat.
Proof. unfold args_tokens. induction args as [|r rs IH]; cbn [mbind list_bind length]; [done|]. rewrite length_app. cbn. lia. Qed.
(** What may come after an element: the end, or a symbol that ends it. *)
Definition stops (toks : list Z) (ts : list token) : Prop := ts = [] \/ starts toks ts = true.
Lemma stops_other toks toks' ts : stops toks ts -> forallb (fun c => negb (bool_decide (c ∈ toks'))) toks = true -> starts toks' ts = false.
Proof.
  intros Hs Hd. assert (Hc : forall c, bool_decide (c ∈ toks) = true -> bool_decide (c ∈ toks') = false).
  { intros c Hin%bool_decide_eq_true. rewrite forallb_forall in Hd. apply list_elem_of_In, Hd in Hin. by apply negb_true_iff. }
  destruct Hs as [->|Hs]; [done|]. destruct ts as [|[x|c| |] ts]; cbn [starts] in *; try done; by apply Hc.
Qed.
Lemma parseargs_spells args : forall k c ws rs s ts w (Q : cmd * nat -> world -> Prop),
  means c (foldl redirect (EXEC ws) rs) -> inner c = Some (Z.of_nat (length ws)) -> Z.of_nat (length ws + length args) < MAXARGS ->
  spells s (args_tokens args ++ ts) -> stops (lit "|)&;") ts -> (length args <= k)%nat ->
  after s ts (foldl redirect (EXEC (ws ++ args.*1)) (rs ++ (args ≫= snd))) w Q ->
  wp (parseargs buf es k (Z.of_nat (length ws)) c s) w Q.
Proof.
  induction args as [|[x rr] args IH]; intros k c ws rs s ts w Q Hc Hi Hmax Hs Hts Hk HQ.
  - cbn [fmap list_fmap mbind list_bind] in HQ. rewrite !app_nil_r in HQ. cbn [args_tokens mbind list_bind app] in Hs.
    destruct k as [|k]; cbn [parseargs]; wp_step; (eapply peek_spells; [done|done|exact Hs|]); intros s1 H1 Hle1;
      (destruct (starts (lit "|)&;") ts) eqn:Est; [wp_step; by apply HQ|]);
      (destruct Hts as [->|Hts]; [|congruence]); wp_step; (apply gettoken_end; [done|]); cbn [Z.eqb]; wp_step;
      (apply HQ; [done| |pose proof (spells_le _ _ H1); lia]); (split; [lia|]); (split; [intros i Hi'; lia|by left]).
  - destruct k as [|k]; [cbn in Hk; lia|]. cbn [parseargs]. wp_step. eapply peek_spells; [done|done|exact Hs|]. intros s1 H1 Hle1. cbn [args_tokens mbind list_bind app starts].
    unfold args_tokens in H1. cbn [mbind list_bind app fst snd] in H1. rewrite <- app_assoc in H1.
    wp_step. eapply gettoken_spells; [exact H1|]. intros q eq s2 Ht2 H2 Hle2. cbn [code Z.eqb Pos.eqb negb]. cbn [length] in *.
    replace (MAXARGS <=? Z.of_nat (length ws) + 1) with false by lia. inversion Ht2 as [y Hw Hx| | |]; subst.
    assert (Hc' : means (add_arg c (q, eq)) (foldl redirect (EXEC (ws ++ [sub buf (q, eq)])) rs)).
    { destruct Hc as [Hc Ec]. destruct (add_arg_ok buf es c (q, eq) _ Hc Hw Hi ltac:(lia)) as [Ha _]. split; [done|].
      by rewrite add_arg_cmap, Ec, add_arg_redirs. }
    destruct Hc as [Hc Ec]. destruct (add_arg_ok buf es c (q, eq) _ Hc Hw Hi ltac:(lia)) as [_ Hi'].
    pose proof (spells_le _ _ H2) as Hlen. rewrite length_app in Hlen. pose proof (redirs_len rr).
    wp_step. eapply (parseredirs_spells rr); [exact Hc'|exact H2| | |].
    + destruct args as [|[y ry] args]; [|done]. cbn [mbind list_bind app]. by eapply stops_other.
    + unfold redirs_tokens in *. lia.
    + intros c3 s3 Hc3 Hi3 H3 Hle3. rewrite <- foldl_app in Hc3. replace (Z.of_nat (length ws) + 1) with (Z.of_nat (length (ws ++ [sub buf (q, eq)]))) by (rewrite length_app; cbn; lia).
      eapply IH; [exact Hc3| | |exact H3|done|lia|].
      * rewrite Hi3, Hi', length_app. cbn. f_equal. lia.
      * rewrite length_app. cbn. lia.
      * intros c' s' Hm Hs' Hle'. apply HQ; [|done|lia]. cbn [fmap list_fmap mbind list_bind fst snd]. by rewrite <- !app_assoc in Hm.
Qed.

Lemma parseback_spells n : forall k c t s ts w (Q : cmd * nat -> world -> Prop),
  means c t -> spells s (replicate n (TSym 38) ++ ts) -> starts (lit "&") ts = false -> (n <= k)%nat ->
  after s ts (background n t) w Q -> wp (parseback buf es k c s) w Q.
Proof.
  induction n as [|n IH]; intros k c t s ts w Q Hc Hs Hts Hk HQ; cbn [replicate app] in Hs.
  - destruct k as [|k]; cbn [parseback]; wp_step; (eapply peek_spells; [done|done|exact Hs|]); intros s1 H1 Hle; rewrite Hts; cbn [negb]; wp_step; by apply HQ.
  - destruct k as [|k]; [lia|]. cbn [parseback]. wp_step. eapply peek_spells; [done|done|exact Hs|]. intros s1 H1 Hle1. cbn [starts].
    rewrite bool_decide_eq_true_2 by left. cbn [negb]. wp_step. eapply gettoken_spells; [exact H1|]. intros q eq s2 Ht2 H2 Hle2. cbn [snd].
    eapply (IH k (BACK c) (BACK t)); [|exact H2|done|lia|].
    + destruct Hc as [Hc <-]. done.
    + intros c' s' Hm Hs' Hle'. apply HQ; [|done|lia]. unfold background in *. by rewrite Nat.iter_swap in Hm.
Qed.
Definition parses (P : nat -> nat -> U (cmd * nat)) (d : nat) (toks : list token) (tree : command (list Z)) (stop : list Z) : Prop :=
  forall k s ts w (Q : cmd * nat -> world -> Prop),
    spells s (toks ++ ts) -> stops stop ts -> (4 * (es - s) + d <= k)%nat -> after s ts tree w Q -> wp (P k s) w Q.
Lemma parse_simple rs args : good_element (Simple rs args) ->
  parses (parseexec buf es) 2 (element_tokens (Simple rs args)) (element_tree (Simple rs args)) (lit "|)&;").
Proof.
  intros (Hrs & Hargs & Hmax) k s ts w Q Hs Hts Hk HQ. cbn [element_tokens element_tree] in *. rewrite <- app_assoc in Hs.
  destruct k as [|k]; [lia|]. cbn [parseexec]. wp_step. eapply peek_spells; [done|done|exact Hs|]. intros s1 H1 Hle1.
  replace (starts (lit "(") _) with false.
  2:{ destruct rs as [|[[] f] rs]; [|done..]. destruct args as [|[x rr] args]; [|done]. symmetry. by eapply stops_other. }
  pose proof (spells_le _ _ H1) as Hlen. rewrite !length_app in Hlen. pose proof (redirs_len rs). pose proof (args_len args).
  wp_step. eapply (parseredirs_spells rs _ _ (EXEC [])); [by split; [split; [constructor|]|]|exact H1| |lia|].
  { destruct args as [|[x rr] args]; [|done]. by eapply stops_other. }
  intros c2 s2 Hc2 Hi2 H2 Hle2. change 0 with (Z.of_nat (length (@nil (list Z)))). eapply (parseargs_spells args); [exact Hc2|done|done|exact H2|done|lia|].
  intros c' s' Hm Hs' Hle'. apply HQ; [done|done|lia].
Qed.
Lemma parse_block l rs : good_redirs rs -> parses (parseline buf es) 4 (line_tokens l) (line_tree l) (lit ")") ->
  parses (parseexec buf es) 2 (element_tokens (Block l rs)) (element_tree (Block l rs)) (lit "|)&;").
Proof.
  intros Hrs IH k s ts w Q Hs Hts Hk HQ. cbn [element_tokens element_tree app] in *. rewrite <- app_assoc in Hs. cbn [app] in Hs.
  destruct k as [|k]; [lia|]. cbn [parseexec]. wp_step. eapply peek_spells; [done|done|exact Hs|]. intros s1 H1 Hle1. cbn [starts].
  rewrite bool_decide_eq_true_2 by left. destruct k as [|k]; [lia|]. cbn [parseblock]. wp_step. eapply peek_spells; [done|done|exact H1|]. intros s2 H2 Hle2.
  cbn [starts]. rewrite bool_decide_eq_true_2 by left. cbn [negb]. wp_step. eapply gettoken_spells; [exact H2|]. intros q eq s3 _ H3 Hle3. cbn [snd].
  pose proof (spells_le _ _ H3) as Hlen3. wp_step. eapply (IH k s3); [exact H3|by right|lia|]. intros c4 s4 Hc4 H4 Hle4.
  wp_step. eapply peek_spells; [done|done|exact H4|]. intros s5 H5 Hle5. cbn [starts]. rewrite bool_decide_eq_true_2 by left. cbn [negb].
  wp_step. eapply gettoken_spells; [exact H5|]. intros q6 eq6 s6 _ H6 Hle6. cbn [snd]. pose proof (spells_le _ _ H6) as Hlen6. rewrite length_app in Hlen6.
  pose proof (redirs_len rs). eapply (parseredirs_spells rs); [exact Hc4|exact H6|by eapply stops_other|lia|].
  intros c' s' Hm _ Hs' Hle'. apply HQ; [done|done|lia].
Qed.
Lemma stops_weak toks toks' ts : stops toks ts -> forallb (fun c => bool_decide (c ∈ toks')) toks = true -> stops toks' ts.
Proof.
  intros [->|Hs] Hd; [by left|right]. assert (Hc : forall c, bool_decide (c ∈ toks) = true -> bool_decide (c ∈ toks') = true).
  { intros c Hin%bool_decide_eq_true. rewrite forallb_forall in Hd. by apply list_elem_of_In, Hd in Hin. }
  destruct ts as [|[x|c| |] ts]; cbn [starts] in *; try done; by apply Hc.
Qed.
Lemma parse_one e : parses (parseexec buf es) 2 (element_tokens e) (element_tree e) (lit "|)&;") ->
  parses (parsepipe buf es) 3 (pipe_tokens (One e)) (pipe_tree (One e)) (lit ")&;").
Proof.
  intros IH k s ts w Q Hs Hts Hk HQ. destruct k as [|k]; [lia|]. cbn [parsepipe pipe_tokens pipe_tree] in *.
  wp_step. eapply IH; [exact Hs|by eapply stops_weak|lia|]. intros c1 s1 Hc1 H1 Hle1. wp_step. eapply peek_spells; [done|done|exact H1|].
  intros s2 H2 Hle2. rewrite (stops_other _ (lit "|") _ Hts) by done. wp_step. apply HQ; [done|done|lia].
Qed.
Lemma parse_piped e p : parses (parseexec buf es) 2 (element_tokens e) (element_tree e) (lit "|)&;") ->
  parses (parsepipe buf es) 3 (pipe_tokens p) (pipe_tree p) (lit ")&;") ->
  parses (parsepipe buf es) 3 (pipe_tokens (Piped e p)) (pipe_tree (Piped e p)) (lit ")&;").
Proof.
  intros IHe IHp k s ts w Q Hs Hts Hk HQ. destruct k as [|k]; [lia|]. cbn [parsepipe pipe_tokens pipe_tree] in *. rewrite <- app_assoc in Hs. cbn [app] in Hs.
  wp_step. eapply IHe; [exact Hs|by right|lia|]. intros c1 s1 Hc1 H1 Hle1. wp_step. eapply peek_spells; [done|done|exact H1|].
  intros s2 H2 Hle2. cbn [starts]. rewrite bool_decide_eq_true_2 by left. wp_step. eapply gettoken_spells; [exact H2|]. intros q eq s3 _ H3 Hle3. cbn [snd].
  pose proof (spells_le _ _ H3). wp_step. eapply IHp; [exact H3|done|lia|]. intros c4 s4 Hc4 H4 Hle4. wp_step. apply HQ; [|done|lia].
  destruct Hc1 as [? <-], Hc4 as [? <-]. done.
Qed.
Lemma parse_last p n : parses (parsepipe buf es) 3 (pipe_tokens p) (pipe_tree p) (lit ")&;") ->
  parses (parseline buf es) 4 (line_tokens (Last p n)) (line_tree (Last p n)) (lit ")").
Proof.
  intros IH k s ts w Q Hs Hts Hk HQ. destruct k as [|k]; [lia|]. cbn [parseline line_tokens line_tree] in *. rewrite <- app_assoc in Hs.
  wp_step. eapply IH; [exact Hs| |lia|]. { destruct n; [by eapply stops_weak|by right]. }
  intros c1 s1 Hc1 H1 Hle1. pose proof (spells_le _ _ H1) as Hlen. rewrite length_app, length_replicate in Hlen.
  wp_step. eapply (parseback_spells n); [exact Hc1|exact H1|by eapply stops_other|lia|]. intros c2 s2 Hc2 H2 Hle2.
  wp_step. eapply peek_spells; [done|done|exact H2|]. intros s3 H3 Hle3. rewrite (stops_other _ (lit ";") _ Hts) by done. wp_step. apply HQ; [done|done|lia].
Qed.
Lemma parse_seq p n l : parses (parsepipe buf es) 3 (pipe_tokens p) (pipe_tree p) (lit ")&;") ->
  parses (parseline buf es) 4 (line_tokens l) (line_tree l) (lit ")") ->
  parses (parseline buf es) 4 (line_tokens (Seq p n l)) (line_tree (Seq p n l)) (lit ")").
Proof.
  intros IHp IHl k s ts w Q Hs Hts Hk HQ. destruct k as [|k]; [lia|]. cbn [parseline line_tokens line_tree] in *. rewrite <- !app_assoc in Hs. cbn [app] in Hs.
  wp_step. eapply IHp; [exact Hs| |lia|]. { destruct n; by right. }
  intros c1 s1 Hc1 H1 Hle1. pose proof (spells_le _ _ H1) as Hlen. rewrite length_app, length_replicate in Hlen.
  wp_step. eapply (parseback_spells n); [exact Hc1|exact H1|done|lia|]. intros c2 s2 Hc2 H2 Hle2.
  wp_step. eapply peek_spells; [done|done|exact H2|]. intros s3 H3 Hle3. cbn [starts]. rewrite bool_decide_eq_true_2 by left.
  wp_step. eapply gettoken_spells; [exact H3|]. intros q eq s4 _ H4 Hle4. cbn [snd]. pose proof (spells_le _ _ H4).
  wp_step. eapply IHl; [exact H4|done|lia|]. intros c5 s5 Hc5 H5 Hle5. wp_step. apply HQ; [|done|lia]. destruct Hc2 as [? <-], Hc5 as [? <-]. done.
Qed.
Lemma parse_grammar :
  (forall l, good_line l -> parses (parseline buf es) 4 (line_tokens l) (line_tree l) (lit ")")) /\
  (forall p, good_pipe p -> parses (parsepipe buf es) 3 (pipe_tokens p) (pipe_tree p) (lit ")&;")) /\
  (forall e, good_element e -> parses (parseexec buf es) 2 (element_tokens e) (element_tree e) (lit "|)&;")).
Proof.
  apply grammar_ind.
  - intros p IHp n Hg. by apply parse_last, IHp.
  - intros p IHp n l IHl [Hp Hl]. by apply parse_seq; [apply IHp|apply IHl].
  - intros e IHe Hg. by apply parse_one, IHe.
  - intros e IHe p IHp [He Hp]. by apply parse_piped; [apply IHe|apply IHp].
  - intros rs args Hg. by apply parse_simple.
  - intros l IHl rs [Hl Hrs]. by apply parse_block; [|apply IHl].
Qed.
End line.

(** ** From text to positions *)
Lemma cmap_ext (f g : nat * nat -> list Z) c : (forall a, a ∈ strings c -> f a = g a) -> cmap f c = cmap g c.
Proof.
  induction c as [argv|c IH file mode fd|l IHl r IHr|l IHl r IHr|c IH]; cbn [cmap strings]; intros H.
  - f_equal. apply list_fmap_ext. intros i a Ha. apply H. by eapply list_elem_of_lookup_2.
  - rewrite IH, (H file); [done|set_solver|set_solver].
  - rewrite IHl, IHr; [done|set_solver|set_solver].
  - rewrite IHl, IHr; [done|set_solver|set_solver].
  - by rewrite IH.
Qed.
Definition good_token (t : token) : Prop :=
  match t with TWord w => good_word w | TSym c => found (lit "|();&<" ++ [0]) c = true | _ => True end.
Lemma redirs_good rs : good_redirs rs -> Forall good_token (redirs_tokens rs).
Proof.
  induction 1 as [|r rs Hr _ IH]; [constructor|]. change (redirs_tokens (r :: rs)) with (redir_tokens r ++ redirs_tokens rs).
  apply Forall_app. split; [|done]. destruct r as [[] f]; apply Forall_cons; split; [done|by apply Forall_singleton|done|by apply Forall_singleton|done|by apply Forall_singleton].
Qed.
Lemma tokens_good :
  (forall l, good_line l -> Forall good_token (line_tokens l)) /\ (forall p, good_pipe p -> Forall good_token (pipe_tokens p)) /\
  (forall e, good_element e -> Forall good_token (element_tokens e)).
Proof.
  apply grammar_ind; cbn [good_line good_pipe good_element line_tokens pipe_tokens element_tokens].
  - intros p IH n Hg. apply Forall_app. split; [auto|by apply Forall_replicate].
  - intros p IH n l IHl [Hp Hl]. apply Forall_app. split; [auto|]. apply Forall_app. split; [by apply Forall_replicate|]. constructor; [done|auto].
  - auto.
  - intros e IHe p IHp [He Hp]. apply Forall_app. split; [auto|]. constructor; [done|auto].
  - intros rs args (Hrs & Ha & _). apply Forall_app. split; [by apply redirs_good|]. induction Ha as [|[x rr] args [Hx Hr] _ IH]; [constructor|].
    unfold args_tokens. cbn [mbind list_bind]. constructor; [done|]. apply Forall_app. split; [by apply redirs_good|done].
  - intros l IH rs [Hl Hrs]. constructor; [done|]. apply Forall_app. split; [auto|]. constructor; [done|by apply redirs_good].
Qed.
Lemma spell_head t : good_token t -> exists c x, spell t = c :: x /\ c <> 0 /\ blank c = false.
Proof.
  destruct t as [[|c w]|c| |]; cbn [good_token spell].
  - by intros [? _].
  - intros [_ [[Hc Hw] _]%Forall_cons]. exists c, w. split; [done|]. split; [done|]. unfold wordchar in Hw. apply andb_prop in Hw as [Hb _]. by apply negb_true_iff.
  - intros Hc%sym_plain. exists c, []. naive_solver.
  - eexists _, _. done.
  - eexists _, _. done.
Qed.
Lemma written_nonzero ts text : written ts text -> Forall good_token ts -> Forall (fun c => c <> 0) text.
Proof.
  induction 1 as [b Hb|b t ts text Hb _ _ IH]; intros Hg.
  - eapply Forall_impl; [exact Hb|]. by intros c Hc ->.
  - apply Forall_cons in Hg as [Ht Hg]. apply Forall_app. split; [eapply Forall_impl; [exact Hb|]; by intros c Hc ->|]. apply Forall_app. split; [|auto].
    destruct t as [w|c| |]; cbn [good_token spell] in *; [|by apply Forall_singleton, sym_plain|by apply Forall_singleton|by apply Forall_cons; split; [|apply Forall_singleton]].
    destruct Ht as [_ Ht]. eapply Forall_impl; [exact Ht|]. naive_solver.
Qed.
Section text.
Context (buf rest : list Z) (es : nat).
Lemma look pre l r i : buf = pre ++ l ++ r -> (i < length l)%nat -> buf !! (length pre + i)%nat = l !! i.
Proof. intros -> Hi. rewrite lookup_app_r by lia. rewrite lookup_app_l by lia. f_equal. lia. Qed.
Lemma all_look p pre l r : buf = pre ++ l ++ r -> Forall (fun c => p c = true) l -> all buf p (length pre) (length pre + length l).
Proof.
  intros E Hl i Hi. destruct (lookup_lt_is_Some_2 l (i - length pre)) as [c Ec]; [lia|]. exists c. split.
  - replace i with (length pre + (i - length pre))%nat by lia. rewrite (look _ _ _ _ E) by lia. done.
  - by eapply Forall_lookup_1 in Hl.
Qed.
Lemma spell_token t text pre : good_token t -> may_follow t text -> Forall (fun c => c <> 0) text ->
  buf = pre ++ spell t ++ text ++ 0 :: rest -> es = (length pre + length (spell t) + length text)%nat ->
  token_at buf es (length pre) (length pre + length (spell t)) t.
Proof.
  intros Ht Hf Hnz E Hes. assert (E2 : buf = (pre ++ spell t) ++ (text ++ [0]) ++ rest) by (by rewrite E, <- !app_assoc).
  assert (Hn : buf !! (length pre + length (spell t))%nat = (text ++ [0]) !! 0%nat).
  { rewrite <- length_app, <- (Nat.add_0_r (length (pre ++ spell t))). apply (look _ _ _ _ E2). rewrite length_app. cbn. lia. }
  assert (H0 : forall i, (i < length (spell t))%nat -> buf !! (length pre + i)%nat = spell t !! i) by (intros i; apply (look _ _ _ _ E)).
  destruct t as [w|c| |]; cbn [spell length good_token] in *.
  - destruct Ht as [Hw Hc]. constructor.
    + split; cbn [fst snd]; [destruct w; [done|cbn; lia]|]. split; [lia|]. split.
      * apply (all_look _ _ _ _ E). eapply Forall_impl; [exact Hc|]. naive_solver.
      * destruct text as [|c text]; [left; cbn in Hes; lia|right]. exists c. apply Forall_cons in Hnz as [Hc0 _]. done.
    + unfold sub. cbn [fst snd]. replace (length pre + length w - length pre)%nat with (length w) by lia. by rewrite E, drop_app_length, take_app_length.
  - constructor; [done| |lia]. specialize (H0 0%nat ltac:(lia)). by rewrite Nat.add_0_r in H0.
  - constructor; [|rewrite Nat.add_1_r in Hn; rewrite Hn; by destruct text as [|c text]; [|cbn; intros [= ->]]|lia].
    specialize (H0 0%nat ltac:(lia)). by rewrite Nat.add_0_r in H0.
  - constructor; [| |lia].
    + specialize (H0 0%nat ltac:(lia)). by rewrite Nat.add_0_r in H0.
    + specialize (H0 1%nat ltac:(lia)). by rewrite Nat.add_1_r in H0.
Qed.
Lemma written_spells ts text : written ts text -> Forall good_token ts -> forall pre,
  buf = pre ++ text ++ 0 :: rest -> es = (length pre + length text)%nat -> spells buf es (length pre) ts.
Proof.
  induction 1 as [b Hb|b t ts text Hb Hf Hw IH]; intros Hg pre E Hes; cbn [spells].
  - split; [lia|]. split; [|by left]. subst es. by eapply all_look.
  - apply Forall_cons in Hg as [Ht Hg]. pose proof (written_nonzero _ _ Hw Hg) as Hnz. rewrite !length_app in Hes.
    exists (length pre + length b)%nat, (length pre + length b + length (spell t))%nat.
    assert (E1 : buf = (pre ++ b) ++ spell t ++ text ++ 0 :: rest) by (by rewrite E, <- !app_assoc).
    assert (E2 : buf = ((pre ++ b) ++ spell t) ++ text ++ 0 :: rest) by (by rewrite E1, <- !app_assoc).
    split; [|split].
    + split; [lia|]. split; [rewrite <- app_assoc in E; by eapply all_look|]. right. destruct (spell_head t Ht) as (c & x & Ec & Hc0 & Hcb). exists c.
      rewrite <- length_app, <- (Nat.add_0_r (length (pre ++ b))), (look _ _ _ _ E1), Ec by (rewrite Ec; cbn; lia). done.
    + rewrite <- length_app. apply (spell_token t text); [done|done|done|done|]. rewrite length_app. lia.
    + rewrite <- !length_app. apply IH; [done|done|]. rewrite !length_app. lia.
Qed.
End text.
(** One way to write it: a blank before each token, and a newline. *)
Fixpoint render (ts : list token) : list Z :=
  match ts with [] => [10] | t :: ts => [32] ++ spell t ++ render ts end.
Lemma render_written ts : written ts (render ts).
Proof.
  induction ts as [|t ts IH]; cbn [render]; constructor; try by apply Forall_singleton. { by destruct t, ts. } done.
Qed.

Lemma parses_back k l text rest w :
  good_line l -> written (line_tokens l) text -> (4 * length text + 4 <= k)%nat ->
  wp (parsecmd k (text ++ 0 :: rest)) w (fun r w' => w' = w /\ let '(c, buf') := r in cmap (Run.text buf') c = line_tree l).
Proof.
  intros Hg Hw Hk. pose proof (proj1 tokens_good l Hg) as Ht. pose proof (written_nonzero _ _ Hw Ht) as Hnz.
  assert (Hn : strlen (text ++ 0 :: rest) = Some (Z.of_nat (length text))).
  { clear -Hnz. unfold strlen. induction Hnz as [|c text Hc _ IH]; [done|]. cbn [app CString.strlen]. rewrite (proj2 (Z.eqb_neq _ _) Hc), IH. cbn. f_equal. lia. }
  destruct (line_of _ _ Hn) as [Hes Hbuf]. unfold parsecmd. rewrite Hn. rewrite Nat2Z.id in *.
  assert (Hs : spells (text ++ 0 :: rest) (length text) 0 (line_tokens l ++ [])).
  { rewrite app_nil_r. by apply (written_spells _ rest _ _ text Hw Ht []). }
  wp_step. eapply (proj1 (parse_grammar _ _ Hes Hbuf) l Hg); [exact Hs|by left|lia|]. intros c s [Hc Ec] H1 _.
  wp_step. apply (peek_spec _ _ Hes Hbuf); [apply H1|]. intros s2 d Hr _. cbn [snd]. rewrite (run_unique _ _ _ _ _ _ Hr H1), bool_decide_eq_true_2 by done.
  cbn [negb]. wp_step. eapply (nulterminate_text _ _ Hes Hbuf); [exact Hc|]. intros b Hb. wp_step. split; [done|]. rewrite <- Ec. by apply cmap_ext.
Qed.
(** C15. Printing a command and parsing it gives the command back.  Take any
    command of the grammar (lists with ; and &, pipelines, redirections before,
    between and after arguments, nested blocks) with fewer than MAXARGS
    arguments in each simple command, written with any blanks between its
    tokens.  parsecmd returns, without output, and the tree it returns, its
    strings read from the buffer that nulterminate left, is the tree of the
    command: | binds tighter than &, & than ;, and a later redirection is
    outside an earlier one. *)
Theorem parse_print k l text rest w :
  good_line l -> written (line_tokens l) text -> (4 * length text + 4 <= k)%nat ->
  wp (parsecmd k (text ++ 0 :: rest)) w (fun r w' => w' = w /\ let '(c, buf') := r in cmap (Run.text buf') c = line_tree l).
Proof. apply parses_back. Qed.
Definition sample_line : line :=
  Seq (Piped (Simple [(KIn, lit "in")] [(lit "cat", []); (lit "-n", [(KAppend, lit "log")])])
         (One (Block (Seq (One (Simple [] [(lit "wc", [])])) 0 (Last (One (Simple [] [])) 0)) [(KOut, lit "out")]))) 1
      (Last (One (Simple [] [(lit "echo", []); (lit "done", [])])) 0).
Lemma parse_print_witness :
  good_line sample_line /\ written (line_tokens sample_line) (render (line_tokens sample_line)) /\
  wp (parsecmd 404 (render (line_tokens sample_line) ++ [0])) (mkWorld [] ∅ [] [] None)
    (fun r w' => w' = mkWorld [] ∅ [] [] None /\ let '(c, buf') := r in cmap (Run.text buf') c = line_tree sample_line).
Proof.
  assert (Hg : good_line sample_line) by (cbn; unfold good_redirs, good_word; repeat split; repeat (constructor; cbn; try done)).
  split; [exact Hg|]. split; [apply render_written|]. apply (parse_print 404 sample_line); [exact Hg|apply render_written|vm_compute; lia].
Defined.
End ShGrammar.
