(* ===== verification/ShRun.v ===== *)
(** * What the shell runs

    The programs a command starts, with the descriptors they get, and that
    [runcmd] starts exactly these. *)

From S2P Require Import Prelude State CString Console Syscall UserLib Sh ShSpec ShGrammar.

Module ShRun.
Import Uprintf Sh Run ShGrammar.

(** ** The contract *)
Definition std (d0 d1 d2 : desc) : gmap Z desc := {[0 := d0; 1 := d1; 2 := d2]}.
Section jobs.
(** Which files can be opened and which programs exist. *)
Context (opens : list Z -> Z -> bool) (runs : list (list Z) -> option Z).
(** Programs with input, output and errors, and the number of pipes made,
    [n] of them before. *)
Fixpoint jobs (c : command (list Z)) (d0 d1 d2 : desc) (n : nat) : list (list (list Z) * gmap Z desc) * nat :=
  match c with
  | EXEC [] => ([], n)
  | EXEC argv => (if runs argv is Some _ then [(argv, std d0 d1 d2)] else [], n)
  | REDIR c file mode fd =>
      if opens file mode then
        if fd =? 0 then jobs c (DFile file mode) d1 d2 n else jobs c d0 (DFile file mode) d2 n
      else ([], n)
  | PIPE l r =>
      let '(a, n1) := jobs l d0 (DPipeW n) d2 (S n) in
      let '(b, n2) := jobs r (DPipeR n) d1 d2 n1 in
      (a ++ b, n2)
  | LIST l r =>
      let '(a, n1) := jobs l d0 d1 d2 n in
      let '(b, n2) := jobs r d0 d1 d2 n1 in
      (a ++ b, n2)
  | BACK c => jobs c d0 d1 d2 n
  end.
End jobs.
(** Redirections are of descriptor 0 or 1. *)
Fixpoint std_redirs {str} (c : command str) : Prop :=
  match c with
  | EXEC _ => True
  | REDIR c _ _ fd => (fd = 0 \/ fd = 1) /\ std_redirs c
  | PIPE l r | LIST l r => std_redirs l /\ std_redirs r
  | BACK c => std_redirs c
  end.

(** ** Code that does not return *)
Definition ends (m : R unit) (s : shell) (Q : shell -> Prop) : Prop := match m s with Panic _ s' => Q s' | _ => False end.
Lemma ends_step {A} (m : R A) (f : A -> R unit) s Q : wp m s (fun a s' => ends (f a) s' Q) -> ends (bind m f) s Q.
Proof. apply (wp_run m f s (fun o => match o with Panic _ s' => Q s' | _ => False end)). Qed.
Lemma ends_bind (m : R unit) (f : unit -> R unit) s Q : ends m s Q -> ends (bind m f) s Q.
Proof. unfold ends, bind. by destruct (m s). Qed.
Lemma ends_exit n s Q : Q (s <| sh_world ::= upd w_exit (fun _ => Some n) |>) -> ends (exit n) s Q.
Proof. done. Qed.
Lemma ends_mono m s (Q Q' : shell -> Prop) : ends m s Q -> (forall s', Q s' -> Q' s') -> ends m s Q'.
Proof. unfold ends. destruct (m s); auto. Qed.
Lemma wp_lift {A} (m : U A) s (Q : A -> shell -> Prop) : wp m (sh_world s) (fun a w => Q a (s <| sh_world := w |>)) -> wp (lift m) s Q.
Proof. intros (a & w & E & H)%wp_done. apply wp_done. exists a, (s <| sh_world := w |>). split; [|done]. unfold lift. by rewrite E. Qed.

Ltac rsimp := unfold upd, upd_sh_world, upd_sh_fds, upd_sh_npipes, upd_sh_forks, upd_sh_kids, upd_sh_log; cbn.
(** ** The state as the contract sees it *)
Section run.
Context (opens : list Z -> Z -> bool) (runs : list (list Z) -> option Z).
Record shape (log : list (list (list Z) * gmap Z desc)) (n : nat) (fds : gmap Z desc) (s : shell) : Prop := {
  shape_opens : sh_opens s = opens;
  shape_runs : sh_runs s = runs;
  shape_forks : Forall (fun b => b = true) (sh_forks s);
  shape_log : sh_log s = log;
  shape_pipes : sh_npipes s = n;
  shape_fds : sh_fds s = fds;
}.
Lemma shape_close log n fds s fd (Q : unit -> shell -> Prop) :
  shape log n fds s -> (forall s', shape log n (delete fd fds) s' -> Q tt s') -> wp (close fd) s Q.
Proof. intros [] HQ. unfold close. wp_step. wp_step. wp_step. apply HQ. constructor; rsimp; congruence. Qed.
Lemma shape_new log n fds s d input fd (Q : Z -> shell -> Prop) :
  shape log n fds s -> fdalloc 16 0 fds = fd -> 0 <= fd -> (forall s', shape log n (<[fd := d]> fds) s' -> Q fd s') -> wp (new_fd d input) s Q.
Proof.
  intros [] Hfd Hpos HQ. unfold new_fd. wp_step. wp_step. change (Z.to_nat NOFILE) with 16%nat. rewrite shape_fds0, Hfd.
  replace (fd <? 0) with false by lia. wp_step. wp_step. wp_step. wp_step. wp_step. apply HQ. constructor; rsimp; congruence.
Qed.
Lemma shape_open log n fds s name mode (Q : Z -> shell -> Prop) fd :
  shape log n fds s -> fdalloc 16 0 fds = fd -> 0 <= fd ->
  (opens name mode = true -> forall s', shape log n (<[fd := DFile name mode]> fds) s' -> Q fd s') -> (opens name mode = false -> Q (-1) s) ->
  wp (open name mode) s Q.
Proof.
  intros Hs Hfd Hpos HQ HQ'. unfold open. wp_step. wp_step. unfold id. rewrite (shape_opens _ _ _ _ Hs). destruct (opens name mode); [|wp_step; auto].
  eapply shape_new; [done..|]. auto.
Qed.
Lemma shape_dup log n fds s fd d fd' (Q : Z -> shell -> Prop) :
  shape log n fds s -> fds !! fd = Some d -> fdalloc 16 0 fds = fd' -> 0 <= fd' ->
  (forall s', shape log n (<[fd' := d]> fds) s' -> Q fd' s') -> wp (dup fd) s Q.
Proof.
  intros Hs Hd Hfd Hpos HQ. unfold dup. wp_step. wp_step. unfold id. rewrite (shape_fds _ _ _ _ Hs), Hd. by eapply shape_new.
Qed.
Lemma shape_lift {A} log n fds s (m : U A) (Q : A -> shell -> Prop) :
  shape log n fds s -> (forall w, wp m w (fun _ _ => True)) -> (forall a s', shape log n fds s' -> Q a s') -> wp (lift m) s Q.
Proof.
  intros [] Hm HQ. apply wp_lift. eapply wp_mono; [apply Hm|]. intros a w _. apply HQ. by constructor.
Qed.
Lemma shape_wait log n fds s (Q : option Z -> shell -> Prop) :
  shape log n fds s -> (forall r s', shape log n fds s' -> Q r s') -> wp wait s Q.
Proof. intros [] HQ. unfold wait. wp_step. wp_step. wp_step. wp_step. wp_step. apply HQ. by constructor. Qed.
Lemma shape_fork log n fds s log' n' child (Q : unit -> shell -> Prop) :
  shape log n fds s -> (forall s1, shape log n fds s1 -> ends child s1 (fun s2 => exists fds', shape log' n' fds' s2)) ->
  (forall s', shape log' n' fds s' -> Q tt s') -> wp (fork1 child) s Q.
Proof.
  intros Hs Hchild HQ. unfold fork1. wp_step. apply wp_done.
  assert (H1 : shape log n fds (s <| sh_forks ::= tail |> <| sh_kids := [] |>)).
  { destruct Hs. constructor; rsimp; try done. destruct shape_forks0; [constructor|done]. }
  specialize (Hchild _ H1). unfold ends in Hchild. unfold fork.
  destruct (child (s <| sh_forks ::= tail |> <| sh_kids := [] |>)) as [|msg s2| | |] eqn:E; try done. destruct Hchild as (fds' & []).
  eexists 1, _. split.
  - pose proof (shape_forks _ _ _ _ Hs) as Hf. destruct (sh_forks s) as [|b l] eqn:Eb; [done|]. by apply Forall_cons in Hf as [-> _].
  - cbn. wp_step. apply HQ. pose proof (shape_fds _ _ _ _ Hs). by constructor.
Qed.
Lemma shape_exit log n fds s st (Q : shell -> Prop) : shape log n fds s -> (forall s', shape log n fds s' -> Q s') -> ends (exit st) s Q.
Proof. intros [] HQ. apply ends_exit, HQ. by constructor. Qed.
(** pipe() in a process with the three standard descriptors. *)
Lemma shape_pipe log n d0 d1 d2 s (Q : option (Z * Z) -> shell -> Prop) :
  shape log n (std d0 d1 d2) s ->
  (forall s', shape log (S n) (<[4 := DPipeW n]> (<[3 := DPipeR n]> (std d0 d1 d2))) s' -> Q (Some (3, 4)) s') -> wp pipe s Q.
Proof.
  intros Hs HQ. unfold pipe. wp_step. wp_step. wp_step. wp_step. rewrite (shape_pipes _ _ _ _ Hs).
  assert (H1 : shape log (S n) (std d0 d1 d2) (s <| sh_npipes ::= S |>)) by (destruct Hs; constructor; rsimp; congruence).
  wp_step. eapply (shape_new _ _ _ _ _ _ 3); [exact H1|reflexivity|lia|]. intros s2 H2. cbn. wp_step. eapply (shape_new _ _ _ _ _ _ 4); [exact H2|reflexivity|lia|].
  intros s3 H3. cbn. wp_step. by apply HQ.
Qed.

Definition done_with (log : list (list (list Z) * gmap Z desc)) (js : list (list (list Z) * gmap Z desc) * nat) (s : shell) : Prop :=
  exists fds, shape (log ++ js.1) js.2 fds s.
Lemma runcmd_exec buf argv log n d0 d1 d2 s : shape log n (std d0 d1 d2) s ->
  ends (runcmd buf (EXEC argv)) s (done_with log (jobs opens runs (cmap (text buf) (EXEC argv)) d0 d1 d2 n)).
Proof.
  intros Hs. unfold done_with. cbn [runcmd cmap jobs]. destruct argv as [|a argv]; cbn [fmap list_fmap].
  - eapply shape_exit; [exact Hs|]. intros s' Hs'. exists (std d0 d1 d2). cbn. by rewrite app_nil_r.
  - destruct (runs (text buf a :: (text buf <$> argv))) as [st|] eqn:Er.
    + apply ends_bind. unfold exec. apply ends_step. wp_step. unfold id. rewrite (shape_runs _ _ _ _ Hs), Er.
      apply ends_step. wp_step. rewrite (shape_fds _ _ _ _ Hs). assert (H1 : shape (log ++ [(text buf a :: (text buf <$> argv), std d0 d1 d2)]) n (std d0 d1 d2)
        (s <| sh_log ::= fun l => l ++ [(text buf a :: (text buf <$> argv), std d0 d1 d2)] |>)) by (destruct Hs; constructor; rsimp; congruence).
      eapply shape_exit; [exact H1|]. intros s' Hs'. by exists (std d0 d1 d2).
    + apply ends_step. unfold exec. wp_step. wp_step. unfold id. rewrite (shape_runs _ _ _ _ Hs), Er. wp_step.
      apply ends_step. eapply shape_lift; [exact Hs|intros w; by eapply ShSpec.wp_fprintf|]. intros _ s1 H1.
      eapply shape_exit; [exact H1|]. intros s' Hs'. exists (std d0 d1 d2). cbn. by rewrite app_nil_r.
Qed.
(** A child of a pipeline: its output, or input, becomes the pipe. *)
Lemma plug fd p d log n fds fds' m s Q :
  shape log n fds s -> delete fd fds !! p = Some d -> fdalloc 16 0 (delete fd fds) = fd -> 0 <= fd ->
  delete 4 (delete 3 (<[fd := d]> (delete fd fds))) = fds' -> (forall s', shape log n fds' s' -> ends m s' Q) ->
  ends (close fd ;! let! _ := dup p in close 3 ;! close 4 ;! m) s Q.
Proof.
  intros Hs Hp Hfd Hpos <- HQ. apply ends_step. eapply shape_close; [exact Hs|]. intros s1 H1. apply ends_step. eapply shape_dup; [exact H1|done|done|done|].
  intros s2 H2. apply ends_step. eapply shape_close; [exact H2|]. intros s3 H3. apply ends_step. eapply shape_close; [exact H3|]. apply HQ.
Qed.
Lemma runcmd_spec buf c : forall log n d0 d1 d2 s, std_redirs c -> shape log n (std d0 d1 d2) s ->
  ends (runcmd buf c) s (done_with log (jobs opens runs (cmap (text buf) c) d0 d1 d2 n)).
Proof.
  induction c as [argv|c IH file mode fd|l IHl r IHr|l IHl r IHr|c IH]; intros log n d0 d1 d2 s Hstd Hs.
  - by apply runcmd_exec.
  - cbn [runcmd cmap jobs std_redirs] in *. destruct Hstd as [Hfd Hstd]. apply ends_step. eapply shape_close; [exact Hs|]. intros s1 H1.
    apply ends_step. eapply (shape_open _ _ _ _ _ _ _ fd); [exact H1|by destruct Hfd as [->| ->]|lia| |].
    + intros -> s2 H2. replace (fd <? 0) with false by lia. destruct Hfd as [->| ->]; cbn [Z.eqb]; eapply IH; done.
    + intros ->. change (-1 <? 0) with true. cbv iota. apply ends_step. eapply shape_lift; [exact H1|intros w; by eapply ShSpec.wp_fprintf|]. intros _ s2 H2.
      eapply shape_exit; [exact H2|]. intros s' Hs'. eexists. cbn [fst snd]. rewrite app_nil_r. exact Hs'.
  - cbn [runcmd cmap jobs std_redirs] in *. destruct Hstd as [Hl Hr].
    destruct (jobs opens runs (cmap (text buf) l) d0 (DPipeW n) d2 (S n)) as [ja n1] eqn:Ea.
    destruct (jobs opens runs (cmap (text buf) r) (DPipeR n) d1 d2 n1) as [jb n2] eqn:Eb.
    apply ends_step. apply (shape_pipe log n d0 d1 d2); [done|]. intros s1 H1.
    apply ends_step. eapply (shape_fork _ _ _ _ (log ++ ja) n1); [exact H1| |].
    { intros t Ht. eapply (plug 1 4 (DPipeW n)); [exact Ht|done|done|lia|reflexivity|]. intros t4 Ht4.
      specialize (IHl log (S n) d0 (DPipeW n) d2 t4 Hl Ht4). by rewrite Ea in IHl. }
    intros s2 H2. apply ends_step. eapply (shape_fork _ _ _ _ (log ++ ja ++ jb) n2); [exact H2| |].
    { intros t Ht. eapply (plug 0 3 (DPipeR n)); [exact Ht|done|done|lia|reflexivity|]. intros t4 Ht4.
      specialize (IHr (log ++ ja) n1 (DPipeR n) d1 d2 t4 Hr Ht4). rewrite Eb in IHr. unfold done_with in IHr. cbn [fst snd] in IHr. by rewrite <- app_assoc in IHr. }
    intros s3 H3. apply ends_step. eapply shape_close; [exact H3|]. intros s4 H4. apply ends_step. eapply shape_close; [exact H4|]. intros s5 H5.
    apply ends_step. eapply shape_wait; [exact H5|]. intros _ s6 H6. apply ends_step. eapply shape_wait; [exact H6|]. intros _ s7 H7.
    eapply shape_exit; [exact H7|]. intros s' Hs'. by eexists.
  - cbn [runcmd cmap jobs std_redirs] in *. destruct Hstd as [Hl Hr].
    destruct (jobs opens runs (cmap (text buf) l) d0 d1 d2 n) as [ja n1] eqn:Ea.
    destruct (jobs opens runs (cmap (text buf) r) d0 d1 d2 n1) as [jb n2] eqn:Eb.
    apply ends_step. eapply (shape_fork _ _ _ _ (log ++ ja) n1); [exact Hs| |].
    { intros t Ht. specialize (IHl log n d0 d1 d2 t Hl Ht). by rewrite Ea in IHl. }
    intros s1 H1. apply ends_step. eapply shape_wait; [exact H1|]. intros _ s2 H2.
    eapply ends_mono; [apply (IHr (log ++ ja) n1 d0 d1 d2 s2 Hr H2)|]. intros s' Hs'. rewrite Eb in Hs'. unfold done_with in *. cbn [fst snd] in *. by rewrite <- app_assoc in Hs'.
  - cbn [runcmd cmap jobs std_redirs] in *. apply ends_step. eapply (shape_fork _ _ _ _ _ _); [exact Hs| |].
    { intros t Ht. exact (IH log n d0 d1 d2 t Hstd Ht). }
    intros s1 H1. eapply shape_exit; [exact H1|]. intros s' Hs'. by eexists.
Qed.
End run.

(** The trees of the grammar redirect 0 and 1 only. *)
Lemma redirects_std rs : forall t, std_redirs t -> std_redirs (foldl redirect t rs).
Proof. induction rs as [|[[] f] rs IH]; intros t Ht; cbn [foldl]; [done|..]; apply IH; cbn; auto. Qed.
Lemma background_std n t : std_redirs t -> std_redirs (background n t).
Proof. intros Ht. induction n; cbn; auto. Qed.
Lemma trees_std :
  (forall l, std_redirs (line_tree l)) /\ (forall p, std_redirs (pipe_tree p)) /\ (forall e, std_redirs (element_tree e)).
Proof.
  apply grammar_ind; cbn [line_tree pipe_tree element_tree std_redirs]; auto using background_std, redirects_std.
  intros rs args. by apply redirects_std.
Qed.
Lemma cmap_std {A B} (f : A -> B) c : std_redirs (cmap f c) -> std_redirs c.
Proof. induction c; cbn [cmap std_redirs]; naive_solver. Qed.

(** C6. A line of input runs the programs it says.  A child of the shell with
    the three standard descriptors, given a line with a command of the grammar
    and forks that succeed, ends, and the programs started are the ones of the
    command, each with exactly three descriptors: in a | b, a has the write
    end of a new pipe as output and b its read end as input, and no other
    copies of the two ends are left open in them (so b sees the end of a's
    output); redirections replace descriptor 0 or 1 of their command only; a
    command whose file cannot be opened starts nothing. *)
Theorem run_line_spec k l text rest s d0 d1 d2 :
  good_line l -> written (line_tokens l) text -> (4 * length text + 4 <= k)%nat ->
  Forall (fun b => b = true) (sh_forks s) -> sh_fds s = std d0 d1 d2 ->
  ends (run_line k (text ++ 0 :: rest)) s (fun s' =>
    let js := jobs (sh_opens s) (sh_runs s) (line_tree l) d0 d1 d2 (sh_npipes s) in
    sh_log s' = sh_log s ++ js.1 /\ sh_npipes s' = js.2).
Proof.
  intros Hg Hw Hk Hf Hfd. unfold run_line. apply ends_step, wp_lift. eapply wp_mono; [by apply (parses_back k l)|].
  intros [c b] w [-> E]. cbn [fst snd]. rewrite <- E.
  eapply ends_mono; [eapply (runcmd_spec (sh_opens s) (sh_runs s) b c (sh_log s) (sh_npipes s) d0 d1 d2)|].
  - eapply (cmap_std (Run.text b)). rewrite E. apply trees_std.
  - by constructor.
  - intros s' (fds & []). done.
Qed.
Definition tty : desc := DFile (lit "console") Sysfile.O_RDWR.
Definition sample_shell : shell :=
  mkShell (mkWorld [] ∅ [] [] None) (std tty tty tty) 0 (fun _ _ => true) (fun argv => if decide (head argv = Some (lit "nope")) then None else Some 0)
    (fun _ => true) [] [] [].
(** < in cat -n >> log | ( wc ; ) > out & ; echo done *)
Lemma run_line_spec_witness :
  ends (run_line 404 (render (line_tokens sample_line) ++ [0])) sample_shell (fun s' =>
    sh_log s' =
      [([lit "cat"; lit "-n"], std (DFile (lit "in") 0) (DFile (lit "log") 0x201) tty);
       ([lit "wc"], std (DPipeR 0) (DFile (lit "out") 0x601) tty);
       ([lit "echo"; lit "done"], std tty tty tty)] /\ sh_npipes s' = 1%nat).
Proof.
  assert (Hg : good_line sample_line) by (cbn; unfold good_redirs, good_word; repeat split; repeat (constructor; cbn; try done)).
  pose proof (run_line_spec 404 sample_line (render (line_tokens sample_line)) [] sample_shell tty tty tty Hg (render_written _)
    ltac:(vm_compute; lia) (Forall_nil_2 _) eq_refl) as H. exact H.
Defined.
End ShRun.
