(* ===== verification/Tools.v ===== *)
(** * Small user programs: init, ps, ls, rm, mkdir, ln, kill, shutdown, zombie

    A program here is a process that makes system calls and decides by their
    results.  The kernel is any function [kern] from the calls made so far,
    with their results, and the next call to its result: a value and the
    bytes it writes to the caller's buffer.  The log of calls is the state;
    printf adds one write for each character, as printf.c does.  exit() ends
    the run with [Panic "exit"], a successful exec() with [Panic "exec"]. *)

From S2P Require Import Prelude State CString Mem Console Log Fs DinodeSpec Syscall UserLib Programs GrepSpec.

Module Tools.
Import Fs Sysfile.

Inductive call :=
| Open (path : list Z) (mode : Z)
| Mknod (path : list Z) (major minor : Z)
| Dup (fd : Z)
| Close (fd : Z)
| Read (fd n : Z)
| Write (fd : Z) (bytes : list Z)
| Fstat (fd : Z)
| Link (old new : list Z)
| Unlink (path : list Z)
| Mkdir (path : list Z)
| Fork
| Exec (path : list Z) (argv : list (list Z))
| Wait
| Kill (pid : Z)
| Sleep (n : Z)
| Poweroff
| PsList (limit : Z)
| PsListGlobal (limit : Z)
| PsInfo (pid : Z).
Record reply := mkReply { r_val : Z; r_data : list Z }.

Record tool := mkTool { t_log : list (call * reply); t_exit : option Z }.
Definition eta_tool t := mkTool (t_log t) (t_exit t).
#[export] Instance upd_t_log : Upd t_log := ltac:(mk_upd t_log eta_tool).
#[export] Instance upd_t_exit : Upd t_exit := ltac:(mk_upd t_exit eta_tool).
Notation T := (M tool).

(** What printf writes, each character by itself. *)
Definition printed (fd : Z) (fmt : list Z) (ap : list parg) : option (list (Z * list Z)) :=
  match Uprintf.vprintf fd fmt ap (mkWorld [] ∅ [] [] None) with
  | Done _ w => Some (w_out w)
  | _ => None
  end.

Section tools.
Context (kern : list (call * reply) -> call -> reply).

Definition sys (c : call) : T reply := fun t =>
  let r := kern (t_log t) c in Done r (t <| t_log ::= fun l => l ++ [(c, r)] |>).
Definition sysv (c : call) : T Z := let! r := sys c in ret (r_val r).
Definition texit {A} (n : Z) : T A := modify (upd t_exit (fun _ => Some n)) ;! panic "exit".
(** exec comes back only when it fails. *)
Definition texec (path : list Z) (argv : list (list Z)) : T unit :=
  let! r := sysv (Exec path argv) in
  if r <? 0 then ret tt else panic "exec".
Definition tprintf (fd : Z) (fmt : list Z) (ap : list parg) : T unit :=
  match printed fd fmt ap with
  | Some ws => for_list ws (fun x => let! _ := sys (Write x.1 x.2) in ret tt)
  | None => fault "va_arg"
  end.
Definition line (s : string) : list Z := lit s ++ [10].

(** The kernel writes [data] to the start of the buffer [buf]. *)
Definition fill (buf data : list Z) : T (list Z) :=
  if decide (length data <= length buf)%nat then ret (data ++ drop (length data) buf) else fault "buffer".

(** ** init.c *)

(** [n] rounds of the two loops: [shell] is the process waited for, if there
    is one. *)
Fixpoint init_loop (n : nat) (shell : option Z) : T unit :=
  match n with
  | O => ret tt
  | S n =>
      match shell with
      | None =>
          tprintf 1 (line "init: starting sh") [] ;!
          let! pid := sysv Fork in
          if pid <? 0 then tprintf 1 (line "init: fork failed") [] ;! texit 1 else
          if pid =? 0 then
            texec (lit "sh") [lit "sh"] ;!
            tprintf 1 (line "init: exec sh failed") [] ;!
            texit 1
          else init_loop n (Some pid)
      | Some pid =>
          let! wpid := sysv Wait in
          if wpid =? pid then init_loop n None
          else if wpid <? 0 then tprintf 1 (line "init: wait returned an error") [] ;! texit 1
          else init_loop n (Some pid)
      end
  end.
Definition init_main (n : nat) : T unit :=
  let! fd := sysv (Open (lit "console") O_RDWR) in
  when (fd <? 0)
    (let! _ := sys (Mknod (lit "console") CONSOLE 0) in
     let! _ := sys (Open (lit "console") O_RDWR) in ret tt) ;!
  let! _ := sys (Dup 0) in
  let! _ := sys (Dup 0) in
  init_loop n None.

(** ** kill.c, ln.c, mkdir.c, rm.c, shutdown.c, zombie.c: main with the
    arguments after argv[0] *)

Definition kill_main (args : list (list Z)) : T unit :=
  match args with
  | [] => tprintf 2 (line "usage: kill pid...") [] ;! texit 1
  | _ =>
      for_list args (fun a =>
        match Ulib.atoi (a ++ [0]) with
        | None => fault "atoi"
        | Some pid => let! _ := sys (Kill pid) in ret tt
        end) ;!
      texit 0
  end.
Definition ln_main (args : list (list Z)) : T unit :=
  match args with
  | [old; new] =>
      let! r := sysv (Link old new) in
      when (r <? 0) (tprintf 2 (line "link %s %s: failed") [AStr (Some old); AStr (Some new)]) ;!
      texit 0
  | _ => tprintf 2 (line "Usage: ln old new") [] ;! texit 1
  end.
Fixpoint mkdir_loop (args : list (list Z)) : T unit :=
  match args with
  | [] => ret tt
  | a :: args =>
      let! r := sysv (Mkdir a) in
      if r <? 0 then tprintf 2 (line "mkdir: %s failed to create") [AStr (Some a)] else mkdir_loop args
  end.
Definition mkdir_main (args : list (list Z)) : T unit :=
  match args with
  | [] => tprintf 2 (line "Usage: mkdir files...") [] ;! texit 1
  | _ => mkdir_loop args ;! texit 0
  end.
Fixpoint rm_loop (args : list (list Z)) : T unit :=
  match args with
  | [] => ret tt
  | a :: args =>
      let! r := sysv (Unlink a) in
      if r <? 0 then tprintf 2 (line "rm: %s failed to delete") [AStr (Some a)] else rm_loop args
  end.
Definition rm_main (args : list (list Z)) : T unit :=
  match args with
  | [] => tprintf 2 (line "Usage: rm files...") [] ;! texit 1
  | _ => rm_loop args ;! texit 0
  end.
Definition shutdown_main : T unit := let! _ := sys Poweroff in texit 0.
Definition zombie_main : T unit :=
  let! pid := sysv Fork in
  when (0 <? pid) (let! _ := sys (Sleep 5) in ret tt) ;!
  texit 0.

(** ** ulib.c: stat; ls.c *)

(** struct stat *)
Definition st_ino (st : list Z) : Z := get32 st 4.
Definition st_type (st : list Z) : Z := i16 (get16 st 8).
Definition st_size (st : list Z) : Z := le_val (blk_get st 16 8).

(** The result and [*st], which was [st] before. *)
Definition stat (n : list Z) (st : list Z) : T (Z * list Z) :=
  let! fd := sysv (Open n O_RDONLY) in
  if fd <? 0 then ret (-1, st) else
  let! r := sys (Fstat fd) in
  let! st := fill st (r_data r) in
  let! _ := sys (Close fd) in
  ret (r_val r, st).

(** The index after the last slash at or before [p]. *)
Fixpoint after_slash (path : list Z) (p : nat) : nat :=
  if decide (path !! p = Some 47) then S p else
  match p with O => O | S p => after_slash path p end.
(** The string that fmtname returns, and the static [buf]. *)
Definition fmtname (path buf : list Z) : list Z * list Z :=
  let p := drop (after_slash path (length path)) path in
  if Z.of_nat (length p) >=? DIRSIZ then (p, buf) else
  let buf := arr_put buf 0 p in
  let buf := arr_put buf (length p) (replicate (Z.to_nat DIRSIZ - length p) 32) in
  (cstr buf, buf).

(** The loop over the entries of the directory [path], open as [fd]; [n] is
    more than their number. *)
Fixpoint ls_dir (n : nat) (fd : Z) (path st buf : list Z) : T (list Z) :=
  match n with
  | O => nofuel
  | S n =>
      let! r := sys (Read fd 16) in
      if negb (r_val r =? 16) then ret buf else
      let! de := fill (replicate 16 0) (r_data r) in
      if get16 de 0 =? 0 then ls_dir n fd path st buf else
      let name := path ++ [47] ++ cstr (drop 2 de) in
      let! s := stat name st in
      if s.1 <? 0 then tprintf 1 (line "ls: cannot stat %s") [AStr (Some name)] ;! ls_dir n fd path s.2 buf else
      let f := fmtname name buf in
      tprintf 1 (line "%s %d %d %d")
        [AStr (Some f.1); AInt (st_type s.2); AInt (i32 (st_ino s.2)); AInt (i32 (st_size s.2))] ;!
      ls_dir n fd path s.2 f.2
  end.
(** [buf] is the static buffer of fmtname. *)
Definition ls (n : nat) (path buf : list Z) : T (list Z) :=
  let! fd := sysv (Open path 0) in
  if fd <? 0 then tprintf 2 (line "ls: cannot open %s") [AStr (Some path)] ;! ret buf else
  let! r := sys (Fstat fd) in
  let! st := fill (replicate 24 0) (r_data r) in
  if r_val r <? 0 then
    tprintf 2 (line "ls: cannot stat %s") [AStr (Some path)] ;! (let! _ := sys (Close fd) in ret buf) else
  let! buf :=
    (if (st_type st =? T_DEVICE) || (st_type st =? T_FILE) then
       let f := fmtname path buf in
       tprintf 1 (line "%s %d %d %l")
         [AStr (Some f.1); AInt (st_type st); AInt (i32 (st_ino st)); APtr (st_size st)] ;!
       ret f.2
     else if st_type st =? T_DIR then
       if Z.of_nat (length path) + 1 + DIRSIZ + 1 >? 512 then tprintf 1 (line "ls: path too long") [] ;! ret buf
       else ls_dir n fd path st buf
     else ret buf) in
  let! _ := sys (Close fd) in
  ret buf.
Fixpoint ls_args (n : nat) (args : list (list Z)) (buf : list Z) : T unit :=
  match args with
  | [] => ret tt
  | a :: args => let! buf := ls n a buf in ls_args n args buf
  end.
Definition ls_main (n : nat) (args : list (list Z)) : T unit :=
  let buf := replicate 15 0 in
  match args with
  | [] => let! _ := ls n [46] buf in texit 0
  | _ => ls_args n args buf ;! texit 0
  end.

(** ** ps.c *)

Definition int_at (bs : list Z) (k : nat) : Z := i32 (get32 bs (4 * k)).

Definition process_count : T unit :=
  let! n := sysv (PsList (-1)) in
  if n =? -1 then tprintf 1 (line "Error count") [] ;! texit (-1)
  else tprintf 1 (line "%d") [AInt n].
(** The array has [limit] ints, which must not be negative. *)
Definition process_pids : T unit :=
  let! limit := sysv (PsList (-1)) in
  if limit <? 0 then fault "pids" else
  let pids := replicate (Z.to_nat (4 * limit)) 255 in
  let! r := sys (PsList limit) in
  let! pids := fill pids (r_data r) in
  if r_val r =? -1 then tprintf 1 (line "ps_list: internal error") [] ;! texit (-1) else
  tprintf 1 (line "Total: %d") [AInt (r_val r)] ;!
  tprintf 1 ([10] ++ line "Pids:") [] ;!
  for_list (seq 0 (Z.to_nat limit)) (fun i => tprintf 1 (lit "%d ") [AInt (int_at pids i)]) ;!
  tprintf 1 [10] [].

(** struct process_info: the strings at 0 and 28, the ints in between and
    behind. *)
Definition PSINFO : nat := 80.
Definition info_format : list Z :=
  line "info about pid = %d in namespace %d:" ++ line "state -> %s" ++ line "PPID -> %d" ++ line "mem -> %d bytes" ++
  line "files_count -> %d" ++ line "name -> %s" ++ line "/////TIME/////:" ++ line "proc_ticks -> %d" ++
  line "run_time -> %d" ++ line "context_switches -> %d" ++ line "user -> %d" ++ line "kernel -> %d" ++
  line "waiting -> %d" ++ line "/////MEMINFO/////:" ++ line "read -> %d" ++ line "write -> %d" ++
  line "pages -> %d" ++ line "ps_info return value -> %d" ++ [10].
Definition info_args (pid pid_ns : Z) (ps : list Z) (res : Z) : list parg :=
  [AInt pid; AInt pid_ns; AStr (Some ps)] ++ map (fun k => AInt (int_at ps k)) [4; 5; 6]%nat ++
  [AStr (Some (drop 28 ps))] ++ map (fun k => AInt (int_at ps k)) (seq 11 9) ++ [AInt res].
Definition process_list : T unit :=
  let limit := 100 in
  let pids := replicate 400 255 in
  let! r := sys (PsListGlobal limit) in
  let! pids_g := fill pids (r_data r) in
  when (r_val r <? 0) (tprintf 1 (line "ps_list (global): internal error") []) ;!
  if limit <? r_val r then tprintf 1 (line "ps_list: too many processes") [] ;! texit (-1) else
  let! q := sys (PsList limit) in
  let! pids_ns := fill pids (r_data q) in
  when (r_val q <? 0) (tprintf 1 (line "ps_list (namespace): internal error") []) ;!
  for_list (seq 0 (Z.to_nat (r_val r))) (fun i =>
    let! x := sys (PsInfo (int_at pids_g i)) in
    let! ps := fill (replicate PSINFO 0) (r_data x) in
    if r_val x =? -1 then
      tprintf 1 (line "ps_info: cannot get info about global pid = %d" ++ [10]) [AInt (int_at pids_g i)]
    else tprintf 1 info_format (info_args (int_at pids_g i) (int_at pids_ns i) ps (r_val x))).
Definition ps_main (args : list (list Z)) : T unit :=
  match args with
  | [a] =>
      if decide (a = lit "count") then process_count ;! texit 0
      else if decide (a = lit "pids") then process_pids ;! texit 0
      else if decide (a = lit "list") then process_list ;! texit 0
      else tprintf 1 (line "Unknown command: ps %s") [AStr (Some a)] ;! texit 1
  | _ =>
      tprintf 1 (lit "Argument_ERROR: use " ++ [34] ++ lit "ps count" ++ [34] ++ lit ", " ++ [34] ++ lit "ps pids" ++ [34] ++
        lit " or " ++ [34] ++ lit "ps list" ++ [34; 10]) [] ;! texit 0
  end.

(** ** Printing *)

(** A format of %d, %s and %l, with an argument of the right kind for each. *)
Fixpoint format_ok (fmt : list Z) (ap : list parg) {struct fmt} : bool :=
  match fmt with
  | [] => true
  | c :: fmt =>
      if c =? 37 then
        match fmt, ap with
        | d :: fmt, AStr _ :: ap => (d =? 115) && format_ok fmt ap
        | d :: fmt, AInt _ :: ap => (d =? 100) && format_ok fmt ap
        | d :: fmt, APtr _ :: ap => (d =? 108) && format_ok fmt ap
        | _, _ => false
        end
      else format_ok fmt ap
  end.

Definition adds (fd : Z) (w : world) (o : outcome world unit) : Prop :=
  exists ws w', o = Done tt w' /\ w_out w' = w_out w ++ ws /\ Forall (fun x => x.1 = fd) ws.
Lemma adds_bind fd w (m : U unit) (k : U unit) : adds fd w (m w) -> (forall w', adds fd w' (k w')) -> adds fd w ((m ;! k) w).
Proof.
  intros (ws & w1 & E & O1 & H1) Hk. rewrite (bind_done _ _ _ _ _ E). destruct (Hk w1) as (ws' & w2 & E' & O2 & H2).
  exists (ws ++ ws'), w2. split; [done|]. split; [by rewrite O2, O1, app_assoc|by apply Forall_app].
Qed.
Lemma adds_putc fd c w : adds fd w (Uprintf.putc fd c w).
Proof. eexists [(fd, [u8 c])], _. split; [done|]. split; [done|]. by constructor. Qed.
Lemma adds_ret fd w : adds fd w (ret tt w).
Proof. exists [], w. by rewrite app_nil_r. Qed.
Lemma adds_puts fd l w : adds fd w (for_list l (Uprintf.putc fd) w).
Proof.
  revert w. induction l as [|c l IH]; intros w; [apply adds_ret|]. rewrite for_list_cons. apply adds_bind; [apply adds_putc|done].
Qed.
Lemma adds_vprintf fd n : forall fmt ap w, (length fmt <= n)%nat -> format_ok fmt ap = true -> adds fd w (Uprintf.vprintf fd fmt ap w).
Proof.
  induction n as [|n IH]; intros [|c fmt] ap w Hn Hok; cbn [length] in Hn; try lia; try apply adds_ret.
  cbn [format_ok] in Hok. cbn [Uprintf.vprintf]. destruct (Z.eqb_spec c 37) as [->|Hc]; cbn [negb].
  - destruct fmt as [|d fmt], ap as [|[x|x|x] ap]; try done; apply andb_prop in Hok as [->%Z.eqb_eq Hok]; cbn [Z.eqb Pos.eqb];
      (apply adds_bind; [apply adds_puts|intros w'; apply IH; [cbn in Hn; lia|done]]).
  - apply adds_bind; [apply adds_putc|]. intros w'. apply IH; [lia|done].
Qed.
Lemma printed_some fd fmt ap : format_ok fmt ap = true ->
  exists ws, printed fd fmt ap = Some ws /\ Forall (fun x => x.1 = fd) ws.
Proof.
  intros Hok. destruct (adds_vprintf fd _ fmt ap (mkWorld [] ∅ [] [] None) (le_n _) Hok) as (ws & w & E & Ho & Hws).
  exists ws. split; [|done]. unfold printed. rewrite E. by rewrite Ho.
Qed.

Lemma write_done (x : Z * list Z) t : (let! _ := sys (Write x.1 x.2) in ret tt) t =
  Done tt (t <| t_log ::= fun l => l ++ [(Write x.1 x.2, kern (t_log t) (Write x.1 x.2))] |>).
Proof. done. Qed.
Lemma sysv_done c t : sysv c t = Done (r_val (kern (t_log t) c)) (t <| t_log ::= fun l => l ++ [(c, kern (t_log t) c)] |>).
Proof. done. Qed.
(** tprintf makes exactly these writes. *)
Lemma tprintf_run fd fmt ap t : format_ok fmt ap = true -> exists ws l,
  printed fd fmt ap = Some ws /\ Forall (fun x => x.1 = fd) ws /\
  tprintf fd fmt ap t = Done tt (t <| t_log ::= fun l0 => l0 ++ l |>) /\
  l.*1 = map (fun x => Write x.1 x.2) ws.
Proof.
  intros Hok. destruct (printed_some fd fmt ap Hok) as (ws & E & Hws). unfold tprintf. rewrite E.
  assert (H : exists l, for_list ws (fun x => let! _ := sys (Write x.1 x.2) in ret tt) t = Done tt (mkTool (t_log t ++ l) (t_exit t)) /\
    l.*1 = map (fun x => Write x.1 x.2) ws).
  { clear. revert t. induction ws as [|x ws IH]; intros t; [exists []; destruct t; cbn; by rewrite app_nil_r|].
    rewrite for_list_cons. rewrite (bind_done _ _ _ _ _ (write_done x t)).
    destruct (IH (t <| t_log ::= fun l => l ++ [(Write x.1 x.2, kern (t_log t) (Write x.1 x.2))] |>)) as (l & E & Hl).
    exists ((Write x.1 x.2, kern (t_log t) (Write x.1 x.2)) :: l). split; [|cbn; by rewrite Hl].
    rewrite E. ksimp. by rewrite <- app_assoc. }
  destruct H as (l & El & Hl). by exists ws, l.
Qed.

(** ** init *)

Definition is_event (x : call * reply) : bool := match x.1 with Fork | Wait => true | _ => false end.
Definition events (l : list (call * reply)) : list (call * reply) := List.filter is_event l.
(** The calls of fork and wait are those of a supervisor of [shell], which
    starts a new one exactly when there is none, and stops when a call
    fails (or as the child). *)
Fixpoint supervised (shell : option Z) (l : list (call * reply)) : bool :=
  match l, shell with
  | [], _ => true
  | (Fork, r) :: l, None => if 0 <? r_val r then supervised (Some (r_val r)) l else match l with [] => true | _ => false end
  | (Wait, r) :: l, Some pid =>
      if r_val r =? pid then supervised None l
      else if r_val r <? 0 then match l with [] => true | _ => false end
      else supervised (Some pid) l
  | _, _ => false
  end.
(** The call after which the process ends or is another program. *)
Definition stopped (x : call * reply) : Prop :=
  (exists log, x.2 = kern log x.1) /\ ((x.1 = Fork /\ r_val x.2 <= 0) \/ (x.1 = Wait /\ r_val x.2 < 0)).

Definition runs (n : nat) (shell : option Z) (t : tool) (o : outcome tool unit) : Prop :=
  match o with
  | Done _ t' => exists l, t' = mkTool (t_log t ++ l) (t_exit t) /\ supervised shell (events l) = true /\ length (events l) = n
  | Panic m t' => exists l x, t_log t' = t_log t ++ l /\ supervised shell (events l) = true /\ (length (events l) <= n)%nat /\
      last (events l) = Some x /\ stopped x /\
      ((m = "exit"%string /\ t_exit t' = Some 1) \/ (m = "exec"%string /\ r_val x.2 = 0))
  | _ => False
  end.
Lemma events_app l l' : events (l ++ l') = events l ++ events l'.
Proof. apply List.filter_app. Qed.
Lemma events_cons x l : is_event x = true -> events (x :: l) = x :: events l.
Proof. unfold events. cbn [List.filter]. by intros ->. Qed.
Lemma events_writes (l : list (call * reply)) (ws : list (Z * list Z)) : l.*1 = map (fun x => Write x.1 x.2) ws -> events l = [].
Proof.
  revert ws. induction l as [|[c r] l IH]; intros [|x ws] E; try done. injection E as -> E. cbn. by eapply IH.
Qed.
(** Calls before a run that are no events do not count. *)
Lemma runs_quiet n shell t l o : events l = [] -> runs n shell (mkTool (t_log t ++ l) (t_exit t)) o -> runs n shell t o.
Proof.
  intros El. destruct o as [[] t'|m t'|m t'| |]; cbn; try done.
  - intros (l' & -> & Hs & Hn). exists (l ++ l'). rewrite app_assoc, events_app, El. done.
  - intros (l' & x & E & H). exists (l ++ l'), x. rewrite E, app_assoc, events_app, El. done.
Qed.
(** A call of fork or wait, and the rest. *)
Lemma runs_event n shell shell' t c o r : is_event (c, r) = true ->
  (forall l, supervised shell ((c, r) :: l) = supervised shell' l) ->
  runs n shell' (mkTool (t_log t ++ [(c, r)]) (t_exit t)) o -> runs (S n) shell t o.
Proof.
  intros He Hs. destruct o as [[] t'|m t'|m t'| |]; cbn; try done.
  - intros (l' & -> & Hs' & Hn). exists ((c, r) :: l'). rewrite events_cons, <- app_assoc, Hs by done. cbn [length]. by rewrite Hn.
  - intros (l' & x & E & Hs' & Hn & Hl & H). exists ((c, r) :: l'), x. rewrite events_cons, E, <- app_assoc, Hs by done.
    split; [done|]. split; [done|]. split; [cbn [length]; lia|]. by rewrite last_cons, Hl.
Qed.
(** The failure of a call, a message and exit(1). *)
Lemma runs_failed n shell t c r fmt : is_event (c, r) = true -> supervised shell [(c, r)] = true -> stopped (c, r) ->
  format_ok fmt [] = true ->
  runs (S n) shell t ((tprintf 1 fmt [] ;! texit 1) (mkTool (t_log t ++ [(c, r)]) (t_exit t))).
Proof.
  intros He Hs Hst Hf. destruct (tprintf_run 1 fmt [] (mkTool (t_log t ++ [(c, r)]) (t_exit t)) Hf) as (ws & l & _ & _ & E & Hl).
  rewrite (bind_done _ _ _ _ _ E). cbn. exists ((c, r) :: l), (c, r).
  rewrite events_cons, (events_writes l ws Hl) by done.
  split; [exact (eq_sym (app_assoc _ [_] l))|]. split; [done|]. split; [cbn [length]; lia|]. split; [done|]. split; [done|]. by left.
Qed.

(** The child becomes the shell, or fails to. *)
Lemma runs_child n t r path argv fmt : (exists log, r = kern log Fork) -> r_val r = 0 -> format_ok fmt [] = true ->
  runs (S n) None t ((texec path argv ;! tprintf 1 fmt [] ;! texit 1) (mkTool (t_log t ++ [(Fork, r)]) (t_exit t))).
Proof.
  intros Hr H0 Hf. unfold texec, sysv. set (t1 := mkTool _ _). set (e := kern (t_log t1) (Exec path argv)).
  assert (Hs : forall l, events l = [] -> supervised None (events ((Fork, r) :: l)) = true /\
    (length (events ((Fork, r) :: l)) <= S n)%nat /\ last (events ((Fork, r) :: l)) = Some (Fork, r) /\ stopped (Fork, r)).
  { intros l El. rewrite events_cons, El by done. cbn. rewrite H0. split; [done|]. split; [lia|]. split; [done|]. split; [done|]. left. split; [done|]. cbn. lia. }
  unfold bind at 1 2 3, sys. cbn [obind]. fold e. unfold ret at 1. cbn [obind].
  destruct (Z.ltb_spec (r_val e) 0).
  - unfold ret. cbn [obind]. set (t2 := upd t_log _ t1).
    destruct (tprintf_run 1 fmt [] t2 Hf) as (ws & l & _ & _ & E & Hl). rewrite (bind_done _ _ _ _ _ E). cbn.
    exists ((Fork, r) :: (Exec path argv, e) :: l), (Fork, r). destruct (Hs ((Exec path argv, e) :: l)) as (? & ? & ? & ?).
    { by apply (events_writes l ws). }
    split; [etrans; [exact (eq_sym (app_assoc (t_log t1) [_] l))|exact (eq_sym (app_assoc (t_log t) [_] (_ :: l)))]|]. split_and!; try done. by left.
  - cbn. exists [(Fork, r); (Exec path argv, e)], (Fork, r). destruct (Hs [(Exec path argv, e)]) as (? & ? & ? & ?); [done|].
    split; [exact (eq_sym (app_assoc (t_log t) [_] [_]))|]. split_and!; try done. by right.
Qed.

Lemma runs_init_loop n shell t : (forall pid, shell = Some pid -> 0 < pid) -> runs n shell t (init_loop n shell t).
Proof.
  revert shell t. induction n as [|n IH]; intros shell t Hs; cbn [init_loop].
  { exists []. cbn. rewrite app_nil_r. by destruct t, shell. }
  destruct shell as [pid|].
  - rewrite (bind_done _ _ _ _ _ (sysv_done Wait t)). set (r := kern (t_log t) Wait).
    specialize (Hs pid eq_refl). destruct (Z.eqb_spec (r_val r) pid) as [E|E]; [|destruct (Z.ltb_spec (r_val r) 0)].
    + apply (runs_event n _ None _ Wait _ r); [done|intros l; cbn; by rewrite (proj2 (Z.eqb_eq _ _) E)|]. by apply IH.
    + apply runs_failed; [done| |split; [by exists (t_log t)|by right]|done]. cbn. by rewrite (proj2 (Z.eqb_neq _ _) E), (proj2 (Z.ltb_lt _ _)).
    + apply (runs_event n _ (Some pid) _ Wait _ r); [done| |by apply IH; intros ? [= <-]].
      intros l. cbn. by rewrite (proj2 (Z.eqb_neq _ _) E), (proj2 (Z.ltb_ge _ _)).
  - destruct (tprintf_run 1 (line "init: starting sh") [] t eq_refl) as (ws & l & _ & _ & E & Hl). rewrite (bind_done _ _ _ _ _ E).
    apply (runs_quiet _ _ t l); [by eapply events_writes|]. set (t1 := mkTool _ _).
    change (upd t_log (fun l0 => l0 ++ l) t) with t1. rewrite (bind_done _ _ _ _ _ (sysv_done Fork t1)).
    set (r := kern (t_log t1) Fork). destruct (Z.ltb_spec (r_val r) 0); [|destruct (Z.eqb_spec (r_val r) 0) as [E0|E0]].
    + apply runs_failed; [done| |split; [by exists (t_log t1)|left; split; [done|cbn; lia]]|done]. cbn. by rewrite (proj2 (Z.ltb_ge _ _)) by lia.
    + apply runs_child; [by exists (t_log t1)|done|done].
    + apply (runs_event n _ (Some (r_val r)) _ Fork _ r); [done| |apply IH; intros ? [= <-]; lia].
      intros l'. cbn. by rewrite (proj2 (Z.ltb_lt _ _)) by lia.
Qed.

Lemma runs_init_main n : runs n None (mkTool [] None) (init_main n (mkTool [] None)).
Proof.
  unfold init_main. rewrite (bind_done _ _ _ _ _ (sysv_done _ _)). set (t1 := upd t_log _ _).
  assert (H : forall l, events l = [] -> runs n None (mkTool [] None) ((let! _ := sys (Dup 0) in let! _ := sys (Dup 0) in
    init_loop n None) (mkTool l None))).
  { intros l El. unfold bind at 1 2, sys. cbn [obind]. set (t2 := upd t_log _ _).
    apply (runs_quiet _ _ _ (t_log t2)).
    { change (events ((l ++ [(Dup 0, kern l (Dup 0))]) ++ [(Dup 0, kern (l ++ [(Dup 0, kern l (Dup 0))]) (Dup 0))]) = []).
      by rewrite !events_app, El. }
    by apply (runs_init_loop n None t2). }
  unfold when. destruct (_ <? 0); unfold bind at 1.
  - unfold bind at 1 2, sys at 1 2, ret. cbn [obind]. set (t2 := upd t_log _ (upd t_log _ t1)).
    apply (H (t_log t2)). done.
  - unfold ret. cbn [obind]. apply (H (t_log t1)). done.
Qed.

(** C30. init supervises the shell, against any kernel.  Whatever its system
    calls return, its calls of fork and wait are those of a supervisor: it
    forks when and only when it has no shell, waits until wait gives the pid of
    this shell, letting other children pass, and then forks again.  It ends,
    with status 1 (in the child: becomes the shell), only after a fork that
    did not give a child or a wait that failed; while these calls succeed it
    goes on for ever. *)
Theorem init_supervises n :
  match init_main n (mkTool [] None) with
  | Done _ t => supervised None (events (t_log t)) = true /\ length (events (t_log t)) = n
  | Panic m t => supervised None (events (t_log t)) = true /\ exists x, last (events (t_log t)) = Some x /\ stopped x /\
      ((m = "exit"%string /\ t_exit t = Some 1) \/ (m = "exec"%string /\ r_val x.2 = 0))
  | _ => False
  end /\
  ((forall log, 0 < r_val (kern log Fork)) -> (forall log, 0 <= r_val (kern log Wait)) ->
   exists t, init_main n (mkTool [] None) = Done tt t).
Proof.
  pose proof (runs_init_main n) as H. destruct (init_main n (mkTool [] None)) as [[] t|m t|m t| |]; cbn in H; try done.
  - destruct H as (l & -> & Hs & Hn). cbn. split; [done|]. eauto.
  - destruct H as (l & x & E & Hs & _ & Hl & Hx & Hm). rewrite E. split; [eauto|]. intros HF HW.
    destruct x as [c r], Hx as [[log Hr] [[Hc Hv]|[Hc Hv]]]; cbn in *; subst c r; [specialize (HF log)|specialize (HW log)]; lia.
Qed.

(** ** ps *)

(** What goes to descriptor 1, and what printf would write there. *)
Definition stdout (l : list (call * reply)) : list Z :=
  l ≫= fun x => match x.1 with Write fd bytes => if fd =? 1 then bytes else [] | _ => [] end.
Definition text (fmt : list Z) (ap : list parg) : list Z := default [] (printed 1 fmt ap) ≫= snd.
Lemma stdout_app l l' : stdout (l ++ l') = stdout l ++ stdout l'.
Proof. apply bind_app. Qed.
Lemma stdout_writes (l : list (call * reply)) ws : Forall (fun x : Z * list Z => x.1 = 1) ws ->
  l.*1 = map (fun x => Write x.1 x.2) ws -> stdout l = ws ≫= snd.
Proof.
  revert l. induction ws as [|[fd bs] ws IH]; intros [|[c r] l] Hf E; try done.
  apply Forall_cons in Hf as [Hfd Hf]. cbn in Hfd. subst fd. injection E as -> E. unfold stdout in *. rewrite !bind_cons. cbn.
  by rewrite IH.
Qed.
Lemma tprintf_out fmt ap t : format_ok fmt ap = true -> exists t', tprintf 1 fmt ap t = Done tt t' /\
  stdout (t_log t') = stdout (t_log t) ++ text fmt ap /\ t_exit t' = t_exit t.
Proof.
  intros Hok. destruct (tprintf_run 1 fmt ap t Hok) as (ws & l & Ew & Hws & E & Hl). eexists. split; [exact E|].
  split; [|done]. change (stdout (t_log t ++ l) = stdout (t_log t) ++ text fmt ap).
  rewrite stdout_app, (stdout_writes l ws) by done. unfold text. by rewrite Ew.
Qed.
Lemma tprintf_each {A} fmt (ap : A -> list parg) (l : list A) t : (forall a, format_ok fmt (ap a) = true) ->
  exists t', for_list l (fun a => tprintf 1 fmt (ap a)) t = Done tt t' /\
    stdout (t_log t') = stdout (t_log t) ++ (l ≫= fun a => text fmt (ap a)) /\ t_exit t' = t_exit t.
Proof.
  intros Hok. revert t. induction l as [|a l IH]; intros t; [exists t; by rewrite app_nil_r|].
  rewrite for_list_cons. destruct (tprintf_out fmt (ap a) t (Hok a)) as (t1 & E1 & O1 & X1). rewrite (bind_done _ _ _ _ _ E1).
  destruct (IH t1) as (t2 & E2 & O2 & X2). exists t2. rewrite E2, O2, O1, X2, X1, bind_cons, app_assoc. done.
Qed.

Lemma int_at_bytes (ps : list Z) i p : ps !! i = Some p -> - 2 ^ 31 <= p < 2 ^ 31 -> int_at (ps ≫= bytes_of_int) i = p.
Proof.
  intros Hi Hp. unfold int_at, get32.
  assert (E : (ps ≫= bytes_of_int) = ((u32 <$> ps) ≫= fun a => le_bytes 4 (u32 a))).
  { clear. induction ps as [|p ps IH]; [done|]. rewrite fmap_cons, !bind_cons, IH. unfold bytes_of_int.
    by rewrite (u32_small (u32 p)) by apply u32_range. }
  rewrite E, (DinodeSpec.addrs_bytes _ i (u32 p)); [|by rewrite list_lookup_fmap, Hi|apply u32_range].
  rewrite i32_of_u32. by apply i32_small.
Qed.
Lemma bytes_of_ints_length (ps : list Z) : length (ps ≫= bytes_of_int) = (4 * length ps)%nat.
Proof. induction ps as [|p ps IH]; [done|]. rewrite bind_cons, length_app, IH. cbn [length bytes_of_int le_bytes]. lia. Qed.

Lemma pids_text (ps : list Z) (f : nat -> Z) : (forall i p, ps !! i = Some p -> f i = p) ->
  (seq 0 (length ps) ≫= fun i => text (lit "%d ") [AInt (f i)]) = (ps ≫= fun p => text (lit "%d ") [AInt p]).
Proof.
  revert f. induction ps as [|p ps IH]; intros f Hf; [done|]. cbn [length seq]. rewrite !bind_cons, (Hf 0%nat p) by done. f_equal.
  rewrite <- fmap_S_seq. rewrite <- (IH (fun i => f (S i))) by (intros i q; apply (Hf (S i))).
  generalize (seq 0 (length ps)). intros l. induction l as [|i l IHl]; [done|]. rewrite fmap_cons, !bind_cons. by f_equal.
Qed.

(** C32. ps pids prints the processes.  If the kernel's ps_list returns the
    number of the processes [ps] and writes as many of their pids as the
    limit allows, then ps pids, which asks for the number first and for the
    pids then, prints the total and every pid in order and exits with 0. *)
Theorem ps_pids_prints (ps : list Z) :
  (forall log limit, kern log (PsList limit) =
     mkReply (Z.of_nat (length ps)) (take (Z.to_nat limit) ps ≫= bytes_of_int)) ->
  Forall (fun p => - 2 ^ 31 <= p < 2 ^ 31) ps ->
  exists t, ps_main [lit "pids"] (mkTool [] None) = Panic "exit" t /\ t_exit t = Some 0 /\
    stdout (t_log t) = text (line "Total: %d") [AInt (Z.of_nat (length ps))] ++ text ([10] ++ line "Pids:") [] ++
      (ps ≫= fun p => text (lit "%d ") [AInt p]) ++ text [10] [].
Proof.
  intros Hk Hps. unfold ps_main. rewrite decide_False, decide_True by done.
  assert (H : exists t, process_pids (mkTool [] None) = Done tt t /\ t_exit t = None /\
    stdout (t_log t) = text (line "Total: %d") [AInt (Z.of_nat (length ps))] ++ text ([10] ++ line "Pids:") [] ++
      (ps ≫= fun p => text (lit "%d ") [AInt p]) ++ text [10] []).
  2: { destruct H as (t & E & _ & Ho). rewrite (bind_done _ _ _ _ _ E). eexists. split; [reflexivity|]. by split. }
  unfold process_pids. rewrite (bind_done _ _ _ _ _ (sysv_done _ _)), Hk. cbn [r_val].
  rewrite (proj2 (Z.ltb_ge _ _)) by lia. unfold bind at 1, sys at 1. cbn [obind]. rewrite Hk. cbn [r_val r_data].
  rewrite Nat2Z.id, firstn_all. set (t1 := upd t_log _ _).
  assert (Hf : fill (replicate (Z.to_nat (4 * Z.of_nat (length ps))) 255) (ps ≫= bytes_of_int) t1 = Done (ps ≫= bytes_of_int) t1).
  { unfold fill. rewrite decide_True by (rewrite length_replicate, bytes_of_ints_length; lia). unfold ret.
    rewrite drop_ge by (rewrite length_replicate, bytes_of_ints_length; lia). by rewrite app_nil_r. }
  rewrite (bind_done _ _ _ _ _ Hf), (proj2 (Z.eqb_neq _ _)) by lia.
  destruct (tprintf_out (line "Total: %d") [AInt (Z.of_nat (length ps))] t1 eq_refl) as (t2 & E2 & O2 & X2).
  rewrite (bind_done _ _ _ _ _ E2).
  destruct (tprintf_out ([10] ++ line "Pids:") [] t2 eq_refl) as (t3 & E3 & O3 & X3). rewrite (bind_done _ _ _ _ _ E3).
  destruct (tprintf_each (lit "%d ") (fun i => [AInt (int_at (ps ≫= bytes_of_int) i)]) (seq 0 (length ps)) t3
    (fun _ => eq_refl)) as (t4 & E4 & O4 & X4). rewrite (bind_done _ _ _ _ _ E4).
  destruct (tprintf_out [10] [] t4 eq_refl) as (t5 & E5 & O5 & X5). exists t5. split; [done|]. split; [by rewrite X5, X4, X3, X2|].
  rewrite O5, O4, O3, O2. change (stdout (t_log t1)) with (@nil Z). rewrite <- !app_assoc. cbn [app]. do 3 f_equal.
  apply pids_text. intros i p Hi. apply int_at_bytes; [done|]. by apply (Forall_lookup_1 _ _ _ _ Hps Hi).
Qed.

(** ** fmtname *)

Lemma after_slash_dir (dir name : list Z) k : 47 ∉ name -> (k <= length name)%nat ->
  after_slash (dir ++ 47 :: name) (S (length dir) + k) = S (length dir).
Proof.
  intros Hn. induction k as [|k IH]; intros Hk.
  - rewrite Nat.add_0_r. cbn [after_slash]. rewrite decide_False.
    + replace (after_slash _ (length dir)) with (S (length dir)); [done|].
      destruct (length dir) eqn:E; cbn [after_slash]; (rewrite decide_True; [done|]); rewrite <- E; by apply list_lookup_middle.
    + rewrite lookup_app_r, Nat.sub_succ_l, Nat.sub_diag by lia. cbn. intros H. by apply Hn, (list_elem_of_lookup_2 _ 0).
  - rewrite Nat.add_succ_r. cbn [after_slash]. rewrite decide_False; [by apply IH; lia|].
    rewrite lookup_app_r by lia. replace (_ - length dir)%nat with (S (S k)) by lia. cbn.
    intros H. by apply Hn, (list_elem_of_lookup_2 _ (S k)).
Qed.
(** The last component of a path, padded with blanks to DIRSIZ characters;
    the static buffer stays terminated. *)
Lemma fmtname_pads (dir name buf : list Z) : 47 ∉ name -> 0 ∉ name -> Z.of_nat (length name) < DIRSIZ ->
  length buf = 15%nat -> buf !! 14%nat = Some 0 ->
  exists buf', fmtname (dir ++ 47 :: name) buf = (name ++ replicate (Z.to_nat DIRSIZ - length name) 32, buf') /\
    length buf' = 15%nat /\ buf' !! 14%nat = Some 0.
Proof.
  intros Hs H0 Hn Hl Hz. unfold fmtname. replace (length (dir ++ 47 :: name)) with (S (length dir) + length name)%nat
    by (rewrite length_app; cbn; lia).
  rewrite after_slash_dir by (done || lia).
  assert (drop (S (length dir)) (dir ++ 47 :: name) = name) as -> by (rewrite cons_middle, app_assoc; apply drop_app_length'; rewrite length_app; cbn; lia).
  rewrite Z.geb_leb, (proj2 (Z.leb_gt _ _)) by done. unfold DIRSIZ in *. change (Z.to_nat 14) with 14%nat.
  assert (Hd : drop 14 buf = [0]).
  { rewrite (drop_S buf 0) by done. by rewrite drop_ge by lia. }
  assert (E : arr_put (arr_put buf 0 name) (length name) (replicate (14 - length name) 32) =
    (name ++ replicate (14 - length name) 32) ++ [0]).
  { unfold arr_put. rewrite take_0, app_nil_l, Nat.add_0_l, take_app_length, length_replicate, drop_app_add, drop_drop, <- app_assoc.
    replace (length name + (14 - length name))%nat with 14%nat by lia. by rewrite Hd. }
  rewrite E. eexists. split; [f_equal; apply GrepSpec.cstr_line|].
  - by intros [?|[? _]%elem_of_replicate]%elem_of_app.
  - split; [rewrite !length_app, length_replicate; cbn; lia|].
    rewrite lookup_app_r by (rewrite length_app, length_replicate; lia). rewrite length_app, length_replicate.
    by replace (14 - _)%nat with 0%nat by lia.
Qed.

End tools.

(** ** A kernel *)

(** Three processes; fork gives 7, and every other wait another child. *)
Definition sample_kern (log : list (call * reply)) (c : call) : reply :=
  match c with
  | PsList limit => mkReply 3 (take (Z.to_nat limit) [1; 2; 5] ≫= bytes_of_int)
  | Fork => mkReply 7 []
  | Wait => mkReply (if Nat.even (length log) then 7 else 3) []
  | _ => mkReply 0 []
  end.
Lemma ps_pids_prints_witness : exists t, ps_main sample_kern [lit "pids"] (mkTool [] None) = Panic "exit" t /\
  stdout (t_log t) = line "Total: 3" ++ [10] ++ line "Pids:" ++ line "1 2 5 ".
Proof.
  destruct (ps_pids_prints sample_kern [1; 2; 5]) as (t & E & _ & Ho).
  - intros log limit. reflexivity.
  - repeat constructor; lia.
  - exists t. split; [exact E|]. rewrite Ho. vm_compute. reflexivity.
Defined.
Lemma init_supervises_witness : exists t, init_main sample_kern 9 (mkTool [] None) = Done tt t.
Proof.
  apply (init_supervises sample_kern 9).
  - intros log. reflexivity.
  - intros log. cbn. destruct (Nat.even _); cbn; lia.
Defined.

End Tools.
